(* ===== verification/_CoqProject ===== *)
-Q . S2P
Prelude.v
GoStrings.v
Json.v
GoUrl.v
JsonProps.v
Sha256.v
Problem.v
Schema.v
Platform.v
Authz.v
DeployNames.v
DeployStore.v
Deployments.v
DeploySpec.v
DeployHandlers.v
DeployInv.v
DeploySystem.v
DeploySafety.v
DeployJobs.v
DeployProps.v
Caddy.v
CaddyProps.v
Agent.v
AgentProps.v
Gateway.v
Config.v
ConfigProps.v
Sources.v
SourcesSpec.v
GitHubApp.v
Webhooks.v
WebhooksProps.v
GitHubAppProps.v
Services.v
ServicesPure.v
ServicesSpec.v
Builder.v
BackupStore.v
Backups.v
BackupSpec.v
BackupSystem.v
BackupAgent.v
BackupAgentProps.v
BackupProps.v
BackupGateway.v
ServicesProps.v
SourcesProps.v
Domains.v
DomainsProps.v
DomainsSystem.v
Projects.v
Environments.v
Servers.v
TenancySpec.v
TenancyProps.v
Passwd.v
Auth.v
AuthSpec.v
AuthProps.v
AuthSafety.v
AgentRegistry.v
AgentRegistryProps.v
Readiness.v
ReadinessProps.v
ServerSetup.v
ServerSetupProps.v
SetupRunner.v
SetupProps.v
ShellWords.v
AgentIdentity.v
AgentIdentityProps.v
AgentHealing.v
Scenario.v
BackupScenario.v
ServicesScenario.v
RegistryScenario.v
DomainsScenario.v
TenancyScenario.v
WebhookScenario.v
SetupScenario.v
