(* ===== verification/Prelude.v ===== *)
(** * Plorigo: the control plane, the agent and their contract

    Plorigo deploys services on the servers of a workspace.  A control plane (Go, one
    PostgreSQL database) takes the requests of the dashboard, keeps services, their
    configuration and their Git connections, queues deployments, teardowns, backups and
    restores, and answers the agents; an agent on each server polls, builds or pulls,
    runs containers, switches the reverse proxy (Caddy), dumps and restores databases,
    and reports.  This development models that path through both halves, and proves what
    each part promises and what the parts promise each other.

    ** Files

    Foundations.
    - [Prelude]: tactics, ordering, insertion sort, tables as lists of rows ([where_],
      [update_where], [lookup_by], [order_by]).
    - [GoStrings]: the functions of Go's strings and strconv packages the code uses, on
      bytes; [GoUrl]: the parts of net/url in use.  [Sha256]: crypto/sha256, its hexadecimal
      text and the HMAC of a webhook signature, executable.  [Json]: the part of
      encoding/json in use, reader and writer; [JsonProps]: the reader's fuel is enough,
      and it reads what the writer wrote.
    - [Problem]: the error values; [internal/platform/problem], mapErr, ToConnect.
    - [Schema]: the row types of [internal/platform/database/db/models.go], the database
      [DB] as one list of rows per table, the constraints of [migrations/].
    - [Platform]: the state and error monad [M] over a [World]; [WithinTx] of
      [internal/platform/database]; the classes [Env], [Sealer] and
      [Entropy]; the weakest-precondition rules; the GitHub client as a class, with its
      error values; cookie values.
    - [Authz]: [internal/platform/authz], [principal], [policy], [audit].  The class
      [Authorizer] is what the policy promises its clients; the handlers are proved
      against it and [policy_authorizer] discharges it; the theorems on policy and errors.

    Deployments, [internal/deployments].
    - [DeployNames]: route keys, public hosts, network names (service.go).
    - [DeployStore]: the statements of [deployments.sql.go] and others, and the store of
      postgres.go.  [Deployments]: every handler of service.go, teardown.go, webhook.go
      and expiry.go.
    - [DeploySpec], [DeployHandlers]: one specification per store call and handler: what
      it may have done to the database on success, and that it did nothing on an error;
      the queue discipline the three kinds of job share.
    - [DeployInv]: the invariant [wf] and its preservation.  [DeploySystem]: requests,
      [handle], reachable worlds.
    - [DeploySafety] (authorization, atomicity, audit, servers and workspaces, production
      against previews), [DeployJobs] (the queue, the job handed out, the effective
      configuration), [DeployProps] (each operation): the theorems.

    Configuration entries, [internal/config].
    - [Config]: validation, the statements and their uniqueness, Set, Delete,
      ListForService and SetWithinTx; the invariant [cwf].  [ConfigProps]: their rules,
      the environment a deployment of a service gets ([service_env]), the theorems.

    Source connections, [internal/sources], and services, [internal/services].
    - [Sources]: the provider seam and its GitHub implementation, the connections table
      with its two unique indexes, the connect flows, disconnect, the credential and
      repository checks.  [SourcesSpec]: the table's invariant [scwf], the rules.
    - [Services]: vocabulary, the database template, validation, the statements with
      their cascades, every handler; the class [SourcesPort] is what it needs of the
      sources module.  [ServicesPure]: names, passwords, connection URIs.
      [ServicesSpec]: the rules.  [ServicesProps]: the invariant [swf] of the table and
      [inv] of all modules, that every request keeps it, and the other theorems.
    - [SourcesProps]: theorems about connections; [sourcesForServices], the adapter of
      [internal/app/sources_adapter.go], which discharges [SourcesPort].

    Builds, [internal/builder] and [internal/agentcore/build.go].
    - [Builder]: detection over any reader of files ([Detect] is generic in the reader's
      effects), the Dockerfile templates, the preview of the dashboard
      ([DetectFramework] of [internal/services], over the class [RepoContents]), and the
      build of the agent with its lines and its port, over the class [BuildHost]; their
      theorems.

    Backups and restores, [internal/backups] and [internal/agentcore/backup.go].
    - [BackupStore], [Backups]: the statements and every handler.  [BackupSpec]: rules.
      [BackupSystem]: the invariant [bwf], requests, worlds reachable by both modules.
      [BackupProps]: theorems.  [BackupAgent], [BackupAgentProps]: the agent's half over
      the files of the server.  [BackupGateway]: a run delivered to the control plane.

    The agent's deployments, [internal/agentcore].
    - [Caddy], [CaddyProps]: caddy.go: validation, normalisation, rendering, the switch of
      the configuration file and its rollback.
    - [Agent], [AgentProps]: deploy.go and teardown.go as computations that append to a
      trace of actions; the class [Host] answers them.
    - [Gateway]: the messages of handler.go; a run of the agent delivered to the control
      plane; the success logic [runs].

    Agents, [internal/agents] and [internal/agentcore/agentcore.go].
    - [AgentRegistry]: tokens, registration, heartbeats, the derived status and readiness,
      with their statements; [AgentRegistryProps]: its invariant [agwf] and theorems.
    - [AgentIdentity]: the start of Run, register, the state file, the heartbeat loop and
      the facts it reports (health.go, sysinfo.go), over the classes [Machine] and
      [AgentClient].  [AgentIdentityProps]: its theorems.  [AgentHealing]: the loop
      answered by the handlers of [AgentRegistry].

    Custom domains, [internal/domains].
    - [Domains]: hostnames, the statements, Add, Remove, Verify, SetPrimary, the lists and
      the overrides the deployments module asks for; DNS is the class [Resolver], the
      addresses of a server the class [Addresses].  [DomainsProps]: rules and per-operation
      theorems.  [DomainsSystem]: the invariant, requests, what is served and when.

    The tenancy: [internal/projects], [internal/environments], [internal/servers].
    - [Projects], [Environments], [Servers]: every handler with its statements and the
      cascades of the schema.  [TenancySpec]: the invariant [twf] of workspaces, members,
      projects and environments, and the rules.  [TenancyProps]: the theorems.

    Authentication, [internal/auth] and [internal/app/auth_interceptor.go].
    - [Passwd]: the argon2id text of [internal/platform/passwd]; the hash is the class
      [Argon2].  [Auth]: users, sessions, API tokens, mailed tokens, the store and the
      service, over the classes [Mailer] and [Entropy]; the interceptor and the RPC
      handlers, with their cookies.  [AuthSpec]: what each call does to the tables.
      [AuthProps]: the invariant [auwf], what a credential is and whom it admits.
      [AuthSafety]: histories of requests, credentials over time, the theorems.

    GitHub App and webhooks: [internal/githubapp], [internal/webhooks],
    [internal/app/github_webhook.go].
    - [GitHubApp]: the registration from the form to the callback with its sealed state,
      the row of the App, the cached resolvers; the exchange of the code with GitHub is
      the class [ManifestConverter].  [GitHubAppProps]: its theorems, and the resolvers
      and registrations as steps that may interleave.
    - [Webhooks]: the endpoint (size limit, signature, payload) and what a pull request
      does to the previews of the services of its repository; the class [PreviewPort]
      is what it needs of the deployments module.  [WebhooksProps]: the instance, the
      theorems.

    Production readiness, [internal/readiness] and [internal/app/readiness_adapter.go].
    - [Readiness]: the checks, the levels, the two requests; the class [ReadinessPorts]
      is what it reads of the other modules.  [ReadinessProps]: a verdict as a condition
      on the checks; the readers over services, configuration, domains, deployments and
      agents ([app_readers]), and a verdict as a condition on the database.

    Server setup, [internal/serversetup] and [internal/app/serversetup_adapter.go].
    - [ServerSetup]: the management key (provision, rotate, revoke, use, open), the
      setup runs and their events, with their statements; key pairs come from the class
      [KeyGenerator].  [ServerSetupProps]: the invariant [kwf] of the keys, histories of
      requests, the theorems.
    - [SetupRunner]: a run over SSH (bootstrap.go, dialer.go, runSetup), as a computation
      over the database and a trace of what it did; golang.org/x/crypto/ssh and the
      network are the class [SSHLibrary], the run's timeout is [RunContext], the agents
      module is [AgentProvisioner], which [registry_provisioner] discharges with the
      operations of [AgentRegistry].  [SetupProps]: what each step leaves, the frame of a
      run, its verdict, the host key.  [ShellWords]: a reader of POSIX shell words, and
      what it reads in the commands that carry a value.

    Concrete installations, to which the theorems are applied: [Scenario],
    [BackupScenario], [ServicesScenario], [RegistryScenario], [DomainsScenario],
    [TenancyScenario], [WebhookScenario], [SetupScenario].

    ** What the theorems say

    Authorization and audit: no dashboard request succeeds or writes unless the policy
    allows it in the workspace it touches; a viewer writes nothing; a write leaves exactly
    one audit row.  Atomicity: an error leaves no trace, under every schedule of faults,
    but for a poll that fails after its claim.  Isolation: an agent changes only rows of
    its server; previews and production never touch each other; a routing key of
    production belongs to one service; a service's Git connection is one of its own
    workspace.  The queues are first in, first out, exactly once.  One release runs after
    a switch.  The agent never loses the release it replaces: it removes it only after
    the new container passed its health check and Caddy took the new configuration.  The
    configuration file is switched or left alone.
    End to end: a deployment an agent takes is afterwards running or failed, and every
    name the control plane hands out is one the agent's router accepts; a backup an
    agent takes ends, and what a restore feeds to psql is byte for byte the dump; a
    managed database gets one set of credentials that its container, its backups and its
    connection URI share; a configuration entry that is set reaches exactly the
    deployments whose key it decides; a deleted service is named nowhere; a read of
    services is allowed in the workspace of what it names and returns only its services.
    Agents: a credential identifies the one agent of the server its token was minted for,
    a token works once, reported compatibility facts are bounded (the version is stored
    as sent); an agent resumes as itself, keeps one identity at a time, heals with a fresh
    token when its credential is gone, and its heartbeat loop ends when its context does.
    Custom domains: a hostname that is served was proved by a DNS record of this installation
    and belongs to one service; the overrides handed to an agent are names it can route.
    Tenancy: no request takes an owner away from a workspace, requests touch only the
    workspace they are authorized in, and a change needs a signed-in member.
    Authentication: a session exists only after the right password (or a fresh
    registration); a revoked, expired or spent credential never works again, whatever
    requests follow; a reset link works once and ends every session; the answers do not
    tell whether an address is known.
    GitHub: only a delivery signed under the secret in force changes anything, and then
    only previews of that pull request of services of that repository, in the workspace
    that connected the installation; the answer counts exactly what was done; a registration
    decides the credentials in force from then on, and the cache agrees with the database
    as long as operations do not overlap (a Current that does may store a stale answer).
    Readiness: a verdict is the one the newest deployment, the variables, the domains and
    the agents define, the environment's is the worst of its services', and asking changes
    nothing.
    Builds: the framework the dashboard shows and the agent's build agree on every
    repository; a generated Dockerfile is one of finitely many and reads back as the plan
    says; lines do not depend on how output is cut; the port is the lowest one exposed; a
    name read stays inside the clone.
    Server setup: a run says "succeeded" only when each step did its work, always ends when
    no statement faults, writes only rows of its server and run, and publishes no
    credential it was given; commands run only on a host with the key that was dialled
    with; the key opened is the one last stored, and a revoked one is unusable; the values
    in the shell commands are single words whatever they contain.

    ** Modelling decisions

    - A handler is atomic with respect to the other handlers (each reads before it
      writes in one transaction; transactions are atomic); a [World] holds the committed
      database.  [reachable] interleaves whole requests with the steps of other modules.
    - [Env.fault] decides which statement, begin or commit fails, so the theorems hold
      for every failure schedule; a failing commit is one that did not happen.  [now()] is
      the start of the transaction; an event's sequence number is the number of the
      interaction that wrote it, increasing with gaps, as a sequence allows.
    - [ORDER BY] is stable with respect to insertion; text is compared bytewise; ids are
      compared as text, so two spellings of a UUID differ.  [ToLower] is ASCII and the two
      other characters that lower to ASCII.
    - Machine integers are [Z]; the 32-bit pull-request numbers carry their bound
      ([typed]); lengths and ports are bounded by the code's own checks.  A dump is
      shorter than 2^63 bytes.
    - Loops are structural; the poll loops of the agent are modelled per iteration.  Fuel
      bounds three recursions: the rune and word scans and the JSON reader ([readers_fuel]),
      where a length is enough because each step consumes input, and the heartbeat loop
      ([heartbeatLoop_ends]: two iterations more than the events before its context ends).
      Elsewhere context cancellation is left out, as are logging and panics.
    - The UUID parser, bcrypt, the secret opener, token minting and map iteration order
      are fields of [Env] (the order is only known to be a permutation); sealing is the
      class [Sealer], random bytes are [Entropy], the GitHub client is [GitHubClient];
      Docker, git, BuildKit, the health probe and the Caddy binary are fields of [Host],
      [BackupHost] and [ApplyWorld]; the disk of a server is a finite map of files, and a
      failing write never reports end of file.
    - The cookie of a connect flow is sealed JSON; what opening it returned is an
      argument of the handlers that use it, so their theorems hold for every decoding.
      An absent ciphertext is the empty one.
    - A setup run is one sequence of interactions after the request that started it has
      answered; what the timeout of its context cuts short is a failed statement or
      command, or an end noticed between two steps ([ctx_Err]).  Its wait for the agent
      makes at most [rn_heartbeatAttempts] turns.  The trace is not limited by a time.
    - An error keeps its format and arguments unformatted; where the agent prints one into
      a message, [err_text] stands for its text.

    ** Not modelled, and the plan

    Left are parts that keep no state of the control plane: the agent's git, docker and
    BuildKit calls (I/O behind the classes [Host] and [BuildHost]), the repository search
    and the sealing of the connect cookie, the attributes of cookies, the protobuf views and
    the text of the install command, the code of the GitHub client, Docker and SSH
    libraries, the command line, the HTTP wiring and the TypeScript dashboard. *)
From stdpp Require Export base list strings pretty gmap sorting.
From Stdlib Require Export ZArith Lia Ascii.
#[global] Open Scope string_scope.
#[global] Open Scope list_scope.
#[global] Open Scope Z_scope.

(** ** Hint database and tactics of the development *)
Create HintDb plorigo.
Create Rewrite HintDb plorigo.

(** Destruct the scrutinee of some match/if of the goal or of a hypothesis. *)
Ltac destr_match :=
  match goal with
  | |- context [match ?x with _ => _ end] => destruct x eqn:?
  | H : context [match ?x with _ => _ end] |- _ => destruct x eqn:?
  end.

(** Turn boolean tests in hypotheses into propositions. *)
Ltac propify :=
  cbv beta in * |-;
  repeat match goal with
  | H : andb _ _ = true |- _ => apply andb_true_iff in H as [? ?]
  | H : orb _ _ = false |- _ => apply orb_false_iff in H as [? ?]
  | H : negb _ = true |- _ => apply negb_true_iff in H
  | H : negb _ = false |- _ => apply negb_false_iff in H
  | H : String.eqb _ _ = true |- _ => apply String.eqb_eq in H
  | H : String.eqb _ _ = false |- _ => apply String.eqb_neq in H
  | H : Z.leb _ _ = true |- _ => apply Z.leb_le in H
  | H : Z.leb _ _ = false |- _ => apply Z.leb_gt in H
  | H : Z.ltb _ _ = true |- _ => apply Z.ltb_lt in H
  | H : Z.ltb _ _ = false |- _ => apply Z.ltb_ge in H
  | H : Z.eqb _ _ = true |- _ => apply Z.eqb_eq in H
  | H : Z.eqb _ _ = false |- _ => apply Z.eqb_neq in H
  | H : bool_decide _ = true |- _ => apply bool_decide_eq_true in H
  | H : bool_decide _ = false |- _ => apply bool_decide_eq_false in H
  end.

(** ** Stable insertion sort on an integer key: [ORDER BY key] *)
Section OrderBy.
Context {A : Type} (key : A → Z).

Fixpoint insert_by (x : A) (l : list A) : list A :=
  match l with
  | [] => [x]
  | y :: ys => if key x <=? key y then x :: y :: ys else y :: insert_by x ys
  end.

Definition order_by (l : list A) : list A := foldr insert_by [] l.

Lemma insert_by_perm x l : insert_by x l ≡ₚ x :: l.
Proof.
  induction l as [|y ys IH]; simpl; [done|].
  destruct (key x <=? key y); [done|]. rewrite IH. apply Permutation_swap.
Qed.

Lemma order_by_perm l : order_by l ≡ₚ l.
Proof. induction l as [|x l IH]; simpl; [done|]. by rewrite insert_by_perm, IH. Qed.

Lemma insert_by_sorted x l :
  StronglySorted (λ a b, key a ≤ key b) l →
  StronglySorted (λ a b, key a ≤ key b) (insert_by x l).
Proof.
  induction 1 as [|y ys Hs IH Hall]; simpl; [repeat constructor|].
  destruct (Z.leb_spec (key x) (key y)).
  - constructor; [by constructor|]. constructor; [done|].
    eapply Forall_impl; [exact Hall|]. intros z ?; simpl in *; lia.
  - constructor; [done|]. rewrite insert_by_perm. constructor; [lia|done].
Qed.

Lemma order_by_sorted l : StronglySorted (λ a b, key a ≤ key b) (order_by l).
Proof. induction l; simpl; [constructor | by apply insert_by_sorted]. Qed.

Lemma elem_of_order_by x l : x ∈ order_by l ↔ x ∈ l.
Proof. by rewrite order_by_perm. Qed.

Lemma length_order_by l : length (order_by l) = length l.
Proof. by rewrite order_by_perm. Qed.

(** The first row of an ordered result is a minimum. *)
Lemma order_by_head x xs l y :
  order_by l = x :: xs → y ∈ l → key x ≤ key y.
Proof.
  intros Heq Hy. pose proof (order_by_sorted l) as Hs. rewrite Heq in Hs.
  apply StronglySorted_inv in Hs as [_ Hall].
  rewrite <- (elem_of_order_by y l), Heq in Hy.
  apply elem_of_cons in Hy as [->|Hy]; [lia|].
  by apply (proj1 (Forall_forall _ _) Hall) in Hy.
Qed.

Lemma order_by_head_elem x xs l : order_by l = x :: xs → x ∈ l.
Proof. intros Heq. rewrite <- elem_of_order_by, Heq. left. Qed.

Lemma order_by_nil l : order_by l = [] ↔ l = [].
Proof.
  split; [|by intros ->]. intros H. apply Permutation_nil_r. by rewrite <- H, order_by_perm.
Qed.
End OrderBy.

(** ** Insertion sort with a boolean order: [ORDER BY a, b], [sort.Strings] *)
Section InsertionSort.
Context {A : Type} (leb : A → A → bool).
Fixpoint sort_insert (x : A) (l : list A) : list A :=
  match l with
  | [] => [x]
  | y :: ys => if leb x y then x :: y :: ys else y :: sort_insert x ys
  end.
Definition isort (l : list A) : list A := foldr sort_insert [] l.

Lemma sort_insert_perm x l : sort_insert x l ≡ₚ x :: l.
Proof.
  induction l as [|y ys IH]; simpl; [done|].
  destruct (leb x y); [done|]. rewrite IH. apply Permutation_swap.
Qed.
Lemma isort_perm l : isort l ≡ₚ l.
Proof. induction l as [|x l IH]; simpl; [done|]. by rewrite sort_insert_perm, IH. Qed.

(** Sortedness needs the order to be total. *)
Lemma sort_insert_sorted x l :
  (∀ a b, leb a b = false → leb b a = true) →
  (∀ a b c, leb a b = true → leb b c = true → leb a c = true) →
  StronglySorted (λ a b, leb a b = true) l →
  StronglySorted (λ a b, leb a b = true) (sort_insert x l).
Proof.
  intros Htot Htr. induction 1 as [|y ys Hs IH Hall]; simpl; [repeat constructor|].
  destruct (leb x y) eqn:Hxy.
  - constructor; [by constructor|]. constructor; [done|].
    eapply Forall_impl; [exact Hall|]. simpl. eauto.
  - constructor; [done|]. rewrite sort_insert_perm. constructor; [by apply Htot|done].
Qed.
Lemma isort_sorted l :
  (∀ a b, leb a b = false → leb b a = true) →
  (∀ a b c, leb a b = true → leb b c = true → leb a c = true) →
  StronglySorted (λ a b, leb a b = true) (isort l).
Proof. intros H1 H2. induction l; simpl; [constructor|by apply sort_insert_sorted]. Qed.
End InsertionSort.

(** ** Tables as lists of rows: SELECT, UPDATE ... WHERE, key lookup *)
Section Tables.
Context {A : Type}.
Implicit Types (l : list A) (p : A → bool) (f : A → A).

(** [UPDATE t SET f WHERE p] *)
Definition update_where p f l : list A := map (λ r, if p r then f r else r) l.
(** [SELECT * FROM t WHERE p] *)
Definition where_ p l : list A := List.filter p l.
(** [SELECT * FROM t WHERE key = id] on a unique key *)
Definition lookup_by (key : A → string) (id : string) l : option A :=
  List.find (λ r, String.eqb (key r) id) l.
Definition has_key (key : A → string) (id : string) l : bool :=
  existsb (λ r, String.eqb (key r) id) l.

Lemma elem_of_where p l x : x ∈ where_ p l ↔ x ∈ l ∧ p x = true.
Proof. unfold where_. by rewrite !list_elem_of_In, filter_In. Qed.

Lemma elem_of_update_where p f l y :
  y ∈ update_where p f l ↔ ∃ x, x ∈ l ∧ y = if p x then f x else x.
Proof. unfold update_where. rewrite list_elem_of_fmap. naive_solver. Qed.

Lemma length_update_where p f l : length (update_where p f l) = length l.
Proof. apply length_map. Qed.

Lemma Forall_update_where (Q : A → Prop) p f l :
  (∀ x, Q x → p x = true → Q (f x)) → Forall Q l → Forall Q (update_where p f l).
Proof.
  intros Hf. induction 1 as [|x l Hx _ IH]; simpl; constructor; [|done].
  destruct (p x) eqn:?; auto.
Qed.

Lemma update_where_id p f l :
  (∀ x, x ∈ l → p x = true → f x = x) → update_where p f l = l.
Proof.
  induction l as [|x l IH]; intros H; simpl; [done|]. f_equal.
  - destruct (p x) eqn:E; [apply H; [left|done]|done].
  - apply IH. intros y Hy. apply H. by right.
Qed.

(** A column that the update does not write keeps its values. *)
Lemma update_where_ext p f g l : (∀ x, x ∈ l → p x = true → f x = g x) → update_where p f l = update_where p g l.
Proof.
  intros H. unfold update_where. apply map_ext_in. intros x Hx%list_elem_of_In. destruct (p x) eqn:Hp; [by apply H|done].
Qed.
Lemma map_update_where {B} (g : A → B) p f l :
  (∀ x, p x = true → g (f x) = g x) → map g (update_where p f l) = map g l.
Proof.
  intros H. unfold update_where. rewrite map_map. apply map_ext. intros x.
  destruct (p x) eqn:E; auto.
Qed.

Lemma lookup_by_Some key id l x : lookup_by key id l = Some x → x ∈ l ∧ key x = id.
Proof.
  intros [Hin Heq]%find_some. split; [by apply list_elem_of_In|by apply String.eqb_eq].
Qed.

Lemma lookup_by_None key id l : lookup_by key id l = None → ∀ x, x ∈ l → key x ≠ id.
Proof.
  intros H x Hx. apply String.eqb_neq. by apply (find_none _ _ H), list_elem_of_In.
Qed.

(** An update that keeps the key. *)
Lemma lookup_by_update key id p f l : (∀ x, key (f x) = key x) →
  lookup_by key id (update_where p f l) = (λ x, if p x then f x else x) <$> lookup_by key id l.
Proof.
  intros Hf. unfold lookup_by. induction l as [|x l IH]; [done|]. simpl.
  destruct (p x) eqn:Hp; rewrite ?Hf; destruct (String.eqb (key x) id); simpl; by rewrite ?Hp.
Qed.

(** On a unique key, membership determines the lookup. *)
Lemma lookup_by_unique key l x :
  NoDup (map key l) → x ∈ l → lookup_by key (key x) l = Some x.
Proof.
  induction l as [|y l IH]; intros Hnd Hx; [by apply elem_of_nil in Hx|].
  cbn [map] in Hnd. apply NoDup_cons in Hnd as [Hy Hnd]. unfold lookup_by in *. simpl.
  destruct (String.eqb_spec (key y) (key x)) as [Heq|Hne].
  - apply elem_of_cons in Hx as [->|Hx]; [done|]. destruct Hy. rewrite Heq.
    by apply list_elem_of_fmap_2.
  - apply elem_of_cons in Hx as [->|Hx]; [done|]. by apply IH.
Qed.

Lemma has_key_true key id l : has_key key id l = true ↔ ∃ x, x ∈ l ∧ key x = id.
Proof.
  unfold has_key. rewrite existsb_exists. setoid_rewrite list_elem_of_In.
  setoid_rewrite String.eqb_eq. done.
Qed.
Lemma has_key_false key id l : has_key key id l = false ↔ id ∉ map key l.
Proof.
  rewrite <- not_true_iff_false, has_key_true, list_elem_of_fmap. naive_solver.
Qed.
(** A row with the hash exists. *)
Definition has_hash {X} (hash_of : X → list Z) (h : list Z) (l : list X) : bool := existsb (λ x, bool_decide (hash_of x = h)) l.
Lemma has_hash_false {X} (hash_of : X → list Z) h (l : list X) : has_hash hash_of h l = false ↔ ∀ x, x ∈ l → hash_of x ≠ h.
Proof.
  unfold has_hash. rewrite <- not_true_iff_false, existsb_exists. split.
  - intros H x Hx Heq. apply H. exists x. by rewrite <- list_elem_of_In, bool_decide_eq_true.
  - intros H (x & Hx & Hb). rewrite <- list_elem_of_In, bool_decide_eq_true in *. by apply (H x).
Qed.
End Tables.

Lemma where_update_disjoint {A} (q p : A → bool) f (l : list A) :
  (∀ x, x ∈ l → p x = true → q x = false ∧ q (f x) = false) → where_ q (update_where p f l) = where_ q l.
Proof.
  induction l as [|x l IH]; intros H; simpl; [done|].
  assert (where_ q (update_where p f l) = where_ q l) as IH' by (apply IH; set_solver).
  unfold where_, update_where in *.
  destruct (p x) eqn:Hp; [|by rewrite IH'].
  destruct (H x ltac:(left) Hp) as [-> ->]. done.
Qed.

(** ** Sorting and selecting *)
Section OrderFilter.
Context {X : Type} (key : X → Z) (p : X → bool).

Lemma filter_insert_by x l :
  StronglySorted (λ a b, key a ≤ key b) l →
  List.filter p (insert_by key x l) = if p x then insert_by key x (List.filter p l) else List.filter p l.
Proof.
  induction 1 as [|y l Hs IH Hall]; simpl; [by destruct (p x)|].
  destruct (Z.leb_spec (key x) (key y)); simpl.
  - destruct (p x) eqn:Hx; [|done]. destruct (p y) eqn:Hy; simpl.
    + by destruct (Z.leb_spec (key x) (key y)); [|lia].
    + destruct (List.filter p l) as [|z zs] eqn:Hf; [done|]. simpl.
      assert (z ∈ l) as Hz.
      { assert (In z (List.filter p l)) as Hin by (rewrite Hf; by left). apply filter_In in Hin as [Hin _]. by apply list_elem_of_In. }
      pose proof (proj1 (Forall_forall _ _) Hall z Hz). simpl in *.
      destruct (Z.leb_spec (key x) (key z)); [done|lia].
  - rewrite IH. destruct (p y) eqn:Hy, (p x) eqn:Hx; simpl; try done.
    destruct (Z.leb_spec (key x) (key y)); [lia|done].
Qed.

(** Sorting commutes with selecting. *)
Lemma order_by_filter l : order_by key (List.filter p l) = List.filter p (order_by key l).
Proof.
  induction l as [|x l IH]; simpl; [done|]. rewrite filter_insert_by by apply order_by_sorted.
  rewrite <- IH. by destruct (p x).
Qed.
End OrderFilter.

Lemma filter_all {X} (p : X → bool) l : (∀ x, x ∈ l → p x = true) → List.filter p l = l.
Proof.
  induction l as [|x l IH]; intros H; simpl; [done|]. rewrite H by left. f_equal. apply IH. set_solver.
Qed.

Lemma filter_none {X} (p : X → bool) l : (∀ x, x ∈ l → p x = false) → List.filter p l = [].
Proof.
  induction l as [|x l IH]; intros H; simpl; [done|]. rewrite H by left. apply IH. set_solver.
Qed.
Lemma filter_filter {X} (p q : X → bool) l : List.filter p (List.filter q l) = List.filter (λ x, q x && p x) l.
Proof. induction l as [|x l IH]; simpl; [done|]. destruct (q x); simpl; by rewrite IH. Qed.
Lemma filter_map {X Y} (f : X → Y) (p : Y → bool) l : List.filter p (map f l) = map f (List.filter (λ x, p (f x)) l).
Proof. induction l as [|x l IH]; simpl; [done|]. destruct (p (f x)); simpl; by rewrite IH. Qed.

(** Removing the assigned row from the queued ones. *)
Lemma where_update_remove {X} (q p : X → bool) f (l : list X) :
  (∀ x, x ∈ l → p x = true → q (f x) = false) →
  where_ q (update_where p f l) = List.filter (λ x, negb (p x)) (where_ q l).
Proof.
  induction l as [|x l IH]; intros H; simpl; [done|].
  assert (where_ q (update_where p f l) = List.filter (λ x, negb (p x)) (where_ q l)) as IH' by (apply IH; set_solver).
  unfold where_, update_where in *.
  destruct (p x) eqn:Hp.
  - rewrite (H x) by (done || left). rewrite IH'. destruct (q x); simpl; [by rewrite Hp|done].
  - rewrite IH'. destruct (q x); simpl; [by rewrite Hp|done].
Qed.

(** ** The first row that satisfies a test *)
Lemma find_ext_in {X} (p q : X → bool) l : (∀ x, x ∈ l → p x = q x) → List.find p l = List.find q l.
Proof.
  induction l as [|x l IH]; intros Hpq; [done|]. simpl. rewrite (Hpq x ltac:(left)).
  destruct (q x); [done|]. apply IH. intros y Hy. apply Hpq. by right.
Qed.
Lemma find_app_list {X} (p : X → bool) l k :
  List.find p (l ++ k) = match List.find p l with Some x => Some x | None => List.find p k end.
Proof. induction l as [|x l IH]; [done|]. simpl. by destruct (p x). Qed.
Lemma find_update_where {X} (p q : X → bool) f l :
  (∀ x, p (f x) = p x) → List.find p (update_where q f l) = (λ x, if q x then f x else x) <$> List.find p l.
Proof.
  intros Hf. induction l as [|x l IH]; [done|]. simpl.
  assert (p (if q x then f x else x) = p x) as -> by by destruct (q x). by destruct (p x).
Qed.
Lemma find_Some_elem {X} (p : X → bool) l x : List.find p l = Some x → x ∈ l ∧ p x = true.
Proof. intros H. apply find_some in H as [H1 H2]. by rewrite list_elem_of_In. Qed.
Lemma find_None_elem {X} (p : X → bool) l x : List.find p l = None → x ∈ l → p x = false.
Proof. intros H Hin. apply (find_none p l H). by apply list_elem_of_In. Qed.

(** With distinct keys, at most one row has a given one. *)
Lemma NoDup_map_inj {X K} (g : X → K) l x y : NoDup (map g l) → x ∈ l → y ∈ l → g x = g y → x = y.
Proof.
  induction l as [|z l IH]; intros Hnd Hx Hy Heq; [by apply elem_of_nil in Hx|].
  simpl in Hnd. apply NoDup_cons in Hnd as [Hz Hnd].
  apply elem_of_cons in Hx as [->|Hx], Hy as [->|Hy]; [done| | |by apply IH].
  - destruct Hz. rewrite Heq. by apply list_elem_of_fmap_2.
  - destruct Hz. rewrite <- Heq. by apply list_elem_of_fmap_2.
Qed.
Lemma filter_unique {X K} (g : X → K) (t : K) (p : X → bool) l :
  NoDup (map g l) → (∀ x, x ∈ l → p x = true → g x = t) →
  List.filter p l = match List.find p l with Some x => [x] | None => [] end.
Proof.
  induction l as [|x l IH]; intros Hnd Hp; [done|]. simpl in Hnd. apply NoDup_cons in Hnd as [Hx Hnd]. simpl.
  destruct (p x) eqn:Hpx.
  - f_equal. apply filter_none. intros y Hy. destruct (p y) eqn:Hpy; [|done]. destruct Hx.
    rewrite (Hp x ltac:(left) Hpx), <- (Hp y ltac:(by right) Hpy). by apply list_elem_of_fmap_2.
  - apply IH; [done|]. intros y Hy. apply Hp. by right.
Qed.
Lemma filter_Permutation {X} (p : X → bool) l l' : l ≡ₚ l' → List.filter p l ≡ₚ List.filter p l'.
Proof.
  induction 1 as [|x l l' _ IH|x y l|l l' l'' _ IH1 _ IH2]; simpl; [done| | |by rewrite IH1].
  - destruct (p x); [by f_equiv|done].
  - destruct (p x), (p y); try done. apply Permutation_swap.
Qed.
Lemma NoDup_map_where {X K} (g : X → K) (p : X → bool) l : NoDup (map g l) → NoDup (map g (where_ p l)).
Proof.
  unfold where_. induction l as [|x l IH]; intros Hnd; [done|]. simpl in Hnd. apply NoDup_cons in Hnd as [Hx Hnd].
  simpl. destruct (p x); [|by apply IH]. simpl. apply NoDup_cons. split; [|by apply IH].
  intros H. apply list_elem_of_fmap in H as (y & Hy & Hin). apply elem_of_where in Hin as [Hin _].
  apply Hx. rewrite Hy. by apply list_elem_of_fmap_2.
Qed.
Lemma NoDup_map_snoc {X K} (g : X → K) l x : NoDup (map g l) → (∀ y, y ∈ l → g y ≠ g x) → NoDup (map g (l ++ [x])).
Proof.
  intros Hnd Hx. rewrite map_app. apply NoDup_app. split; [done|]. split; [|apply NoDup_singleton].
  intros k Hk Hk'. apply list_elem_of_singleton in Hk' as ->. apply list_elem_of_fmap in Hk as (y & Hy & Hin).
  by apply (Hx y Hin).
Qed.
Lemma last_map {X Y} (f : X → Y) l : last (map f l) = f <$> last l.
Proof. induction l as [|x [|y l] IH]; [done|done|exact IH]. Qed.
Lemma sort_insert_map {X Y} (f : X → Y) (leb : X → X → bool) (leb' : Y → Y → bool) x l :
  (∀ x y, leb' (f x) (f y) = leb x y) → sort_insert leb' (f x) (map f l) = map f (sort_insert leb x l).
Proof. intros H. induction l as [|y l IH]; [done|]. simpl. rewrite H, IH. by destruct (leb x y). Qed.
Lemma isort_map {X Y} (f : X → Y) (leb : X → X → bool) (leb' : Y → Y → bool) l :
  (∀ x y, leb' (f x) (f y) = leb x y) → isort leb' (map f l) = map f (isort leb l).
Proof. intros H. induction l as [|x l IH]; [done|]. simpl. by rewrite IH, (sort_insert_map f leb). Qed.

(** Rewriting one row keeps a key unique when the new value is new among the others. *)
Lemma NoDup_map_update {X K} (g : X → K) (p : X → bool) (f : X → X) l :
  NoDup (map g l) → (∀ x y, x ∈ l → y ∈ l → p x = true → p y = true → x = y) →
  (∀ x y, x ∈ l → y ∈ l → p x = true → p y = false → g (f x) ≠ g y) → NoDup (map g (update_where p f l)).
Proof.
  induction l as [|x l IH]; intros Hnd Hone Hnew; [done|]. apply NoDup_cons in Hnd as [Hx Hnd]. simpl. apply NoDup_cons. split.
  - intros Hin. apply list_elem_of_fmap in Hin as (z & Hz & Hin). apply elem_of_update_where in Hin as (y & Hy & ->).
    assert (g y ≠ g x) as Hyx by (intros He; apply Hx, list_elem_of_fmap; by exists y).
    destruct (p x) eqn:Hpx, (p y) eqn:Hpy.
    + apply Hyx. f_equal. apply Hone; [by right|by left|done|done].
    + revert Hz. apply (Hnew x y); [by left|by right|done|done].
    + symmetry in Hz. revert Hz. apply (Hnew y x); [by right|by left|done|done].
    + by apply Hyx.
  - apply IH; [done| |]; intros y z Hy Hz; [apply Hone|apply Hnew]; by right.
Qed.
