(* ===== verification/GoStrings.v ===== *)
(** * GoStrings: the part of Go's [strings], [strconv] and [regexp] the program uses

    Go strings are byte sequences; here a [string] is read as a list of bytes
    ([ascii]), and each operation is written on that list.  Unicode enters in two
    places: [TrimSpace] removes the UTF-8 encodings of every White_Space code point,
    and [ToLower] maps the only two non-ASCII code points whose lower case is an
    ASCII letter (U+0130 to i, U+212A to k).  [ToLower] leaves every other non-ASCII
    byte alone; each caller modelled in this development rejects or collapses
    non-ASCII bytes afterwards, so the difference is never observable. *)
From S2P Require Import Prelude.

Abbreviation bytes := (list ascii).

Definition bytes_of (s : string) : bytes := String.list_ascii_of_string s.
Definition str_of (l : bytes) : string := String.string_of_list_ascii l.

Lemma bytes_of_str_of l : bytes_of (str_of l) = l.
Proof. apply String.list_ascii_of_string_of_list_ascii. Qed.
Lemma str_of_bytes_of s : str_of (bytes_of s) = s.
Proof. apply String.string_of_list_ascii_of_string. Qed.

#[global] Instance str_of_inj : Inj (=) (=) str_of.
Proof. intros x y H. by rewrite <- (bytes_of_str_of x), H, bytes_of_str_of. Qed.
#[global] Instance bytes_of_inj : Inj (=) (=) bytes_of.
Proof. intros x y H. by rewrite <- (str_of_bytes_of x), H, str_of_bytes_of. Qed.

Lemma bytes_of_app s t : bytes_of (s +:+ t) = bytes_of s ++ bytes_of t.
Proof. induction s as [|c s IH]; simpl; [done|]. by f_equal. Qed.
Lemma str_of_app l k : str_of (l ++ k) = str_of l +:+ str_of k.
Proof. apply (inj bytes_of). by rewrite bytes_of_app, !bytes_of_str_of. Qed.
Lemma length_bytes_of s : length (bytes_of s) = String.length s.
Proof. induction s; simpl; [done|]. by f_equal. Qed.
Lemma length_str_of l : String.length (str_of l) = length l.
Proof. by rewrite <- length_bytes_of, bytes_of_str_of. Qed.
Lemma length_append s t : String.length (s +:+ t) = (String.length s + String.length t)%nat.
Proof. by rewrite <- !length_bytes_of, bytes_of_app, length_app. Qed.

Ltac go_str := rewrite ?bytes_of_str_of, ?str_of_bytes_of, ?bytes_of_app, ?length_str_of,
  ?length_append, ?length_bytes_of.

(** ** Character classes *)
Definition code (c : ascii) : Z := Z.of_N (N_of_ascii c).
Definition chr (n : N) : ascii := ascii_of_N n.
Definition is_lower (c : ascii) : bool := (97 <=? code c) && (code c <=? 122).
Definition is_upper (c : ascii) : bool := (65 <=? code c) && (code c <=? 90).
Definition is_digit (c : ascii) : bool := (48 <=? code c) && (code c <=? 57).
Definition is_lower_alnum (c : ascii) : bool := is_lower c || is_digit c.

(** Decide a property of all 256 bytes by computation. *)
Definition all_bytes : list ascii := map (λ n, ascii_of_nat n) (seq 0 256).

Lemma all_bytes_complete c : c ∈ all_bytes.
Proof.
  unfold all_bytes. apply list_elem_of_fmap. exists (nat_of_ascii c). split.
  - by rewrite ascii_nat_embedding.
  - apply elem_of_seq. pose proof (nat_ascii_bounded c). lia.
Qed.

Lemma byte_forall (P : ascii → bool) : forallb P all_bytes = true → ∀ c, P c = true.
Proof.
  intros H c. apply (proj1 (forallb_forall P all_bytes) H).
  apply list_elem_of_In, all_bytes_complete.
Qed.

(** ** Trimming *)

(** [strip_prefix p l] is the rest of [l] after the prefix [p]. *)
Fixpoint strip_prefix (p l : bytes) : option bytes :=
  match p, l with
  | [], _ => Some l
  | x :: p', y :: l' => if Ascii.eqb x y then strip_prefix p' l' else None
  | _ :: _, [] => None
  end.

Lemma strip_prefix_spec p l r : strip_prefix p l = Some r ↔ l = p ++ r.
Proof.
  revert l; induction p as [|x p IH]; intros l; simpl.
  - split; [by intros [= ->] | by intros ->].
  - destruct l as [|y l]; simpl; [split; intros; discriminate|].
    destruct (Ascii.eqb_spec x y) as [->|Hne].
    + rewrite IH. split; [by intros -> | by intros [= ->]].
    + split; [done|]. by intros [= ??].
Qed.

(** The first sequence of [seqs] that [l] starts with, removed. *)
Fixpoint strip_any (seqs : list bytes) (l : bytes) : option bytes :=
  match seqs with
  | [] => None
  | p :: ps => match strip_prefix p l with Some r => Some r | None => strip_any ps l end
  end.

Fixpoint drop_seqs (seqs : list bytes) (fuel : nat) (l : bytes) : bytes :=
  match fuel with
  | O => l
  | S n => match strip_any seqs l with Some r => drop_seqs seqs n r | None => l end
  end.

Definition trim_left_seqs (seqs : list bytes) (l : bytes) : bytes :=
  drop_seqs seqs (length l) l.
Definition trim_right_seqs (seqs : list bytes) (l : bytes) : bytes :=
  rev (trim_left_seqs (map (@rev ascii) seqs) (rev l)).

(** UTF-8 encodings of Unicode White_Space (Go's [unicode.IsSpace]). *)
Definition space_seqs : list bytes :=
  map (map chr)
   [[9]; [10]; [11]; [12]; [13]; [32];
    [194; 133]; [194; 160]; [225; 154; 128];
    [226; 128; 128]; [226; 128; 129]; [226; 128; 130]; [226; 128; 131]; [226; 128; 132];
    [226; 128; 133]; [226; 128; 134]; [226; 128; 135]; [226; 128; 136]; [226; 128; 137];
    [226; 128; 138]; [226; 128; 168]; [226; 128; 169]; [226; 128; 175]; [226; 129; 159];
    [227; 128; 128]]%N.

(** [strings.TrimSpace] *)
Definition TrimSpace (s : string) : string :=
  str_of (trim_right_seqs space_seqs (trim_left_seqs space_seqs (bytes_of s))).

(** Trimming a set of single bytes: [strings.Trim(s, cutset)]. *)
Fixpoint drop_while (p : ascii → bool) (l : bytes) : bytes :=
  match l with
  | [] => []
  | c :: l' => if p c then drop_while p l' else c :: l'
  end.
Definition trim_bytes (p : ascii → bool) (l : bytes) : bytes :=
  rev (drop_while p (rev (drop_while p l))).
(** [strings.Trim(s, "-")] *)
Definition is_dash (c : ascii) : bool := Ascii.eqb c "-".
Definition Trim_dash (s : string) : string := str_of (trim_bytes is_dash (bytes_of s)).

Lemma drop_while_split p l :
  ∃ k, l = k ++ drop_while p l ∧ Forall (λ c, p c = true) k.
Proof.
  induction l as [|c l (k & Hk & Hp)]; simpl; [by exists []|].
  destruct (p c) eqn:Hc; [|by exists []].
  exists (c :: k). split; [by rewrite Hk at 1 | by constructor].
Qed.
Lemma head_drop_while p l c : head (drop_while p l) = Some c → p c = false.
Proof.
  induction l as [|d l IH]; simpl; [done|].
  destruct (p d) eqn:Hd; [done|]. by intros [= <-].
Qed.
Lemma last_rev {A} (l : list A) : last (rev l) = head l.
Proof. destruct l as [|x l]; simpl; [done|]. apply last_snoc. Qed.
Lemma head_rev {A} (l : list A) : head (rev l) = last l.
Proof. by rewrite <- (rev_involutive l) at 2; rewrite last_rev. Qed.

(** What trimming does: it removes a prefix and a suffix of cutset bytes, and what is
    left neither starts nor ends with one. *)
Lemma trim_bytes_split p l :
  ∃ a b, l = a ++ trim_bytes p l ++ b ∧ Forall (λ c, p c = true) a ∧ Forall (λ c, p c = true) b.
Proof.
  unfold trim_bytes.
  destruct (drop_while_split p l) as (a & Ha & Hpa).
  destruct (drop_while_split p (rev (drop_while p l))) as (b & Hb & Hpb).
  exists a, (rev b). split; [|split; [done|by apply Forall_rev]].
  rewrite Ha at 1. f_equal.
  rewrite <- rev_app_distr, <- Hb. by rewrite rev_involutive.
Qed.
Lemma trim_bytes_last p l c : last (trim_bytes p l) = Some c → p c = false.
Proof. unfold trim_bytes. rewrite last_rev. apply head_drop_while. Qed.
Lemma trim_bytes_head p l c : head (trim_bytes p l) = Some c → p c = false.
Proof.
  intros Hc. destruct (drop_while_split p (rev (drop_while p l))) as (b & Hb & _).
  apply (head_drop_while p l). revert Hb. unfold trim_bytes in Hc.
  rewrite head_rev in Hc. intros Hb.
  rewrite <- (rev_involutive (drop_while p l)), head_rev, Hb, last_app, Hc. done.
Qed.
Lemma trim_bytes_Forall p (P : ascii → Prop) l : Forall P l → Forall P (trim_bytes p l).
Proof.
  destruct (trim_bytes_split p l) as (a & b & Hl & _). intros H. rewrite Hl in H.
  by apply Forall_app in H as [_ [H _]%Forall_app].
Qed.
Lemma length_trim_bytes p l : (length (trim_bytes p l) ≤ length l)%nat.
Proof.
  destruct (trim_bytes_split p l) as (a & b & Hl & _). rewrite Hl at 2. rewrite !length_app. lia.
Qed.

(** [strings.TrimSuffix], [strings.TrimPrefix], [strings.HasPrefix] *)
Definition TrimPrefix (s p : string) : string :=
  match strip_prefix (bytes_of p) (bytes_of s) with Some r => str_of r | None => s end.
Definition TrimSuffix (s p : string) : string :=
  match strip_prefix (rev (bytes_of p)) (rev (bytes_of s)) with
  | Some r => str_of (rev r) | None => s end.
Definition HasPrefix (s p : string) : bool :=
  match strip_prefix (bytes_of p) (bytes_of s) with Some _ => true | None => false end.

(** Go's [len(s)]. *)
Definition len (s : string) : Z := Z.of_nat (String.length s).

(** ** Searching and splitting *)
Definition has_byte (c : ascii) (s : string) : bool := existsb (Ascii.eqb c) (bytes_of s).
Definition ContainsAny (s chars : string) : bool :=
  existsb (λ c, has_byte c s) (bytes_of chars).

Fixpoint contains_bytes (p l : bytes) : bool :=
  match strip_prefix p l with
  | Some _ => true
  | None => match l with [] => false | _ :: l' => contains_bytes p l' end
  end.
Definition Contains (s sub : string) : bool := contains_bytes (bytes_of sub) (bytes_of s).

(** [strings.Split(s, sep)] for a one-byte separator. *)
Fixpoint split_bytes (sep : ascii) (l : bytes) : list bytes :=
  match l with
  | [] => [[]]
  | c :: l' =>
      if Ascii.eqb c sep then [] :: split_bytes sep l'
      else match split_bytes sep l' with
           | [] => [[c]]
           | w :: ws => (c :: w) :: ws
           end
  end.
Definition Split (s : string) (sep : ascii) : list string :=
  map str_of (split_bytes sep (bytes_of s)).

(** [s[strings.LastIndex(s, sep)+1:]] for a one-byte separator. *)
Fixpoint after_last_bytes (sep : ascii) (l : bytes) : bytes :=
  match l with
  | [] => []
  | c :: l' => if Ascii.eqb c sep then after_last_bytes sep l'
               else if existsb (Ascii.eqb sep) l' then after_last_bytes sep l' else c :: l'
  end.
Definition after_last (sep : ascii) (s : string) : string :=
  str_of (after_last_bytes sep (bytes_of s)).

(** [strings.Join] *)
Fixpoint Join (l : list string) (sep : string) : string :=
  match l with
  | [] => ""
  | [x] => x
  | x :: l' => x +:+ sep +:+ Join l' sep
  end.

(** [s[:n]] for n within the string. *)
Definition str_take (n : nat) (s : string) : string := str_of (take n (bytes_of s)).

(** ** Case *)
Definition lower_byte (c : ascii) : ascii :=
  if is_upper c then chr (N_of_ascii c + 32)%N else c.

Fixpoint lower_bytes (l : bytes) : bytes :=
  match l with
  | [] => []
  | c :: l' =>
      match l' with
      | d :: l'' =>
          if (Ascii.eqb c (chr 196) && Ascii.eqb d (chr 176))%bool
          then "i"%char :: lower_bytes l''
          else match l'' with
               | e :: l''' =>
                   if (Ascii.eqb c (chr 226) && Ascii.eqb d (chr 132) && Ascii.eqb e (chr 170))%bool
                   then "k"%char :: lower_bytes l'''
                   else lower_byte c :: lower_bytes l'
               | [] => lower_byte c :: lower_bytes l'
               end
      | [] => [lower_byte c]
      end
  end.
(** [strings.ToLower] *)
Definition ToLower (s : string) : string := str_of (lower_bytes (bytes_of s)).

(** ** [strconv.Itoa] *)
Definition Itoa (n : Z) : string := pretty n.

Lemma pretty_N_go_digits x s :
  Forall (λ c, is_digit c = true) (bytes_of s) →
  Forall (λ c, is_digit c = true) (bytes_of (pretty_N_go x s)).
Proof.
  revert s. induction (N.lt_wf_0 x) as [x _ IH]; intros s Hs.
  destruct (decide (x = 0)%N) as [->|Hx]; [by rewrite pretty_N_go_0|].
  rewrite pretty_N_go_step by lia. apply IH; [apply N.div_lt; lia|].
  simpl. constructor; [|done]. unfold pretty_N_char. by repeat case_match.
Qed.

Lemma length_pretty_N_go k x s :
  (x < 10 ^ N.of_nat k)%N →
  (String.length (pretty_N_go x s) ≤ k + String.length s)%nat.
Proof.
  revert x s. induction k as [|k IH]; intros x s Hx.
  - assert (x = 0)%N as -> by (simpl in Hx; lia). by rewrite pretty_N_go_0.
  - destruct (decide (x = 0)%N) as [->|?]; [rewrite pretty_N_go_0; lia|].
    rewrite pretty_N_go_step by lia.
    etransitivity; [apply IH|simpl; lia].
    apply N.Div0.div_lt_upper_bound. rewrite <- N.pow_succ_r'. by rewrite <- Nat2N.inj_succ.
Qed.

Lemma pretty_N_go_nonempty x s : (0 < x)%N ∨ s ≠ "" → pretty_N_go x s ≠ "".
Proof.
  revert s. induction (N.lt_wf_0 x) as [x _ IH]; intros s Hs.
  destruct (decide (x = 0)%N) as [->|?]; [rewrite pretty_N_go_0; destruct Hs; [lia|done]|].
  rewrite pretty_N_go_step by lia. apply IH; [apply N.div_lt; lia|]. by right.
Qed.

(** The decimal text of a positive int32: at most ten digits. *)
Lemma Itoa_pos_spec n :
  0 < n < 2 ^ 31 →
  Forall (λ c, is_digit c = true) (bytes_of (Itoa n)) ∧ Itoa n ≠ "" ∧ len (Itoa n) ≤ 10.
Proof.
  intros Hn. destruct n as [|p|p]; try lia.
  change (Itoa (Z.pos p)) with (pretty_N_go (N.pos p) "").
  split; [apply pretty_N_go_digits; constructor|].
  split; [apply pretty_N_go_nonempty; left; lia|].
  unfold len. pose proof (length_pretty_N_go 10 (N.pos p) "") as H.
  assert (N.pos p < 10 ^ N.of_nat 10)%N as Hp by (change (10 ^ N.of_nat 10)%N with 10000000000%N; lia).
  specialize (H Hp). simpl in H. lia.
Qed.

#[global] Instance Itoa_inj : Inj (=) (=) Itoa.
Proof. unfold Itoa. apply _. Qed.

Lemma len_app s t : len (s +:+ t) = len s + len t.
Proof. unfold len. rewrite length_append. lia. Qed.
Lemma len_nonneg s : 0 ≤ len s.
Proof. unfold len. lia. Qed.
Lemma len_pos s : s ≠ "" → 0 < len s.
Proof. destruct s; [done|]. unfold len. simpl. lia. Qed.
Lemma len_length s : len s = Z.of_nat (length (bytes_of s)).
Proof. by rewrite length_bytes_of. Qed.

(** ** [unicode/utf8.RuneCountInString] *)
Definition in_range (lo hi : N) (c : ascii) : bool := (lo <=? N_of_ascii c)%N && (N_of_ascii c <=? hi)%N.
Definition is_cont (c : ascii) : bool := in_range 128 191 c.

(** The accepted range of the second byte and the number of the further continuation
    bytes, by the first byte (the tables [first] and [acceptRanges]). *)
Definition rune_shape (c : ascii) : option (N * N * nat) :=
  if in_range 194 223 c then Some (128, 191, 0%nat)%N
  else if in_range 224 224 c then Some (160, 191, 1%nat)%N
  else if in_range 237 237 c then Some (128, 159, 1%nat)%N
  else if in_range 225 239 c then Some (128, 191, 1%nat)%N
  else if in_range 240 240 c then Some (144, 191, 2%nat)%N
  else if in_range 241 243 c then Some (128, 191, 2%nat)%N
  else if in_range 244 244 c then Some (128, 143, 2%nat)%N
  else None.

(** The bytes the first rune takes: a malformed sequence is one rune of one byte. *)
Definition rune_width (l : bytes) : nat :=
  match l with
  | [] => 0
  | c :: l' =>
      match rune_shape c, l' with
      | Some (lo, hi, n), d :: l'' =>
          if in_range lo hi d && (n <=? length l'')%nat && forallb is_cont (take n l'')
          then (n + 2)%nat else 1%nat
      | _, _ => 1%nat
      end
  end.

Fixpoint count_runes (fuel : nat) (l : bytes) : nat :=
  match fuel, l with
  | S k, _ :: _ => S (count_runes k (drop (rune_width l) l))
  | _, _ => 0%nat
  end.
Definition RuneCountInString (s : string) : Z := Z.of_nat (count_runes (length (bytes_of s)) (bytes_of s)).

Lemma rune_width_pos c l : (1 ≤ rune_width (c :: l))%nat.
Proof. unfold rune_width. repeat case_match; lia. Qed.

(** Every rune takes a byte, so the length is enough fuel. *)
Lemma count_runes_fuel n m l : (length l ≤ n)%nat → (length l ≤ m)%nat → count_runes n l = count_runes m l.
Proof.
  revert m l. induction n as [|n IH]; intros [|m] [|c l] Hn Hm; cbn [length] in *; try lia; [done..|].
  cbn [count_runes]. f_equal. pose proof (rune_width_pos c l).
  apply IH; rewrite length_drop; cbn [length]; lia.
Qed.
Lemma count_runes_le n l : (count_runes n l ≤ length l)%nat.
Proof.
  revert l. induction n as [|n IH]; intros [|c l]; cbn [count_runes length]; try lia.
  pose proof (IH (drop (rune_width (c :: l)) (c :: l))) as H. rewrite length_drop in H.
  pose proof (rune_width_pos c l). cbn [length] in H. lia.
Qed.
Lemma RuneCountInString_len s : RuneCountInString s ≤ len s.
Proof.
  unfold RuneCountInString. rewrite len_length. pose proof (count_runes_le (length (bytes_of s)) (bytes_of s)). lia.
Qed.

(** [[]rune(s)] and back: the runes of a text, an invalid byte as U+FFFD. *)
Definition replacement : bytes := map chr [239; 191; 189]%N.
Fixpoint runes (fuel : nat) (l : bytes) : list bytes :=
  match fuel, l with
  | S fuel, c :: l' =>
      let w := rune_width l in
      (if (w =? 1)%nat && negb (code c <? 128) then replacement else take w l) :: runes fuel (drop w l)
  | _, _ => []
  end.

(** ** [path/filepath.Clean] and [Join] on a Unix host *)
Definition is_dot (c : bytes) : bool := bool_decide (c = bytes_of ".").
Definition is_dotdot (c : bytes) : bool := bool_decide (c = bytes_of "..").

(** The elements kept, most recent first. *)
Fixpoint clean_comps (rooted : bool) (acc comps : list bytes) : list bytes :=
  match comps with
  | [] => acc
  | c :: cs =>
      if bool_decide (c = []) || is_dot c then clean_comps rooted acc cs
      else if is_dotdot c then
        match acc with
        | x :: acc' => if is_dotdot x then clean_comps rooted (c :: acc) cs else clean_comps rooted acc' cs
        | [] => if rooted then clean_comps rooted [] cs else clean_comps rooted [c] cs
        end
      else clean_comps rooted (c :: acc) cs
  end.
Definition is_slash (c : ascii) : bool := Ascii.eqb c "/".
Definition is_rooted (l : bytes) : bool := match l with c :: _ => is_slash c | [] => false end.

Definition filepath_Clean (p : string) : string :=
  let l := bytes_of p in
  let out := Join (map str_of (rev (clean_comps (is_rooted l) [] (split_bytes "/" l)))) "/" in
  if is_rooted l then "/" +:+ out else if String.eqb out "" then "." else out.

Fixpoint filepath_Join (elems : list string) : string :=
  match elems with
  | [] => ""
  | e :: es => if String.eqb e "" then filepath_Join es else filepath_Clean (Join elems "/")
  end.

(** An ordinary file name. *)
Definition plain_name (s : string) : bool :=
  negb (String.eqb s "") && negb (has_byte "/" s) && negb (String.eqb s ".") && negb (String.eqb s "..").

Lemma split_bytes_cons sep l : ∃ w ws, split_bytes sep l = w :: ws.
Proof.
  induction l as [|c l (w & ws & IH)]; simpl; [by eexists _, _|].
  destruct (Ascii.eqb c sep); [by eexists _, _|]. rewrite IH. by eexists _, _.
Qed.
Lemma split_bytes_plain sep l : existsb (Ascii.eqb sep) l = false → split_bytes sep l = [l].
Proof.
  induction l as [|c l IH]; simpl; [done|]. intros [Hc Hl]%orb_false_iff. rewrite Ascii.eqb_sym, Hc.
  by rewrite IH.
Qed.
Lemma split_bytes_app sep l k : split_bytes sep (l ++ sep :: k) = split_bytes sep l ++ split_bytes sep k.
Proof.
  induction l as [|c l IH]; simpl; [by rewrite Ascii.eqb_refl|].
  destruct (Ascii.eqb c sep); [by rewrite IH|]. rewrite IH.
  destruct (split_bytes_cons sep l) as (w & ws & Hw). by rewrite Hw.
Qed.
Lemma clean_comps_app r acc l k : clean_comps r acc (l ++ k) = clean_comps r (clean_comps r acc l) k.
Proof. revert acc. induction l as [|c l IH]; intros acc; simpl; [done|]. by repeat case_match. Qed.
Lemma String_append_assoc (s t u : string) : (s +:+ t) +:+ u = s +:+ t +:+ u.
Proof. apply (inj bytes_of). by rewrite !bytes_of_app, app_assoc. Qed.
Lemma Join_snoc l x sep : l ≠ [] → Join (l ++ [x]) sep = Join l sep +:+ sep +:+ x.
Proof.
  induction l as [|y l IH]; [done|]. intros _. destruct l as [|z l]; [done|].
  assert (z :: l ≠ []) as Hne by done. specialize (IH Hne).
  change (Join (((y :: z :: l)) ++ [x]) sep) with (y +:+ sep +:+ Join ((z :: l) ++ [x]) sep).
  rewrite IH. cbn [Join]. by rewrite !String_append_assoc.
Qed.

Lemma after_last_bytes_sep sep l k :
  existsb (Ascii.eqb sep) k = false → after_last_bytes sep (l ++ sep :: k) = k.
Proof.
  intros Hk. assert (∀ l', existsb (Ascii.eqb sep) (l' ++ sep :: k) = true) as Hex.
  { intros l'. rewrite existsb_app. simpl. by rewrite Ascii.eqb_refl, orb_true_r. }
  induction l as [|c l IH]; simpl.
  - rewrite Ascii.eqb_refl. destruct k as [|c k]; [done|]. simpl in *. propify.
    rewrite Ascii.eqb_sym. destruct (Ascii.eqb sep c); [done|]. by destruct (existsb _ k).
  - rewrite Hex. by destruct (Ascii.eqb c sep).
Qed.
Lemma after_last_plain sep l : existsb (Ascii.eqb sep) l = false → after_last_bytes sep l = l.
Proof.
  destruct l as [|c l]; simpl; [done|]. intros [Hc Hl]%orb_false_iff. by rewrite Ascii.eqb_sym, Hc, Hl.
Qed.

(** The last element of a joined path is the name it was joined with. *)
Lemma filepath_Join_base dir seg :
  plain_name seg = true → after_last "/" (filepath_Join [dir; seg]) = seg.
Proof.
  unfold plain_name. rewrite !andb_true_iff, !negb_true_iff. intros [[[Hne Hs] Hd] Hdd].
  pose proof Hs as Hs'. unfold has_byte in Hs'.
  assert (∀ r acc, clean_comps r acc [bytes_of seg] = bytes_of seg :: acc) as Hseg.
  { intros r acc. simpl. unfold is_dot, is_dotdot. rewrite !bool_decide_eq_false_2; [done| | |].
    - intros H%(inj bytes_of). by rewrite H in Hdd.
    - intros H%(inj bytes_of). by rewrite H in Hd.
    - intros H. apply String.eqb_neq in Hne. apply Hne, (inj bytes_of). by rewrite H. }
  assert (∀ x, after_last "/" (x +:+ "/" +:+ seg) = seg) as Hal.
  { intros x. unfold after_last. rewrite !bytes_of_app. simpl. rewrite after_last_bytes_sep by done. by go_str. }
  assert (after_last "/" seg = seg) as Hal0.
  { unfold after_last. rewrite after_last_plain by done. by go_str. }
  assert (∀ (p : string) cs, split_bytes "/" (bytes_of p) = cs ++ [bytes_of seg] →
    after_last "/" (filepath_Clean p) = seg) as Hclean.
  { intros p cs Hp. unfold filepath_Clean. rewrite Hp, clean_comps_app, Hseg. cbn [rev].
    rewrite map_app. cbn [map]. go_str.
    set (pre := map str_of (rev (clean_comps (is_rooted (bytes_of p)) [] cs))).
    destruct pre as [|y ys] eqn:Hpre; [cbn [app Join]|rewrite Join_snoc by done].
    - destruct (is_rooted _); [exact (Hal "")|]. by rewrite Hne.
    - destruct (is_rooted _).
      + rewrite <- String_append_assoc. apply Hal.
      + destruct (String.eqb_spec (Join (y :: ys) "/" +:+ "/" +:+ seg) "") as [H|_]; [|apply Hal].
        apply (f_equal bytes_of) in H. rewrite !bytes_of_app in H.
        by apply app_eq_nil in H as [_ H]. }
  unfold filepath_Join. destruct (String.eqb dir ""); [rewrite Hne|].
  - apply (Hclean _ []). by apply split_bytes_plain.
  - apply (Hclean _ (split_bytes "/" (bytes_of dir))). cbn [Join]. rewrite !bytes_of_app. cbn [bytes_of].
    change (bytes_of "/" ++ bytes_of seg) with ("/"%char :: bytes_of seg).
    by rewrite split_bytes_app, (split_bytes_plain _ (bytes_of seg)).
Qed.

(** ** The order of strings *)
Lemma ascii_compare_trans (c1 c2 c3 : ascii) r :
  Ascii.compare c1 c2 = r → Ascii.compare c2 c3 = r → Ascii.compare c1 c3 = r.
Proof.
  unfold Ascii.compare. destruct r; rewrite ?N.compare_eq_iff, ?N.compare_lt_iff, ?N.compare_gt_iff; lia.
Qed.

Lemma ascii_compare_eq (c1 c2 : ascii) : Ascii.compare c1 c2 = Eq → c1 = c2.
Proof.
  unfold Ascii.compare. intros H%N.compare_eq_iff. rewrite <- (ascii_N_embedding c1), <- (ascii_N_embedding c2). by rewrite H.
Qed.

Lemma ascii_compare_refl (c : ascii) : Ascii.compare c c = Eq.
Proof. unfold Ascii.compare. apply N.compare_refl. Qed.

Lemma string_compare_refl a : String.compare a a = Eq.
Proof. induction a as [|x a IH]; simpl; [done|]. by rewrite ascii_compare_refl. Qed.

Lemma string_lt_trans a b c :
  String.compare a b = Lt → String.compare b c = Lt → String.compare a c = Lt.
Proof.
  revert b c; induction a as [|x a IH]; intros [|y b] [|z c]; simpl; try done.
  destruct (Ascii.compare x y) eqn:Hxy; try done.
  - apply ascii_compare_eq in Hxy as ->. destruct (Ascii.compare y z) eqn:Hyz; try done. apply IH.
  - intros _. destruct (Ascii.compare y z) eqn:Hyz; try done.
    + apply ascii_compare_eq in Hyz as ->. by rewrite Hxy.
    + by rewrite (ascii_compare_trans x y z Lt).
Qed.

Lemma string_leb_alt a b : String.leb a b = true ↔ a = b ∨ String.compare a b = Lt.
Proof.
  unfold String.leb. destruct (String.compare a b) eqn:H; split; try done; auto.
  - intros _. left. by apply String.compare_eq_iff.
  - intros [->|?]; [|done]. by rewrite string_compare_refl in H.
Qed.

Lemma string_leb_trans a b c : String.leb a b = true → String.leb b c = true → String.leb a c = true.
Proof.
  rewrite !string_leb_alt. intros [->|H1] [->|H2]; auto. right. by eapply string_lt_trans.
Qed.
Lemma string_leb_total a b : String.leb a b = false → String.leb b a = true.
Proof. destruct (String.leb_total a b) as [H|H]; congruence. Qed.

(** ** Trimming reaches a fixed point *)
Lemma strip_any_None seqs l : strip_any seqs l = None ↔ ∀ p, p ∈ seqs → strip_prefix p l = None.
Proof.
  induction seqs as [|q qs IH]; simpl; [set_solver|].
  destruct (strip_prefix q l) eqn:Hq.
  - split; [done|]. intros H. specialize (H q ltac:(left)). congruence.
  - rewrite IH. setoid_rewrite elem_of_cons. naive_solver.
Qed.

Lemma strip_prefix_None p l : strip_prefix p l = None ↔ ∀ r, l ≠ p ++ r.
Proof.
  split.
  - intros H r Hr. by rewrite (proj2 (strip_prefix_spec p l r) Hr) in H.
  - intros H. destruct (strip_prefix p l) as [r|] eqn:Hs; [|done]. apply strip_prefix_spec in Hs. by destruct (H r).
Qed.

Lemma strip_any_length seqs l r : Forall (λ p, p ≠ []) seqs → strip_any seqs l = Some r → (length r < length l)%nat.
Proof.
  induction 1 as [|p ps Hp _ IH]; simpl; [done|]. destruct (strip_prefix p l) as [r'|] eqn:Hs; [|done].
  intros [= ->]. apply strip_prefix_spec in Hs as ->. rewrite length_app. destruct p; [done|simpl; lia].
Qed.

Lemma drop_seqs_fix seqs fuel l : Forall (λ p, p ≠ []) seqs → (length l ≤ fuel)%nat →
  strip_any seqs (drop_seqs seqs fuel l) = None.
Proof.
  intros Hne. revert l; induction fuel as [|n IH]; intros l Hl; simpl.
  - destruct l; [|simpl in Hl; lia]. apply strip_any_None. intros p Hp.
    apply strip_prefix_None. intros r Hr. pose proof (proj1 (Forall_forall _ _) Hne p Hp).
    symmetry in Hr. apply app_eq_nil in Hr as [-> _]. done.
  - destruct (strip_any seqs l) eqn:Hs; [|done]. apply IH.
    pose proof (strip_any_length _ _ _ Hne Hs). lia.
Qed.

Lemma drop_seqs_suffix seqs fuel l : ∃ k, l = k ++ drop_seqs seqs fuel l.
Proof.
  revert l; induction fuel as [|n IH]; intros l; simpl; [by exists []|].
  destruct (strip_any seqs l) as [r|] eqn:Hs; [|by exists []].
  destruct (IH r) as [k Hk].
  assert (∃ p, l = p ++ r) as [p Hp].
  { clear -Hs. induction seqs as [|q qs IH]; simpl in Hs; [done|].
    destruct (strip_prefix q l) eqn:Hq; [|by apply IH]. injection Hs as ->. exists q. by apply strip_prefix_spec. }
  exists (p ++ k). by rewrite <- app_assoc, <- Hk.
Qed.

Lemma space_seqs_nonempty : Forall (λ p, p ≠ []) space_seqs.
Proof. by repeat (constructor; [done|]). Qed.
Lemma rev_space_seqs_nonempty : Forall (λ p, p ≠ []) (map (@rev ascii) space_seqs).
Proof. by repeat (constructor; [done|]). Qed.

(** A text that no space sequence starts or ends is its own trimming. *)
Definition trimmed (l : bytes) : Prop :=
  strip_any space_seqs l = None ∧ strip_any (map (@rev ascii) space_seqs) (rev l) = None.

Lemma drop_seqs_none seqs n l : strip_any seqs l = None → drop_seqs seqs n l = l.
Proof. destruct n; simpl; [done|]. by intros ->. Qed.

Lemma TrimSpace_trimmed_id s : trimmed (bytes_of s) → TrimSpace s = s.
Proof.
  intros [H1 H2]. unfold TrimSpace, trim_right_seqs, trim_left_seqs.
  rewrite (drop_seqs_none space_seqs) by done. rewrite drop_seqs_none by done.
  by rewrite rev_involutive, str_of_bytes_of.
Qed.

Lemma TrimSpace_trimmed s : trimmed (bytes_of (TrimSpace s)).
Proof.
  unfold TrimSpace, trim_right_seqs, trim_left_seqs. rewrite bytes_of_str_of.
  set (l := drop_seqs space_seqs _ (bytes_of s)).
  assert (strip_any space_seqs l = None) as Hl by (apply drop_seqs_fix; [apply space_seqs_nonempty|lia]).
  split.
  - destruct (drop_seqs_suffix (map (@rev ascii) space_seqs) (length (rev l)) (rev l)) as [k Hk].
    apply strip_any_None. intros p Hp. apply strip_prefix_None. intros r Hr.
    pose proof (proj1 (strip_any_None _ _) Hl p Hp) as Hn. apply (proj1 (strip_prefix_None _ _) Hn (r ++ rev k)).
    rewrite app_assoc, <- Hr, <- rev_app_distr, <- Hk. by rewrite rev_involutive.
  - rewrite rev_involutive. apply drop_seqs_fix; [apply rev_space_seqs_nonempty|done].
Qed.

Lemma TrimSpace_idem s : TrimSpace (TrimSpace s) = TrimSpace s.
Proof. apply TrimSpace_trimmed_id, TrimSpace_trimmed. Qed.

(** ** [strconv.Atoi] *)
(** The value of decimal digits; a sign is accepted before them, anything else fails, and
    so does a value outside int64. *)
Fixpoint digits_value (acc : Z) (l : bytes) : option Z :=
  match l with
  | [] => Some acc
  | c :: l' => if is_digit c then digits_value (10 * acc + (code c - 48)) l' else None
  end.
Definition Atoi (s : string) : option Z :=
  let n := match bytes_of s with
           | [] => None
           | c :: l =>
               let parse (l : bytes) := match l with [] => None | _ => digits_value 0 l end in
               if Ascii.eqb c "-" then Z.opp <$> parse l
               else if Ascii.eqb c "+" then parse l else parse (c :: l)
           end in
  match n with Some z => if (- 2 ^ 63 <=? z) && (z <? 2 ^ 63) then Some z else None | None => None end.

(** ** [base64.RawURLEncoding] *)
Definition b64_char (n : Z) : ascii :=
  if n <? 26 then chr (Z.to_N (65 + n))
  else if n <? 52 then chr (Z.to_N (97 + (n - 26)))
  else if n <? 62 then chr (Z.to_N (48 + (n - 52)))
  else if n =? 62 then "-"%char else "_"%char.
Fixpoint b64_encode (l : list Z) : bytes :=
  match l with
  | a :: b :: c :: l' =>
      let v := Z.lor (Z.shiftl a 16) (Z.lor (Z.shiftl b 8) c) in
      b64_char (Z.land (Z.shiftr v 18) 63) :: b64_char (Z.land (Z.shiftr v 12) 63) ::
      b64_char (Z.land (Z.shiftr v 6) 63) :: b64_char (Z.land v 63) :: b64_encode l'
  | [a; b] =>
      let v := Z.lor (Z.shiftl a 16) (Z.shiftl b 8) in
      [b64_char (Z.land (Z.shiftr v 18) 63); b64_char (Z.land (Z.shiftr v 12) 63); b64_char (Z.land (Z.shiftr v 6) 63)]
  | [a] =>
      let v := Z.shiftl a 16 in
      [b64_char (Z.land (Z.shiftr v 18) 63); b64_char (Z.land (Z.shiftr v 12) 63)]
  | [] => []
  end.

(** ** [strings.Fields], [strings.Cut] *)
Fixpoint fields_bytes (fuel : nat) (cur l : bytes) : list bytes :=
  let flush (rest : list bytes) := match cur with [] => rest | _ => cur :: rest end in
  match fuel, l with
  | S fuel, c :: l' =>
      match strip_any space_seqs l with
      | Some r => flush (fields_bytes fuel [] r)
      | None => fields_bytes fuel (cur ++ [c]) l'
      end
  | _, _ => flush []
  end.
Definition Fields (s : string) : list string := map str_of (fields_bytes (length (bytes_of s)) [] (bytes_of s)).
Fixpoint cut_bytes (sep : ascii) (l : bytes) : option (bytes * bytes) :=
  match l with
  | [] => None
  | c :: l' => if Ascii.eqb sep c then Some ([], l')
               else match cut_bytes sep l' with Some (a, b) => Some (c :: a, b) | None => None end
  end.

(** [base64.StdEncoding] *)
Definition b64std_char (n : Z) : ascii :=
  if n =? 62 then "+"%char else if n =? 63 then "/"%char else b64_char n.
Fixpoint b64std_encode (l : list Z) : bytes :=
  match l with
  | a :: b :: c :: l' =>
      let v := Z.lor (Z.shiftl a 16) (Z.lor (Z.shiftl b 8) c) in
      b64std_char (Z.land (Z.shiftr v 18) 63) :: b64std_char (Z.land (Z.shiftr v 12) 63) ::
      b64std_char (Z.land (Z.shiftr v 6) 63) :: b64std_char (Z.land v 63) :: b64std_encode l'
  | [a; b] =>
      let v := Z.lor (Z.shiftl a 16) (Z.shiftl b 8) in
      [b64std_char (Z.land (Z.shiftr v 18) 63); b64std_char (Z.land (Z.shiftr v 12) 63); b64std_char (Z.land (Z.shiftr v 6) 63); "="%char]
  | [a] =>
      let v := Z.shiftl a 16 in
      [b64std_char (Z.land (Z.shiftr v 18) 63); b64std_char (Z.land (Z.shiftr v 12) 63); "="%char; "="%char]
  | [] => []
  end.

(** A product of int64 values wraps around. *)
Definition int64_wrap (z : Z) : Z := (z + 2 ^ 63) mod 2 ^ 64 - 2 ^ 63.

Definition is_code (n : Z) (c : ascii) : bool := code c =? n.
(** A hexadecimal digit. *)
Definition hex_value (c : ascii) : option Z :=
  if is_digit c then Some (code c - 48)
  else if (97 <=? code c) && (code c <=? 102) then Some (code c - 87)
  else if (65 <=? code c) && (code c <=? 70) then Some (code c - 55) else None.

(** ** Case folding: upper case, with the two other runes that fold to ASCII letters. *)
Definition upper_byte (c : ascii) : ascii := if is_lower c then chr (N_of_ascii c - 32) else c.
Fixpoint fold_name (l : bytes) : bytes :=
  match l with
  | [] => []
  | a :: l1 =>
      match l1 with
      | b :: l2 =>
          if is_code 197 a && is_code 191 b then chr 83 :: fold_name l2
          else match l2 with
               | c :: l3 => if is_code 226 a && is_code 132 b && is_code 170 c then chr 75 :: fold_name l3
                            else upper_byte a :: fold_name l1
               | [] => upper_byte a :: fold_name l1
               end
      | [] => [upper_byte a]
      end
  end.
(** [strings.EqualFold], on names whose letters are ASCII. *)
Definition EqualFold (s t : string) : bool := bool_decide (fold_name (bytes_of s) = fold_name (bytes_of t)).

(** ** Base64 groups as arithmetic *)
Lemma land_63 v : Z.land v 63 = v mod 64.
Proof. change 63 with (Z.ones 6). by rewrite Z.land_ones. Qed.
(** Disjoint bits add up. *)
Lemma lor_shiftl_add x y n : 0 ≤ n → 0 ≤ y < 2 ^ n → Z.lor (Z.shiftl x n) y = x * 2 ^ n + y.
Proof.
  intros Hn Hy. rewrite <- Z.shiftl_mul_pow2 by done. rewrite <- Z.add_lor_land.
  assert (Z.land (Z.shiftl x n) y = 0) as ->; [|lia].
  apply Z.bits_inj'. intros k Hk. rewrite Z.land_spec, Z.shiftl_spec, Z.bits_0 by done.
  destruct (Z.ltb_spec k n); [by rewrite Z.testbit_neg_r by lia|].
  assert (Z.testbit y k = false) as ->; [|apply andb_false_r].
  rewrite <- (Z.mod_small y (2 ^ n)) by done. by apply Z.mod_pow2_bits_high; lia.
Qed.
Lemma b64_group a b c : 0 ≤ b < 256 → 0 ≤ c < 256 →
  Z.lor (Z.shiftl a 16) (Z.lor (Z.shiftl b 8) c) = a * 65536 + b * 256 + c.
Proof.
  intros Hb Hc. rewrite (lor_shiftl_add b c 8) by (simpl; lia). change (2 ^ 8) with 256.
  rewrite lor_shiftl_add by (simpl; lia). change (2 ^ 16) with 65536. lia.
Qed.

(** A text of bytes that start no space sequence, forwards or backwards, is trimmed. *)
Definition heads_avoid (p : ascii → bool) (seqs : list bytes) : bool :=
  forallb (λ q : bytes, match q with x :: _ => negb (p x) | [] => false end) seqs.
Lemma strip_any_avoid p seqs c l : heads_avoid p seqs = true → p c = true → strip_any seqs (c :: l) = None.
Proof.
  intros H Hc. induction seqs as [|q qs IH]; [done|]. cbn in H. apply andb_true_iff in H as [Hq Hqs].
  destruct q as [|x q]; [done|]. cbn [strip_any strip_prefix].
  destruct (Ascii.eqb_spec x c) as [->|]; [by rewrite Hc in Hq|by apply IH].
Qed.
Lemma trimmed_bytes p l : heads_avoid p space_seqs = true → heads_avoid p (map (@rev ascii) space_seqs) = true →
  Forall (λ c, p c = true) l → trimmed l.
Proof.
  intros H1 H2 Hl.
  assert (∀ seqs k, heads_avoid p seqs = true → strip_any seqs [] = None → Forall (λ c, p c = true) k → strip_any seqs k = None) as H.
  { intros seqs [|c k] Hs He Hk; [done|]. apply Forall_cons in Hk as [Hc _]. by eapply strip_any_avoid. }
  split; [apply (H space_seqs)|apply (H (map (@rev ascii) space_seqs))]; try done. by apply Forall_rev.
Qed.
