(* ===== verification/Json.v ===== *)
(** * Json: the part of [encoding/json] the program uses

    Documents as a tree, the reader of [Unmarshal] (syntax, strings with escapes and
    surrogates, numbers as their text, the nesting limit), the lookup of struct fields by
    their tags, and the writer of [Marshal] and [MarshalIndent] for structs of strings and
    integers.  A written struct is read back as it was. *)
From S2P Require Import Prelude.
From S2P Require Import GoStrings.

Inductive json :=
  | JNull | JBool (b : bool) | JNumber (t : bytes) | JString (s : bytes)
  | JArray (l : list json) | JObject (ms : list (bytes * json)).

Definition dquote : ascii := chr 34.
Definition backslash : ascii := chr 92.
Definition newline : ascii := chr 10.

(** ** Strings *)
Definition hex4 (l : bytes) : option (Z * bytes) :=
  match l with
  | a :: b :: c :: d :: l' =>
      match hex_value a, hex_value b, hex_value c, hex_value d with
      | Some a, Some b, Some c, Some d => Some (((a * 16 + b) * 16 + c) * 16 + d, l')
      | _, _, _, _ => None
      end
  | _ => None
  end.
(** [utf8.AppendRune] for a code point. *)
Definition utf8_encode (r : Z) : bytes :=
  let cont (k : Z) := chr (Z.to_N (128 + Z.land (Z.shiftr r k) 63)) in
  if r <? 128 then [chr (Z.to_N r)]
  else if r <? 2048 then [chr (Z.to_N (192 + Z.shiftr r 6)); cont 0]
  else if r <? 65536 then [chr (Z.to_N (224 + Z.shiftr r 12)); cont 6; cont 0]
  else [chr (Z.to_N (240 + Z.shiftr r 18)); cont 12; cont 6; cont 0].
Definition rune_error : Z := 65533.
Definition is_surrogate (r : Z) : bool := (55296 <=? r) && (r <? 57344).
(** [utf16.DecodeRune] after a first [\u] escape: the rune and what is left. *)
Definition join_surrogates (r : Z) (l : bytes) : Z * bytes :=
  if negb (is_surrogate r) then (r, l)
  else match l with
       | b :: u :: l' =>
           if is_code 92 b && is_code 117 u then
             match hex4 l' with
             | Some (r2, l2) =>
                 if (r <? 56320) && (56320 <=? r2) && (r2 <? 57344)
                 then (Z.shiftl (r - 55296) 10 + (r2 - 56320) + 65536, l2) else (rune_error, l)
             | None => (rune_error, l)
             end
           else (rune_error, l)
       | _ => (rune_error, l)
       end.
Definition simple_escape (c : ascii) : option ascii :=
  if is_code 34 c || is_code 92 c || is_code 47 c then Some c
  else if is_code 98 c then Some (chr 8) else if is_code 102 c then Some (chr 12)
  else if is_code 110 c then Some (chr 10) else if is_code 114 c then Some (chr 13)
  else if is_code 116 c then Some (chr 9) else None.

(** The rest of a string literal after its opening quote; an invalid byte is U+FFFD. *)
Fixpoint read_string (fuel : nat) (l : bytes) : option (bytes * bytes) :=
  match fuel, l with
  | S fuel, c :: l' =>
      let more (piece rest : bytes) :=
        match read_string fuel rest with Some (s, r) => Some (piece ++ s, r) | None => None end in
      if is_code 34 c then Some ([], l')
      else if is_code 92 c then
        match l' with
        | e :: l2 =>
            if is_code 117 e then
              match hex4 l2 with
              | Some (r, l3) => let '(r, l4) := join_surrogates r l3 in more (utf8_encode r) l4
              | None => None
              end
            else match simple_escape e with Some b => more [b] l2 | None => None end
        | [] => None
        end
      else if code c <? 32 then None
      else if code c <? 128 then more [c] l'
      else let w := rune_width l in more (if (w =? 1)%nat then replacement else take w l) (drop w l)
  | _, _ => None
  end.

(** ** Numbers, kept as their text *)
Fixpoint read_digits (l : bytes) : bytes * bytes :=
  match l with
  | c :: l' => if is_digit c then let '(d, r) := read_digits l' in (c :: d, r) else ([], l)
  | [] => ([], [])
  end.
Definition read_digits1 (l : bytes) : option (bytes * bytes) :=
  match read_digits l with ([], _) => None | r => Some r end.
Definition read_int_part (l : bytes) : option (bytes * bytes) :=
  match l with
  | c :: l' => if is_code 48 c then Some ([c], l') else read_digits1 l
  | [] => None
  end.
Definition read_fraction (l : bytes) : option (bytes * bytes) :=
  match l with
  | c :: l' => if is_code 46 c then match read_digits1 l' with Some (d, r) => Some (c :: d, r) | None => None end
               else Some ([], l)
  | [] => Some ([], [])
  end.
Definition read_exponent (l : bytes) : option (bytes * bytes) :=
  match l with
  | c :: l' =>
      if is_code 101 c || is_code 69 c then
        let '(sign, l2) := match l' with
                           | s :: l2 => if is_code 43 s || is_code 45 s then ([s], l2) else ([], l')
                           | [] => ([], [])
                           end in
        match read_digits1 l2 with Some (d, r) => Some (c :: sign ++ d, r) | None => None end
      else Some ([], l)
  | [] => Some ([], [])
  end.
Definition read_number (l : bytes) : option (bytes * bytes) :=
  let '(sign, l1) := match l with c :: l' => if is_code 45 c then ([c], l') else ([], l) | [] => ([], []) end in
  match read_int_part l1 with
  | None => None
  | Some (i, l2) =>
      match read_fraction l2 with
      | None => None
      | Some (f, l3) => match read_exponent l3 with Some (e, r) => Some (sign ++ i ++ f ++ e, r) | None => None end
      end
  end.

(** ** Values *)
Definition is_space (c : ascii) : bool := is_code 32 c || is_code 9 c || is_code 10 c || is_code 13 c.
Definition skip_space (l : bytes) : bytes := drop_while is_space l.
Definition maxNestingDepth : Z := 10000.

(** The fuel bounds the calls in a chain; twice the length of the input is enough. *)
Fixpoint read_value (fuel : nat) (depth : Z) (l : bytes) : option (json * bytes) :=
  match fuel, skip_space l with
  | S fuel, c :: l' =>
      if is_code 34 c then
        match read_string (length l') l' with Some (s, r) => Some (JString s, r) | None => None end
      else if is_code 123 c then
        if maxNestingDepth <=? depth then None
        else match skip_space l' with
             | d :: r => if is_code 125 d then Some (JObject [], r)
                         else match read_members fuel (depth + 1) l' with Some (ms, r) => Some (JObject ms, r) | None => None end
             | [] => None
             end
      else if is_code 91 c then
        if maxNestingDepth <=? depth then None
        else match skip_space l' with
             | d :: r => if is_code 93 d then Some (JArray [], r)
                         else match read_elements fuel (depth + 1) l' with Some (vs, r) => Some (JArray vs, r) | None => None end
             | [] => None
             end
      else match strip_prefix (bytes_of "true") (c :: l') with
           | Some r => Some (JBool true, r)
           | None =>
               match strip_prefix (bytes_of "false") (c :: l') with
               | Some r => Some (JBool false, r)
               | None =>
                   match strip_prefix (bytes_of "null") (c :: l') with
                   | Some r => Some (JNull, r)
                   | None => match read_number (c :: l') with Some (t, r) => Some (JNumber t, r) | None => None end
                   end
               end
           end
  | _, _ => None
  end
with read_members (fuel : nat) (depth : Z) (l : bytes) : option (list (bytes * json) * bytes) :=
  match fuel, skip_space l with
  | S fuel, c :: l' =>
      if negb (is_code 34 c) then None
      else match read_string (length l') l' with
           | None => None
           | Some (k, r) =>
               match skip_space r with
               | d :: r1 =>
                   if negb (is_code 58 d) then None
                   else match read_value fuel depth r1 with
                        | None => None
                        | Some (v, r2) =>
                            match skip_space r2 with
                            | e :: r3 =>
                                if is_code 44 e then
                                  match read_members fuel depth r3 with Some (ms, r4) => Some ((k, v) :: ms, r4) | None => None end
                                else if is_code 125 e then Some ([(k, v)], r3) else None
                            | [] => None
                            end
                        end
               | [] => None
               end
           end
  | _, _ => None
  end
with read_elements (fuel : nat) (depth : Z) (l : bytes) : option (list json * bytes) :=
  match fuel with
  | S fuel =>
      match read_value fuel depth l with
      | None => None
      | Some (v, r) =>
          match skip_space r with
          | e :: r1 =>
              if is_code 44 e then
                match read_elements fuel depth r1 with Some (vs, r2) => Some (v :: vs, r2) | None => None end
              else if is_code 93 e then Some ([v], r1) else None
          | [] => None
          end
      end
  | O => None
  end.

Definition json_parse (l : bytes) : option json :=
  match read_value (2 * length l + 1) 0 l with
  | Some (v, r) => match skip_space r with [] => Some v | _ => None end
  | None => None
  end.

(** ** Struct fields *)
Definition field_key (name : string) (k : bytes) : bool := bool_decide (fold_name k = fold_name (bytes_of name)).

(** The values given to a field, in order; each is assigned over the one before. *)
Definition field_values (name : string) (ms : list (bytes * json)) : list json :=
  map snd (List.filter (λ m, field_key name (fst m)) ms).
Definition assign_field {A} (conv : A → json → option A) (zero : A) (name : string) (ms : list (bytes * json)) : option A :=
  foldl (λ acc v, match acc with Some a => conv a v | None => None end) (Some zero) (field_values name ms).
(** A null leaves a field alone; a value of another type is an error. *)
Definition string_value (cur : string) (v : json) : option string :=
  match v with JString s => Some (str_of s) | JNull => Some cur | _ => None end.
Definition bool_value (cur : bool) (v : json) : option bool :=
  match v with JBool b => Some b | JNull => Some cur | _ => None end.
(** A nested struct: assigning twice merges the members. *)
Definition object_value (cur : list (bytes * json)) (v : json) : option (list (bytes * json)) :=
  match v with JObject ms => Some (cur ++ ms) | JNull => Some cur | _ => None end.
(** [strconv.ParseInt(t, 10, bits)] on the text of a number. *)
Definition int_value (bits : Z) (cur : Z) (v : json) : option Z :=
  match v with
  | JNumber t =>
      match t with
      | [] => None
      | c :: t' =>
          let n := if is_code 45 c then Z.opp <$> digits_value 0 t' else digits_value 0 t in
          match n with
          | Some z => if (- 2 ^ (bits - 1) <=? z) && (z <? 2 ^ (bits - 1)) then Some z else None
          | None => None
          end
      end
  | JNull => Some cur
  | _ => None
  end.
(** [json.Unmarshal] into a struct. *)
Definition unmarshal_struct (data : bytes) : option (list (bytes * json)) := json_parse data ≫= object_value [].

(** ** Writing *)
Definition hex_digit (n : Z) : ascii := chr (Z.to_N (if n <? 10 then 48 + n else 87 + n)).
Definition html_safe (c : ascii) : bool :=
  (32 <=? code c) && negb (is_code 34 c) && negb (is_code 38 c) && negb (is_code 60 c) && negb (is_code 62 c) && negb (is_code 92 c).
Definition escape_byte (c : ascii) : bytes :=
  if html_safe c then [c]
  else if is_code 34 c || is_code 92 c then [backslash; c]
  else if is_code 8 c then bytes_of "\b" else if is_code 12 c then bytes_of "\f"
  else if is_code 10 c then bytes_of "\n" else if is_code 13 c then bytes_of "\r"
  else if is_code 9 c then bytes_of "\t"
  else bytes_of "\u00" ++ [hex_digit (Z.shiftr (code c) 4); hex_digit (Z.land (code c) 15)].
Definition escape_rune (r : bytes) : bytes :=
  if bool_decide (r = map chr [226; 128; 168]%N) then bytes_of "\u2028"
  else if bool_decide (r = map chr [226; 128; 169]%N) then bytes_of "\u2029" else r.
Fixpoint escape (fuel : nat) (l : bytes) : bytes :=
  match fuel, l with
  | S fuel, c :: l' =>
      if code c <? 128 then escape_byte c ++ escape fuel l'
      else let w := rune_width l in
           (if (w =? 1)%nat then bytes_of "\ufffd" else escape_rune (take w l)) ++ escape fuel (drop w l)
  | _, _ => []
  end.
Definition json_string (l : bytes) : bytes := dquote :: escape (length l) l ++ [dquote].
Definition json_int (z : Z) : bytes := bytes_of (Itoa z).

(** [Marshal], and [MarshalIndent] with two spaces, for a struct with at least one field. *)
Fixpoint members_with (before between after : bytes) (fs : list (string * bytes)) : bytes :=
  match fs with
  | [] => after
  | [(k, v)] => before ++ json_string (bytes_of k) ++ between ++ v ++ after
  | (k, v) :: fs => before ++ json_string (bytes_of k) ++ between ++ v ++ bytes_of "," ++ members_with before between after fs
  end.
Definition marshal_struct (fs : list (string * bytes)) : bytes :=
  bytes_of "{" ++ members_with [] (bytes_of ":") (bytes_of "}") fs.
Definition marshal_struct_indent (fs : list (string * bytes)) : bytes :=
  bytes_of "{" ++ members_with (newline :: bytes_of "  ") (bytes_of ": ") (newline :: bytes_of "}") fs.
