(* ===== verification/GoUrl.v ===== *)
(** * GoUrl: the host of a URL

    [net/url.Parse] followed by [URL.Hostname]: the scheme, the authority with its user
    information, host and port, and the errors on the way.  What is inside brackets must
    be an IPv6 address; [netip.ParseAddr] decides that, a field of the class [Addresses]. *)
From S2P Require Import Prelude.
From S2P Require Import GoStrings.

(** The address parsers of the standard library. *)
Class Addresses := {
  netip_ParseAddr6 : string → bool;        (* a valid address, and not an IPv4 one *)
  ParseIP_String : string → option string; (* net.ParseIP, then String *)
}.

Definition has_prefix (p l : bytes) : bool := match strip_prefix p l with Some _ => true | None => false end.
Definition last_cut (sep : ascii) (l : bytes) : option (bytes * bytes) :=
  match cut_bytes sep (rev l) with Some (a, b) => Some (rev b, rev a) | None => None end.
Definition ascii_alpha (c : ascii) : bool := is_lower c || is_upper c.
Definition is_unreserved (c : ascii) : bool := ascii_alpha c || is_digit c || existsb (Ascii.eqb c) (bytes_of "-_.~").
Definition upperhex (n : N) : ascii := if (n <? 10)%N then chr (48 + n) else chr (55 + n).
(** [url.QueryEscape] *)
Definition query_byte (c : ascii) : bytes :=
  if is_unreserved c then [c] else if is_code 32 c then ["+"%char]
  else ["%"%char; upperhex (N_of_ascii c / 16); upperhex (N_of_ascii c mod 16)].
Definition QueryEscape (s : string) : string := str_of (concat (map query_byte (bytes_of s))).
(** [url.PathEscape] *)
Definition path_byte (c : ascii) : bytes :=
  if is_unreserved c || existsb (Ascii.eqb c) (bytes_of "$&+:=@") then [c]
  else ["%"%char; upperhex (N_of_ascii c / 16); upperhex (N_of_ascii c mod 16)].
Definition PathEscape (s : string) : string := str_of (concat (map path_byte (bytes_of s))).
(** [shouldEscape] for a host. *)
Definition host_escapes (c : ascii) : bool :=
  negb (is_unreserved c || existsb (Ascii.eqb c) (chr 34 :: bytes_of "!$&'()*+,;=:[]<>")).

Fixpoint unescape_host (zone : bool) (l : bytes) : option bytes :=
  match l with
  | [] => Some []
  | c :: l1 =>
      if Ascii.eqb c "%" then
        match l1 with
        | a :: b :: l2 =>
            match hex_value a, hex_value b with
            | Some x, Some y =>
                let v := chr (Z.to_N (16 * x + y)) in
                let percent := (x =? 2) && (y =? 5) in
                if (if zone then negb percent && negb (is_code 32 v) && host_escapes v else (x <? 8) && negb percent)
                then None else cons v <$> unescape_host zone l2
            | _, _ => None
            end
        | _ => None
        end
      else if (code c <? 128) && host_escapes c then None else cons c <$> unescape_host zone l1
  end.
(** Elsewhere only the escapes are checked. *)
Fixpoint escapes_valid (l : bytes) : bool :=
  match l with
  | [] => true
  | c :: l1 =>
      if Ascii.eqb c "%" then
        match l1 with
        | a :: b :: l2 => match hex_value a, hex_value b with Some _, Some _ => escapes_valid l2 | _, _ => false end
        | _ => false
        end
      else escapes_valid l1
  end.
Definition validOptionalPort (l : bytes) : bool :=
  match l with [] => true | c :: p => Ascii.eqb c ":" && forallb is_digit p end.
Definition validUserinfo (l : bytes) : bool :=
  forallb (λ c, is_unreserved c || existsb (Ascii.eqb c) (bytes_of "!$&'()*+,;=:%@")) l.

(** The first "%25" starts the zone of an address. *)
Fixpoint split_zone (l : bytes) : bytes * option bytes :=
  match l with
  | [] => ([], None)
  | c :: l' => if has_prefix (bytes_of "%25") l then ([], Some l)
               else let '(a, z) := split_zone l' in (c :: a, z)
  end.

Section Parse.
Context {D : Addresses}.

Definition parse_literal (inner colonPort : bytes) : option bytes :=
  if negb (validOptionalPort colonPort) then None
  else
    port ← unescape_host false colonPort;
    name ← (let '(host, zone) := split_zone inner in
            h ← unescape_host false host;
            match zone with Some z => z' ← unescape_host true z; Some (h ++ z') | None => Some h end);
    if netip_ParseAddr6 (str_of name) then Some (bytes_of "[" ++ name ++ bytes_of "]" ++ port) else None.
Definition parseHost (scheme host : bytes) : option bytes :=
  match last_cut "[" host with
  | Some (before, after) =>
      match before with
      | [] => match last_cut "]" after with
              | Some (inner, colonPort) => parse_literal inner colonPort
              | None => None
              end
      | _ => None
      end
  | None =>
      let lenient := bool_decide (str_of scheme ∈ ["postgresql"; "postgres"]) in
      let port := match (if lenient then last_cut ":" host else cut_bytes ":" host) with
                  | Some (_, p) => ":"%char :: p
                  | None => []
                  end in
      if validOptionalPort port then unescape_host false host else None
  end.
Definition parseAuthority (scheme authority : bytes) : option bytes :=
  match last_cut "@" authority with
  | None => parseHost scheme authority
  | Some (userinfo, host) =>
      h ← parseHost scheme host;
      if validUserinfo userinfo && escapes_valid userinfo then Some h else None
  end.

(** [getScheme]: nothing when the colon comes first. *)
Fixpoint scan_scheme (first : bool) (acc l : bytes) : option (bytes * bytes) :=
  match l with
  | [] => Some ([], acc)
  | c :: l' =>
      if ascii_alpha c then scan_scheme false (acc ++ [c]) l'
      else if is_digit c || existsb (Ascii.eqb c) (bytes_of "+-.") then
        if first then Some ([], acc ++ l) else scan_scheme false (acc ++ [c]) l'
      else if Ascii.eqb c ":" then if first then None else Some (acc, l')
      else Some ([], acc ++ l)
  end.
Definition before_cut (sep : ascii) (l : bytes) : bytes := match cut_bytes sep l with Some (a, _) => a | None => l end.

(** The [Host] of the URL; nothing on an error. *)
Definition url_Parse_Host (raw : bytes) : option bytes :=
  let '(u, frag) := match cut_bytes "#" raw with Some r => r | None => (raw, []) end in
  if existsb (λ c, (code c <? 32) || is_code 127 c) u then None
  else if negb (escapes_valid frag) then None
  else if bool_decide (u = bytes_of "*") then Some []
  else
    s ← scan_scheme true [] u;
    let '(scheme, rest) := s in
    let scheme := lower_bytes scheme in
    let rest := before_cut "?" rest in
    if negb (has_prefix (bytes_of "/") rest) then
      if negb (bool_decide (scheme = [])) then Some []
      else if existsb (Ascii.eqb ":") (before_cut "/" rest) then None
      else if escapes_valid rest then Some [] else None
    else if (negb (bool_decide (scheme = [])) || negb (has_prefix (bytes_of "///") rest)) && has_prefix (bytes_of "//") rest then
      let authority := before_cut "/" (drop 2 rest) in
      let path := drop (length authority) (drop 2 rest) in
      h ← parseAuthority scheme authority;
      if escapes_valid path then Some h else None
    else if escapes_valid rest then Some [] else None.

(** [URL.Hostname]: without the port and the brackets. *)
Definition url_Hostname (host : bytes) : bytes :=
  let h := match last_cut ":" host with
           | Some (a, p) => if validOptionalPort (":"%char :: p) then a else host
           | None => host
           end in
  match strip_prefix (bytes_of "[") h with
  | Some r => match last_cut "]" r with Some (inner, []) => inner | _ => h end
  | None => h
  end.
Definition Parse_Hostname (raw : string) : option string :=
  (λ h, str_of (url_Hostname h)) <$> url_Parse_Host (bytes_of raw).
End Parse.
