(* ===== verification/JsonProps.v ===== *)
(** * JsonProps: what is written is read back

    The reader of [Json] never runs out of its fuel, and a struct of strings and integers
    written by [marshal_struct] or [marshal_struct_indent] is read as its members. *)
From S2P Require Import Prelude.
From S2P Require Import GoStrings.
From S2P Require Import Json.

(** ** Well-formed UTF-8 *)
Inductive utf8 : bytes → Prop :=
  | utf8_nil : utf8 []
  | utf8_ascii c l : code c < 128 → utf8 l → utf8 (c :: l)
  | utf8_rune r l : (2 ≤ length r)%nat → rune_width r = length r → utf8 l → utf8 (r ++ l).
Lemma utf8_all_ascii l : Forall (λ c, code c < 128) l → utf8 l.
Proof. induction 1; by constructor. Qed.

Lemma rune_width_app r l : (2 ≤ length r)%nat → rune_width r = length r → rune_width (r ++ l) = length r.
Proof.
  destruct r as [|c [|d k]]; simpl; [lia..|]. intros _. destruct (rune_shape c) as [[[lo hi] n]|] eqn:Hc; [|lia].
  destruct (in_range lo hi d && (n <=? length k)%nat && forallb is_cont (take n k)) eqn:Hb; [|lia]. intros Hn.
  apply andb_true_iff in Hb as [[Hd Hk]%andb_true_iff Hf]. assert (n = length k) as -> by lia.
  rewrite firstn_all in Hf. rewrite Hd, length_app, take_app_length, Hf.
  replace (length k <=? length k + length l)%nat with true by (symmetry; apply Nat.leb_le; lia). done.
Qed.
Lemma rune_head r : (2 ≤ length r)%nat → rune_width r = length r → ∃ c k, r = c :: k ∧ (code c <? 128) = false.
Proof.
  destruct r as [|c k]; simpl; [lia|]. intros H2 Hw. exists c, k. split; [done|]. apply not_true_iff_false. intros Hc.
  assert (rune_shape c = None) as Hs.
  { pose proof (byte_forall (λ c, implb (code c <? 128) (match rune_shape c with None => true | _ => false end)) eq_refl c) as H.
    cbv beta in H. rewrite Hc in H. simpl in H. by destruct (rune_shape c). }
  rewrite Hs in Hw. simpl in H2. lia.
Qed.

(** ** Strings *)
Lemma read_string_step n c l : is_code 34 c = false → is_code 92 c = false → (32 <=? code c) = true → code c <? 128 = true →
  read_string (S n) (c :: l) = match read_string n l with Some (s, r) => Some (c :: s, r) | None => None end.
Proof. intros H1 H2 H3 H4. simpl. rewrite H1, H2, H4. apply Z.leb_le in H3. by replace (code c <? 32) with false by (symmetry; apply Z.ltb_ge; lia). Qed.

(** An escaped byte reads as itself. *)
Definition reads_as (w : bytes) (p : bytes) : Prop :=
  ∀ n rest s r, read_string n rest = Some (s, r) → read_string (length w + n) (w ++ rest) = Some (p ++ s, r).

Lemma read_string_S n l x : read_string n l = Some x → read_string (S n) l = Some x.
Proof.
  revert l x. induction n as [|n IH]; [done|]. intros [|c l] x H; [done|].
  change (read_string (S (S n)) (c :: l)) with
    (let more (piece rest : bytes) :=
        match read_string (S n) rest with Some (s, r) => Some (piece ++ s, r) | None => None end in
      if is_code 34 c then Some ([], l)
      else if is_code 92 c then
        match l with
        | e :: l2 =>
            if is_code 117 e then
              match hex4 l2 with
              | Some (r, l3) => let '(r, l4) := join_surrogates r l3 in more (utf8_encode r) l4
              | None => None
              end
            else match simple_escape e with Some b => more [b] l2 | None => None end
        | [] => None
        end
      else if code c <? 32 then None
      else if code c <? 128 then more [c] l
      else let w := rune_width (c :: l) in more (if (w =? 1)%nat then replacement else take w (c :: l)) (drop w (c :: l))).
  simpl in H |- *.
  assert (∀ p l, match read_string n l with Some (s, r) => Some (p ++ s, r) | None => None end = Some x →
     match read_string (S n) l with Some (s, r) => Some (p ++ s, r) | None => None end = Some x) as Hmore.
  { intros p k. destruct (read_string n k) as [[s r]|] eqn:Hr; [|done]. by rewrite (IH _ _ Hr). }
  destruct (is_code 34 c); [done|]. destruct (is_code 92 c).
  - destruct l as [|e l2]; [done|]. destruct (is_code 117 e).
    + destruct (hex4 l2) as [[r l3]|]; [|done]. destruct (join_surrogates r l3). by apply Hmore.
    + destruct (simple_escape e); [|done]. by apply (Hmore [_]).
  - destruct (code c <? 32); [done|]. destruct (code c <? 128); [by apply (Hmore [_])|]. by apply Hmore.
Qed.
Lemma read_string_mono n m l x : (n ≤ m)%nat → read_string n l = Some x → read_string m l = Some x.
Proof. intros Hle Hx. induction Hle; [done|]. by apply read_string_S. Qed.

Lemma escape_hex c : code c <? 128 = true → ∃ a b, hex_value (hex_digit (Z.shiftr (code c) 4)) = Some a ∧
  hex_value (hex_digit (Z.land (code c) 15)) = Some b ∧ a * 16 + b = code c ∧ utf8_encode (code c) = [c].
Proof.
  intros Hc. pose proof (byte_forall (λ c, implb (code c <? 128)
    (match hex_value (hex_digit (Z.shiftr (code c) 4)), hex_value (hex_digit (Z.land (code c) 15)) with
     | Some a, Some b => (a * 16 + b =? code c) && bool_decide (utf8_encode (code c) = [c]) | _, _ => false end)) eq_refl c) as H.
  cbv beta in H. rewrite Hc in H. simpl implb in H.
  destruct (hex_value (hex_digit (Z.shiftr _ _))) as [a|]; [|done]. destruct (hex_value _) as [b|]; [|done].
  apply andb_true_iff in H as [H1%Z.eqb_eq H2%bool_decide_eq_true]. by exists a, b.
Qed.

Lemma reads_as_simple e b : is_code 117 e = false → simple_escape e = Some b → reads_as [backslash; e] [b].
Proof. intros Hu He n rest s r H. simpl. rewrite Hu, He. apply read_string_S in H. simpl in H. by rewrite H. Qed.

Lemma read_string_u n l r l2 : hex4 l = Some (r, l2) → is_surrogate r = false →
  read_string (S n) (backslash :: "u"%char :: l) =
  match read_string n l2 with Some (s, k) => Some (utf8_encode r ++ s, k) | None => None end.
Proof.
  intros Hh Hs. change (read_string (S n) (backslash :: "u"%char :: l)) with
    (match hex4 l with
     | Some (r, l3) => let '(r, l4) := join_surrogates r l3 in
         match read_string n l4 with Some (s, k) => Some (utf8_encode r ++ s, k) | None => None end
     | None => None end).
  rewrite Hh. unfold join_surrogates. by rewrite Hs.
Qed.
Lemma reads_as_u w r : length w = 4%nat → (∀ rest, hex4 (w ++ rest) = Some (r, rest)) → is_surrogate r = false →
  reads_as (backslash :: "u"%char :: w) (utf8_encode r).
Proof.
  intros Hw Hh Hs n rest s k H. apply (read_string_mono (S n)); [simpl; lia|].
  change ((backslash :: "u"%char :: w) ++ rest) with (backslash :: "u"%char :: (w ++ rest)).
  by rewrite (read_string_u _ _ r rest), H by done.
Qed.

Lemma reads_as_byte c : code c <? 128 = true → reads_as (escape_byte c) [c].
Proof.
  intros Hc. unfold escape_byte. destruct (html_safe c) eqn:Hs.
  { intros n rest s r H. unfold html_safe in Hs. rewrite !andb_true_iff, !negb_true_iff in Hs.
    destruct Hs as (((((H1 & H2) & _) & _) & _) & H6). change (length [c] + n)%nat with (S n). change ([c] ++ rest) with (c :: rest).
    rewrite read_string_step by done. by rewrite H. }
  destruct (is_code 34 c || is_code 92 c) eqn:Hq.
  { apply reads_as_simple; [apply orb_true_iff in Hq as [Hq|Hq]; unfold is_code in *; apply Z.eqb_eq in Hq; by rewrite Hq|].
    unfold simple_escape. by rewrite Hq. }
  assert (∀ k, is_code k c = true → chr (Z.to_N k) = c) as Hcode.
  { intros k Hk%Z.eqb_eq. unfold chr. rewrite <- Hk. unfold code. by rewrite N2Z.id, ascii_N_embedding. }
  do 5 (case_match eqn:Hx; [apply Hcode in Hx; apply reads_as_simple; [done|by rewrite <- Hx]|clear Hx]).
  destruct (escape_hex c Hc) as (a & b & Ha & Hb & Hab & <-).
  apply (reads_as_u (bytes_of "00" ++ [_; _])); [done| |].
  - intros rest. cbn [app hex4 bytes_of String.list_ascii_of_string]. rewrite Ha, Hb.
    change (hex_value "0") with (Some 0). cbv iota beta. by rewrite <- Hab.
  - apply Z.ltb_lt in Hc. unfold is_surrogate. by replace (55296 <=? code c) with false by (symmetry; apply Z.leb_gt; lia).
Qed.

Lemma reads_as_rune r : (2 ≤ length r)%nat → rune_width r = length r → reads_as (escape_rune r) r.
Proof.
  intros H2 Hw. unfold escape_rune.
  case_bool_decide as H8; [rewrite H8; by apply (reads_as_u (bytes_of "2028") 8232)|].
  case_bool_decide as H9; [rewrite H9; by apply (reads_as_u (bytes_of "2029") 8233)|].
  intros n rest s k H. destruct (rune_head r H2 Hw) as (c & r' & -> & Hc).
  change (length (c :: r') + n)%nat with (S (length r' + n)).
  pose proof (rune_width_app _ rest H2 Hw) as Hwa.
  assert (∀ j, j < 128 → is_code j c = false) as Hj by (intros j Hj; apply Z.eqb_neq; apply Z.ltb_ge in Hc; lia).
  cbn [read_string app]. rewrite !Hj, Hc by lia. replace (code c <? 32) with false by (symmetry; apply Z.ltb_ge; apply Z.ltb_ge in Hc; lia).
  cbv zeta. change (c :: r' ++ rest) with ((c :: r') ++ rest). rewrite Hwa, take_app_length, drop_app_length.
  destruct (Nat.eqb_spec (length (c :: r')) 1) as [H1|_]; [lia|].
  by rewrite (read_string_mono n _ rest (s, k)) by (lia || done).
Qed.

(** Escaping a text and reading it gives the text. *)
Lemma read_escape l : utf8 l → ∀ n m rest, (length l ≤ n)%nat → (length (escape n l) < m)%nat →
  read_string m (escape n l ++ dquote :: rest) = Some (l, rest).
Proof.
  induction 1 as [|c l Hc _ IH|r l H2 Hw _ IH]; intros n m rest Hn Hm.
  - assert (escape n [] = []) as -> by (by destruct n). destruct m; [simpl in Hm; lia|]. done.
  - destruct n as [|n]; [simpl in Hn; lia|]. cbn [escape] in *. apply Z.ltb_lt in Hc. rewrite Hc in *.
    rewrite length_app in Hm. simpl in Hn. rewrite <- app_assoc.
    apply (read_string_mono (length (escape_byte c) + (m - length (escape_byte c)))); [lia|].
    apply (reads_as_byte c Hc). apply IH; lia.
  - destruct (rune_head r H2 Hw) as (c & r' & Hr & Hc). destruct n as [|n]; [rewrite length_app in Hn; lia|].
    assert (escape (S n) (r ++ l) = escape_rune r ++ escape n l) as He.
    { rewrite Hr at 1. cbn [escape app]. rewrite Hc. change (c :: r' ++ l) with ((c :: r') ++ l). rewrite <- Hr.
      cbv zeta. rewrite (rune_width_app r l H2 Hw), take_app_length, drop_app_length. by destruct (Nat.eqb_spec (length r) 1); [lia|]. }
    rewrite He in *. rewrite length_app in *. rewrite <- app_assoc.
    apply (read_string_mono (length (escape_rune r) + (m - length (escape_rune r)))); [lia|].
    apply (reads_as_rune r H2 Hw). apply IH; lia.
Qed.
Lemma read_json_string l rest n : utf8 l → (length (escape (length l) l) < n)%nat →
  read_string n (escape (length l) l ++ dquote :: rest) = Some (l, rest).
Proof. intros Hl Hn. by apply read_escape. Qed.

(** ** Every reader consumes input *)
Definition shrinks {A} (res : option (A * bytes)) (l : bytes) : Prop :=
  match res with Some (_, r) => (length r < length l)%nat | None => True end.

Lemma length_skip_space l : (length (skip_space l) ≤ length l)%nat.
Proof. destruct (drop_while_split is_space l) as (p & Hp & _). rewrite Hp at 2. rewrite length_app. unfold skip_space. lia. Qed.

Lemma hex4_length l r k : hex4 l = Some (r, k) → (length k < length l)%nat.
Proof. destruct l as [|a [|b [|c [|d l]]]]; simpl; try done. repeat case_match; intros [= _ <-]; lia. Qed.
Lemma join_surrogates_length r l r' k : join_surrogates r l = (r', k) → (length k ≤ length l)%nat.
Proof.
  unfold join_surrogates. repeat case_match; intros [= _ <-]; simpl; try lia.
  all: try (match goal with H : hex4 _ = Some _ |- _ => apply hex4_length in H end); simpl in *; lia.
Qed.
Lemma read_string_shrinks n l : shrinks (read_string n l) l.
Proof.
  revert l. induction n as [|n IH]; intros [|c l]; try done. simpl.
  assert (∀ p k, (length k ≤ length l)%nat →
    shrinks (match read_string n k with Some (s, r) => Some ((p ++ s : bytes), r) | None => None end) (c :: l)) as Hmore.
  { intros p k Hk. specialize (IH k). destruct (read_string n k) as [[s r]|]; simpl in *; [lia|done]. }
  destruct (is_code 34 c); [simpl; lia|]. destruct (is_code 92 c).
  - destruct l as [|e l2]; [done|]. destruct (is_code 117 e).
    + destruct (hex4 l2) as [[r l3]|] eqn:H4; [|done]. destruct (join_surrogates r l3) as [r' l4] eqn:Hj.
      apply hex4_length in H4. apply join_surrogates_length in Hj. apply Hmore. simpl. lia.
    + destruct (simple_escape e); [|done]. apply (Hmore [_]). simpl. lia.
  - destruct (code c <? 32); [done|]. destruct (code c <? 128); [by apply (Hmore [_])|].
    apply Hmore. pose proof (rune_width_pos c l) as Hw. change (length (drop (rune_width (c :: l)) (c :: l)) ≤ length l)%nat.
    rewrite length_drop. simpl length. lia.
Qed.

Lemma read_digits_length l d r : read_digits l = (d, r) → length l = (length d + length r)%nat.
Proof.
  revert d r. induction l as [|c l IH]; simpl; intros d r; [by intros [= <- <-]|].
  destruct (is_digit c); [|by intros [= <- <-]]. destruct (read_digits l) as [d' r'] eqn:Hl. intros [= <- <-]. simpl. by rewrite (IH d' r').
Qed.
Lemma read_digits1_shrinks l : shrinks (read_digits1 l) l.
Proof.
  unfold read_digits1. destruct (read_digits l) as [[|c d] r] eqn:Hl; [done|]. apply read_digits_length in Hl. simpl in *. lia.
Qed.
Lemma read_int_part_shrinks l : shrinks (read_int_part l) l.
Proof. destruct l as [|c l]; [done|]. simpl. destruct (is_code 48 c); [simpl; lia|apply read_digits1_shrinks]. Qed.
Lemma read_fraction_length l d r : read_fraction l = Some (d, r) → (length r ≤ length l)%nat.
Proof.
  destruct l as [|c l]; simpl; [by intros [= _ <-]|]. destruct (is_code 46 c); [|intros [= _ <-]; simpl; lia].
  pose proof (read_digits1_shrinks l). destruct (read_digits1 l) as [[? ?]|]; [|done]. intros [= _ <-]. simpl in *. lia.
Qed.
Lemma read_exponent_length l d r : read_exponent l = Some (d, r) → (length r ≤ length l)%nat.
Proof.
  destruct l as [|c l]; simpl; [by intros [= _ <-]|]. destruct (is_code 101 c || is_code 69 c); [|intros [= _ <-]; simpl; lia].
  destruct l as [|s l2]; simpl; [done|]. destruct (is_code 43 s || is_code 45 s).
  - pose proof (read_digits1_shrinks l2). destruct (read_digits1 l2) as [[? ?]|]; [|done]. intros [= _ <-]. simpl in *. lia.
  - pose proof (read_digits1_shrinks (s :: l2)). destruct (read_digits1 (s :: l2)) as [[? ?]|]; [|done]. intros [= _ <-]. simpl in *. lia.
Qed.
Lemma read_number_shrinks l : shrinks (read_number l) l.
Proof.
  unfold read_number. destruct (match l with [] => _ | _ => _ end) as [sign l1] eqn:Hs.
  assert (length l1 ≤ length l)%nat as Hl1.
  { destruct l as [|c l]; [by injection Hs as _ <-|]. destruct (is_code 45 c); injection Hs as _ <-; simpl; lia. }
  pose proof (read_int_part_shrinks l1) as Hi. destruct (read_int_part l1) as [[i l2]|]; [|done]. simpl in Hi.
  destruct (read_fraction l2) as [[f l3]|] eqn:Hf; [|done]. apply read_fraction_length in Hf.
  destruct (read_exponent l3) as [[e l4]|] eqn:He; [|done]. apply read_exponent_length in He. simpl. lia.
Qed.
Lemma strip_prefix_shrinks p l r : p ≠ [] → strip_prefix p l = Some r → (length r < length l)%nat.
Proof. intros Hp ->%strip_prefix_spec. rewrite length_app. destruct p; [done|]. simpl. lia. Qed.

(** The literals and numbers of [read_value]. *)
Definition read_atom (l : bytes) : option (json * bytes) :=
  match strip_prefix (bytes_of "true") l with
  | Some r => Some (JBool true, r)
  | None =>
      match strip_prefix (bytes_of "false") l with
      | Some r => Some (JBool false, r)
      | None =>
          match strip_prefix (bytes_of "null") l with
          | Some r => Some (JNull, r)
          | None => match read_number l with Some (t, r) => Some (JNumber t, r) | None => None end
          end
      end
  end.
Lemma read_atom_shrinks l : shrinks (read_atom l) l.
Proof.
  unfold read_atom. pose proof (read_number_shrinks l) as Hn.
  do 3 (case_match; [by eapply (strip_prefix_shrinks (bytes_of _)); [|eassumption]|]).
  by destruct (read_number l) as [[t r]|].
Qed.

Lemma readers_shrink n : ∀ d l,
  shrinks (read_value n d l) l ∧ shrinks (read_members n d l) l ∧ shrinks (read_elements n d l) l.
Proof.
  induction n as [|n IH]; intros d l; [done|].
  pose proof (length_skip_space l) as Hsk. split; [|split].
  - cbn [read_value]. destruct (skip_space l) as [|c l'] eqn:Hl; [done|]. simpl length in Hsk.
    destruct (is_code 34 c).
    { pose proof (read_string_shrinks (length l') l') as Hs. destruct (read_string _ l') as [[s r]|]; simpl in *; [lia|done]. }
    destruct (is_code 123 c).
    { destruct (maxNestingDepth <=? d); [done|]. pose proof (length_skip_space l') as Hs'.
      destruct (skip_space l') as [|e r]; [done|]. destruct (is_code 125 e); [simpl in *; lia|].
      destruct (IH (d + 1) l') as (_ & Hm & _). destruct (read_members n (d + 1) l') as [[ms r']|]; simpl in *; [lia|done]. }
    destruct (is_code 91 c).
    { destruct (maxNestingDepth <=? d); [done|]. pose proof (length_skip_space l') as Hs'.
      destruct (skip_space l') as [|e r]; [done|]. destruct (is_code 93 e); [simpl in *; lia|].
      destruct (IH (d + 1) l') as (_ & _ & Hm). destruct (read_elements n (d + 1) l') as [[ms r']|]; simpl in *; [lia|done]. }
    fold (read_atom (c :: l')). pose proof (read_atom_shrinks (c :: l')) as Ha. destruct (read_atom (c :: l')) as [[v r]|]; simpl in *; [lia|done].
  - cbn [read_members]. destruct (skip_space l) as [|c l'] eqn:Hl; [done|]. simpl length in Hsk. destruct (negb (is_code 34 c)); [done|].
    pose proof (read_string_shrinks (length l') l') as Hs. destruct (read_string _ l') as [[k r]|]; [|done]. simpl in Hs.
    pose proof (length_skip_space r) as Hr. destruct (skip_space r) as [|e r1]; [done|]. destruct (negb (is_code 58 e)); [done|].
    destruct (IH d r1) as (Hv & _). destruct (read_value n d r1) as [[v r2]|]; [|done]. simpl in Hv, Hr.
    pose proof (length_skip_space r2) as Hr2. destruct (skip_space r2) as [|f r3]; [done|]. simpl in Hr2. destruct (is_code 44 f).
    + destruct (IH d r3) as (_ & Hm & _). destruct (read_members n d r3) as [[ms r4]|]; simpl in *; [lia|done].
    + destruct (is_code 125 f); simpl; [lia|done].
  - cbn [read_elements]. destruct (IH d l) as (Hv & _). destruct (read_value n d l) as [[v r]|]; [|done]. simpl in Hv.
    pose proof (length_skip_space r) as Hr. destruct (skip_space r) as [|e r1]; [done|]. simpl in Hr. destruct (is_code 44 e).
    + destruct (IH d r1) as (_ & _ & Hm). destruct (read_elements n d r1) as [[vs r2]|]; simpl in *; [lia|done].
    + destruct (is_code 93 e); simpl; [lia|done].
Qed.

(** More fuel than the input asks for changes nothing. *)
Lemma readers_fuel n : ∀ m d l,
  ((2 * length l + 1 ≤ n)%nat → (n ≤ m)%nat → read_value m d l = read_value n d l) ∧
  ((2 * length l + 2 ≤ n)%nat → (n ≤ m)%nat → read_members m d l = read_members n d l) ∧
  ((2 * length l + 2 ≤ n)%nat → (n ≤ m)%nat → read_elements m d l = read_elements n d l).
Proof.
  induction n as [|n IH]; intros [|m] d l; [split_and!; intros; lia..|].
  pose proof (length_skip_space l) as Hsk. split; [|split]; intros Hn Hm.
  - cbn [read_value]. destruct (skip_space l) as [|c l'] eqn:Hl; [done|]. simpl length in Hsk.
    destruct (IH m (d + 1) l') as (_ & Hmem & Hel). by rewrite Hmem, Hel by lia.
  - cbn [read_members]. destruct (skip_space l) as [|c l'] eqn:Hl; [done|]. simpl length in Hsk. destruct (negb (is_code 34 c)); [done|].
    pose proof (read_string_shrinks (length l') l') as Hs. destruct (read_string _ l') as [[k r]|]; [|done]. simpl in Hs.
    pose proof (length_skip_space r) as Hr. destruct (skip_space r) as [|e r1]; [done|]. destruct (negb (is_code 58 e)); [done|].
    simpl in Hr. rewrite (proj1 (IH m d r1)) by lia. destruct (readers_shrink n d r1) as (Hv & _).
    destruct (read_value n d r1) as [[v r2]|]; [|done]. simpl in Hv.
    pose proof (length_skip_space r2) as Hr2. destruct (skip_space r2) as [|f r3]; [done|]. simpl in Hr2.
    by rewrite (proj1 (proj2 (IH m d r3))) by lia.
  - cbn [read_elements]. rewrite (proj1 (IH m d l)) by lia. destruct (readers_shrink n d l) as (Hv & _).
    destruct (read_value n d l) as [[v r]|]; [|done]. simpl in Hv.
    pose proof (length_skip_space r) as Hr. destruct (skip_space r) as [|e r1]; [done|]. simpl in Hr.
    by rewrite (proj2 (proj2 (IH m d r1))) by lia.
Qed.

(** ** Integers *)
Lemma pretty_char_digit x : (x < 10)%N → is_digit (pretty_N_char x) = true ∧ code (pretty_N_char x) - 48 = Z.of_N x.
Proof.
  intros Hx. assert (x = 0 ∨ x = 1 ∨ x = 2 ∨ x = 3 ∨ x = 4 ∨ x = 5 ∨ x = 6 ∨ x = 7 ∨ x = 8 ∨ x = 9)%N as Hc by lia.
  by repeat destruct Hc as [->|Hc]; try subst x.
Qed.
Lemma pretty_N_go_value x s : digits_value 0 (bytes_of (pretty_N_go x s)) = digits_value (Z.of_N x) (bytes_of s).
Proof.
  revert s. induction (N.lt_wf_0 x) as [x _ IH]; intros s. destruct (decide (x = 0)%N) as [->|?]; [by rewrite pretty_N_go_0|].
  rewrite pretty_N_go_step by lia. rewrite IH by (apply N.div_lt; lia).
  destruct (pretty_char_digit (x mod 10)) as [Hd Hc]; [apply N.mod_lt; lia|]. simpl. rewrite Hd. f_equal.
  rewrite Hc. pose proof (N.div_mod x 10). lia.
Qed.
Lemma pretty_N_go_lead x s : (0 < x)%N → ∃ c k, bytes_of (pretty_N_go x s) = c :: k ∧ is_digit c = true ∧ is_code 48 c = false.
Proof.
  revert s. induction (N.lt_wf_0 x) as [x _ IH]; intros s Hx. rewrite pretty_N_go_step by lia.
  destruct (decide (x < 10)%N) as [Hs|Hs].
  - rewrite (N.div_small x 10), (N.mod_small x 10), pretty_N_go_0 by done. exists (pretty_N_char x), (bytes_of s).
    destruct (pretty_char_digit x Hs) as [Hd Hc]. do 2 (split; [done|]). apply Z.eqb_neq. lia.
  - apply IH; [apply N.div_lt; lia|]. apply N.div_str_pos. lia.
Qed.
Lemma Itoa_value z : 0 < z → digits_value 0 (bytes_of (Itoa z)) = Some z.
Proof. intros Hz. destruct z as [|p|p]; try lia. change (Itoa (Z.pos p)) with (pretty_N_go (N.pos p) ""). by rewrite pretty_N_go_value. Qed.
Lemma Itoa_lead z : 0 < z → ∃ c k, bytes_of (Itoa z) = c :: k ∧ is_code 48 c = false ∧ Forall (λ c, is_digit c = true) (c :: k).
Proof.
  intros Hz. destruct z as [|p|p]; try lia. change (Itoa (Z.pos p)) with (pretty_N_go (N.pos p) "").
  destruct (pretty_N_go_lead (N.pos p) "" ltac:(lia)) as (c & k & Hk & Hd & Hc). exists c, k. split; [done|]. split; [done|].
  rewrite <- Hk. apply pretty_N_go_digits. constructor.
Qed.

(** What may follow a value. *)
Definition ends (l : bytes) : Prop :=
  match l with [] => True | c :: _ => is_digit c = false ∧ is_code 46 c = false ∧ is_code 101 c = false ∧ is_code 69 c = false end.
Lemma read_digits_app d rest : Forall (λ c, is_digit c = true) d → ends rest → read_digits (d ++ rest) = (d, rest).
Proof.
  intros Hd Hr. induction Hd as [|c d Hc _ IH]; simpl; [|by rewrite Hc, IH].
  destruct rest as [|c r]; [done|]. destruct Hr as (Hr & _). simpl. by rewrite Hr.
Qed.
Lemma read_number_int z rest : 0 < z → ends rest → read_number (json_int z ++ rest) = Some (json_int z, rest).
Proof.
  intros Hz Hr. destruct (Itoa_lead z Hz) as (c & k & Hk & H0 & Hall). unfold json_int. rewrite Hk. unfold read_number.
  assert (is_code 45 c = false) as H45.
  { inversion Hall as [|? ? Hc _]; subst. unfold is_digit, is_code in *. apply andb_true_iff in Hc as [Hc%Z.leb_le _]. apply Z.eqb_neq. lia. }
  cbn [app]. rewrite H45. unfold read_int_part. rewrite H0. unfold read_digits1.
  change (c :: k ++ rest) with ((c :: k) ++ rest). rewrite (read_digits_app (c :: k) rest Hall Hr).
  assert (read_fraction rest = Some ([], rest)) as ->.
  { destruct rest as [|e r]; [done|]. destruct Hr as (_ & He & _). simpl. by rewrite He. }
  assert (read_exponent rest = Some ([], rest)) as ->.
  { destruct rest as [|e r]; [done|]. destruct Hr as (_ & _ & He1 & He2). simpl. by rewrite He1, He2. }
  by rewrite !app_nil_r.
Qed.

(** ** Values and structs *)
Inductive written : json → bytes → Prop :=
  | written_string s : utf8 s → written (JString s) (json_string s)
  | written_int z : 0 < z → written (JNumber (json_int z)) (json_int z).

Lemma digit_byte c : is_digit c = true → is_space c = false ∧ is_code 34 c = false ∧ is_code 123 c = false ∧ is_code 91 c = false ∧
  (∀ r, read_atom (c :: r) = match read_number (c :: r) with Some (t, r) => Some (JNumber t, r) | None => None end).
Proof.
  unfold is_digit, is_space, is_code. intros [H1%Z.leb_le H2%Z.leb_le]%andb_true_iff.
  assert (∀ n, n < 48 ∨ 57 < n → (code c =? n) = false) as Hne by (intros n Hn; apply Z.eqb_neq; lia).
  rewrite !Hne by lia. do 4 (split; [done|]). intros r. unfold read_atom.
  assert (∀ d p, code d < 48 ∨ 57 < code d → strip_prefix (d :: p) (c :: r) = None) as Hs.
  { intros d p Hd. simpl. destruct (Ascii.eqb_spec d c) as [->|]; [lia|done]. }
  change (bytes_of "true") with ("t"%char :: bytes_of "rue"). change (bytes_of "false") with ("f"%char :: bytes_of "alse").
  change (bytes_of "null") with ("n"%char :: bytes_of "ull"). by rewrite !Hs by (right; reflexivity).
Qed.

Lemma read_written v t n d rest : written v t → ends rest → (2 * length (t ++ rest) + 1 ≤ n)%nat →
  read_value n d (t ++ rest) = Some (v, rest).
Proof.
  intros Hw Hr Hn. destruct n as [|n]; [lia|]. destruct Hw as [s Hs|z Hz].
  - unfold json_string. cbn [app read_value]. change (skip_space (dquote :: ?l)) with (dquote :: l). cbv iota beta.
    change (is_code 34 dquote) with true. cbv iota. rewrite <- app_assoc. cbn [app]. rewrite read_json_string; [done|done|].
    rewrite length_app. simpl. lia.
  - destruct (Itoa_lead z Hz) as (c & k & Hk & _ & Hall). unfold json_int in *. rewrite Hk. cbn [app read_value].
    inversion Hall as [|? ? Hc _]; subst. destruct (digit_byte c Hc) as (Hsp & H34 & H123 & H91 & Hat).
    unfold skip_space. cbn [drop_while]. rewrite Hsp, H34, H123, H91. fold (read_atom (c :: k ++ rest)). rewrite Hat.
    change (c :: k ++ rest) with ((c :: k) ++ rest). rewrite <- Hk. pose proof (read_number_int z rest Hz Hr) as Hz'. unfold json_int in Hz'. by rewrite Hz'.
Qed.

Lemma skip_spaces p l : forallb is_space p = true → skip_space (p ++ l) = skip_space l.
Proof. induction p as [|c p IH]; simpl; [done|]. intros [Hc Hp]%andb_true_iff. unfold skip_space. simpl. rewrite Hc. by apply IH. Qed.
Lemma skip_space_stop c l : is_space c = false → skip_space (c :: l) = c :: l.
Proof. intros Hc. unfold skip_space. simpl. by rewrite Hc. Qed.

Lemma read_value_spaces p n d l : forallb is_space p = true → read_value n d (p ++ l) = read_value n d l.
Proof. intros Hp. destruct n as [|n]; [done|]. cbn [read_value]. by rewrite skip_spaces. Qed.
Lemma spaces_end p c l : forallb is_space p = true → ends (c :: l) → ends (p ++ c :: l).
Proof.
  destruct p as [|e p]; [done|]. intros [He _]%andb_true_iff _. simpl.
  pose proof (byte_forall (λ c, implb (is_space c) (negb (is_digit c || is_code 46 c || is_code 101 c || is_code 69 c))) eq_refl e) as H.
  cbv beta in H. rewrite He in H. simpl in H. rewrite negb_true_iff, !orb_false_iff in H. tauto.
Qed.

Lemma read_members_written before between after fs vs rest n d :
  forallb is_space before = true → (∃ p, between = bytes_of ":" ++ p ∧ forallb is_space p = true) →
  (∃ p, after = p ++ bytes_of "}" ∧ forallb is_space p = true) → fs ≠ [] →
  Forall2 (λ f v, utf8 (bytes_of (fst f)) ∧ written (snd v) (snd f) ∧ fst v = bytes_of (fst f)) fs vs →
  (2 * length (members_with before between after fs ++ rest) + 2 ≤ n)%nat →
  read_members n d (members_with before between after fs ++ rest) = Some (vs, rest).
Proof.
  intros Hb (bp & -> & Hbp) (ap & -> & Hap) Hne Hall. revert n Hne.
  induction Hall as [|[k t] [k' v] fs vs (Hk & Hv & Hkk) Hall IH]; intros n Hne Hn; [done|]. simpl in Hk, Hv, Hkk. subst k'.
  destruct n as [|n]; [lia|].
  set (tail := match fs with [] => ap ++ bytes_of "}" | _ => bytes_of "," ++ members_with before (bytes_of ":" ++ bp) (ap ++ bytes_of "}") fs end).
  assert (members_with before (bytes_of ":" ++ bp) (ap ++ bytes_of "}") ((k, t) :: fs) =
    before ++ json_string (bytes_of k) ++ (bytes_of ":" ++ bp) ++ t ++ tail) as Heq.
  { unfold tail. by destruct fs as [|f fs]; simpl; rewrite <- ?app_assoc. }
  rewrite Heq in *. rewrite <- !app_assoc in *. cbn [read_members]. rewrite skip_spaces by done.
  unfold json_string in *. cbn [app] in *. rewrite (skip_space_stop dquote) by done. cbv iota beta.
  change (negb (is_code 34 dquote)) with false. cbv iota. rewrite <- !app_assoc in *. cbn [app] in *.
  rewrite !length_app in Hn. simpl length in Hn. rewrite !length_app in Hn. simpl length in Hn. rewrite !length_app in Hn.
  rewrite read_json_string; [|done|rewrite length_app; simpl; lia].
  change (bytes_of ":" ++ ?l) with (":"%char :: l). rewrite (skip_space_stop ":"%char) by done. cbv iota beta.
  change (negb (is_code 58 ":"%char)) with false. cbv iota.

  rewrite read_value_spaces, (read_written v t) by (done || (unfold tail; destruct fs; [rewrite <- app_assoc; by apply spaces_end|done])
    || (rewrite !length_app; lia)).
  unfold tail in *. destruct fs as [|f fs].
  - inversion Hall; subst. rewrite <- app_assoc, skip_spaces by done. done.
  - change (bytes_of "," ++ ?l) with (","%char :: l). cbn [app]. rewrite (skip_space_stop ","%char) by done. cbv iota beta.
    change (is_code 44 ","%char) with true. cbv iota. rewrite IH; [done|done|].
    rewrite !length_app in Hn |- *. change (length (bytes_of ",")) with 1%nat in Hn. lia.
Qed.

Lemma members_with_head before between after k t fs : ∃ l, members_with before between after ((k, t) :: fs) = before ++ dquote :: l.
Proof. destruct fs as [|f fs]; simpl; unfold json_string; simpl; eauto. Qed.

Lemma unmarshal_written before between after fs vs :
  forallb is_space before = true → (∃ p, between = bytes_of ":" ++ p ∧ forallb is_space p = true) →
  (∃ p, after = p ++ bytes_of "}" ∧ forallb is_space p = true) → fs ≠ [] →
  Forall2 (λ f v, utf8 (bytes_of (fst f)) ∧ written (snd v) (snd f) ∧ fst v = bytes_of (fst f)) fs vs →
  unmarshal_struct (bytes_of "{" ++ members_with before between after fs) = Some vs.
Proof.
  intros Hb Hbet Haft Hne Hall. unfold unmarshal_struct, json_parse.
  set (l := members_with before between after fs). change (bytes_of "{" ++ l) with ("{"%char :: l).
  simpl length. replace (2 * S (length l) + 1)%nat with (S (2 * length l + 2)) by lia. cbn [read_value].
  rewrite (skip_space_stop "{"%char) by done. cbv iota beta. change (is_code 34 "{"%char) with false. change (is_code 123 "{"%char) with true.
  change (maxNestingDepth <=? 0) with false. cbv iota.
  assert (∃ r, skip_space l = dquote :: r) as (r & ->).
  { unfold l. destruct fs as [|[k t] fs]; [done|]. destruct (members_with_head before between after k t fs) as (r & ->).
    rewrite skip_spaces by done. exists r. by apply skip_space_stop. }
  change (is_code 125 dquote) with false. cbv iota.
  pose proof (read_members_written before between after fs vs [] (2 * length l + 2) (0 + 1) Hb Hbet Haft Hne Hall) as H.
  fold l in H. rewrite app_nil_r in H. by rewrite H by lia.
Qed.

(** A marshalled struct is read as its members, compact or indented. *)
Lemma unmarshal_marshal fs vs : fs ≠ [] →
  Forall2 (λ f v, utf8 (bytes_of (fst f)) ∧ written (snd v) (snd f) ∧ fst v = bytes_of (fst f)) fs vs →
  unmarshal_struct (marshal_struct fs) = Some vs.
Proof. intros Hne Hall. apply unmarshal_written; [done|by exists []|by exists []|done|done]. Qed.
Lemma unmarshal_marshal_indent fs vs : fs ≠ [] →
  Forall2 (λ f v, utf8 (bytes_of (fst f)) ∧ written (snd v) (snd f) ∧ fst v = bytes_of (fst f)) fs vs →
  unmarshal_struct (marshal_struct_indent fs) = Some vs.
Proof. intros Hne Hall. apply unmarshal_written; [done|by exists [" "%char]|by exists [newline]|done|done]. Qed.
