(* ===== verification/Sha256.v ===== *)
(** * Sha256: crypto/sha256 and crypto/hmac

    SHA-256 (FIPS 180-4) on lists of bytes, with 32-bit words as integers kept below
    2^32, executable.  The control plane uses it for the hash tail of route keys and
    route hosts and for the lookup hash of an agent credential.

    Webhook signatures.  Go's [crypto/hmac] over SHA-256 (RFC 2104), [hex.DecodeString], and
    [VerifyWebhookSignature] of [internal/platform/github/app.go].  A signature is
    accepted exactly when it is the text of the digest of the body under a secret that is
    not empty. *)
From S2P Require Import Prelude.
From S2P Require Import GoStrings.

Definition w32 (x : Z) : Z := Z.land x 4294967295.
Definition rotr (n x : Z) : Z := Z.lor (Z.shiftr x n) (w32 (Z.shiftl x (32 - n))).
Definition ch (x y z : Z) : Z := Z.lxor (Z.land x y) (Z.land (Z.lxor x 4294967295) z).
Definition maj (x y z : Z) : Z := Z.lxor (Z.lxor (Z.land x y) (Z.land x z)) (Z.land y z).
Definition Sigma0 (x : Z) : Z := Z.lxor (Z.lxor (rotr 2 x) (rotr 13 x)) (rotr 22 x).
Definition Sigma1 (x : Z) : Z := Z.lxor (Z.lxor (rotr 6 x) (rotr 11 x)) (rotr 25 x).
Definition sigma0 (x : Z) : Z := Z.lxor (Z.lxor (rotr 7 x) (rotr 18 x)) (Z.shiftr x 3).
Definition sigma1 (x : Z) : Z := Z.lxor (Z.lxor (rotr 17 x) (rotr 19 x)) (Z.shiftr x 10).

Definition K256 : list Z :=
  [
    1116352408; 1899447441; 3049323471; 3921009573; 961987163; 1508970993; 2453635748; 2870763221;
    3624381080; 310598401; 607225278; 1426881987; 1925078388; 2162078206; 2614888103; 3248222580;
    3835390401; 4022224774; 264347078; 604807628; 770255983; 1249150122; 1555081692; 1996064986;
    2554220882; 2821834349; 2952996808; 3210313671; 3336571891; 3584528711; 113926993; 338241895;
    666307205; 773529912; 1294757372; 1396182291; 1695183700; 1986661051; 2177026350; 2456956037;
    2730485921; 2820302411; 3259730800; 3345764771; 3516065817; 3600352804; 4094571909; 275423344;
    430227734; 506948616; 659060556; 883997877; 958139571; 1322822218; 1537002063; 1747873779;
    1955562222; 2024104815; 2227730452; 2361852424; 2428436474; 2756734187; 3204031479; 3329325298].
Definition H256 : list Z :=
  [
    1779033703; 3144134277; 1013904242; 2773480762; 1359893119; 2600822924; 528734635; 1541459225].

(** Padding: 0x80, zeros up to 56 mod 64, the bit length as 8 big-endian bytes. *)
Definition be_bytes (n : nat) (x : Z) : list Z :=
  map (λ i, Z.land (Z.shiftr x (8 * (Z.of_nat n - 1 - Z.of_nat i))) 255) (seq 0 n).
Definition pad (msg : list Z) : list Z :=
  let len := Z.of_nat (length msg) in
  msg ++ [128] ++ replicate (Z.to_nat ((55 - len) mod 64)) 0 ++ be_bytes 8 (8 * len).

Definition be_word (a b c d : Z) : Z := ((a * 256 + b) * 256 + c) * 256 + d.
Fixpoint words (l : list Z) : list Z :=
  match l with
  | a :: b :: c :: d :: l' => be_word a b c d :: words l'
  | _ => []
  end.

(** The message schedule, most recent word first. *)
Fixpoint expand (n : nat) (ws : list Z) : list Z :=
  match n with
  | O => ws
  | S n' =>
      let w := w32 (sigma1 (nth 1 ws 0) + nth 6 ws 0 + sigma0 (nth 14 ws 0) + nth 15 ws 0) in
      expand n' (w :: ws)
  end.

Definition round (s : list Z) (kw : Z * Z) : list Z :=
  match s with
  | [a; b; c; d; e; f; g; h] =>
      let t1 := h + Sigma1 e + ch e f g + kw.1 + kw.2 in
      let t2 := Sigma0 a + maj a b c in
      [w32 (t1 + t2); a; b; c; w32 (d + t1); e; f; g]
  | _ => s
  end.

Definition compress (h : list Z) (block : list Z) : list Z :=
  let ws := rev (expand 48 (rev block)) in
  zip_with (λ x y, w32 (x + y)) h (foldl round h (zip K256 ws)).

Fixpoint blocks (fuel : nat) (h : list Z) (ws : list Z) : list Z :=
  match fuel, ws with
  | S n, _ :: _ => blocks n (compress h (take 16 ws)) (drop 16 ws)
  | _, _ => h
  end.

(** [sha256.Sum256] *)
Definition Sum256 (msg : list Z) : list Z :=
  let ws := words (pad msg) in
  concat (map (be_bytes 4) (blocks (length ws) H256 ws)).

Definition sum_string (s : string) : list Z := Sum256 (map code (bytes_of s)).

(** [hex.EncodeToString] *)
Definition hex_digit (n : Z) : ascii :=
  if n <? 10 then chr (Z.to_N (48 + n)) else chr (Z.to_N (87 + n)).
Definition hex_byte (b : Z) : bytes := [hex_digit (Z.shiftr b 4); hex_digit (Z.land b 15)].
Definition hex_encode (l : list Z) : string := str_of (concat (map hex_byte l)).

Example sha256_abc : hex_encode (sum_string "abc") =
  "ba7816bf8f01cfea414140de5dae2223b00361a396177a9cb410ff61f20015ad".
Proof. vm_compute. reflexivity. Qed.
Example sha256_empty : hex_encode (sum_string "") =
  "e3b0c44298fc1c149afbf4c8996fb92427ae41e4649b934ca495991b7852b855".
Proof. vm_compute. reflexivity. Qed.
Example sha256_two_blocks :
  hex_encode (sum_string "abcdbcdecdefdefgefghfghighijhijkijkljklmklmnlmnomnopnopq") =
  "248d6a61d20638b8e5c026930c3e6039a33ce45964ff2167f6ecedd419db06c1".
Proof. vm_compute. reflexivity. Qed.

(** ** Shape of the digest *)
Definition is_hex (c : ascii) : bool :=
  is_digit c || ((97 <=? code c) && (code c <=? 102)).

Lemma hex_digit_is_hex n : 0 ≤ n < 16 → is_hex (hex_digit n) = true.
Proof.
  intros H.
  assert (Hall : forallb (λ k, is_hex (hex_digit (Z.of_nat k))) (seq 0 16) = true)
    by (vm_compute; reflexivity).
  rewrite forallb_forall in Hall. specialize (Hall (Z.to_nat n)).
  rewrite Z2Nat.id in Hall by lia. apply Hall, in_seq. lia.
Qed.

Lemma be_bytes_range n x : Forall (λ b, 0 ≤ b < 256) (be_bytes n x).
Proof.
  unfold be_bytes. apply Forall_fmap, Forall_true. intros i; simpl.
  change 255 with (Z.ones 8). rewrite Z.land_ones by lia. apply Z.mod_pos_bound. lia.
Qed.
Lemma length_be_bytes n x : length (be_bytes n x) = n.
Proof. unfold be_bytes. by rewrite length_map, length_seq. Qed.

Lemma length_round s kw : length (round s kw) = length s.
Proof. unfold round. repeat case_match; done. Qed.
Lemma length_foldl_round l s : length (foldl round s l) = length s.
Proof. revert s; induction l as [|kw l IH]; intros s; simpl; [done|]. by rewrite IH, length_round. Qed.
Lemma length_compress h b : length (compress h b) = length h.
Proof. unfold compress. rewrite length_zip_with, length_foldl_round. lia. Qed.
Lemma length_blocks n h ws : length (blocks n h ws) = length h.
Proof.
  revert h ws; induction n as [|n IH]; intros h ws; simpl; [done|].
  destruct ws; [done|]. by rewrite IH, length_compress.
Qed.

Lemma length_concat_be n hs : length (concat (map (be_bytes n) hs)) = (n * length hs)%nat.
Proof.
  induction hs as [|h hs IH]; simpl; [lia|]. rewrite length_app, length_be_bytes, IH. lia.
Qed.

Lemma length_Sum256 msg : length (Sum256 msg) = 32%nat.
Proof. unfold Sum256. by rewrite length_concat_be, length_blocks. Qed.

Lemma Sum256_range msg : Forall (λ b, 0 ≤ b < 256) (Sum256 msg).
Proof.
  unfold Sum256. generalize (blocks (length (words (pad msg))) H256 (words (pad msg))).
  intros hs. induction hs as [|h hs IH]; cbn [map concat]; [constructor|].
  apply Forall_app; split; [apply be_bytes_range | done].
Qed.

Lemma hex_encode_hex l :
  Forall (λ b, 0 ≤ b < 256) l → Forall (λ c, is_hex c = true) (bytes_of (hex_encode l)).
Proof.
  unfold hex_encode. rewrite bytes_of_str_of.
  induction 1 as [|b l Hb _ IH]; simpl; [constructor|].
  assert (Z.shiftr b 4 = b / 16) as -> by (rewrite Z.shiftr_div_pow2 by lia; reflexivity).
  assert (Z.land b 15 = b mod 16) as ->
    by (change 15 with (Z.ones 4); by rewrite Z.land_ones by lia).
  constructor.
  { apply hex_digit_is_hex. split; [apply Z.div_pos; lia | apply Z.div_lt_upper_bound; lia]. }
  constructor; [apply hex_digit_is_hex, Z.mod_pos_bound; lia | done].
Qed.

Lemma length_hex_encode l : String.length (hex_encode l) = (2 * length l)%nat.
Proof.
  unfold hex_encode. rewrite length_str_of.
  induction l as [|b l IH]; simpl in *; [done|]. rewrite IH. lia.
Qed.

(** The digest of a string in hex: 64 lower-case hex digits. *)
Definition hex_sum (s : string) : string := hex_encode (sum_string s).

Lemma length_hex_sum s : String.length (hex_sum s) = 64%nat.
Proof. unfold hex_sum, sum_string. by rewrite length_hex_encode, length_Sum256. Qed.
Lemma hex_sum_hex s : Forall (λ c, is_hex c = true) (bytes_of (hex_sum s)).
Proof. apply hex_encode_hex, Sum256_range. Qed.

(** The key filled up to the block size of 64 bytes; a longer key is hashed first. *)
Definition hmac_key (key : list Z) : list Z :=
  let k := if (64 <? length key)%nat then Sum256 key else key in
  k ++ replicate (64 - length k) 0.
Definition hmac_sha256 (key msg : list Z) : list Z :=
  let k := hmac_key key in
  Sum256 (map (Z.lxor 92) k ++ Sum256 (map (Z.lxor 54) k ++ msg)).

#[global] Arguments hmac_sha256 : simpl never.

(** [hex.DecodeString]: pairs of digits of either case. *)
Fixpoint hex_decode (l : bytes) : option (list Z) :=
  match l with
  | [] => Some []
  | [_] => None
  | a :: b :: l' =>
      match hex_value a, hex_value b, hex_decode l' with
      | Some x, Some y, Some r => Some (16 * x + y :: r)
      | _, _, _ => None
      end
  end.

Definition signature_prefix : string := "sha256=".

(** [VerifyWebhookSignature] *)
Definition VerifyWebhookSignature (secret : string) (body : bytes) (signatureHeader : string) : bool :=
  if String.eqb secret "" then false
  else if negb (HasPrefix signatureHeader signature_prefix) then false
  else match hex_decode (bytes_of (TrimPrefix signatureHeader signature_prefix)) with
       | None => false
       | Some want => bool_decide (hmac_sha256 (map code (bytes_of secret)) (map code body) = want)
       end.

(** What the sender of a delivery puts in the header. *)
Definition signature_of (secret : string) (body : bytes) : string :=
  signature_prefix +:+ hex_encode (hmac_sha256 (map code (bytes_of secret)) (map code body)).

(** RFC 4231, test cases 1, 2 and 6. *)
Example hmac_rfc4231_1 :
  hex_encode (hmac_sha256 (replicate 20 11) (map code (bytes_of "Hi There"))) =
  "b0344c61d8db38535ca8afceaf0bf12b881dc200c9833da726e9376c2e32cff7".
Proof. vm_compute. reflexivity. Qed.
Example hmac_rfc4231_2 :
  hex_encode (hmac_sha256 (map code (bytes_of "Jefe")) (map code (bytes_of "what do ya want for nothing?"))) =
  "5bdcc146bf60754e6a042426089575c75a003f089d2739839dec58b964ec3843".
Proof. vm_compute. reflexivity. Qed.
Example hmac_rfc4231_6 :
  hex_encode (hmac_sha256 (replicate 131 170)
    (map code (bytes_of "Test Using Larger Than Block-Size Key - Hash Key First"))) =
  "60e431591ee0b67f0d8a26aacbf5b77f8e0bc6213728c5140546040f0ee37f54".
Proof. vm_compute. reflexivity. Qed.

(** ** Hexadecimal text *)
Lemma hex_digit_value n : 0 ≤ n < 16 → hex_value (hex_digit n) = Some n.
Proof.
  intros H.
  assert (Hall : forallb (λ k, bool_decide (hex_value (hex_digit (Z.of_nat k)) = Some (Z.of_nat k))) (seq 0 16) = true)
    by (vm_compute; reflexivity).
  rewrite forallb_forall in Hall. specialize (Hall (Z.to_nat n)).
  rewrite Z2Nat.id in Hall by lia. eapply bool_decide_eq_true, Hall, in_seq. lia.
Qed.

Lemma hex_decode_encode l : Forall (λ b, 0 ≤ b < 256) l → hex_decode (bytes_of (hex_encode l)) = Some l.
Proof.
  unfold hex_encode. rewrite bytes_of_str_of.
  induction 1 as [|b l Hb _ IH]; [done|].
  cbn [map concat hex_byte app hex_decode].
  rewrite Z.shiftr_div_pow2 by lia. change 15 with (Z.ones 4). rewrite Z.land_ones by lia.
  rewrite !hex_digit_value by (change (2 ^ 4) with 16; split; [apply Z.div_pos||apply Z.mod_pos_bound; lia|];
    (apply Z.div_lt_upper_bound||apply Z.mod_pos_bound); lia).
  rewrite IH. do 2 f_equal. change (2 ^ 4) with 16. rewrite (Z.div_mod b 16) at 3 by lia. lia.
Qed.

(** ** The check *)
Lemma HasPrefix_split s p : HasPrefix s p = true → s = p +:+ TrimPrefix s p.
Proof.
  unfold HasPrefix, TrimPrefix. destruct (strip_prefix _ _) as [r|] eqn:Hs; [|done].
  intros _. apply strip_prefix_spec in Hs. apply (inj bytes_of). by rewrite bytes_of_app, bytes_of_str_of.
Qed.
Lemma TrimPrefix_append p s : TrimPrefix (p +:+ s) p = s.
Proof.
  unfold TrimPrefix. assert (strip_prefix (bytes_of p) (bytes_of (p +:+ s)) = Some (bytes_of s)) as ->
    by (apply strip_prefix_spec, bytes_of_app).
  apply str_of_bytes_of.
Qed.
Lemma HasPrefix_append p s : HasPrefix (p +:+ s) p = true.
Proof.
  unfold HasPrefix. assert (strip_prefix (bytes_of p) (bytes_of (p +:+ s)) = Some (bytes_of s)) as ->
    by (apply strip_prefix_spec, bytes_of_app).
  done.
Qed.

(** A header is good for a body under a secret. *)
Definition signed_by (secret : string) (body : bytes) (header : string) : Prop :=
  secret ≠ "" ∧ ∃ t, header = signature_prefix +:+ t ∧
  hex_decode (bytes_of t) = Some (hmac_sha256 (map code (bytes_of secret)) (map code body)).

Lemma verify_signed secret body header :
  VerifyWebhookSignature secret body header = true ↔ signed_by secret body header.
Proof.
  unfold VerifyWebhookSignature, signed_by. destruct (String.eqb_spec secret "") as [->|Hs]; [naive_solver|].
  destruct (HasPrefix header signature_prefix) eqn:Hp; simpl.
  - apply HasPrefix_split in Hp as Hh. split.
    + destruct (hex_decode _) as [want|] eqn:Hd; [|done]. intros Hb. apply bool_decide_eq_true in Hb.
      split; [done|]. exists (TrimPrefix header signature_prefix). split; [done|]. by rewrite Hd, Hb.
    + intros (_ & t & -> & Ht). rewrite TrimPrefix_append, Ht. by apply bool_decide_eq_true.
  - split; [done|]. intros (_ & t & -> & _). by rewrite HasPrefix_append in Hp.
Qed.

(** The sender's header is accepted. *)
Lemma signature_accepted secret body : secret ≠ "" → signed_by secret body (signature_of secret body).
Proof.
  intros H. split; [done|]. eexists. split; [done|]. apply hex_decode_encode, Sum256_range.
Qed.
