(* ===== verification/Problem.v ===== *)
(** * Problem: the application error vocabulary

    [internal/platform/problem] plus the other error values a handler can meet: a
    missing row ([pgx.ErrNoRows]), a failed statement, a violated constraint, an error
    of an outside port.  A message is kept as its format and arguments, unformatted:
    no code inspects the text. *)
From S2P Require Import Prelude.

Inductive Kind := KindInternal | KindNotFound | KindInvalidInput | KindPermissionDenied | KindAlreadyExists.

#[global] Instance Kind_eq_dec : EqDecision Kind.
Proof. solve_decision. Defined.

(** A [fmt.Sprintf] argument. *)
Inductive fmt_arg := AStr (s : string) | AInt (n : Z).

Inductive go_error :=
  | Problem (k : Kind) (format : string) (args : list fmt_arg) (cause : option go_error)
  | ErrNoRows                               (* pgx.ErrNoRows *)
  | ErrDB (at_tick : nat)                   (* a statement, begin or commit failed *)
  | ErrConstraint (constraint : string)     (* a constraint of the schema rejected a write *)
  | ErrUnique (constraint : string)         (* the same, SQLSTATE 23505: a unique violation *)
  | Errorf (format : string) (args : list fmt_arg) (wrapped : option go_error)  (* fmt.Errorf *)
  | ErrOther (what : string).               (* any other error value *)

Definition NotFound (format : string) (args : list fmt_arg) : go_error :=
  Problem KindNotFound format args None.
Definition InvalidInput (format : string) (args : list fmt_arg) : go_error :=
  Problem KindInvalidInput format args None.
Definition AlreadyExists (format : string) (args : list fmt_arg) : go_error :=
  Problem KindAlreadyExists format args None.
Definition PermissionDenied (format : string) (args : list fmt_arg) : go_error :=
  Problem KindPermissionDenied format args None.
Definition Internalf (cause : go_error) (format : string) (args : list fmt_arg) : go_error :=
  Problem KindInternal format args (Some cause).

(** [errors.As(err, &pe)] for [pe *problem.Error]: the error itself, or the one a
    [fmt.Errorf] wraps. *)
Fixpoint as_problem (e : go_error) : option (Kind * string * list fmt_arg) :=
  match e with
  | Problem k f a _ => Some (k, f, a)
  | Errorf _ _ (Some e') => as_problem e'
  | _ => None
  end.

(** [mapErr] of the modules: a domain error passes, anything else becomes internal. *)
Definition mapErr (e : go_error) (op : string) : go_error :=
  match as_problem e with Some _ => e | None => Internalf e "%s" [AStr op] end.

(** [isUniqueViolation] of the stores. *)
Fixpoint isUniqueViolation (e : go_error) : bool :=
  match e with
  | ErrUnique _ => true
  | Errorf _ _ (Some e') => isUniqueViolation e'
  | Problem _ _ _ (Some e') => isUniqueViolation e'
  | _ => false
  end.

(** ConnectRPC codes and the error a client receives. *)
Inductive connect_code := CodeNotFound | CodeInvalidArgument | CodeAlreadyExists | CodePermissionDenied | CodeInternal.

Definition ToConnect (e : go_error) : connect_code * (string * list fmt_arg) :=
  match as_problem e with
  | Some (KindNotFound, f, a) => (CodeNotFound, (f, a))
  | Some (KindInvalidInput, f, a) => (CodeInvalidArgument, (f, a))
  | Some (KindAlreadyExists, f, a) => (CodeAlreadyExists, (f, a))
  | Some (KindPermissionDenied, f, a) => (CodePermissionDenied, (f, a))
  | _ => (CodeInternal, ("internal error", []))
  end.

Lemma mapErr_problem k f a c op : mapErr (Problem k f a c) op = Problem k f a c.
Proof. done. Qed.
