(* ===== verification/Schema.v ===== *)
(** * Schema: the PostgreSQL tables

    Row types are the sqlc structs of [internal/platform/database/db/models.go]; a
    timestamp is an integer, a nullable column an option.  The database state [DB] is
    one list of rows per table, in insertion order.  The constraints of the schema
    (primary keys, foreign keys, CHECKs of the migrations) are boolean functions that
    the insert statements of the stores evaluate. *)
From S2P Require Import Prelude.
From S2P Require Import Problem.

Record db_User := mk_us {
  us_ID : string;
  us_Email : string;
  us_CreatedAt : Z;
  us_PasswordHash : option string;
  us_EmailVerified : bool;
}.

Record db_Session := mk_ss {
  ss_ID : string;
  ss_UserID : string;
  ss_TokenHash : list Z;
  ss_UserAgent : string;
  ss_CreatedAt : Z;
  ss_LastUsedAt : Z;
  ss_ExpiresAt : Z;
  ss_RevokedAt : option Z;
}.

Record db_ApiToken := mk_apt {
  apt_ID : string;
  apt_UserID : string;
  apt_Name : string;
  apt_TokenHash : list Z;
  apt_TokenPrefix : string;
  apt_CreatedAt : Z;
  apt_LastUsedAt : option Z;
  apt_ExpiresAt : option Z;
  apt_RevokedAt : option Z;
}.

Record db_UserToken := mk_ut {
  ut_ID : string;
  ut_UserID : string;
  ut_Purpose : string;
  ut_TokenHash : list Z;
  ut_CreatedAt : Z;
  ut_ExpiresAt : Z;
  ut_ConsumedAt : option Z;
}.

Record db_Workspace := mk_ws {
  ws_ID : string;
  ws_Name : string;
  ws_Slug : string;
  ws_CreatedAt : Z;
}.

Record db_WorkspaceMember := mk_wm {
  wm_WorkspaceID : string;
  wm_UserID : string;
  wm_Role : string;
  wm_CreatedAt : Z;
}.

Record db_Environment := mk_en {
  en_ID : string;
  en_ProjectID : string;
  en_Name : string;
  en_Slug : string;
  en_Type : string;
  en_CreatedAt : Z;
}.

Record db_Project := mk_pj {
  pj_ID : string;
  pj_WorkspaceID : string;
  pj_Name : string;
  pj_Slug : string;
  pj_CreatedAt : Z;
}.

Record db_Service := mk_sv {
  sv_ID : string;
  sv_EnvironmentID : string;
  sv_ProjectID : string;
  sv_WorkspaceID : string;
  sv_Name : string;
  sv_Slug : string;
  sv_SourceKind : string;
  sv_ImageRef : string;
  sv_TemplateID : string;
  sv_ConnectionID : option string;
  sv_Provider : string;
  sv_Owner : string;
  sv_Repo : string;
  sv_FullName : string;
  sv_Branch : string;
  sv_DefaultBranch : string;
  sv_IsPrivate : bool;
  sv_HtmlUrl : string;
  sv_SourceAccess : string;
  sv_ContainerPort : Z;
  sv_Visibility : string;
  sv_RouteUrl : string;
  sv_CreatedAt : Z;
  sv_UpdatedAt : Z;
}.

Record db_Server := mk_srv {
  srv_ID : string;
  srv_WorkspaceID : string;
  srv_Name : string;
  srv_Slug : string;
  srv_CreatedAt : Z;
  srv_HostKeyFingerprint : string;
}.

Record db_Agent := mk_ag {
  ag_ID : string;
  ag_ServerID : string;
  ag_WorkspaceID : string;
  ag_PublicKey : list Z;
  ag_CredentialHash : list Z;
  ag_AgentVersion : string;
  ag_LastSeenAt : option Z;
  ag_CreatedAt : Z;
  ag_DockerAvailable : option bool;
  ag_DockerVersion : string;
  ag_Os : string;
  ag_Arch : string;
  ag_CaddyAvailable : option bool;
  ag_CaddyRunning : bool;
  ag_CaddyVersion : string;
  ag_DiskTotalBytes : Z;
  ag_DiskFreeBytes : Z;
  ag_MemTotalBytes : Z;
  ag_MemAvailableBytes : Z;
  ag_CpuCount : Z;
}.

Record db_ConfigEntry := mk_ce {
  ce_ID : string;
  ce_Type : string;
  ce_Scope : string;
  ce_ServiceID : option string;
  ce_EnvironmentID : option string;
  ce_Key : string;
  ce_Value : option string;
  ce_Ciphertext : list Z;
  ce_CreatedAt : Z;
  ce_UpdatedAt : Z;
}.

Record db_Domain := mk_dm {
  dm_ID : string;
  dm_ServiceID : string;
  dm_EnvironmentID : string;
  dm_ProjectID : string;
  dm_WorkspaceID : string;
  dm_Hostname : string;
  dm_Status : string;
  dm_StatusMessage : string;
  dm_LastCheckedAt : option Z;
  dm_CreatedAt : Z;
  dm_UpdatedAt : Z;
}.

Record db_Deployment := mk_dp {
  dp_ID : string;
  dp_EnvironmentID : string;
  dp_ProjectID : string;
  dp_WorkspaceID : string;
  dp_ServerID : string;
  dp_ImageRef : string;
  dp_ContainerPort : Z;
  dp_HostPort : Z;
  dp_ContainerID : string;
  dp_Status : string;
  dp_Message : string;
  dp_CreatedAt : Z;
  dp_UpdatedAt : Z;
  dp_SourceKind : string;
  dp_SourceAccess : string;
  dp_CloneUrl : string;
  dp_GitRef : string;
  dp_CommitSha : string;
  dp_BuiltImageRef : string;
  dp_RouteUrl : string;
  dp_ServiceID : string;
  dp_RolledBackFrom : option string;
  dp_Kind : string;
  dp_RouteKey : string;
  dp_PrNumber : Z;
  dp_PrUrl : string;
  dp_PreviewAuthUser : string;
  dp_PreviewAuthHash : string;
}.

Record db_DeploymentEvent := mk_ev {
  ev_ID : string;
  ev_DeploymentID : string;
  ev_Seq : Z;
  ev_Kind : string;
  ev_Status : string;
  ev_Message : string;
  ev_CreatedAt : Z;
  ev_Stream : string;
}.

Record db_TeardownJob := mk_td {
  td_ID : string;
  td_DeploymentID : string;
  td_ServiceID : string;
  td_RouteKey : string;
  td_EnvironmentID : string;
  td_ProjectID : string;
  td_WorkspaceID : string;
  td_ServerID : string;
  td_Status : string;
  td_Message : string;
  td_Error : string;
  td_CreatedAt : Z;
  td_UpdatedAt : Z;
}.

Record db_Backup := mk_bk {
  bk_ID : string;
  bk_ServiceID : string;
  bk_EnvironmentID : string;
  bk_ProjectID : string;
  bk_WorkspaceID : string;
  bk_ServerID : string;
  bk_Destination : string;
  bk_ArtifactUri : string;
  bk_SizeBytes : Z;
  bk_Checksum : string;
  bk_Status : string;
  bk_Message : string;
  bk_Error : string;
  bk_CreatedAt : Z;
  bk_UpdatedAt : Z;
  bk_Label : string;
  bk_TriggerSource : string;
}.

Record db_RestoreJob := mk_rj {
  rj_ID : string;
  rj_BackupID : string;
  rj_ServiceID : string;
  rj_EnvironmentID : string;
  rj_ProjectID : string;
  rj_WorkspaceID : string;
  rj_ServerID : string;
  rj_ArtifactUri : string;
  rj_Status : string;
  rj_Message : string;
  rj_Error : string;
  rj_CreatedAt : Z;
  rj_UpdatedAt : Z;
}.

Record db_AuditEvent := mk_au {
  au_ID : string;
  au_WorkspaceID : option string;
  au_Actor : string;
  au_Action : string;
  au_TargetType : string;
  au_TargetID : string;
  au_CreatedAt : Z;
}.

Record db_SourceConnection := mk_sc {
  sc_ID : string;
  sc_WorkspaceID : string;
  sc_Provider : string;
  sc_AccountLogin : string;
  sc_AccountID : option Z;
  sc_AccessTokenCiphertext : list Z;
  sc_Scopes : string;
  sc_ConnectedBy : option string;
  sc_CreatedAt : Z;
  sc_UpdatedAt : Z;
  sc_InstallationID : option string;
  sc_Kind : string;
}.

Record db_AgentRegistrationToken := mk_rt {
  rt_ID : string;
  rt_ServerID : string;
  rt_WorkspaceID : string;
  rt_TokenHash : list Z;
  rt_CreatedBy : string;
  rt_CreatedAt : Z;
  rt_ExpiresAt : Z;
  rt_ConsumedAt : option Z;
}.

(** The singleton row: [singleton] is the primary key and always true. *)
Record db_GithubAppConfig := mk_ga {
  ga_Singleton : bool;
  ga_AppID : string;
  ga_AppSlug : string;
  ga_ClientID : string;
  ga_SealedPrivateKey : list Z;
  ga_SealedWebhookSecret : list Z;
  ga_SealedClientSecret : list Z;
  ga_CreatedBy : option string;
  ga_CreatedAt : Z;
  ga_UpdatedAt : Z;
}.

Record db_SshManagementKey := mk_smk {
  sk_ID : string;
  sk_ServerID : string;
  sk_Fingerprint : string;
  sk_PublicKey : string;
  sk_SealedPrivateKey : list Z;
  sk_RotationState : string;
  sk_LastUsedAt : option Z;
  sk_RotatedAt : option Z;
  sk_RevokedAt : option Z;
  sk_CreatedBy : option string;
  sk_CreatedAt : Z;
  sk_UpdatedAt : Z;
}.

Record db_ServerSetupRun := mk_ssr {
  sru_ID : string;
  sru_ServerID : string;
  sru_WorkspaceID : string;
  sru_Status : string;
  sru_FailureReason : string;
  sru_StartedBy : option string;
  sru_CreatedAt : Z;
  sru_UpdatedAt : Z;
  sru_FinishedAt : option Z;
}.

Record db_ServerSetupEvent := mk_sse {
  se_ID : string;
  se_SetupRunID : string;
  se_Seq : Z;
  se_Step : string;
  se_Kind : string;
  se_Status : string;
  se_Message : string;
  se_CreatedAt : Z;
}.

(** ** The database *)
Record DB := mk_DB {
  workspaces : list db_Workspace;
  workspace_members : list db_WorkspaceMember;
  projects : list db_Project;
  environments : list db_Environment;
  services : list db_Service;
  servers : list db_Server;
  agents : list db_Agent;
  config_entries : list db_ConfigEntry;
  domains : list db_Domain;
  deployments : list db_Deployment;
  deployment_events : list db_DeploymentEvent;
  teardown_jobs : list db_TeardownJob;
  backups : list db_Backup;
  restore_jobs : list db_RestoreJob;
  audit_events : list db_AuditEvent;
  users : list db_User;
  source_connections : list db_SourceConnection;
  registration_tokens : list db_AgentRegistrationToken;
  sessions : list db_Session;
  api_tokens : list db_ApiToken;
  user_tokens : list db_UserToken;
  github_app_config : list db_GithubAppConfig;
  ssh_management_keys : list db_SshManagementKey;
  server_setup_runs : list db_ServerSetupRun;
  server_setup_events : list db_ServerSetupEvent;
}.

Definition set_workspaces v d := mk_DB v (workspace_members d) (projects d) (environments d) (services d) (servers d) (agents d) (config_entries d) (domains d) (deployments d) (deployment_events d) (teardown_jobs d) (backups d) (restore_jobs d) (audit_events d) (users d) (source_connections d) (registration_tokens d) (sessions d) (api_tokens d) (user_tokens d) (github_app_config d) (ssh_management_keys d) (server_setup_runs d) (server_setup_events d).
Definition set_workspace_members v d := mk_DB (workspaces d) v (projects d) (environments d) (services d) (servers d) (agents d) (config_entries d) (domains d) (deployments d) (deployment_events d) (teardown_jobs d) (backups d) (restore_jobs d) (audit_events d) (users d) (source_connections d) (registration_tokens d) (sessions d) (api_tokens d) (user_tokens d) (github_app_config d) (ssh_management_keys d) (server_setup_runs d) (server_setup_events d).
Definition set_projects v d := mk_DB (workspaces d) (workspace_members d) v (environments d) (services d) (servers d) (agents d) (config_entries d) (domains d) (deployments d) (deployment_events d) (teardown_jobs d) (backups d) (restore_jobs d) (audit_events d) (users d) (source_connections d) (registration_tokens d) (sessions d) (api_tokens d) (user_tokens d) (github_app_config d) (ssh_management_keys d) (server_setup_runs d) (server_setup_events d).
Definition set_environments v d := mk_DB (workspaces d) (workspace_members d) (projects d) v (services d) (servers d) (agents d) (config_entries d) (domains d) (deployments d) (deployment_events d) (teardown_jobs d) (backups d) (restore_jobs d) (audit_events d) (users d) (source_connections d) (registration_tokens d) (sessions d) (api_tokens d) (user_tokens d) (github_app_config d) (ssh_management_keys d) (server_setup_runs d) (server_setup_events d).
Definition set_services v d := mk_DB (workspaces d) (workspace_members d) (projects d) (environments d) v (servers d) (agents d) (config_entries d) (domains d) (deployments d) (deployment_events d) (teardown_jobs d) (backups d) (restore_jobs d) (audit_events d) (users d) (source_connections d) (registration_tokens d) (sessions d) (api_tokens d) (user_tokens d) (github_app_config d) (ssh_management_keys d) (server_setup_runs d) (server_setup_events d).
Definition set_servers v d := mk_DB (workspaces d) (workspace_members d) (projects d) (environments d) (services d) v (agents d) (config_entries d) (domains d) (deployments d) (deployment_events d) (teardown_jobs d) (backups d) (restore_jobs d) (audit_events d) (users d) (source_connections d) (registration_tokens d) (sessions d) (api_tokens d) (user_tokens d) (github_app_config d) (ssh_management_keys d) (server_setup_runs d) (server_setup_events d).
Definition set_agents v d := mk_DB (workspaces d) (workspace_members d) (projects d) (environments d) (services d) (servers d) v (config_entries d) (domains d) (deployments d) (deployment_events d) (teardown_jobs d) (backups d) (restore_jobs d) (audit_events d) (users d) (source_connections d) (registration_tokens d) (sessions d) (api_tokens d) (user_tokens d) (github_app_config d) (ssh_management_keys d) (server_setup_runs d) (server_setup_events d).
Definition set_config_entries v d := mk_DB (workspaces d) (workspace_members d) (projects d) (environments d) (services d) (servers d) (agents d) v (domains d) (deployments d) (deployment_events d) (teardown_jobs d) (backups d) (restore_jobs d) (audit_events d) (users d) (source_connections d) (registration_tokens d) (sessions d) (api_tokens d) (user_tokens d) (github_app_config d) (ssh_management_keys d) (server_setup_runs d) (server_setup_events d).
Definition set_domains v d := mk_DB (workspaces d) (workspace_members d) (projects d) (environments d) (services d) (servers d) (agents d) (config_entries d) v (deployments d) (deployment_events d) (teardown_jobs d) (backups d) (restore_jobs d) (audit_events d) (users d) (source_connections d) (registration_tokens d) (sessions d) (api_tokens d) (user_tokens d) (github_app_config d) (ssh_management_keys d) (server_setup_runs d) (server_setup_events d).
Definition set_deployments v d := mk_DB (workspaces d) (workspace_members d) (projects d) (environments d) (services d) (servers d) (agents d) (config_entries d) (domains d) v (deployment_events d) (teardown_jobs d) (backups d) (restore_jobs d) (audit_events d) (users d) (source_connections d) (registration_tokens d) (sessions d) (api_tokens d) (user_tokens d) (github_app_config d) (ssh_management_keys d) (server_setup_runs d) (server_setup_events d).
Definition set_deployment_events v d := mk_DB (workspaces d) (workspace_members d) (projects d) (environments d) (services d) (servers d) (agents d) (config_entries d) (domains d) (deployments d) v (teardown_jobs d) (backups d) (restore_jobs d) (audit_events d) (users d) (source_connections d) (registration_tokens d) (sessions d) (api_tokens d) (user_tokens d) (github_app_config d) (ssh_management_keys d) (server_setup_runs d) (server_setup_events d).
Definition set_teardown_jobs v d := mk_DB (workspaces d) (workspace_members d) (projects d) (environments d) (services d) (servers d) (agents d) (config_entries d) (domains d) (deployments d) (deployment_events d) v (backups d) (restore_jobs d) (audit_events d) (users d) (source_connections d) (registration_tokens d) (sessions d) (api_tokens d) (user_tokens d) (github_app_config d) (ssh_management_keys d) (server_setup_runs d) (server_setup_events d).
Definition set_backups v d := mk_DB (workspaces d) (workspace_members d) (projects d) (environments d) (services d) (servers d) (agents d) (config_entries d) (domains d) (deployments d) (deployment_events d) (teardown_jobs d) v (restore_jobs d) (audit_events d) (users d) (source_connections d) (registration_tokens d) (sessions d) (api_tokens d) (user_tokens d) (github_app_config d) (ssh_management_keys d) (server_setup_runs d) (server_setup_events d).
Definition set_restore_jobs v d := mk_DB (workspaces d) (workspace_members d) (projects d) (environments d) (services d) (servers d) (agents d) (config_entries d) (domains d) (deployments d) (deployment_events d) (teardown_jobs d) (backups d) v (audit_events d) (users d) (source_connections d) (registration_tokens d) (sessions d) (api_tokens d) (user_tokens d) (github_app_config d) (ssh_management_keys d) (server_setup_runs d) (server_setup_events d).
Definition set_audit_events v d := mk_DB (workspaces d) (workspace_members d) (projects d) (environments d) (services d) (servers d) (agents d) (config_entries d) (domains d) (deployments d) (deployment_events d) (teardown_jobs d) (backups d) (restore_jobs d) v (users d) (source_connections d) (registration_tokens d) (sessions d) (api_tokens d) (user_tokens d) (github_app_config d) (ssh_management_keys d) (server_setup_runs d) (server_setup_events d).
Definition set_users v d := mk_DB (workspaces d) (workspace_members d) (projects d) (environments d) (services d) (servers d) (agents d) (config_entries d) (domains d) (deployments d) (deployment_events d) (teardown_jobs d) (backups d) (restore_jobs d) (audit_events d) v (source_connections d) (registration_tokens d) (sessions d) (api_tokens d) (user_tokens d) (github_app_config d) (ssh_management_keys d) (server_setup_runs d) (server_setup_events d).
Definition set_source_connections v d := mk_DB (workspaces d) (workspace_members d) (projects d) (environments d) (services d) (servers d) (agents d) (config_entries d) (domains d) (deployments d) (deployment_events d) (teardown_jobs d) (backups d) (restore_jobs d) (audit_events d) (users d) v (registration_tokens d) (sessions d) (api_tokens d) (user_tokens d) (github_app_config d) (ssh_management_keys d) (server_setup_runs d) (server_setup_events d).
Definition set_registration_tokens v d := mk_DB (workspaces d) (workspace_members d) (projects d) (environments d) (services d) (servers d) (agents d) (config_entries d) (domains d) (deployments d) (deployment_events d) (teardown_jobs d) (backups d) (restore_jobs d) (audit_events d) (users d) (source_connections d) v (sessions d) (api_tokens d) (user_tokens d) (github_app_config d) (ssh_management_keys d) (server_setup_runs d) (server_setup_events d).
Definition set_sessions v d := mk_DB (workspaces d) (workspace_members d) (projects d) (environments d) (services d) (servers d) (agents d) (config_entries d) (domains d) (deployments d) (deployment_events d) (teardown_jobs d) (backups d) (restore_jobs d) (audit_events d) (users d) (source_connections d) (registration_tokens d) v (api_tokens d) (user_tokens d) (github_app_config d) (ssh_management_keys d) (server_setup_runs d) (server_setup_events d).
Definition set_api_tokens v d := mk_DB (workspaces d) (workspace_members d) (projects d) (environments d) (services d) (servers d) (agents d) (config_entries d) (domains d) (deployments d) (deployment_events d) (teardown_jobs d) (backups d) (restore_jobs d) (audit_events d) (users d) (source_connections d) (registration_tokens d) (sessions d) v (user_tokens d) (github_app_config d) (ssh_management_keys d) (server_setup_runs d) (server_setup_events d).
Definition set_user_tokens v d := mk_DB (workspaces d) (workspace_members d) (projects d) (environments d) (services d) (servers d) (agents d) (config_entries d) (domains d) (deployments d) (deployment_events d) (teardown_jobs d) (backups d) (restore_jobs d) (audit_events d) (users d) (source_connections d) (registration_tokens d) (sessions d) (api_tokens d) v (github_app_config d) (ssh_management_keys d) (server_setup_runs d) (server_setup_events d).
Definition set_github_app_config v d := mk_DB (workspaces d) (workspace_members d) (projects d) (environments d) (services d) (servers d) (agents d) (config_entries d) (domains d) (deployments d) (deployment_events d) (teardown_jobs d) (backups d) (restore_jobs d) (audit_events d) (users d) (source_connections d) (registration_tokens d) (sessions d) (api_tokens d) (user_tokens d) v (ssh_management_keys d) (server_setup_runs d) (server_setup_events d).
Definition set_ssh_management_keys v d := mk_DB (workspaces d) (workspace_members d) (projects d) (environments d) (services d) (servers d) (agents d) (config_entries d) (domains d) (deployments d) (deployment_events d) (teardown_jobs d) (backups d) (restore_jobs d) (audit_events d) (users d) (source_connections d) (registration_tokens d) (sessions d) (api_tokens d) (user_tokens d) (github_app_config d) v (server_setup_runs d) (server_setup_events d).
Definition set_server_setup_runs v d := mk_DB (workspaces d) (workspace_members d) (projects d) (environments d) (services d) (servers d) (agents d) (config_entries d) (domains d) (deployments d) (deployment_events d) (teardown_jobs d) (backups d) (restore_jobs d) (audit_events d) (users d) (source_connections d) (registration_tokens d) (sessions d) (api_tokens d) (user_tokens d) (github_app_config d) (ssh_management_keys d) v (server_setup_events d).
Definition set_server_setup_events v d := mk_DB (workspaces d) (workspace_members d) (projects d) (environments d) (services d) (servers d) (agents d) (config_entries d) (domains d) (deployments d) (deployment_events d) (teardown_jobs d) (backups d) (restore_jobs d) (audit_events d) (users d) (source_connections d) (registration_tokens d) (sessions d) (api_tokens d) (user_tokens d) (github_app_config d) (ssh_management_keys d) (server_setup_runs d) v.

(** ** Constraints of the migrations *)
Definition in_list (l : list string) (s : string) : bool := existsb (String.eqb s) l.

Lemma in_list_true l s : in_list l s = true ↔ s ∈ l.
Proof.
  unfold in_list. rewrite existsb_exists. setoid_rewrite String.eqb_eq.
  rewrite list_elem_of_In. split; [intros (x & ? & ->); done | eauto].
Qed.

(** [deployments_status_check] (00029_teardown_jobs.sql) *)
Definition deployment_statuses : list string :=
  ["queued"; "assigned"; "cloning"; "building"; "pulling"; "starting"; "healthcheck";
   "routing"; "running"; "failed"; "superseded"; "torndown"].
Definition deployment_kinds : list string := ["production"; "preview"].
Definition teardown_statuses : list string :=
  ["queued"; "assigned"; "stopping"; "removing"; "succeeded"; "failed"].
Definition backup_statuses : list string :=
  ["queued"; "assigned"; "dumping"; "uploading"; "verifying"; "succeeded"; "failed"].
Definition restore_statuses : list string :=
  ["queued"; "assigned"; "restoring"; "verifying"; "succeeded"; "failed"].

(** The owning rows every job-like row references: environment, project, workspace,
    server and service. *)
Definition owner_fks (environment project workspace server service : string) (d : DB) : bool :=
  has_key en_ID environment (environments d) &&
  has_key pj_ID project (projects d) &&
  has_key ws_ID workspace (workspaces d) &&
  has_key srv_ID server (servers d) &&
  has_key sv_ID service (services d).

Definition deployment_constraints (r : db_Deployment) (d : DB) : bool :=
  negb (has_key dp_ID (dp_ID r) (deployments d)) &&
  owner_fks (dp_EnvironmentID r) (dp_ProjectID r) (dp_WorkspaceID r) (dp_ServerID r) (dp_ServiceID r) d &&
  match dp_RolledBackFrom r with None => true | Some i => has_key dp_ID i (deployments d) end &&
  in_list deployment_statuses (dp_Status r) &&
  in_list deployment_kinds (dp_Kind r) &&
  in_list ["image"; "git"] (dp_SourceKind r).

(** The streams a line of a deployment's log may be tagged with. *)
Definition event_streams : list string := [""; "build"; "runtime"].

Definition event_constraints (r : db_DeploymentEvent) (d : DB) : bool :=
  negb (has_key ev_ID (ev_ID r) (deployment_events d)) &&
  has_key dp_ID (ev_DeploymentID r) (deployments d) &&
  in_list ["status"; "log"] (ev_Kind r) &&
  in_list event_streams (ev_Stream r).

Definition teardown_constraints (r : db_TeardownJob) (d : DB) : bool :=
  negb (has_key td_ID (td_ID r) (teardown_jobs d)) &&
  has_key dp_ID (td_DeploymentID r) (deployments d) &&
  owner_fks (td_EnvironmentID r) (td_ProjectID r) (td_WorkspaceID r) (td_ServerID r) (td_ServiceID r) d &&
  in_list teardown_statuses (td_Status r).

Definition backup_constraints (r : db_Backup) (d : DB) : bool :=
  negb (has_key bk_ID (bk_ID r) (backups d)) &&
  owner_fks (bk_EnvironmentID r) (bk_ProjectID r) (bk_WorkspaceID r) (bk_ServerID r) (bk_ServiceID r) d &&
  in_list backup_statuses (bk_Status r) &&
  in_list ["manual"; "scheduled"] (bk_TriggerSource r).

Definition restore_constraints (r : db_RestoreJob) (d : DB) : bool :=
  negb (has_key rj_ID (rj_ID r) (restore_jobs d)) &&
  has_key bk_ID (rj_BackupID r) (backups d) &&
  owner_fks (rj_EnvironmentID r) (rj_ProjectID r) (rj_WorkspaceID r) (rj_ServerID r) (rj_ServiceID r) d &&
  in_list restore_statuses (rj_Status r).
