(* ===== verification/Platform.v ===== *)
(** * Platform: effects of a handler

    A handler of the control plane is a computation over a [World]: the database, a
    counter of the interactions with the outside so far, and the start time of the
    running transaction.  The environment [Env] decides every outcome the program does
    not: whether the n-th interaction fails, the time it happens at, the id the
    database generates, what the outside ports (uuid parser, bcrypt, sealed-box
    opener, GitHub, token minting) answer.  Theorems quantify over all environments,
    so they cover every failure schedule.

    [WithinTx] is [internal/platform/database/database.go]: it commits on success and
    restores the database on an error of the body, of begin or of commit.  A
    transaction is atomic with respect to other handlers; panics are not modelled.

    The GitHub client as the modules see it.  [internal/platform/github] speaks HTTP to api.github.com; here a client is a class of
    functions, one per call the modules make, indexed by the interaction.  Errors are
    the sentinels of the package, or any other error.

    Sealed JSON in a cookie.  The handshakes with GitHub carry their state in a cookie: a JSON object, sealed by the
    box of [internal/platform/crypto] and written with [base64.RawURLEncoding].  The reader
    of that encoding, and the round trip of the whole, given that the box opens what it
    sealed. *)
From S2P Require Import Prelude.
From S2P Require Import GoStrings.
From S2P Require Import Json.
From S2P Require Import GoUrl.
From S2P Require Import JsonProps.
From S2P Require Import Problem.
From S2P Require Import Schema.

(** What the outside answers. *)
Record PullRequest := mk_PullRequest { pr_HeadRef : string; pr_HTMLURL : string }.
Inductive gh_error := GhNotFound | GhRateLimited | GhOther (what : string).

Class Env := {
  fault : nat → bool;                        (* does the n-th statement/begin/commit fail *)
  now_at : nat → Z;                          (* clock of the database and of the process *)
  uuid_at : nat → string;                    (* gen_random_uuid() *)
  uuid_parse_ok : string → bool;             (* google/uuid Parse accepts the text *)
  bcrypt_hash : nat → string → option string;        (* bcrypt.GenerateFromPassword *)
  open_sealed : list Z → option string;              (* Opener.Open *)
  get_pull_request : nat → string → string → Z → gh_error + PullRequest;
  installation_token : nat → string → go_error + option string;  (* SourceTokens port *)
  range_order : nat → list string → list string;   (* iteration order of a Go map *)
  range_order_perm : ∀ n l, range_order n l ≡ₚ l;
}.

(** Sealing under the master key (crypto.Box.Seal): the n-th call with a plaintext. *)
Class Sealer := { seal : nat → string → go_error + list Z }.

(** crypto/rand.Read for n bytes. *)
Class Entropy := {
  rand_Read : nat → nat → go_error + list Z;
  rand_Read_spec : ∀ k n l, rand_Read k n = inr l → length l = n ∧ Forall (λ b, 0 ≤ b < 256) l;
}.

(** The clock counts nanoseconds, like [time.Duration]; [Unix] is whole seconds. *)
Definition time_Second : Z := 1000000000.
Definition Unix (t : Z) : Z := t / time_Second.

Record World := mk_World { w_db : DB; w_tick : nat; w_txnow : Z }.

Definition M (A : Type) : Type := World → (go_error + A) * World.

#[global] Instance M_ret : MRet M := λ A a w, (inr a, w).
#[global] Instance M_bind : MBind M := λ A B k m w,
  match m w with
  | (inl e, w') => (inl e, w')
  | (inr a, w') => k a w'
  end.

Definition fail {A} (e : go_error) : M A := λ w, (inl e, w).
Definition of_sum {A} (r : go_error + A) : M A := λ w, (r, w).
(** [if !b { return err }] *)
Definition require (b : bool) (e : go_error) : M unit := if b then mret tt else fail e.
(** [if err != nil { return f(err) }] *)
Definition on_err {A} (f : go_error → go_error) (m : M A) : M A := λ w,
  match m w with (inl e, w') => (inl (f e), w') | r => r end.
(** Observe the error instead of returning it. *)
Definition try {A} (m : M A) : M (go_error + A) := λ w, let '(r, w') := m w in (inr r, w').
(** [problem.Internalf(err, op)] around a call. *)
Definition wrap {A} (op : string) (m : M A) : M A := on_err (λ e, Internalf e op []) m.

Fixpoint for_each {A} (l : list A) (body : A → M unit) : M unit :=
  match l with
  | [] => mret tt
  | x :: l' => body x ≫= λ _, for_each l' body
  end.

(** A loop that threads an accumulator through its iterations. *)
Fixpoint fold_each {A S} (l : list A) (body : S → A → M S) (s : S) : M S :=
  match l with
  | [] => mret s
  | x :: l' => body s x ≫= λ s', fold_each l' body s'
  end.

(** [v, ok, err := q(); if err != nil { return Internalf(err, op) }; if !ok { return e }] *)
Definition found {A} (op : string) (q : M (option A)) (e : go_error) : M A :=
  r ← wrap op q; match r with Some a => mret a | None => fail e end.

(** The values a statement takes from the server: now(), gen_random_uuid(), nextval. *)
Record Stamp := mk_Stamp { st_now : Z; st_uuid : string; st_seq : Z }.

Section Effects.
Context {E : Env}.

(** One interaction with the outside: the counter advances; a database call may fail. *)
Definition tick (w : World) : World := mk_World (w_db w) (S (w_tick w)) (w_txnow w).

Definition db_query {A} (f : DB → A) : M A := λ w,
  if fault (w_tick w) then (inl (ErrDB (w_tick w)), tick w)
  else (inr (f (w_db w)), tick w).

(** A [:one] query: no row is [pgx.ErrNoRows]. *)
Definition db_query_row {A} (f : DB → option A) : M A := λ w,
  if fault (w_tick w) then (inl (ErrDB (w_tick w)), tick w)
  else match f (w_db w) with
       | Some a => (inr a, tick w)
       | None => (inl ErrNoRows, tick w)
       end.

(** A statement that writes. *)
Definition db_exec {A} (f : Stamp → DB → go_error + (A * DB)) : M A := λ w,
  let n := w_tick w in
  if fault n then (inl (ErrDB n), tick w)
  else match f (mk_Stamp (w_txnow w) (uuid_at n) (Z.of_nat n)) (w_db w) with
       | inl e => (inl e, tick w)
       | inr (a, d) => (inr a, mk_World d (S n) (w_txnow w))
       end.

(** A statement outside a transaction is one of its own: its now() is the current time. *)
Definition autocommit {A} (m : M A) : M A := λ w, m (mk_World (w_db w) (w_tick w) (now_at (w_tick w))).

(** A call of an outside port. *)
Definition port {A} (f : nat → go_error + A) : M A := λ w, (f (w_tick w), tick w).
(** [for k := range m] on a map with the keys [l]. *)
Definition range_keys (l : list string) : M (list string) := λ w,
  (inr (range_order (w_tick w) l), tick w).
(** time.Now() *)
Definition time_now : M Z := λ w, (inr (now_at (w_tick w)), tick w).

(** [DB.WithinTx] *)
Definition within_tx {A} (body : M A) : M A := λ w,
  let n := w_tick w in
  if fault n then (inl (ErrDB n), tick w)
  else
    let '(r, w1) := body (mk_World (w_db w) (S n) (now_at n)) in
    match r with
    | inl e => (inl e, mk_World (w_db w) (S (w_tick w1)) (w_txnow w))
    | inr a =>
        if fault (w_tick w1)
        then (inl (ErrDB (w_tick w1)), mk_World (w_db w) (S (w_tick w1)) (w_txnow w))
        else (inr a, mk_World (w_db w1) (S (w_tick w1)) (w_txnow w))
    end.

(** The stores' treatment of a single-row read: [pgx.ErrNoRows] is "not found". *)
Definition ok_or_norows {A} (m : M A) : M (option A) := λ w,
  match m w with
  | (inr a, w') => (inr (Some a), w')
  | (inl ErrNoRows, w') => (inr None, w')
  | (inl e, w') => (inl e, w')
  end.

(** [id.Parse] *)
Definition id_Parse (s : string) : bool := uuid_parse_ok s.
End Effects.

(** ** Weakest preconditions *)
Definition wp {A} (m : M A) (Q : go_error + A → World → Prop) (w : World) : Prop :=
  Q (fst (m w)) (snd (m w)).

Section WP.
Context {E : Env}.

Lemma wp_run {A} (m : M A) Q w r w' : wp m Q w → m w = (r, w') → Q r w'.
Proof. unfold wp. intros H Hm. by rewrite Hm in H. Qed.

Lemma wp_mono {A} (m : M A) (Q Q' : go_error + A → World → Prop) w :
  (∀ r w', Q r w' → Q' r w') → wp m Q w → wp m Q' w.
Proof. unfold wp. auto. Qed.

Lemma wp_and {A} (m : M A) (Q Q' : go_error + A → World → Prop) w :
  wp m Q w → wp m Q' w → wp m (λ r w', Q r w' ∧ Q' r w') w.
Proof. unfold wp. auto. Qed.

Lemma wp_ret {A} (a : A) Q w : Q (inr a) w → wp (mret a) Q w.
Proof. done. Qed.
Lemma wp_fail {A} e (Q : go_error + A → World → Prop) w : Q (inl e) w → wp (fail e) Q w.
Proof. done. Qed.
Lemma wp_of_sum {A} (r : go_error + A) Q w : Q r w → wp (of_sum r) Q w.
Proof. done. Qed.

Lemma wp_bind {A B} (m : M A) (k : A → M B) (Q : go_error + B → World → Prop) w :
  wp m (λ r w', match r with inl e => Q (inl e) w' | inr a => wp (k a) Q w' end) w →
  wp (m ≫= k) Q w.
Proof.
  unfold wp, mbind, M_bind. destruct (m w) as [[e|a] w'] eqn:Hm; simpl; done.
Qed.

Lemma wp_require b e (Q : go_error + unit → World → Prop) w :
  (b = true → Q (inr tt) w) → (b = false → Q (inl e) w) → wp (require b e) Q w.
Proof. intros Ht Hf. unfold wp, require. destruct b; [by apply Ht|by apply Hf]. Qed.

Lemma wp_on_err {A} f (m : M A) (Q : go_error + A → World → Prop) w :
  wp m (λ r w', match r with inl e => Q (inl (f e)) w' | inr a => Q (inr a) w' end) w →
  wp (on_err f m) Q w.
Proof. unfold wp, on_err. destruct (m w) as [[e|a] w']; done. Qed.

Lemma wp_try {A} (m : M A) (Q : go_error + (go_error + A) → World → Prop) w :
  wp m (λ r w', Q (inr r) w') w → wp (try m) Q w.
Proof. unfold wp, try. destruct (m w) as [r w']; done. Qed.

Lemma wp_query {A} (f : DB → A) (Q : go_error + A → World → Prop) w :
  (∀ e w', w_db w' = w_db w → Q (inl e) w') →
  (∀ w', w_db w' = w_db w → Q (inr (f (w_db w))) w') → wp (db_query f) Q w.
Proof. intros He Ha. unfold wp, db_query. destruct (fault _); [by apply He|by apply Ha]. Qed.

Lemma wp_query_row {A} (f : DB → option A) (Q : go_error + A → World → Prop) w :
  (∀ e w', w_db w' = w_db w → Q (inl e) w') →
  (∀ a w', w_db w' = w_db w → f (w_db w) = Some a → Q (inr a) w') →
  wp (db_query_row f) Q w.
Proof.
  intros He Ha. unfold wp, db_query_row. destruct (fault _); [by apply He|].
  destruct (f (w_db w)) eqn:?; [by apply Ha|by apply He].
Qed.

Lemma wp_query_opt {A} (f : DB → option A) (Q : go_error + option A → World → Prop) w :
  (∀ e w', w_db w' = w_db w → Q (inl e) w') →
  (∀ w', w_db w' = w_db w → Q (inr (f (w_db w))) w') →
  wp (ok_or_norows (db_query_row f)) Q w.
Proof.
  intros He Ha. unfold wp, ok_or_norows, db_query_row. destruct (fault _); [by apply He|].
  specialize (Ha (tick w) eq_refl). destruct (f (w_db w)) eqn:?; done.
Qed.

Lemma wp_exec {A} (f : Stamp → DB → go_error + (A * DB)) (Q : go_error + A → World → Prop) w :
  (∀ e w', w_db w' = w_db w → Q (inl e) w') →
  (∀ st a w', f st (w_db w) = inr (a, w_db w') → Q (inr a) w') →
  wp (db_exec f) Q w.
Proof.
  intros He Ha. unfold wp, db_exec. destruct (fault _); [by apply He|].
  destruct (f _ _) as [e|[a d]] eqn:Hf; [by apply He|]. by eapply Ha.
Qed.

(** The same, with the id the database generated. *)
Lemma wp_exec_uuid {A} (f : Stamp → DB → go_error + (A * DB)) (Q : go_error + A → World → Prop) w :
  (∀ e w', w_db w' = w_db w → Q (inl e) w') →
  (∀ n st a w', st_uuid st = uuid_at n → f st (w_db w) = inr (a, w_db w') → Q (inr a) w') →
  wp (db_exec f) Q w.
Proof.
  intros He Ha. unfold wp, db_exec. destruct (fault _); [by apply He|].
  destruct (f _ _) as [e|[a d]] eqn:Hf; [by apply He|]. by apply (Ha (w_tick w) (mk_Stamp (w_txnow w) (uuid_at (w_tick w)) (Z.of_nat (w_tick w)))).
Qed.

Lemma wp_autocommit {A} (m : M A) (Q : go_error + A → World → Prop) w :
  (∀ w', w_db w' = w_db w → wp m Q w') → wp (autocommit m) Q w.
Proof. intros H. unfold wp, autocommit. by apply H. Qed.

Lemma wp_exec_opt {A} (f : Stamp → DB → go_error + (A * DB)) (Q : go_error + option A → World → Prop) w :
  (∀ e w', w_db w' = w_db w → Q (inl e) w') →
  (∀ w', w_db w' = w_db w → Q (inr None) w') →
  (∀ st a w', f st (w_db w) = inr (a, w_db w') → Q (inr (Some a)) w') →
  wp (ok_or_norows (db_exec f)) Q w.
Proof.
  intros He Hn Ha. unfold wp, ok_or_norows, db_exec. destruct (fault _); [by apply He|].
  destruct (f _ _) as [e|[a d]] eqn:Hf; [|by eapply Ha].
  destruct e; simpl; try (by apply He); by apply Hn.
Qed.

Lemma wp_port {A} (f : nat → go_error + A) (Q : go_error + A → World → Prop) w :
  (∀ n w', w_db w' = w_db w → Q (f n) w') → wp (port f) Q w.
Proof. intros H. unfold wp, port. by apply H. Qed.

Lemma wp_time_now (Q : go_error + Z → World → Prop) w :
  (∀ t w', w_db w' = w_db w → Q (inr t) w') → wp time_now Q w.
Proof. intros H. by apply H. Qed.

Lemma wp_time_now_at (Q : go_error + Z → World → Prop) w :
  (∀ n w', w_db w' = w_db w → Q (inr (now_at n)) w') → wp time_now Q w.
Proof. intros H. by apply H. Qed.

(** A transaction: on any error the database is the one it started from. *)
Lemma wp_within_tx {A} (body : M A) (Q : go_error + A → World → Prop) w :
  (∀ e w', w_db w' = w_db w → Q (inl e) w') →
  (∀ w0, w_db w0 = w_db w →
     wp body (λ r w1, match r with
                      | inl _ => True
                      | inr a => ∀ w', w_db w' = w_db w1 → Q (inr a) w'
                      end) w0) →
  wp (within_tx body) Q w.
Proof.
  intros He Hb. unfold wp, within_tx. destruct (fault _); [by apply He|].
  specialize (Hb (mk_World (w_db w) (S (w_tick w)) (now_at (w_tick w))) eq_refl).
  unfold wp in Hb. destruct (body _) as [[e|a] w1]; simpl in *; [by apply He|].
  case_match; [by apply He|]. by apply Hb.
Qed.

Lemma wp_range_keys l (Q : go_error + list string → World → Prop) w :
  (∀ k w', w_db w' = w_db w → k ≡ₚ l → Q (inr k) w') → wp (range_keys l) Q w.
Proof. intros H. apply H; [done|]. apply range_order_perm. Qed.

Lemma wp_found {A} op (q : M (option A)) e (Q : go_error + A → World → Prop) w :
  wp q (λ r w', match r with
                | inl e0 => Q (inl (Internalf e0 op [])) w'
                | inr None => Q (inl e) w'
                | inr (Some a) => Q (inr a) w'
                end) w →
  wp (found op q e) Q w.
Proof.
  intros H. unfold found, wrap. apply wp_bind, wp_on_err.
  eapply wp_mono; [|exact H]. intros [e0|[a|]] w' ?; done.
Qed.

Lemma wp_fold_each {A S} (l : list A) (body : S → A → M S) (s : S) (I : list A → S → World → Prop)
    (Q : go_error + S → World → Prop) w :
  I l s w →
  (∀ x l' s w', I (x :: l') s w' →
     wp (body s x) (λ r w'', match r with inl e => Q (inl e) w'' | inr s' => I l' s' w'' end) w') →
  (∀ s w', I [] s w' → Q (inr s) w') →
  wp (fold_each l body s) Q w.
Proof.
  revert s w; induction l as [|x l IH]; intros s w HI Hstep Hend; simpl.
  - by apply wp_ret, Hend.
  - apply wp_bind. eapply wp_mono; [|by apply Hstep].
    intros [e|s'] w' H; [done|]. by apply IH.
Qed.

Lemma wp_for_each {A} (l : list A) (body : A → M unit) (I : list A → World → Prop)
    (Q : go_error + unit → World → Prop) w :
  I l w →
  (∀ x l' w', I (x :: l') w' →
     wp (body x) (λ r w'', match r with inl e => Q (inl e) w'' | inr _ => I l' w'' end) w') →
  (∀ w', I [] w' → Q (inr tt) w') →
  wp (for_each l body) Q w.
Proof.
  revert w; induction l as [|x l IH]; intros w HI Hstep Hend; simpl.
  - by apply wp_ret, Hend.
  - apply wp_bind. eapply wp_mono; [|by apply Hstep].
    intros [e|[]] w' H; [done|]. by apply IH.
Qed.
End WP.

(** Runs that agree step by step. *)
Lemma bind_ext {A B} (m m' : M A) (k k' : A → M B) w :
  m w = m' w → (∀ a w', k a w' = k' a w') → (m ≫= k) w = (m' ≫= k') w.
Proof. intros Hm Hk. unfold mbind, M_bind. rewrite Hm. destruct (m' w) as [[e|a] w']; [done|apply Hk]. Qed.

Lemma bind_of_sum {A B} (a : A) (k : A → M B) w : (of_sum (inr a) ≫= k) w = k a w.
Proof. done. Qed.

(** One syntactic step of a handler. *)
Ltac wp_step :=
  lazymatch goal with
  | |- wp (_ ≫= _) _ _ => apply wp_bind
  | |- wp (mret _) _ _ => apply wp_ret
  | |- wp (fail _) _ _ => apply wp_fail
  | |- wp (of_sum _) _ _ => apply wp_of_sum
  | |- wp (wrap _ _) _ _ => unfold wrap; apply wp_on_err
  | |- wp (on_err _ _) _ _ => apply wp_on_err
  | |- wp (try _) _ _ => apply wp_try
  | |- wp (require _ _) _ _ => apply wp_require; intros ?
  | |- wp (db_query _) _ _ => apply wp_query; [intros ? ? ?|intros ? ?]
  | |- wp (db_query_row _) _ _ => apply wp_query_row; [intros ? ? ?|intros ? ? ? ?]
  | |- wp (ok_or_norows (db_query_row _)) _ _ => apply wp_query_opt; [intros ? ? ?|intros ? ?]
  | |- wp (db_exec _) _ _ => apply wp_exec; [intros ? ? ?|intros ? ? ? ?]
  | |- wp (ok_or_norows (db_exec _)) _ _ => apply wp_exec_opt; [intros ? ? ?|intros ? ?|intros ? ? ? ?]
  | |- wp (found _ _ _) _ _ => apply wp_found
  | |- wp (range_keys _) _ _ => apply wp_range_keys; intros ? ? ? ?
  | |- wp (port _) _ _ => apply wp_port; intros ? ? ?
  | |- wp time_now _ _ => apply wp_time_now; intros ? ? ?
  | |- wp (within_tx _) _ _ => apply wp_within_tx; [intros ? ? ?|intros ? ?]
  | |- wp (if ?b then _ else _) _ _ => destruct b eqn:?
  | |- wp (match ?x with _ => _ end) _ _ => destruct x eqn:?
  | |- wp (let '_ := ?x in _) _ _ => destruct x eqn:?
  end.
Ltac wp_steps := repeat (wp_step; simpl).

(** From a run of a handler to the weakest-precondition goal of the statement. *)
Ltac use_wp H :=
  lazymatch type of H with
  | ?m ?w = (?r, ?w') =>
      let res := fresh "res" in
      let Hres := fresh "Hres" in
      remember r as res eqn:Hres in H; revert Hres;
      pattern res, w'; refine (wp_run _ _ _ _ _ _ H); clear H
  end.

Inductive GitHubError := github_ErrNotFound | github_ErrUnauthorized | github_ErrForbidden
  | github_ErrRateLimited | github_Other (what : string).

(** The error value of a sentinel. *)
Definition github_error (e : GitHubError) : go_error :=
  ErrOther match e with
           | github_ErrNotFound => "github: not found"
           | github_ErrUnauthorized => "github: unauthorized"
           | github_ErrForbidden => "github: forbidden"
           | github_ErrRateLimited => "github: rate limited"
           | github_Other what => what
           end.

(** [*github.Client] and the App configuration, as far as the adapter uses them. *)
Record RepoInfo := mk_RepoInfo {
  ri_Owner : string; ri_Name : string; ri_FullName : string; ri_DefaultBranch : string;
  ri_HTMLURL : string; ri_Description : string; ri_Private : bool;
}.
Record Token := mk_Token { tk_AccessToken : string; tk_Scope : string }.
Class GitHubClient := {
  gh_ExchangeCode : nat → string → string → string → string → GitHubError + Token;
  gh_GetAuthenticatedUser : nat → string → GitHubError + (string * Z);
  gh_RevokeToken : nat → string → string → string → GitHubError + unit;
  gh_GetInstallation : nat → string → GitHubError + (string * Z);
  gh_InstallationToken : nat → string → GitHubError + string;
  gh_ListBranches : nat → string → string → string → GitHubError + list string;
  gh_GetRepository : nat → string → string → string → GitHubError + RepoInfo;
  gh_GetBranch : nat → string → string → string → string → GitHubError + unit;
  gh_AppConfigured : nat → bool;
}.

(** ** [base64.RawURLEncoding.DecodeString] *)
Definition b64_value (c : ascii) : option Z :=
  if is_upper c then Some (code c - 65)
  else if is_lower c then Some (code c - 71)
  else if is_digit c then Some (code c + 4)
  else if Ascii.eqb c "-" then Some 62 else if Ascii.eqb c "_" then Some 63 else None.
Fixpoint b64_values (l : bytes) : option (list Z) :=
  match l with
  | [] => Some []
  | c :: l' => match b64_value c, b64_values l' with Some v, Some r => Some (v :: r) | _, _ => None end
  end.
(** Groups of four digits are three bytes; a last group of two or three digits is one or
    two bytes, the bits left over being ignored. *)
Fixpoint b64_groups (l : list Z) : option (list Z) :=
  match l with
  | [] => Some []
  | [_] => None
  | [a; b] => Some [a * 4 + b / 16]
  | [a; b; c] => Some [a * 4 + b / 16; b mod 16 * 16 + c / 4]
  | a :: b :: c :: d :: l' =>
      match b64_groups l' with
      | Some r => Some (a * 4 + b / 16 :: b mod 16 * 16 + c / 4 :: c mod 4 * 64 + d :: r)
      | None => None
      end
  end.
Definition is_line_end (c : ascii) : bool := is_code 10 c || is_code 13 c.
Definition b64_decode (s : string) : option (list Z) :=
  match b64_values (List.filter (λ c, negb (is_line_end c)) (bytes_of s)) with
  | Some l => b64_groups l
  | None => None
  end.

Lemma b64_char_value n : 0 ≤ n < 64 → b64_value (b64_char n) = Some n ∧ is_line_end (b64_char n) = false.
Proof.
  intros H.
  assert (Hall : forallb (λ k, bool_decide (b64_value (b64_char (Z.of_nat k)) = Some (Z.of_nat k)) &&
    negb (is_line_end (b64_char (Z.of_nat k)))) (seq 0 64) = true) by (vm_compute; reflexivity).
  rewrite forallb_forall in Hall. specialize (Hall (Z.to_nat n)). rewrite Z2Nat.id in Hall by lia.
  assert (In (Z.to_nat n) (seq 0 64)) as Hin by (apply in_seq; lia).
  specialize (Hall Hin). propify. by rewrite H1.
Qed.

(** The digits of an encoding. *)
Definition digits_of (ds : list Z) (t : bytes) : Prop :=
  b64_values t = Some ds ∧ List.filter (λ c, negb (is_line_end c)) t = t.
Lemma digits_cons v ds t : digits_of ds t → digits_of (v mod 64 :: ds) (b64_char (v mod 64) :: t).
Proof.
  intros [Hv Hf]. destruct (b64_char_value (v mod 64)) as [H1 H2]; [by apply Z.mod_pos_bound|].
  unfold digits_of. cbn [b64_values List.filter]. by rewrite H1, H2, Hv, Hf.
Qed.

(** The digits of three bytes, and the bytes they stand for. *)
Lemma b64_digits a b c v : 0 ≤ a < 256 → 0 ≤ b < 256 → 0 ≤ c < 256 → v = a * 65536 + b * 256 + c →
  v / 262144 mod 64 * 4 + v / 4096 mod 64 / 16 = a ∧
  v / 4096 mod 64 mod 16 * 16 + v / 64 mod 64 / 4 = b ∧
  v / 64 mod 64 mod 4 * 64 + v mod 64 = c.
Proof.
  intros Ha Hb Hc ->.
  set (d1 := (a * 65536 + b * 256 + c) / 262144). set (d2 := (a * 65536 + b * 256 + c) / 4096).
  set (d3 := (a * 65536 + b * 256 + c) / 64).
  repeat split; subst d1 d2 d3; Z.to_euclidean_division_equations; lia.
Qed.

Lemma shiftr_63 v k : 0 ≤ k → Z.land (Z.shiftr v k) 63 = v / 2 ^ k mod 64.
Proof. intros Hk. by rewrite land_63, Z.shiftr_div_pow2. Qed.

Lemma b64_read l : Forall (λ b, 0 ≤ b < 256) l →
  ∃ ds, digits_of ds (b64_encode l) ∧ b64_groups ds = Some l.
Proof.
  assert (∀ n l, (length l ≤ n)%nat → Forall (λ b, 0 ≤ b < 256) l →
    ∃ ds, digits_of ds (b64_encode l) ∧ b64_groups ds = Some l) as Hind; [|by intros; eapply Hind].
  induction n as [|n IH]; intros [|a [|b [|c l']]] Hlen Hall; simpl in Hlen; try lia;
    try (by exists []); repeat (apply Forall_cons in Hall as [? Hall]); cbn [b64_encode];
    rewrite ?shiftr_63, ?land_63 by lia.
  - exists [a * 65536 / 262144 mod 64; a * 65536 / 4096 mod 64].
    split; [rewrite Z.shiftl_mul_pow2 by lia; by do 2 apply digits_cons|].
    cbn [b64_groups]. do 2 f_equal. Z.to_euclidean_division_equations; lia.
  - pose proof (b64_group a b 0 ltac:(lia) ltac:(lia)) as Hg. rewrite Z.lor_0_r in Hg.
    set (v := Z.lor (Z.shiftl a 16) (Z.shiftl b 8)) in *.
    exists [v / 262144 mod 64; v / 4096 mod 64; v / 64 mod 64].
    split; [by do 3 apply digits_cons|]. cbn [b64_groups].
    destruct (b64_digits a b 0 v) as (-> & -> & _); [lia..|done].
  - pose proof (b64_group a b c ltac:(lia) ltac:(lia)) as Hg.
    set (v := Z.lor (Z.shiftl a 16) (Z.lor (Z.shiftl b 8) c)) in *.
    destruct (IH l') as (ds & Hd & Hr); [lia|done|].
    exists (v / 262144 mod 64 :: v / 4096 mod 64 :: v / 64 mod 64 :: v mod 64 :: ds).
    split; [by do 4 apply digits_cons|]. cbn [b64_groups]. rewrite Hr.
    destruct (b64_digits a b c v) as (-> & -> & ->); [lia..|done].
Qed.

Lemma b64_decode_encode l : Forall (λ b, 0 ≤ b < 256) l → b64_decode (str_of (b64_encode l)) = Some l.
Proof.
  intros H. destruct (b64_read l H) as (ds & [Hv Hf] & Hr). unfold b64_decode.
  by rewrite bytes_of_str_of, Hf, Hv.
Qed.

(** ** The text is plain: nothing to escape, nothing to trim *)
Lemma b64_char_plain n : 0 ≤ n < 64 → is_unreserved (b64_char n) = true.
Proof.
  intros Hn. assert (forallb (λ k, is_unreserved (b64_char (Z.of_nat k))) (seq 0 64) = true) as H by by vm_compute.
  rewrite <- (Z2Nat.id n) by lia. apply (proj1 (forallb_forall _ _) H). apply in_seq. lia.
Qed.
Lemma b64_plain l : Forall (λ c, is_unreserved c = true) (b64_encode l) ∧
  (∀ a, Forall (λ c, is_unreserved c = true) (b64_encode (a :: l))) ∧
  ∀ a b, Forall (λ c, is_unreserved c = true) (b64_encode (a :: b :: l)).
Proof.
  assert (∀ v, 0 ≤ Z.land v 63 < 64) as H0 by (intros v; rewrite land_63; by apply Z.mod_pos_bound).
  induction l as [|x l (I1 & I2 & I3)].
  - split; [done|]. split; intros; cbn [b64_encode]; repeat (apply Forall_cons; split; [apply b64_char_plain, H0|]); apply Forall_nil_2.
  - split; [exact (I2 x)|]. split; [intros a; exact (I3 a x)|]. intros a b. cbn [b64_encode].
    repeat (apply Forall_cons; split; [apply b64_char_plain, H0|]). exact I1.
Qed.
Lemma plain_trimmed s : Forall (λ c, is_unreserved c = true) (bytes_of s) → TrimSpace s = s.
Proof. intros H. apply TrimSpace_trimmed_id. by apply (trimmed_bytes is_unreserved); [vm_compute|vm_compute|]. Qed.
Lemma b64_text_plain l : TrimSpace (str_of (b64_encode l)) = str_of (b64_encode l).
Proof. apply plain_trimmed. rewrite bytes_of_str_of. apply b64_plain. Qed.
Lemma b64_text_nonempty l : l ≠ [] → str_of (b64_encode l) ≠ "".
Proof.
  intros Hl H. apply (f_equal bytes_of) in H. rewrite bytes_of_str_of in H.
  destruct l as [|a [|b [|c l]]]; done.
Qed.

(** ** The box *)

(** The law of authenticated encryption that the handshakes rely on. *)
Definition opens_sealed {E : Env} {S : Sealer} : Prop := ∀ n p c, seal n p = inr c → open_sealed c = Some p.
(** What is sealed is bytes. *)
Definition sealed_bytes {S : Sealer} : Prop := ∀ n p c, seal n p = inr c → Forall (λ b, 0 ≤ b < 256) c.

(** [box.Open] *)
Definition box_Open {E : Env} (sealed : list Z) : go_error + string :=
  match open_sealed sealed with Some plain => inr plain | None => inl (ErrOther "open sealed value") end.

(** The text of a cookie, opened. *)
Definition open_cookie {E : Env} (cookie : string) : option string := b64_decode cookie ≫= open_sealed.

Lemma open_sealed_cookie {E : Env} {S : Sealer} n plain sealed :
  opens_sealed → sealed_bytes → seal n plain = inr sealed →
  open_cookie (str_of (b64_encode sealed)) = Some plain.
Proof.
  intros Ho Hb Hs. unfold open_cookie. rewrite b64_decode_encode by (by eapply Hb). simpl. by eapply Ho.
Qed.
