(* ===== verification/Authz.v ===== *)
(** * Authz: principals, the policy, audit

    [internal/platform/authz] (actions, roles, resources, the Authorizer port),
    [internal/platform/principal], [internal/policy] (the permission matrix and
    Authorize), [internal/membership] (the role lookup) and [internal/audit] (the audit
    row written in the caller's transaction).

    The port is a class: a handler is written and verified against [Authorizer], and
    the policy service is an instance that discharges its laws.

    Its theorems: the policy decides exactly, and errors do not leak. *)
From S2P Require Import Prelude.
From S2P Require Import Problem.
From S2P Require Import Schema.
From S2P Require Import Platform.

Inductive Action :=
  | ActionWorkspaceCreate
  | ActionMemberInvite
  | ActionMemberRemove
  | ActionMemberRoleChange
  | ActionMemberList
  | ActionProjectCreate
  | ActionProjectRead
  | ActionProjectDelete
  | ActionEnvironmentCreate
  | ActionEnvironmentRead
  | ActionServerCreate
  | ActionServerRead
  | ActionServerDelete
  | ActionAgentCreate
  | ActionAgentRead
  | ActionConfigSet
  | ActionConfigRead
  | ActionConfigDelete
  | ActionDeploymentCreate
  | ActionDeploymentRead
  | ActionSourceConnect
  | ActionSourceRead
  | ActionSourceDisconnect
  | ActionServiceCreate
  | ActionServiceRead
  | ActionServiceUpdate
  | ActionServiceDelete
  | ActionDomainCreate
  | ActionDomainRead
  | ActionDomainVerify
  | ActionDomainDelete
  | ActionBackupCreate
  | ActionBackupRead
  | ActionReadinessRead
  | ActionServerSetupRun
  | ActionServerSetupKeyRotate
  | ActionServerSetupKeyRevoke
  | ActionServerSetupKeyRead
  | ActionGitHubAppRegister.

#[global] Instance Action_eq_dec : EqDecision Action.
Proof. solve_decision. Defined.

Definition action_string (a : Action) : string :=
  match a with
  | ActionWorkspaceCreate => "workspace.create"
  | ActionMemberInvite => "workspace.member.invite"
  | ActionMemberRemove => "workspace.member.remove"
  | ActionMemberRoleChange => "workspace.member.role.change"
  | ActionMemberList => "workspace.member.list"
  | ActionProjectCreate => "project.create"
  | ActionProjectRead => "project.read"
  | ActionProjectDelete => "project.delete"
  | ActionEnvironmentCreate => "environment.create"
  | ActionEnvironmentRead => "environment.read"
  | ActionServerCreate => "server.create"
  | ActionServerRead => "server.read"
  | ActionServerDelete => "server.delete"
  | ActionAgentCreate => "agent.create"
  | ActionAgentRead => "agent.read"
  | ActionConfigSet => "config.set"
  | ActionConfigRead => "config.read"
  | ActionConfigDelete => "config.delete"
  | ActionDeploymentCreate => "deployment.create"
  | ActionDeploymentRead => "deployment.read"
  | ActionSourceConnect => "source.connect"
  | ActionSourceRead => "source.read"
  | ActionSourceDisconnect => "source.disconnect"
  | ActionServiceCreate => "service.create"
  | ActionServiceRead => "service.read"
  | ActionServiceUpdate => "service.update"
  | ActionServiceDelete => "service.delete"
  | ActionDomainCreate => "domain.create"
  | ActionDomainRead => "domain.read"
  | ActionDomainVerify => "domain.verify"
  | ActionDomainDelete => "domain.delete"
  | ActionBackupCreate => "backup.create"
  | ActionBackupRead => "backup.read"
  | ActionReadinessRead => "readiness.read"
  | ActionServerSetupRun => "server_setup.run"
  | ActionServerSetupKeyRotate => "server_setup.key.rotate"
  | ActionServerSetupKeyRevoke => "server_setup.key.revoke"
  | ActionServerSetupKeyRead => "server_setup.key.read"
  | ActionGitHubAppRegister => "github_app.register"
  end.

Definition RoleOwner : string := "owner".
Definition RoleAdmin : string := "admin".
Definition RoleMember : string := "member".
Definition RoleViewer : string := "viewer".

Definition ValidRole (r : string) : bool :=
  in_list [RoleOwner; RoleAdmin; RoleMember; RoleViewer] r.

(** [principal.Principal]; the zero value is the anonymous caller. *)
Record Principal := mk_Principal { p_UserID : string; p_Method : string }.
Definition IsAuthenticated (p : Principal) : bool := negb (String.eqb (p_UserID p) "").

Record Resource := mk_Resource { res_Type : string; res_WorkspaceID : string; res_ID : string }.

(** ** The permission matrix *)
Definition perms_owner (a : Action) : bool :=
  match a with
  | ActionMemberInvite | ActionMemberRemove | ActionMemberRoleChange | ActionMemberList
    | ActionProjectCreate | ActionProjectRead | ActionProjectDelete | ActionEnvironmentCreate
    | ActionEnvironmentRead | ActionServerCreate | ActionServerRead | ActionServerDelete
    | ActionAgentCreate | ActionAgentRead | ActionConfigSet | ActionConfigRead
    | ActionConfigDelete | ActionDeploymentCreate | ActionDeploymentRead | ActionSourceConnect
    | ActionSourceRead | ActionSourceDisconnect | ActionServiceCreate | ActionServiceRead
    | ActionServiceUpdate | ActionServiceDelete | ActionDomainCreate | ActionDomainRead
    | ActionDomainVerify | ActionDomainDelete | ActionBackupCreate | ActionBackupRead
    | ActionReadinessRead | ActionServerSetupRun | ActionServerSetupKeyRotate
    | ActionServerSetupKeyRevoke | ActionServerSetupKeyRead | ActionGitHubAppRegister => true
  | _ => false
  end.
Definition perms_admin (a : Action) : bool :=
  match a with
  | ActionMemberInvite | ActionMemberRemove | ActionMemberList | ActionProjectCreate
    | ActionProjectRead | ActionProjectDelete | ActionEnvironmentCreate | ActionEnvironmentRead
    | ActionServerCreate | ActionServerRead | ActionServerDelete | ActionAgentCreate
    | ActionAgentRead | ActionConfigSet | ActionConfigRead | ActionConfigDelete
    | ActionDeploymentCreate | ActionDeploymentRead | ActionSourceConnect | ActionSourceRead
    | ActionSourceDisconnect | ActionServiceCreate | ActionServiceRead | ActionServiceUpdate
    | ActionServiceDelete | ActionDomainCreate | ActionDomainRead | ActionDomainVerify
    | ActionDomainDelete | ActionBackupCreate | ActionBackupRead | ActionReadinessRead
    | ActionServerSetupRun | ActionServerSetupKeyRotate | ActionServerSetupKeyRevoke
    | ActionServerSetupKeyRead => true
  | _ => false
  end.
Definition perms_member (a : Action) : bool :=
  match a with
  | ActionMemberList | ActionProjectCreate | ActionProjectRead | ActionEnvironmentCreate
    | ActionEnvironmentRead | ActionServerCreate | ActionServerRead | ActionAgentCreate
    | ActionAgentRead | ActionConfigSet | ActionConfigRead | ActionConfigDelete
    | ActionDeploymentCreate | ActionDeploymentRead | ActionSourceConnect | ActionSourceRead
    | ActionSourceDisconnect | ActionServiceCreate | ActionServiceRead | ActionServiceUpdate
    | ActionServiceDelete | ActionDomainCreate | ActionDomainRead | ActionDomainVerify
    | ActionDomainDelete | ActionBackupCreate | ActionBackupRead | ActionReadinessRead
    | ActionServerSetupKeyRead => true
  | _ => false
  end.
Definition perms_viewer (a : Action) : bool :=
  match a with
  | ActionMemberList | ActionProjectRead | ActionEnvironmentRead | ActionServerRead
    | ActionAgentRead | ActionConfigRead | ActionDeploymentRead | ActionSourceRead
    | ActionServiceRead | ActionDomainRead | ActionBackupRead | ActionReadinessRead
    | ActionServerSetupKeyRead => true
  | _ => false
  end.

(** [permissions[role][action]]: an unknown role has no permission. *)
Definition permissions (role : string) (a : Action) : bool :=
  if String.eqb role RoleOwner then perms_owner a
  else if String.eqb role RoleAdmin then perms_admin a
  else if String.eqb role RoleMember then perms_member a
  else if String.eqb role RoleViewer then perms_viewer a
  else false.

(** ** Membership *)
Definition GetWorkspaceMemberRole (workspaceID userID : string) (d : DB) : option string :=
  wm_Role <$> List.find (λ m, String.eqb (wm_WorkspaceID m) workspaceID && String.eqb (wm_UserID m) userID)
                        (workspace_members d).

Section Policy.
Context {E : Env}.

(** [postgresStore.RoleForUser] *)
Definition RoleForUser (workspaceID userID : string) : M (option string) :=
  ok_or_norows (db_query_row (GetWorkspaceMemberRole workspaceID userID)).

(** [Service.Authorize] of the policy module *)
Definition policy_Authorize (p : Principal) (action : Action) (res : Resource) : M unit :=
  if negb (IsAuthenticated p) then fail (PermissionDenied "authentication required" [])
  else if String.eqb (res_WorkspaceID res) "" then
    fail (PermissionDenied "a workspace is required to authorize %q" [AStr (action_string action)])
  else
    role ← on_err (λ e, Internalf e "authorize %q" [AStr (action_string action)])
             (RoleForUser (res_WorkspaceID res) (p_UserID p));
    match role with
    | None => fail (PermissionDenied "you are not a member of this workspace" [])
    | Some role =>
        if permissions role action then mret tt
        else fail (PermissionDenied "role %q cannot perform %q"
                     [AStr role; AStr (action_string action)])
    end.
End Policy.

(** What it means for the policy to allow an action: an authenticated member of the
    named workspace whose role grants it. *)
Definition policy_allows (p : Principal) (a : Action) (res : Resource) (d : DB) : Prop :=
  p_UserID p ≠ "" ∧ res_WorkspaceID res ≠ "" ∧
  ∃ role, GetWorkspaceMemberRole (res_WorkspaceID res) (p_UserID p) d = Some role ∧
          permissions role a = true.

(** ** The Authorizer port *)
Class Authorizer {E : Env} := {
  Authorize : Principal → Action → Resource → M unit;
  allows : Principal → Action → Resource → DB → Prop;
  (** Authorizing never writes, and success means the action is allowed. *)
  wp_Authorize : ∀ p a res (Q : go_error + unit → World → Prop) w,
    (∀ e w', w_db w' = w_db w → Q (inl e) w') →
    (∀ w', w_db w' = w_db w → allows p a res (w_db w) → Q (inr tt) w') →
    wp (Authorize p a res) Q w;
}.

Lemma wp_policy_Authorize {E : Env} p a res (Q : go_error + unit → World → Prop) w :
  (∀ e w', w_db w' = w_db w → Q (inl e) w') →
  (∀ w', w_db w' = w_db w → policy_allows p a res (w_db w) → Q (inr tt) w') →
  wp (policy_Authorize p a res) Q w.
Proof.
  intros He Ha. unfold policy_Authorize, IsAuthenticated, RoleForUser.
  wp_steps; try (by apply He).
  apply Ha; [done|]. propify. unfold policy_allows. naive_solver.
Qed.

#[export] Instance policy_authorizer {E : Env} : Authorizer := {|
  Authorize := policy_Authorize;
  allows := policy_allows;
  wp_Authorize := wp_policy_Authorize;
|}.

(** ** Audit *)
Definition audit_insert (action targetType targetID workspaceID actor : string)
    (st : Stamp) (d : DB) : go_error + (unit * DB) :=
  if has_key au_ID (st_uuid st) (audit_events d) then inl (ErrConstraint "audit_events_pkey")
  else
    let row := {| au_ID := st_uuid st;
                  au_WorkspaceID := if String.eqb workspaceID "" then None else Some workspaceID;
                  au_Actor := actor; au_Action := action; au_TargetType := targetType;
                  au_TargetID := targetID; au_CreatedAt := st_now st |} in
    inr (tt, set_audit_events (audit_events d ++ [row]) d).

(** [Service.Record] of the audit module: one row, in the caller's transaction. *)
Definition audit_Record {E : Env} (action targetType targetID workspaceID actor : string) : M unit :=
  db_exec (audit_insert action targetType targetID workspaceID actor).

(** [audited d d' a tt ti ws actor]: [d'] is [d] plus exactly that audit row. *)
Definition audited (action targetType targetID workspaceID actor : string) (d d' : DB) : Prop :=
  ∃ row, d' = set_audit_events (audit_events d ++ [row]) d ∧
    au_Action row = action ∧ au_TargetType row = targetType ∧ au_TargetID row = targetID ∧
    au_Actor row = actor ∧
    au_WorkspaceID row = (if String.eqb workspaceID "" then None else Some workspaceID).

Lemma audit_insert_audited a tt_ ti ws ac st d u d' :
  audit_insert a tt_ ti ws ac st d = inr (u, d') → audited a tt_ ti ws ac d d'.
Proof.
  unfold audit_insert. case_match; [done|]. intros [= <- <-]. eexists. split; [done|]. done.
Qed.

Lemma wp_audit_Record {E : Env} a tt_ ti ws ac (Q : go_error + unit → World → Prop) w :
  (∀ e w', w_db w' = w_db w → Q (inl e) w') →
  (∀ w', audited a tt_ ti ws ac (w_db w) (w_db w') → Q (inr tt) w') →
  wp (audit_Record a tt_ ti ws ac) Q w.
Proof.
  intros He Ha. apply wp_exec; [done|]. intros st [] w' H.
  apply Ha. by eapply audit_insert_audited.
Qed.

(** The actions that only read. *)
Definition read_action (a : Action) : bool :=
  match a with
  | ActionMemberList | ActionProjectRead | ActionEnvironmentRead | ActionServerRead | ActionAgentRead
  | ActionConfigRead | ActionDeploymentRead | ActionSourceRead | ActionServiceRead | ActionDomainRead
  | ActionBackupRead | ActionReadinessRead | ActionServerSetupKeyRead => true
  | _ => false
  end.

Definition rank (role : string) : nat :=
  if String.eqb role RoleOwner then 4 else if String.eqb role RoleAdmin then 3
  else if String.eqb role RoleMember then 2 else if String.eqb role RoleViewer then 1 else 0.

(** The four sets of permissions are nested, each strictly. *)
Lemma perms_nested a :
  (perms_viewer a → perms_member a) ∧ (perms_member a → perms_admin a) ∧ (perms_admin a → perms_owner a).
Proof. by destruct a. Qed.

Lemma rank_le role : (rank role ≤ 4)%nat.
Proof. unfold rank. repeat destruct (String.eqb role _); lia. Qed.

Lemma permissions_rank role a :
  permissions role a = match rank role with
                       | 4%nat => perms_owner a | 3%nat => perms_admin a | 2%nat => perms_member a
                       | 1%nat => perms_viewer a | _ => false
                       end.
Proof. unfold permissions, rank. by repeat destruct (String.eqb role _). Qed.

(** The roles form a hierarchy. A role of at least the rank of another has all its
    permissions (owner above admin above member above viewer above everything that is not
    a role); a viewer can do exactly the actions that read; registering the GitHub App,
    changing roles and removing members need more than a member. *)
Theorem roles_hierarchy role role' a :
  ((rank role ≤ rank role')%nat → permissions role a = true → permissions role' a = true) ∧
  (permissions RoleViewer a = true → read_action a = true) ∧
  (permissions role a = true → ValidRole role = true) ∧
  (in_list [RoleMember; RoleViewer] role = true →
     permissions role ActionGitHubAppRegister = false ∧ permissions role ActionMemberRoleChange = false ∧
     permissions role ActionMemberRemove = false ∧ permissions role ActionMemberInvite = false).
Proof.
  split; [|split; [|split]].
  - rewrite !permissions_rank. destruct (perms_nested a) as (P1 & P2 & P3).
    pose proof (rank_le role) as L1. pose proof (rank_le role') as L2. intros Hr.
    rewrite <- !Is_true_true in *. clear -P1 P2 P3 L1 L2 Hr.
    destruct (rank role) as [|[|[|[|[|n]]]]], (rank role') as [|[|[|[|[|n']]]]]; try lia; simpl in *; tauto.
  - by destruct a.
  - unfold permissions. intros Hp. apply in_list_true.
    destruct (String.eqb_spec role RoleOwner) as [->|_]; [by repeat constructor|].
    destruct (String.eqb_spec role RoleAdmin) as [->|_]; [by repeat constructor|].
    destruct (String.eqb_spec role RoleMember) as [->|_]; [by repeat constructor|].
    destruct (String.eqb_spec role RoleViewer) as [->|_]; [by repeat constructor|done].
  - intros Hr. apply in_list_true in Hr.
    apply elem_of_cons in Hr as [->|[->|Hr%elem_of_nil]%elem_of_cons]; done.
Qed.

(** The policy decides exactly. Whatever the fault schedule, authorizing changes no
    row, allows precisely an authenticated member of the named workspace whose role has
    the permission, and otherwise denies with a permission error; only a failed read of
    the membership gives another error, an internal one. *)
Theorem policy_Authorize_exact {E : Env} p a res (w : World) r w' :
  policy_Authorize p a res w = (r, w') →
  w_db w' = w_db w ∧
  match r with
  | inr _ => policy_allows p a res (w_db w)
  | inl e =>
      (¬ policy_allows p a res (w_db w) ∧ fst (ToConnect e) = CodePermissionDenied) ∨
      (fault (w_tick w) = true ∧ ToConnect e = (CodeInternal, ("internal error", [])))
  end.
Proof.
  intros Hrun. unfold policy_Authorize, IsAuthenticated, RoleForUser, ok_or_norows, db_query_row, on_err, fail, mbind, M_bind, mret, M_ret in Hrun.
  unfold policy_allows.
  destruct (String.eqb_spec (p_UserID p) "") as [Hu|Hu]; simpl in Hrun; [simplify_eq; split; [done|]; left; split; [tauto|done]|].
  destruct (String.eqb_spec (res_WorkspaceID res) "") as [Hw|Hw]; [simplify_eq; split; [done|]; left; split; [tauto|done]|].
  destruct (fault (w_tick w)) eqn:Hf; [simplify_eq/=; split; [done|]; by right|].
  destruct (GetWorkspaceMemberRole (res_WorkspaceID res) (p_UserID p) (w_db w)) as [role|] eqn:Hr; simpl in Hrun.
  - destruct (permissions role a) eqn:Hp; simplify_eq/=; (split; [done|]); [by eauto 10|].
    left. split; [|done]. intros (_ & _ & role' & [= <-] & ?). congruence.
  - simplify_eq/=. split; [done|]. left. split; [|done]. by intros (_ & _ & role' & ? & _).
Qed.

(** Every way an error can fail to be a domain error. *)
Definition internal_error (e : go_error) : Prop :=
  match as_problem e with None | Some (KindInternal, _, _) => True | _ => False end.

(** Errors do not leak. What a client receives depends only on the outermost problem:
    an error without one, or with an internal one, becomes the same opaque answer
    whatever statement, message or cause it carries; the other kinds keep their code and
    message, and re-wrapping by a module's [mapErr] changes neither. *)
Theorem ToConnect_opaque e op :
  (internal_error e → ToConnect e = (CodeInternal, ("internal error", []))) ∧
  (¬ internal_error e → ∃ k f args, as_problem e = Some (k, f, args) ∧ k ≠ KindInternal ∧
     snd (ToConnect e) = (f, args) ∧ fst (ToConnect e) ≠ CodeInternal) ∧
  ToConnect (mapErr e op) = ToConnect e.
Proof.
  unfold internal_error, ToConnect, mapErr. destruct (as_problem e) as [[[k f] args]|] eqn:He.
  - split; [by destruct k|]. split; [|by rewrite He]. intros Hi. exists k, f, args. by destruct k.
  - split; [done|]. split; [intros Hn; by destruct Hn|done].
Qed.
