(* ===== verification/DeployNames.v ===== *)
(** * DeployNames: names derived by the deployments module

    The pure helpers of [internal/deployments/service.go]: image references, git-ref
    slugs, the routing key and public host of a preview, network and image-tag names. *)
From S2P Require Import Prelude.
From S2P Require Import GoStrings.
From S2P Require Import Sha256.

(** ** Slugs *)

(** [routeKeyNonAlnum.ReplaceAllString(_, "-")]: every maximal run of bytes outside
    [a-z0-9] becomes one hyphen. *)
Fixpoint collapse_bytes (in_run : bool) (l : bytes) : bytes :=
  match l with
  | [] => []
  | c :: l' =>
      if is_lower_alnum c then c :: collapse_bytes false l'
      else if in_run then collapse_bytes true l' else "-"%char :: collapse_bytes true l'
  end.
Definition routeKeyNonAlnum_replace (s : string) : string :=
  str_of (collapse_bytes false (bytes_of s)).

Definition slugifyRef (ref : string) : string :=
  let s := Trim_dash (routeKeyNonAlnum_replace (ToLower ref)) in
  if String.eqb s "" then "branch" else s.

Definition maxRouteKeyLen : Z := 63.

(** The suffix shared by the route key and the route host of a preview. *)
Definition preview_suffix (prNumber : Z) (ref : string) : string :=
  if 0 <? prNumber then "pr-" +:+ Itoa prNumber else slugifyRef ref.

Definition previewRouteKey (serviceID : string) (prNumber : Z) (ref : string) : string :=
  let suffix := preview_suffix prNumber ref in
  let key := serviceID +:+ "-" +:+ suffix in
  if len key <=? maxRouteKeyLen then key
  else
    let tail := str_take 8 (hex_sum suffix) in
    let budget := maxRouteKeyLen - len serviceID - len "-" - len "-" - len tail in
    let budget := if budget <? 0 then 0 else budget in
    let trunc := if budget <? len suffix then str_take (Z.to_nat budget) suffix else suffix in
    let trunc := Trim_dash trunc in
    serviceID +:+ "-" +:+ trunc +:+ "-" +:+ tail.

Definition previewRouteHost (slug : string) (prNumber : Z) (ref serviceID : string) : string :=
  let base := if String.eqb (TrimSpace slug) "" then "preview" else slugifyRef slug in
  let suffix := preview_suffix prNumber ref in
  let tail := str_take 6 (hex_sum serviceID) in
  let head := base +:+ "-" +:+ suffix in
  let maxHead := maxRouteKeyLen - len "-" - len tail in
  let head := if maxHead <? len head then Trim_dash (str_take (Z.to_nat maxHead) head) else head in
  head +:+ "-" +:+ tail.

Definition builtImageTag (deploymentID : string) : string := "plorigo-build:" +:+ deploymentID.
Definition environmentNetworkName (environmentID : string) : string := "plorigo-" +:+ environmentID.
Definition previewNetworkName (routeKey : string) : string := "plorigo-preview-" +:+ routeKey.

(** ** DNS labels *)
Definition is_label_byte (c : ascii) : bool := is_lower_alnum c || is_dash c.

(** A DNS label as both sides of the system understand it. *)
Record label_ok (s : string) : Prop := {
  label_nonempty : s ≠ "";
  label_len : len s ≤ 63;
  label_bytes : Forall (λ c, is_label_byte c = true) (bytes_of s);
  label_head : head (bytes_of s) ≠ Some "-"%char;
  label_last : last (bytes_of s) ≠ Some "-"%char;
}.

(** The canonical text of a UUID: 36 bytes, lower-case hex digits with hyphens. *)
Record canonical_uuid (s : string) : Prop := {
  uuid_len : String.length s = 36%nat;
  uuid_bytes : Forall (λ c, is_hex c || is_dash c = true) (bytes_of s);
  uuid_head : head (bytes_of s) ≠ Some "-"%char;
  uuid_last : last (bytes_of s) ≠ Some "-"%char;
}.

(** ** Lemmas *)
Lemma is_hex_label c : is_hex c = true → is_label_byte c = true.
Proof.
  assert (H : ∀ c, implb (is_hex c) (is_label_byte c) = true)
    by (apply byte_forall; vm_compute; reflexivity).
  specialize (H c). by destruct (is_hex c).
Qed.
Lemma is_hex_not_dash c : is_hex c = true → c ≠ "-"%char.
Proof. by intros H ->. Qed.

Lemma collapse_label b l : Forall (λ c, is_label_byte c = true) (collapse_bytes b l).
Proof.
  revert b; induction l as [|c l IH]; intros b; simpl; [constructor|].
  destruct (is_lower_alnum c) eqn:Hc.
  - constructor; [by unfold is_label_byte; rewrite Hc | apply IH].
  - destruct b; [apply IH|]. constructor; [done|apply IH].
Qed.

Lemma not_dash c : is_dash c = false → c ≠ "-"%char.
Proof. by intros H ->. Qed.

(** A slug is a non-empty word of [a-z0-9-] without a leading or trailing hyphen. *)
Record slug_ok (s : string) : Prop := {
  slug_nonempty : s ≠ "";
  slug_bytes : Forall (λ c, is_label_byte c = true) (bytes_of s);
  slug_head : head (bytes_of s) ≠ Some "-"%char;
  slug_last : last (bytes_of s) ≠ Some "-"%char;
}.

Lemma slugifyRef_ok ref : slug_ok (slugifyRef ref).
Proof.
  unfold slugifyRef. destruct (String.eqb_spec (Trim_dash (routeKeyNonAlnum_replace (ToLower ref))) "") as [_|Hne].
  - split; [done| repeat constructor | done | done].
  - unfold Trim_dash, routeKeyNonAlnum_replace in *. split; [done| | |];
      rewrite !bytes_of_str_of.
    + apply trim_bytes_Forall, collapse_label.
    + intros H%trim_bytes_head. done.
    + intros H%trim_bytes_last. done.
Qed.

Lemma bytes_of_nonempty s : s ≠ "" → bytes_of s ≠ [].
Proof. by destruct s. Qed.
Lemma head_app_nonempty {A} (l k : list A) : l ≠ [] → head (l ++ k) = head l.
Proof. by destruct l. Qed.
Lemma last_app_nonempty {A} (l k : list A) : k ≠ [] → last (l ++ k) = last k.
Proof. intros H. rewrite last_app. destruct (last k) eqn:E; [done|]. by apply last_None in E. Qed.

(** Joining two words with a hyphen keeps the label grammar. *)
Lemma label_join s t :
  s ≠ "" → Forall (λ c, is_label_byte c = true) (bytes_of s) →
  head (bytes_of s) ≠ Some "-"%char →
  t ≠ "" → Forall (λ c, is_label_byte c = true) (bytes_of t) →
  last (bytes_of t) ≠ Some "-"%char →
  len s + 1 + len t ≤ 63 → label_ok (s +:+ "-" +:+ t).
Proof.
  intros Hs Hsb Hsh Ht Htb Htl Hlen.
  assert (bytes_of s ≠ []) by (by apply bytes_of_nonempty).
  assert (bytes_of t ≠ []) by (by apply bytes_of_nonempty).
  split.
  - by destruct s.
  - rewrite !len_app. change (len "-") with 1. lia.
  - rewrite !bytes_of_app. apply Forall_app; split; [done|].
    apply Forall_app; split; [by repeat constructor | done].
  - rewrite bytes_of_app. by rewrite head_app_nonempty.
  - rewrite !bytes_of_app, !last_app_nonempty; done.
Qed.

Lemma str_take_Forall (P : ascii → Prop) n s :
  Forall P (bytes_of s) → Forall P (bytes_of (str_take n s)).
Proof. intros H. unfold str_take. rewrite bytes_of_str_of. by apply Forall_take. Qed.
Lemma len_str_take n s : (n ≤ String.length s)%nat → len (str_take n s) = Z.of_nat n.
Proof.
  intros H. unfold str_take, len. rewrite length_str_of, length_take, length_bytes_of. lia.
Qed.
Lemma len_str_take_le n s : len (str_take n s) ≤ Z.of_nat n.
Proof. unfold str_take, len. rewrite length_str_of, length_take. lia. Qed.
Lemma len_Trim_dash s : len (Trim_dash s) ≤ len s.
Proof.
  unfold Trim_dash, len. rewrite length_str_of. pose proof (length_trim_bytes is_dash (bytes_of s)).
  rewrite length_bytes_of in *. lia.
Qed.
Lemma Trim_dash_Forall (P : ascii → Prop) s :
  Forall P (bytes_of s) → Forall P (bytes_of (Trim_dash s)).
Proof. intros H. unfold Trim_dash. rewrite bytes_of_str_of. by apply trim_bytes_Forall. Qed.

Lemma last_Forall {A} (P : A → Prop) l x : Forall P l → last l = Some x → P x.
Proof. intros H (k & ->)%last_Some. by apply Forall_app in H as [_ [H _]%Forall_cons]. Qed.
Lemma head_Forall {A} (P : A → Prop) l x : Forall P l → head l = Some x → P x.
Proof. destruct l; [done|]. intros [H _]%Forall_cons. by intros [= <-]. Qed.

(** The hash tails: hex digits of the requested length. *)
Lemma hash_tail_ok n s (t := str_take n (hex_sum s)) :
  (0 < n ≤ 64)%nat →
  t ≠ "" ∧ len t = Z.of_nat n ∧ Forall (λ c, is_label_byte c = true) (bytes_of t) ∧
  last (bytes_of t) ≠ Some "-"%char.
Proof.
  intros Hn. pose proof (length_hex_sum s) as Hl.
  assert (len t = Z.of_nat n) as Hlen by (apply len_str_take; lia).
  assert (Forall (λ c, is_hex c = true) (bytes_of t)) as Hhex
    by (apply str_take_Forall, hex_sum_hex).
  split; [intros Ht; rewrite Ht in Hlen; unfold len in Hlen; simpl in Hlen; lia|].
  split; [done|]. split.
  - eapply Forall_impl; [exact Hhex|]. intros c; apply is_hex_label.
  - intros H. by pose proof (last_Forall _ _ _ Hhex H).
Qed.

(** The suffix of a preview name is a slug, and short for a pull request. *)
Lemma preview_suffix_ok pr ref :
  pr < 2 ^ 31 → slug_ok (preview_suffix pr ref).
Proof.
  intros Hpr. unfold preview_suffix. destruct (Z.ltb_spec 0 pr); [|apply slugifyRef_ok].
  destruct (Itoa_pos_spec pr ltac:(lia)) as (Hd & Hne & _).
  split; [done| | done |].
  - rewrite bytes_of_app. apply Forall_app. split; [by repeat constructor|].
    eapply Forall_impl; [exact Hd|]. intros c Hc. unfold is_label_byte, is_lower_alnum.
    rewrite Hc. by rewrite orb_true_r.
  - rewrite bytes_of_app, last_app_nonempty by (by apply bytes_of_nonempty).
    intros Hl. by pose proof (last_Forall _ _ _ Hd Hl).
Qed.

Lemma canonical_uuid_len sid : canonical_uuid sid → len sid = 36.
Proof. intros [H _ _ _]. unfold len. rewrite H. done. Qed.
Lemma canonical_uuid_label sid :
  canonical_uuid sid → Forall (λ c, is_label_byte c = true) (bytes_of sid).
Proof.
  intros [_ Hb _ _]. eapply Forall_impl; [exact Hb|]. intros c [Hc|Hc]%orb_true_iff; simpl in *.
  - by apply is_hex_label.
  - unfold is_label_byte. by rewrite Hc, orb_true_r.
Qed.
Lemma canonical_uuid_nonempty sid : canonical_uuid sid → sid ≠ "".
Proof. intros Hc ->. by pose proof (uuid_len _ Hc). Qed.

Lemma canonical_uuid_is_label sid : canonical_uuid sid → label_ok sid.
Proof.
  intros H. split; [by apply canonical_uuid_nonempty| |by apply canonical_uuid_label|apply H|apply H].
  rewrite (canonical_uuid_len _ H). lia.
Qed.

(** Every preview route key is a DNS label. *)
Lemma previewRouteKey_label sid pr ref :
  canonical_uuid sid → pr < 2 ^ 31 → label_ok (previewRouteKey sid pr ref).
Proof.
  intros Hsid Hpr. unfold previewRouteKey.
  pose proof (preview_suffix_ok pr ref Hpr) as [Hne Hb Hh Hl].
  pose proof (canonical_uuid_len sid Hsid) as Hlen.
  pose proof (canonical_uuid_label sid Hsid). pose proof (canonical_uuid_nonempty sid Hsid).
  set (sfx := preview_suffix pr ref) in *.
  case_match eqn:Hcmp; propify.
  - rewrite !len_app in Hcmp. apply label_join; try done; [apply Hsid|].
    change (len "-") with 1 in Hcmp. unfold maxRouteKeyLen in Hcmp. lia.
  - destruct (hash_tail_ok 8 sfx ltac:(lia)) as (Htne & Htlen & Htb & Htl).
    rewrite Htlen, Hlen. change (maxRouteKeyLen - 36 - len "-" - len "-" - Z.of_nat 8) with 17.
    change (17 <? 0) with false. cbv iota.
    set (tr := Trim_dash _). assert (len tr ≤ 17) as Htr.
    { unfold tr. etransitivity; [apply len_Trim_dash|].
      destruct (Z.ltb_spec 17 (len sfx)); [apply len_str_take_le|lia]. }
    assert (Forall (λ c, is_label_byte c = true) (bytes_of tr)) as Htrb.
    { unfold tr. apply Trim_dash_Forall. case_match; [by apply str_take_Forall|done]. }
    apply (label_join sid (tr +:+ "-" +:+ str_take 8 (hex_sum sfx))); try done; [apply Hsid| | | |].
    + by destruct tr.
    + rewrite !bytes_of_app. apply Forall_app; split; [done|].
      apply Forall_app; split; [by repeat constructor|done].
    + rewrite !bytes_of_app, !last_app_nonempty; try done; by apply bytes_of_nonempty.
    + rewrite !len_app, Htlen. change (len "-") with 1. lia.
Qed.

(** A route key of a preview is longer than any service id, so it is never a
    production route key. *)
Lemma previewRouteKey_longer sid pr ref :
  canonical_uuid sid → len sid + 1 < len (previewRouteKey sid pr ref) ∨
  previewRouteKey sid pr ref = sid +:+ "-" +:+ preview_suffix pr ref.
Proof.
  intros Hsid. unfold previewRouteKey. case_match; [by right|left].
  destruct (hash_tail_ok 8 (preview_suffix pr ref) ltac:(lia)) as (_ & Htlen & _).
  set (tr := Trim_dash _). pose proof (len_nonneg tr).
  rewrite !len_app, Htlen. change (len "-") with 1. lia.
Qed.

Lemma previewRouteKey_ne_uuid sid sid' pr ref :
  canonical_uuid sid → canonical_uuid sid' → previewRouteKey sid pr ref ≠ sid'.
Proof.
  intros Hs Hs' Heq. pose proof (canonical_uuid_len _ Hs). pose proof (canonical_uuid_len _ Hs').
  destruct (previewRouteKey_longer sid pr ref Hs) as [Hlt|Hk].
  - rewrite Heq in Hlt. lia.
  - rewrite Heq in Hk. rewrite Hk, !len_app in *. change (len "-") with 1 in *.
    pose proof (len_nonneg (preview_suffix pr ref)). lia.
Qed.

(** The key of a pull request is never truncated, and ignores the ref. *)
Lemma previewRouteKey_pr sid pr ref :
  canonical_uuid sid → 0 < pr < 2 ^ 31 →
  previewRouteKey sid pr ref = sid +:+ "-pr-" +:+ Itoa pr.
Proof.
  intros Hsid Hpr. unfold previewRouteKey, preview_suffix.
  destruct (Z.ltb_spec 0 pr); [|lia].
  destruct (Itoa_pos_spec pr Hpr) as (_ & _ & Hl).
  rewrite !len_app, (canonical_uuid_len sid Hsid).
  change (len "-") with 1. change (len "pr-") with 3. unfold maxRouteKeyLen.
  destruct (Z.leb_spec (36 + (1 + (3 + len (Itoa pr)))) 63); [done|lia].
Qed.

(** Every preview route host is a DNS label. *)
Lemma previewRouteHost_label slug pr ref sid :
  pr < 2 ^ 31 → label_ok (previewRouteHost slug pr ref sid).
Proof.
  intros Hpr. unfold previewRouteHost.
  pose proof (preview_suffix_ok pr ref Hpr) as [Hne Hb Hh Hl].
  set (sfx := preview_suffix pr ref) in *.
  set (base := if String.eqb (TrimSpace slug) "" then "preview" else slugifyRef slug).
  assert (slug_ok base) as [Bne Bb Bh Bl].
  { unfold base. case_match; [by split; repeat constructor | apply slugifyRef_ok]. }
  destruct (hash_tail_ok 6 sid ltac:(lia)) as (Htne & Htlen & Htb & Htl).
  rewrite Htlen. change (maxRouteKeyLen - len "-" - Z.of_nat 6) with 56.
  set (hd := base +:+ "-" +:+ sfx).
  assert (Hhb : Forall (λ c, is_label_byte c = true) (bytes_of hd)).
  { unfold hd. rewrite !bytes_of_app. apply Forall_app; split; [done|].
    apply Forall_app; split; [by repeat constructor|done]. }
  assert (Hhh : head (bytes_of hd) ≠ Some "-"%char).
  { unfold hd. rewrite bytes_of_app, head_app_nonempty; [done|by apply bytes_of_nonempty]. }
  assert (hd ≠ "") as Hhne by (unfold hd; by destruct base).
  destruct (Z.ltb_spec 56 (len hd)) as [Hlong|Hshort].
  2:{ apply label_join; try done. rewrite Htlen. lia. }
  change (Z.to_nat 56) with 56%nat.
  apply label_join; try done.
  - (* the head keeps its first byte, which is no hyphen *)
    intros Hemp. apply (f_equal bytes_of) in Hemp.
    unfold Trim_dash, str_take in Hemp. rewrite !bytes_of_str_of in Hemp. simpl in Hemp.
    destruct (trim_bytes_split is_dash (take 56 (bytes_of hd))) as (a & b & Hsplit & Ha & Hb').
    rewrite Hemp in Hsplit. simpl in Hsplit.
    assert (Forall (λ c, is_dash c = true) (take 56 (bytes_of hd))) as Hall
      by (rewrite Hsplit; by apply Forall_app).
    destruct (bytes_of hd) as [|c l] eqn:E; [by apply bytes_of_nonempty in Hhne|].
    simpl in Hall. apply Forall_cons in Hall as [Hc _]. simpl in Hhh.
    apply Hhh. f_equal. by apply Ascii.eqb_eq in Hc.
  - by apply Trim_dash_Forall, str_take_Forall.
  - unfold Trim_dash. rewrite bytes_of_str_of. intros H%trim_bytes_head. done.
  - rewrite Htlen. pose proof (len_Trim_dash (str_take 56 hd)).
    pose proof (len_str_take_le 56 hd). lia.
Qed.
