(* ===== verification/DeployStore.v ===== *)
(** * DeployStore: the deployments module's data and its PostgreSQL store

    The domain records of [internal/deployments] (deployments.go, store.go,
    teardown.go), one definition [sql_*] per query of
    [internal/platform/database/db] the module runs, and one definition per method of
    [postgresStore] (postgres.go). *)
From S2P Require Import Prelude.
From S2P Require Import GoStrings.
From S2P Require Import Problem.
From S2P Require Import Schema.
From S2P Require Import Platform.

(** ** Vocabulary *)
Definition StatusQueued : string := "queued".
Definition StatusAssigned : string := "assigned".
Definition StatusCloning : string := "cloning".
Definition StatusBuilding : string := "building".
Definition StatusPulling : string := "pulling".
Definition StatusStarting : string := "starting".
Definition StatusHealthcheck : string := "healthcheck".
Definition StatusRouting : string := "routing".
Definition StatusRunning : string := "running".
Definition StatusFailed : string := "failed".
Definition StatusSuperseded : string := "superseded".
Definition StatusTornDown : string := "torndown".
Definition SourceImage : string := "image".
Definition SourceGit : string := "git".
Definition KindProduction : string := "production".
Definition KindPreview : string := "preview".
Definition KindStatus : string := "status".
Definition KindLog : string := "log".
Definition StreamBuild : string := "build".
Definition StreamRuntime : string := "runtime".
Definition TeardownStatusQueued : string := "queued".
Definition TeardownStatusAssigned : string := "assigned".
Definition TeardownStatusStopping : string := "stopping".
Definition TeardownStatusRemoving : string := "removing".
Definition TeardownStatusSucceeded : string := "succeeded".
Definition TeardownStatusFailed : string := "failed".

(** ** Domain records *)
Record Deployment := mk_Deployment {
  d_ID : string;
  d_ServiceID : string;
  d_EnvironmentID : string;
  d_ProjectID : string;
  d_WorkspaceID : string;
  d_ServerID : string;
  d_ImageRef : string;
  d_ContainerPort : Z;
  d_HostPort : Z;
  d_ContainerID : string;
  d_Status : string;
  d_Message : string;
  d_CreatedAt : Z;
  d_UpdatedAt : Z;
  d_SourceKind : string;
  d_SourceAccess : string;
  d_CloneURL : string;
  d_GitRef : string;
  d_CommitSha : string;
  d_BuiltImageRef : string;
  d_RouteURL : string;
  d_RolledBackFrom : string;
  d_Kind : string;
  d_RouteKey : string;
  d_PRNumber : Z;
  d_PRURL : string;
  d_AuthUser : string;
  d_AuthHash : string;
}.

Record Event := mk_Event {
  e_ID : string;
  e_DeploymentID : string;
  e_Seq : Z;
  e_Kind : string;
  e_Status : string;
  e_Message : string;
  e_Stream : string;
  e_CreatedAt : Z;
}.

Record ServiceForDeploy := mk_ServiceForDeploy {
  sfd_EnvironmentID : string;
  sfd_ProjectID : string;
  sfd_WorkspaceID : string;
  sfd_SourceKind : string;
  sfd_ImageRef : string;
  sfd_SourceAccess : string;
  sfd_ConnectionID : string;
  sfd_Owner : string;
  sfd_Repo : string;
  sfd_Branch : string;
  sfd_DefaultBranch : string;
  sfd_ContainerPort : Z;
  sfd_Visibility : string;
  sfd_Slug : string;
}.

Record ConfigForDeploy := mk_ConfigForDeploy {
  cfd_Type : string;
  cfd_Scope : string;
  cfd_Key : string;
  cfd_Value : option string;
  cfd_Ciphertext : list Z;
}.

Record NewDeployment := mk_NewDeployment {
  nd_ServiceID : string;
  nd_EnvironmentID : string;
  nd_ProjectID : string;
  nd_WorkspaceID : string;
  nd_ServerID : string;
  nd_ImageRef : string;
  nd_ContainerPort : Z;
  nd_RolledBackFrom : string;
}.

Record NewDeploymentFromGit := mk_NewDeploymentFromGit {
  ng_ServiceID : string;
  ng_EnvironmentID : string;
  ng_ProjectID : string;
  ng_WorkspaceID : string;
  ng_ServerID : string;
  ng_ContainerPort : Z;
  ng_SourceAccess : string;
  ng_CloneURL : string;
  ng_GitRef : string;
  ng_RolledBackFrom : string;
}.

Record NewPreviewDeployment := mk_NewPreviewDeployment {
  np_ServiceID : string;
  np_RouteKey : string;
  np_EnvironmentID : string;
  np_ProjectID : string;
  np_WorkspaceID : string;
  np_ServerID : string;
  np_ContainerPort : Z;
  np_SourceAccess : string;
  np_CloneURL : string;
  np_GitRef : string;
  np_PRNumber : Z;
  np_PRURL : string;
  np_AuthUser : string;
  np_AuthHash : string;
}.

Record StatusUpdate := mk_StatusUpdate {
  su_DeploymentID : string;
  su_Status : string;
  su_Message : string;
  su_HostPort : Z;
  su_ContainerID : string;
  su_CommitSha : string;
  su_BuiltImageRef : string;
  su_RouteURL : string;
}.

Record NewEvent := mk_NewEvent {
  ne_DeploymentID : string;
  ne_Kind : string;
  ne_Status : string;
  ne_Message : string;
  ne_Stream : string;
}.

Record TeardownJob := mk_TeardownJob {
  t_ID : string;
  t_DeploymentID : string;
  t_ServiceID : string;
  t_RouteKey : string;
  t_EnvironmentID : string;
  t_ProjectID : string;
  t_WorkspaceID : string;
  t_ServerID : string;
  t_Status : string;
  t_Message : string;
  t_Error : string;
  t_CreatedAt : Z;
  t_UpdatedAt : Z;
}.

Record NewTeardownJob := mk_NewTeardownJob {
  nt_DeploymentID : string;
  nt_ServiceID : string;
  nt_RouteKey : string;
  nt_EnvironmentID : string;
  nt_ProjectID : string;
  nt_WorkspaceID : string;
  nt_ServerID : string;
}.

Record TeardownStatusUpdate := mk_TeardownStatusUpdate {
  tsu_TeardownID : string;
  tsu_Status : string;
  tsu_Message : string;
  tsu_Error : string;
}.

(** ** Queries on deployments *)

(** The row an INSERT produces: the given columns, the defaults of the table for the
    rest (00009, 00013, 00016, 00024, 00028, 00031). *)
Definition insert_deployment (r : db_Deployment) (d : DB) : go_error + (db_Deployment * DB) :=
  if deployment_constraints r d then inr (r, set_deployments (deployments d ++ [r]) d)
  else inl (ErrConstraint "deployments").

Definition sql_CreateDeployment (ServiceID RouteKey EnvironmentID ProjectID WorkspaceID ServerID
    ImageRef : string) (ContainerPort : Z) (RolledBackFrom : option string)
    (st : Stamp) (d : DB) : go_error + (db_Deployment * DB) :=
  insert_deployment
    {| dp_ID := st_uuid st; dp_EnvironmentID := EnvironmentID; dp_ProjectID := ProjectID;
       dp_WorkspaceID := WorkspaceID; dp_ServerID := ServerID; dp_ImageRef := ImageRef;
       dp_ContainerPort := ContainerPort; dp_HostPort := 0; dp_ContainerID := "";
       dp_Status := "queued"; dp_Message := ""; dp_CreatedAt := st_now st;
       dp_UpdatedAt := st_now st; dp_SourceKind := "image"; dp_SourceAccess := "";
       dp_CloneUrl := ""; dp_GitRef := ""; dp_CommitSha := ""; dp_BuiltImageRef := "";
       dp_RouteUrl := ""; dp_ServiceID := ServiceID; dp_RolledBackFrom := RolledBackFrom;
       dp_Kind := "production"; dp_RouteKey := RouteKey; dp_PrNumber := 0; dp_PrUrl := "";
       dp_PreviewAuthUser := ""; dp_PreviewAuthHash := "" |} d.

Definition sql_CreateDeploymentFromGit (ServiceID RouteKey EnvironmentID ProjectID WorkspaceID
    ServerID : string) (ContainerPort : Z) (SourceAccess CloneUrl GitRef : string)
    (RolledBackFrom : option string) (st : Stamp) (d : DB) : go_error + (db_Deployment * DB) :=
  insert_deployment
    {| dp_ID := st_uuid st; dp_EnvironmentID := EnvironmentID; dp_ProjectID := ProjectID;
       dp_WorkspaceID := WorkspaceID; dp_ServerID := ServerID; dp_ImageRef := "";
       dp_ContainerPort := ContainerPort; dp_HostPort := 0; dp_ContainerID := "";
       dp_Status := "queued"; dp_Message := ""; dp_CreatedAt := st_now st;
       dp_UpdatedAt := st_now st; dp_SourceKind := "git"; dp_SourceAccess := SourceAccess;
       dp_CloneUrl := CloneUrl; dp_GitRef := GitRef; dp_CommitSha := ""; dp_BuiltImageRef := "";
       dp_RouteUrl := ""; dp_ServiceID := ServiceID; dp_RolledBackFrom := RolledBackFrom;
       dp_Kind := "production"; dp_RouteKey := RouteKey; dp_PrNumber := 0; dp_PrUrl := "";
       dp_PreviewAuthUser := ""; dp_PreviewAuthHash := "" |} d.

Definition sql_CreatePreviewDeployment (ServiceID RouteKey EnvironmentID ProjectID WorkspaceID
    ServerID : string) (ContainerPort : Z) (SourceAccess CloneUrl GitRef : string)
    (PrNumber : Z) (PrUrl PreviewAuthUser PreviewAuthHash : string)
    (st : Stamp) (d : DB) : go_error + (db_Deployment * DB) :=
  insert_deployment
    {| dp_ID := st_uuid st; dp_EnvironmentID := EnvironmentID; dp_ProjectID := ProjectID;
       dp_WorkspaceID := WorkspaceID; dp_ServerID := ServerID; dp_ImageRef := "";
       dp_ContainerPort := ContainerPort; dp_HostPort := 0; dp_ContainerID := "";
       dp_Status := "queued"; dp_Message := ""; dp_CreatedAt := st_now st;
       dp_UpdatedAt := st_now st; dp_SourceKind := "git"; dp_SourceAccess := SourceAccess;
       dp_CloneUrl := CloneUrl; dp_GitRef := GitRef; dp_CommitSha := ""; dp_BuiltImageRef := "";
       dp_RouteUrl := ""; dp_ServiceID := ServiceID; dp_RolledBackFrom := None;
       dp_Kind := "preview"; dp_RouteKey := RouteKey; dp_PrNumber := PrNumber; dp_PrUrl := PrUrl;
       dp_PreviewAuthUser := PreviewAuthUser; dp_PreviewAuthHash := PreviewAuthHash |} d.

(** [CASE WHEN x <> '' THEN x ELSE column END] and its integer form. *)
Definition keep (new old : string) : string := if String.eqb new "" then old else new.
Definition keep_pos (new old : Z) : Z := if 0 <? new then new else old.

(** [SET status = s, updated_at = now()] *)
Definition dp_set_status (s : string) (now : Z) (r : db_Deployment) : db_Deployment :=
  {| dp_ID := dp_ID r; dp_EnvironmentID := dp_EnvironmentID r; dp_ProjectID := dp_ProjectID r;
     dp_WorkspaceID := dp_WorkspaceID r; dp_ServerID := dp_ServerID r;
     dp_ImageRef := dp_ImageRef r; dp_ContainerPort := dp_ContainerPort r;
     dp_HostPort := dp_HostPort r; dp_ContainerID := dp_ContainerID r; dp_Status := s;
     dp_Message := dp_Message r; dp_CreatedAt := dp_CreatedAt r; dp_UpdatedAt := now;
     dp_SourceKind := dp_SourceKind r; dp_SourceAccess := dp_SourceAccess r;
     dp_CloneUrl := dp_CloneUrl r; dp_GitRef := dp_GitRef r; dp_CommitSha := dp_CommitSha r;
     dp_BuiltImageRef := dp_BuiltImageRef r; dp_RouteUrl := dp_RouteUrl r;
     dp_ServiceID := dp_ServiceID r; dp_RolledBackFrom := dp_RolledBackFrom r;
     dp_Kind := dp_Kind r; dp_RouteKey := dp_RouteKey r; dp_PrNumber := dp_PrNumber r;
     dp_PrUrl := dp_PrUrl r; dp_PreviewAuthUser := dp_PreviewAuthUser r;
     dp_PreviewAuthHash := dp_PreviewAuthHash r |}.

Definition sql_GetDeployment (id : string) (d : DB) : option db_Deployment :=
  lookup_by dp_ID id (deployments d).

(** [ORDER BY created_at DESC] *)
Definition newest_first {A} (created : A → Z) (l : list A) : list A :=
  order_by (λ r, - created r) l.

Definition sql_ListDeploymentsByService (serviceID : string) (d : DB) : list db_Deployment :=
  newest_first dp_CreatedAt (where_ (λ r, String.eqb (dp_ServiceID r) serviceID) (deployments d)).
Definition sql_ListDeploymentsByEnvironment (environmentID : string) (d : DB) : list db_Deployment :=
  newest_first dp_CreatedAt (where_ (λ r, String.eqb (dp_EnvironmentID r) environmentID) (deployments d)).
Definition sql_ListDeploymentsByProject (projectID : string) (d : DB) : list db_Deployment :=
  newest_first dp_CreatedAt (where_ (λ r, String.eqb (dp_ProjectID r) projectID) (deployments d)).
Definition sql_ListDeploymentsByWorkspace (workspaceID : string) (d : DB) : list db_Deployment :=
  newest_first dp_CreatedAt (where_ (λ r, String.eqb (dp_WorkspaceID r) workspaceID) (deployments d)).

(** The queue of a server: its queued deployments, oldest first. *)
Definition deployment_queue (serverID : string) (d : DB) : list db_Deployment :=
  order_by dp_CreatedAt
    (where_ (λ r, String.eqb (dp_ServerID r) serverID && String.eqb (dp_Status r) "queued")
            (deployments d)).

Definition sql_ClaimNextDeploymentForServer (serverID : string) (st : Stamp) (d : DB)
    : go_error + (db_Deployment * DB) :=
  match deployment_queue serverID d with
  | [] => inl ErrNoRows
  | r :: _ =>
      let f := dp_set_status "assigned" (st_now st) in
      inr (f r, set_deployments
                  (update_where (λ x, String.eqb (dp_ID x) (dp_ID r)) f (deployments d)) d)
  end.

Definition dp_apply_update (status message : string) (hostPort : Z)
    (containerID commitSha builtImageRef routeUrl : string) (now : Z)
    (r : db_Deployment) : db_Deployment :=
  {| dp_ID := dp_ID r; dp_EnvironmentID := dp_EnvironmentID r; dp_ProjectID := dp_ProjectID r;
     dp_WorkspaceID := dp_WorkspaceID r; dp_ServerID := dp_ServerID r;
     dp_ImageRef := dp_ImageRef r; dp_ContainerPort := dp_ContainerPort r;
     dp_HostPort := keep_pos hostPort (dp_HostPort r);
     dp_ContainerID := keep containerID (dp_ContainerID r); dp_Status := status;
     dp_Message := keep message (dp_Message r); dp_CreatedAt := dp_CreatedAt r;
     dp_UpdatedAt := now; dp_SourceKind := dp_SourceKind r;
     dp_SourceAccess := dp_SourceAccess r; dp_CloneUrl := dp_CloneUrl r;
     dp_GitRef := dp_GitRef r; dp_CommitSha := keep commitSha (dp_CommitSha r);
     dp_BuiltImageRef := keep builtImageRef (dp_BuiltImageRef r);
     dp_RouteUrl := keep routeUrl (dp_RouteUrl r); dp_ServiceID := dp_ServiceID r;
     dp_RolledBackFrom := dp_RolledBackFrom r; dp_Kind := dp_Kind r;
     dp_RouteKey := dp_RouteKey r; dp_PrNumber := dp_PrNumber r; dp_PrUrl := dp_PrUrl r;
     dp_PreviewAuthUser := dp_PreviewAuthUser r; dp_PreviewAuthHash := dp_PreviewAuthHash r |}.

Definition sql_UpdateDeploymentStatus (id status message : string) (hostPort : Z)
    (containerID commitSha builtImageRef routeUrl : string) (st : Stamp) (d : DB)
    : go_error + (db_Deployment * DB) :=
  match lookup_by dp_ID id (deployments d) with
  | None => inl ErrNoRows
  | Some r =>
      if in_list deployment_statuses status then
        let f := dp_apply_update status message hostPort containerID commitSha builtImageRef
                   routeUrl (st_now st) in
        inr (f r, set_deployments
                    (update_where (λ x, String.eqb (dp_ID x) id) f (deployments d)) d)
      else inl (ErrConstraint "deployments_status_check")
  end.

Definition supersedes (routeKey serverID id : string) (r : db_Deployment) : bool :=
  String.eqb (dp_RouteKey r) routeKey && String.eqb (dp_ServerID r) serverID &&
  String.eqb (dp_Status r) "running" && negb (String.eqb (dp_ID r) id).

Definition sql_SupersedePreviousRunning (routeKey serverID id : string) (st : Stamp) (d : DB)
    : go_error + (unit * DB) :=
  inr (tt, set_deployments (update_where (supersedes routeKey serverID id)
                              (dp_set_status "superseded" (st_now st)) (deployments d)) d).

Definition sql_AppendDeploymentEvent (deploymentID kind status message stream : string)
    (st : Stamp) (d : DB) : go_error + (db_DeploymentEvent * DB) :=
  let r := {| ev_ID := st_uuid st; ev_DeploymentID := deploymentID; ev_Seq := st_seq st;
              ev_Kind := kind; ev_Status := status; ev_Message := message;
              ev_CreatedAt := st_now st; ev_Stream := stream |} in
  if event_constraints r d then inr (r, set_deployment_events (deployment_events d ++ [r]) d)
  else inl (ErrConstraint "deployment_events").

Definition sql_ListDeploymentEvents (deploymentID : string) (seq : Z) (d : DB) : list db_DeploymentEvent :=
  order_by ev_Seq
    (where_ (λ r, String.eqb (ev_DeploymentID r) deploymentID && (seq <? ev_Seq r))
            (deployment_events d)).

Definition sql_GetLatestServerForService (serviceID : string) (d : DB) : option string :=
  match sql_ListDeploymentsByService serviceID d with
  | [] => None
  | r :: _ => Some (dp_ServerID r)
  end.

Definition sql_GetLatestActivePreviewByRouteKey (serviceID routeKey : string) (d : DB)
    : option db_Deployment :=
  match newest_first dp_CreatedAt
          (where_ (λ r, String.eqb (dp_ServiceID r) serviceID && String.eqb (dp_RouteKey r) routeKey &&
                        String.eqb (dp_Kind r) "preview" && negb (String.eqb (dp_Status r) "torndown"))
                  (deployments d)) with
  | [] => None
  | r :: _ => Some r
  end.

Definition sql_ListExpiredPreviews (cutoff : Z) (d : DB) : list db_Deployment :=
  order_by dp_CreatedAt
    (where_ (λ r, String.eqb (dp_Kind r) "preview" && String.eqb (dp_Status r) "running" &&
                  (dp_CreatedAt r <? cutoff))
            (deployments d)).

(** ** Queries on teardown jobs *)
Definition sql_CreateTeardownJob (DeploymentID ServiceID RouteKey EnvironmentID ProjectID
    WorkspaceID ServerID : string) (st : Stamp) (d : DB) : go_error + (db_TeardownJob * DB) :=
  let r := {| td_ID := st_uuid st; td_DeploymentID := DeploymentID; td_ServiceID := ServiceID;
              td_RouteKey := RouteKey; td_EnvironmentID := EnvironmentID;
              td_ProjectID := ProjectID; td_WorkspaceID := WorkspaceID; td_ServerID := ServerID;
              td_Status := "queued"; td_Message := ""; td_Error := "";
              td_CreatedAt := st_now st; td_UpdatedAt := st_now st |} in
  if teardown_constraints r d then inr (r, set_teardown_jobs (teardown_jobs d ++ [r]) d)
  else inl (ErrConstraint "teardown_jobs").

Definition sql_GetTeardownJob (id : string) (d : DB) : option db_TeardownJob :=
  lookup_by td_ID id (teardown_jobs d).

Definition sql_ListTeardownJobsByService (serviceID : string) (d : DB) : list db_TeardownJob :=
  newest_first td_CreatedAt (where_ (λ r, String.eqb (td_ServiceID r) serviceID) (teardown_jobs d)).

Definition td_apply_update (status message error : string) (now : Z) (r : db_TeardownJob) : db_TeardownJob :=
  {| td_ID := td_ID r; td_DeploymentID := td_DeploymentID r; td_ServiceID := td_ServiceID r;
     td_RouteKey := td_RouteKey r; td_EnvironmentID := td_EnvironmentID r;
     td_ProjectID := td_ProjectID r; td_WorkspaceID := td_WorkspaceID r;
     td_ServerID := td_ServerID r; td_Status := status; td_Message := keep message (td_Message r);
     td_Error := keep error (td_Error r); td_CreatedAt := td_CreatedAt r; td_UpdatedAt := now |}.

Definition teardown_queue (serverID : string) (d : DB) : list db_TeardownJob :=
  order_by td_CreatedAt
    (where_ (λ r, String.eqb (td_ServerID r) serverID && String.eqb (td_Status r) "queued")
            (teardown_jobs d)).

Definition sql_ClaimNextTeardownForServer (serverID : string) (st : Stamp) (d : DB)
    : go_error + (db_TeardownJob * DB) :=
  match teardown_queue serverID d with
  | [] => inl ErrNoRows
  | r :: _ =>
      let f := td_apply_update "assigned" "" "" (st_now st) in
      inr (f r, set_teardown_jobs
                  (update_where (λ x, String.eqb (td_ID x) (td_ID r)) f (teardown_jobs d)) d)
  end.

Definition sql_UpdateTeardownStatus (status message error id : string) (st : Stamp) (d : DB)
    : go_error + (db_TeardownJob * DB) :=
  match lookup_by td_ID id (teardown_jobs d) with
  | None => inl ErrNoRows
  | Some r =>
      if in_list teardown_statuses status then
        let f := td_apply_update status message error (st_now st) in
        inr (f r, set_teardown_jobs
                    (update_where (λ x, String.eqb (td_ID x) id) f (teardown_jobs d)) d)
      else inl (ErrConstraint "teardown_jobs_status_check")
  end.

Definition tears_down (routeKey serverID : string) (r : db_Deployment) : bool :=
  String.eqb (dp_RouteKey r) routeKey && String.eqb (dp_ServerID r) serverID &&
  negb (in_list ["failed"; "superseded"; "torndown"] (dp_Status r)).

Definition sql_MarkPreviewTornDown (routeKey serverID : string) (st : Stamp) (d : DB)
    : go_error + (unit * DB) :=
  inr (tt, set_deployments (update_where (tears_down routeKey serverID)
                              (dp_set_status "torndown" (st_now st)) (deployments d)) d).

(** ** Sibling-table queries *)
Definition sql_GetEnvironmentWorkspaceAndProject (id : string) (d : DB) : option (string * string) :=
  match lookup_by en_ID id (environments d) with
  | None => None
  | Some e => match lookup_by pj_ID (en_ProjectID e) (projects d) with
              | None => None
              | Some p => Some (pj_WorkspaceID p, pj_ID p)
              end
  end.
Definition sql_GetServiceWorkspaceAndProject (id : string) (d : DB) : option (string * string) :=
  (λ s, (sv_WorkspaceID s, sv_ProjectID s)) <$> lookup_by sv_ID id (services d).
Definition sql_GetServerWorkspace (id : string) (d : DB) : option string :=
  srv_WorkspaceID <$> lookup_by srv_ID id (servers d).
Definition sql_GetProjectWorkspaceID (id : string) (d : DB) : option string :=
  pj_WorkspaceID <$> lookup_by pj_ID id (projects d).
Definition sql_GetAgentServerByCredential (credentialHash : list Z) (d : DB) : option (string * string) :=
  (λ a, (ag_ID a, ag_ServerID a)) <$>
    List.find (λ a, bool_decide (ag_CredentialHash a = credentialHash)) (agents d).
Definition sql_GetServiceForDeploy (id : string) (d : DB) : option db_Service :=
  lookup_by sv_ID id (services d).

Definition opt_eqb (o : option string) (s : string) : bool :=
  match o with Some x => String.eqb x s | None => false end.
(** [ORDER BY scope, key] *)
Definition config_leb (a b : db_ConfigEntry) : bool :=
  if String.eqb (ce_Scope a) (ce_Scope b) then String.leb (ce_Key a) (ce_Key b)
  else String.leb (ce_Scope a) (ce_Scope b).
Definition config_applies (serviceID : string) (d : DB) (r : db_ConfigEntry) : bool :=
  opt_eqb (ce_ServiceID r) serviceID ||
  match lookup_by sv_ID serviceID (services d) with
  | Some s => opt_eqb (ce_EnvironmentID r) (sv_EnvironmentID s)
  | None => false
  end.
Definition sql_ListConfigForService (serviceID : string) (d : DB) : list db_ConfigEntry :=
  isort config_leb (where_ (config_applies serviceID d) (config_entries d)).

Definition sv_set_route_url (url : string) (now : Z) (s : db_Service) : db_Service :=
  {| sv_ID := sv_ID s; sv_EnvironmentID := sv_EnvironmentID s; sv_ProjectID := sv_ProjectID s;
     sv_WorkspaceID := sv_WorkspaceID s; sv_Name := sv_Name s; sv_Slug := sv_Slug s;
     sv_SourceKind := sv_SourceKind s; sv_ImageRef := sv_ImageRef s;
     sv_TemplateID := sv_TemplateID s; sv_ConnectionID := sv_ConnectionID s;
     sv_Provider := sv_Provider s; sv_Owner := sv_Owner s; sv_Repo := sv_Repo s;
     sv_FullName := sv_FullName s; sv_Branch := sv_Branch s;
     sv_DefaultBranch := sv_DefaultBranch s; sv_IsPrivate := sv_IsPrivate s;
     sv_HtmlUrl := sv_HtmlUrl s; sv_SourceAccess := sv_SourceAccess s;
     sv_ContainerPort := sv_ContainerPort s; sv_Visibility := sv_Visibility s;
     sv_RouteUrl := url; sv_CreatedAt := sv_CreatedAt s; sv_UpdatedAt := now |}.
Definition sql_UpdateServiceRouteURL (id routeUrl : string) (st : Stamp) (d : DB) : go_error + (unit * DB) :=
  inr (tt, set_services (update_where (λ s, String.eqb (sv_ID s) id)
                           (sv_set_route_url routeUrl (st_now st)) (services d)) d).

(** [ORDER BY service_id, hostname] *)
Definition domain_leb (a b : db_Domain) : bool :=
  if String.eqb (dm_ServiceID a) (dm_ServiceID b) then String.leb (dm_Hostname a) (dm_Hostname b)
  else String.leb (dm_ServiceID a) (dm_ServiceID b).
Definition sql_VerifiedDomainsForServices (serviceIDs : list string) (d : DB) : list (string * string) :=
  map (λ r, (dm_ServiceID r, dm_Hostname r))
    (isort domain_leb
       (where_ (λ r, in_list serviceIDs (dm_ServiceID r) && in_list ["verified"; "active"] (dm_Status r))
               (domains d))).

Definition dm_set_status (status message : string) (now : Z) (r : db_Domain) : db_Domain :=
  {| dm_ID := dm_ID r; dm_ServiceID := dm_ServiceID r; dm_EnvironmentID := dm_EnvironmentID r;
     dm_ProjectID := dm_ProjectID r; dm_WorkspaceID := dm_WorkspaceID r;
     dm_Hostname := dm_Hostname r; dm_Status := status; dm_StatusMessage := message;
     dm_LastCheckedAt := dm_LastCheckedAt r; dm_CreatedAt := dm_CreatedAt r;
     dm_UpdatedAt := now |}.
Definition route_syncs (serviceID : string) (hostnames : list string) (r : db_Domain) : bool :=
  String.eqb (dm_ServiceID r) serviceID && in_list hostnames (dm_Hostname r) &&
  in_list ["verified"; "active"; "failed"] (dm_Status r).
Definition sql_MarkDomainsRouteSync (serviceID : string) (hostnames : list string)
    (status message : string) (st : Stamp) (d : DB) : go_error + (unit * DB) :=
  if in_list ["blocked"; "pending_dns"; "verified"; "active"; "failed"] status then
    inr (tt, set_domains (update_where (route_syncs serviceID hostnames)
                            (dm_set_status status message (st_now st)) (domains d)) d)
  else inl (ErrConstraint "domains_status_check").

(** ** Rows to domain values *)
Definition nullableID (s : string) : option string := if String.eqb s "" then None else Some s.
Definition derefStr (s : option string) : string := default "" s.

Definition deploymentFromRow (r : db_Deployment) : Deployment :=
  {| d_ID := dp_ID r; d_ServiceID := dp_ServiceID r; d_EnvironmentID := dp_EnvironmentID r;
     d_ProjectID := dp_ProjectID r; d_WorkspaceID := dp_WorkspaceID r;
     d_ServerID := dp_ServerID r; d_ImageRef := dp_ImageRef r;
     d_ContainerPort := dp_ContainerPort r; d_HostPort := dp_HostPort r;
     d_ContainerID := dp_ContainerID r; d_Status := dp_Status r; d_Message := dp_Message r;
     d_CreatedAt := dp_CreatedAt r; d_UpdatedAt := dp_UpdatedAt r;
     d_SourceKind := dp_SourceKind r; d_SourceAccess := dp_SourceAccess r;
     d_CloneURL := dp_CloneUrl r; d_GitRef := dp_GitRef r; d_CommitSha := dp_CommitSha r;
     d_BuiltImageRef := dp_BuiltImageRef r; d_RouteURL := dp_RouteUrl r;
     d_RolledBackFrom := derefStr (dp_RolledBackFrom r); d_Kind := dp_Kind r;
     d_RouteKey := dp_RouteKey r; d_PRNumber := dp_PrNumber r; d_PRURL := dp_PrUrl r;
     d_AuthUser := dp_PreviewAuthUser r; d_AuthHash := dp_PreviewAuthHash r |}.
Definition eventFromRow (r : db_DeploymentEvent) : Event :=
  {| e_ID := ev_ID r; e_DeploymentID := ev_DeploymentID r; e_Seq := ev_Seq r;
     e_Kind := ev_Kind r; e_Status := ev_Status r; e_Message := ev_Message r;
     e_Stream := ev_Stream r; e_CreatedAt := ev_CreatedAt r |}.
Definition teardownFromRow (r : db_TeardownJob) : TeardownJob :=
  {| t_ID := td_ID r; t_DeploymentID := td_DeploymentID r; t_ServiceID := td_ServiceID r;
     t_RouteKey := td_RouteKey r; t_EnvironmentID := td_EnvironmentID r;
     t_ProjectID := td_ProjectID r; t_WorkspaceID := td_WorkspaceID r;
     t_ServerID := td_ServerID r; t_Status := td_Status r; t_Message := td_Message r;
     t_Error := td_Error r; t_CreatedAt := td_CreatedAt r; t_UpdatedAt := td_UpdatedAt r |}.
Definition serviceForDeployFromRow (s : db_Service) : ServiceForDeploy :=
  {| sfd_EnvironmentID := sv_EnvironmentID s; sfd_ProjectID := sv_ProjectID s;
     sfd_WorkspaceID := sv_WorkspaceID s; sfd_SourceKind := sv_SourceKind s;
     sfd_ImageRef := sv_ImageRef s; sfd_SourceAccess := sv_SourceAccess s;
     sfd_ConnectionID := derefStr (sv_ConnectionID s); sfd_Owner := sv_Owner s;
     sfd_Repo := sv_Repo s; sfd_Branch := sv_Branch s; sfd_DefaultBranch := sv_DefaultBranch s;
     sfd_ContainerPort := sv_ContainerPort s; sfd_Visibility := sv_Visibility s;
     sfd_Slug := sv_Slug s |}.
Definition configFromRow (r : db_ConfigEntry) : ConfigForDeploy :=
  {| cfd_Type := ce_Type r; cfd_Scope := ce_Scope r; cfd_Key := ce_Key r;
     cfd_Value := ce_Value r; cfd_Ciphertext := ce_Ciphertext r |}.

(** ** The store ([postgresStore]) *)
Section Store.
Context {E : Env}.

Definition WorkspaceAndProjectForEnvironment (environmentID : string) : M (option (string * string)) :=
  ok_or_norows (db_query_row (sql_GetEnvironmentWorkspaceAndProject environmentID)).
Definition WorkspaceAndProjectForService (serviceID : string) : M (option (string * string)) :=
  ok_or_norows (db_query_row (sql_GetServiceWorkspaceAndProject serviceID)).
Definition WorkspaceForServer (serverID : string) : M (option string) :=
  ok_or_norows (db_query_row (sql_GetServerWorkspace serverID)).
Definition WorkspaceForProject (projectID : string) : M (option string) :=
  ok_or_norows (db_query_row (sql_GetProjectWorkspaceID projectID)).
Definition AgentServerByCredential (credentialHash : list Z) : M (option (string * string)) :=
  ok_or_norows (db_query_row (sql_GetAgentServerByCredential credentialHash)).
Definition ConfigForService (serviceID : string) : M (list ConfigForDeploy) :=
  db_query (λ d, map configFromRow (sql_ListConfigForService serviceID d)).
Definition serviceForDeploy (serviceID : string) : M (option ServiceForDeploy) :=
  ok_or_norows (db_query_row (λ d, serviceForDeployFromRow <$> sql_GetServiceForDeploy serviceID d)).

Definition InsertDeployment (n : NewDeployment) : M Deployment :=
  row ← db_exec (sql_CreateDeployment (nd_ServiceID n) (nd_ServiceID n) (nd_EnvironmentID n)
          (nd_ProjectID n) (nd_WorkspaceID n) (nd_ServerID n) (nd_ImageRef n)
          (nd_ContainerPort n) (nullableID (nd_RolledBackFrom n)));
  mret (deploymentFromRow row).
Definition InsertDeploymentFromGit (n : NewDeploymentFromGit) : M Deployment :=
  row ← db_exec (sql_CreateDeploymentFromGit (ng_ServiceID n) (ng_ServiceID n)
          (ng_EnvironmentID n) (ng_ProjectID n) (ng_WorkspaceID n) (ng_ServerID n)
          (ng_ContainerPort n) (ng_SourceAccess n) (ng_CloneURL n) (ng_GitRef n)
          (nullableID (ng_RolledBackFrom n)));
  mret (deploymentFromRow row).
Definition InsertPreviewDeployment (n : NewPreviewDeployment) : M Deployment :=
  row ← db_exec (sql_CreatePreviewDeployment (np_ServiceID n) (np_RouteKey n)
          (np_EnvironmentID n) (np_ProjectID n) (np_WorkspaceID n) (np_ServerID n)
          (np_ContainerPort n) (np_SourceAccess n) (np_CloneURL n) (np_GitRef n)
          (np_PRNumber n) (np_PRURL n) (np_AuthUser n) (np_AuthHash n));
  mret (deploymentFromRow row).
Definition GetDeployment (deploymentID : string) : M (option Deployment) :=
  ok_or_norows (db_query_row (λ d, deploymentFromRow <$> sql_GetDeployment deploymentID d)).
Definition store_ListByService (serviceID : string) : M (list Deployment) :=
  db_query (λ d, map deploymentFromRow (sql_ListDeploymentsByService serviceID d)).
Definition store_ListByEnvironment (environmentID : string) : M (list Deployment) :=
  db_query (λ d, map deploymentFromRow (sql_ListDeploymentsByEnvironment environmentID d)).
Definition store_ListByProject (projectID : string) : M (list Deployment) :=
  db_query (λ d, map deploymentFromRow (sql_ListDeploymentsByProject projectID d)).
Definition store_ListByWorkspace (workspaceID : string) : M (list Deployment) :=
  db_query (λ d, map deploymentFromRow (sql_ListDeploymentsByWorkspace workspaceID d)).
Definition store_ListEvents (deploymentID : string) (afterSeq : Z) : M (list Event) :=
  db_query (λ d, map eventFromRow (sql_ListDeploymentEvents deploymentID afterSeq d)).
Definition ClaimNextForServer (serverID : string) : M (option Deployment) :=
  row ← ok_or_norows (db_exec (sql_ClaimNextDeploymentForServer serverID));
  mret (deploymentFromRow <$> row).
Definition UpdateStatus (u : StatusUpdate) : M unit :=
  _ ← db_exec (sql_UpdateDeploymentStatus (su_DeploymentID u) (su_Status u) (su_Message u)
        (su_HostPort u) (su_ContainerID u) (su_CommitSha u) (su_BuiltImageRef u) (su_RouteURL u));
  mret tt.
Definition SupersedePreviousRunning (routeKey serverID deploymentID : string) : M unit :=
  db_exec (sql_SupersedePreviousRunning routeKey serverID deploymentID).
Definition UpdateServiceRouteURL (serviceID routeURL : string) : M unit :=
  db_exec (sql_UpdateServiceRouteURL serviceID routeURL).
Definition AppendEvent (e : NewEvent) : M unit :=
  _ ← db_exec (sql_AppendDeploymentEvent (ne_DeploymentID e) (ne_Kind e) (ne_Status e)
        (ne_Message e) (ne_Stream e));
  mret tt.

(** The Go map is kept as the list of its (service, hostnames) pairs. *)
Fixpoint group_hostnames (ids : list string) (rows : list (string * string)) : list (string * list string) :=
  match ids with
  | [] => []
  | i :: ids' => (i, map snd (List.filter (λ r, String.eqb (fst r) i) rows)) :: group_hostnames ids' rows
  end.
Definition VerifiedDomainsForServices (serviceIDs : list string) : M (list (string * list string)) :=
  match serviceIDs with
  | [] => mret []
  | _ => rows ← db_query (sql_VerifiedDomainsForServices serviceIDs);
         mret (group_hostnames serviceIDs rows)
  end.
Definition MarkDomainsRouteSync (serviceID : string) (hostnames : list string)
    (status message : string) : M unit :=
  match hostnames with
  | [] => mret tt
  | _ => db_exec (sql_MarkDomainsRouteSync serviceID hostnames status message)
  end.

Definition InsertTeardownJob (t : NewTeardownJob) : M TeardownJob :=
  row ← db_exec (sql_CreateTeardownJob (nt_DeploymentID t) (nt_ServiceID t) (nt_RouteKey t)
          (nt_EnvironmentID t) (nt_ProjectID t) (nt_WorkspaceID t) (nt_ServerID t));
  mret (teardownFromRow row).
Definition GetTeardownJob (id : string) : M (option TeardownJob) :=
  ok_or_norows (db_query_row (λ d, teardownFromRow <$> sql_GetTeardownJob id d)).
Definition store_ListTeardownsByService (serviceID : string) : M (list TeardownJob) :=
  db_query (λ d, map teardownFromRow (sql_ListTeardownJobsByService serviceID d)).
Definition ClaimNextTeardownForServer (serverID : string) : M (option TeardownJob) :=
  row ← ok_or_norows (db_exec (sql_ClaimNextTeardownForServer serverID));
  mret (teardownFromRow <$> row).
Definition UpdateTeardownStatus (u : TeardownStatusUpdate) : M TeardownJob :=
  row ← db_exec (sql_UpdateTeardownStatus (tsu_Status u) (tsu_Message u) (tsu_Error u) (tsu_TeardownID u));
  mret (teardownFromRow row).
Definition MarkPreviewTornDown (routeKey serverID : string) : M unit :=
  db_exec (sql_MarkPreviewTornDown routeKey serverID).
Definition LatestServerForService (serviceID : string) : M (option string) :=
  ok_or_norows (db_query_row (sql_GetLatestServerForService serviceID)).
Definition LatestActivePreviewByRouteKey (serviceID routeKey : string) : M (option Deployment) :=
  ok_or_norows (db_query_row (λ d,
    deploymentFromRow <$> sql_GetLatestActivePreviewByRouteKey serviceID routeKey d)).
Definition ListExpiredPreviews (cutoff : Z) : M (list Deployment) :=
  db_query (λ d, map deploymentFromRow (sql_ListExpiredPreviews cutoff d)).
End Store.
