(* ===== verification/Deployments.v ===== *)
(** * Deployments: the handlers of the deployments module

    [internal/deployments] service.go, webhook.go, teardown.go and expiry.go, handler by
    handler.  The dashboard handlers take the caller the request context carries; the
    agent handlers authenticate by the credential in their input.  Log lines are dropped. *)
From S2P Require Import Prelude.
From S2P Require Import GoStrings.
From S2P Require Import Sha256.
From S2P Require Import Problem.
From S2P Require Import Schema.
From S2P Require Import Platform.
From S2P Require Import Authz.
From S2P Require Import DeployNames.
From S2P Require Import DeployStore.

(** ** Inputs and results (deployments.go, teardown.go) *)
Record CreateForServiceInput := mk_CreateForServiceInput {
  cfs_ServiceID : string;
  cfs_ServerID : string;
  cfs_ContainerPort : Z;
  cfs_GitRef : string;
}.

Record CreatePreviewInput := mk_CreatePreviewInput {
  cp_ServiceID : string;
  cp_ServerID : string;
  cp_Branch : string;
  cp_PRNumber : Z;
  cp_ContainerPort : Z;
  cp_Password : string;
  cp_PasswordUser : string;
}.

Record PollInput := mk_PollInput {
  pi_AgentID : string;
  pi_Credential : string;
}.

Record Claimed := mk_Claimed {
  cl_HasWork : bool;
  cl_DeploymentID : string;
  cl_ImageRef : string;
  cl_ContainerPort : Z;
  cl_Env : gmap string string;
  cl_AppLabel : string;
  cl_SourceKind : string;
  cl_CloneURL : string;
  cl_GitRef : string;
  cl_BuiltImageTag : string;
  cl_GitCredential : string;
  cl_Visibility : string;
  cl_NetworkName : string;
  cl_NetworkAlias : string;
  cl_BasicAuthUser : string;
  cl_BasicAuthHash : string;
  cl_RouteHost : string;
}.

Record ReportInput := mk_ReportInput {
  ri_AgentID : string;
  ri_Credential : string;
  ri_DeploymentID : string;
  ri_Status : string;
  ri_HostPort : Z;
  ri_ContainerID : string;
  ri_LogLines : list string;
  ri_LogStream : string;
  ri_Message : string;
  ri_CommitSha : string;
  ri_BuiltImageRef : string;
  ri_RouteURL : string;
}.

Record ManagedRoute := mk_ManagedRoute {
  mr_ServiceID : string;
  mr_DeploymentID : string;
  mr_HostPort : Z;
}.

Record RouteOverride := mk_RouteOverride {
  ro_ServiceID : string;
  ro_Hostnames : list string;
}.

Record SyncRoutesInput := mk_SyncRoutesInput {
  sri_AgentID : string;
  sri_Credential : string;
  sri_Routes : list ManagedRoute;
}.

Record RouteSyncResult := mk_RouteSyncResult {
  rs_ServiceID : string;
  rs_DeploymentID : string;
  rs_Hostnames : list string;
  rs_OK : bool;
  rs_Message : string;
}.

Record ReportRouteSyncInput := mk_ReportRouteSyncInput {
  rri_AgentID : string;
  rri_Credential : string;
  rri_Results : list RouteSyncResult;
}.

Record ClaimedTeardown := mk_ClaimedTeardown {
  ct_HasWork : bool;
  ct_TeardownID : string;
  ct_RouteKey : string;
  ct_NetworkName : string;
}.

Record ReportTeardownInput := mk_ReportTeardownInput {
  rt_AgentID : string;
  rt_Credential : string;
  rt_TeardownID : string;
  rt_Status : string;
  rt_Message : string;
  rt_Error : string;
}.


(** ** Pure helpers *)
Definition maxImageRefLen : Z := 512.
Definition maxPort : Z := 65535.
Definition configScopeService : string := "service".
Definition configScopeEnvironment : string := "environment".
Definition configTypeSecret : string := "secret".
Definition webhookActor : string := "github-webhook".
Definition expiryActor : string := "preview-expiry".

(** The white space of [strings.ContainsAny(ref, " \t\n\r")]. *)
Definition ref_whitespace : string := str_of (map chr [32; 9; 10; 13]%N).

Definition validateImageRef (raw : string) : go_error + string :=
  let ref := TrimSpace raw in
  if String.eqb ref "" then inl (InvalidInput "an image reference is required" [])
  else if maxImageRefLen <? len ref then
    inl (InvalidInput "image reference must be at most %d characters" [AInt maxImageRefLen])
  else if ContainsAny ref ref_whitespace then
    inl (InvalidInput "image reference must not contain whitespace" [])
  else if negb (Contains ref "@") then
    let seg := after_last "/" ref in
    if negb (Contains seg ":") then inr (ref +:+ ":latest") else inr ref
  else inr ref.

Definition buildableAccess (access : string) : bool :=
  String.eqb access "public" || String.eqb access "app".

Definition isAgentReportableStatus (status : string) : bool :=
  in_list [StatusCloning; StatusBuilding; StatusPulling; StatusStarting; StatusHealthcheck;
           StatusRouting; StatusRunning; StatusFailed] status.
Definition isAgentReportableTeardownStatus (status : string) : bool :=
  in_list [TeardownStatusStopping; TeardownStatusRemoving; TeardownStatusSucceeded;
           TeardownStatusFailed] status.

(** [previewAuthUserRe]: one to 32 bytes of [A-Za-z0-9._-]. *)
Definition is_auth_user_byte (c : ascii) : bool :=
  is_upper c || is_lower c || is_digit c || Ascii.eqb c "." || Ascii.eqb c "_" || Ascii.eqb c "-".
Definition previewAuthUserRe_MatchString (s : string) : bool :=
  (1 <=? len s) && (len s <=? 32) && forallb is_auth_user_byte (bytes_of s).

Definition mapGitHubErr (e : gh_error) : go_error :=
  match e with
  | GhNotFound => NotFound "pull request not found, or your access can't see it" []
  | GhRateLimited => Internalf (ErrOther "rate limited") "GitHub rate limit reached; please try again shortly" []
  | GhOther what => Internalf (ErrOther what) "could not reach GitHub" []
  end.

Definition hashToken (raw : string) : list Z := sum_string raw.

(** The standard clone URL of a GitHub repository. *)
Definition cloneURL (owner repo : string) : string :=
  "https://github.com/" +:+ owner +:+ "/" +:+ repo +:+ ".git".

(** The routing key of a row; rows older than the column fall back to the service id. *)
Definition routeKeyOr (routeKey serviceID : string) : string :=
  if String.eqb routeKey "" then serviceID else routeKey.

(** [if portOverride > 0 { port = portOverride }] *)
Definition port_override (port portOverride : Z) : Z :=
  if 0 <? portOverride then portOverride else port.

Definition no_work : Claimed :=
  mk_Claimed false "" "" 0 ∅ "" "" "" "" "" "" "" "" "" "" "" "".
Definition no_teardown : ClaimedTeardown := mk_ClaimedTeardown false "" "" "".

Definition deployment_resource (workspaceID id : string) : Resource :=
  mk_Resource "deployment" workspaceID id.

Section Service.
Context {E : Env} {A : Authorizer}.

(** ** The container environment *)
Definition configValue (e : ConfigForDeploy) : go_error + string :=
  if String.eqb (cfd_Type e) configTypeSecret then
    match open_sealed (cfd_Ciphertext e) with
    | None => inl (ErrOther "open sealed value")
    | Some plain => inr plain
    end
  else match cfd_Value e with Some v => inr v | None => inr "" end.

(** One pass of the loop over the entries, for one scope. *)
Fixpoint config_pass (scope : string) (includeSecrets : bool) (entries : list ConfigForDeploy)
    (env : gmap string string) : go_error + gmap string string :=
  match entries with
  | [] => inr env
  | e :: es =>
      if negb (String.eqb (cfd_Scope e) scope) then config_pass scope includeSecrets es env
      else if String.eqb (cfd_Type e) configTypeSecret && negb includeSecrets
      then config_pass scope includeSecrets es env
      else match configValue e with
           | inl err => inl err
           | inr v => config_pass scope includeSecrets es (<[cfd_Key e := v]> env)
           end
  end.
Definition config_env (includeSecrets : bool) (entries : list ConfigForDeploy)
    : go_error + gmap string string :=
  match config_pass configScopeEnvironment includeSecrets entries ∅ with
  | inl err => inl err
  | inr env => config_pass configScopeService includeSecrets entries env
  end.
Definition configEnvForService (serviceID : string) (includeSecrets : bool) : M (gmap string string) :=
  entries ← ConfigForService serviceID;
  of_sum (config_env includeSecrets entries).

(** ** Creating deployments *)
Definition buildAndInsert (serviceID : string) (svc : ServiceForDeploy) (serverID : string)
    (portOverride : Z) (gitRef : string) : M Deployment :=
  let port := port_override (sfd_ContainerPort svc) portOverride in
  if String.eqb (sfd_SourceKind svc) SourceGit then
    if negb (buildableAccess (sfd_SourceAccess svc)) then
      fail (InvalidInput "this git source can't be built — connect a public repo or install the GitHub App for private repos" [])
    else
      let ref := TrimSpace gitRef in
      let ref := if String.eqb ref "" then
                   (if String.eqb (sfd_Branch svc) "" then sfd_DefaultBranch svc else sfd_Branch svc)
                 else ref in
      InsertDeploymentFromGit
        {| ng_ServiceID := serviceID; ng_EnvironmentID := sfd_EnvironmentID svc;
           ng_ProjectID := sfd_ProjectID svc; ng_WorkspaceID := sfd_WorkspaceID svc;
           ng_ServerID := serverID; ng_ContainerPort := port;
           ng_SourceAccess := sfd_SourceAccess svc;
           ng_CloneURL := cloneURL (sfd_Owner svc) (sfd_Repo svc); ng_GitRef := ref;
           ng_RolledBackFrom := "" |}
  else
    imageRef ← of_sum (validateImageRef (sfd_ImageRef svc));
    if (port <? 1) || (maxPort <? port) then
      fail (InvalidInput "container_port must be between 1 and %d" [AInt maxPort])
    else
      InsertDeployment
        {| nd_ServiceID := serviceID; nd_EnvironmentID := sfd_EnvironmentID svc;
           nd_ProjectID := sfd_ProjectID svc; nd_WorkspaceID := sfd_WorkspaceID svc;
           nd_ServerID := serverID; nd_ImageRef := imageRef; nd_ContainerPort := port;
           nd_RolledBackFrom := "" |}.

(** The checks [CreateForService] and [CreatePreview] open with. *)
Definition valid_target (serviceID serverID : string) (port : Z) : M unit :=
  _ ← require (id_Parse serviceID) (InvalidInput "a valid service_id is required" []);
  _ ← require (id_Parse serverID) (InvalidInput "a valid server_id is required" []);
  require (negb ((port <? 0) || (maxPort <? port)))
    (InvalidInput "container_port must be between 1 and %d, or 0 to use the service's port" [AInt maxPort]).

(** The guard that follows: the service exists, the caller may deploy in its
    workspace, the server belongs to that workspace. *)
Definition authorize_target (op : string) (caller : Principal) (serviceID serverID : string) : M string :=
  wp_ ← found op (WorkspaceAndProjectForService serviceID) (NotFound "service %s not found" [AStr serviceID]);
  let workspaceID := fst wp_ in
  _ ← Authorize caller ActionDeploymentCreate (deployment_resource workspaceID "");
  serverWorkspace ← wrap op (WorkspaceForServer serverID);
  match serverWorkspace with
  | Some ws =>
      if String.eqb ws workspaceID then mret workspaceID
      else fail (NotFound "server %s not found in this workspace" [AStr serverID])
  | None => fail (NotFound "server %s not found in this workspace" [AStr serverID])
  end.

Definition CreateForService (caller : Principal) (i : CreateForServiceInput) : M Deployment :=
  _ ← valid_target (cfs_ServiceID i) (cfs_ServerID i) (cfs_ContainerPort i);
  workspaceID ← authorize_target "create deployment" caller (cfs_ServiceID i) (cfs_ServerID i);
  on_err (λ e, mapErr e "create deployment")
    (within_tx
      (svc ← serviceForDeploy (cfs_ServiceID i);
       match svc with
       | None => fail (NotFound "service %s not found" [AStr (cfs_ServiceID i)])
       | Some svc =>
           created ← buildAndInsert (cfs_ServiceID i) svc (cfs_ServerID i) (cfs_ContainerPort i) (cfs_GitRef i);
           _ ← audit_Record "deployment.create" "deployment" (d_ID created) workspaceID (p_UserID caller);
           mret created
       end)).

Definition hashPreviewPassword (password username : string) : M (string * string) :=
  if String.eqb password "" then mret ("", "")
  else
    let user := TrimSpace username in
    let user := if String.eqb user "" then "preview" else user in
    if negb (previewAuthUserRe_MatchString user) then
      fail (InvalidInput "the preview username must be 1-32 characters of letters, digits, '.', '_' or '-'" [])
    else
      h ← port (λ n, match bcrypt_hash n password with
                     | None => inl (Internalf (ErrOther "bcrypt") "hash preview password" [])
                     | Some h => inr h
                     end);
      mret (user, h).

(** The ref to build and the link of a pull request. *)
Definition resolve_ref (svc : ServiceForDeploy) (branch : string) (prNumber : Z) : M (string * string) :=
  if 0 <? prNumber then
    pr ← port (λ n, match get_pull_request n (sfd_Owner svc) (sfd_Repo svc) prNumber with
                    | inl e => inl (mapGitHubErr e)
                    | inr pr => inr pr
                    end);
    if String.eqb (pr_HeadRef pr) "" then
      fail (NotFound "pull request #%d was not found in %s/%s"
              [AInt prNumber; AStr (sfd_Owner svc); AStr (sfd_Repo svc)])
    else mret (pr_HeadRef pr, pr_HTMLURL pr)
  else mret (branch, "").

Definition enqueuePreview (serviceID serverID branch : string) (prNumber portOverride : Z)
    (password passwordUser actor : string) : M Deployment :=
  svc ← found "create preview" (serviceForDeploy serviceID) (NotFound "service %s not found" [AStr serviceID]);
  if negb (String.eqb (sfd_SourceKind svc) SourceGit) then
    fail (InvalidInput "previews are only supported for git services" [])
  else if negb (buildableAccess (sfd_SourceAccess svc)) then
    fail (InvalidInput "this git source can't be previewed — connect a public repo or install the GitHub App for private repos" [])
  else
    ref ← resolve_ref svc branch prNumber;
    let '(gitRef, prURL) := ref in
    let port := port_override (sfd_ContainerPort svc) portOverride in
    let routeKey := previewRouteKey serviceID prNumber gitRef in
    auth ← hashPreviewPassword password passwordUser;
    let '(authUser, authHash) := auth in
    on_err (λ e, mapErr e "create preview")
      (within_tx
        (created ← InsertPreviewDeployment
           {| np_ServiceID := serviceID; np_RouteKey := routeKey;
              np_EnvironmentID := sfd_EnvironmentID svc; np_ProjectID := sfd_ProjectID svc;
              np_WorkspaceID := sfd_WorkspaceID svc; np_ServerID := serverID;
              np_ContainerPort := port; np_SourceAccess := sfd_SourceAccess svc;
              np_CloneURL := cloneURL (sfd_Owner svc) (sfd_Repo svc); np_GitRef := gitRef;
              np_PRNumber := prNumber; np_PRURL := prURL; np_AuthUser := authUser;
              np_AuthHash := authHash |};
         _ ← audit_Record "deployment.preview" "deployment" (d_ID created) (sfd_WorkspaceID svc) actor;
         mret created)).

Definition CreatePreview (caller : Principal) (i : CreatePreviewInput) : M Deployment :=
  _ ← valid_target (cp_ServiceID i) (cp_ServerID i) (cp_ContainerPort i);
  let branch := TrimSpace (cp_Branch i) in
  if Bool.eqb (String.eqb branch "") (cp_PRNumber i <=? 0) then
    fail (InvalidInput "provide exactly one of a branch or a pull request number" [])
  else
    _ ← authorize_target "create preview" caller (cp_ServiceID i) (cp_ServerID i);
    enqueuePreview (cp_ServiceID i) (cp_ServerID i) branch (cp_PRNumber i) (cp_ContainerPort i)
      (cp_Password i) (cp_PasswordUser i) (p_UserID caller).

(** ** Rollback *)
Definition insertRollback (target : Deployment) : M Deployment :=
  if String.eqb (d_SourceKind target) SourceGit then
    let ref := if String.eqb (d_CommitSha target) "" then d_GitRef target else d_CommitSha target in
    InsertDeploymentFromGit
      {| ng_ServiceID := d_ServiceID target; ng_EnvironmentID := d_EnvironmentID target;
         ng_ProjectID := d_ProjectID target; ng_WorkspaceID := d_WorkspaceID target;
         ng_ServerID := d_ServerID target; ng_ContainerPort := d_ContainerPort target;
         ng_SourceAccess := d_SourceAccess target; ng_CloneURL := d_CloneURL target;
         ng_GitRef := ref; ng_RolledBackFrom := d_ID target |}
  else
    imageRef ← of_sum (validateImageRef (d_ImageRef target));
    InsertDeployment
      {| nd_ServiceID := d_ServiceID target; nd_EnvironmentID := d_EnvironmentID target;
         nd_ProjectID := d_ProjectID target; nd_WorkspaceID := d_WorkspaceID target;
         nd_ServerID := d_ServerID target; nd_ImageRef := imageRef;
         nd_ContainerPort := d_ContainerPort target; nd_RolledBackFrom := d_ID target |}.

Definition RollbackToDeployment (caller : Principal) (targetDeploymentID : string) : M Deployment :=
  _ ← require (id_Parse targetDeploymentID) (InvalidInput "a valid deployment id is required" []);
  target ← found "rollback deployment" (GetDeployment targetDeploymentID)
             (NotFound "deployment %s not found" [AStr targetDeploymentID]);
  _ ← Authorize caller ActionDeploymentCreate (deployment_resource (d_WorkspaceID target) "");
  if negb (String.eqb (d_Status target) StatusRunning) && negb (String.eqb (d_Status target) StatusSuperseded)
  then fail (InvalidInput "can only roll back to a previously healthy deployment; %s is %q"
               [AStr (d_ID target); AStr (d_Status target)])
  else
    on_err (λ e, mapErr e "rollback deployment")
      (within_tx
        (created ← insertRollback target;
         _ ← audit_Record "deployment.rollback" "deployment" (d_ID created) (d_WorkspaceID target) (p_UserID caller);
         mret created)).

(** Runs in the transaction of the services module. *)
Definition EnqueueFirstDeployment (serviceID serverID : string) : M string :=
  svc ← serviceForDeploy serviceID;
  match svc with
  | None => fail (NotFound "service %s not found" [AStr serviceID])
  | Some svc =>
      dep ← buildAndInsert serviceID svc serverID 0 "";
      mret (d_ID dep)
  end.

(** ** Reads *)
Definition Get (caller : Principal) (deploymentID : string) : M Deployment :=
  _ ← require (id_Parse deploymentID) (InvalidInput "a valid deployment id is required" []);
  dep ← found "get deployment" (GetDeployment deploymentID)
          (NotFound "deployment %s not found" [AStr deploymentID]);
  _ ← Authorize caller ActionDeploymentRead (deployment_resource (d_WorkspaceID dep) (d_ID dep));
  mret dep.

Definition ListByService (caller : Principal) (serviceID : string) : M (list Deployment) :=
  _ ← require (id_Parse serviceID) (InvalidInput "a valid service_id is required" []);
  ws ← found "list deployments" (WorkspaceAndProjectForService serviceID)
         (NotFound "service %s not found" [AStr serviceID]);
  _ ← Authorize caller ActionDeploymentRead (deployment_resource (fst ws) "");
  store_ListByService serviceID.

Definition ListByEnvironment (caller : Principal) (environmentID : string) : M (list Deployment) :=
  _ ← require (id_Parse environmentID) (InvalidInput "a valid environment_id is required" []);
  ws ← found "list deployments" (WorkspaceAndProjectForEnvironment environmentID)
         (NotFound "environment %s not found" [AStr environmentID]);
  _ ← Authorize caller ActionDeploymentRead (deployment_resource (fst ws) "");
  store_ListByEnvironment environmentID.

Definition ListByProject (caller : Principal) (projectID : string) : M (list Deployment) :=
  _ ← require (id_Parse projectID) (InvalidInput "a valid project_id is required" []);
  ws ← found "list deployments" (WorkspaceForProject projectID)
         (NotFound "project %s not found" [AStr projectID]);
  _ ← Authorize caller ActionDeploymentRead (deployment_resource ws "");
  store_ListByProject projectID.

Definition ListByWorkspace (caller : Principal) (workspaceID : string) : M (list Deployment) :=
  _ ← require (negb (String.eqb workspaceID "")) (InvalidInput "workspace_id is required" []);
  _ ← Authorize caller ActionDeploymentRead (deployment_resource workspaceID "");
  store_ListByWorkspace workspaceID.

Definition ListEvents (caller : Principal) (deploymentID : string) (afterSeq : Z) : M (list Event) :=
  _ ← require (id_Parse deploymentID) (InvalidInput "a valid deployment id is required" []);
  dep ← found "list deployment events" (GetDeployment deploymentID)
          (NotFound "deployment %s not found" [AStr deploymentID]);
  _ ← Authorize caller ActionDeploymentRead (deployment_resource (d_WorkspaceID dep) (d_ID dep));
  store_ListEvents deploymentID afterSeq.

(** ** The agent gateway *)
Definition resolveAgent (agentID credential : string) : M (string * string) :=
  r ← wrap "authenticate agent" (AgentServerByCredential (hashToken credential));
  match r with
  | None => fail (PermissionDenied "unknown agent credential" [])
  | Some (gotAgentID, serverID) =>
      if negb (String.eqb agentID "") && negb (String.eqb agentID gotAgentID)
      then fail (PermissionDenied "credential does not belong to agent %s" [AStr agentID])
      else mret (gotAgentID, serverID)
  end.

(** The two checks every agent handler opens with; the server it may act on. *)
Definition agent_server (agentID credential : string) : M string :=
  r ← resolveAgent agentID credential;
  mret (snd r).
Definition need_credential (credential : string) : M unit :=
  require (negb (String.eqb credential "")) (InvalidInput "a credential is required" []).

Definition status_update (deploymentID status message : string) : StatusUpdate :=
  mk_StatusUpdate deploymentID status message 0 "" "" "" "".

(** Best effort, in its own transaction. *)
Definition failDeployment (deploymentID message : string) : M unit :=
  _ ← try (within_tx
        (_ ← UpdateStatus (status_update deploymentID StatusFailed message);
         AppendEvent (mk_NewEvent deploymentID KindStatus StatusFailed message "")));
  mret tt.

(** The job of a claimed deployment, before the git fields. *)
Definition claimed_job (claimed : Deployment) (env : gmap string string) (svc : ServiceForDeploy) : Claimed :=
  let isPreview := String.eqb (d_Kind claimed) KindPreview in
  let appLabel := routeKeyOr (d_RouteKey claimed) (d_ServiceID claimed) in
  {| cl_HasWork := true; cl_DeploymentID := d_ID claimed; cl_ImageRef := d_ImageRef claimed;
     cl_ContainerPort := d_ContainerPort claimed; cl_Env := env; cl_AppLabel := appLabel;
     cl_SourceKind := d_SourceKind claimed; cl_CloneURL := ""; cl_GitRef := "";
     cl_BuiltImageTag := ""; cl_GitCredential := ""; cl_Visibility := sfd_Visibility svc;
     cl_NetworkName := if isPreview then previewNetworkName appLabel
                       else environmentNetworkName (d_EnvironmentID claimed);
     cl_NetworkAlias := sfd_Slug svc; cl_BasicAuthUser := d_AuthUser claimed;
     cl_BasicAuthHash := d_AuthHash claimed;
     cl_RouteHost := if isPreview
                     then previewRouteHost (sfd_Slug svc) (d_PRNumber claimed) (d_GitRef claimed) (d_ServiceID claimed)
                     else "" |}.
Definition with_git (claimed : Deployment) (credential : string) (c : Claimed) : Claimed :=
  {| cl_HasWork := cl_HasWork c; cl_DeploymentID := cl_DeploymentID c;
     cl_ImageRef := cl_ImageRef c; cl_ContainerPort := cl_ContainerPort c; cl_Env := cl_Env c;
     cl_AppLabel := cl_AppLabel c; cl_SourceKind := cl_SourceKind c;
     cl_CloneURL := d_CloneURL claimed; cl_GitRef := d_GitRef claimed;
     cl_BuiltImageTag := builtImageTag (d_ID claimed); cl_GitCredential := credential;
     cl_Visibility := cl_Visibility c; cl_NetworkName := cl_NetworkName c;
     cl_NetworkAlias := cl_NetworkAlias c; cl_BasicAuthUser := cl_BasicAuthUser c;
     cl_BasicAuthHash := cl_BasicAuthHash c; cl_RouteHost := cl_RouteHost c |}.

(** The claim: one transaction. *)
Definition claim_tx (serverID : string) : M (option Deployment) :=
  within_tx
    (dep ← ClaimNextForServer serverID;
     match dep with
     | None => mret None
     | Some dep =>
         _ ← AppendEvent (mk_NewEvent (d_ID dep) KindStatus StatusAssigned "claimed by agent" "");
         mret (Some dep)
     end).

(** What happens after the claim committed. *)
Definition dispatch (claimed : Deployment) : M Claimed :=
  let isPreview := String.eqb (d_Kind claimed) KindPreview in
  env ← wrap "poll deployment" (configEnvForService (d_ServiceID claimed) (negb isPreview));
  svc ← found "poll deployment" (serviceForDeploy (d_ServiceID claimed))
          (Internalf (ErrOther "service for claimed deployment not found") "poll deployment" []);
  let out := claimed_job claimed env svc in
  if String.eqb (d_SourceKind claimed) SourceGit then
    if String.eqb (sfd_SourceAccess svc) "app" then
      token ← try (port (λ n, installation_token n (sfd_ConnectionID svc)));
      match token with
      | inl _ =>
          _ ← failDeployment (d_ID claimed)
                "could not obtain a token to clone this private repo — check the integration, then redeploy";
          mret no_work
      | inr None =>
          _ ← failDeployment (d_ID claimed)
                "this service builds a private repo but its integration is no longer connected — reconnect it, then redeploy";
          mret no_work
      | inr (Some token) => mret (with_git claimed token out)
      end
    else mret (with_git claimed "" out)
  else mret out.

Definition PollDeployment (i : PollInput) : M Claimed :=
  _ ← need_credential (pi_Credential i);
  serverID ← agent_server (pi_AgentID i) (pi_Credential i);
  claimed ← wrap "poll deployment" (claim_tx serverID);
  match claimed with
  | None => mret no_work
  | Some claimed => dispatch claimed
  end.

Definition report_update (i : ReportInput) : StatusUpdate :=
  {| su_DeploymentID := ri_DeploymentID i; su_Status := ri_Status i; su_Message := ri_Message i;
     su_HostPort := ri_HostPort i; su_ContainerID := ri_ContainerID i;
     su_CommitSha := ri_CommitSha i; su_BuiltImageRef := ri_BuiltImageRef i;
     su_RouteURL := ri_RouteURL i |}.

Definition report_tx (i : ReportInput) (dep : Deployment) (serverID : string) : M unit :=
  within_tx
    (_ ← UpdateStatus (report_update i);
     _ ← AppendEvent (mk_NewEvent (ri_DeploymentID i) KindStatus (ri_Status i) (ri_Message i) "");
     _ ← for_each (ri_LogLines i) (λ line,
           if String.eqb (TrimSpace line) "" then mret tt
           else AppendEvent (mk_NewEvent (ri_DeploymentID i) KindLog "" line (ri_LogStream i)));
     _ ← (if negb (String.eqb (ri_RouteURL i) "") && negb (String.eqb (d_Kind dep) KindPreview)
          then UpdateServiceRouteURL (d_ServiceID dep) (ri_RouteURL i) else mret tt);
     if String.eqb (ri_Status i) StatusRunning && (0 <? ri_HostPort i)
     then SupersedePreviousRunning (routeKeyOr (d_RouteKey dep) (d_ServiceID dep)) serverID (ri_DeploymentID i)
     else mret tt).

Definition ReportDeployment (i : ReportInput) : M unit :=
  _ ← need_credential (ri_Credential i);
  _ ← require (id_Parse (ri_DeploymentID i)) (InvalidInput "a valid deployment_id is required" []);
  _ ← require (isAgentReportableStatus (ri_Status i))
        (InvalidInput "status %q is not a valid agent-reported status" [AStr (ri_Status i)]);
  serverID ← agent_server (ri_AgentID i) (ri_Credential i);
  dep ← found "report deployment" (GetDeployment (ri_DeploymentID i))
          (NotFound "deployment %s not found" [AStr (ri_DeploymentID i)]);
  _ ← require (String.eqb (d_ServerID dep) serverID)
        (PermissionDenied "this agent does not own deployment %s" [AStr (ri_DeploymentID i)]);
  wrap "report deployment" (report_tx i dep serverID).

(** ** Custom-domain route sync *)

(** A reported route or result counts when its deployment is on the agent's server
    and belongs to the named service. *)
Definition owned_route (dep : option Deployment) (serverID serviceID : string) : bool :=
  match dep with
  | Some dep => String.eqb (d_ServerID dep) serverID && String.eqb (d_ServiceID dep) serviceID
  | None => false
  end.

(** [serviceSet[id] = true]; the map is the list of its keys. *)
Definition set_add (id : string) (l : list string) : list string :=
  if in_list l id then l else l ++ [id].

Definition sync_route (serverID : string) (serviceSet : list string) (r : ManagedRoute) : M (list string) :=
  if (mr_HostPort r <=? 0) || negb (id_Parse (mr_ServiceID r)) || negb (id_Parse (mr_DeploymentID r))
  then mret serviceSet
  else
    dep ← wrap "sync routes" (GetDeployment (mr_DeploymentID r));
    if owned_route dep serverID (mr_ServiceID r) then mret (set_add (mr_ServiceID r) serviceSet)
    else mret serviceSet.

(** [domainsByService[id]]: the zero value when the key is absent. *)
Definition hostnames_of (m : list (string * list string)) (id : string) : list string :=
  match List.find (λ p, String.eqb (fst p) id) m with Some p => snd p | None => [] end.

Definition overrides (m : list (string * list string)) (serviceIDs : list string) : list RouteOverride :=
  omap (λ id, match hostnames_of m id with
              | [] => None
              | hs => Some (mk_RouteOverride id hs)
              end) serviceIDs.

Definition SyncRoutes (i : SyncRoutesInput) : M (list RouteOverride) :=
  _ ← need_credential (sri_Credential i);
  serverID ← agent_server (sri_AgentID i) (sri_Credential i);
  serviceSet ← fold_each (sri_Routes i) (sync_route serverID) [];
  serviceIDs ← range_keys serviceSet;
  domainsByService ← wrap "sync routes" (VerifiedDomainsForServices serviceIDs);
  mret (overrides domainsByService serviceIDs).

Definition route_sync_status (r : RouteSyncResult) : string * string :=
  let message := TrimSpace (rs_Message r) in
  if rs_OK r then
    ("active", if String.eqb message "" then "Domain is routed to this service." else message)
  else
    ("failed", if String.eqb message "" then
       "Caddy could not activate this domain. Check the deployment route logs and try again." else message).

Definition report_route (serverID : string) (r : RouteSyncResult) : M unit :=
  if match rs_Hostnames r with [] => true | _ => false end ||
     negb (id_Parse (rs_ServiceID r)) || negb (id_Parse (rs_DeploymentID r))
  then mret tt
  else
    dep ← GetDeployment (rs_DeploymentID r);
    if owned_route dep serverID (rs_ServiceID r) then
      MarkDomainsRouteSync (rs_ServiceID r) (rs_Hostnames r)
        (fst (route_sync_status r)) (snd (route_sync_status r))
    else mret tt.

Definition ReportRouteSync (i : ReportRouteSyncInput) : M unit :=
  _ ← need_credential (rri_Credential i);
  serverID ← agent_server (rri_AgentID i) (rri_Credential i);
  wrap "report route sync" (within_tx (for_each (rri_Results i) (report_route serverID))).

(** ** Preview teardown (teardown.go) *)
Definition new_teardown (dep : Deployment) (routeKey : string) : NewTeardownJob :=
  {| nt_DeploymentID := d_ID dep; nt_ServiceID := d_ServiceID dep; nt_RouteKey := routeKey;
     nt_EnvironmentID := d_EnvironmentID dep; nt_ProjectID := d_ProjectID dep;
     nt_WorkspaceID := d_WorkspaceID dep; nt_ServerID := d_ServerID dep |}.

(** The transaction of the three teardown paths. *)
Definition teardown_tx (dep : Deployment) (routeKey action actor : string) : M TeardownJob :=
  within_tx
    (created ← InsertTeardownJob (new_teardown dep routeKey);
     _ ← audit_Record action "deployment" (d_ID dep) (d_WorkspaceID dep) actor;
     mret created).

Definition TeardownPreview (caller : Principal) (deploymentID : string) : M TeardownJob :=
  _ ← require (id_Parse deploymentID) (InvalidInput "a valid deployment id is required" []);
  dep ← found "teardown preview" (GetDeployment deploymentID)
          (NotFound "deployment %s not found" [AStr deploymentID]);
  _ ← require (String.eqb (d_Kind dep) KindPreview)
        (InvalidInput "only a preview deployment can be torn down" []);
  _ ← Authorize caller ActionDeploymentCreate (deployment_resource (d_WorkspaceID dep) (d_ID dep));
  on_err (λ e, mapErr e "teardown preview")
    (teardown_tx dep (routeKeyOr (d_RouteKey dep) (d_ServiceID dep)) "deployment.teardown" (p_UserID caller)).

Definition ListTeardownsByService (caller : Principal) (serviceID : string) : M (list TeardownJob) :=
  _ ← require (id_Parse serviceID) (InvalidInput "a valid service_id is required" []);
  ws ← found "list teardowns" (WorkspaceAndProjectForService serviceID)
         (NotFound "service %s not found" [AStr serviceID]);
  _ ← Authorize caller ActionDeploymentRead (deployment_resource (fst ws) "");
  store_ListTeardownsByService serviceID.

Definition PollTeardownJob (i : PollInput) : M ClaimedTeardown :=
  _ ← need_credential (pi_Credential i);
  serverID ← agent_server (pi_AgentID i) (pi_Credential i);
  claimed ← wrap "poll teardown job" (within_tx (ClaimNextTeardownForServer serverID));
  match claimed with
  | None => mret no_teardown
  | Some t => mret (mk_ClaimedTeardown true (t_ID t) (t_RouteKey t) (previewNetworkName (t_RouteKey t)))
  end.

Definition ReportTeardownJob (i : ReportTeardownInput) : M unit :=
  _ ← need_credential (rt_Credential i);
  _ ← require (id_Parse (rt_TeardownID i)) (InvalidInput "a valid teardown id is required" []);
  _ ← require (isAgentReportableTeardownStatus (rt_Status i))
        (InvalidInput "status %q is not a valid agent-reported teardown status" [AStr (rt_Status i)]);
  serverID ← agent_server (rt_AgentID i) (rt_Credential i);
  t ← found "report teardown job" (GetTeardownJob (rt_TeardownID i))
        (NotFound "teardown %s not found" [AStr (rt_TeardownID i)]);
  _ ← require (String.eqb (t_ServerID t) serverID)
        (PermissionDenied "this agent does not own teardown %s" [AStr (rt_TeardownID i)]);
  wrap "report teardown job"
    (within_tx
      (_ ← UpdateTeardownStatus (mk_TeardownStatusUpdate (rt_TeardownID i) (rt_Status i) (rt_Message i) (rt_Error i));
       if String.eqb (rt_Status i) TeardownStatusSucceeded
       then MarkPreviewTornDown (t_RouteKey t) (t_ServerID t)
       else mret tt)).

(** ** Webhook previews (webhook.go) *)
Definition CreatePreviewForPR (serviceID : string) (prNumber : Z) : M string :=
  _ ← require (id_Parse serviceID) (InvalidInput "a valid service_id is required" []);
  _ ← require (0 <? prNumber) (InvalidInput "a valid pull request number is required" []);
  serverID ← found "create pr preview" (LatestServerForService serviceID)
    (InvalidInput "service %s has not deployed yet, so it has no server to preview on" [AStr serviceID]);
  dep ← enqueuePreview serviceID serverID "" prNumber 0 "" "" webhookActor;
  mret (d_ID dep).

Definition TeardownPreviewForPR (serviceID : string) (prNumber : Z) : M unit :=
  _ ← require (id_Parse serviceID) (InvalidInput "a valid service_id is required" []);
  _ ← require (0 <? prNumber) (InvalidInput "a valid pull request number is required" []);
  let routeKey := previewRouteKey serviceID prNumber "" in
  dep ← wrap "teardown pr preview" (LatestActivePreviewByRouteKey serviceID routeKey);
  match dep with
  | None => mret tt
  | Some dep =>
      _ ← on_err (λ e, mapErr e "teardown pr preview")
            (teardown_tx dep routeKey "deployment.teardown" webhookActor);
      mret tt
  end.

(** ** The expiry sweep (expiry.go) *)
Definition expire_one (enqueued : Z) (dep : Deployment) : M Z :=
  r ← try (teardown_tx dep (routeKeyOr (d_RouteKey dep) (d_ServiceID dep)) "deployment.expire" expiryActor);
  match r with
  | inl _ => mret enqueued
  | inr _ => mret (enqueued + 1)
  end.

Definition ExpirePreviews (ttl : Z) : M Z :=
  if ttl <=? 0 then mret 0
  else
    now ← time_now;
    expired ← wrap "expire previews" (ListExpiredPreviews (now - ttl));
    fold_each expired expire_one 0.
End Service.
