(* ===== verification/DeploySpec.v ===== *)
(** * DeploySpec: what a store call may have done, and the queue of jobs

    Weakest-precondition rules of the helpers every handler is made of: authenticating
    an agent, authorizing a target, inserting a row, recording an event.  The property
    files apply them.

    The queue every agent job goes through.  Deployments, teardowns, backups and restores are queued the same way: rows of a
    table, per server, claimed oldest first by one UPDATE that marks the row assigned.
    The class [Job] is what such a table promises; the lemmas hold for every instance. *)
From S2P Require Import Prelude.
From S2P Require Import GoStrings.
From S2P Require Import Problem.
From S2P Require Import Schema.
From S2P Require Import Platform.
From S2P Require Import Authz.
From S2P Require Import DeployNames.
From S2P Require Import DeployStore.
From S2P Require Import Deployments.

(** ** Relations between database states *)

(** The agent whose credential was presented, and its server. *)
Definition authenticated (agentID credential serverID : string) (d : DB) : Prop :=
  ∃ a, a ∈ agents d ∧ ag_CredentialHash a = hashToken credential ∧ ag_ServerID a = serverID ∧
       (agentID = "" ∨ agentID = ag_ID a).

(** One deployment row more, accepted by the constraints. *)
Definition inserted (row : db_Deployment) (d d' : DB) : Prop :=
  deployment_constraints row d = true ∧ d' = set_deployments (deployments d ++ [row]) d.

(** What every fresh row has in common. *)
Definition fresh_row (sid srv : string) (svc : ServiceForDeploy) (row : db_Deployment) : Prop :=
  dp_ServiceID row = sid ∧ dp_ServerID row = srv ∧ dp_EnvironmentID row = sfd_EnvironmentID svc ∧
  dp_ProjectID row = sfd_ProjectID svc ∧ dp_WorkspaceID row = sfd_WorkspaceID svc ∧
  dp_Status row = StatusQueued ∧ dp_HostPort row = 0 ∧ dp_ContainerID row = "" ∧
  dp_CommitSha row = "" ∧ dp_BuiltImageRef row = "" ∧ dp_RouteUrl row = "" ∧
  dp_CreatedAt row = dp_UpdatedAt row.

(** The ref a production build uses: the override, else the branch, else the default. *)
Definition build_ref (svc : ServiceForDeploy) (gitRef : string) : string :=
  if decide (TrimSpace gitRef ≠ "") then TrimSpace gitRef
  else if decide (sfd_Branch svc ≠ "") then sfd_Branch svc else sfd_DefaultBranch svc.

(** The artifact of a production row: a repository at a ref, or an image. *)
Definition git_artifact (svc : ServiceForDeploy) (ref : string) (row : db_Deployment) : Prop :=
  dp_SourceKind row = SourceGit ∧ buildableAccess (sfd_SourceAccess svc) = true ∧
  dp_SourceAccess row = sfd_SourceAccess svc ∧
  dp_CloneUrl row = cloneURL (sfd_Owner svc) (sfd_Repo svc) ∧ dp_GitRef row = ref ∧ dp_ImageRef row = "".
Definition image_artifact (svc : ServiceForDeploy) (row : db_Deployment) : Prop :=
  dp_SourceKind row = SourceImage ∧ validateImageRef (sfd_ImageRef svc) = inr (dp_ImageRef row) ∧
  1 ≤ dp_ContainerPort row ≤ maxPort ∧ dp_CloneUrl row = "" ∧ dp_GitRef row = "".

(** The columns a production row of service [sid] always has. *)
Definition production_cols (row : db_Deployment) : Prop :=
  dp_Kind row = KindProduction ∧ dp_RouteKey row = dp_ServiceID row ∧ dp_PrNumber row = 0 ∧
  dp_PrUrl row = "" ∧ dp_PreviewAuthUser row = "" ∧ dp_PreviewAuthHash row = "".

Definition production_row (sid srv : string) (svc : ServiceForDeploy) (portOverride : Z)
    (gitRef : string) (row : db_Deployment) : Prop :=
  fresh_row sid srv svc row ∧ production_cols row ∧ dp_RolledBackFrom row = None ∧
  dp_ContainerPort row = port_override (sfd_ContainerPort svc) portOverride ∧
  (if String.eqb (sfd_SourceKind svc) SourceGit then git_artifact svc (build_ref svc gitRef) row
   else image_artifact svc row).

Definition service_row (sid : string) (svc : ServiceForDeploy) (d : DB) : Prop :=
  ∃ s, lookup_by sv_ID sid (services d) = Some s ∧ svc = serviceForDeployFromRow s.

(** The guard of the dashboard's create handlers. *)
Definition target_ok `{A : Authorizer} (caller : Principal) (sid srv ws : string) (d : DB) : Prop :=
  (∃ s, lookup_by sv_ID sid (services d) = Some s ∧ sv_WorkspaceID s = ws) ∧
  (∃ s, lookup_by srv_ID srv (servers d) = Some s ∧ srv_WorkspaceID s = ws) ∧
  allows caller ActionDeploymentCreate (deployment_resource ws "") d.

Lemma deploymentFromRow_id row : d_ID (deploymentFromRow row) = dp_ID row.
Proof. done. Qed.

(** ** Rules *)
Section Rules.
Context {E : Env} {A : Authorizer}.
Implicit Types (w : World).

Lemma wp_need_credential cred (Q : go_error + unit → World → Prop) w :
  (∀ e, Q (inl e) w) → (cred ≠ "" → Q (inr tt) w) → wp (need_credential cred) Q w.
Proof.
  intros He Ha. unfold need_credential. wp_step; [|apply He]. apply Ha. by propify.
Qed.

Lemma wp_agent_server aid cred (Q : go_error + string → World → Prop) w :
  (∀ e w', w_db w' = w_db w → Q (inl e) w') →
  (∀ srv w', w_db w' = w_db w → authenticated aid cred srv (w_db w) → Q (inr srv) w') →
  wp (agent_server aid cred) Q w.
Proof.
  intros He Ha. unfold agent_server, resolveAgent, AgentServerByCredential.
  wp_steps; try (by apply He). apply Ha; [done|].
  unfold sql_GetAgentServerByCredential in *.
  destruct (List.find _ _) as [a|] eqn:Hf in Heqo; simplify_eq/=.
  apply find_some in Hf as [Hin Hc]. propify. exists a.
  split; [by apply list_elem_of_In|]. split; [done|]. split; [done|].
  apply andb_false_iff in Heqb as [Hb|Hb]; propify; auto.
Qed.

Lemma wp_valid_target sid srv p (Q : go_error + unit → World → Prop) w :
  (∀ e, Q (inl e) w) →
  (id_Parse sid = true → id_Parse srv = true → 0 ≤ p ≤ maxPort → Q (inr tt) w) →
  wp (valid_target sid srv p) Q w.
Proof.
  intros He Ha. unfold valid_target. wp_steps; try apply He. propify. by apply Ha.
Qed.

Lemma wp_authorize_target op c sid srv (Q : go_error + string → World → Prop) w :
  (∀ e w', w_db w' = w_db w → Q (inl e) w') →
  (∀ ws w', w_db w' = w_db w → target_ok c sid srv ws (w_db w) → Q (inr ws) w') →
  wp (authorize_target op c sid srv) Q w.
Proof.
  intros He Ha. unfold authorize_target, WorkspaceAndProjectForService, WorkspaceForServer.
  do 3 wp_step; [by apply He|].
  destruct (sql_GetServiceWorkspaceAndProject sid (w_db w)) as [[ws pj]|] eqn:Hs; [|by apply He].
  wp_step. apply wp_Authorize; [intros; apply He; congruence|].
  intros w2 Hw2 Hal. wp_steps; try (apply He; congruence).
  apply Ha; [congruence|].
  unfold sql_GetServiceWorkspaceAndProject, sql_GetServerWorkspace in *.
  destruct (lookup_by sv_ID sid _) as [sv|] eqn:Hls; simplify_eq/=.
  destruct (lookup_by srv_ID srv _) as [v|] eqn:Hlv; simplify_eq/=. propify.
  split; [eauto|]. split; [|by rewrite <- H].
  exists v. split; [congruence|done].
Qed.

Lemma wp_serviceForDeploy sid (Q : go_error + option ServiceForDeploy → World → Prop) w :
  (∀ e w', w_db w' = w_db w → Q (inl e) w') →
  (∀ w', w_db w' = w_db w → Q (inr None) w') →
  (∀ svc w', w_db w' = w_db w → service_row sid svc (w_db w) → Q (inr (Some svc)) w') →
  wp (serviceForDeploy sid) Q w.
Proof.
  intros He Hn Ha. unfold serviceForDeploy. wp_step; [by apply He|].
  unfold sql_GetServiceForDeploy. destruct (lookup_by _ _ _) as [s|] eqn:Hl; simpl; [|by apply Hn].
  apply Ha; [done|]. by exists s.
Qed.

Lemma insert_deployment_inserted row d r' d' :
  insert_deployment row d = inr (r', d') → r' = row ∧ inserted row d d'.
Proof. unfold insert_deployment. case_match; [|done]. by intros [= <- <-]. Qed.

(** An [Insert*] method of the store. *)
Lemma wp_insert (f : Stamp → DB → go_error + (db_Deployment * DB)) (P : db_Deployment → Prop)
    (Q : go_error + Deployment → World → Prop) w :
  (∀ st, ∃ row, P row ∧ f st (w_db w) = insert_deployment row (w_db w)) →
  (∀ e w', w_db w' = w_db w → Q (inl e) w') →
  (∀ row w', inserted row (w_db w) (w_db w') → P row → Q (inr (deploymentFromRow row)) w') →
  wp (row ← db_exec f; mret (deploymentFromRow row)) Q w.
Proof.
  intros Hf He Ha. wp_steps; [by apply He|].
  destruct (Hf st) as (row & Hrow & Heq). rewrite Heq in *.
  apply insert_deployment_inserted in H as [-> ?]. by apply Ha.
Qed.

Lemma wp_buildAndInsert sid svc srv p ref (Q : go_error + Deployment → World → Prop) w :
  (∀ e w', w_db w' = w_db w → Q (inl e) w') →
  (∀ row w', inserted row (w_db w) (w_db w') → production_row sid srv svc p ref row →
     Q (inr (deploymentFromRow row)) w') →
  wp (buildAndInsert sid svc srv p ref) Q w.
Proof.
  intros He Ha. unfold buildAndInsert.
  destruct (String.eqb (sfd_SourceKind svc) SourceGit) eqn:Hk.
  - destruct (buildableAccess (sfd_SourceAccess svc)) eqn:Hb; simpl; [|by apply wp_fail, He].
    apply (wp_insert _ (production_row sid srv svc p ref)); [|done|by eauto].
    intros st. eexists. split; [|reflexivity]. simpl. unfold production_row, fresh_row, production_cols, git_artifact.
    rewrite Hk. simpl. repeat split; try done. unfold build_ref.
    destruct (String.eqb_spec (TrimSpace ref) ""); destruct (String.eqb_spec (sfd_Branch svc) "");
      repeat case_decide; congruence.
  - wp_step. wp_step. destruct (validateImageRef (sfd_ImageRef svc)) as [e|img] eqn:Hv; [by apply He|].
    wp_step; [by apply wp_fail, He|].
    assert (1 ≤ port_override (sfd_ContainerPort svc) p ≤ maxPort) as [Hp1 Hp2] by (clear Hk; propify; lia).
    apply (wp_insert _ (production_row sid srv svc p ref)); [|done|by eauto].
    intros st. eexists. split; [|reflexivity]. simpl. unfold production_row, fresh_row, production_cols, image_artifact.
    rewrite Hk. simpl. repeat split; done.
Qed.

Lemma wp_AppendEvent n (Q : go_error + unit → World → Prop) w :
  (∀ e w', w_db w' = w_db w → Q (inl e) w') →
  (∀ row w', w_db w' = set_deployment_events (deployment_events (w_db w) ++ [row]) (w_db w) →
     has_key dp_ID (ne_DeploymentID n) (deployments (w_db w)) = true →
     ev_DeploymentID row = ne_DeploymentID n → ev_Kind row = ne_Kind n →
     ev_Status row = ne_Status n → ev_Message row = ne_Message n → ev_Stream row = ne_Stream n →
     Q (inr tt) w') →
  wp (AppendEvent n) Q w.
Proof.
  intros He Ha. unfold AppendEvent. wp_steps; [by apply He|].
  unfold sql_AppendDeploymentEvent in H. case_match eqn:Hc; [|done]. injection H as <- Hw.
  unfold event_constraints in Hc. propify. by eapply Ha.
Qed.
End Rules.

Class Job (R : Type) := {
  job_id : R → string;
  job_server : R → string;
  job_status : R → string;
  job_created : R → Z;
  job_assign : Z → R → R;                   (* the claim, at a time *)
  job_assign_id : ∀ now r, job_id (job_assign now r) = job_id r;
  job_assign_status : ∀ now r, job_status (job_assign now r) = "assigned";
}.

Section Queue.
Context {R : Type} `{J : Job R}.
Implicit Types (rows : list R) (row x : R).

Definition queued (srv : string) (x : R) : bool :=
  String.eqb (job_server x) srv && String.eqb (job_status x) "queued".
Definition queue_of (srv : string) (rows : list R) : list R := order_by job_created (where_ (queued srv) rows).
(** The table after the claim of [row]. *)
Definition claim_row (row : R) (now : Z) (rows : list R) : list R :=
  update_where (λ x, String.eqb (job_id x) (job_id row)) (job_assign now) rows.

Lemma job_unique rows row x :
  NoDup (map job_id rows) → row ∈ rows → x ∈ rows → job_id x = job_id row → x = row.
Proof.
  intros Hnd Hr Hx Hid. pose proof (lookup_by_unique job_id _ _ Hnd Hr) as L1.
  pose proof (lookup_by_unique job_id _ _ Hnd Hx) as L2. congruence.
Qed.

Lemma elem_of_queue srv rows x : x ∈ queue_of srv rows ↔ x ∈ rows ∧ job_server x = srv ∧ job_status x = "queued".
Proof.
  unfold queue_of. rewrite elem_of_order_by, elem_of_where. unfold queued.
  rewrite andb_true_iff, !String.eqb_eq. done.
Qed.

(** The head is the oldest queued row of the server. *)
Lemma queue_head srv rows row rest :
  queue_of srv rows = row :: rest →
  row ∈ rows ∧ job_server row = srv ∧ job_status row = "queued" ∧
  ∀ x, x ∈ rows → job_server x = srv → job_status x = "queued" → job_created row ≤ job_created x.
Proof.
  intros Hq. assert (row ∈ queue_of srv rows) as Hin by (rewrite Hq; left).
  apply elem_of_queue in Hin as (Hr & Hs & Hst). repeat split; try done.
  intros x Hx Hxs Hxst. eapply order_by_head; [exact Hq|]. apply elem_of_where. split; [done|].
  unfold queued. by rewrite Hxs, Hxst, !String.eqb_refl.
Qed.

(** A claim takes the head of its server's queue and leaves the other queues alone. *)
Lemma queue_of_claimed srv row rest now rows :
  NoDup (map job_id rows) → queue_of srv rows = row :: rest →
  queue_of srv (claim_row row now rows) = rest ∧
  ∀ srv', srv' ≠ srv → queue_of srv' (claim_row row now rows) = queue_of srv' rows.
Proof.
  intros Hnd Hq. destruct (queue_head _ _ _ _ Hq) as (Hin & Hs & Hst & _).
  pose proof (λ x Hx, job_unique rows row x Hnd Hin Hx) as Hu.
  assert (∀ s x, queued s (job_assign now x) = false) as Ha.
  { intros s x. unfold queued. rewrite job_assign_status. apply andb_false_r. }
  split.
  - unfold queue_of, claim_row in *. rewrite where_update_remove by auto.
    rewrite order_by_filter, Hq. simpl. rewrite String.eqb_refl. simpl. apply filter_all.
    intros x Hx. apply negb_true_iff, String.eqb_neq. intros Hid.
    assert (NoDup (row :: rest)) as Hnd2.
    { rewrite <- Hq, order_by_perm. apply NoDup_ListNoDup, List.NoDup_filter, NoDup_ListNoDup. by apply (NoDup_fmap_1 job_id). }
    apply NoDup_cons in Hnd2 as [Hn _]. apply Hn.
    assert (x ∈ rows) as Hxd.
    { apply (elem_of_where (queued srv)). rewrite <- (elem_of_order_by job_created), Hq. by right. }
    by rewrite <- (Hu x Hxd Hid).
  - intros srv' Hne. unfold queue_of, claim_row. f_equal.
    apply where_update_disjoint. intros x Hx Hid. propify. rewrite (Hu x Hx Hid).
    split; [|apply Ha]. unfold queued. rewrite Hs. destruct (String.eqb_spec srv srv'); [congruence|done].
Qed.

(** What a claim by the agent of [srv] does to the table's queues. *)
Definition claims_oldest (srv : string) (rows rows' : list R) : Prop :=
  ∃ row rest, queue_of srv rows = row :: rest ∧ queue_of srv rows' = rest ∧
    (∀ x, x ∈ rows → job_server x = srv → job_status x = "queued" → job_created row ≤ job_created x) ∧
    ∀ srv', srv' ≠ srv → queue_of srv' rows' = queue_of srv' rows.
Lemma claim_row_oldest srv row rest now rows :
  NoDup (map job_id rows) → queue_of srv rows = row :: rest → claims_oldest srv rows (claim_row row now rows).
Proof.
  intros Hnd Hq. destruct (queue_of_claimed srv row rest now rows Hnd Hq) as [H1 H2].
  exists row, rest. split; [done|]. split; [done|]. split; [|done]. by apply (queue_head srv rows row rest).
Qed.

(** A claim keeps the ids, and only the claimed row changes. *)
Lemma claim_row_ids row now rows : map job_id (claim_row row now rows) = map job_id rows.
Proof. apply map_update_where. intros x _. apply job_assign_id. Qed.
End Queue.
