(* ===== verification/DeployHandlers.v ===== *)
(** * DeployHandlers: one specification per handler

    For each handler of [Deployments] a weakest-precondition rule that gives its
    complete effect: on an error the database it leaves, on success the rows it wrote
    and the value it returned.  The property files derive their theorems from these. *)
From S2P Require Import Prelude.
From S2P Require Import GoStrings.
From S2P Require Import Problem.
From S2P Require Import Schema.
From S2P Require Import Platform.
From S2P Require Import Authz.
From S2P Require Import DeployNames.
From S2P Require Import DeployStore.
From S2P Require Import Deployments.
From S2P Require Import DeploySpec.

(** Rewrite with the equations between the databases of consecutive worlds. *)
Ltac world_eq :=
  repeat match goal with
  | H : w_db ?w' = w_db ?w |- _ => is_var w'; rewrite H in *; clear H
  end.

Ltac dbs :=
  repeat match goal with
  | H : w_db ?w' = _ |- context [w_db ?w'] => rewrite H
  end.

(** A new row and its audit row, nothing else. *)
Definition created_audited (row : db_Deployment) (action ws actor : string) (d d' : DB) : Prop :=
  ∃ d1, inserted row d d1 ∧ audited action "deployment" (dp_ID row) ws actor d1 d'.

(** ** Previews *)
Section PreviewRow.
Context {E : Env}.

(** The ref of a preview: the branch, or the head of the pull request. *)
Definition preview_source (svc : ServiceForDeploy) (branch : string) (pr : Z) (row : db_Deployment) : Prop :=
  if 0 <? pr then
    dp_GitRef row ≠ "" ∧
    ∃ n, get_pull_request n (sfd_Owner svc) (sfd_Repo svc) pr = inr (mk_PullRequest (dp_GitRef row) (dp_PrUrl row))
  else dp_GitRef row = branch ∧ dp_PrUrl row = "".

(** The stored basic-auth columns: absent, or a safe user name and a bcrypt hash. *)
Definition preview_auth (password : string) (row : db_Deployment) : Prop :=
  if String.eqb password "" then dp_PreviewAuthUser row = "" ∧ dp_PreviewAuthHash row = ""
  else previewAuthUserRe_MatchString (dp_PreviewAuthUser row) = true ∧
       ∃ n, bcrypt_hash n password = Some (dp_PreviewAuthHash row).

Definition preview_cols (row : db_Deployment) : Prop :=
  dp_Kind row = KindPreview ∧ dp_SourceKind row = SourceGit ∧ dp_RolledBackFrom row = None ∧
  dp_RouteKey row = previewRouteKey (dp_ServiceID row) (dp_PrNumber row) (dp_GitRef row).

Definition preview_row (sid srv : string) (svc : ServiceForDeploy) (branch : string)
    (pr portOverride : Z) (password : string) (row : db_Deployment) : Prop :=
  fresh_row sid srv svc row ∧ preview_cols row ∧ dp_PrNumber row = pr ∧
  dp_ContainerPort row = port_override (sfd_ContainerPort svc) portOverride ∧
  dp_SourceAccess row = sfd_SourceAccess svc ∧
  dp_CloneUrl row = cloneURL (sfd_Owner svc) (sfd_Repo svc) ∧
  preview_source svc branch pr row ∧ preview_auth password row.
End PreviewRow.

(** ** Rollback *)
Definition rollback_row (target row : db_Deployment) : Prop :=
  dp_ServiceID row = dp_ServiceID target ∧ dp_ServerID row = dp_ServerID target ∧
  dp_EnvironmentID row = dp_EnvironmentID target ∧ dp_ProjectID row = dp_ProjectID target ∧
  dp_WorkspaceID row = dp_WorkspaceID target ∧ dp_ContainerPort row = dp_ContainerPort target ∧
  dp_Status row = StatusQueued ∧ production_cols row ∧
  dp_RolledBackFrom row = nullableID (dp_ID target) ∧
  if String.eqb (dp_SourceKind target) SourceGit then
    dp_SourceKind row = SourceGit ∧ dp_CloneUrl row = dp_CloneUrl target ∧
    dp_SourceAccess row = dp_SourceAccess target ∧
    dp_GitRef row = (if decide (dp_CommitSha target ≠ "") then dp_CommitSha target else dp_GitRef target)
  else dp_SourceKind row = SourceImage ∧ validateImageRef (dp_ImageRef target) = inr (dp_ImageRef row).

Definition healthy (row : db_Deployment) : Prop :=
  dp_Status row = StatusRunning ∨ dp_Status row = StatusSuperseded.

(** ** Teardown *)
Definition teardown_row (dep : db_Deployment) (rk : string) (t : db_TeardownJob) : Prop :=
  td_DeploymentID t = dp_ID dep ∧ td_ServiceID t = dp_ServiceID dep ∧ td_RouteKey t = rk ∧
  td_EnvironmentID t = dp_EnvironmentID dep ∧ td_ProjectID t = dp_ProjectID dep ∧
  td_WorkspaceID t = dp_WorkspaceID dep ∧ td_ServerID t = dp_ServerID dep ∧
  td_Status t = TeardownStatusQueued ∧ td_Message t = "" ∧ td_Error t = "".

(** A queued teardown job of [dep] and its audit row, nothing else. *)
Definition teardown_audited (dep : db_Deployment) (rk action actor : string) (t : db_TeardownJob)
    (d d' : DB) : Prop :=
  ∃ d1, teardown_row dep rk t ∧ teardown_constraints t d = true ∧
        d1 = set_teardown_jobs (teardown_jobs d ++ [t]) d ∧
        audited action "deployment" (dp_ID dep) (dp_WorkspaceID dep) actor d1 d'.

(** ** Claims *)
Definition dp_assign (now : Z) (row : db_Deployment) : db_Deployment := dp_set_status StatusAssigned now row.

Definition claimed_from (srv : string) (row : db_Deployment) (rest : list db_Deployment) (now : Z) (d d' : DB) : Prop :=
  deployment_queue srv d = row :: rest ∧
  ∃ ev, d' = set_deployment_events (deployment_events d ++ [ev])
               (set_deployments (update_where (λ x, String.eqb (dp_ID x) (dp_ID row)) (dp_assign now) (deployments d)) d) ∧
        ev_DeploymentID ev = dp_ID row ∧ ev_Kind ev = KindStatus ∧ ev_Status ev = StatusAssigned.

Section Handlers.
Context {E : Env} {A : Authorizer}.
Implicit Types (w : World).

Lemma wp_CreateForService c i (Q : go_error + Deployment → World → Prop) w :
  (∀ e w', w_db w' = w_db w → Q (inl e) w') →
  (∀ ws svc row w',
     target_ok c (cfs_ServiceID i) (cfs_ServerID i) ws (w_db w) →
     service_row (cfs_ServiceID i) svc (w_db w) →
     production_row (cfs_ServiceID i) (cfs_ServerID i) svc (cfs_ContainerPort i) (cfs_GitRef i) row →
     created_audited row "deployment.create" ws (p_UserID c) (w_db w) (w_db w') →
     0 ≤ cfs_ContainerPort i ≤ maxPort →
     Q (inr (deploymentFromRow row)) w') →
  wp (CreateForService c i) Q w.
Proof.
  intros He Ha. unfold CreateForService.
  wp_step. apply wp_valid_target; [by intros; apply He|]. intros _ _ Hp.
  wp_step. apply wp_authorize_target; [done|]. intros ws w1 Hw1 Ht.
  wp_step. wp_step; [apply He; congruence|].
  wp_step. apply wp_serviceForDeploy; [done|by intros; apply wp_fail|].
  intros svc w3 Hw3 Hsvc. wp_step. apply wp_buildAndInsert; [done|].
  intros row w4 Hins Hrow. wp_step. apply wp_audit_Record; [done|].
  intros w5 Haud. apply wp_ret. intros w' Hw'. simpl in *.
  world_eq. eapply Ha; try done. eexists; split; [done|]. by dbs.
Qed.

Lemma wp_hashPreviewPassword pw user (Q : go_error + (string * string) → World → Prop) w :
  (∀ e w', w_db w' = w_db w → Q (inl e) w') →
  (∀ u h w', w_db w' = w_db w →
     (if String.eqb pw "" then u = "" ∧ h = ""
      else previewAuthUserRe_MatchString u = true ∧ ∃ n, bcrypt_hash n pw = Some h) →
     Q (inr (u, h)) w') →
  wp (hashPreviewPassword pw user) Q w.
Proof.
  intros He Ha. unfold hashPreviewPassword. destruct (String.eqb pw "") eqn:Hpw.
  - apply wp_ret, Ha; done.
  - wp_steps; try by apply He.
    destruct (bcrypt_hash n pw) eqn:Hh; simpl; [|by apply He]. propify. apply Ha; eauto.
Qed.

Lemma wp_resolve_ref svc branch pr (Q : go_error + (string * string) → World → Prop) w :
  (∀ e w', w_db w' = w_db w → Q (inl e) w') →
  (∀ ref url w', w_db w' = w_db w →
     (if 0 <? pr then ref ≠ "" ∧ ∃ n, get_pull_request n (sfd_Owner svc) (sfd_Repo svc) pr = inr (mk_PullRequest ref url)
      else ref = branch ∧ url = "") →
     Q (inr (ref, url)) w') →
  wp (resolve_ref svc branch pr) Q w.
Proof.
  intros He Ha. unfold resolve_ref. destruct (0 <? pr) eqn:Hpr.
  - wp_steps; try by apply He.
    destruct (get_pull_request n _ _ pr) as [|[ref url]] eqn:Hg; simpl; [by apply He|].
    wp_steps; [by apply He|]. apply Ha; [done|]. clear Hpr. propify. eauto.
  - by apply wp_ret, Ha.
Qed.

Lemma wp_enqueuePreview sid srv branch pr p pw user actor (Q : go_error + Deployment → World → Prop) w :
  (∀ e w', w_db w' = w_db w → Q (inl e) w') →
  (∀ svc row w', service_row sid svc (w_db w) →
     sfd_SourceKind svc = SourceGit → buildableAccess (sfd_SourceAccess svc) = true →
     preview_row sid srv svc branch pr p pw row →
     created_audited row "deployment.preview" (sfd_WorkspaceID svc) actor (w_db w) (w_db w') →
     Q (inr (deploymentFromRow row)) w') →
  wp (enqueuePreview sid srv branch pr p pw user actor) Q w.
Proof.
  intros He Ha. unfold enqueuePreview.
  wp_step. wp_step. apply wp_serviceForDeploy; [intros; by apply He| intros; by apply He|].
  intros svc w1 Hw1 Hsvc.
  wp_step; [by apply wp_fail, He|]. wp_step; [by apply wp_fail, He|]. propify.
  wp_step. apply wp_resolve_ref; [intros; apply He; congruence|]. intros ref url w2 Hw2 Href.
  wp_step. apply wp_hashPreviewPassword; [intros; apply He; congruence|]. intros u h w3 Hw3 Hauth.
  wp_step. wp_step; [apply He; congruence|].
  wp_step. unfold InsertPreviewDeployment.
  apply (wp_insert _ (preview_row sid srv svc branch pr p pw)); [|done|].
  { intros st. eexists. split; [|reflexivity].
    unfold preview_row, fresh_row, preview_cols, preview_source, preview_auth. simpl.
    repeat split; try done. }
  intros row w5 Hins Hrow. wp_step. apply wp_audit_Record; [done|].
  intros w6 Haud. apply wp_ret. intros w' Hw'. simpl in *.
  assert (dp_WorkspaceID row = sfd_WorkspaceID svc) as Hws by apply Hrow.
  world_eq. eapply Ha; try done. eexists; split; [exact Hins|]. by dbs.
Qed.

Lemma wp_CreatePreview c i (Q : go_error + Deployment → World → Prop) w :
  (∀ e w', w_db w' = w_db w → Q (inl e) w') →
  (∀ ws svc row w',
     target_ok c (cp_ServiceID i) (cp_ServerID i) ws (w_db w) →
     service_row (cp_ServiceID i) svc (w_db w) →
     sfd_SourceKind svc = SourceGit → buildableAccess (sfd_SourceAccess svc) = true →
     preview_row (cp_ServiceID i) (cp_ServerID i) svc (TrimSpace (cp_Branch i)) (cp_PRNumber i)
       (cp_ContainerPort i) (cp_Password i) row →
     created_audited row "deployment.preview" ws (p_UserID c) (w_db w) (w_db w') →
     (TrimSpace (cp_Branch i) = "" ↔ 0 < cp_PRNumber i) →
     Q (inr (deploymentFromRow row)) w') →
  wp (CreatePreview c i) Q w.
Proof.
  intros He Ha. unfold CreatePreview.
  wp_step. apply wp_valid_target; [by intros; apply He|]. intros _ _ Hp.
  wp_step; [by apply wp_fail, He|].
  assert (TrimSpace (cp_Branch i) = "" ↔ 0 < cp_PRNumber i) as Hone.
  { apply Bool.eqb_false_iff in Heqb.
    destruct (String.eqb_spec (TrimSpace (cp_Branch i)) ""), (Z.leb_spec (cp_PRNumber i) 0);
      split; intros; try done; try lia. }
  wp_step. apply wp_authorize_target; [done|]. intros ws w1 Hw1 Ht.
  apply wp_enqueuePreview; [intros; apply He; congruence|].
  intros svc row w' Hsvc Hg Hb Hrow Hc. rewrite Hw1 in *.
  assert (sfd_WorkspaceID svc = ws) as <-.
  { destruct Ht as ((s & Hs & <-) & _), Hsvc as (s' & Hs' & ->). rewrite Hs in Hs'. by simplify_eq. }
  by eapply Ha.
Qed.

Lemma wp_insertRollback target (Q : go_error + Deployment → World → Prop) w :
  (∀ e w', w_db w' = w_db w → Q (inl e) w') →
  (∀ row w', inserted row (w_db w) (w_db w') → rollback_row target row →
     Q (inr (deploymentFromRow row)) w') →
  wp (insertRollback (deploymentFromRow target)) Q w.
Proof.
  intros He Ha. unfold insertRollback. simpl.
  destruct (String.eqb (dp_SourceKind target) SourceGit) eqn:Hk.
  - apply (wp_insert _ (rollback_row target)); [|done|done].
    intros st. eexists. split; [|reflexivity].
    unfold rollback_row, production_cols. rewrite Hk. simpl.
    repeat split. destruct (String.eqb_spec (dp_CommitSha target) ""); case_decide; congruence.
  - wp_step. wp_step. destruct (validateImageRef _) as [e|img] eqn:Hv; [by apply He|].
    apply (wp_insert _ (rollback_row target)); [|done|done].
    intros st. eexists. split; [|reflexivity].
    unfold rollback_row, production_cols. rewrite Hk. simpl. done.
Qed.

Lemma wp_GetDeployment id (Q : go_error + option Deployment → World → Prop) w :
  (∀ e w', w_db w' = w_db w → Q (inl e) w') →
  (∀ w', w_db w' = w_db w → Q (inr None) w') →
  (∀ row w', w_db w' = w_db w → lookup_by dp_ID id (deployments (w_db w)) = Some row →
     Q (inr (Some (deploymentFromRow row))) w') →
  wp (GetDeployment id) Q w.
Proof.
  intros He Hn Ha. unfold GetDeployment. wp_step; [by apply He|].
  unfold sql_GetDeployment. destruct (lookup_by _ _ _) eqn:Hl; simpl; [by apply Ha|by apply Hn].
Qed.

Lemma wp_RollbackToDeployment c id (Q : go_error + Deployment → World → Prop) w :
  (∀ e w', w_db w' = w_db w → Q (inl e) w') →
  (∀ target row w',
     lookup_by dp_ID id (deployments (w_db w)) = Some target → healthy target →
     allows c ActionDeploymentCreate (deployment_resource (dp_WorkspaceID target) "") (w_db w) →
     rollback_row target row →
     created_audited row "deployment.rollback" (dp_WorkspaceID target) (p_UserID c) (w_db w) (w_db w') →
     Q (inr (deploymentFromRow row)) w') →
  wp (RollbackToDeployment c id) Q w.
Proof.
  intros He Ha. unfold RollbackToDeployment.
  wp_step. wp_step; [|by apply He]. wp_step. wp_step.
  apply wp_GetDeployment; [intros; by apply He| intros; by apply He|]. intros target w1 Hw1 Hl.
  wp_step. apply wp_Authorize; [intros; apply He; congruence|]. intros w2 Hw2 Hal.
  wp_step; [apply wp_fail, He; congruence|].
  assert (healthy target) as Hh.
  { unfold healthy. simpl in Heqb. apply andb_false_iff in Heqb as [Hb|Hb]; propify; auto. }
  wp_step. wp_step; [apply He; congruence|]. wp_step. apply wp_insertRollback; [done|].
  intros row w4 Hins Hrow. wp_step. apply wp_audit_Record; [done|].
  intros w5 Haud. apply wp_ret. intros w' Hw'. simpl in *.
  world_eq. eapply Ha; try done. eexists; split; [exact Hins|]. by dbs.
Qed.

(** ** The agent gateway *)
Lemma wp_claim_tx srv (Q : go_error + option Deployment → World → Prop) w :
  (∀ e w', w_db w' = w_db w → Q (inl e) w') →
  (∀ w', w_db w' = w_db w → Q (inr None) w') →
  (∀ row rest now w', claimed_from srv row rest now (w_db w) (w_db w') →
     Q (inr (Some (deploymentFromRow (dp_assign now row)))) w') →
  wp (claim_tx srv) Q w.
Proof.
  intros He Hn Ha. unfold claim_tx, ClaimNextForServer.
  wp_step; [by apply He|]. do 3 wp_step; [done| |].
  { wp_step. simpl. wp_step. intros w9 Hw9. apply Hn. congruence. }
  wp_step. unfold sql_ClaimNextDeploymentForServer in *.
  destruct (deployment_queue srv (w_db w0)) as [|row rest] eqn:Hq; [done|].
  injection H0 as <- Hw1. simpl. wp_step. apply wp_AppendEvent; [done|].
  intros ev w2 Hw2 _ He1 He2 He3 _ _. apply wp_ret. intros w9 Hw9.
  simpl. apply (Ha row rest (st_now st)). rewrite H in *. split; [done|].
  exists ev. split; [|done]. rewrite Hw9, Hw2, <- Hw1. done.
Qed.

(** What the best-effort failure of a claimed deployment can leave behind. *)
Definition failed_or_same (id : string) (d d' : DB) : Prop :=
  d' = d ∨
  ∃ msg now ev,
    d' = set_deployment_events (deployment_events d ++ [ev])
           (set_deployments (update_where (λ x, String.eqb (dp_ID x) id)
              (dp_apply_update StatusFailed msg 0 "" "" "" "" now) (deployments d)) d) ∧
    ev_DeploymentID ev = id ∧ ev_Kind ev = KindStatus ∧ ev_Status ev = StatusFailed.

Lemma wp_failDeployment id msg (Q : go_error + unit → World → Prop) w :
  (∀ w', failed_or_same id (w_db w) (w_db w') → Q (inr tt) w') →
  wp (failDeployment id msg) Q w.
Proof.
  intros Ha. unfold failDeployment, UpdateStatus.
  do 3 wp_step; [simpl; wp_step; apply Ha; by left|].
  do 3 wp_step; [done|]. wp_step.
  unfold sql_UpdateDeploymentStatus in *. simpl in *.
  destruct (lookup_by dp_ID id _) as [row|] eqn:Hl; [|done].
  injection H0 as <- Hw1. apply wp_AppendEvent; [done|].
  intros ev w2 Hw2 _ He1 He2 He3 _ _ w3 Hw3. wp_step. apply Ha. right.
  exists msg, (st_now st), ev. split; [|done]. rewrite Hw3, Hw2, <- Hw1, H. done.
Qed.

(** The job handed out for a claimed row. *)
Definition job_of (row : Deployment) (d : DB) (out : Claimed) : Prop :=
  ∃ env svc cred,
    config_env (negb (String.eqb (d_Kind row) KindPreview))
      (map configFromRow (sql_ListConfigForService (d_ServiceID row) d)) = inr env ∧
    service_row (d_ServiceID row) svc d ∧
    out = (if String.eqb (d_SourceKind row) SourceGit
           then with_git row cred (claimed_job row env svc) else claimed_job row env svc) ∧
    (cred ≠ "" → sfd_SourceAccess svc = "app").

Lemma wp_dispatch row (Q : go_error + Claimed → World → Prop) w :
  (∀ e w', w_db w' = w_db w → Q (inl e) w') →
  (∀ w', failed_or_same (d_ID row) (w_db w) (w_db w') → Q (inr no_work) w') →
  (∀ out w', w_db w' = w_db w → job_of row (w_db w) out → Q (inr out) w') →
  wp (dispatch row) Q w.
Proof.
  intros He Hf Ha. unfold dispatch, configEnvForService, ConfigForService.
  do 4 wp_step; [by apply He|]. wp_step.
  destruct (config_env _ _) as [e|env] eqn:Henv; [by apply He|].
  wp_step. wp_step. apply wp_serviceForDeploy; [intros; apply He; congruence|intros; apply He; congruence|].
  intros svc w2 Hw2 Hsvc. rewrite H in *.
  destruct (String.eqb (d_SourceKind row) SourceGit) eqn:Hk.
  - destruct (String.eqb (sfd_SourceAccess svc) "app") eqn:Happ.
    + do 3 wp_step. destruct (installation_token _ _) as [e|[tok|]]; wp_step.
      * apply wp_failDeployment. intros w4 Hw4. wp_step. apply Hf. by rewrite H0, Hw2 in Hw4.
      * apply Ha; [congruence|]. exists env, svc, tok. rewrite Hk. propify. done.
      * apply wp_failDeployment. intros w4 Hw4. wp_step. apply Hf. by rewrite H0, Hw2 in Hw4.
    + wp_step. apply Ha; [congruence|]. exists env, svc, "". by rewrite Hk.
  - wp_step. apply Ha; [congruence|]. exists env, svc, "". by rewrite Hk.
Qed.

(** Everything a poll can do. *)
Lemma wp_PollDeployment i (Q : go_error + Claimed → World → Prop) w :
  (∀ e w', w_db w' = w_db w → Q (inl e) w') →
  (∀ w', w_db w' = w_db w → Q (inr no_work) w') →
  (∀ srv row rest now w1,
     authenticated (pi_AgentID i) (pi_Credential i) srv (w_db w) →
     claimed_from srv row rest now (w_db w) (w_db w1) →
     wp (dispatch (deploymentFromRow (dp_assign now row))) Q w1) →
  wp (PollDeployment i) Q w.
Proof.
  intros He Hn Ha. unfold PollDeployment.
  wp_step. apply wp_need_credential; [intros; by apply He|]. intros _.
  wp_step. apply wp_agent_server; [done|]. intros srv w1 Hw1 Hauth.
  wp_step. wp_step. apply wp_claim_tx.
  - intros; apply He; congruence.
  - intros. wp_step. apply Hn. congruence.
  - intros row rest now w2 Hc. rewrite Hw1 in Hc. by eapply Ha.
Qed.

(** ** Reports *)
Definition log_events (i : ReportInput) : list string :=
  List.filter (λ l, negb (String.eqb (TrimSpace l) "")) (ri_LogLines i).

(** The events a report appends: the transition, then one per non-blank line. *)
Definition report_events (i : ReportInput) : list (string * string * string * string) :=
  (KindStatus, ri_Status i, ri_Message i, "") ::
  map (λ l, (KindLog, "", l, ri_LogStream i)) (log_events i).
Definition event_payload (e : db_DeploymentEvent) : string * string * string * string :=
  (ev_Kind e, ev_Status e, ev_Message e, ev_Stream e).

Definition dp_report (i : ReportInput) (now : Z) : db_Deployment → db_Deployment :=
  dp_apply_update (ri_Status i) (ri_Message i) (ri_HostPort i) (ri_ContainerID i) (ri_CommitSha i)
    (ri_BuiltImageRef i) (ri_RouteURL i) now.

(** A report that the container is up, as opposed to a log-only one. *)
Definition switches (i : ReportInput) : bool :=
  String.eqb (ri_Status i) StatusRunning && (0 <? ri_HostPort i).
Definition publishes (i : ReportInput) (row : db_Deployment) : bool :=
  negb (String.eqb (ri_RouteURL i) "") && negb (String.eqb (dp_Kind row) KindPreview).

Definition reported (i : ReportInput) (srv : string) (row : db_Deployment) (d d' : DB) : Prop :=
  ∃ now now' now'' evs,
    map event_payload evs = report_events i ∧
    Forall (λ e, ev_DeploymentID e = ri_DeploymentID i) evs ∧
    let deps := update_where (λ x, String.eqb (dp_ID x) (ri_DeploymentID i)) (dp_report i now) (deployments d) in
    d' = set_services
           (if publishes i row
            then update_where (λ s, String.eqb (sv_ID s) (dp_ServiceID row))
                   (sv_set_route_url (ri_RouteURL i) now') (services d)
            else services d)
         (set_deployments
           (if switches i
            then update_where (supersedes (routeKeyOr (dp_RouteKey row) (dp_ServiceID row)) srv (ri_DeploymentID i))
                   (dp_set_status StatusSuperseded now'') deps
            else deps)
         (set_deployment_events (deployment_events d ++ evs) d)).

(** The loop over the log lines of a report. *)
Lemma wp_report_logs i lines (Q : go_error + unit → World → Prop) w :
  (∀ e w', Q (inl e) w') →
  (∀ evs w',
     map event_payload evs = map (λ l, (KindLog, "", l, ri_LogStream i))
       (List.filter (λ l, negb (String.eqb (TrimSpace l) "")) lines) →
     Forall (λ e, ev_DeploymentID e = ri_DeploymentID i) evs →
     w_db w' = set_deployment_events (deployment_events (w_db w) ++ evs) (w_db w) →
     Q (inr tt) w') →
  wp (for_each lines (λ line,
        if String.eqb (TrimSpace line) "" then mret tt
        else AppendEvent (mk_NewEvent (ri_DeploymentID i) KindLog "" line (ri_LogStream i)))) Q w.
Proof.
  intros He. revert w. induction lines as [|l lines IH]; intros w Ha; simpl.
  - apply wp_ret, (Ha []); [done|constructor|]. rewrite app_nil_r. by destruct (w_db w).
  - wp_step. simpl in Ha. destruct (String.eqb (TrimSpace l) "") eqn:Hl; simpl in Ha.
    + wp_step. by apply IH.
    + apply wp_AppendEvent; [intros; apply He|].
      intros ev w1 Hw1 _ He1 He2 He3 He4 He5. apply IH.
      intros evs w2 Hevs Hall Hw2. apply (Ha (ev :: evs)).
      * simpl. rewrite Hevs. unfold event_payload. by rewrite He2, He3, He4, He5.
      * by constructor.
      * rewrite Hw2, Hw1. simpl. by rewrite <- app_assoc.
Qed.

Lemma wp_report_tx i row srv (Q : go_error + unit → World → Prop) w :
  (∀ e w', w_db w' = w_db w → Q (inl e) w') →
  (∀ w', reported i srv row (w_db w) (w_db w') → Q (inr tt) w') →
  wp (report_tx i (deploymentFromRow row) srv) Q w.
Proof.
  intros He Ha. unfold report_tx, UpdateStatus. wp_step; [by apply He|].
  do 3 wp_step; [done|]. wp_step. unfold sql_UpdateDeploymentStatus, report_update in H0. cbn -[in_list lookup_by update_where] in H0.
  destruct (lookup_by _ _ _) eqn:Hl; [|done].
  destruct (in_list deployment_statuses (ri_Status i)); [|done]. injection H0 as <- Hw1.
  wp_step. apply wp_AppendEvent; [done|]. simpl.
  intros ev w2 Hw2 _ He1 He2 He3 He4 He5.
  wp_step. apply wp_report_logs; [done|]. intros evs w3 Hevs Hall Hw3. wp_step.
  set (deps := update_where (λ x, String.eqb (dp_ID x) (ri_DeploymentID i)) (dp_report i (st_now st)) (deployments (w_db w))).
  assert (w_db w3 = set_deployments deps (set_deployment_events (deployment_events (w_db w) ++ ev :: evs) (w_db w))) as Hd3.
  { rewrite Hw3, Hw2, <- Hw1, H. simpl. by rewrite <- app_assoc. }
  assert (∀ now' now'' w', w_db w' = set_services
           (if publishes i row
            then update_where (λ s, String.eqb (sv_ID s) (dp_ServiceID row))
                   (sv_set_route_url (ri_RouteURL i) now') (services (w_db w))
            else services (w_db w))
         (set_deployments
           (if switches i
            then update_where (supersedes (routeKeyOr (dp_RouteKey row) (dp_ServiceID row)) srv (ri_DeploymentID i))
                   (dp_set_status StatusSuperseded now'') deps
            else deps)
         (set_deployment_events (deployment_events (w_db w) ++ ev :: evs) (w_db w))) → Q (inr tt) w') as Hfin.
  { intros now' now'' w8 Hw8. apply Ha. exists (st_now st), now', now'', (ev :: evs).
    split; [|split; [by constructor|exact Hw8]].
    simpl. rewrite Hevs. unfold event_payload at 1. by rewrite He2, He3, He4, He5. }
  unfold UpdateServiceRouteURL, SupersedePreviousRunning. simpl.
  fold (publishes i row) (switches i).
  assert (∀ now' w4, w_db w4 = set_services (if publishes i row
            then update_where (λ s, String.eqb (sv_ID s) (dp_ServiceID row))
                   (sv_set_route_url (ri_RouteURL i) now') (services (w_db w))
            else services (w_db w)) (w_db w3) →
    wp (if switches i then db_exec (sql_SupersedePreviousRunning
          (routeKeyOr (dp_RouteKey row) (dp_ServiceID row)) srv (ri_DeploymentID i)) else mret tt)
      (λ r w1, match r with inl _ => True | inr a => ∀ w', w_db w' = w_db w1 → Q (inr a) w' end) w4) as Hsw.
  { intros now' w4 Hw4. destruct (switches i).
    - wp_step; [done|]. destruct a. intros w9 Hw9. apply (Hfin now' (st_now st0)).
      rewrite Hw9. injection H0 as <-. rewrite Hw4, Hd3. done.
    - wp_step. intros w9 Hw9. apply (Hfin now' 0). by rewrite Hw9, Hw4, Hd3. }
  destruct (publishes i row).
  - wp_step; [done|]. apply (Hsw (st_now st0)). injection H0 as _ <-. by rewrite Hd3.
  - wp_step. apply (Hsw 0). rewrite Hd3. by destruct (w_db w).
Qed.

Lemma wp_ReportDeployment i (Q : go_error + unit → World → Prop) w :
  (∀ e w', w_db w' = w_db w → Q (inl e) w') →
  (∀ srv row w',
     authenticated (ri_AgentID i) (ri_Credential i) srv (w_db w) →
     lookup_by dp_ID (ri_DeploymentID i) (deployments (w_db w)) = Some row →
     dp_ServerID row = srv → isAgentReportableStatus (ri_Status i) = true →
     reported i srv row (w_db w) (w_db w') → Q (inr tt) w') →
  wp (ReportDeployment i) Q w.
Proof.
  intros He Ha. unfold ReportDeployment.
  wp_step. apply wp_need_credential; [intros; by apply He|]. intros _.
  do 2 wp_step; [|by apply He]. do 2 wp_step; [|by apply He].
  wp_step. apply wp_agent_server; [done|]. intros srv w1 Hw1 Hauth.
  do 2 wp_step. apply wp_GetDeployment; [intros; apply He; congruence|intros; apply He; congruence|].
  intros row w2 Hw2 Hl. do 2 wp_step; [|apply He; congruence]. wp_step.
  simpl in *. propify.
  apply wp_report_tx; [intros; apply He; congruence|].
  intros w3 Hr. rewrite Hw2, Hw1 in *. by eapply Ha.
Qed.

(** ** Route sync *)

(** A service counts when one of the reported routes names a deployment of it that
    is on the agent's server. *)
Definition route_counts (d : DB) (srv : string) (r : ManagedRoute) : Prop :=
  0 < mr_HostPort r ∧
  ∃ row, lookup_by dp_ID (mr_DeploymentID r) (deployments d) = Some row ∧
         dp_ServerID row = srv ∧ dp_ServiceID row = mr_ServiceID r.

Lemma wp_sync_route srv set r (Q : go_error + list string → World → Prop) w :
  (∀ e w', w_db w' = w_db w → Q (inl e) w') →
  (∀ w', w_db w' = w_db w → Q (inr set) w') →
  (∀ w', w_db w' = w_db w → route_counts (w_db w) srv r → Q (inr (set_add (mr_ServiceID r) set)) w') →
  wp (sync_route srv set r) Q w.
Proof.
  intros He Hs Ha. unfold sync_route. wp_step; [by apply wp_ret, Hs|]. propify.
  do 2 wp_step. apply wp_GetDeployment; [intros; by apply He| |].
  - intros w1 Hw1. by apply wp_ret, Hs.
  - intros row w1 Hw1 Hl. simpl. wp_step; [|by apply wp_ret, Hs]. propify.
    apply wp_ret, Ha; [done|]. split; [done|]. eauto.
Qed.

Lemma elem_of_set_add x id l : x ∈ set_add id l ↔ x = id ∨ x ∈ l.
Proof.
  unfold set_add. destruct (in_list l id) eqn:Hin.
  - apply in_list_true in Hin. set_solver.
  - set_solver.
Qed.

Lemma NoDup_set_add id l : NoDup l → NoDup (set_add id l).
Proof.
  intros Hl. unfold set_add. destruct (in_list l id) eqn:Hin; [done|].
  apply NoDup_app. split; [done|]. split; [|by apply NoDup_singleton].
  intros x Hx ->%list_elem_of_singleton. apply in_list_true in Hx. congruence.
Qed.

(** The verified hostnames of a service, sorted. *)
Lemma elem_of_verified ids sid h d :
  (sid, h) ∈ sql_VerifiedDomainsForServices ids d ↔
  sid ∈ ids ∧ ∃ r, r ∈ domains d ∧ dm_ServiceID r = sid ∧ dm_Hostname r = h ∧ dm_Status r ∈ ["verified"; "active"].
Proof.
  unfold sql_VerifiedDomainsForServices. rewrite list_elem_of_fmap.
  setoid_rewrite isort_perm. setoid_rewrite elem_of_where. setoid_rewrite andb_true_iff.
  setoid_rewrite in_list_true. naive_solver.
Qed.

Lemma hostnames_of_group ids rows id :
  hostnames_of (group_hostnames ids rows) id =
  if decide (id ∈ ids) then map snd (List.filter (λ r, String.eqb (fst r) id) rows) else [].
Proof.
  unfold hostnames_of. induction ids as [|i ids IH]; simpl; [done|].
  destruct (String.eqb_spec i id) as [->|Hne]; simpl.
  - rewrite decide_True by left. done.
  - rewrite IH. repeat case_decide; set_solver.
Qed.

Lemma elem_of_overrides m ids o :
  o ∈ overrides m ids ↔ ro_ServiceID o ∈ ids ∧ ro_Hostnames o = hostnames_of m (ro_ServiceID o) ∧ ro_Hostnames o ≠ [].
Proof.
  unfold overrides. rewrite list_elem_of_omap. split.
  - intros (id & Hid & Ho). destruct (hostnames_of m id) eqn:Hh; [done|]. injection Ho as <-. by simpl; rewrite Hh.
  - intros (Hid & Heq & Hne). exists (ro_ServiceID o). split; [done|].
    rewrite <- Heq. destruct o as [s [|h hs]]; done.
Qed.

(** What the agent is told to serve for a service. *)
Definition override_ok (d : DB) (srv : string) (routes : list ManagedRoute) (o : RouteOverride) : Prop :=
  (∃ r, r ∈ routes ∧ mr_ServiceID r = ro_ServiceID o ∧ route_counts d srv r) ∧
  ro_Hostnames o ≠ [] ∧
  ∀ h, h ∈ ro_Hostnames o ↔
    ∃ dm, dm ∈ domains d ∧ dm_ServiceID dm = ro_ServiceID o ∧ dm_Hostname dm = h ∧
          dm_Status dm ∈ ["verified"; "active"].

Lemma override_verified d srv routes ids m o :
  m = group_hostnames ids (sql_VerifiedDomainsForServices ids d) →
  (∀ x, x ∈ ids → ∃ r, r ∈ routes ∧ mr_ServiceID r = x ∧ route_counts d srv r) →
  o ∈ overrides m ids → override_ok d srv routes o.
Proof.
  intros -> Hids (Hin & Hh & Hne)%elem_of_overrides. split; [by apply Hids|]. split; [done|].
  intros h. rewrite Hh, hostnames_of_group, decide_True by done.
  rewrite list_elem_of_fmap. setoid_rewrite list_elem_of_In. setoid_rewrite filter_In.
  setoid_rewrite <- list_elem_of_In. split.
  - intros ([s h'] & -> & Hel & Heq). simpl in *. propify. subst.
    by apply elem_of_verified in Hel as [_ ?].
  - intros Hd. exists (ro_ServiceID o, h). split; [done|]. split; [|simpl; apply String.eqb_refl].
    by apply elem_of_verified.
Qed.

Lemma wp_SyncRoutes i (Q : go_error + list RouteOverride → World → Prop) w :
  (∀ e w', w_db w' = w_db w → Q (inl e) w') →
  (∀ srv out w', w_db w' = w_db w →
     authenticated (sri_AgentID i) (sri_Credential i) srv (w_db w) →
     NoDup (map ro_ServiceID out) →
     Forall (override_ok (w_db w) srv (sri_Routes i)) out → Q (inr out) w') →
  wp (SyncRoutes i) Q w.
Proof.
  intros He Ha. unfold SyncRoutes.
  wp_step. apply wp_need_credential; [intros; by apply He|]. intros _.
  wp_step. apply wp_agent_server; [done|]. intros srv w1 Hw1 Hauth. wp_step.
  apply (wp_fold_each _ _ _ (λ l s w', w_db w' = w_db w ∧ (∀ r, r ∈ l → r ∈ sri_Routes i) ∧ NoDup s ∧
    ∀ x, x ∈ s → ∃ r, r ∈ sri_Routes i ∧ mr_ServiceID r = x ∧ route_counts (w_db w) srv r)).
  - split; [done|]. split; [done|]. split; [constructor|set_solver].
  - intros r l' s w' (Hw' & Hsub & Hnd & Hs).
    apply wp_sync_route; [intros; apply He; congruence| |].
    + intros w2 Hw2. split; [congruence|]. split; [set_solver|done].
    + intros w2 Hw2 Hc. split; [congruence|]. split; [set_solver|].
      split; [by apply NoDup_set_add|]. intros x [->|Hx]%elem_of_set_add; [|by apply Hs].
      exists r. rewrite Hw' in Hc. set_solver.
  - intros s w2 (Hw2 & _ & Hnd & Hs). do 3 wp_step.
    unfold VerifiedDomainsForServices.
    assert (∀ x, x ∈ k → ∃ r, r ∈ sri_Routes i ∧ mr_ServiceID r = x ∧ route_counts (w_db w) srv r) as Hk
      by (intros x Hx; apply Hs; by rewrite <- H0).
    assert (NoDup k) as Hndk by (by rewrite H0).
    assert (∀ m, NoDup (map ro_ServiceID (overrides m k))) as Hndo.
    { intros m. clear -Hndk. induction Hndk as [|x l Hx _ IH]; simpl; [constructor|].
      destruct (hostnames_of m x); simpl; [done|]. constructor; [|done].
      rewrite list_elem_of_fmap. intros (o & -> & [Ho _]%elem_of_overrides). done. }
    destruct k as [|k0 k].
    + wp_step. wp_step. wp_step. apply (Ha srv); [congruence|done|constructor|constructor].
    + do 3 wp_step; [apply He; congruence|]. wp_step. wp_step.
      apply (Ha srv); [congruence|done|apply Hndo|].
      apply Forall_forall. intros o Ho. eapply override_verified; [|exact Hk|exact Ho].
      by rewrite H, Hw2.
Qed.

(** [domain_synced d srv i r r']: what a route-sync report of the agent of [srv] may
    do to a domain row. *)
Definition sync_names (d : DB) (srv : string) (i : ReportRouteSyncInput) (r : db_Domain) : Prop :=
  ∃ res row, res ∈ rri_Results i ∧ dm_ServiceID r = rs_ServiceID res ∧ dm_Hostname r ∈ rs_Hostnames res ∧
    lookup_by dp_ID (rs_DeploymentID res) (deployments d) = Some row ∧
    dp_ServerID row = srv ∧ dp_ServiceID row = dm_ServiceID r.
Definition domain_synced (d : DB) (srv : string) (i : ReportRouteSyncInput) (r r' : db_Domain) : Prop :=
  r' = r ∨
  (sync_names d srv i r ∧ dm_Status r ∈ ["verified"; "active"; "failed"] ∧
   ∃ status msg now, status ∈ ["active"; "failed"] ∧ r' = dm_set_status status msg now r).

Lemma domain_synced_step d srv i res row status msg now r r' :
  res ∈ rri_Results i →
  lookup_by dp_ID (rs_DeploymentID res) (deployments d) = Some row →
  dp_ServerID row = srv → dp_ServiceID row = rs_ServiceID res → status ∈ ["active"; "failed"] →
  domain_synced d srv i r r' →
  domain_synced d srv i r
    (if route_syncs (rs_ServiceID res) (rs_Hostnames res) r' then dm_set_status status msg now r' else r').
Proof.
  intros Hres Hl Hsrv Hsid Hst Hr. destruct (route_syncs _ _ r') eqn:Hb; [|done].
  unfold route_syncs in Hb. propify. apply in_list_true in H0, H1. right.
  destruct Hr as [->|(Hn & Hs & s0 & m0 & n0 & Hs0 & ->)].
  - split; [|split; [done|eauto]]. exists res, row. naive_solver congruence.
  - split; [done|]. split; [done|]. exists status, msg, now. split; [done|]. by destruct r.
Qed.

Lemma wp_ReportRouteSync i (Q : go_error + unit → World → Prop) w :
  (∀ e w', w_db w' = w_db w → Q (inl e) w') →
  (∀ srv ds w', authenticated (rri_AgentID i) (rri_Credential i) srv (w_db w) →
     w_db w' = set_domains ds (w_db w) →
     Forall2 (domain_synced (w_db w) srv i) (domains (w_db w)) ds → Q (inr tt) w') →
  wp (ReportRouteSync i) Q w.
Proof.
  intros He Ha. unfold ReportRouteSync.
  wp_step. apply wp_need_credential; [intros; by apply He|]. intros _.
  wp_step. apply wp_agent_server; [done|]. intros srv w1 Hw1 Hauth.
  do 2 wp_step; [apply He; congruence|].
  apply (wp_for_each _ _ (λ l w', (∀ r, r ∈ l → r ∈ rri_Results i) ∧
    ∃ ds, w_db w' = set_domains ds (w_db w) ∧ Forall2 (domain_synced (w_db w) srv i) (domains (w_db w)) ds)).
  - split; [done|]. exists (domains (w_db w)). split; [rewrite H, Hw1; by destruct (w_db w)|].
    apply Reflexive_instance_0. intros r; by left.
  - intros res l w2 (Hsub & ds & Hw2 & Hds). unfold report_route.
    assert (∀ w3, w_db w3 = w_db w2 → (∀ r, r ∈ l → r ∈ rri_Results i) ∧
      ∃ ds, w_db w3 = set_domains ds (w_db w) ∧ Forall2 (domain_synced (w_db w) srv i) (domains (w_db w)) ds) as Hsame.
    { intros w3 Hw3. split; [set_solver|]. exists ds. by rewrite Hw3. }
    wp_step; [by apply wp_ret, Hsame|]. wp_step. apply wp_GetDeployment; [done|intros; by apply wp_ret, Hsame|].
    intros row w3 Hw3 Hl. simpl. wp_step; [|by apply wp_ret, Hsame].
    unfold MarkDomainsRouteSync. destruct (rs_Hostnames res) as [|h hs] eqn:Hh; [by apply wp_ret, Hsame|].
    wp_step; [done|]. destruct a. rewrite <- Hh in *. unfold sql_MarkDomainsRouteSync in H0.
    destruct (in_list _ (route_sync_status res).1) ; [|done]. injection H0 as Hw'.
    split; [set_solver|]. eexists. split; [by rewrite <- Hw', Hw3, Hw2|].
    rewrite Hw2 in *. simpl in *. propify. unfold update_where.
    apply Forall2_fmap_r. eapply Forall2_impl; [exact Hds|]. intros r r' Hr. simpl.
    eapply domain_synced_step; try done; [set_solver|].
    unfold route_sync_status. destruct (rs_OK res); simpl; set_solver.
  - intros w2 (_ & ds & Hw2 & Hds) w3 Hw3. eapply Ha; try done. by rewrite Hw3.
Qed.

(** ** Teardown *)
Lemma wp_teardown_tx dep rk action actor (Q : go_error + TeardownJob → World → Prop) w :
  (∀ e w', w_db w' = w_db w → Q (inl e) w') →
  (∀ t w', teardown_audited dep rk action actor t (w_db w) (w_db w') → Q (inr (teardownFromRow t)) w') →
  wp (teardown_tx (deploymentFromRow dep) rk action actor) Q w.
Proof.
  intros He Ha. unfold teardown_tx, InsertTeardownJob. wp_step; [by apply He|].
  do 3 wp_step; [done|]. wp_step. unfold sql_CreateTeardownJob in H0. cbn -[teardown_constraints] in H0.
  destruct (teardown_constraints _ _) eqn:Hc; [|done]. injection H0 as <- Hw1.
  wp_step. apply wp_audit_Record; [done|]. intros w2 Haud. wp_step. intros w3 Hw3.
  apply Ha. eexists. rewrite Hw3. rewrite <- Hw1, H in *. split; [|split; [exact Hc|split; [reflexivity|exact Haud]]].
  done.
Qed.

Lemma wp_TeardownPreview c id (Q : go_error + TeardownJob → World → Prop) w :
  (∀ e w', w_db w' = w_db w → Q (inl e) w') →
  (∀ dep t w', lookup_by dp_ID id (deployments (w_db w)) = Some dep → dp_Kind dep = KindPreview →
     allows c ActionDeploymentCreate (deployment_resource (dp_WorkspaceID dep) (dp_ID dep)) (w_db w) →
     teardown_audited dep (routeKeyOr (dp_RouteKey dep) (dp_ServiceID dep)) "deployment.teardown" (p_UserID c) t
       (w_db w) (w_db w') →
     Q (inr (teardownFromRow t)) w') →
  wp (TeardownPreview c id) Q w.
Proof.
  intros He Ha. unfold TeardownPreview. do 2 wp_step; [|by apply He].
  do 2 wp_step. apply wp_GetDeployment; [intros; by apply He|intros; by apply He|].
  intros dep w1 Hw1 Hl. do 2 wp_step; [|apply He; congruence]. simpl in *. propify.
  wp_step. apply wp_Authorize; [intros; apply He; congruence|]. intros w2 Hw2 Hal.
  wp_step. apply wp_teardown_tx; [intros; apply He; congruence|].
  intros t w3 Ht. rewrite Hw2, Hw1 in *. by eapply Ha.
Qed.

(** A claimed teardown: the oldest queued one of the server becomes assigned. *)
Definition teardown_claimed (srv : string) (t : db_TeardownJob) (rest : list db_TeardownJob) (now : Z) (d d' : DB) : Prop :=
  teardown_queue srv d = t :: rest ∧
  d' = set_teardown_jobs (update_where (λ x, String.eqb (td_ID x) (td_ID t))
         (td_apply_update TeardownStatusAssigned "" "" now) (teardown_jobs d)) d.

Lemma wp_PollTeardownJob i (Q : go_error + ClaimedTeardown → World → Prop) w :
  (∀ e w', w_db w' = w_db w → Q (inl e) w') →
  (∀ w', w_db w' = w_db w → Q (inr no_teardown) w') →
  (∀ srv t rest now w', authenticated (pi_AgentID i) (pi_Credential i) srv (w_db w) →
     teardown_claimed srv t rest now (w_db w) (w_db w') →
     Q (inr (mk_ClaimedTeardown true (td_ID t) (td_RouteKey t) (previewNetworkName (td_RouteKey t)))) w') →
  wp (PollTeardownJob i) Q w.
Proof.
  intros He Hn Ha. unfold PollTeardownJob, ClaimNextTeardownForServer.
  wp_step. apply wp_need_credential; [intros; by apply He|]. intros _.
  wp_step. apply wp_agent_server; [done|]. intros srv w1 Hw1 Hauth.
  do 3 wp_step; [apply He; congruence|]. do 2 wp_step; [done| |].
  { wp_step. intros w9 Hw9. simpl. wp_step. apply Hn. congruence. }
  wp_step. intros w9 Hw9. simpl. wp_step. unfold sql_ClaimNextTeardownForServer in *.
  destruct (teardown_queue srv _) as [|t rest] eqn:Hq; [done|]. injection H0 as <- Hw3. simpl.
  apply (Ha srv t rest (st_now st)); [done|]. rewrite H, Hw1 in *.
  split; [done|]. by rewrite Hw9, <- Hw3.
Qed.

Definition teardown_reported (i : ReportTeardownInput) (t : db_TeardownJob) (d d' : DB) : Prop :=
  ∃ now now',
    let jobs := update_where (λ x, String.eqb (td_ID x) (rt_TeardownID i))
                  (td_apply_update (rt_Status i) (rt_Message i) (rt_Error i) now) (teardown_jobs d) in
    d' = set_deployments
           (if String.eqb (rt_Status i) TeardownStatusSucceeded
            then update_where (tears_down (td_RouteKey t) (td_ServerID t)) (dp_set_status StatusTornDown now') (deployments d)
            else deployments d)
         (set_teardown_jobs jobs d).

Lemma wp_ReportTeardownJob i (Q : go_error + unit → World → Prop) w :
  (∀ e w', w_db w' = w_db w → Q (inl e) w') →
  (∀ srv t w', authenticated (rt_AgentID i) (rt_Credential i) srv (w_db w) →
     lookup_by td_ID (rt_TeardownID i) (teardown_jobs (w_db w)) = Some t → td_ServerID t = srv →
     isAgentReportableTeardownStatus (rt_Status i) = true →
     teardown_reported i t (w_db w) (w_db w') → Q (inr tt) w') →
  wp (ReportTeardownJob i) Q w.
Proof.
  intros He Ha. unfold ReportTeardownJob, GetTeardownJob, UpdateTeardownStatus.
  wp_step. apply wp_need_credential; [intros; by apply He|]. intros _.
  do 2 wp_step; [|by apply He]. do 2 wp_step; [|by apply He].
  wp_step. apply wp_agent_server; [done|]. intros srv w1 Hw1 Hauth.
  do 3 wp_step; [apply He; congruence|]. unfold sql_GetTeardownJob.
  destruct (lookup_by td_ID (rt_TeardownID i) (teardown_jobs (w_db w1))) as [t|] eqn:Hl; simpl; [|apply He; congruence].
  do 2 wp_step; [|apply He; congruence]. do 2 wp_step; [apply He; congruence|].
  do 3 wp_step; [done|]. wp_step. unfold sql_UpdateTeardownStatus in H4. cbn -[lookup_by in_list update_where] in H4.
  destruct (lookup_by _ _ (teardown_jobs (w_db w0))); [|done].
  destruct (in_list teardown_statuses (rt_Status i)); [|done]. injection H4 as _ Hw3.
  wp_step; rewrite H3, H1, Hw1 in *.
  - unfold MarkPreviewTornDown. wp_step; [done|]. destruct a0. intros w9 Hw9.
    eapply Ha; try done; [by propify|]. exists (st_now st), (st_now st0).
    rewrite Heqb. injection H4 as Hw4. by rewrite Hw9, <- Hw4, <- Hw3.
  - wp_step. intros w9 Hw9. eapply Ha; try done; [by propify|]. exists (st_now st), 0.
    rewrite Heqb. rewrite Hw9, <- Hw3. by destruct (w_db w).
Qed.

(** ** Webhook previews *)
Lemma wp_CreatePreviewForPR sid pr (Q : go_error + string → World → Prop) w :
  (∀ e w', w_db w' = w_db w → Q (inl e) w') →
  (∀ srv svc row w', 0 < pr →
     sql_GetLatestServerForService sid (w_db w) = Some srv → service_row sid svc (w_db w) →
     preview_row sid srv svc "" pr 0 "" row →
     created_audited row "deployment.preview" (sfd_WorkspaceID svc) webhookActor (w_db w) (w_db w') →
     Q (inr (dp_ID row)) w') →
  wp (CreatePreviewForPR sid pr) Q w.
Proof.
  intros He Ha. unfold CreatePreviewForPR, LatestServerForService.
  do 2 wp_step; [|by apply He]. do 2 wp_step; [|by apply He].
  do 3 wp_step; [by apply He|]. destruct (sql_GetLatestServerForService sid (w_db w)) as [srv|] eqn:Hs; [|by apply He].
  wp_step. apply wp_enqueuePreview; [intros; apply He; congruence|].
  intros svc row w2 Hsvc _ _ Hrow Hc. wp_step. rewrite H1 in *. propify. by eapply Ha.
Qed.

Lemma wp_TeardownPreviewForPR sid pr (Q : go_error + unit → World → Prop) w :
  (∀ e w', w_db w' = w_db w → Q (inl e) w') →
  (∀ w', w_db w' = w_db w →
     sql_GetLatestActivePreviewByRouteKey sid (previewRouteKey sid pr "") (w_db w) = None → Q (inr tt) w') →
  (∀ dep t w', 0 < pr →
     sql_GetLatestActivePreviewByRouteKey sid (previewRouteKey sid pr "") (w_db w) = Some dep →
     teardown_audited dep (previewRouteKey sid pr "") "deployment.teardown" webhookActor t (w_db w) (w_db w') →
     Q (inr tt) w') →
  wp (TeardownPreviewForPR sid pr) Q w.
Proof.
  intros He Hn Ha. unfold TeardownPreviewForPR, LatestActivePreviewByRouteKey.
  do 2 wp_step; [|by apply He]. do 2 wp_step; [|by apply He].
  do 3 wp_step; [by apply He|].
  destruct (sql_GetLatestActivePreviewByRouteKey _ _ _) as [dep|] eqn:Hs; simpl.
  - do 2 wp_step. apply wp_teardown_tx; [intros; apply He; congruence|].
    intros t w2 Ht. wp_step. rewrite H1 in *. propify. by eapply Ha.
  - wp_step. by apply Hn.
Qed.

(** ** The expiry sweep *)

(** [ts] were queued, one audit row each, for rows satisfying [P]. *)
Definition swept (P : db_Deployment → Prop) (n : Z) (d d' : DB) : Prop :=
  ∃ ts aus, d' = set_audit_events (audit_events d ++ aus) (set_teardown_jobs (teardown_jobs d ++ ts) d) ∧
    Z.of_nat (length ts) = n ∧ length aus = length ts ∧
    Forall (λ t, ∃ dep, P dep ∧ teardown_row dep (routeKeyOr (dp_RouteKey dep) (dp_ServiceID dep)) t ∧
                 has_key dp_ID (dp_ID dep) (deployments d) = true) ts ∧
    Forall (λ a, au_Action a = "deployment.expire" ∧ au_Actor a = expiryActor) aus ∧
    (NoDup (map td_ID (teardown_jobs d)) → NoDup (map td_ID (teardown_jobs d ++ ts))).

Lemma swept_step (P : db_Deployment → Prop) n d d' d'' dep t :
  swept P n d d' → P dep →
  teardown_audited dep (routeKeyOr (dp_RouteKey dep) (dp_ServiceID dep)) "deployment.expire" expiryActor t d' d'' →
  swept P (n + 1) d d''.
Proof.
  intros (ts & aus & -> & Hn & Hlen & Hts & Haus & Hnd) HP (d1 & Hrow & Hc & -> & a & -> & Ha1 & _ & _ & Ha2 & _).
  unfold teardown_constraints in Hc. propify. simpl in *.
  assert (td_DeploymentID t = dp_ID dep) as Hdep by apply Hrow.
  exists (ts ++ [t]), (aus ++ [a]). rewrite !length_app, !app_assoc. simpl.
  repeat split; [lia|lia| | |].
  - apply Forall_app; split; [done|]. constructor; [|done]. exists dep. split; [done|]. split; [done|]. by rewrite <- Hdep.
  - apply Forall_app; split; [done|]. by constructor.
  - intros Hd. specialize (Hnd Hd). rewrite map_app. apply NoDup_app. split; [done|].
    split; [|by apply NoDup_singleton]. intros x Hx ->%list_elem_of_singleton.
    by apply has_key_false in H.
Qed.

Definition expired (cutoff : Z) (d : DB) (dep : db_Deployment) : Prop :=
  dep ∈ deployments d ∧ dp_Kind dep = KindPreview ∧ dp_Status dep = StatusRunning ∧ dp_CreatedAt dep < cutoff.

Lemma swept_refl P d : swept P 0 d d.
Proof.
  exists [], []. rewrite !app_nil_r. split; [by destruct d|]. done.
Qed.

Lemma wp_ExpirePreviews ttl (Q : go_error + Z → World → Prop) w :
  (∀ e w', w_db w' = w_db w → Q (inl e) w') →
  (ttl ≤ 0 → Q (inr 0) w) →
  (∀ now n w', 0 < ttl → swept (expired (now - ttl) (w_db w)) n (w_db w) (w_db w') → Q (inr n) w') →
  wp (ExpirePreviews ttl) Q w.
Proof.
  intros He Hz Ha. unfold ExpirePreviews, ListExpiredPreviews. wp_step; [apply wp_ret, Hz; by propify|].
  propify. do 5 wp_step; [apply He; congruence|].
  apply (wp_fold_each _ _ _ (λ l n w', (∀ x, x ∈ l → ∃ r, x = deploymentFromRow r ∧ expired (t - ttl) (w_db w) r) ∧
            swept (expired (t - ttl) (w_db w)) n (w_db w) (w_db w'))).
  - split; [|rewrite H0, H; apply swept_refl].
    intros x (r & -> & Hr)%list_elem_of_fmap. exists r. split; [done|].
    unfold sql_ListExpiredPreviews in Hr. rewrite elem_of_order_by, elem_of_where, H in Hr.
    destruct Hr as [Hin Hb]. propify. done.
  - intros x l n w1 [Hl Hsw]. destruct (Hl x ltac:(left)) as (r & -> & Hr).
    assert (∀ y, y ∈ l → ∃ r, y = deploymentFromRow r ∧ expired (t - ttl) (w_db w) r) as Hl' by set_solver.
    unfold expire_one. do 2 wp_step. apply wp_teardown_tx.
    + intros e w2 Hw2. wp_step. by rewrite Hw2.
    + intros td w2 Ht. wp_step. split; [done|]. by eapply swept_step.
  - intros n w1 [_ Hsw]. by eapply Ha.
Qed.
End Handlers.
