(* ===== verification/DeployInv.v ===== *)
(** * DeployInv: the invariant of the deployments tables

    [wf] is what the handlers rely on between requests: ids are unique, every
    deployment row is either a production row routed by its service id or a preview row
    routed by its own key, its server is in the workspace of its service, and a
    teardown job always points at a preview row and carries that row's key.  Every
    request of [handle] preserves it, whatever faults occur, and so does every step of
    the other modules that only adds services and servers. *)
From S2P Require Import Prelude.
From S2P Require Import GoStrings.
From S2P Require Import Problem.
From S2P Require Import Schema.
From S2P Require Import Platform.
From S2P Require Import Authz.
From S2P Require Import DeployNames.
From S2P Require Import DeployStore.
From S2P Require Import Deployments.
From S2P Require Import DeploySpec.
From S2P Require Import DeployHandlers.

(** ** The invariant *)

(** The columns no statement of the module updates. *)
Definition dp_core (r : db_Deployment) :=
  (dp_ID r, dp_EnvironmentID r, dp_ProjectID r, dp_WorkspaceID r, dp_ServerID r, dp_ImageRef r,
   dp_ContainerPort r, dp_CreatedAt r, dp_SourceKind r, dp_SourceAccess r, dp_CloneUrl r,
   dp_GitRef r, dp_ServiceID r, dp_RolledBackFrom r, dp_Kind r, dp_RouteKey r, dp_PrNumber r,
   dp_PrUrl r, dp_PreviewAuthUser r, dp_PreviewAuthHash r).
Definition td_core (t : db_TeardownJob) :=
  (td_ID t, td_DeploymentID t, td_ServiceID t, td_RouteKey t, td_EnvironmentID t,
   td_ProjectID t, td_WorkspaceID t, td_ServerID t, td_CreatedAt t).
Definition sv_core (s : db_Service) := (sv_ID s, sv_WorkspaceID s).

(** The service and the server of a row exist and share its workspace. *)
Definition placed (d : DB) (r : db_Deployment) : Prop :=
  (∃ s, s ∈ services d ∧ sv_ID s = dp_ServiceID r ∧ sv_WorkspaceID s = dp_WorkspaceID r) ∧
  (∃ s, s ∈ servers d ∧ srv_ID s = dp_ServerID r ∧ srv_WorkspaceID s = dp_WorkspaceID r).

Record wf_deployment (d : DB) (r : db_Deployment) : Prop := {
  wfd_status : dp_Status r ∈ deployment_statuses;
  wfd_placed : placed d r;
  wfd_kind : production_cols r ∨ preview_cols r;
  wfd_pr : dp_PrNumber r < 2 ^ 31;
}.

Definition wf_teardown (d : DB) (t : db_TeardownJob) : Prop :=
  ∃ r, r ∈ deployments d ∧ dp_ID r = td_DeploymentID t ∧ preview_cols r ∧
       td_RouteKey t = dp_RouteKey r ∧ td_ServerID t = dp_ServerID r ∧
       td_ServiceID t = dp_ServiceID r ∧ td_WorkspaceID t = dp_WorkspaceID r.

Record wf (d : DB) : Prop := {
  wf_service_ids : NoDup (map sv_ID (services d));
  wf_service_uuids : Forall (λ s, canonical_uuid (sv_ID s)) (services d);
  wf_server_ids : NoDup (map srv_ID (servers d));
  wf_deployment_ids : NoDup (map dp_ID (deployments d));
  wf_deployments : Forall (wf_deployment d) (deployments d);
  wf_teardown_ids : NoDup (map td_ID (teardown_jobs d));
  wf_teardowns : Forall (wf_teardown d) (teardown_jobs d);
  wf_events : Forall (λ e, ∃ r, r ∈ deployments d ∧ dp_ID r = ev_DeploymentID e) (deployment_events d);
}.

(** ** Evolution of a table in place *)
Definition evolves (r r' : db_Deployment) : Prop :=
  dp_core r' = dp_core r ∧ (dp_Status r' = dp_Status r ∨ dp_Status r' ∈ deployment_statuses).

#[export] Instance evolves_refl : Reflexive evolves.
Proof. intros r. split; [done|by left]. Qed.
#[export] Instance evolves_trans : Transitive evolves.
Proof. intros r r' r'' [H1 H2] [H3 H4]. split; [congruence|]. destruct H4 as [->|?]; [done|by right]. Qed.

Lemma Forall2_refl {A} (R : A → A → Prop) `{!Reflexive R} l : Forall2 R l l.
Proof. induction l; by constructor. Qed.
Lemma Forall2_trans {A} (R : A → A → Prop) `{!Transitive R} l l' l'' :
  Forall2 R l l' → Forall2 R l' l'' → Forall2 R l l''.
Proof.
  intros H; revert l''; induction H; intros l'' H2; inversion H2; subst; constructor; eauto.
Qed.
Lemma Forall2_update_where {A} (R : A → A → Prop) `{!Reflexive R} p f (l : list A) :
  (∀ x, x ∈ l → p x = true → R x (f x)) → Forall2 R l (update_where p f l).
Proof.
  induction l as [|x l IH]; intros H; simpl; constructor.
  - destruct (p x) eqn:Hp; [apply H; [left|done]|done].
  - apply IH. intros y Hy. apply H. by right.
Qed.
Lemma Forall2_map_eq {A B} (g : A → B) l l' :
  Forall2 (λ x y, g y = g x) l l' → map g l' = map g l.
Proof. induction 1; simpl; congruence. Qed.

Lemma dp_set_status_evolves s now r :
  s ∈ deployment_statuses → evolves r (dp_set_status s now r).
Proof. intros H. split; [done|by right]. Qed.
Lemma dp_apply_update_evolves s m h c cs b u now r :
  s ∈ deployment_statuses → evolves r (dp_apply_update s m h c cs b u now r).
Proof. intros H. split; [done|by right]. Qed.

Lemma evolves_id r r' : evolves r r' → dp_ID r' = dp_ID r.
Proof. intros [H _]. unfold dp_core in H. congruence. Qed.
Lemma evolves_production r r' : evolves r r' → production_cols r → production_cols r'.
Proof.
  intros [H _] (H1 & H2 & H3 & H4 & H5 & H6). unfold dp_core in H. simplify_eq.
  unfold production_cols. repeat split; congruence.
Qed.
Lemma evolves_preview r r' : evolves r r' → preview_cols r → preview_cols r'.
Proof.
  intros [H _] (H1 & H2 & H3 & H4). unfold dp_core in H. simplify_eq.
  unfold preview_cols. repeat split; congruence.
Qed.

(** The ways a handler changes the tables of the invariant, other than an insert. *)
Record evolved (d d' : DB) : Prop := {
  ev_deps : Forall2 evolves (deployments d) (deployments d');
  ev_srvs : servers d' = servers d;
  ev_svcs : map sv_core (services d') = map sv_core (services d);
  ev_tds : map td_core (teardown_jobs d') = map td_core (teardown_jobs d);
  ev_evs : ∃ evs, deployment_events d' = deployment_events d ++ evs ∧
                  Forall (λ e, has_key dp_ID (ev_DeploymentID e) (deployments d) = true) evs;
}.

Lemma map_core {A B C} (core : A → B) (g : B → C) (l l' : list A) :
  map core l' = map core l → map (λ x, g (core x)) l' = map (λ x, g (core x)) l.
Proof. intros H. rewrite <- !(map_map core g). by rewrite H. Qed.

Lemma elem_of_map_core {A B} (core : A → B) (l l' : list A) x :
  map core l' = map core l → x ∈ l → ∃ x', x' ∈ l' ∧ core x' = core x.
Proof.
  intros H Hx. assert (core x ∈ map core l') as Hc by (rewrite H; by apply list_elem_of_fmap_2).
  apply list_elem_of_fmap in Hc as (x' & Heq & Hx'). eauto.
Qed.

Lemma placed_mono d d' r r' :
  (∀ s, s ∈ services d → ∃ s', s' ∈ services d' ∧ sv_core s' = sv_core s) →
  (∀ s, s ∈ servers d → ∃ s', s' ∈ servers d' ∧ srv_ID s' = srv_ID s ∧ srv_WorkspaceID s' = srv_WorkspaceID s) →
  dp_ServiceID r' = dp_ServiceID r → dp_ServerID r' = dp_ServerID r → dp_WorkspaceID r' = dp_WorkspaceID r →
  placed d r → placed d' r'.
Proof.
  intros Hsv Hsrv H1 H2 H3 ((s & Hs & Hs1 & Hs2) & (v & Hv & Hv1 & Hv2)). split.
  - destruct (Hsv s Hs) as (s' & ? & [=]). exists s'. split; [done|]. split; congruence.
  - destruct (Hsrv v Hv) as (v' & ? & ? & ?). exists v'. split; [done|]. split; congruence.
Qed.

Lemma wf_deployment_mono d d' r r' :
  (∀ s, s ∈ services d → ∃ s', s' ∈ services d' ∧ sv_core s' = sv_core s) →
  (∀ s, s ∈ servers d → ∃ s', s' ∈ servers d' ∧ srv_ID s' = srv_ID s ∧ srv_WorkspaceID s' = srv_WorkspaceID s) →
  evolves r r' → wf_deployment d r → wf_deployment d' r'.
Proof.
  intros Hsv Hsrv He [Hst Hpl Hk Hpr]. pose proof He as [Hc Hs]. unfold dp_core in Hc. simplify_eq. split.
  - by destruct Hs as [->|?].
  - eapply placed_mono; [exact Hsv|exact Hsrv|..|exact Hpl]; congruence.
  - destruct Hk; [left; by eapply evolves_production|right; by eapply evolves_preview].
  - congruence.
Qed.

Lemma wf_deployment_frame d d' r :
  services d' = services d → servers d' = servers d → wf_deployment d r → wf_deployment d' r.
Proof.
  intros H1 H2. apply wf_deployment_mono; [rewrite H1; eauto|rewrite H2; eauto|reflexivity].
Qed.

Lemma wf_teardown_mono d d' t t' :
  (∀ r, r ∈ deployments d → ∃ r', r' ∈ deployments d' ∧ evolves r r') →
  td_core t' = td_core t → wf_teardown d t → wf_teardown d' t'.
Proof.
  intros Hd Ht (r & Hr & H1 & H2 & H3 & H4 & H5 & H6). destruct (Hd r Hr) as (r' & Hr' & He).
  pose proof He as [Hc _]. unfold dp_core, td_core in *. simplify_eq. exists r'. split; [done|].
  split; [congruence|]. split; [by eapply evolves_preview|]. repeat split; congruence.
Qed.

Lemma Forall2_elem {A} (R : A → A → Prop) l l' x : Forall2 R l l' → x ∈ l → ∃ y, y ∈ l' ∧ R x y.
Proof. induction 1 as [|a b l l' Hab _ IH]; intros Hx; set_solver. Qed.
Lemma Forall2_elem_r {A} (R : A → A → Prop) l l' y : Forall2 R l l' → y ∈ l' → ∃ x, x ∈ l ∧ R x y.
Proof. induction 1 as [|a b l l' Hab _ IH]; intros Hx; set_solver. Qed.

Lemma evolved_ids d d' : Forall2 evolves (deployments d) (deployments d') →
  map dp_ID (deployments d') = map dp_ID (deployments d).
Proof. intros H. apply Forall2_map_eq. eapply Forall2_impl; [exact H|]. intros; by apply evolves_id. Qed.

Lemma wf_evolved d d' : evolved d d' → wf d → wf d'.
Proof.
  intros [Hd Hsrv Hsvc Htd (evs & Hev & Hevs)] [W1 W2 W3 W4 W5 W6 W7 W8].
  assert (∀ s, s ∈ services d → ∃ s', s' ∈ services d' ∧ sv_core s' = sv_core s) as Msv
    by (intros s; by apply elem_of_map_core).
  assert (∀ s, s ∈ servers d → ∃ s', s' ∈ servers d' ∧ srv_ID s' = srv_ID s ∧ srv_WorkspaceID s' = srv_WorkspaceID s) as Msrv
    by (rewrite Hsrv; eauto).
  assert (∀ r, r ∈ deployments d → ∃ r', r' ∈ deployments d' ∧ evolves r r') as Md
    by (intros r; by apply Forall2_elem).
  split.
  - by rewrite (map_core sv_core fst _ _ Hsvc : map sv_ID _ = map sv_ID _).
  - apply Forall_forall. intros s' Hs'. symmetry in Hsvc.
    destruct (elem_of_map_core _ _ _ _ Hsvc Hs') as (s & Hs & [= <- _]).
    by apply (proj1 (Forall_forall _ _) W2).
  - by rewrite Hsrv.
  - by rewrite (evolved_ids _ _ Hd).
  - apply Forall_forall. intros r' Hr'. destruct (Forall2_elem_r _ _ _ _ Hd Hr') as (r & Hr & He).
    eapply wf_deployment_mono; [exact Msv|exact Msrv|exact He|]. by apply (proj1 (Forall_forall _ _) W5).
  - change (map td_ID (teardown_jobs d')) with (map (λ t, (td_core t).1.1.1.1.1.1.1.1) (teardown_jobs d')).
    by rewrite (map_core td_core (λ c, c.1.1.1.1.1.1.1.1) _ _ Htd).
  - apply Forall_forall. intros t' Ht'. symmetry in Htd.
    destruct (elem_of_map_core _ _ _ _ Htd Ht') as (t & Ht & Heq).
    eapply wf_teardown_mono; [exact Md|symmetry; exact Heq|]. by apply (proj1 (Forall_forall _ _) W7).
  - rewrite Hev. apply Forall_app. split.
    + eapply Forall_impl; [exact W8|]. intros e (r & Hr & Hid). destruct (Md r Hr) as (r' & Hr' & He).
      exists r'. split; [done|]. by rewrite (evolves_id _ _ He).
    + eapply Forall_impl; [exact Hevs|]. intros e (r & Hr & Hid)%has_key_true.
      destruct (Md r Hr) as (r' & Hr' & He). exists r'. split; [done|]. by rewrite (evolves_id _ _ He).
Qed.

Ltac evolve := split; simpl; try done; try (apply Forall2_refl, _); try (exists []; by rewrite app_nil_r).

Lemma evolved_refl d : evolved d d.
Proof.
  evolve.
Qed.

(** An audit row does not touch the invariant's tables. *)
Lemma wf_audited a tt_ ti ws ac d d' : audited a tt_ ti ws ac d d' → wf d → wf d'.
Proof. intros (row & -> & _). apply wf_evolved. evolve. Qed.

Lemma wf_inserted row d d' :
  inserted row d d' → placed d row → (production_cols row ∨ preview_cols row) →
  dp_PrNumber row < 2 ^ 31 → wf d → wf d'.
Proof.
  intros [Hc ->] Hpl Hk Hpr [W1 W2 W3 W4 W5 W6 W7 W8]. unfold deployment_constraints in Hc. propify.
  assert (wf_deployment d row) as Hrow by (split; try done; by apply in_list_true).
  split; simpl; try done.
  - rewrite map_app. apply NoDup_app. split; [done|]. split; [|by apply NoDup_singleton].
    intros x Hx ->%list_elem_of_singleton. by apply has_key_false in H.
  - assert (∀ r, wf_deployment d r → wf_deployment (set_deployments (deployments d ++ [row]) d) r) as Hf
      by (intros r; by apply wf_deployment_frame).
    apply Forall_app. split; [by eapply Forall_impl|]. constructor; [by apply Hf|done].
  - eapply Forall_impl; [exact W7|]. intros t (r & Hr & ?). exists r. simpl. set_solver.
  - eapply Forall_impl; [exact W8|]. intros t (r & Hr & ?). exists r. simpl. set_solver.
Qed.

Lemma wf_created_audited row a ws ac d d' :
  created_audited row a ws ac d d' → placed d row → (production_cols row ∨ preview_cols row) →
  dp_PrNumber row < 2 ^ 31 → wf d → wf d'.
Proof.
  intros (d1 & Hins & Haud) Hpl Hk Hpr W. eapply wf_audited; [exact Haud|]. by eapply wf_inserted.
Qed.

(** New jobs, each for a preview row of the table. *)
Lemma wf_new_teardowns ts d :
  NoDup (map td_ID (teardown_jobs d ++ ts)) → Forall (wf_teardown d) ts →
  wf d → wf (set_teardown_jobs (teardown_jobs d ++ ts) d).
Proof.
  intros Hnd Hts [W1 W2 W3 W4 W5 W6 W7 W8]. split; simpl; try done.
  - eapply Forall_impl; [exact W5|]. intros r. by apply wf_deployment_frame.
  - by apply Forall_app.
Qed.

Lemma preview_key_nonempty sid pr ref : canonical_uuid sid → previewRouteKey sid pr ref ≠ "".
Proof.
  intros Hs He. destruct (previewRouteKey_longer sid pr ref Hs) as [H|H].
  - rewrite He in H. pose proof (len_nonneg sid). unfold len at 2 in H. simpl in H. lia.
  - rewrite He in H. pose proof (canonical_uuid_nonempty _ Hs). by destruct sid.
Qed.

Lemma wf_service_uuid d r : wf d → r ∈ deployments d → canonical_uuid (dp_ServiceID r).
Proof.
  intros W Hr. pose proof (proj1 (Forall_forall _ _) (wf_deployments _ W) r Hr) as [_ [(s & Hs & <- & _) _] _ _].
  by apply (proj1 (Forall_forall _ _) (wf_service_uuids _ W)).
Qed.

(** Every row carries a routing key, so the fallback to the service id is dead. *)
Lemma wf_routeKeyOr d r : wf d → r ∈ deployments d → routeKeyOr (dp_RouteKey r) (dp_ServiceID r) = dp_RouteKey r.
Proof.
  intros W Hr. pose proof (wf_service_uuid _ _ W Hr) as Hu.
  pose proof (proj1 (Forall_forall _ _) (wf_deployments _ W) r Hr) as [_ _ Hk _].
  unfold routeKeyOr. destruct (String.eqb_spec (dp_RouteKey r) "") as [He|]; [|done].
  destruct Hk as [(_ & Hk & _)|(_ & _ & _ & Hk)]; [congruence|].
  rewrite He in Hk. symmetry in Hk. by apply preview_key_nonempty in Hk.
Qed.

Lemma wf_kind_preview d r : wf d → r ∈ deployments d → dp_Kind r = KindPreview → preview_cols r.
Proof.
  intros W Hr Hp. pose proof (proj1 (Forall_forall _ _) (wf_deployments _ W) r Hr) as [_ _ Hk _].
  destruct Hk as [(Hk & _)|Hk]; [|done]. by rewrite Hp in Hk.
Qed.

Lemma wf_teardown_row d dep rk t :
  wf d → dep ∈ deployments d → dp_Kind dep = KindPreview → rk = dp_RouteKey dep →
  teardown_row dep rk t → wf_teardown d t.
Proof.
  intros W Hd Hk -> (H1 & H2 & H3 & _ & _ & H4 & H5 & _). exists dep.
  repeat split; try done; by apply (wf_kind_preview d).
Qed.

Lemma wf_teardown_audited dep rk a ac t d d' :
  teardown_audited dep rk a ac t d d' → dep ∈ deployments d → dp_Kind dep = KindPreview →
  rk = dp_RouteKey dep → wf d → wf d'.
Proof.
  intros (d1 & Hrow & Hc & -> & Haud) Hd Hk Hrk W. eapply wf_audited; [exact Haud|].
  unfold teardown_constraints in Hc. propify. apply wf_new_teardowns; [| |done].
  - rewrite map_app. apply NoDup_app. split; [apply W|]. split; [|by apply NoDup_singleton].
    intros x Hx ->%list_elem_of_singleton. by apply has_key_false in H.
  - constructor; [|done]. by eapply wf_teardown_row.
Qed.

(** ** Placement of the new rows *)
Lemma service_row_core sid svc d : service_row sid svc d →
  ∃ s, s ∈ services d ∧ sv_ID s = sid ∧ sv_WorkspaceID s = sfd_WorkspaceID svc.
Proof. intros (s & Hs & ->). apply lookup_by_Some in Hs as [? ?]. by exists s. Qed.

Lemma placed_target `{A : Authorizer} c sid srv ws svc row d :
  target_ok c sid srv ws d → service_row sid svc d → fresh_row sid srv svc row → placed d row.
Proof.
  intros ((s & Hs & Hws) & (v & Hv & Hvs) & _) (s' & Hs' & ->) Hf. rewrite Hs in Hs'. simplify_eq.
  destruct Hf as (H1 & H2 & _ & _ & H3 & _). apply lookup_by_Some in Hs as [? ?], Hv as [? ?].
  simpl in *. split; eexists; (split; [eassumption|]); split; congruence.
Qed.

Lemma placed_same d r row :
  dp_ServiceID row = dp_ServiceID r → dp_ServerID row = dp_ServerID r →
  dp_WorkspaceID row = dp_WorkspaceID r → placed d r → placed d row.
Proof. intros. by apply (placed_mono d d r); eauto. Qed.

(** The server of a service's latest deployment is in the workspace of the service. *)
Lemma placed_latest sid srv svc row d :
  wf d → sql_GetLatestServerForService sid d = Some srv → service_row sid svc d →
  fresh_row sid srv svc row → placed d row.
Proof.
  intros W Hl Hsvc (H1 & H2 & _ & _ & H3 & _). unfold sql_GetLatestServerForService in Hl.
  destruct (sql_ListDeploymentsByService sid d) as [|r l] eqn:Hq; [done|]. injection Hl as <-.
  apply order_by_head_elem in Hq. apply elem_of_where in Hq as [Hr Hb]. propify.
  pose proof (proj1 (Forall_forall _ _) (wf_deployments _ W) r Hr) as [_ Hpl _ _].
  apply (placed_same d r); try congruence.
  destruct Hpl as [(s & Hs & Hs1 & Hs2) _]. apply service_row_core in Hsvc as (s' & Hs' & Hs1' & Hs2').
  assert (s' = s) as ->; [|congruence].
  pose proof (lookup_by_unique sv_ID _ _ (wf_service_ids _ W) Hs) as L1.
  pose proof (lookup_by_unique sv_ID _ _ (wf_service_ids _ W) Hs') as L2. congruence.
Qed.

Lemma wf_swept c n d d' : swept (expired c d) n d d' → wf d → wf d'.
Proof.
  intros (ts & aus & -> & _ & _ & Hts & _ & Hnd) W.
  assert (wf (set_teardown_jobs (teardown_jobs d ++ ts) d)) as W'.
  { apply wf_new_teardowns; [by apply Hnd, W| |done]. eapply Forall_impl; [exact Hts|].
    intros t (dep & (Hd & Hk & _) & Hrow & _). apply (wf_teardown_row d dep (routeKeyOr (dp_RouteKey dep) (dp_ServiceID dep))); try done.
    by apply (wf_routeKeyOr d). }
  eapply wf_evolved; [|exact W']. evolve.
Qed.

(** ** Evolution of the agent handlers *)

Lemma evolved_claimed srv row rest now d d' : claimed_from srv row rest now d d' → evolved d d'.
Proof.
  intros (Hq & ev & -> & Hev & _). evolve.
  - apply Forall2_update_where; [apply _|]. intros x _ _. by apply dp_set_status_evolves, in_list_true.
  - exists [ev]. split; [done|]. constructor; [|done]. rewrite Hev. apply has_key_true. exists row.
    split; [|done]. apply order_by_head_elem, elem_of_where in Hq. by apply Hq.
Qed.

Lemma evolved_failed id d d' : has_key dp_ID id (deployments d) = true → failed_or_same id d d' → evolved d d'.
Proof.
  intros Hid [->|(msg & now & ev & -> & Hev & _)]; [apply evolved_refl|]. evolve.
  - apply Forall2_update_where; [apply _|]. intros x _ _. by apply dp_apply_update_evolves, in_list_true.
  - exists [ev]. split; [done|]. constructor; [|done]. by rewrite Hev.
Qed.

Lemma reportable_status s : isAgentReportableStatus s = true → s ∈ deployment_statuses.
Proof. intros H%in_list_true. unfold deployment_statuses. set_solver. Qed.

Lemma evolved_reported i srv row d d' :
  lookup_by dp_ID (ri_DeploymentID i) (deployments d) = Some row →
  isAgentReportableStatus (ri_Status i) = true → reported i srv row d d' → evolved d d'.
Proof.
  intros Hl Hst (now & now' & now'' & evs & _ & Hevs & ->). evolve.
  - assert (Forall2 evolves (deployments d) (update_where (λ x, String.eqb (dp_ID x) (ri_DeploymentID i)) (dp_report i now) (deployments d))) as H1.
    { apply Forall2_update_where; [apply _|]. intros x _ _. by apply dp_apply_update_evolves, reportable_status. }
    destruct (switches i); [|done]. eapply Forall2_trans; [apply _|exact H1|].
    apply Forall2_update_where; [apply _|]. intros x _ _. by apply dp_set_status_evolves, in_list_true.
  - destruct (publishes i row); [|done]. by apply map_update_where.
  - exists evs. split; [done|]. eapply Forall_impl; [exact Hevs|]. intros e ->.
    apply lookup_by_Some in Hl as [? ?]. apply has_key_true. eauto.
Qed.

Lemma evolved_teardown_claimed srv t rest now d d' : teardown_claimed srv t rest now d d' → evolved d d'.
Proof. intros (_ & ->). evolve. by apply map_update_where. Qed.

Lemma evolved_teardown_reported i t d d' : teardown_reported i t d d' → evolved d d'.
Proof.
  intros (now & now' & ->). evolve; [|by apply map_update_where].
  case_match; [|apply Forall2_refl, _].
  apply Forall2_update_where; [apply _|]. intros x _ _. by apply dp_set_status_evolves, in_list_true.
Qed.
