(* ===== verification/DeploySystem.v ===== *)
(** * DeploySystem: the deployments module as a transition system

    A [Request] is a call of one handler; [handle] runs it.  [reachable] is the set of
    worlds any sequence of requests reaches, under any schedule of faults, interleaved
    with steps of the other modules. *)
From S2P Require Import Prelude.
From S2P Require Import GoStrings.
From S2P Require Import Problem.
From S2P Require Import Schema.
From S2P Require Import Platform.
From S2P Require Import Authz.
From S2P Require Import DeployNames.
From S2P Require Import DeployStore.
From S2P Require Import Deployments.
From S2P Require Import DeploySpec.
From S2P Require Import DeployHandlers.
From S2P Require Import DeployInv.

(** Requests of a dashboard user. *)
Inductive DashboardRequest :=
  | RCreateForService (i : CreateForServiceInput)
  | RCreatePreview (i : CreatePreviewInput)
  | RRollback (target : string)
  | RTeardownPreview (deploymentID : string)
  | RGet (deploymentID : string)
  | RListByService (serviceID : string)
  | RListByEnvironment (environmentID : string)
  | RListByProject (projectID : string)
  | RListByWorkspace (workspaceID : string)
  | RListEvents (deploymentID : string) (afterSeq : Z)
  | RListTeardowns (serviceID : string).

(** Requests of an agent, with the credential it presents. *)
Inductive AgentRequest :=
  | RPoll (i : PollInput)
  | RReport (i : ReportInput)
  | RSyncRoutes (i : SyncRoutesInput)
  | RReportRouteSync (i : ReportRouteSyncInput)
  | RPollTeardown (i : PollInput)
  | RReportTeardown (i : ReportTeardownInput).

(** Requests of the control plane itself: the webhook and the sweep. *)
Inductive SystemRequest :=
  | RCreatePreviewForPR (serviceID : string) (prNumber : Z)
  | RTeardownPreviewForPR (serviceID : string) (prNumber : Z)
  | RExpirePreviews (ttl : Z).

Inductive Request :=
  | Dashboard (caller : Principal) (r : DashboardRequest)
  | FromAgent (r : AgentRequest)
  | FromSystem (r : SystemRequest).

(** Inputs are [int32]s. *)
Definition typed (r : Request) : Prop :=
  match r with
  | Dashboard _ (RCreatePreview i) => cp_PRNumber i < 2 ^ 31
  | FromSystem (RCreatePreviewForPR _ pr) => pr < 2 ^ 31
  | _ => True
  end.

(** What a successful call of a handler may have changed: nothing, for a read. *)
Definition is_read (r : DashboardRequest) : bool :=
  match r with
  | RCreateForService _ | RCreatePreview _ | RRollback _ | RTeardownPreview _ => false
  | _ => true
  end.

Definition discard {X} (m : M X) : M unit := _ ← m; mret tt.

(** Another module's step: services and servers come, keep their workspace and stay. *)
Record other_step (d d' : DB) : Prop := {
  os_deps : deployments d' = deployments d;
  os_evs : deployment_events d' = deployment_events d;
  os_tds : teardown_jobs d' = teardown_jobs d;
  os_svc_ids : NoDup (map sv_ID (services d'));
  os_svc_uuids : Forall (λ s, canonical_uuid (sv_ID s)) (services d');
  os_srv_ids : NoDup (map srv_ID (servers d'));
  os_svcs : ∀ s, s ∈ services d → ∃ s', s' ∈ services d' ∧ sv_core s' = sv_core s;
  os_srvs : ∀ s, s ∈ servers d → ∃ s', s' ∈ servers d' ∧ srv_ID s' = srv_ID s ∧ srv_WorkspaceID s' = srv_WorkspaceID s;
}.

Lemma wf_other_step d d' : other_step d d' → wf d → wf d'.
Proof.
  intros [O1 O2 O3 O4 O5 O6 O7 O8] [W1 W2 W3 W4 W5 W6 W7 W8].
  split; rewrite ?O1, ?O2, ?O3; try done.
  - eapply Forall_impl; [exact W5|]. intros r. by apply wf_deployment_mono.
  - eapply Forall_impl; [exact W7|]. intros t. apply wf_teardown_mono; [|done].
    intros r Hr. exists r. split; [by rewrite O1|reflexivity].
Qed.

Section System.
Context {E : Env} {A : Authorizer}.
Implicit Types (w : World).

Definition handle_dashboard (c : Principal) (r : DashboardRequest) : M unit :=
  match r with
  | RCreateForService i => discard (CreateForService c i)
  | RCreatePreview i => discard (CreatePreview c i)
  | RRollback t => discard (RollbackToDeployment c t)
  | RTeardownPreview t => discard (TeardownPreview c t)
  | RGet t => discard (Get c t)
  | RListByService s => discard (ListByService c s)
  | RListByEnvironment s => discard (ListByEnvironment c s)
  | RListByProject s => discard (ListByProject c s)
  | RListByWorkspace s => discard (ListByWorkspace c s)
  | RListEvents t k => discard (ListEvents c t k)
  | RListTeardowns s => discard (ListTeardownsByService c s)
  end.
Definition handle_agent (r : AgentRequest) : M unit :=
  match r with
  | RPoll i => discard (PollDeployment i)
  | RReport i => ReportDeployment i
  | RSyncRoutes i => discard (SyncRoutes i)
  | RReportRouteSync i => ReportRouteSync i
  | RPollTeardown i => discard (PollTeardownJob i)
  | RReportTeardown i => ReportTeardownJob i
  end.
Definition handle_system (r : SystemRequest) : M unit :=
  match r with
  | RCreatePreviewForPR s pr => discard (CreatePreviewForPR s pr)
  | RTeardownPreviewForPR s pr => TeardownPreviewForPR s pr
  | RExpirePreviews ttl => discard (ExpirePreviews ttl)
  end.
Definition handle (r : Request) : M unit :=
  match r with
  | Dashboard c r => handle_dashboard c r
  | FromAgent r => handle_agent r
  | FromSystem r => handle_system r
  end.

(** Worlds reachable from [w0]. *)
Inductive reachable (w0 : World) : World → Prop :=
  | reach_start : reachable w0 w0
  | reach_request w r : reachable w0 w → typed r → reachable w0 (snd (handle r w))
  | reach_other w w' : reachable w0 w → other_step (w_db w) (w_db w') → reachable w0 w'.

(** ** Reads write nothing *)
Lemma wp_discard {X} (m : M X) (Q : go_error + unit → World → Prop) w :
  wp m (λ r w', match r with inl e => Q (inl e) w' | inr _ => Q (inr tt) w' end) w → wp (discard m) Q w.
Proof. intros H. unfold discard. apply wp_bind. eapply wp_mono; [|exact H]. by intros [e|a] w' ?. Qed.

(** What a read needs to be allowed. *)
Definition read_allowed (c : Principal) (d : DB) : Prop :=
  ∃ ws id, allows c ActionDeploymentRead (deployment_resource ws id) d.

Ltac read_done He := try (apply He; congruence); try (apply wp_fail, He; congruence); try (intros; apply He; congruence).

Lemma wp_read c r (Q : go_error + unit → World → Prop) w :
  is_read r = true →
  (∀ e w', w_db w' = w_db w → Q (inl e) w') →
  (∀ w', w_db w' = w_db w → read_allowed c (w_db w) → Q (inr tt) w') →
  wp (handle_dashboard c r) Q w.
Proof.
  intros Hr He Ha.
  destruct r; try done; simpl; apply wp_discard;
    unfold Get, ListByService, ListByEnvironment, ListByProject, ListByWorkspace, ListEvents,
      ListTeardownsByService, GetDeployment, WorkspaceAndProjectForService,
      WorkspaceAndProjectForEnvironment, WorkspaceForProject,
      store_ListByService, store_ListByEnvironment, store_ListByProject, store_ListByWorkspace,
      store_ListEvents, store_ListTeardownsByService;
    wp_steps; read_done He;
    repeat (case_match; read_done He); wp_steps;
    apply wp_Authorize; read_done He; intros w2 Hw2 Hal; wp_steps; read_done He;
    (apply Ha; [congruence|]); rewrite ?H0, ?H in Hal; eexists _, _; eassumption.
Qed.

(** ** Preservation of the invariant *)
Lemma wf_dashboard c r w : typed (Dashboard c r) → wf (w_db w) → wp (handle_dashboard c r) (λ _ w', wf (w_db w')) w.
Proof.
  intros Ht W. assert (∀ w', w_db w' = w_db w → wf (w_db w')) as Hs by congruence.
  destruct (is_read r) eqn:Hr; [apply wp_read; auto|].
  destruct r as [i|i|t|t| | | | | | |]; try done; simpl; apply wp_discard.
  - apply wp_CreateForService; [auto|]. intros ws svc row w' Htg Hsvc (Hf & Hp & _) Hc _.
    eapply wf_created_audited; [exact Hc|by eapply placed_target|by left| |done].
    destruct Hp as (_ & _ & -> & _). lia.
  - apply wp_CreatePreview; [auto|]. intros ws svc row w' Htg Hsvc _ _ (Hf & Hp & Hpr & _) Hc _.
    eapply wf_created_audited; [exact Hc|by eapply placed_target|by right| |done]. by rewrite Hpr.
  - apply wp_RollbackToDeployment; [auto|]. intros target row w' Hl _ _ Hrow Hc.
    apply lookup_by_Some in Hl as [Hin _]. pose proof (proj1 (Forall_forall _ _) (wf_deployments _ W) _ Hin) as [_ Hpl _ _].
    destruct Hrow as (H1 & H2 & _ & _ & H3 & _ & _ & Hp & _).
    eapply wf_created_audited; [exact Hc|by eapply placed_same|by left| |done].
    destruct Hp as (_ & _ & -> & _). lia.
  - apply wp_TeardownPreview; [auto|]. intros dep td w' Hl Hk _ Hta.
    apply lookup_by_Some in Hl as [Hin _]. eapply wf_teardown_audited; try done. by apply (wf_routeKeyOr (w_db w)).
Qed.

Lemma wf_agent r w : wf (w_db w) → wp (handle_agent r) (λ _ w', wf (w_db w')) w.
Proof.
  intros W. assert (∀ w', w_db w' = w_db w → wf (w_db w')) as Hs by congruence.
  assert (∀ w', evolved (w_db w) (w_db w') → wf (w_db w')) as Hv by (intros w' ?; by eapply wf_evolved).
  destruct r as [i|i|i|i|i|i]; simpl; try apply wp_discard.
  - apply wp_PollDeployment; [auto|auto|]. intros srv row rest now w1 _ Hc.
    assert (wf (w_db w1)) as W1 by (by eapply Hv, evolved_claimed).
    apply wp_dispatch; [congruence| |congruence].
    intros w2 Hf. eapply wf_evolved; [|exact W1]. eapply evolved_failed; [|exact Hf].
    destruct Hc as (Hq & ev & -> & _). simpl. apply has_key_true.
    apply order_by_head_elem, elem_of_where in Hq as [Hin _].
    exists (dp_assign now row). split; [|done]. apply elem_of_update_where. exists row.
    by rewrite String.eqb_refl.
  - apply wp_ReportDeployment; [auto|]. intros. by eapply Hv, evolved_reported.
  - apply wp_SyncRoutes; auto.
  - apply wp_ReportRouteSync; [auto|]. intros srv ds w' _ -> _.
    eapply wf_evolved; [|exact W]. evolve.
  - apply wp_PollTeardownJob; [auto|auto|]. intros. by eapply Hv, evolved_teardown_claimed.
  - apply wp_ReportTeardownJob; [auto|]. intros. by eapply Hv, evolved_teardown_reported.
Qed.

Lemma wf_system r w : typed (FromSystem r) → wf (w_db w) → wp (handle_system r) (λ _ w', wf (w_db w')) w.
Proof.
  intros Ht W. assert (∀ w', w_db w' = w_db w → wf (w_db w')) as Hs by congruence.
  destruct r as [sid pr|sid pr|ttl]; simpl; try apply wp_discard.
  - apply wp_CreatePreviewForPR; [auto|]. intros srv svc row w' _ Hl Hsvc (Hf & Hp & Hpr & _) Hc.
    eapply wf_created_audited; [exact Hc|by eapply placed_latest|by right| |done]. by rewrite Hpr.
  - apply wp_TeardownPreviewForPR; [auto|auto|]. intros dep td w' _ Hl Hta.
    unfold sql_GetLatestActivePreviewByRouteKey in Hl.
    destruct (newest_first _ _) as [|r l] eqn:Hq; [done|]. injection Hl as ->.
    apply order_by_head_elem, elem_of_where in Hq as [Hin Hb]. propify.
    by eapply wf_teardown_audited.
  - apply wp_ExpirePreviews; [auto|by intros _; apply Hs|]. intros now n w' _ Hsw. by eapply wf_swept.
Qed.

Lemma wf_handle r w : typed r → wf (w_db w) → wp (handle r) (λ _ w', wf (w_db w')) w.
Proof.
  intros Ht W. destruct r; simpl; [by apply wf_dashboard|by apply wf_agent|by apply wf_system].
Qed.

Lemma wf_reachable w0 w : wf (w_db w0) → reachable w0 w → wf (w_db w).
Proof.
  intros W0. induction 1 as [|w r _ IH Ht|w w' _ IH Ho]; [done| |by eapply wf_other_step].
  by apply (wf_handle r w).
Qed.
End System.
