(* ===== verification/DeploySafety.v ===== *)
(** * DeploySafety: authorization, atomicity and isolation of the deployments module

    Authorization, atomicity and audit of the dashboard handlers; what an agent's
    credential gives access to; the separation of previews from production; the tenant
    and routing facts every reachable state has.

    Agents, tenants, previews and production are kept apart.  What an agent's credential gives access to (its own server's rows), and why previews
    and production never touch each other's rows or routes. *)
From S2P Require Import Prelude.
From S2P Require Import GoStrings.
From S2P Require Import Problem.
From S2P Require Import Schema.
From S2P Require Import Platform.
From S2P Require Import Authz.
From S2P Require Import DeployNames.
From S2P Require Import DeployStore.
From S2P Require Import Deployments.
From S2P Require Import DeploySpec.
From S2P Require Import DeployHandlers.
From S2P Require Import DeployInv.
From S2P Require Import DeploySystem.

(** ** The effect of a dashboard request *)
Section Effects.
Context {E : Env} {A : Authorizer}.
Implicit Types (w : World).

Definition dashboard_effect (c : Principal) (r : DashboardRequest) (d d' : DB) : Prop :=
  if is_read r then d' = d ∧ read_allowed c d
  else ∃ ws id action target rows jobs,
    allows c ActionDeploymentCreate (deployment_resource ws id) d ∧
    audited action "deployment" target ws (p_UserID c)
      (set_teardown_jobs (teardown_jobs d ++ jobs) (set_deployments (deployments d ++ rows) d)) d' ∧
    Forall (λ x, dp_WorkspaceID x = ws) rows ∧ Forall (λ x, td_WorkspaceID x = ws) jobs ∧
    (length rows + length jobs = 1)%nat.

Lemma created_effect c r ws id row action d d' :
  is_read r = false → allows c ActionDeploymentCreate (deployment_resource ws id) d →
  dp_WorkspaceID row = ws → created_audited row action ws (p_UserID c) d d' → dashboard_effect c r d d'.
Proof.
  intros Hr Hal Hws (d1 & (_ & ->) & Haud). unfold dashboard_effect. rewrite Hr.
  exists ws, id, action, (dp_ID row), [row], []. rewrite app_nil_r.
  split; [done|]. split; [by destruct d|]. split; [by constructor|]. by split.
Qed.

Lemma wp_dashboard c r (Q : go_error + unit → World → Prop) w :
  (∀ e w', w_db w' = w_db w → Q (inl e) w') →
  (∀ w', dashboard_effect c r (w_db w) (w_db w') → Q (inr tt) w') →
  wp (handle_dashboard c r) Q w.
Proof.
  intros He Ha. destruct (is_read r) eqn:Hr.
  { apply wp_read; [done|done|]. intros w' Hw' Hal. apply Ha. unfold dashboard_effect. by rewrite Hr. }
  destruct r as [i|i|t|t| | | | | | |]; try done; simpl; apply wp_discard.
  - apply wp_CreateForService; [done|]. intros ws svc row w' Htg Hsvc (Hf & _) Hc _.
    apply Ha. destruct Htg as ((s & Hs & <-) & _ & Hal). eapply created_effect; [done|exact Hal| |exact Hc].
    destruct Hsvc as (s' & Hs' & ->), Hf as (_ & _ & _ & _ & -> & _). simpl. congruence.
  - apply wp_CreatePreview; [done|]. intros ws svc row w' Htg Hsvc _ _ (Hf & _) Hc _.
    apply Ha. destruct Htg as ((s & Hs & <-) & _ & Hal). eapply created_effect; [done|exact Hal| |exact Hc].
    destruct Hsvc as (s' & Hs' & ->), Hf as (_ & _ & _ & _ & -> & _). simpl. congruence.
  - apply wp_RollbackToDeployment; [done|]. intros target row w' _ _ Hal Hrow Hc.
    apply Ha. eapply created_effect; [done|exact Hal| |exact Hc]. apply Hrow.
  - apply wp_TeardownPreview; [done|]. intros dep td w' _ _ Hal (d1 & Hrow & _ & -> & Haud).
    apply Ha. unfold dashboard_effect. simpl.
    eexists _, _, _, _, [], [td]. split; [exact Hal|]. rewrite app_nil_r.
    split; [by destruct (w_db w)|]. split; [constructor|]. split; [|done].
    constructor; [|done]. apply Hrow.
Qed.

(** A write changes the database, if only by its audit row. *)
Lemma audited_neq a tt_ ti ws ac d d1 d' :
  audited a tt_ ti ws ac d1 d' → audit_events d1 = audit_events d → d' ≠ d.
Proof.
  intros (row & -> & _) Heq He. apply (f_equal audit_events) in He. simpl in He.
  rewrite Heq in He. apply (f_equal length) in He. rewrite length_app in He. simpl in He. lia.
Qed.
End Effects.

Section Properties.
Context {E : Env} {A : Authorizer}.
Implicit Types (w : World).

(** C3: A dashboard request that succeeds, or that changes the database at all, was
    authorized: the caller may create deployments (for a read: read them) in one
    workspace, every row it added belongs to that workspace, and no existing row of
    the deployments or teardown tables changed. *)
Theorem dashboard_authorized c r w res w' :
  handle_dashboard c r w = (res, w') → res = inr tt ∨ w_db w' ≠ w_db w →
  ∃ ws id rows jobs,
    allows c (if is_read r then ActionDeploymentRead else ActionDeploymentCreate)
      (deployment_resource ws id) (w_db w) ∧
    deployments (w_db w') = deployments (w_db w) ++ rows ∧
    teardown_jobs (w_db w') = teardown_jobs (w_db w) ++ jobs ∧
    Forall (λ x, dp_WorkspaceID x = ws) rows ∧ Forall (λ x, td_WorkspaceID x = ws) jobs ∧
    (is_read r = true → w_db w' = w_db w).
Proof.
  intros Hrun Hch. revert Hch. use_wp Hrun. apply wp_dashboard; [naive_solver|].
  intros w1 He _ _. unfold dashboard_effect in He. destruct (is_read r).
  - destruct He as (-> & ws & id & Hal). exists ws, id, [], []. rewrite !app_nil_r. done.
  - destruct He as (ws & id & a & t & rows & jobs & Hal & (row & -> & _) & Hr & Hj & _).
    exists ws, id, rows, jobs. done.
Qed.

(** C39: Atomicity. A request that returns an error leaves the database exactly as it
    was, under every schedule of faults. The one exception is an agent's poll, which
    can fail after its claim committed; then the only effect is that claim. *)
Theorem error_leaves_database r w e w' :
  handle r w = (inl e, w') →
  w_db w' = w_db w ∨
  ∃ i srv row rest now, r = FromAgent (RPoll i) ∧
    authenticated (pi_AgentID i) (pi_Credential i) srv (w_db w) ∧
    claimed_from srv row rest now (w_db w) (w_db w').
Proof.
  intros Hrun. destruct r as [c r|r|r]; simpl in Hrun.
  - left. use_wp Hrun. apply wp_dashboard; [naive_solver|done].
  - destruct r as [i|i|i|i|i|i]; simpl in Hrun.
    2: left; use_wp Hrun; apply wp_ReportDeployment; [naive_solver|done].
    3: left; use_wp Hrun; apply wp_ReportRouteSync; [naive_solver|done].
    4: left; use_wp Hrun; apply wp_ReportTeardownJob; [naive_solver|done].
    2: left; use_wp Hrun; apply wp_discard, wp_SyncRoutes; [naive_solver|done].
    2: left; use_wp Hrun; apply wp_discard, wp_PollTeardownJob; [naive_solver|done|done].
    use_wp Hrun. apply wp_discard, wp_PollDeployment; [naive_solver|done|].
    intros srv row rest now w1 Hauth Hc. apply wp_dispatch; [|done|done].
    intros e' w2 Hw2 [= ->]. right. exists i, srv, row, rest, now. by rewrite Hw2.
  - left. destruct r as [s pr|s pr|ttl]; simpl in Hrun.
    + use_wp Hrun. apply wp_discard, wp_CreatePreviewForPR; [naive_solver|done].
    + use_wp Hrun. apply wp_TeardownPreviewForPR; [naive_solver|done|done].
    + use_wp Hrun. apply wp_discard, wp_ExpirePreviews; [naive_solver|done|done].
Qed.

(** Audit. A successful write of a dashboard user adds exactly one row to the
    audit log, naming that user as the actor and the workspace it was authorized in,
    together with exactly one new deployment or teardown job; a failed one adds none. *)
Theorem dashboard_write_audited c r w res w' :
  is_read r = false → handle_dashboard c r w = (res, w') →
  match res with
  | inl _ => audit_events (w_db w') = audit_events (w_db w)
  | inr _ => ∃ ws id row, allows c ActionDeploymentCreate (deployment_resource ws id) (w_db w) ∧
      audit_events (w_db w') = audit_events (w_db w) ++ [row] ∧
      au_Actor row = p_UserID c ∧
      au_WorkspaceID row = (if String.eqb ws "" then None else Some ws) ∧
      (length (deployments (w_db w')) + length (teardown_jobs (w_db w')) =
       length (deployments (w_db w)) + length (teardown_jobs (w_db w)) + 1)%nat
  end.
Proof.
  intros Hr Hrun. use_wp Hrun. apply wp_dashboard; [by intros e w1 Hw1 <-; rewrite Hw1|].
  intros w1 He <-. unfold dashboard_effect in He. rewrite Hr in He.
  destruct He as (ws & id & a & t & rows & jobs & Hal & (row & -> & _ & _ & _ & Hac & Hws) & _ & _ & Hlen).
  exists ws, id, row. simpl. rewrite !length_app. repeat split; try done. lia.
Qed.
End Properties.

(** Under the policy of the program, a member whose role is viewer (and equally a
    caller without a membership, or an anonymous one) can run every dashboard request
    of the deployments module without ever changing the database. *)
Theorem viewer_cannot_write {E : Env} c r (w : World) res w' :
  (∀ ws role, GetWorkspaceMemberRole ws (p_UserID c) (w_db w) = Some role → role = RoleViewer) →
  handle_dashboard (A := policy_authorizer) c r w = (res, w') → w_db w' = w_db w.
Proof.
  intros Hrole Hrun. use_wp Hrun. apply wp_dashboard; [done|].
  intros w1 He _. unfold dashboard_effect in He. destruct (is_read r); [by destruct He|].
  destruct He as (ws & id & _ & _ & _ & _ & (_ & _ & role & Hr & Hp) & _).
  simpl in Hr. by rewrite (Hrole _ _ Hr) in Hp.
Qed.

(** ** Shared lemmas *)
Lemma unique_row d r x : NoDup (map dp_ID (deployments d)) → r ∈ deployments d → x ∈ deployments d →
  dp_ID x = dp_ID r → x = r.
Proof.
  intros Hnd Hr Hx Hid. pose proof (lookup_by_unique dp_ID _ _ Hnd Hr) as L1.
  pose proof (lookup_by_unique dp_ID _ _ Hnd Hx) as L2. congruence.
Qed.

Lemma queue_elem srv d r rest : deployment_queue srv d = r :: rest →
  r ∈ deployments d ∧ dp_ServerID r = srv ∧ dp_Status r = StatusQueued.
Proof. intros Hq. apply order_by_head_elem, elem_of_where in Hq as [Hin Hb]. by propify. Qed.

(** A preview's key is no production row's key. *)
Lemma preview_key_previews d r x :
  wf d → r ∈ deployments d → x ∈ deployments d → preview_cols r → dp_RouteKey x = dp_RouteKey r → preview_cols x.
Proof.
  intros W Hr Hx (_ & _ & _ & Hk) Heq.
  pose proof (proj1 (Forall_forall _ _) (wf_deployments _ W) x Hx) as [_ _ [(_ & Hp & _)|] _]; [|done].
  exfalso. rewrite Hp, Hk in Heq. symmetry in Heq. revert Heq.
  apply previewRouteKey_ne_uuid; by apply (wf_service_uuid d).
Qed.
Lemma production_key_productions d r x :
  wf d → r ∈ deployments d → x ∈ deployments d → production_cols r → dp_RouteKey x = dp_RouteKey r → production_cols x.
Proof.
  intros W Hr Hx Hp Heq.
  pose proof (proj1 (Forall_forall _ _) (wf_deployments _ W) x Hx) as [_ _ [|Hk] _]; [done|].
  pose proof (preview_key_previews d x r W Hx Hr Hk (eq_sym Heq)) as (Hb & _).
  destruct Hp as (Ha & _). by rewrite Ha in Hb.
Qed.

(** ** What an agent may change *)
Definition serves (srv : string) (d : DB) (sid : string) : Prop :=
  ∃ r, r ∈ deployments d ∧ dp_ServerID r = srv ∧ dp_ServiceID r = sid.

Definition dep_frame (srv : string) (r r' : db_Deployment) : Prop :=
  r' = r ∨ (dp_ServerID r = srv ∧ evolves r r').
Definition td_frame (srv : string) (t t' : db_TeardownJob) : Prop :=
  t' = t ∨ (td_ServerID t = srv ∧ td_core t' = td_core t).
Definition sv_frame (srv : string) (d : DB) (s s' : db_Service) : Prop :=
  s' = s ∨ (serves srv d (sv_ID s) ∧ ∃ url now, s' = sv_set_route_url url now s).
Definition dm_frame (srv : string) (d : DB) (m m' : db_Domain) : Prop :=
  m' = m ∨ (serves srv d (dm_ServiceID m) ∧ dm_Status m ∈ ["verified"; "active"; "failed"] ∧
            ∃ status msg now, status ∈ ["active"; "failed"] ∧ m' = dm_set_status status msg now m).

#[export] Instance dep_frame_refl srv : Reflexive (dep_frame srv). Proof. by left. Qed.
#[export] Instance td_frame_refl srv : Reflexive (td_frame srv). Proof. by left. Qed.
#[export] Instance sv_frame_refl srv d : Reflexive (sv_frame srv d). Proof. by left. Qed.
#[export] Instance dm_frame_refl srv d : Reflexive (dm_frame srv d). Proof. by left. Qed.
#[export] Instance dep_frame_trans srv : Transitive (dep_frame srv).
Proof.
  intros r r' r'' [->|[Hs He]] [->|[Hs' He']]; [by left|by right|by right|right].
  split; [done|]. by etransitivity.
Qed.

(** Only rows of server [srv], and rows that hang on its deployments, differ. *)
Record agent_frame (srv : string) (d d' : DB) : Prop := {
  af_deps : Forall2 (dep_frame srv) (deployments d) (deployments d');
  af_tds : Forall2 (td_frame srv) (teardown_jobs d) (teardown_jobs d');
  af_svcs : Forall2 (sv_frame srv d) (services d) (services d');
  af_doms : Forall2 (dm_frame srv d) (domains d) (domains d');
  af_evs : ∃ evs, deployment_events d' = deployment_events d ++ evs ∧
    Forall (λ e, ∃ r, r ∈ deployments d ∧ dp_ID r = ev_DeploymentID e ∧ dp_ServerID r = srv) evs;
  af_rest : d' = set_deployments (deployments d') (set_teardown_jobs (teardown_jobs d')
                   (set_services (services d') (set_domains (domains d')
                     (set_deployment_events (deployment_events d') d))));
}.

Ltac frame := split; simpl; try done; try (apply Forall2_refl, _); try (exists []; by rewrite app_nil_r).

Lemma agent_frame_refl srv d : agent_frame srv d d.
Proof. frame. by destruct d. Qed.

Lemma frame_claimed srv row rest now d d' :
  NoDup (map dp_ID (deployments d)) → claimed_from srv row rest now d d' → agent_frame srv d d'.
Proof.
  intros Hnd (Hq & ev & -> & Hev & _). destruct (queue_elem _ _ _ _ Hq) as (Hin & Hs & _). frame.
  - apply Forall2_update_where; [apply _|]. intros x Hx Hid. propify.
    rewrite (unique_row d row x Hnd Hin Hx Hid). right. split; [done|]. by apply dp_set_status_evolves, in_list_true.
  - exists [ev]. split; [done|]. constructor; [|done]. eauto.
Qed.

(** The claim and the failure of the claimed row, one after the other. *)
Lemma frame_claimed_failed srv row rest now d d1 d' :
  NoDup (map dp_ID (deployments d)) → claimed_from srv row rest now d d1 →
  failed_or_same (dp_ID row) d1 d' → agent_frame srv d d'.
Proof.
  intros Hnd Hc [->|(msg & now' & ev' & -> & Hev' & _)]; [by eapply frame_claimed|].
  pose proof (frame_claimed _ _ _ _ _ _ Hnd Hc) as [F1 _ _ _ _ _].
  destruct Hc as (Hq & ev & -> & Hev & _). destruct (queue_elem _ _ _ _ Hq) as (Hin & Hs & _). frame.
  - eapply Forall2_trans; [apply _|exact F1|]. apply Forall2_update_where; [apply _|].
    intros x Hx Hid. propify. right. destruct (Forall2_elem_r _ _ _ _ F1 Hx) as (r & Hr & Hf).
    assert (dp_ID r = dp_ID row) as Hrid by (destruct Hf as [->|[_ He]]; [done|by rewrite <- (evolves_id _ _ He)]).
    assert (r = row) as -> by (by apply (unique_row d)).
    split; [|by apply dp_apply_update_evolves, in_list_true].
    destruct Hf as [->|[_ [He _]]]; [done|]. injection He. congruence.
  - exists [ev; ev']. rewrite <- app_assoc. split; [done|]. constructor; [|constructor; [|done]]; eauto.
Qed.

Lemma frame_reported srv i row d d' :
  NoDup (map dp_ID (deployments d)) → lookup_by dp_ID (ri_DeploymentID i) (deployments d) = Some row →
  dp_ServerID row = srv → isAgentReportableStatus (ri_Status i) = true →
  reported i srv row d d' → agent_frame srv d d'.
Proof.
  intros Hnd Hl Hs Hst (now & now' & now'' & evs & _ & Hevs & ->).
  apply lookup_by_Some in Hl as [Hin Hid]. frame.
  - assert (Forall2 (dep_frame srv) (deployments d)
      (update_where (λ x, String.eqb (dp_ID x) (ri_DeploymentID i)) (dp_report i now) (deployments d))) as H1.
    { apply Forall2_update_where; [apply _|]. intros x Hx Hb. propify. right.
      rewrite (unique_row d row x Hnd Hin Hx) by congruence. split; [done|].
      by apply dp_apply_update_evolves, reportable_status. }
    destruct (switches i); [|done]. eapply Forall2_trans; [apply _|exact H1|].
    apply Forall2_update_where; [apply _|]. intros x _ Hb. unfold supersedes in Hb. propify.
    right. split; [done|]. by apply dp_set_status_evolves, in_list_true.
  - destruct (publishes i row); [|apply Forall2_refl, _]. apply Forall2_update_where; [apply _|].
    intros s _ Hb. propify. right. split; [|eauto]. exists row. by rewrite Hb.
  - exists evs. split; [done|]. eapply Forall_impl; [exact Hevs|]. intros e ->. eauto.
Qed.

Lemma frame_teardown_claimed srv t rest now d d' :
  NoDup (map td_ID (teardown_jobs d)) → teardown_claimed srv t rest now d d' → agent_frame srv d d'.
Proof.
  intros Hnd (Hq & ->). apply order_by_head_elem, elem_of_where in Hq as [Hin Hb]. propify. frame.
  apply Forall2_update_where; [apply _|]. intros x Hx Hid. propify. right. split; [|done].
  pose proof (lookup_by_unique td_ID _ _ Hnd Hin) as L1. pose proof (lookup_by_unique td_ID _ _ Hnd Hx) as L2. congruence.
Qed.

Lemma frame_teardown_reported srv i t d d' :
  NoDup (map td_ID (teardown_jobs d)) → lookup_by td_ID (rt_TeardownID i) (teardown_jobs d) = Some t →
  td_ServerID t = srv → teardown_reported i t d d' → agent_frame srv d d'.
Proof.
  intros Hnd Hl Hs (now & now' & ->). apply lookup_by_Some in Hl as [Hin Hid]. frame.
  - case_match; [|apply Forall2_refl, _]. apply Forall2_update_where; [apply _|].
    intros x _ Hb. unfold tears_down in Hb. propify. right. split; [congruence|]. by apply dp_set_status_evolves, in_list_true.
  - apply Forall2_update_where; [apply _|]. intros x Hx Hb. propify. right. split; [|done].
    pose proof (lookup_by_unique td_ID _ _ Hnd Hin) as L1. pose proof (lookup_by_unique td_ID _ _ Hnd Hx) as L2. congruence.
Qed.

Lemma frame_domains srv i ds d d' :
  d' = set_domains ds d → Forall2 (domain_synced d srv i) (domains d) ds → agent_frame srv d d'.
Proof.
  intros -> Hds. frame. eapply Forall2_impl; [exact Hds|].
  intros m m' [->|((res & row & _ & _ & _ & Hl & Hs & Hsid) & Hst & Hm)]; [by left|right].
  split; [|done]. apply lookup_by_Some in Hl as [? _]. by exists row.
Qed.

(** The credential and agent id an agent request carries. *)
Definition request_agent (r : AgentRequest) : string * string :=
  match r with
  | RPoll i | RPollTeardown i => (pi_AgentID i, pi_Credential i)
  | RReport i => (ri_AgentID i, ri_Credential i)
  | RSyncRoutes i => (sri_AgentID i, sri_Credential i)
  | RReportRouteSync i => (rri_AgentID i, rri_Credential i)
  | RReportTeardown i => (rt_AgentID i, rt_Credential i)
  end.

Section Properties.
Context {E : Env} {A : Authorizer}.
Implicit Types (w : World).

Lemma wp_agent_frame r w :
  wf (w_db w) →
  wp (handle_agent r) (λ _ w', w_db w' = w_db w ∨
    ∃ srv, authenticated (fst (request_agent r)) (snd (request_agent r)) srv (w_db w) ∧
           agent_frame srv (w_db w) (w_db w')) w.
Proof.
  intros W. pose proof (wf_deployment_ids _ W) as Hnd. pose proof (wf_teardown_ids _ W) as Hndt.
  destruct r as [i|i|i|i|i|i]; simpl; try apply wp_discard.
  - apply wp_PollDeployment; [auto|auto|]. intros srv row rest now w1 Hauth Hc.
    apply wp_dispatch.
    + intros e w2 Hw2. right. exists srv. split; [done|]. rewrite Hw2. by eapply frame_claimed.
    + intros w2 Hf. right. exists srv. split; [done|]. by eapply frame_claimed_failed.
    + intros out w2 Hw2 _. right. exists srv. split; [done|]. rewrite Hw2. by eapply frame_claimed.
  - apply wp_ReportDeployment; [auto|]. intros srv row w' Hauth Hl Hs Hst Hr. right. exists srv.
    split; [done|]. by eapply frame_reported.
  - apply wp_SyncRoutes; auto.
  - apply wp_ReportRouteSync; [auto|]. intros srv ds w' Hauth Hw' Hds. right. exists srv.
    split; [done|]. by eapply frame_domains.
  - apply wp_PollTeardownJob; [auto|auto|]. intros srv t rest now w' Hauth Hc. right. exists srv.
    split; [done|]. by eapply frame_teardown_claimed.
  - apply wp_ReportTeardownJob; [auto|]. intros srv t w' Hauth Hl Hs Hst Hr. right. exists srv.
    split; [done|]. by eapply frame_teardown_reported.
Qed.

(** C5: Agent isolation. Whatever an agent sends, either nothing changes or its
    credential authenticated it for one server, and then only deployment and teardown
    rows of that server changed (in their status columns only), events were appended
    only to that server's deployments, and a service or domain row changed only if the
    service has a deployment on that server; every other table is as it was. *)
Theorem agent_isolation r w res w' :
  wf (w_db w) → handle_agent r w = (res, w') →
  w_db w' = w_db w ∨
  ∃ srv, authenticated (fst (request_agent r)) (snd (request_agent r)) srv (w_db w) ∧
         agent_frame srv (w_db w) (w_db w').
Proof. intros W Hrun. use_wp Hrun. eapply wp_mono; [|by apply wp_agent_frame]. auto. Qed.

(** ** Previews and production *)
Definition is_production (r : db_Deployment) : bool := String.eqb (dp_Kind r) KindProduction.
Definition is_preview (r : db_Deployment) : bool := String.eqb (dp_Kind r) KindPreview.

(** The requests of a preview's life: creation, progress reports, teardown. *)
Definition preview_request (d : DB) (r : Request) : Prop :=
  match r with
  | Dashboard _ (RCreatePreview _) | Dashboard _ (RTeardownPreview _) => True
  | FromSystem _ => True
  | FromAgent (RPollTeardown _) | FromAgent (RReportTeardown _) => True
  | FromAgent (RReport i) =>
      ∃ row, lookup_by dp_ID (ri_DeploymentID i) (deployments d) = Some row ∧ dp_Kind row = KindPreview
  | _ => False
  end.

Definition production_kept (d d' : DB) : Prop :=
  where_ is_production (deployments d') = where_ is_production (deployments d) ∧ services d' = services d.

Lemma where_app {X} (p : X → bool) l k : where_ p (l ++ k) = where_ p l ++ where_ p k.
Proof. apply List.filter_app. Qed.

Lemma production_kept_created row a ws ac d d' :
  preview_cols row → created_audited row a ws ac d d' → production_kept d d'.
Proof.
  intros (Hk & _) (d1 & (_ & ->) & (au & -> & _)). split; [|done]. simpl. rewrite where_app.
  assert (where_ is_production [row] = []) as -> by (unfold where_, is_production; simpl; by rewrite Hk).
  by rewrite app_nil_r.
Qed.

Lemma preview_not_production x : preview_cols x → is_production x = false.
Proof. intros (Hk & _). unfold is_production. by rewrite Hk. Qed.
Lemma production_not_preview x : production_cols x → is_preview x = false.
Proof. intros (Hk & _). unfold is_preview. by rewrite Hk. Qed.

Lemma production_kept_reported i srv row d d' :
  wf d → lookup_by dp_ID (ri_DeploymentID i) (deployments d) = Some row → dp_Kind row = KindPreview →
  isAgentReportableStatus (ri_Status i) = true → reported i srv row d d' → production_kept d d'.
Proof.
  intros W Hl Hk Hst (now & now' & now'' & evs & _ & _ & ->).
  apply lookup_by_Some in Hl as [Hin Hid]. pose proof (wf_kind_preview d row W Hin Hk) as Hp.
  assert (publishes i row = false) as Hpub.
  { unfold publishes. rewrite Hk. simpl. apply andb_false_r. }
  split; [|simpl; by rewrite Hpub]. simpl.
  set (l1 := update_where _ (dp_report i now) _).
  assert (where_ is_production l1 = where_ is_production (deployments d)) as H1.
  { apply where_update_disjoint. intros x Hx Hb. propify.
    assert (x = row) as -> by (apply (unique_row d); [apply W|done|done|congruence]).
    by split; apply preview_not_production. }
  destruct (switches i); [|done]. rewrite where_update_disjoint; [done|].
  intros x Hx Hb. unfold supersedes in Hb. propify. rewrite (wf_routeKeyOr d row W Hin) in *.
  apply elem_of_update_where in Hx as (y & Hy & ->).
  assert (preview_cols y) as Hy'.
  { apply (preview_key_previews d row y W Hin Hy Hp). revert H0. by case_match. }
  split; apply preview_not_production; by case_match.
Qed.

Lemma production_kept_teardown i t d d' :
  wf d → t ∈ teardown_jobs d → teardown_reported i t d d' → production_kept d d'.
Proof.
  intros W Ht (now & now' & ->). split; [|done]. simpl. case_match; [|done].
  apply where_update_disjoint. intros x Hx Hb. unfold tears_down in Hb. propify.
  pose proof (proj1 (Forall_forall _ _) (wf_teardowns _ W) t Ht) as (r & Hr & _ & Hp & Hk & _).
  assert (preview_cols x) as Hx' by (apply (preview_key_previews d r x W Hr Hx Hp); congruence).
  by split; apply preview_not_production.
Qed.

(** Previews never touch production. In a well-formed database no request of a
    preview's life (creating it by hand or by webhook, every progress report of it,
    claiming, reporting or sweeping its teardown) changes, adds or removes a production
    deployment row, nor the published URL of any service. *)
Theorem previews_keep_production r w res w' :
  wf (w_db w) → preview_request (w_db w) r → handle r w = (res, w') →
  production_kept (w_db w) (w_db w').
Proof.
  intros W Hp Hrun. use_wp Hrun.
  assert (∀ w1, w_db w1 = w_db w → production_kept (w_db w) (w_db w1)) as Hs by (intros w1 Hw1; by rewrite Hw1).
  destruct r as [c [ |i| |t| | | | | | |]|[ |i| | |i|i]|[s pr|s pr|ttl]]; try done; simpl in *; try apply wp_discard.
  - apply wp_CreatePreview; [auto|]. intros ws svc row w1 _ _ _ _ (_ & Hc & _) Hca _ _. by eapply production_kept_created.
  - apply wp_TeardownPreview; [auto|]. intros dep td w1 _ _ _ (d1 & _ & _ & -> & (au & -> & _)) _. done.
  - destruct Hp as (row & Hl & Hk). apply wp_ReportDeployment; [auto|].
    intros srv row' w1 _ Hl' _ Hst Hr _. rewrite Hl in Hl'. injection Hl' as <-. by eapply production_kept_reported.
  - apply wp_PollTeardownJob; [auto|auto|]. intros srv t rest now w1 _ (_ & ->) _. done.
  - apply wp_ReportTeardownJob; [auto|]. intros srv t w1 _ Hl _ _ Hr _.
    apply lookup_by_Some in Hl as [? _]. by eapply production_kept_teardown.
  - apply wp_CreatePreviewForPR; [auto|]. intros srv svc row w1 _ _ _ (_ & Hc & _) Hca _. by eapply production_kept_created.
  - apply wp_TeardownPreviewForPR; [auto|auto|]. intros dep td w1 _ _ (d1 & _ & _ & -> & (au & -> & _)) _. done.
  - apply wp_ExpirePreviews; [auto|auto|]. intros now n w1 _ (ts & aus & -> & _) _. done.
Qed.

(** And production never touches previews: a report on a production deployment, a
    successful "running" report that supersedes the previous release included, leaves
    every preview row as it was. *)
Theorem production_report_keeps_previews i row w res w' :
  wf (w_db w) → lookup_by dp_ID (ri_DeploymentID i) (deployments (w_db w)) = Some row →
  dp_Kind row = KindProduction → ReportDeployment i w = (res, w') →
  where_ is_preview (deployments (w_db w')) = where_ is_preview (deployments (w_db w)).
Proof.
  intros W Hl Hk Hrun. use_wp Hrun. apply wp_ReportDeployment; [by intros e w1 ->|].
  intros srv row' w1 _ Hl' _ Hst (now & now' & now'' & evs & _ & _ & ->) _.
  rewrite Hl in Hl'. injection Hl' as <-. apply lookup_by_Some in Hl as [Hin Hid].
  assert (production_cols row) as Hp.
  { pose proof (proj1 (Forall_forall _ _) (wf_deployments _ W) row Hin) as [_ _ [|(Hk' & _)] _]; [done|].
    by rewrite Hk in Hk'. }
  simpl. set (l1 := update_where _ (dp_report i now) _).
  assert (where_ is_preview l1 = where_ is_preview (deployments (w_db w))) as H1.
  { apply where_update_disjoint. intros x Hx Hb. propify.
    assert (x = row) as -> by (apply (unique_row (w_db w)); [apply W|done|done|congruence]).
    by split; apply production_not_preview. }
  destruct (switches i); [|done]. rewrite where_update_disjoint; [done|].
  intros x Hx Hb. unfold supersedes in Hb. propify. rewrite (wf_routeKeyOr _ row W Hin) in *.
  apply elem_of_update_where in Hx as (y & Hy & ->).
  assert (production_cols y) as Hy'.
  { apply (production_key_productions _ row y W Hin Hy Hp). revert H0. by case_match. }
  split; apply production_not_preview; by case_match.
Qed.

(** C4: Tenant and route isolation in every reachable state: a deployment's server is a
    server of the workspace of its service; every routing key is a valid DNS label; a
    production row and a preview row never share a routing key; two production rows
    share one only if they are releases of the same service. *)
Theorem reachable_isolation w0 w :
  wf (w_db w0) → reachable w0 w →
  (∀ r, r ∈ deployments (w_db w) → placed (w_db w) r ∧ label_ok (dp_RouteKey r)) ∧
  (∀ p q, p ∈ deployments (w_db w) → q ∈ deployments (w_db w) →
     dp_Kind p = KindProduction → dp_RouteKey q = dp_RouteKey p →
     dp_Kind q = KindProduction ∧ dp_ServiceID q = dp_ServiceID p).
Proof.
  intros W0 Hre. pose proof (wf_reachable w0 w W0 Hre) as W. split.
  - intros r Hr. pose proof (proj1 (Forall_forall _ _) (wf_deployments _ W) r Hr) as [_ Hpl Hk Hpr].
    split; [done|]. pose proof (wf_service_uuid _ _ W Hr) as Hu. destruct Hk as [(_ & -> & _)|(_ & _ & _ & ->)].
    + by apply canonical_uuid_is_label.
    + by apply previewRouteKey_label.
  - intros p q Hp Hq Hk Heq.
    assert (production_cols p) as Hpc.
    { pose proof (proj1 (Forall_forall _ _) (wf_deployments _ W) p Hp) as [_ _ [|(Hk' & _)] _]; [done|]. by rewrite Hk in Hk'. }
    pose proof (production_key_productions _ p q W Hp Hq Hpc Heq) as Hqc.
    destruct Hpc as (_ & Hkp & _), Hqc as (? & Hkq & _). split; [done|congruence].
Qed.
End Properties.
