(* ===== verification/DeployJobs.v ===== *)
(** * DeployJobs: the work queue and the jobs handed to agents

    The container environment against a reference definition; what a claimed job
    carries; first-in first-out, exclusive claims; that a server's queue drains. *)
From S2P Require Import Prelude.
From S2P Require Import GoStrings.
From S2P Require Import Problem.
From S2P Require Import Schema.
From S2P Require Import Platform.
From S2P Require Import Authz.
From S2P Require Import DeployNames.
From S2P Require Import DeployStore.
From S2P Require Import Deployments.
From S2P Require Import DeploySpec.
From S2P Require Import DeployHandlers.
From S2P Require Import DeployInv.
From S2P Require Import DeploySystem.
From S2P Require Import DeploySafety.

(** ** The container environment *)
Section Config.
Context {E : Env}.

Definition is_secret (e : ConfigForDeploy) : bool := String.eqb (cfd_Type e) configTypeSecret.
(** An entry takes part: a secret only when secrets are included. *)
Definition included (inc : bool) (e : ConfigForDeploy) : bool := negb (is_secret e) || inc.
Definition value_of (e : ConfigForDeploy) : option string :=
  match configValue e with inr v => Some v | inl _ => None end.

(** Reference definition: the last included entry of the key in a scope. *)
Definition scope_entry (scope : string) (inc : bool) (entries : list ConfigForDeploy) (k : string)
    : option ConfigForDeploy :=
  last (List.filter (λ e, String.eqb (cfd_Scope e) scope && included inc e && String.eqb (cfd_Key e) k) entries).
(** The service-level value of a key overrides the environment-level one. *)
Definition effective (inc : bool) (entries : list ConfigForDeploy) (k : string) : option string :=
  match scope_entry configScopeService inc entries k with
  | Some e => value_of e
  | None => match scope_entry configScopeEnvironment inc entries k with
            | Some e => value_of e
            | None => None
            end
  end.

Lemma last_filter_cons {X} (p : X → bool) x l :
  last (List.filter p (x :: l)) =
  match last (List.filter p l) with Some y => Some y | None => if p x then Some x else None end.
Proof. simpl. destruct (p x); [by rewrite last_cons|]. by destruct (last _). Qed.

Lemma config_pass_lookup scope inc es env env' k :
  config_pass scope inc es env = inr env' →
  env' !! k = match scope_entry scope inc es k with Some e => value_of e | None => env !! k end.
Proof.
  revert env. induction es as [|e es IH]; intros env; simpl; [by intros [= <-]|].
  unfold scope_entry. rewrite last_filter_cons. fold (scope_entry scope inc es k).
  unfold included, is_secret.
  destruct (String.eqb (cfd_Scope e) scope); simpl.
  2:{ intros H. rewrite (IH _ H). by destruct (scope_entry _ _ _ _). }
  destruct (String.eqb (cfd_Type e) configTypeSecret) eqn:Hs, inc; simpl;
    try (intros H; rewrite (IH _ H); by destruct (scope_entry _ _ _ _));
    (destruct (configValue e) as [|v] eqn:Hv; [done|]; intros H; rewrite (IH _ H);
     destruct (scope_entry _ _ _ _); [done|];
     destruct (String.eqb_spec (cfd_Key e) k) as [->|];
       [by rewrite lookup_insert_eq; unfold value_of; rewrite Hv | by rewrite lookup_insert_ne]).
Qed.

Lemma config_pass_ok scope inc es env :
  (∃ env', config_pass scope inc es env = inr env') ↔
  ∀ e, e ∈ es → cfd_Scope e = scope → included inc e = true → value_of e ≠ None.
Proof.
  revert env. induction es as [|e es IH]; intros env; simpl; [set_solver|].
  assert (∀ (P : Prop), (P ↔ (∀ x, x ∈ es → cfd_Scope x = scope → included inc x = true → value_of x ≠ None)) →
    (cfd_Scope e = scope → included inc e = true → value_of e ≠ None) →
    (P ↔ ∀ x, x ∈ e :: es → cfd_Scope x = scope → included inc x = true → value_of x ≠ None)) as Hcons.
  { intros P HP He. rewrite HP. setoid_rewrite elem_of_cons. naive_solver. }
  unfold included, is_secret, value_of in *.
  destruct (String.eqb_spec (cfd_Scope e) scope) as [Hsc|Hsc]; simpl; [|apply Hcons; [apply IH|done]].
  destruct (String.eqb (cfd_Type e) configTypeSecret) eqn:Hs; simpl.
  - destruct inc; simpl; [|apply Hcons; [apply IH|done]].
    destruct (configValue e) as [err|v] eqn:Hv; [|apply Hcons; [apply IH|done]].
    split; [by intros [? ?]|]. intros H. exfalso. apply (H e); [left|done|by rewrite Hs|by rewrite Hv].
  - destruct (configValue e) as [err|v] eqn:Hv; [|apply Hcons; [apply IH|done]].
    split; [by intros [? ?]|]. intros H. exfalso. apply (H e); [left|done|by rewrite Hs|by rewrite Hv].
Qed.

(** Both directions, shared by the job theorems. *)
Lemma config_env_spec inc entries :
  match config_env inc entries with
  | inr env => (∀ k, env !! k = effective inc entries k) ∧
      ∀ e, e ∈ entries → cfd_Scope e = configScopeEnvironment ∨ cfd_Scope e = configScopeService →
           included inc e = true → value_of e ≠ None
  | inl _ => ∃ e, e ∈ entries ∧ included inc e = true ∧ value_of e = None
  end.
Proof.
  unfold config_env, effective.
  destruct (config_pass configScopeEnvironment inc entries ∅) as [err|env1] eqn:H1.
  - destruct (existsb (λ e, included inc e && bool_decide (value_of e = None)) entries) eqn:Hb.
    + apply existsb_exists in Hb as (e & He & Hb). propify. exists e. by rewrite list_elem_of_In.
    + exfalso. destruct (proj2 (config_pass_ok configScopeEnvironment inc entries ∅)) as [env' Hok]; [|congruence].
      intros e He _ Hi Hn. apply not_true_iff_false in Hb. apply Hb, existsb_exists. exists e.
      rewrite <- list_elem_of_In, Hi, bool_decide_true; done.
  - destruct (config_pass configScopeService inc entries env1) as [err|env2] eqn:H2.
    + destruct (existsb (λ e, included inc e && bool_decide (value_of e = None)) entries) eqn:Hb.
      * apply existsb_exists in Hb as (e & He & Hb). propify. exists e. by rewrite list_elem_of_In.
      * exfalso. destruct (proj2 (config_pass_ok configScopeService inc entries env1)) as [env' Hok]; [|congruence].
        intros e He _ Hi Hn. apply not_true_iff_false in Hb. apply Hb, existsb_exists. exists e.
        rewrite <- list_elem_of_In, Hi, bool_decide_true; done.
    + split.
      * intros k. rewrite (config_pass_lookup _ _ _ _ _ k H2), (config_pass_lookup _ _ _ _ _ k H1).
        rewrite lookup_empty. done.
      * intros e He [Hs|Hs].
        -- by eapply (proj1 (config_pass_ok _ _ _ _) (ex_intro _ _ H1)).
        -- by eapply (proj1 (config_pass_ok _ _ _ _) (ex_intro _ _ H2)).
Qed.

(** The environment of a container. When [config_env] succeeds, a key has exactly
    the value of the reference definition (the last service-level entry of the key,
    else the last environment-level one, secrets counted only when included); and it
    succeeds exactly when every included entry of the two scopes can be opened. *)
Theorem config_env_effective inc entries :
  match config_env inc entries with
  | inr env => (∀ k, env !! k = effective inc entries k) ∧
      ∀ e, e ∈ entries → cfd_Scope e = configScopeEnvironment ∨ cfd_Scope e = configScopeService →
           included inc e = true → value_of e ≠ None
  | inl _ => ∃ e, e ∈ entries ∧ included inc e = true ∧ value_of e = None
  end.
Proof. apply config_env_spec. Qed.

(** The environment without secrets: always computable, and made of variables only. *)
Lemma value_of_variable e : is_secret e = false → value_of e = Some (default "" (cfd_Value e)).
Proof. unfold is_secret, value_of, configValue. intros ->. by destruct (cfd_Value e). Qed.

Lemma scope_entry_Some scope inc es k e : scope_entry scope inc es k = Some e →
  e ∈ es ∧ included inc e = true ∧ cfd_Key e = k.
Proof.
  intros H. unfold scope_entry in H. apply last_Some in H as [l H].
  assert (e ∈ List.filter (λ e, String.eqb (cfd_Scope e) scope && included inc e && String.eqb (cfd_Key e) k) es) as He
    by (rewrite H; set_solver).
  apply list_elem_of_In, filter_In in He as [Hin Hb]. rewrite list_elem_of_In. by propify.
Qed.

Lemma config_pass_lookup_none es scope env env' k v :
  config_pass scope false es env = inr env' → env' !! k = Some v →
  env !! k = Some v ∨ ∃ e, e ∈ es ∧ is_secret e = false ∧ cfd_Key e = k ∧ v = default "" (cfd_Value e).
Proof.
  intros H Hk. rewrite (config_pass_lookup _ _ _ _ _ k H) in Hk.
  destruct (scope_entry _ _ _ _) as [e|] eqn:Hs; [right|by left].
  apply scope_entry_Some in Hs as (He & Hi & Hkey). unfold included in Hi. rewrite orb_false_r in Hi. propify.
  rewrite value_of_variable in Hk by done. exists e. naive_solver.
Qed.

Lemma config_env_variables entries env k v :
  config_env false entries = inr env → env !! k = Some v →
  ∃ e, e ∈ entries ∧ is_secret e = false ∧ cfd_Key e = k ∧ v = default "" (cfd_Value e).
Proof.
  unfold config_env. destruct (config_pass _ _ _ ∅) as [|env1] eqn:H1; [done|]. intros H2 Hk.
  destruct (config_pass_lookup_none _ _ _ _ _ _ H2 Hk) as [Hk1|?]; [|done].
  destruct (config_pass_lookup_none _ _ _ _ _ _ H1 Hk1) as [Hk0|?]; [|done].
  by rewrite lookup_empty in Hk0.
Qed.
End Config.

(** ** Queues *)
Definition is_queued (srv : string) (r : db_Deployment) : bool :=
  String.eqb (dp_ServerID r) srv && String.eqb (dp_Status r) "queued".

#[export] Instance deployment_job : Job db_Deployment := {|
  job_id := dp_ID; job_server := dp_ServerID; job_status := dp_Status; job_created := dp_CreatedAt;
  job_assign := dp_assign;
  job_assign_id := λ _ _, eq_refl; job_assign_status := λ _ _, eq_refl;
|}.

(** A claim takes the head of its server's queue and leaves the other queues alone. *)
Lemma queue_claimed srv row rest now d d' :
  NoDup (map dp_ID (deployments d)) → claimed_from srv row rest now d d' →
  deployment_queue srv d' = rest ∧ ∀ srv', srv' ≠ srv → deployment_queue srv' d' = deployment_queue srv' d.
Proof. intros Hnd (Hq & ev & -> & _). exact (queue_of_claimed srv row rest now (deployments d) Hnd Hq). Qed.

(** ** Claims under a healthy environment *)
Section Drain.
Context {E : Env}.
Implicit Types (w : World).

Definition no_fault : Prop := ∀ n, fault n = false.
(** The ids the database will generate are new. *)
Definition fresh_ids w : Prop :=
  Inj (=) (=) uuid_at ∧ ∀ n, (w_tick w ≤ n)%nat → uuid_at n ∉ map ev_ID (deployment_events (w_db w)).

(** [n] polls' worth of claims; an empty queue yields nothing. *)
Fixpoint claim_n (srv : string) (n : nat) : M (list Deployment) :=
  match n with
  | O => mret []
  | S n' =>
      d ← claim_tx srv;
      rest ← claim_n srv n';
      mret (match d with Some d => d :: rest | None => rest end)
  end.

Lemma claim_tx_empty srv w :
  no_fault → deployment_queue srv (w_db w) = [] →
  ∃ w', claim_tx srv w = (inr None, w') ∧ w_db w' = w_db w ∧ (w_tick w ≤ w_tick w')%nat.
Proof.
  intros Hnf Hq. unfold claim_tx, within_tx, ClaimNextForServer, ok_or_norows, db_exec, mbind, M_bind. simpl.
  rewrite !Hnf. unfold sql_ClaimNextDeploymentForServer. rewrite Hq. simpl. rewrite !Hnf.
  eexists. split; [reflexivity|]. simpl. split; [done|lia].
Qed.

Lemma claim_tx_head srv row rest w :
  no_fault → fresh_ids w → deployment_queue srv (w_db w) = row :: rest →
  ∃ now w', claim_tx srv w = (inr (Some (deploymentFromRow (dp_assign now row))), w') ∧
    claimed_from srv row rest now (w_db w) (w_db w') ∧ fresh_ids w'.
Proof.
  intros Hnf [Hinj Hfr] Hq. pose proof (queue_elem _ _ _ _ Hq) as (Hin & _ & _).
  set (d1 := set_deployments (update_where (λ x, String.eqb (dp_ID x) (dp_ID row)) (dp_assign (now_at (w_tick w))) (deployments (w_db w))) (w_db w)).
  set (ev := mk_ev (uuid_at (S (S (w_tick w)))) (dp_ID row) (Z.of_nat (S (S (w_tick w)))) KindStatus StatusAssigned
               "claimed by agent" (now_at (w_tick w)) "").
  assert (event_constraints ev d1 = true) as Hc.
  { unfold event_constraints. apply andb_true_iff. split; [|done]. apply andb_true_iff. split; [|done]. apply andb_true_iff. split.
    - apply negb_true_iff, has_key_false. simpl. apply Hfr. lia.
    - apply has_key_true. exists (dp_assign (now_at (w_tick w)) row). split; [|done].
      apply elem_of_update_where. exists row. by rewrite String.eqb_refl. }
  exists (now_at (w_tick w)), (mk_World (set_deployment_events (deployment_events d1 ++ [ev]) d1) (S (S (S (S (w_tick w))))) (w_txnow w)).
  split; [|split].
  - unfold claim_tx, within_tx, ClaimNextForServer, AppendEvent, ok_or_norows, db_exec, mbind, M_bind. simpl.
    rewrite !Hnf. unfold sql_ClaimNextDeploymentForServer. rewrite Hq. simpl. rewrite !Hnf.
    unfold sql_AppendDeploymentEvent. simpl. fold (dp_assign (now_at (w_tick w))) d1 ev.
    change (dp_set_status "assigned" (now_at (w_tick w))) with (dp_assign (now_at (w_tick w))). fold d1 ev.
    rewrite Hc. simpl. by rewrite !Hnf.
  - split; [done|]. exists ev. done.
  - split; [done|]. intros n Hn. simpl in *. rewrite map_app. intros [H|H]%elem_of_app.
    + apply (Hfr n); [lia|done].
    + apply list_elem_of_singleton, (inj uuid_at) in H. lia.
Qed.

Lemma claim_n_queue srv n w :
  no_fault → fresh_ids w → NoDup (map dp_ID (deployments (w_db w))) →
  ∃ ds w', claim_n srv n w = (inr ds, w') ∧
           map d_ID ds = take n (map dp_ID (deployment_queue srv (w_db w))) ∧
           deployment_queue srv (w_db w') = drop n (deployment_queue srv (w_db w)).
Proof.
  intros Hnf. revert w. induction n as [|n IH]; intros w Hfr Hnd; simpl; [by exists [], w|].
  destruct (deployment_queue srv (w_db w)) as [|row rest] eqn:Hq.
  - destruct (claim_tx_empty srv w Hnf Hq) as (w1 & Hrun & Hw1 & Ht).
    destruct (IH w1) as (ds & w2 & Hrun2 & Hds & Hq2).
    { destruct Hfr as [? Hfr]. split; [done|]. intros k Hk. rewrite Hw1. apply Hfr. lia. }
    { by rewrite Hw1. }
    exists ds, w2. unfold mbind, M_bind. rewrite Hrun, Hrun2. rewrite Hw1, Hq in *. simpl in *.
    rewrite take_nil in Hds. rewrite drop_nil in Hq2. done.
  - destruct (claim_tx_head srv row rest w Hnf Hfr Hq) as (now & w1 & Hrun & Hc & Hfr1).
    destruct (queue_claimed _ _ _ _ _ _ Hnd Hc) as [Hq1 _].
    destruct (IH w1) as (ds & w2 & Hrun2 & Hds & Hq2); [done| |].
    { rewrite (evolved_ids (w_db w) (w_db w1)); [done|]. by eapply ev_deps, evolved_claimed. }
    eexists _, w2. unfold mbind, M_bind. rewrite Hrun, Hrun2. split; [done|]. simpl. rewrite Hds, Hq2, Hq1. done.
Qed.
End Drain.

Section Properties.
Context {E : Env} {A : Authorizer}.
Implicit Types (w : World).

(** First in, first out, exactly once. When a poll answers at all with a change,
    the row it claimed was the oldest queued row of the authenticated agent's server;
    afterwards that server's queue is the old queue without its head and the queue of
    every other server is untouched, so no row is handed out twice. *)
Theorem poll_claims_oldest i w res w' :
  wf (w_db w) → PollDeployment i w = (res, w') →
  w_db w' = w_db w ∨
  ∃ srv row rest, authenticated (pi_AgentID i) (pi_Credential i) srv (w_db w) ∧
    deployment_queue srv (w_db w) = row :: rest ∧
    (∀ r, r ∈ deployments (w_db w) → is_queued srv r = true → dp_CreatedAt row ≤ dp_CreatedAt r) ∧
    deployment_queue srv (w_db w') = rest ∧
    (∀ srv', srv' ≠ srv → deployment_queue srv' (w_db w') = deployment_queue srv' (w_db w)).
Proof.
  intros W Hrun. use_wp Hrun. apply wp_PollDeployment; [auto|auto|].
  intros srv row rest now w1 Hauth Hc. pose proof (wf_deployment_ids _ W) as Hnd.
  destruct (queue_claimed _ _ _ _ _ _ Hnd Hc) as [Hq1 Hq2]. pose proof Hc as (Hq & _).
  assert (∀ d', (∀ s, deployment_queue s d' = deployment_queue s (w_db w1)) →
    ∃ srv row rest, authenticated (pi_AgentID i) (pi_Credential i) srv (w_db w) ∧
    deployment_queue srv (w_db w) = row :: rest ∧
    (∀ r, r ∈ deployments (w_db w) → is_queued srv r = true → dp_CreatedAt row ≤ dp_CreatedAt r) ∧
    deployment_queue srv d' = rest ∧
    (∀ srv', srv' ≠ srv → deployment_queue srv' d' = deployment_queue srv' (w_db w))) as Hgoal.
  { intros d' Hd'. exists srv, row, rest. split; [done|]. split; [done|]. split; [|split].
    - intros r Hr Hb. eapply order_by_head; [exact Hq|]. by apply elem_of_where.
    - by rewrite Hd'.
    - intros srv' Hne. by rewrite Hd', Hq2. }
  apply wp_dispatch; [intros e w2 Hw2 _; right; apply Hgoal; by rewrite Hw2| |intros out w2 Hw2 _ _; right; apply Hgoal; by rewrite Hw2].
  intros w2 [->|(msg & now' & ev & -> & _)] _; right; apply Hgoal; [done|].
  intros s. unfold deployment_queue. simpl. f_equal. apply where_update_disjoint.
  intros x Hx Hid. propify. split; [|simpl; apply andb_false_r].
  destruct (evolved_ids _ _ (ev_deps _ _ (evolved_claimed _ _ _ _ _ _ Hc))).
  destruct Hc as (_ & ev' & Hw1 & _). rewrite Hw1 in Hx. simpl in Hx, Hid.
  apply elem_of_update_where in Hx as (y & Hy & ->).
  destruct (String.eqb_spec (dp_ID y) (dp_ID row)) as [|Hne]; [simpl; apply andb_false_r|done].
Qed.

(** Liveness of the queue. With no faults and fresh ids, [n] claims of a server
    return exactly the first [n] rows of its queue, in queue order, and leave the rest:
    after as many polls as there are queued rows the queue is empty. *)
Theorem claims_drain_queue srv n w :
  no_fault → fresh_ids w → wf (w_db w) →
  ∃ ds w', claim_n srv n w = (inr ds, w') ∧
           map d_ID ds = take n (map dp_ID (deployment_queue srv (w_db w))) ∧
           deployment_queue srv (w_db w') = drop n (deployment_queue srv (w_db w)).
Proof. intros Hnf Hfr W. apply claim_n_queue; [done|done|apply W]. Qed.

(** What the job of a claimed row says. *)
Definition job_matches (row : db_Deployment) (d : DB) (out : Claimed) : Prop :=
  cl_HasWork out = true ∧ cl_DeploymentID out = dp_ID row ∧ cl_ImageRef out = dp_ImageRef row ∧
  cl_ContainerPort out = dp_ContainerPort row ∧ cl_AppLabel out = dp_RouteKey row ∧
  (if is_preview row then
     cl_NetworkName out = previewNetworkName (dp_RouteKey row) ∧ label_ok (cl_RouteHost out) ∧
     ∀ k v, cl_Env out !! k = Some v →
       ∃ e, e ∈ config_entries d ∧ ce_Type e ≠ configTypeSecret ∧ ce_Key e = k ∧ v = default "" (ce_Value e)
   else
     cl_NetworkName out = environmentNetworkName (dp_EnvironmentID row) ∧ cl_RouteHost out = "" ∧
     ∀ k, cl_Env out !! k =
       effective true (map configFromRow (sql_ListConfigForService (dp_ServiceID row) d)) k) ∧
  (cl_GitCredential out ≠ "" → dp_SourceKind row = SourceGit ∧
     ∃ s, s ∈ services d ∧ sv_ID s = dp_ServiceID row ∧ sv_SourceAccess s = "app").

Lemma job_of_matches row now d out :
  wf d → row ∈ deployments d → job_of (deploymentFromRow (dp_assign now row)) d out → job_matches row d out.
Proof.
  intros W Hin (env & svc & cred & Henv & (s & Hs & Hsvc) & Hout & Hcred). simpl in *.
  assert (routeKeyOr (dp_RouteKey row) (dp_ServiceID row) = dp_RouteKey row) as Hrk by by apply (wf_routeKeyOr d).
  assert (dp_PrNumber row < 2 ^ 31) as Hpr by apply (proj1 (Forall_forall _ _) (wf_deployments _ W) row Hin).
  set (k := String.eqb (dp_SourceKind row) SourceGit) in *.
  assert (cl_HasWork out = true ∧ cl_DeploymentID out = dp_ID row ∧ cl_ImageRef out = dp_ImageRef row ∧
    cl_ContainerPort out = dp_ContainerPort row ∧ cl_AppLabel out = dp_RouteKey row ∧ cl_Env out = env ∧
    cl_NetworkName out = (if is_preview row then previewNetworkName (dp_RouteKey row)
                          else environmentNetworkName (dp_EnvironmentID row)) ∧
    cl_RouteHost out = (if is_preview row then previewRouteHost (sfd_Slug svc) (dp_PrNumber row) (dp_GitRef row) (dp_ServiceID row)
                        else "")) as (J1 & J2 & J3 & J4 & J5 & J6 & J7 & J8).
  { rewrite Hout, <- Hrk. by destruct k. }
  unfold job_matches. rewrite J6, J7, J8. do 5 (split; [done|]). split.
  - unfold is_preview. destruct (String.eqb (dp_Kind row) KindPreview) eqn:Hp; simpl in Henv.
    + split; [done|]. split; [by apply previewRouteHost_label|]. intros k' v Hk.
      destruct (config_env_variables _ _ _ _ Henv Hk) as (e & He & Hsec & Hkey & Hv).
      apply list_elem_of_fmap in He as (r & -> & Hr). unfold sql_ListConfigForService in Hr.
      rewrite isort_perm in Hr. apply elem_of_where in Hr as [Hr _]. unfold is_secret in Hsec. propify.
      by exists r.
    + split; [done|]. split; [done|]. intros k'.
      pose proof (config_env_spec true (map configFromRow (sql_ListConfigForService (dp_ServiceID row) d))) as Hspec.
      rewrite Henv in Hspec. apply Hspec.
  - intros Hc. unfold k in *. destruct (String.eqb_spec (dp_SourceKind row) SourceGit) as [Hk|]; [|by rewrite Hout in Hc].
    split; [done|]. apply lookup_by_Some in Hs as [? ?]. exists s. split; [done|]. split; [done|].
    rewrite Hout in Hc. rewrite Hsvc in Hcred. simpl in *. by apply Hcred.
Qed.

(** The job an agent receives. A poll that returns work claimed the head of the
    queue, and the job describes that row: its artifact, port and routing key. A
    preview joins its own network under a valid host label and its environment
    consists of non-secret variables only; a production job joins its environment's
    network and carries exactly the effective environment, secrets included. A clone
    token is only ever handed out for a git build of a service connected through the
    App. *)
Theorem poll_returns_job i w out w' :
  wf (w_db w) → PollDeployment i w = (inr out, w') → cl_HasWork out = true →
  ∃ srv row rest now, authenticated (pi_AgentID i) (pi_Credential i) srv (w_db w) ∧
    claimed_from srv row rest now (w_db w) (w_db w') ∧ job_matches row (w_db w) out.
Proof.
  intros W Hrun Hw. revert Hw. use_wp Hrun.
  apply wp_PollDeployment; [by intros e w1 _|by intros w1 _ [= <-]|].
  intros srv row rest now w1 Hauth Hc. pose proof Hc as (Hq & ev & Hw1 & _).
  apply wp_dispatch; [by intros e w2 _|by intros w2 _ [= <-]|].
  intros out' w2 Hw2 Hjob [= ->] _. exists srv, row, rest, now. rewrite Hw2. split; [done|]. split; [done|].
  apply (job_of_matches row now); [done|by eapply queue_elem|]. by rewrite Hw1 in Hjob.
Qed.

(** Liveness of a poll. With no faults and fresh ids, an agent whose server has a
    queued image deployment gets a job, whenever the included configuration of the
    service can be opened. *)
Theorem poll_serves_queue i w srv row rest :
  no_fault → fresh_ids w → wf (w_db w) → pi_Credential i ≠ "" →
  sql_GetAgentServerByCredential (hashToken (pi_Credential i)) (w_db w) = Some (pi_AgentID i, srv) →
  deployment_queue srv (w_db w) = row :: rest → dp_SourceKind row = SourceImage →
  (∀ e, e ∈ config_entries (w_db w) → ce_Type e = configTypeSecret → open_sealed (ce_Ciphertext e) ≠ None) →
  ∃ out w', PollDeployment i w = (inr out, w') ∧ cl_HasWork out = true ∧ cl_DeploymentID out = dp_ID row.
Proof.
  intros Hnf Hfr W Hcred Hag Hq Hk Hsec.
  set (w1 := tick w). assert (fresh_ids w1) as Hfr1.
  { destruct Hfr as [? Hf]. split; [done|]. intros n Hn. apply Hf. simpl in Hn. lia. }
  destruct (claim_tx_head srv row rest w1 Hnf Hfr1 Hq) as (now & w2 & Hrun & Hc & _).
  pose proof Hc as (_ & ev & Hw2 & _). simpl in Hw2.
  destruct (queue_elem _ _ _ _ Hq) as (Hin & _ & _).
  pose proof (proj1 (Forall_forall _ _) (wf_deployments _ W) row Hin) as [_ [(s & Hs & Hsid & _) _] _ _].
  pose proof (lookup_by_unique sv_ID _ _ (wf_service_ids _ W) Hs) as Hls. rewrite Hsid in Hls.
  set (inc := negb (String.eqb (dp_Kind row) KindPreview)).
  assert (∃ env, config_env inc (map configFromRow (sql_ListConfigForService (dp_ServiceID row) (w_db w2))) = inr env) as [env Henv].
  { pose proof (config_env_spec inc (map configFromRow (sql_ListConfigForService (dp_ServiceID row) (w_db w2)))) as Hspec.
    destruct (config_env _ _) as [err|env]; [|eauto]. destruct Hspec as (e & He & _ & Hv). exfalso.
    apply list_elem_of_fmap in He as (r & -> & Hr). unfold sql_ListConfigForService in Hr.
    rewrite isort_perm in Hr. apply elem_of_where in Hr as [Hr _]. rewrite Hw2 in Hr. simpl in Hr.
    unfold value_of, configValue in Hv. simpl in Hv.
    destruct (String.eqb_spec (ce_Type r) configTypeSecret) as [Ht|]; [|by destruct (ce_Value r)].
    specialize (Hsec r Hr Ht). by destruct (open_sealed _). }
  unfold PollDeployment, need_credential, agent_server, resolveAgent, AgentServerByCredential, ok_or_norows,
    require, db_query_row, wrap, on_err, mbind, M_bind.
  rewrite (proj2 (String.eqb_neq _ _) Hcred). simpl. rewrite Hnf, Hag. simpl. rewrite String.eqb_refl, andb_false_r. simpl.
  fold w1. rewrite Hrun. unfold dispatch, wrap, on_err, configEnvForService, ConfigForService, db_query, found,
    serviceForDeploy, ok_or_norows, db_query_row, of_sum, mbind, M_bind, sql_GetServiceForDeploy.
  rewrite Hnf. simpl. fold inc. rewrite Henv. unfold wrap, on_err. simpl. rewrite Hnf. rewrite Hw2. simpl. rewrite Hls. simpl.
  rewrite Hk. simpl. eexists _, _. split; [reflexivity|]. done.
Qed.
End Properties.
