(* ===== verification/DeployProps.v ===== *)
(** * DeployProps: what each deployments handler achieves

    The functional theorems of the handlers: the rows a create, a preview and a rollback
    write, the effect of a progress report, custom-domain routing, the expiry sweep, and
    two places where the code does less than it means to. *)
From S2P Require Import Prelude.
From S2P Require Import GoStrings.
From S2P Require Import Problem.
From S2P Require Import Schema.
From S2P Require Import Platform.
From S2P Require Import Authz.
From S2P Require Import DeployNames.
From S2P Require Import DeployStore.
From S2P Require Import Deployments.
From S2P Require Import DeploySpec.
From S2P Require Import DeployHandlers.
From S2P Require Import DeployInv.
From S2P Require Import DeploySystem.
From S2P Require Import DeploySafety.

(** ** Image references *)
Definition tagged (ref : string) : bool := Contains ref "@" || Contains (after_last "/" ref) ":".

Lemma validateImageRef_shape raw ref : validateImageRef raw = inr ref →
  TrimSpace raw ≠ "" ∧ len (TrimSpace raw) ≤ maxImageRefLen ∧ ContainsAny (TrimSpace raw) ref_whitespace = false ∧
  ref = if tagged (TrimSpace raw) then TrimSpace raw else TrimSpace raw +:+ ":latest".
Proof.
  unfold validateImageRef, tagged.
  destruct (String.eqb (TrimSpace raw) "") eqn:H1; [done|].
  destruct (maxImageRefLen <? len (TrimSpace raw)) eqn:H2; [done|].
  destruct (ContainsAny (TrimSpace raw) ref_whitespace) eqn:H3; [done|].
  intros H. propify. split; [done|]. split; [lia|]. split; [done|].
  destruct (Contains (TrimSpace raw) "@"); simpl in *; [by simplify_eq|].
  destruct (Contains (after_last "/" (TrimSpace raw)) ":"); simpl in *; by simplify_eq.
Qed.

(** *** Trimming is stable under an appended tag *)
Lemma latest_no_space p : p ∈ space_seqs → ∀ c, c ∈ bytes_of ":latest" → c ∉ p.
Proof.
  assert (forallb (λ p, forallb (λ c, negb (existsb (Ascii.eqb c) p)) (bytes_of ":latest")) space_seqs = true) as H
    by by vm_compute.
  intros Hp c Hc Hcp. apply forallb_forall with (x := p) in H; [|by apply list_elem_of_In].
  apply forallb_forall with (x := c) in H; [|by apply list_elem_of_In].
  apply negb_true_iff in H. apply not_true_iff_false in H. apply H, existsb_exists.
  exists c. split; [by apply list_elem_of_In|by apply Ascii.eqb_eq].
Qed.

Lemma trimmed_latest l : trimmed l → trimmed (l ++ bytes_of ":latest").
Proof.
  intros [H1 H2]. split; apply strip_any_None; intros p Hp; apply strip_prefix_None; intros r Hr.
  - pose proof (proj1 (strip_prefix_None _ _) (proj1 (strip_any_None _ _) H1 p Hp)) as Hn.
    apply app_eq_inv in Hr as [(k & -> & Hk)|(k & -> & Hk)]; [by apply (Hn k)|].
    destruct k as [|c k]; [by apply (Hn []); rewrite !app_nil_r|].
    apply (latest_no_space _ Hp c); [rewrite Hk; left|set_solver].
  - rewrite rev_app_distr in Hr. apply list_elem_of_fmap in Hp as (q & -> & Hq).
    destruct (rev q) as [|c k] eqn:Hrq.
    + pose proof (proj1 (Forall_forall _ _) space_seqs_nonempty q Hq). apply (f_equal (@rev ascii)) in Hrq.
      by rewrite rev_involutive in Hrq.
    + simpl in Hr. injection Hr as Hc _. apply (latest_no_space q Hq "t"%char); [set_solver|].
      rewrite Hc. apply list_elem_of_In, in_rev. rewrite Hrq. by left.
Qed.

Lemma existsb_app_false {X} (p : X → bool) l k :
  existsb p (l ++ k) = existsb p l || existsb p k.
Proof. apply existsb_app. Qed.

Lemma after_last_bytes_app sep l k : existsb (Ascii.eqb sep) k = false →
  after_last_bytes sep (l ++ k) = after_last_bytes sep l ++ k.
Proof.
  intros Hk. assert (∀ m, existsb (Ascii.eqb sep) m = false → after_last_bytes sep m = m) as Hid.
  { intros [|c m] Hm; simpl in *; [done|]. apply orb_false_iff in Hm as [Hc Hm].
    rewrite Ascii.eqb_sym in Hc. by rewrite Hc, Hm. }
  induction l as [|c l IH]; simpl; [by apply Hid|].
  rewrite existsb_app, Hk, orb_false_r. destruct (Ascii.eqb c sep); [done|].
  by destruct (existsb _ l).
Qed.

Lemma contains_bytes_app p l k : contains_bytes p k = true → contains_bytes p (l ++ k) = true.
Proof.
  intros Hk. induction l as [|c l IH]; [done|]. cbn [app contains_bytes].
  destruct (strip_prefix p (c :: l ++ k)); [done|exact IH].
Qed.

Lemma ContainsAny_app_false s t cs :
  ContainsAny s cs = false → ContainsAny t cs = false → ContainsAny (s +:+ t) cs = false.
Proof.
  unfold ContainsAny, has_byte. rewrite bytes_of_app. intros Hs Ht.
  apply not_true_iff_false. intros (c & Hc & Hb)%existsb_exists.
  rewrite existsb_app in Hb. apply orb_true_iff in Hb as [Hb|Hb].
  - apply not_true_iff_false in Hs. apply Hs, existsb_exists. eauto.
  - apply not_true_iff_false in Ht. apply Ht, existsb_exists. eauto.
Qed.

Lemma tagged_latest s : tagged (s +:+ ":latest") = true.
Proof.
  unfold tagged, after_last, Contains. rewrite !bytes_of_app, bytes_of_str_of.
  rewrite after_last_bytes_app by by vm_compute.
  rewrite (contains_bytes_app (bytes_of ":")) by by vm_compute. apply orb_true_r.
Qed.

Lemma validateImageRef_of_shape ref :
  TrimSpace ref = ref → ref ≠ "" → len ref ≤ maxImageRefLen → ContainsAny ref ref_whitespace = false →
  tagged ref = true → validateImageRef ref = inr ref.
Proof.
  intros H1 H2 H3 H4 H5. unfold validateImageRef, tagged in *. rewrite H1, H4.
  destruct (String.eqb_spec ref ""); [done|]. destruct (Z.ltb_spec maxImageRefLen (len ref)); [lia|].
  destruct (Contains ref "@"); simpl in *; [done|]. by rewrite H5.
Qed.

(** Image references. An accepted reference is non-empty, free of white space, at
    most 512 bytes before the default tag, and always names a tag or a digest: it is the
    trimmed input, with ":latest" appended exactly when the input named neither.
    Validating it again (as a rollback does) gives the same reference, provided the
    default tag did not push it over the length limit. *)
Theorem validateImageRef_normal raw ref :
  validateImageRef raw = inr ref →
  ref ≠ "" ∧ ContainsAny ref ref_whitespace = false ∧ len ref ≤ maxImageRefLen + 7 ∧ tagged ref = true ∧
  (ref = TrimSpace raw ∨ (tagged (TrimSpace raw) = false ∧ ref = TrimSpace raw +:+ ":latest")) ∧
  (len ref ≤ maxImageRefLen → validateImageRef ref = inr ref).
Proof.
  intros (H1 & H2 & H3 & Href)%validateImageRef_shape.
  assert (TrimSpace ref = ref ∧ ref ≠ "" ∧ ContainsAny ref ref_whitespace = false ∧ len ref ≤ maxImageRefLen + 7 ∧ tagged ref = true)
    as (T & N & W & L & G).
  { destruct (tagged (TrimSpace raw)) eqn:Ht; subst ref.
    - pose proof (TrimSpace_trimmed_id _ (TrimSpace_trimmed raw)). repeat split; try done. lia.
    - split; [|split; [by destruct (TrimSpace raw)|split; [by apply ContainsAny_app_false|split; [|apply tagged_latest]]]].
      + apply TrimSpace_trimmed_id. rewrite bytes_of_app. apply trimmed_latest, TrimSpace_trimmed.
      + rewrite len_app. change (len ":latest") with 7. lia. }
  repeat split; try done.
  - destruct (tagged (TrimSpace raw)); [by left|by right].
  - intros Hl. by apply validateImageRef_of_shape.
Qed.

(** ** Routing keys *)
Lemma previewRouteKey_prefix sid pr ref : ∃ rest, previewRouteKey sid pr ref = sid +:+ "-" +:+ rest.
Proof. unfold previewRouteKey. case_match; eauto. Qed.

Lemma append_inj_l a b x y : String.length a = String.length b → a +:+ x = b +:+ y → a = b ∧ x = y.
Proof.
  intros Hl H. apply (f_equal bytes_of) in H. rewrite !bytes_of_app in H.
  apply app_inj_1 in H as [H1 H2]; [|by rewrite !length_bytes_of].
  by apply (inj bytes_of) in H1, H2.
Qed.

(** Preview routing keys do not cross services, and within a service two pull
    requests never share one, whatever their refs. *)
Theorem previewRouteKey_separates sid sid' pr pr' ref ref' :
  canonical_uuid sid → canonical_uuid sid' → pr < 2 ^ 31 → pr' < 2 ^ 31 →
  previewRouteKey sid pr ref = previewRouteKey sid' pr' ref' →
  sid = sid' ∧ (0 < pr → 0 < pr' → pr = pr').
Proof.
  intros Hs Hs' Hpr Hpr' Heq.
  assert (sid = sid') as ->.
  { destruct (previewRouteKey_prefix sid pr ref) as [x Hx], (previewRouteKey_prefix sid' pr' ref') as [y Hy].
    rewrite Hx, Hy in Heq. apply append_inj_l in Heq as [? _]; [done|]. by rewrite (uuid_len _ Hs), (uuid_len _ Hs'). }
  split; [done|]. intros H0 H0'. rewrite !previewRouteKey_pr in Heq by done.
  apply append_inj_l in Heq as [_ Heq]; [|done]. apply append_inj_l in Heq as [_ Heq]; [|done].
  by apply (inj Itoa).
Qed.

(** A branch whose slug looks like a pull request takes that pull request's key. *)
Lemma previewRouteKey_branch_collision sid :
  previewRouteKey sid 5 "feature/login" = previewRouteKey sid 0 "pr-5" ∧
  previewRouteKey sid 0 "feature/a" = previewRouteKey sid 0 "feature-a".
Proof. unfold previewRouteKey. by split. Qed.

Section Handlers.
Context {E : Env} {A : Authorizer}.
Implicit Types (w : World).

(** Deploying a service. When [CreateForService] succeeds it queued exactly one
    production deployment of that service on the requested server: the source comes
    from the service row (never from the caller), a git build uses the override ref,
    else the branch, else the default branch, an image is normalised and its port is
    valid; the server is in the service's workspace; the result is that row. *)
Theorem CreateForService_queues c i w dep w' :
  CreateForService c i w = (inr dep, w') →
  ∃ ws svc row,
    target_ok c (cfs_ServiceID i) (cfs_ServerID i) ws (w_db w) ∧
    service_row (cfs_ServiceID i) svc (w_db w) ∧
    production_row (cfs_ServiceID i) (cfs_ServerID i) svc (cfs_ContainerPort i) (cfs_GitRef i) row ∧
    dep = deploymentFromRow row ∧
    created_audited row "deployment.create" ws (p_UserID c) (w_db w) (w_db w') ∧
    (dp_SourceKind row = SourceImage → 1 ≤ dp_ContainerPort row ≤ maxPort).
Proof.
  intros Hrun. use_wp Hrun. apply wp_CreateForService; [done|].
  intros ws svc row w1 Ht Hsvc Hrow Hc _ [= <-]. exists ws, svc, row. repeat (split; [done|]).
  intros Hk. destruct Hrow as (_ & _ & _ & _ & Hart). destruct (String.eqb (sfd_SourceKind svc) SourceGit).
  - destruct Hart as (Hk' & _). by rewrite Hk' in Hk.
  - apply Hart.
Qed.

(** Creating a preview. When [CreatePreview] succeeds it queued exactly one preview
    of a buildable git service under its own routing key (never the service id), for
    exactly one of a branch or a pull request whose head GitHub reported; a password is
    stored only as a bcrypt hash, under a user name without Caddyfile syntax. *)
Theorem CreatePreview_queues c i w dep w' :
  wf (w_db w) → CreatePreview c i w = (inr dep, w') →
  ∃ ws svc row,
    target_ok c (cp_ServiceID i) (cp_ServerID i) ws (w_db w) ∧
    service_row (cp_ServiceID i) svc (w_db w) ∧
    sfd_SourceKind svc = SourceGit ∧ buildableAccess (sfd_SourceAccess svc) = true ∧
    preview_row (cp_ServiceID i) (cp_ServerID i) svc (TrimSpace (cp_Branch i)) (cp_PRNumber i)
      (cp_ContainerPort i) (cp_Password i) row ∧
    dep = deploymentFromRow row ∧ dp_RouteKey row ≠ dp_ServiceID row ∧
    created_audited row "deployment.preview" ws (p_UserID c) (w_db w) (w_db w') ∧
    (TrimSpace (cp_Branch i) = "" ↔ 0 < cp_PRNumber i).
Proof.
  intros W Hrun. use_wp Hrun. apply wp_CreatePreview; [done|].
  intros ws svc row w1 Ht Hsvc Hg Hb Hrow Hc Hone [= <-]. exists ws, svc, row. repeat (split; [done|]).
  split; [|by split]. destruct Hrow as ((Hsid & _) & (_ & _ & _ & Hk) & _). rewrite Hk.
  apply service_row_core in Hsvc as (s & Hs & Hid & _).
  pose proof (proj1 (Forall_forall _ _) (wf_service_uuids _ W) s Hs) as Hu.
  rewrite Hsid, <- Hid. by apply previewRouteKey_ne_uuid.
Qed.

(** Rollback. When [RollbackToDeployment] succeeds, the target had been healthy, and
    the new queued row reproduces its artifact on the same service and server: the same
    image, or the same repository at the commit it built (its ref if the commit is
    unknown), linked back to the target. *)
Theorem Rollback_reproduces c id w dep w' :
  RollbackToDeployment c id w = (inr dep, w') →
  ∃ target row,
    lookup_by dp_ID id (deployments (w_db w)) = Some target ∧ healthy target ∧
    rollback_row target row ∧ dep = deploymentFromRow row ∧
    allows c ActionDeploymentCreate (deployment_resource (dp_WorkspaceID target) "") (w_db w) ∧
    created_audited row "deployment.rollback" (dp_WorkspaceID target) (p_UserID c) (w_db w) (w_db w') ∧
    (dp_SourceKind target = SourceImage → tagged (dp_ImageRef target) = true →
     TrimSpace (dp_ImageRef target) = dp_ImageRef target → dp_ImageRef row = dp_ImageRef target).
Proof.
  intros Hrun. use_wp Hrun. apply wp_RollbackToDeployment; [done|].
  intros target row w1 Hl Hh Hal Hrow Hc [= <-]. exists target, row. repeat (split; [done|]).
  intros Hk Htag Htrim. destruct Hrow as (_ & _ & _ & _ & _ & _ & _ & _ & _ & Hart). rewrite Hk in Hart.
  destruct Hart as [_ Hv]. apply validateImageRef_shape in Hv as (_ & _ & _ & Hv).
  by rewrite Htrim, Htag in Hv.
Qed.

(** The guard of a rollback looks at the status of the target, not at its kind:
    rolling back to a preview queues the preview's code as a production release of the
    service, under the service's own routing key. *)
Theorem rollback_of_preview c id w dep w' target :
  RollbackToDeployment c id w = (inr dep, w') →
  lookup_by dp_ID id (deployments (w_db w)) = Some target → preview_cols target →
  d_Kind dep = KindProduction ∧ d_RouteKey dep = dp_ServiceID target ∧ d_CloneURL dep = dp_CloneUrl target.
Proof.
  intros Hrun Hl Hp. use_wp Hrun. apply wp_RollbackToDeployment; [done|].
  intros target' row w1 Hl' _ _ Hrow _ [= <-]. rewrite Hl in Hl'. injection Hl' as <-.
  destruct Hrow as (H1 & _ & _ & _ & _ & _ & _ & (H2 & H3 & _) & _ & Hart), Hp as (_ & Hk & _).
  rewrite Hk in Hart. simpl in *. destruct Hart as (_ & H4 & _). repeat split; [done|congruence|done].
Qed.

(** A progress report. When [ReportDeployment] succeeds, the agent owned the
    deployment, the reported status is one an agent may report, the row carries it
    (other columns are overwritten only by non-empty values), and the timeline grew by
    exactly the transition followed by the non-blank log lines, in order. *)
Theorem ReportDeployment_records i w w' :
  wf (w_db w) → ReportDeployment i w = (inr tt, w') →
  ∃ srv row row' evs,
    authenticated (ri_AgentID i) (ri_Credential i) srv (w_db w) ∧
    lookup_by dp_ID (ri_DeploymentID i) (deployments (w_db w)) = Some row ∧ dp_ServerID row = srv ∧
    isAgentReportableStatus (ri_Status i) = true ∧
    lookup_by dp_ID (ri_DeploymentID i) (deployments (w_db w')) = Some row' ∧
    dp_Status row' = ri_Status i ∧ dp_HostPort row' = keep_pos (ri_HostPort i) (dp_HostPort row) ∧
    dp_CommitSha row' = keep (ri_CommitSha i) (dp_CommitSha row) ∧
    dp_RouteUrl row' = keep (ri_RouteURL i) (dp_RouteUrl row) ∧ dp_core row' = dp_core row ∧
    deployment_events (w_db w') = deployment_events (w_db w) ++ evs ∧
    map event_payload evs = report_events i ∧ Forall (λ e, ev_DeploymentID e = ri_DeploymentID i) evs.
Proof.
  intros W Hrun. use_wp Hrun. apply wp_ReportDeployment; [done|].
  intros srv row w1 Hauth Hl Hs Hst (now & now' & now'' & evs & Hpay & Hall & ->) _.
  pose proof (lookup_by_Some _ _ _ _ Hl) as [Hin Hid].
  exists srv, row, (dp_report i now row), evs. repeat (split; [done|]). split; [|done].
  rewrite <- Hid. apply (lookup_by_unique dp_ID _ (dp_report i now row)).
  - simpl. destruct (switches i); rewrite !map_update_where by done; apply W.
  - simpl. assert (dp_report i now row ∈ update_where (λ x, String.eqb (dp_ID x) (dp_ID row))
      (dp_report i now) (deployments (w_db w))) as Hrow.
    { apply elem_of_update_where. exists row. by rewrite String.eqb_refl. }
    destruct (switches i); [|done]. apply elem_of_update_where. exists (dp_report i now row).
    split; [done|]. unfold supersedes. simpl. by rewrite String.eqb_refl, andb_false_r.
Qed.

(** One live release per route. When the agent reports a deployment running with a
    bound port, then afterwards it is the only running deployment of its routing key
    on that server; every other one that was running became superseded. *)
Theorem switch_leaves_one_running i w w' srv row :
  wf (w_db w) → ReportDeployment i w = (inr tt, w') → switches i = true →
  lookup_by dp_ID (ri_DeploymentID i) (deployments (w_db w)) = Some row → dp_ServerID row = srv →
  (∃ r, r ∈ deployments (w_db w') ∧ dp_ID r = ri_DeploymentID i ∧ dp_Status r = StatusRunning) ∧
  (∀ r, r ∈ deployments (w_db w') → dp_RouteKey r = dp_RouteKey row → dp_ServerID r = srv →
     dp_Status r = StatusRunning → dp_ID r = ri_DeploymentID i) ∧
  (∀ r, r ∈ deployments (w_db w) → dp_RouteKey r = dp_RouteKey row → dp_ServerID r = srv →
     dp_Status r = StatusRunning → dp_ID r ≠ ri_DeploymentID i →
     ∃ r', r' ∈ deployments (w_db w') ∧ dp_ID r' = dp_ID r ∧ dp_Status r' = StatusSuperseded).
Proof.
  intros W Hrun Hsw Hl Hs. use_wp Hrun. apply wp_ReportDeployment; [done|].
  intros srv' row' w1 _ Hl' Hs' _ (now & now' & now'' & evs & _ & _ & Hw1) _.
  rewrite Hl in Hl'. injection Hl' as <-. subst srv'. rewrite Hs in Hw1.
  apply lookup_by_Some in Hl as [Hin Hid]. rewrite Hsw, (wf_routeKeyOr _ row W Hin) in Hw1.
  set (l1 := update_where _ (dp_report i now) _) in *.
  assert (deployments (w_db w1) = update_where (supersedes (dp_RouteKey row) srv (ri_DeploymentID i))
    (dp_set_status StatusSuperseded now'') l1) as -> by by rewrite Hw1.
  unfold switches in Hsw. propify. split; [|split].
  - exists (dp_report i now row). split; [|by split]. apply elem_of_update_where.
    exists (dp_report i now row). split.
    + apply elem_of_update_where. exists row. by rewrite Hid, String.eqb_refl.
    + unfold supersedes. simpl. rewrite Hid, !String.eqb_refl. simpl. by rewrite ?andb_false_r.
  - intros r Hr Hk Hsrv Hst. apply elem_of_update_where in Hr as (x & Hx & ->).
    destruct (supersedes _ _ _ x) eqn:Hsup; [done|]. unfold supersedes in Hsup.
    rewrite Hk, Hsrv, Hst, !String.eqb_refl in Hsup. simpl in Hsup. by propify.
  - intros r Hr Hk Hsrv Hst Hne. exists (dp_set_status StatusSuperseded now'' r). split; [|done].
    apply elem_of_update_where. exists r. split.
    + apply elem_of_update_where. exists r. by rewrite (proj2 (String.eqb_neq _ _) Hne).
    + unfold supersedes. rewrite Hk, Hsrv, Hst, !String.eqb_refl. simpl.
      by rewrite (proj2 (String.eqb_neq _ _) Hne).
Qed.

(** A late log-only report revives a retired release: nothing looks at the status the
    row already has, so "superseded" is not terminal. *)
Lemma late_report_revives i w w' row :
  wf (w_db w) → ReportDeployment i w = (inr tt, w') → ri_Status i = StatusRunning → ri_HostPort i = 0 →
  lookup_by dp_ID (ri_DeploymentID i) (deployments (w_db w)) = Some row → dp_Status row = StatusSuperseded →
  ∃ r, r ∈ deployments (w_db w') ∧ dp_ID r = dp_ID row ∧ dp_Status r = StatusRunning.
Proof.
  intros W Hrun Hst Hhp Hl _. use_wp Hrun. apply wp_ReportDeployment; [done|].
  intros srv' row' w1 _ Hl' Hs' _ (now & now' & now'' & evs & _ & _ & ->) _.
  apply lookup_by_Some in Hl as [Hin Hid]. unfold switches. rewrite Hst, Hhp. simpl.
  exists (dp_report i now row). split; [|split; [done|exact Hst]].
  apply elem_of_update_where. exists row. by rewrite Hid, String.eqb_refl.
Qed.

(** Custom domains. [SyncRoutes] tells an agent to serve exactly the verified or
    active hostnames of services it really runs: each override is for a service some
    reported route of which names a deployment of it on the agent's own server, each
    service appears once, and nothing is written. *)
Theorem SyncRoutes_verified i w out w' :
  SyncRoutes i w = (inr out, w') →
  w_db w' = w_db w ∧
  ∃ srv, authenticated (sri_AgentID i) (sri_Credential i) srv (w_db w) ∧
         NoDup (map ro_ServiceID out) ∧ Forall (override_ok (w_db w) srv (sri_Routes i)) out.
Proof.
  intros Hrun. use_wp Hrun. apply wp_SyncRoutes; [done|].
  intros srv out' w1 Hw1 Ha Hnd Ho [= <-]. split; [done|]. by exists srv.
Qed.

(** The expiry sweep. It returns how many teardown jobs it queued, one audit row
    each; each is for a preview that was running and older than the time to live, and
    nothing else changed: no deployment row is touched. A zero or negative time to
    live does nothing. *)
Theorem ExpirePreviews_counts ttl w n w' :
  ExpirePreviews ttl w = (inr n, w') →
  if decide (ttl ≤ 0) then n = 0 ∧ w' = w
  else ∃ now, swept (expired (now - ttl) (w_db w)) n (w_db w) (w_db w').
Proof.
  intros Hrun. case_decide as Hz.
  - unfold ExpirePreviews in Hrun. rewrite (proj2 (Z.leb_le _ _) Hz) in Hrun. injection Hrun as <- <-. done.
  - use_wp Hrun. apply wp_ExpirePreviews; [done|lia|]. intros now n' w1 _ Hsw [= <-]. by exists now.
Qed.

(** Teardown. When an agent reports a teardown succeeded, every live deployment of
    that preview's routing key on that server is torn down and stays so in the result;
    the job carries the reported status; other rows are as they were. *)
Theorem teardown_retires_preview i w w' :
  wf (w_db w) → ReportTeardownJob i w = (inr tt, w') → rt_Status i = TeardownStatusSucceeded →
  ∃ t, lookup_by td_ID (rt_TeardownID i) (teardown_jobs (w_db w)) = Some t ∧
    (∀ r, r ∈ deployments (w_db w') → dp_RouteKey r = td_RouteKey t → dp_ServerID r = td_ServerID t →
       dp_Status r ∈ [StatusFailed; StatusSuperseded; StatusTornDown]) ∧
    (∀ r, r ∈ deployments (w_db w) → dp_RouteKey r ≠ td_RouteKey t ∨ dp_ServerID r ≠ td_ServerID t →
       r ∈ deployments (w_db w')) ∧
    (∃ t', t' ∈ teardown_jobs (w_db w') ∧ td_ID t' = rt_TeardownID i ∧ td_Status t' = TeardownStatusSucceeded).
Proof.
  intros W Hrun Hst. use_wp Hrun. apply wp_ReportTeardownJob; [done|].
  intros srv t w1 _ Hl _ _ (now & now' & ->) _. rewrite Hst. simpl. exists t. split; [done|].
  apply lookup_by_Some in Hl as [Hin Hid]. split; [|split].
  - intros r Hr Hk Hs. apply elem_of_update_where in Hr as (x & Hx & ->).
    destruct (tears_down _ _ x) eqn:Ht; [set_solver|]. unfold tears_down in Ht.
    rewrite Hk, Hs, !String.eqb_refl in Ht. apply negb_false_iff, in_list_true in Ht. set_solver.
  - intros r Hr Hne. apply elem_of_update_where. exists r. split; [done|].
    destruct (tears_down _ _ r) eqn:Ht; [|done]. unfold tears_down in Ht. propify. by destruct Hne.
  - exists (td_apply_update TeardownStatusSucceeded (rt_Message i) (rt_Error i) now t).
    split; [|by rewrite <- Hid]. apply elem_of_update_where. exists t. by rewrite Hid, String.eqb_refl.
Qed.
End Handlers.
