(* ===== verification/Caddy.v ===== *)
(** * Caddy: the agent's reverse-proxy manager

    [internal/agentcore/caddy.go]: DNS validation, the normalisation and rendering of
    the desired routes, and the switch of the configuration file with its rollback.
    Iteration over a Go map takes an arbitrary order of the keys. *)
From S2P Require Import Prelude.
From S2P Require Import GoStrings.
From S2P Require Import Problem.

(** A nil error is [None]. *)
Definition error := option go_error.

Record managedRoute := mk_managedRoute {
  r_ServiceID : string;
  r_DeploymentID : string;
  r_ContainerID : string;
  r_HostPort : Z;
  r_CustomHosts : list string;
  r_BasicAuthUser : string;
  r_BasicAuthHash : string;
  r_RouteHost : string;
}.

Record caddyManager := mk_caddyManager {
  m_configPath : string;
  m_baseDomain : string;
  m_httpPort : Z;
  m_admin : string;
}.

Definition caddyManagedMarker : string := "# plorigo-managed-caddyfile: true".
Definition nl : string := str_of [chr 10].
Definition tab : string := str_of [chr 9].

(** ** Validation *)
Definition is_label_rune (c : ascii) : bool := is_lower c || is_digit c || Ascii.eqb c "-".

(** The offending character of the message is given as its first byte. *)
Definition validateDNSLabel (name label : string) : error :=
  if String.eqb label "" then Some (Errorf "%s is required" [AStr name] None)
  else if 63 <? len label then Some (Errorf "%s %q is too long" [AStr name; AStr label] None)
  else if bool_decide (head (bytes_of label) = Some "-"%char) || bool_decide (last (bytes_of label) = Some "-"%char)
  then Some (Errorf "%s %q must not start or end with '-'" [AStr name; AStr label] None)
  else match List.find (λ c, negb (is_label_rune c)) (bytes_of label) with
       | Some c => Some (Errorf "%s %q contains invalid character %q" [AStr name; AStr label; AStr (str_of [c])] None)
       | None => None
       end.

Fixpoint validate_labels (labels : list string) : error :=
  match labels with
  | [] => None
  | l :: ls => match validateDNSLabel "domain label" l with Some e => Some e | None => validate_labels ls end
  end.

Definition validateDomainName (domain : string) : error :=
  if String.eqb domain "" then Some (Errorf "domain is required" [] None)
  else if 253 <? len domain then Some (Errorf "domain is too long" [] None)
  else if Contains domain "://" then Some (Errorf "domain must not include a scheme" [] None)
  else validate_labels (Split domain ".").

Definition validatePort (name : string) (port : Z) : error :=
  if (port <? 1) || (65535 <? port) then Some (Errorf "%s must be between 1 and 65535" [AStr name] None) else None.

(** White space and Caddyfile control characters: " \t\r\n{}". *)
Definition caddy_control : string := str_of (map chr [32; 9; 13; 10; 123; 125]%N).
Definition validateCaddyToken (name value : string) : error :=
  if String.eqb value "" then Some (Errorf "%s is required" [AStr name] None)
  else if ContainsAny value caddy_control then
    Some (Errorf "%s must not contain whitespace or Caddyfile control characters" [AStr name] None)
  else None.

(** [newCaddyManager], with the default file [DataDir/Caddyfile] given. *)
Record Options := mk_Options {
  o_CaddyBaseDomain : string;
  o_CaddyHTTPPort : Z;
  o_CaddyAdmin : string;
  o_CaddyConfig : string;
}.
Definition newCaddyManager (opts : Options) (defaultPath : string) : go_error + caddyManager :=
  let baseDomain := ToLower (TrimSpace (o_CaddyBaseDomain opts)) in
  let baseDomain := if String.eqb baseDomain "" then "localhost" else baseDomain in
  match validateDomainName baseDomain with
  | Some e => inl (Errorf "caddy base domain: %w" [] (Some e))
  | None =>
      let httpPort := if o_CaddyHTTPPort opts =? 0 then 80 else o_CaddyHTTPPort opts in
      match validatePort "caddy http port" httpPort with
      | Some e => inl e
      | None =>
          let admin := TrimSpace (o_CaddyAdmin opts) in
          let admin := if String.eqb admin "" then "localhost:2019" else admin in
          match validateCaddyToken "caddy admin address" admin with
          | Some e => inl e
          | None =>
              let configPath := TrimSpace (o_CaddyConfig opts) in
              let configPath := if String.eqb configPath "" then defaultPath else configPath in
              if String.eqb configPath "" then inl (Errorf "caddy config path is required" [] None)
              else inr (mk_caddyManager configPath baseDomain httpPort admin)
          end
      end
  end.

(** ** Hosts *)
Definition routeHost (serviceID baseDomain : string) : go_error + string :=
  let svc := ToLower (TrimSpace serviceID) in
  match validateDNSLabel "service route label" svc with
  | Some e => inl e
  | None =>
      let base := ToLower (TrimSpace baseDomain) in
      match validateDomainName base with
      | Some e => inl e
      | None => inr (svc +:+ "." +:+ base)
      end
  end.

Definition siteAddress (host : string) (port : Z) : string :=
  if port =? 80 then "http://" +:+ host else "http://" +:+ host +:+ ":" +:+ Itoa port.

Definition routeURL (m : caddyManager) (serviceID : string) : go_error + string :=
  match routeHost serviceID (m_baseDomain m) with
  | inl e => inl e
  | inr host =>
      if m_httpPort m =? 80 then inr ("http://" +:+ host)
      else inr ("http://" +:+ host +:+ ":" +:+ Itoa (m_httpPort m))
  end.

(** ** Normalisation *)
Fixpoint custom_hosts_loop (hosts seen out : list string) : go_error + list string :=
  match hosts with
  | [] => inr out
  | h :: hs =>
      let host := ToLower (TrimSpace (TrimSuffix h ".")) in
      if String.eqb host "" || existsb (String.eqb host) seen then custom_hosts_loop hs seen out
      else if Contains host "*" then
        inl (Errorf "custom host %q uses a wildcard, which is not supported yet" [AStr host] None)
      else match validateDomainName host with
           | Some e => inl (Errorf "custom host %q: %w" [AStr host] (Some e))
           | None => custom_hosts_loop hs (host :: seen) (out ++ [host])
           end
  end.
Definition normalizeCustomHosts (hosts : list string) : go_error + list string :=
  match custom_hosts_loop hosts [] [] with
  | inl e => inl e
  | inr out => inr (isort String.leb out)
  end.

Definition str_gt (a b : string) : bool := String.ltb b a.
Definition routeTieBreak (a b : managedRoute) : Z :=
  if negb (String.eqb (r_DeploymentID a) (r_DeploymentID b)) then
    if str_gt (r_DeploymentID a) (r_DeploymentID b) then 1 else -1
  else if str_gt (r_ContainerID a) (r_ContainerID b) then 1
  else if str_gt (r_ContainerID b) (r_ContainerID a) then -1
  else 0.

(** One route of the input, checked, with its label and custom hosts normalised. *)
Definition normalize_route (r : managedRoute) : go_error + managedRoute :=
  let svc := ToLower (TrimSpace (r_ServiceID r)) in
  match validateDNSLabel "service route label" svc with
  | Some e => inl e
  | None =>
      if (r_HostPort r <=? 0) || (65535 <? r_HostPort r) then
        inl (Errorf "route for service %s has invalid host port %d" [AStr svc; AInt (r_HostPort r)] None)
      else match normalizeCustomHosts (r_CustomHosts r) with
           | inl e => inl e
           | inr customHosts =>
               inr (mk_managedRoute svc (r_DeploymentID r) (r_ContainerID r) (r_HostPort r) customHosts
                      (r_BasicAuthUser r) (r_BasicAuthHash r) (r_RouteHost r))
           end
  end.

Fixpoint collect_routes (routes : list managedRoute) (byService : gmap string managedRoute)
    : go_error + gmap string managedRoute :=
  match routes with
  | [] => inr byService
  | r :: rs =>
      match normalize_route r with
      | inl e => inl e
      | inr r =>
          collect_routes rs
            (match byService !! r_ServiceID r with
             | None => <[r_ServiceID r := r]> byService
             | Some cur => if 0 <? routeTieBreak r cur then <[r_ServiceID r := r]> byService else byService
             end)
      end
  end.

Fixpoint claim_hosts (svc : string) (hosts : list string) (seenHosts : gmap string string)
    : go_error + gmap string string :=
  match hosts with
  | [] => inr seenHosts
  | host :: hs =>
      match seenHosts !! host with
      | Some owner =>
          if negb (String.eqb owner svc)
          then inl (Errorf "custom host %s is attached to multiple services" [AStr host] None)
          else claim_hosts svc hs (<[host := svc]> seenHosts)
      | None => claim_hosts svc hs (<[host := svc]> seenHosts)
      end
  end.

Fixpoint claim_all (routes : list managedRoute) (seenHosts : gmap string string) : error :=
  match routes with
  | [] => None
  | r :: rs => match claim_hosts (r_ServiceID r) (r_CustomHosts r) seenHosts with
               | inl e => Some e
               | inr seen => claim_all rs seen
               end
  end.

Definition service_leb (a b : managedRoute) : bool := String.leb (r_ServiceID a) (r_ServiceID b).

(** [order] is the iteration order the runtime picks for [byService]. *)
Definition normalizeRoutes (order : list managedRoute → list managedRoute) (routes : list managedRoute)
    : go_error + list managedRoute :=
  match collect_routes routes ∅ with
  | inl e => inl e
  | inr byService =>
      let values := order (map snd (map_to_list byService)) in
      match claim_all values ∅ with
      | Some e => inl e
      | None => inr (isort service_leb values)
      end
  end.

(** ** Rendering *)
Definition render_site (m : caddyManager) (r : managedRoute) (siteHost : string) : string :=
  siteAddress siteHost (m_httpPort m) +:+ " {" +:+ nl +:+
  (if negb (String.eqb (r_BasicAuthUser r) "") && negb (String.eqb (r_BasicAuthHash r) "")
   then tab +:+ "basic_auth {" +:+ nl +:+
        tab +:+ tab +:+ r_BasicAuthUser r +:+ " " +:+ r_BasicAuthHash r +:+ nl +:+
        tab +:+ "}" +:+ nl
   else "") +:+
  tab +:+ "reverse_proxy 127.0.0.1:" +:+ Itoa (r_HostPort r) +:+ nl +:+ "}" +:+ nl +:+ nl.

Definition concat_str (l : list string) : string := foldr String.append "" l.

(** The label a route is served under. *)
Definition host_label (r : managedRoute) : string :=
  if String.eqb (r_RouteHost r) "" then r_ServiceID r else r_RouteHost r.

Fixpoint render_routes (m : caddyManager) (routes : list managedRoute) : go_error + string :=
  match routes with
  | [] => inr ""
  | r :: rs =>
      match routeHost (host_label r) (m_baseDomain m) with
      | inl e => inl e
      | inr host =>
          match render_routes m rs with
          | inl e => inl e
          | inr rest => inr (concat_str (map (render_site m r) (host :: r_CustomHosts r)) +:+ rest)
          end
      end
  end.

Definition render_header (m : caddyManager) : string :=
  caddyManagedMarker +:+ nl +:+ "# Generated by the Plorigo agent. Do not edit by hand." +:+ nl +:+
  "{" +:+ nl +:+ tab +:+ "admin " +:+ m_admin m +:+ nl +:+ tab +:+ "auto_https off" +:+ nl +:+ "}" +:+ nl +:+ nl.

Definition render (m : caddyManager) (order : list managedRoute → list managedRoute) (routes : list managedRoute)
    : go_error + string :=
  match normalizeRoutes order routes with
  | inl e => inl e
  | inr normalized =>
      match render_routes m normalized with
      | inl e => inl e
      | inr body => inr (render_header m +:+ body)
      end
  end.

(** ** Switching the configuration *)

(** What the file system and the Caddy binary answer during one [apply]; a command
    returns its combined output and an error. *)
Record ApplyWorld := mk_ApplyWorld {
  aw_order : list managedRoute → list managedRoute;
  aw_read : error;         (* os.ReadFile, other than "does not exist" *)
  aw_mkdir : error;
  (* the step of the temporary file that failed: create, write, close or chmod *)
  aw_temp : option (string * go_error);
  aw_validate : string → string * error;
  aw_rename : error;
  aw_reload : string → string * error;
  aw_start : string → string * error;
  aw_restore : error;
  aw_not_found : go_error → bool;   (* errors.Is(err, exec.ErrNotFound) *)
}.

Definition readExistingConfig (m : caddyManager) (aw : ApplyWorld) (file : option string) : go_error + option string :=
  match aw_read aw with
  | Some e => inl (Errorf "read existing Caddy config: %w" [] (Some e))
  | None =>
      match file with
      | None => inr None
      | Some data =>
          if Contains data caddyManagedMarker then inr (Some data)
          else inl (Errorf "refusing to overwrite non-Plorigo Caddy config at %s" [AStr (m_configPath m)] None)
      end
  end.

(** The file after [restoreConfig]; on an error it keeps what it has. *)
Definition restoreConfig (aw : ApplyWorld) (old cur : option string) : error * option string :=
  match aw_restore aw with
  | Some e => (Some e, cur)
  | None => (None, old)
  end.

(** [strings.ReplaceAll(s, "\r\n", "\n")] *)
Fixpoint drop_crlf (l : bytes) : bytes :=
  match l with
  | [] => []
  | c :: l' =>
      match l' with
      | d :: _ => if Ascii.eqb c (chr 13) && Ascii.eqb d (chr 10) then drop_crlf l' else c :: drop_crlf l'
      | [] => [c]
      end
  end.
Definition is_cr (c : ascii) : bool := Ascii.eqb c (chr 13).
Definition TrimRight_cr (s : string) : string := str_of (rev (drop_while is_cr (rev (bytes_of s)))).
Definition last_n {A} (n : nat) (l : list A) : list A := skipn (length l - n) l.
(** [tailLines] of docker.go *)
Definition tailLines (s : string) (limit : nat) : list string :=
  let raw := Split (str_of (drop_crlf (bytes_of s))) (chr 10) in
  let lines := List.filter (λ l, negb (String.eqb (TrimSpace l) "")) (map TrimRight_cr raw) in
  if (limit <? length lines)%nat then last_n limit lines else lines.

Definition maxReportLogLines : nat := 200.

Definition commandError (aw : ApplyWorld) (action : string) (e : go_error) (out : string) : go_error :=
  if aw_not_found aw e then
    Errorf "%s: Caddy CLI was not found in PATH; install Caddy or set --caddy-bin / PLORIGO_AGENT_CADDY_BIN to its path"
      [AStr action] None
  else
    let msg := TrimSpace out in
    if String.eqb msg "" then Errorf "%s: %w" [AStr action] (Some e)
    else Errorf "%s: %w: %s" [AStr action; AStr msg] (Some e).
Definition appendCommandOutput (logs : list string) (prefix out : string) : list string :=
  logs ++ map (λ line, prefix +:+ ": " +:+ line) (tailLines out maxReportLogLines).

(** After the new file is in place: reload Caddy, else start it, else put the old file
    back.  The two errors printed with %v are left out of the arguments. *)
Definition reload_or_start (m : caddyManager) (aw : ApplyWorld) (logs : list string) (rendered : string)
    (old : option string) : (list string * error) * option string :=
  let '(out, err) := aw_reload aw rendered in
  let logs := appendCommandOutput logs "caddy reload" out in
  match err with
  | None => ((logs, None), Some rendered)
  | Some e =>
      let '(startOut, startErr) := aw_start aw rendered in
      let logs := appendCommandOutput logs "caddy start" startOut in
      match startErr with
      | None => ((logs, None), Some rendered)
      | Some _ =>
          let '(restoreErr, file') := restoreConfig aw old (Some rendered) in
          let cause := Some (commandError aw "reload Caddy config" e out) in
          match restoreErr with
          | None => ((logs, Some (Errorf "%w; starting Caddy also failed: %v" [] cause)), file')
          | Some _ =>
              ((logs, Some (Errorf "%w; starting Caddy also failed: %v; additionally could not restore previous Caddy config: %v"
                       [] cause)), file')
          end
      end
  end.

(** [apply]: the log and the error, and the configuration file it leaves. *)
Definition apply (m : caddyManager) (aw : ApplyWorld) (routes : list managedRoute) (file : option string)
    : (list string * error) * option string :=
  match render m (aw_order aw) routes with
  | inl e => (([], Some e), file)
  | inr rendered =>
      match readExistingConfig m aw file with
      | inl e => (([], Some e), file)
      | inr old =>
          match aw_mkdir aw with
          | Some e => (([], Some (Errorf "create Caddy config directory: %w" [] (Some e))), file)
          | None =>
              match aw_temp aw with
              | Some (step, e) => (([], Some (Errorf "%s temporary Caddy config: %w" [AStr step] (Some e))), file)
              | None =>
                  let '(out, err) := aw_validate aw rendered in
                  let logs := appendCommandOutput [] "caddy validate" out in
                  match err with
                  | Some e => ((logs, Some (commandError aw "validate Caddy config" e out)), file)
                  | None =>
                      match aw_rename aw with
                      | Some e => ((logs, Some (Errorf "activate Caddy config: %w" [] (Some e))), file)
                      | None => reload_or_start m aw logs rendered old
                      end
                  end
              end
          end
      end
  end.
