(* ===== verification/CaddyProps.v ===== *)
(** * CaddyProps: routing that the agent accepts, normalises and switches safely *)
From S2P Require Import Prelude.
From S2P Require Import GoStrings.
From S2P Require Import Problem.
From S2P Require Import DeployNames.
From S2P Require Import Caddy.

(** ** DNS labels: the validator decides [label_ok] *)
Lemma is_label_rune_byte c : is_label_rune c = is_label_byte c.
Proof. done. Qed.

Lemma validateDNSLabel_ok name s : validateDNSLabel name s = None ↔ label_ok s.
Proof.
  unfold validateDNSLabel. split.
  - destruct (String.eqb_spec s ""); [done|]. destruct (Z.ltb_spec 63 (len s)); [done|].
    destruct (bool_decide (head _ = _)) eqn:Hh; [done|]. destruct (bool_decide (last _ = _)) eqn:Hl; [done|].
    simpl. destruct (List.find _ _) eqn:Hf; [done|]. intros _. propify. split; try done.
    apply Forall_forall. intros c Hc. apply list_elem_of_In in Hc.
    pose proof (find_none _ _ Hf c Hc) as Hn. by apply negb_false_iff in Hn.
  - intros [H1 H2 H3 H4 H5]. destruct (String.eqb_spec s ""); [done|]. destruct (Z.ltb_spec 63 (len s)); [lia|].
    rewrite !bool_decide_false by done. simpl.
    destruct (List.find _ _) as [c|] eqn:Hf; [|done]. apply find_some in Hf as [Hc Hb].
    apply list_elem_of_In in Hc. pose proof (proj1 (Forall_forall _ _) H3 c Hc) as Hx.
    simpl in Hx. by rewrite is_label_rune_byte, Hx in Hb.
Qed.

(** ** Host names are fixed points of the normalisation *)
Definition host_byte (c : ascii) : bool := is_label_byte c || Ascii.eqb c ".".

Lemma host_byte_plain c : host_byte c = true → lower_byte c = c ∧ c ≠ chr 196 ∧ c ≠ chr 226.
Proof.
  assert (H : ∀ c, implb (host_byte c) (Ascii.eqb (lower_byte c) c && negb (Ascii.eqb c (chr 196)) && negb (Ascii.eqb c (chr 226))) = true)
    by (apply byte_forall; by vm_compute).
  specialize (H c). intros Hc. rewrite Hc in H. cbn [implb] in H.
  apply andb_true_iff in H as [[H1 H2]%andb_true_iff H3].
  apply negb_true_iff, Ascii.eqb_neq in H2, H3. by apply Ascii.eqb_eq in H1.
Qed.

Lemma lower_bytes_host l : Forall (λ c, host_byte c = true) l → lower_bytes l = l.
Proof.
  induction 1 as [|c l Hc Hl IH]; [done|]. destruct (host_byte_plain c Hc) as (H1 & H2 & H3).
  cbn [lower_bytes]. destruct l as [|d l]; [by rewrite H1|].
  rewrite (proj2 (Ascii.eqb_neq _ _) H2). cbn [andb]. destruct l as [|e l]; [by rewrite H1, IH|].
  rewrite (proj2 (Ascii.eqb_neq _ _) H3). cbn [andb]. by rewrite H1, IH.
Qed.

Lemma host_trimmed s : Forall (λ c, host_byte c = true) (bytes_of s) → TrimSpace s = s.
Proof. intros H. apply TrimSpace_trimmed_id. by apply (trimmed_bytes host_byte); [vm_compute|vm_compute|]. Qed.

Lemma host_normal s : Forall (λ c, host_byte c = true) (bytes_of s) → ToLower (TrimSpace s) = s.
Proof.
  intros H. rewrite host_trimmed by done. unfold ToLower. by rewrite lower_bytes_host, str_of_bytes_of.
Qed.

Lemma label_host_bytes s : label_ok s → Forall (λ c, host_byte c = true) (bytes_of s).
Proof.
  intros [_ _ H _ _]. eapply Forall_impl; [exact H|]. intros c Hc. unfold host_byte. simpl in Hc. by rewrite Hc.
Qed.

Lemma split_bytes_Forall sep (P : ascii → Prop) l :
  P sep → Forall (λ w, Forall P w) (split_bytes sep l) → Forall P l.
Proof.
  intros Hsep. induction l as [|c l IH]; [constructor|]. cbn [split_bytes].
  destruct (Ascii.eqb_spec c sep) as [->|].
  - intros H. apply Forall_cons in H as [_ H]. constructor; [done|]. by apply IH.
  - destruct (split_bytes sep l) as [|w ws]; intros H.
    + apply Forall_cons in H as [H _]. apply Forall_cons in H as [H _]. constructor; [done|]. apply IH. constructor.
    + apply Forall_cons in H as [Hw Hws]. apply Forall_cons in Hw as [Hc Hw]. constructor; [done|]. apply IH. by constructor.
Qed.

Lemma validate_labels_ok ls : validate_labels ls = None → Forall label_ok ls.
Proof.
  induction ls as [|l ls IH]; simpl; [constructor|].
  destruct (validateDNSLabel _ l) eqn:H; [done|]. intros ?. constructor; [by apply (validateDNSLabel_ok "domain label")|by apply IH].
Qed.

Lemma domain_host_bytes s : validateDomainName s = None → Forall (λ c, host_byte c = true) (bytes_of s).
Proof.
  unfold validateDomainName. destruct (String.eqb s ""); [done|]. destruct (253 <? len s); [done|].
  destruct (Contains s "://"); [done|]. intros H%validate_labels_ok.
  apply (split_bytes_Forall "."); [done|]. unfold Split in H.
  change (map str_of) with (fmap (M := list) str_of) in H. rewrite Forall_fmap in H.
  eapply Forall_impl; [exact H|]. intros w Hw. simpl in Hw. apply label_host_bytes in Hw. by rewrite bytes_of_str_of in Hw.
Qed.

Lemma routeHost_label key base :
  label_ok key → validateDomainName base = None → routeHost key base = inr (key +:+ "." +:+ base).
Proof.
  intros Hk Hb. unfold routeHost.
  rewrite (host_normal key (label_host_bytes _ Hk)), (host_normal base (domain_host_bytes _ Hb)).
  by rewrite (proj2 (validateDNSLabel_ok _ key) Hk), Hb.
Qed.

(** ** Choosing one route per service *)

(** The preference [routeTieBreak] decides: the later deployment, then container, id. *)
Definition prefer (a b : managedRoute) : Prop := 0 < routeTieBreak a b.

Lemma str_gt_lt a b : str_gt a b = true ↔ String.compare b a = Lt.
Proof. unfold str_gt, String.ltb. by destruct (String.compare b a). Qed.
Lemma str_gt_trans a b c : str_gt a b = true → str_gt b c = true → str_gt a c = true.
Proof. rewrite !str_gt_lt. intros H1 H2. by eapply string_lt_trans. Qed.
Lemma str_gt_irrefl a : str_gt a a = false.
Proof. unfold str_gt, String.ltb. by rewrite string_compare_refl. Qed.
Lemma str_gt_total a b : str_gt a b = false → a = b ∨ str_gt b a = true.
Proof.
  unfold str_gt, String.ltb. destruct (String.compare b a) eqn:H; try done; intros _.
  - left. symmetry. by apply String.compare_eq_iff.
  - right. rewrite String.compare_antisym, H. done.
Qed.

Lemma prefer_spec a b : prefer a b ↔
  str_gt (r_DeploymentID a) (r_DeploymentID b) = true ∨
  (r_DeploymentID a = r_DeploymentID b ∧ str_gt (r_ContainerID a) (r_ContainerID b) = true).
Proof.
  unfold prefer, routeTieBreak. destruct (String.eqb_spec (r_DeploymentID a) (r_DeploymentID b)) as [He|Hne]; simpl.
  - rewrite He, str_gt_irrefl. destruct (str_gt (r_ContainerID a) (r_ContainerID b)); [split; [auto|lia]|].
    destruct (str_gt (r_ContainerID b) (r_ContainerID a)); split; intros; try lia; naive_solver.
  - destruct (str_gt (r_DeploymentID a) (r_DeploymentID b)); split; intros; try lia; naive_solver.
Qed.

(** Not being beaten is inherited by whatever beats the champion. *)
Lemma not_prefer_trans a b c : ¬ prefer a b → prefer c b → ¬ prefer a c.
Proof.
  rewrite !prefer_spec. intros Hab Hcb Hac. apply Hab.
  destruct Hac as [H1|[H1 H2]], Hcb as [H3|[H3 H4]].
  - left. by eapply str_gt_trans.
  - left. by rewrite <- H3.
  - left. by rewrite H1.
  - right. split; [congruence|]. by eapply str_gt_trans.
Qed.

Lemma prefer_irrefl a : ¬ prefer a a.
Proof. rewrite prefer_spec, !str_gt_irrefl. naive_solver. Qed.

(** What [collect_routes] keeps, over the routes [done] so far. *)
Record collected (done : list managedRoute) (m : gmap string managedRoute) : Prop := {
  col_key : ∀ k r, m !! k = Some r → r_ServiceID r = k ∧ ∃ x, x ∈ done ∧ normalize_route x = inr r;
  col_all : ∀ x, x ∈ done → ∃ r, normalize_route x = inr r ∧ ∃ best, m !! r_ServiceID r = Some best ∧ ¬ prefer r best;
}.

Lemma collect_routes_spec routes done m m' :
  collected done m → collect_routes routes m = inr m' → collected (done ++ routes) m'.
Proof.
  revert done m. induction routes as [|x xs IH]; intros ds m [Hk Ha]; simpl.
  - intros [= <-]. rewrite app_nil_r. by split.
  - destruct (normalize_route x) as [e|r] eqn:Hx; [done|]. intros H.
    rewrite (cons_middle x ds xs), app_assoc. revert H. apply IH. clear IH.
    set (m2 := match m !! r_ServiceID r with None => _ | Some cur => _ end).
    assert (∃ cur, m2 !! r_ServiceID r = Some cur ∧ ¬ prefer r cur ∧
              (∀ old, m !! r_ServiceID r = Some old → cur = old ∨ (cur = r ∧ prefer r old)) ∧
              (m !! r_ServiceID r = None → cur = r)) as (cur & Hcur & Hbest & Hold & Hnone).
    { unfold m2. destruct (m !! r_ServiceID r) as [old|] eqn:Ho.
      - destruct (0 <? routeTieBreak r old) eqn:Ht.
        + exists r. rewrite lookup_insert_eq. split; [done|]. split; [apply prefer_irrefl|]. split; [|done].
          intros ? [= <-]. right. split; [done|]. by apply Z.ltb_lt.
        + exists old. split; [done|]. split; [unfold prefer; apply Z.ltb_ge in Ht; lia|]. split; [|done]. intros ? [= <-]. by left.
      - exists r. rewrite lookup_insert_eq. split; [done|]. split; [apply prefer_irrefl|]. done. }
    assert (∀ k, k ≠ r_ServiceID r → m2 !! k = m !! k) as Hother.
    { intros k Hne. unfold m2. repeat case_match; by rewrite ?lookup_insert_ne by congruence. }
    split.
    + intros k r' Hr'. destruct (decide (k = r_ServiceID r)) as [->|Hne].
      * rewrite Hcur in Hr'. injection Hr' as <-.
        destruct (m !! r_ServiceID r) as [old|] eqn:Ho; [|rewrite Hnone by done; split; [done|]; exists x; set_solver].
        destruct (Hold old eq_refl) as [->|[-> _]]; [|split; [done|]; exists x; set_solver].
        destruct (Hk _ _ Ho) as (? & y & ? & ?). split; [done|]. exists y. set_solver.
      * rewrite Hother in Hr' by done. destruct (Hk _ _ Hr') as (? & y & ? & ?). split; [done|]. exists y. set_solver.
    + intros y [Hy|Hy]%elem_of_app.
      * destruct (Ha y Hy) as (r' & Hr' & best & Hb & Hnp). exists r'. split; [done|].
        destruct (decide (r_ServiceID r' = r_ServiceID r)) as [Heq|Hne]; [|exists best; by rewrite Hother].
        rewrite Heq in *. exists cur. split; [done|]. destruct (Hold best Hb) as [->|[-> Hp]]; [done|].
        by eapply not_prefer_trans.
      * apply list_elem_of_singleton in Hy as ->. exists r. split; [done|]. by exists cur.
Qed.

(** ** Custom hosts are owned by one service *)
Lemma claim_hosts_spec svc hosts seen :
  match claim_hosts svc hosts seen with
  | inr seen' => (∀ h o, h ∈ hosts → seen !! h = Some o → o = svc) ∧
                 ∀ h, seen' !! h = if decide (h ∈ hosts) then Some svc else seen !! h
  | inl _ => ∃ h o, h ∈ hosts ∧ seen !! h = Some o ∧ o ≠ svc
  end.
Proof.
  revert seen. induction hosts as [|h hs IH]; intros seen; simpl; [split; [set_solver|done]|].
  assert (∀ b : bool, seen !! h = None ∨ seen !! h = Some svc →
    match claim_hosts svc hs (<[h:=svc]> seen) with
    | inr seen' => (∀ h0 o, h0 ∈ h :: hs → seen !! h0 = Some o → o = svc) ∧
                   ∀ h0, seen' !! h0 = if decide (h0 ∈ h :: hs) then Some svc else seen !! h0
    | inl _ => ∃ h0 o, h0 ∈ h :: hs ∧ seen !! h0 = Some o ∧ o ≠ svc
    end) as Hstep.
  { intros _ Hh. specialize (IH (<[h:=svc]> seen)). destruct (claim_hosts _ _ _) as [e|seen'].
    - destruct IH as (h' & o & Hin & Ho & Hne). exists h', o. split; [by right|]. split; [|done].
      destruct (decide (h' = h)) as [->|]; [rewrite lookup_insert_eq in Ho; congruence|by rewrite lookup_insert_ne in Ho].
    - destruct IH as [Hown Hseen]. split.
      + intros h' o [->|Hin]%elem_of_cons Ho; [destruct Hh; congruence|].
        destruct (decide (h' = h)) as [->|]; [destruct Hh; congruence|]. apply (Hown h'); [done|by rewrite lookup_insert_ne].
      + intros h'. rewrite Hseen. destruct (decide (h' ∈ hs)); [by rewrite decide_True by set_solver|].
        destruct (decide (h' = h)) as [->|]; [by rewrite lookup_insert_eq, decide_True by set_solver|].
        rewrite lookup_insert_ne by done. by rewrite decide_False by set_solver. }
  destruct (seen !! h) as [o|] eqn:Ho; [|apply (Hstep true); by left].
  destruct (String.eqb_spec o svc) as [->|Hne]; simpl; [apply (Hstep true); by right|].
  exists h, o. set_solver.
Qed.

(** Two routes of different services do not share a custom host. *)
Definition hosts_disjoint (rs : list managedRoute) : Prop :=
  ∀ a b h, a ∈ rs → b ∈ rs → h ∈ r_CustomHosts a → h ∈ r_CustomHosts b → r_ServiceID a = r_ServiceID b.

Lemma claim_all_spec rs seen :
  claim_all rs seen = None ↔
  (∀ r h o, r ∈ rs → h ∈ r_CustomHosts r → seen !! h = Some o → o = r_ServiceID r) ∧ hosts_disjoint rs.
Proof.
  revert seen. induction rs as [|r rs IH]; intros seen; simpl.
  { split; [|done]. intros _. split; [set_solver|]. intros a b h Ha. by apply elem_of_nil in Ha. }
  pose proof (claim_hosts_spec (r_ServiceID r) (r_CustomHosts r) seen) as Hs.
  destruct (claim_hosts _ _ _) as [e|seen'].
  - split; [done|]. intros [Hown _]. destruct Hs as (h & o & Hin & Ho & Hne). by destruct Hne; apply (Hown r h o); [left|..].
  - destruct Hs as [Hown Hseen]. rewrite IH. unfold hosts_disjoint. setoid_rewrite elem_of_cons. split.
    + intros [H1 H2]. split.
      * intros r' h o [->|Hr'] Hh Ho; [by eapply Hown|]. apply (H1 r' h o Hr' Hh). rewrite Hseen.
        case_decide; [|done]. f_equal. rewrite <- (Hown h o) by done. done.
      * intros a b h [->|Ha] [->|Hb] Hha Hhb; [done| | |by eapply H2].
        -- apply (H1 b h (r_ServiceID r) Hb Hhb). by rewrite Hseen, decide_True.
        -- symmetry. apply (H1 a h (r_ServiceID r) Ha Hha). by rewrite Hseen, decide_True.
    + intros [H1 H2]. split; [|intros a b h Ha Hb; apply H2; by right].
      intros r' h o Hr' Hh Ho. rewrite Hseen in Ho. case_decide; [injection Ho as <-; apply (H2 r r' h); auto|].
      apply (H1 r' h o); auto.
Qed.

(** ** Normalisation *)
Lemma claim_all_perm rs rs' : rs ≡ₚ rs' → claim_all rs ∅ = None ↔ claim_all rs' ∅ = None.
Proof.
  intros Hp. rewrite !claim_all_spec. unfold hosts_disjoint. by setoid_rewrite Hp.
Qed.

Lemma collected_nil : collected [] ∅.
Proof. split; [intros k r H; by rewrite lookup_empty in H|set_solver]. Qed.

Lemma in_values (m : gmap string managedRoute) r : r ∈ map snd (map_to_list m) ↔ ∃ k, m !! k = Some r.
Proof.
  rewrite list_elem_of_fmap. split.
  - intros ([k x] & -> & H). apply elem_of_map_to_list in H. by exists k.
  - intros [k Hk]. exists (k, r). split; [done|]. by apply elem_of_map_to_list.
Qed.

Section Normalize.
Context (order : list managedRoute → list managedRoute).
Context (order_perm : ∀ l, order l ≡ₚ l).

Lemma normalizeRoutes_perm rs out :
  normalizeRoutes order rs = inr out →
  ∃ m, collect_routes rs ∅ = inr m ∧ out ≡ₚ map snd (map_to_list m) ∧ claim_all out ∅ = None ∧
       StronglySorted (λ a b, service_leb a b = true) out.
Proof.
  unfold normalizeRoutes. destruct (collect_routes rs ∅) as [e|m] eqn:Hc; [done|].
  destruct (claim_all _ ∅) eqn:Hcl; [done|]. intros [= <-]. exists m. split; [done|].
  split; [by rewrite isort_perm|]. split; [by rewrite (claim_all_perm _ (order (map snd (map_to_list m)))) by apply isort_perm|].
  apply isort_sorted.
  - intros a b. apply string_leb_total.
  - intros a b c. apply string_leb_trans.
Qed.

End Normalize.

(** Route normalisation. When [normalizeRoutes] accepts the desired routes, the
    result lists one route per service label, in label order: the one of the latest
    deployment (then container) among the input routes of that label; every input route
    is represented; every label is a DNS label, every port is a valid port, and no
    custom host belongs to two services. *)
Theorem normalizeRoutes_correct order rs out :
  (∀ l, order l ≡ₚ l) → normalizeRoutes order rs = inr out →
  StronglySorted (λ a b, service_leb a b = true) out ∧ NoDup (map r_ServiceID out) ∧ hosts_disjoint out ∧
  (∀ r, r ∈ out → label_ok (r_ServiceID r) ∧ 0 < r_HostPort r ≤ 65535 ∧ ∃ x, x ∈ rs ∧ normalize_route x = inr r) ∧
  (∀ x, x ∈ rs → ∃ r best, normalize_route x = inr r ∧ best ∈ out ∧ r_ServiceID best = r_ServiceID r ∧ ¬ prefer r best).
Proof.
  intros Ho H. destruct (normalizeRoutes_perm order Ho rs out H) as (m & Hc & Hp & Hcl & Hs).
  apply (collect_routes_spec rs [] ∅) in Hc as [Hk Ha]; [|apply collected_nil]. simpl in *.
  split; [done|]. split; [|split; [by apply claim_all_spec in Hcl as [_ ?]|split]].
  - rewrite Hp, map_map. assert (map (λ x, r_ServiceID x.2) (map_to_list m) = map fst (map_to_list m)) as ->.
    { apply map_ext_in. intros [k r] Hin. apply list_elem_of_In, elem_of_map_to_list in Hin. simpl. by apply Hk. }
    apply (NoDup_fst_map_to_list m).
  - intros r Hr. rewrite Hp in Hr. apply in_values in Hr as [k Hr]. destruct (Hk k r Hr) as (_ & x & Hx & Hn).
    split; [|split; [|by exists x]]; unfold normalize_route in Hn;
      destruct (validateDNSLabel _ _) eqn:Hv; try done; destruct (_ || _) eqn:Hport; try done;
      destruct (normalizeCustomHosts _); try done; injection Hn as <-; simpl.
    + by apply validateDNSLabel_ok in Hv.
    + propify. lia.
  - intros x Hx. destruct (Ha x Hx) as (r & Hr & best & Hb & Hnp). exists r, best. split; [done|].
    split; [rewrite Hp; apply in_values; eauto|]. split; [|done]. by apply (Hk _ _ Hb).
Qed.

(** Determinism. The iteration order of the Go map does not matter: two runs of
    [normalizeRoutes] on the same routes either both fail or return the same list, so
    the rendered configuration is a function of the desired routes. *)
Theorem normalizeRoutes_deterministic order order' rs :
  (∀ l, order l ≡ₚ l) → (∀ l, order' l ≡ₚ l) →
  match normalizeRoutes order rs, normalizeRoutes order' rs with
  | inr out, inr out' => out = out'
  | inl _, inl _ => True
  | _, _ => False
  end.
Proof.
  intros Ho Ho'.
  destruct (normalizeRoutes order rs) as [e|out] eqn:H1, (normalizeRoutes order' rs) as [e'|out'] eqn:H2; try done.
  - destruct (normalizeRoutes_perm order' Ho' rs out' H2) as (m & Hc & Hp & Hcl & _).
    unfold normalizeRoutes in H1. rewrite Hc in H1.
    rewrite (claim_all_perm _ (order (map snd (map_to_list m)))) in Hcl by by rewrite Ho. by rewrite Hcl in H1.
  - destruct (normalizeRoutes_perm order Ho rs out H1) as (m & Hc & Hp & Hcl & _).
    unfold normalizeRoutes in H2. rewrite Hc in H2.
    rewrite (claim_all_perm _ (order' (map snd (map_to_list m)))) in Hcl by by rewrite Ho'. by rewrite Hcl in H2.
  - destruct (normalizeRoutes_perm order Ho rs out H1) as (m & Hc & Hp & _ & Hs).
    destruct (normalizeRoutes_perm order' Ho' rs out' H2) as (m' & Hc' & Hp' & _ & Hs').
    rewrite Hc in Hc'. injection Hc' as <-.
    apply (collect_routes_spec rs [] ∅) in Hc as [Hk _]; [|apply collected_nil].
    apply (StronglySorted_unique_strong (λ a b, service_leb a b = true)); [|done|done|by rewrite Hp, Hp'].
    intros a b Ha Hb Hab Hba. rewrite Hp in Ha. rewrite Hp' in Hb.
    apply in_values in Ha as [k Ha], Hb as [k' Hb].
    destruct (Hk _ _ Ha) as [Hka _], (Hk _ _ Hb) as [Hkb _].
    pose proof (String.leb_antisym _ _ Hab Hba) as Heq. congruence.
Qed.

(** ** Rendering and switching *)
Lemma render_routes_ok m rs :
  validateDomainName (m_baseDomain m) = None → Forall (λ r, label_ok (host_label r)) rs →
  ∃ body, render_routes m rs = inr body.
Proof.
  intros Hb. induction 1 as [|r rs Hr _ (body & IH)]; simpl; [by eexists|].
  rewrite routeHost_label by done. rewrite IH. by eexists.
Qed.

(** A route as the control plane produces it: labels for key and host, no custom host. *)
Definition route_wf (r : managedRoute) : Prop :=
  label_ok (r_ServiceID r) ∧ (r_RouteHost r = "" ∨ label_ok (r_RouteHost r)) ∧
  0 < r_HostPort r ≤ 65535 ∧ r_CustomHosts r = [].

Lemma normalize_route_wf r : route_wf r → normalize_route r = inr r.
Proof.
  intros (Hl & _ & Hp & Hc). unfold normalize_route.
  rewrite (host_normal _ (label_host_bytes _ Hl)), (proj2 (validateDNSLabel_ok _ _) Hl), Hc.
  destruct (Z.leb_spec (r_HostPort r) 0), (Z.ltb_spec 65535 (r_HostPort r)); try lia. simpl.
  destruct r; simpl in *. by subst.
Qed.

Lemma collect_routes_wf rs m : Forall route_wf rs → ∃ m', collect_routes rs m = inr m'.
Proof.
  intros H. revert m. induction H as [|r rs Hr _ IH]; intros m; simpl; [by eexists|].
  rewrite (normalize_route_wf r Hr). apply IH.
Qed.

Lemma render_wf m order rs :
  (∀ l, order l ≡ₚ l) → validateDomainName (m_baseDomain m) = None → Forall route_wf rs →
  ∃ text, render m order rs = inr text ∧ HasPrefix text caddyManagedMarker = true.
Proof.
  intros Ho Hb Hrs. unfold render.
  destruct (collect_routes_wf rs ∅ Hrs) as [mm Hc].
  pose proof (collect_routes_spec rs [] ∅ mm collected_nil Hc) as [Hk _]. simpl in Hk.
  assert (∀ r, r ∈ map snd (map_to_list mm) → route_wf r) as Hwf.
  { intros r Hr. apply in_values in Hr as [k Hr]. destruct (Hk _ _ Hr) as (_ & x & Hx & Hn).
    pose proof (proj1 (Forall_forall _ _) Hrs x Hx) as Hxw. rewrite (normalize_route_wf x Hxw) in Hn. by injection Hn as <-. }
  destruct (normalizeRoutes order rs) as [e|out] eqn:Hn.
  - exfalso. unfold normalizeRoutes in Hn. rewrite Hc in Hn.
    destruct (claim_all _ ∅) eqn:Hcl; [|done].
    assert (claim_all (order (map snd (map_to_list mm))) ∅ = None) as Hok; [|congruence].
    apply claim_all_spec. split; [intros r h o _ _ H; by rewrite lookup_empty in H|].
    intros a b h Ha _ Hha. rewrite Ho in Ha. destruct (Hwf a Ha) as (_ & _ & _ & He). rewrite He in Hha. set_solver.
  - destruct (normalizeRoutes_perm order Ho rs out Hn) as (m' & Hc' & Hp & _). rewrite Hc in Hc'. injection Hc' as <-.
    destruct (render_routes_ok m out Hb) as [body ->].
    { apply Forall_forall. intros r Hr. rewrite Hp in Hr. destruct (Hwf r Hr) as (Hl & Hh & _). unfold host_label.
      destruct (String.eqb_spec (r_RouteHost r) ""); [done|]. by destruct Hh. }
    eexists. split; [reflexivity|]. unfold render_header, HasPrefix. rewrite !bytes_of_app, <- !app_assoc.
    by rewrite (proj2 (strip_prefix_spec (bytes_of caddyManagedMarker) _ _) eq_refl).
Qed.

(** The contract between the control plane's names and the agent's router. Routes
    whose key (and, for a preview, host) is a DNS label, with a valid port and no custom
    host, are always accepted: for a manager whose base domain is valid, rendering the
    configuration succeeds whatever the map order, and carries the managed marker that
    the next switch looks for. *)
Theorem render_accepts_labels m order rs :
  (∀ l, order l ≡ₚ l) → validateDomainName (m_baseDomain m) = None → Forall route_wf rs →
  ∃ text, render m order rs = inr text ∧ HasPrefix text caddyManagedMarker = true.
Proof. apply render_wf. Qed.

Lemma contains_prefix p l : strip_prefix p l ≠ None → contains_bytes p l = true.
Proof. destruct l; simpl; by destruct (strip_prefix p _). Qed.

Lemma render_marked m order rs text : render m order rs = inr text → Contains text caddyManagedMarker = true.
Proof.
  unfold render. destruct (normalizeRoutes order rs); [done|]. destruct (render_routes m l); [done|].
  intros [= <-]. unfold Contains. apply contains_prefix. unfold render_header. rewrite !bytes_of_app, <- !app_assoc.
  by rewrite (proj2 (strip_prefix_spec (bytes_of caddyManagedMarker) _ _) eq_refl).
Qed.

(** C40: Switching the proxy is all or nothing. If [apply] succeeds, the configuration
    file is the rendered routes, which Caddy validated and then loaded by a reload or a
    start, and a later switch will recognise it as its own. If it fails, the file is
    exactly what it was, unless writing the old content back failed too; a file the
    agent does not manage is never overwritten. *)
Theorem apply_all_or_nothing m aw rs file logs err file' :
  apply m aw rs file = ((logs, err), file') →
  match err with
  | None => ∃ text, file' = Some text ∧ render m (aw_order aw) rs = inr text ∧
      snd (aw_validate aw text) = None ∧ (snd (aw_reload aw text) = None ∨ snd (aw_start aw text) = None) ∧
      Contains text caddyManagedMarker = true
  | Some _ => file' = file ∨ aw_restore aw ≠ None
  end ∧
  (∀ data, file = Some data → Contains data caddyManagedMarker = false → err ≠ None ∧ file' = file).
Proof.
  unfold apply. destruct (render m (aw_order aw) rs) as [e|text] eqn:Hr; [intros [= <- <- <-]; naive_solver|].
  unfold readExistingConfig. destruct (aw_read aw); [intros [= <- <- <-]; naive_solver|].
  destruct (match file with None => _ | Some _ => _ end) as [e|old] eqn:Hold.
  { intros [= <- <- <-]. naive_solver. }
  assert (old = file ∧ (∀ data, file = Some data → Contains data caddyManagedMarker = true)) as [-> Hman].
  { destruct file as [data|]; [|by injection Hold as <-]. destruct (Contains data caddyManagedMarker) eqn:Hc; [|done].
    injection Hold as <-. split; [done|]. by intros ? [= <-]. }
  destruct (aw_mkdir aw); [intros [= <- <- <-]; naive_solver|].
  destruct (aw_temp aw) as [[step e]|]; [intros [= <- <- <-]; naive_solver|].
  destruct (aw_validate aw text) as [out [e|]] eqn:Hv; [intros [= <- <- <-]; naive_solver|].
  destruct (aw_rename aw); [intros [= <- <- <-]; naive_solver|].
  pose proof (render_marked _ _ _ _ Hr) as Hmark.
  assert (∀ data, file = Some data → Contains data caddyManagedMarker = false → err ≠ None ∧ file' = file) as Hno
    by (intros data Hf Hc; by rewrite (Hman data Hf) in Hc).
  unfold reload_or_start. destruct (aw_reload aw text) as [rout [e|]] eqn:Hre.
  2:{ intros [= <- <- <-]. split; [|done]. exists text. rewrite Hv, Hre. naive_solver. }
  destruct (aw_start aw text) as [sout [e'|]] eqn:Hst.
  2:{ intros [= <- <- <-]. split; [|done]. exists text. rewrite Hv, Hre, Hst. naive_solver. }
  unfold restoreConfig. destruct (aw_restore aw) eqn:Hres; intros [= <- <- <-]; (split; [|done]); [by right|by left].
Qed.
