(* ===== verification/Agent.v ===== *)
(** * Agent: executing deployments and teardowns on a server

    [internal/agentcore] deploy.go and teardown.go.  A run is a computation that appends
    to a trace of the actions it takes on Docker, Caddy and the control plane; what they
    answer is decided by the class [Host], indexed by the number of actions so far.
    Printing to the agent's own log is dropped. *)
From S2P Require Import Prelude.
From S2P Require Import GoStrings.
From S2P Require Import Problem.
From S2P Require Import Caddy.

(** ** Vocabulary (deploy.go, teardown.go) *)
Definition statusCloning : string := "cloning".
Definition statusBuilding : string := "building".
Definition statusPulling : string := "pulling".
Definition statusStarting : string := "starting".
Definition statusHealthcheck : string := "healthcheck".
Definition statusRouting : string := "routing".
Definition statusRunning : string := "running".
Definition statusFailed : string := "failed".
Definition sourceGit : string := "git".
Definition streamBuild : string := "build".
Definition streamRuntime : string := "runtime".
Definition teardownStatusStopping : string := "stopping".
Definition teardownStatusRemoving : string := "removing".
Definition teardownStatusSucceeded : string := "succeeded".
Definition teardownStatusFailed : string := "failed".

(** [PollDeploymentResponse]: the job. *)
Record Job := mk_Job {
  j_DeploymentId : string;
  j_ImageRef : string;
  j_ContainerPort : Z;
  j_Env : gmap string string;
  j_AppLabel : string;
  j_SourceKind : string;
  j_CloneUrl : string;
  j_GitRef : string;
  j_BuiltImageTag : string;
  j_GitCredential : string;
  j_Visibility : string;
  j_NetworkName : string;
  j_NetworkAlias : string;
  j_BasicAuthUser : string;
  j_BasicAuthHash : string;
  j_RouteHost : string;
}.

(** [ReportDeploymentRequest], without the identity the report is sent under. *)
Record Report := mk_Report {
  rp_DeploymentId : string;
  rp_Status : string;
  rp_HostPort : Z;
  rp_ContainerId : string;
  rp_Message : string;
  rp_LogLines : list string;
  rp_LogStream : string;
  rp_CommitSha : string;
  rp_BuiltImageRef : string;
  rp_RouteUrl : string;
}.

(** [runInput] (docker.go) *)
Record runInput := mk_runInput {
  in_name : string;
  in_imageRef : string;
  in_env : list string;
  in_containerPort : Z;
  in_appLabel : string;
  in_deploymentID : string;
  in_public : bool;
  in_networkName : string;
  in_networkAlias : string;
  in_routeHost : string;
  in_basicAuthUser : string;
  in_basicAuthHash : string;
}.

Record RouteOverride := mk_Override { ov_ServiceId : string; ov_Hostnames : list string }.
Record RouteResult := mk_RouteResult {
  rr_ServiceId : string;
  rr_DeploymentId : string;
  rr_Hostnames : list string;
  rr_Ok : bool;
  rr_Message : string;
}.
Record TeardownJobMsg := mk_TeardownJobMsg {
  tj_TeardownId : string;
  tj_RouteKey : string;
  tj_NetworkName : string;
}.

Record managedContainer := mk_managedContainer { mc_ID : string; mc_DeploymentID : string }.

(** What the agent does to the world outside. *)
Inductive Act :=
  | ActReport (r : Report)
  | ActMkdirTemp
  | ActRemoveDir
  | ActClone (url ref credential : string)
  | ActBuild (tag : string)
  | ActDetectPort (tag : string)
  | ActPull (imageRef : string)
  | ActRun (i : runInput)
  | ActRecentLogs (containerID : string)
  | ActHealth (hostPort : Z)
  | ActListRoutes
  | ActApply (routes : list managedRoute)
  | ActReplacePrevious (appLabel keepID : string)
  | ActRemoveContainer (containerID : string)
  | ActSyncRoutes (routes : list managedRoute)
  | ActReportRouteSync (results : list RouteResult)
  | ActListRunning
  | ActNow
  | ActLogsSince (containerID since : string)
  | ActTeardownReport (id status message errMsg : string)
  | ActRemoveByService (appLabel : string)
  | ActRemoveNetwork (name : string).

(** What they answer.  A list of strings is the output lines a call emits. *)
Class Host := {
  err_text : go_error → string;                        (* err.Error() *)
  h_mkdirTemp : nat → error;
  h_clone : nat → string → list string * (go_error + string);
  h_build : nat → string → list string * error;
  h_detectPort : nat → string → go_error + Z;
  h_pull : nat → string → list string * error;
  h_run : nat → runInput → string * Z * error;         (* the container id comes with an error too *)
  h_recentLogs : nat → string → list string;
  h_health : nat → Z → error;
  h_listRoutes : nat → go_error + list managedRoute;
  h_apply : nat → list managedRoute → list string * error;
  h_replace : nat → string → string → error;
  h_removeContainer : nat → string → error;
  h_sync : nat → list managedRoute → go_error + list RouteOverride;
  h_removeByService : nat → string → go_error + Z;
  h_removeNetwork : nat → string → error;
  h_listRunning : nat → go_error + list managedContainer;
  h_nowCursor : nat → string;
  h_logsSince : nat → string → string → go_error + (list string * string);
  h_env_order : gmap string string → list (string * string);   (* range over a map *)
}.

(** ** The trace monad *)
Definition AM (A : Type) : Type := list Act → A * list Act.
#[global] Instance AM_ret : MRet AM := λ A a tr, (a, tr).
#[global] Instance AM_bind : MBind AM := λ A B k m tr, let '(a, tr') := m tr in k a tr'.

(** One action: it is recorded, then answered. *)
Definition act {A} (a : Act) (answer : nat → A) : AM A := λ tr, (answer (length tr), tr ++ [a]).

(** ** Pure helpers *)
Definition appendCapped (s : list string) (line : string) (limit : nat) : list string :=
  if (limit <=? length s)%nat then s else s ++ [line].
(** The lines a call emits, collected through [appendCapped]. *)
Definition collect_lines (limit : nat) (emitted : list string) : list string :=
  foldl (λ s l, appendCapped s l limit) [] emitted.

Definition shortID (id : string) : string := if 12 <? len id then str_take 12 id else id.
Definition containerName (deploymentID : string) : string := "plorigo-" +:+ shortID deploymentID.

Definition routesForDeployment (existing : list managedRoute) (current : managedRoute) : list managedRoute :=
  List.filter (λ r, negb (String.eqb (r_ServiceID r) (r_ServiceID current) ||
                          String.eqb (r_ContainerID r) (r_ContainerID current))) existing ++ [current].

Definition runningMessage (public : bool) (routeURL alias : string) (containerPort hostPort : Z) : string :=
  if public then "running at " +:+ routeURL +:+ " (internal host port " +:+ Itoa hostPort +:+ ")"
  else "running (private; reachable at http://" +:+ alias +:+ ":" +:+ Itoa containerPort +:+ " inside the environment)".

(** [nextBackoff] of agentcore.go, in nanoseconds. *)
Definition maxBackoff : Z := 60 * 10 ^ 9.
Definition nextBackoff (d : Z) : Z := if maxBackoff <? d * 2 then maxBackoff else d * 2.

Section Agent.
Context {H : Host}.

Definition envSlice (env : gmap string string) : list string :=
  map (λ '(k, v), k +:+ "=" +:+ v) (h_env_order env).

(** The fields every report carries, as far as they are known. *)
Record Known := mk_Known { k_commit : string; k_image : string; k_url : string }.

Definition report (job : Job) (k : Known) (stream status : string) (hostPort : Z)
    (containerID message : string) (logs : list string) : AM unit :=
  act (ActReport (mk_Report (j_DeploymentId job) status hostPort containerID message logs stream
                    (k_commit k) (k_image k) (k_url k))) (λ _, tt).
Definition reportBuild job k := report job k streamBuild.
Definition reportRuntime job k := report job k streamRuntime.

Definition cleanupFailedContainer (containerID : string) : AM unit :=
  if String.eqb containerID "" then mret tt
  else _ ← act (ActRemoveContainer containerID) (λ n, h_removeContainer n containerID); mret tt.

(** ** Building (deploy.go, buildFromSource) *)

(** The image, the commit and the logs, or nothing when the failure is reported.  The
    temporary directory is removed on every path. *)
Definition buildFromSource (job : Job) : AM (option (string * string * list string)) :=
  let k0 := mk_Known "" "" "" in
  err ← act ActMkdirTemp h_mkdirTemp;
  match err with
  | Some e =>
      _ ← reportBuild job k0 statusFailed 0 "" ("could not create a build workspace: " +:+ err_text e) [];
      mret None
  | None =>
      _ ← reportBuild job k0 statusCloning 0 "" ("cloning " +:+ j_CloneUrl job) [];
      r ← act (ActClone (j_CloneUrl job) (j_GitRef job) (j_GitCredential job)) (λ n, h_clone n (j_CloneUrl job));
      let '(emitted, res) := r in
      let cloneLines := collect_lines 30 emitted in
      match res with
      | inl e =>
          _ ← reportBuild job k0 statusFailed 0 "" ("clone failed: " +:+ err_text e) cloneLines;
          _ ← act ActRemoveDir (λ _, tt);
          mret None
      | inr checkedOut =>
          let k1 := mk_Known checkedOut "" "" in
          let tag := j_BuiltImageTag job in
          _ ← reportBuild job k1 statusBuilding 0 "" "building image with BuildKit" cloneLines;
          r ← act (ActBuild tag) (λ n, h_build n tag);
          let '(emitted, err) := r in
          let buildLines := collect_lines maxReportLogLines emitted in
          match err with
          | Some e =>
              _ ← reportBuild job k1 statusFailed 0 "" ("build failed: " +:+ err_text e) buildLines;
              _ ← act ActRemoveDir (λ _, tt);
              mret None
          | None =>
              _ ← act ActRemoveDir (λ _, tt);
              mret (Some (tag, checkedOut, buildLines))
          end
      end
  end.

(** ** Custom-domain routes *)
Definition with_custom_hosts (base : managedRoute) (hosts : list string) : managedRoute :=
  mk_managedRoute (r_ServiceID base) (r_DeploymentID base) (r_ContainerID base) (r_HostPort base) hosts "" "" "".

(** [byService[id]]: the last route of the service. *)
Definition by_service (routes : list managedRoute) (id : string) : option managedRoute :=
  last (List.filter (λ r, String.eqb (r_ServiceID r) id) routes).

Fixpoint apply_overrides (routes : list managedRoute) (overrides : list RouteOverride)
    (desired : list managedRoute) (results : list RouteResult) : list managedRoute * list RouteResult :=
  match overrides with
  | [] => (desired, results)
  | o :: os =>
      match by_service routes (ov_ServiceId o), ov_Hostnames o with
      | Some base, _ :: _ =>
          apply_overrides routes os (routesForDeployment desired (with_custom_hosts base (ov_Hostnames o)))
            (results ++ [mk_RouteResult (r_ServiceID base) (r_DeploymentID base) (ov_Hostnames o) true
                           "Domain is routed to this service."])
      | _, _ => apply_overrides routes os desired results
      end
  end.

Definition fail_result (msg : string) (r : RouteResult) : RouteResult :=
  mk_RouteResult (rr_ServiceId r) (rr_DeploymentId r) (rr_Hostnames r) false msg.

Definition syncCustomRoutes (hasRuntime hasRouter : bool) : AM unit :=
  if negb hasRuntime || negb hasRouter then mret tt
  else
    r ← act ActListRoutes h_listRoutes;
    match r with
    | inl _ => mret tt
    | inr [] => mret tt
    | inr routes =>
        resp ← act (ActSyncRoutes routes) (λ n, h_sync n routes);
        match resp with
        | inl _ => mret tt
        | inr overrides =>
            let '(desired, results) := apply_overrides routes overrides routes [] in
            r ← act (ActApply desired) (λ n, h_apply n desired);
            let '(logs, err) := r in
            let results := match err with
                           | None => results
                           | Some e => map (fail_result (default ("Caddy routing failed: " +:+ err_text e) (last logs))) results
                           end in
            match results with
            | [] => mret tt
            | _ => act (ActReportRouteSync results) (λ _, tt)
            end
        end
    end.

(** ** Deploying *)

(** Getting the image onto the host: the reference to run, the port, what is known and
    the logs; nothing when a failure was reported. *)
Definition prepare (job : Job) : AM (option (string * Z * Known * list string)) :=
  let k0 := mk_Known "" "" "" in
  if String.eqb (j_SourceKind job) sourceGit then
    b ← buildFromSource job;
    match b with
    | None => mret None
    | Some (built, commit, logs) =>
        let k := mk_Known commit built "" in
        if j_ContainerPort job =? 0 then
          p ← act (ActDetectPort built) (λ n, h_detectPort n built);
          match p with
          | inl e =>
              _ ← reportBuild job k statusFailed 0 ""
                    ("could not determine which port to publish — set a container port, or add an EXPOSE to the Dockerfile: " +:+ err_text e) logs;
              mret None
          | inr port => mret (Some (built, port, k, logs))
          end
        else mret (Some (built, j_ContainerPort job, k, logs))
    end
  else
    let imageRef := j_ImageRef job in
    _ ← reportBuild job k0 statusPulling 0 "" ("pulling image " +:+ imageRef) [];
    r ← act (ActPull imageRef) (λ n, h_pull n imageRef);
    let '(emitted, err) := r in
    let prepLogs := collect_lines 30 emitted in
    match err with
    | Some e =>
        _ ← reportBuild job k0 statusFailed 0 "" ("image pull failed: " +:+ err_text e) prepLogs;
        mret None
    | None => mret (Some (imageRef, j_ContainerPort job, k0, prepLogs))
    end.

Definition run_input (job : Job) (imageRef : string) (containerPort : Z) (public : bool) : runInput :=
  {| in_name := containerName (j_DeploymentId job); in_imageRef := imageRef;
     in_env := envSlice (j_Env job); in_containerPort := containerPort;
     in_appLabel := j_AppLabel job; in_deploymentID := j_DeploymentId job; in_public := public;
     in_networkName := j_NetworkName job; in_networkAlias := j_NetworkAlias job;
     in_routeHost := j_RouteHost job; in_basicAuthUser := j_BasicAuthUser job;
     in_basicAuthHash := j_BasicAuthHash job |}.

Definition job_route (job : Job) (containerID : string) (hostPort : Z) : managedRoute :=
  mk_managedRoute (j_AppLabel job) (j_DeploymentId job) containerID hostPort []
    (j_BasicAuthUser job) (j_BasicAuthHash job) (j_RouteHost job).

(** Health check, then the route switch, of a public service: what is known
    afterwards, or nothing when a failure was reported and the container removed. *)
Definition expose (m : caddyManager) (job : Job) (k : Known) (containerID : string) (hostPort : Z) : AM (option Known) :=
  let label := if String.eqb (j_RouteHost job) "" then j_AppLabel job else j_RouteHost job in
  let stop (k : Known) (msg : string) (logs : list string) : AM (option Known) :=
    _ ← reportBuild job k statusFailed hostPort containerID msg logs;
    _ ← cleanupFailedContainer containerID;
    mret None in
  _ ← reportBuild job k statusHealthcheck hostPort containerID
        "running health check (waiting for the container to accept connections)" [];
  err ← act (ActHealth hostPort) (λ n, h_health n hostPort);
  match err with
  | Some e =>
      logs ← act (ActRecentLogs containerID) (λ n, h_recentLogs n containerID);
      _ ← reportRuntime job k statusFailed hostPort containerID ("health check failed: " +:+ err_text e) logs;
      _ ← cleanupFailedContainer containerID;
      mret None
  | None =>
      match routeURL m label with
      | inl e => stop k ("could not derive Caddy route: " +:+ err_text e) []
      | inr url =>
          let k := mk_Known (k_commit k) (k_image k) url in
          _ ← reportBuild job k statusRouting hostPort containerID ("routing traffic to " +:+ url) [];
          r ← act ActListRoutes h_listRoutes;
          match r with
          | inl e => stop k ("could not inspect running containers for Caddy routes: " +:+ err_text e) []
          | inr routes =>
              let routes := routesForDeployment routes (job_route job containerID hostPort) in
              r ← act (ActApply routes) (λ n, h_apply n routes);
              let '(logs, err) := r in
              match err with
              | Some e =>
                  stop k ("Caddy routing failed: " +:+ err_text e)
                    (match logs with [] => [err_text e] | _ => logs end)
              | None => mret (Some k)
              end
          end
      end
  end.

(** [executeDeployment] *)
Definition executeDeployment (hasRuntime : bool) (router : option caddyManager) (job : Job) : AM unit :=
  let k0 := mk_Known "" "" "" in
  match hasRuntime, router with
  | false, _ => reportBuild job k0 statusFailed 0 "" "Docker is not available on this server" []
  | true, None => reportBuild job k0 statusFailed 0 "" "Caddy routing is not configured on this server" []
  | true, Some m =>
      prep ← prepare job;
      match prep with
      | None => mret tt
      | Some (imageRef, containerPort, k, prepLogs) =>
          _ ← reportBuild job k statusStarting 0 "" "starting container" prepLogs;
          let public := negb (String.eqb (j_Visibility job) "private") in
          let i := run_input job imageRef containerPort public in
          r ← act (ActRun i) (λ n, h_run n i);
          let '(containerID, hostPort, err) := r in
          match err with
          | Some e =>
              crashLogs ← (if String.eqb containerID "" then mret []
                           else act (ActRecentLogs containerID) (λ n, h_recentLogs n containerID));
              _ ← reportRuntime job k statusFailed hostPort containerID ("could not start container: " +:+ err_text e) crashLogs;
              cleanupFailedContainer containerID
          | None =>
              exposed ← (if public then expose m job k containerID hostPort else mret (Some k));
              match exposed with
              | None => mret tt
              | Some k =>
                  let message := runningMessage public (k_url k) (j_NetworkAlias job) containerPort hostPort in
                  err ← act (ActReplacePrevious (j_AppLabel job) containerID)
                          (λ n, h_replace n (j_AppLabel job) containerID);
                  let message := match err with
                                 | None => message
                                 | Some e => message +:+ "; could not remove previous container: " +:+ err_text e
                                 end in
                  logs ← act (ActRecentLogs containerID) (λ n, h_recentLogs n containerID);
                  _ ← reportRuntime job k statusRunning hostPort containerID message logs;
                  syncCustomRoutes true true
              end
          end
      end
  end.

(** ** Tearing a preview down *)
Definition teardown_report (job : TeardownJobMsg) (status message errMsg : string) : AM unit :=
  act (ActTeardownReport (tj_TeardownId job) status message errMsg) (λ _, tt).
Definition teardown_fail (job : TeardownJobMsg) (msg : string) : AM unit :=
  teardown_report job teardownStatusFailed "" msg.

Definition executeTeardown (hasRuntime hasRouter : bool) (job : TeardownJobMsg) : AM unit :=
  if negb hasRuntime then teardown_fail job "Docker is not available on this server"
  else
    _ ← teardown_report job teardownStatusStopping "removing the preview container" "";
    r ← act (ActRemoveByService (tj_RouteKey job)) (λ n, h_removeByService n (tj_RouteKey job));
    match r with
    | inl e => teardown_fail job ("could not remove the preview container: " +:+ err_text e)
    | inr removed =>
        _ ← teardown_report job teardownStatusRemoving "dropping the Caddy route" "";
        reconciled ← (if negb hasRouter then mret None
                      else
                        r ← act ActListRoutes h_listRoutes;
                        match r with
                        | inl e => mret (Some ("could not inspect running containers to reconcile Caddy: " +:+ err_text e))
                        | inr routes =>
                            a ← act (ActApply routes) (λ n, h_apply n routes);
                            match snd a with
                            | Some e => mret (Some ("could not reconcile Caddy after removing the preview: " +:+ err_text e))
                            | None => mret None
                            end
                        end);
        match reconciled with
        | Some msg => teardown_fail job msg
        | None =>
            _ ← (if String.eqb (tj_NetworkName job) "" then mret None
                 else act (ActRemoveNetwork (tj_NetworkName job)) (λ n, h_removeNetwork n (tj_NetworkName job)));
            let msg := if removed =? 0 then "the preview was already removed; route reconciled"
                       else "removed " +:+ Itoa removed +:+ " preview container(s) and dropped the route" in
            teardown_report job teardownStatusSucceeded msg ""
        end
    end.

(** ** Tailing the runtime logs: one tick of [runtimeLogLoop] *)
Definition log_report (deploymentID : string) (lines : list string) : AM unit :=
  act (ActReport (mk_Report deploymentID statusRunning 0 "" "" lines streamRuntime "" "" "")) (λ _, tt).

Fixpoint tail_containers (running : list managedContainer) (cursors : gmap string string) : AM (gmap string string) :=
  match running with
  | [] => mret cursors
  | c :: cs =>
      match cursors !! mc_ID c with
      | None => now ← act ActNow h_nowCursor; tail_containers cs (<[mc_ID c := now]> cursors)
      | Some since =>
          r ← act (ActLogsSince (mc_ID c) since) (λ n, h_logsSince n (mc_ID c) since);
          match r with
          | inl _ => tail_containers cs cursors
          | inr (lines, next) =>
              _ ← (match lines with [] => mret tt | _ => log_report (mc_DeploymentID c) lines end);
              tail_containers cs (<[mc_ID c := next]> cursors)
          end
      end
  end.

Definition log_tick (cursors : gmap string string) : AM (gmap string string) :=
  r ← act ActListRunning h_listRunning;
  match r with
  | inl _ => mret cursors
  | inr running =>
      cursors' ← tail_containers running cursors;
      mret (filter (λ kv, kv.1 ∈ map mc_ID running) cursors')
  end.
End Agent.
