(* ===== verification/AgentProps.v ===== *)
(** * AgentProps: the agent's runs follow the protocol and never lose a release *)
From S2P Require Import Prelude.
From S2P Require Import GoStrings.
From S2P Require Import Problem.
From S2P Require Import Schema.
From S2P Require Import DeployStore.
From S2P Require Import Deployments.
From S2P Require Import DeployHandlers.
From S2P Require Import Caddy.
From S2P Require Import Agent.

(** ** Runs extend the trace *)
Section Triples.
Context {H : Host}.

(** From any trace, [m] returns [a] and appends [ext] with [Q a ext]. *)
Definition awp {A} (m : AM A) (Q : A → list Act → Prop) : Prop :=
  ∀ tr, ∃ a ext, m tr = (a, tr ++ ext) ∧ Q a ext.

Lemma awp_ret {A} (a : A) (Q : A → list Act → Prop) : Q a [] → awp (mret a) Q.
Proof. intros HQ tr. exists a, []. by rewrite app_nil_r. Qed.
Lemma awp_act {A} x (f : nat → A) (Q : A → list Act → Prop) : (∀ n, Q (f n) [x]) → awp (act x f) Q.
Proof. intros HQ tr. exists (f (length tr)), [x]. by split. Qed.
Lemma awp_bind {A B} (m : AM A) (k : A → AM B) (Q : B → list Act → Prop) :
  awp m (λ a e1, awp (k a) (λ b e2, Q b (e1 ++ e2))) → awp (m ≫= k) Q.
Proof.
  intros Hm tr. destruct (Hm tr) as (a & e1 & Hrun & Hk). destruct (Hk (tr ++ e1)) as (b & e2 & Hrun2 & HQ).
  exists b, (e1 ++ e2). unfold mbind, AM_bind. rewrite Hrun, Hrun2. by rewrite app_assoc.
Qed.
Lemma awp_mono {A} (m : AM A) (Q Q' : A → list Act → Prop) : (∀ a e, Q a e → Q' a e) → awp m Q → awp m Q'.
Proof. intros Hi Hm tr. destruct (Hm tr) as (a & e & ? & ?). eauto. Qed.
End Triples.

Ltac awp_step :=
  lazymatch goal with
  | |- awp (_ ≫= _) _ => apply awp_bind
  | |- awp (mret _) _ => apply awp_ret
  | |- awp (act _ _) _ => apply awp_act; intros ?
  | |- awp (if ?b then _ else _) _ => destruct b eqn:?
  | |- awp (match ?x with _ => _ end) _ => destruct x eqn:?
  | |- awp (let '_ := ?x in _) _ => destruct x eqn:?
  end.
Ltac awp_steps := repeat (awp_step; simpl).

(** ** The protocol of a deployment's reports *)
Definition act_status (a : Act) : option string :=
  match a with ActReport r => Some (rp_Status r) | _ => None end.
Definition statuses (tr : list Act) : list string := omap act_status tr.

(** The status a status may be followed by. *)
Definition next_ok (a b : string) : bool :=
  in_list (if String.eqb a "" then [statusPulling; statusCloning; statusFailed]
           else if String.eqb a statusCloning then [statusBuilding; statusFailed]
           else if String.eqb a statusBuilding then [statusStarting; statusFailed]
           else if String.eqb a statusPulling then [statusStarting; statusFailed]
           else if String.eqb a statusStarting then [statusHealthcheck; statusRunning; statusFailed]
           else if String.eqb a statusHealthcheck then [statusRouting; statusFailed]
           else if String.eqb a statusRouting then [statusRunning; statusFailed]
           else []) b.
Definition terminal (s : string) : bool := in_list [statusRunning; statusFailed] s.
(** A complete run of the protocol from status [a]: it ends, and only ends, in a
    terminal status. *)
Fixpoint protocol (a : string) (l : list string) : bool :=
  match l with
  | [] => terminal a
  | b :: l' => next_ok a b && protocol b l'
  end.

Lemma statuses_app t u : statuses (t ++ u) = statuses t ++ statuses u.
Proof. apply omap_app. Qed.

(** Actions that cannot hurt: they neither replace nor remove nor run a container. *)
Definition harmless (a : Act) : bool :=
  match a with
  | ActRun _ | ActReplacePrevious _ _ | ActRemoveContainer _ | ActRemoveByService _ | ActApply _
  | ActHealth _ | ActReport _ => false
  | _ => true
  end.
Definition quiet (a : Act) : bool :=
  match a with ActListRoutes | ActSyncRoutes _ | ActApply _ | ActReportRouteSync _ => true | _ => false end.
Definition not_replace (a : Act) : bool := match a with ActReplacePrevious _ _ => false | _ => true end.
(** Containers removed are [cid] only. *)
Definition removes_only (cid : string) (a : Act) : bool :=
  match a with ActRemoveContainer c => String.eqb c cid | ActRemoveByService _ => false | _ => true end.

Definition not_run (a : Act) : bool := match a with ActRun _ => false | _ => true end.
(** Replaces nothing, runs nothing, removes at most the container [cid]. *)
Definition tame (cid : string) (a : Act) : bool := not_replace a && removes_only cid a && not_run a.

Section Runs.
Context {H : Host}.

(** What getting the image does: reports, and either a failure or a ready image. *)
Definition prepared (r : option (string * Z * Known * list string)) (ext : list Act) : Prop :=
  forallb (λ a, harmless a || bool_decide (act_status a ≠ None)) ext = true ∧
  match r with
  | Some _ => statuses ext = [statusPulling] ∨ statuses ext = [statusCloning; statusBuilding]
  | None => protocol "" (statuses ext) = true ∧ last (statuses ext) = Some statusFailed
  end.

Lemma awp_prepare job : awp (prepare job) prepared.
Proof.
  unfold prepare, buildFromSource, reportBuild, report. awp_steps; (split; [done|simpl; auto]).
Qed.

(** A public service's exposure: it fails with a report and removes its own container,
    or the health check passed and Caddy took the routes. *)
Definition exposed (m : caddyManager) (job : Job) (cid : string) (port : Z) (r : option Known) (ext : list Act) : Prop :=
  forallb (tame cid) ext = true ∧
  match r with
  | None => protocol statusStarting (statuses ext) = true ∧ last (statuses ext) = Some statusFailed
  | Some _ => statuses ext = [statusHealthcheck; statusRouting] ∧
      (∃ n, ActHealth port ∈ ext ∧ h_health n port = None) ∧
      (∃ n routes, ActApply (routesForDeployment routes (job_route job cid port)) ∈ ext ∧
         snd (h_apply n (routesForDeployment routes (job_route job cid port))) = None)
  end.

Lemma awp_cleanup cid (Q : unit → list Act → Prop) :
  (cid = "" → Q tt []) → (cid ≠ "" → Q tt [ActRemoveContainer cid]) → awp (cleanupFailedContainer cid) Q.
Proof.
  intros H1 H2. unfold cleanupFailedContainer. destruct (String.eqb_spec cid ""); awp_steps; auto.
Qed.

Lemma awp_expose m job k cid port : awp (expose m job k cid port) (exposed m job cid port).
Proof.
  unfold expose, reportBuild, reportRuntime, report.
  awp_steps; try (apply awp_cleanup; intros _; awp_steps);
    (split; [unfold tame; simpl; rewrite ?String.eqb_refl; done|]); simpl; try done.
  split; [done|]. split; [|].
  - exists n0. split; [set_solver|done].
  - exists n3, l. split; [set_solver|]. by rewrite Heqp.
Qed.

(** Custom-domain sync touches no container and reports no status. *)
Lemma awp_sync b b' (Q : unit → list Act → Prop) :
  (∀ ext, forallb quiet ext = true → Q tt ext) → awp (syncCustomRoutes b b') Q.
Proof. intros HQ. unfold syncCustomRoutes. awp_steps; by apply HQ. Qed.

(** The outcome of a run: it failed, reporting so, without touching the previous
    release; or the new container runs, and only then the previous one went. *)
Definition failed_run (ext : list Act) : Prop :=
  protocol "" (statuses ext) = true ∧ last (statuses ext) = Some statusFailed ∧
  forallb not_replace ext = true ∧
  ∃ cid, forallb (removes_only cid) ext = true ∧
    ∀ i, ActRun i ∈ ext → ∃ n, cid = (h_run n i).1.1.

Definition switched_run (job : Job) (ext : list Act) : Prop :=
  protocol "" (statuses ext) = true ∧ last (statuses ext) = Some statusRunning ∧
  ∃ pre post i n cid port,
    ext = pre ++ ActReplacePrevious (j_AppLabel job) cid :: post ∧
    ActRun i ∈ pre ∧ h_run n i = (cid, port, None) ∧ in_appLabel i = j_AppLabel job ∧
    forallb (λ a, not_replace a && removes_only cid a) (pre ++ post) = true ∧
    (j_Visibility job ≠ "private" →
       (∃ n, ActHealth port ∈ pre ∧ h_health n port = None) ∧
       (∃ n routes, ActApply (routesForDeployment routes (job_route job cid port)) ∈ pre ∧
          snd (h_apply n (routesForDeployment routes (job_route job cid port))) = None)).

Lemma harmless_prefix ext : forallb (λ a, harmless a || bool_decide (act_status a ≠ None)) ext = true →
  forallb not_replace ext = true ∧ (∀ cid, forallb (removes_only cid) ext = true) ∧ ∀ i, ActRun i ∉ ext.
Proof.
  intros Hx. assert (∀ a, a ∈ ext → not_replace a = true ∧ (∀ cid, removes_only cid a = true) ∧ ∀ i, a ≠ ActRun i) as Ha.
  { intros a Hin. apply list_elem_of_In in Hin. pose proof (proj1 (forallb_forall _ _) Hx a Hin) as Hb. simpl in Hb.
    destruct a; first [discriminate Hb | exfalso; by apply bool_decide_eq_true in Hb | split; [done|split; [intros; done|intros; done]]]. }
  split; [|split].
  - apply forallb_forall. intros a Hin%list_elem_of_In. by apply Ha.
  - intros cid. apply forallb_forall. intros a Hin%list_elem_of_In. by apply Ha.
  - intros i Hin. destruct (Ha _ Hin) as (_ & _ & Hn). by apply (Hn i).
Qed.

Lemma forallb_elem {X} (p : X → bool) l : forallb p l = true → ∀ x, x ∈ l → p x = true.
Proof. intros Hp x Hx%list_elem_of_In. by apply (proj1 (forallb_forall _ _) Hp). Qed.
Lemma forallb_and {X} (p q : X → bool) l : forallb (λ a, p a && q a) l = true ↔ forallb p l = true ∧ forallb q l = true.
Proof. induction l as [|x l IH]; simpl; [done|]. rewrite !andb_true_iff, IH. tauto. Qed.

(** The reports that lead to "starting", then any continuation. *)
Lemma protocol_prepared pre l :
  statuses pre = [statusPulling] ∨ statuses pre = [statusCloning; statusBuilding] →
  protocol statusStarting l = true → protocol "" (statuses pre ++ statusStarting :: l) = true.
Proof. by intros [->| ->] Hl; simpl; rewrite Hl. Qed.

Lemma tame_spec cid tr : forallb (tame cid) tr = true →
  forallb not_replace tr = true ∧ forallb (removes_only cid) tr = true ∧ ∀ i, ActRun i ∉ tr.
Proof.
  intros Ht. assert (∀ a, a ∈ tr → tame cid a = true) as Ha
    by (intros a Hin%list_elem_of_In; by apply (proj1 (forallb_forall _ _) Ht)).
  unfold tame in Ha. split; [|split].
  - apply forallb_forall. intros a Hin%list_elem_of_In. specialize (Ha a Hin). by propify.
  - apply forallb_forall. intros a Hin%list_elem_of_In. specialize (Ha a Hin). by propify.
  - intros i Hin. specialize (Ha _ Hin). simpl in Ha. done.
Qed.

Lemma quiet_spec cid tr : forallb quiet tr = true →
  statuses tr = [] ∧ forallb (λ a, not_replace a && removes_only cid a) tr = true.
Proof.
  induction tr as [|a tr IH]; simpl; [done|]. intros [Ha Htr]%andb_true_iff.
  destruct (IH Htr) as [I1 I2]. rewrite I2. by destruct a.
Qed.

(** A failure after the container was started, with its optional crash logs. *)
Lemma awp_run_failed (job : Job) k (cid : string) (port : Z) e (Q : unit → list Act → Prop) :
  (∀ ext, forallb (tame cid) ext = true → statuses ext = [statusFailed] → Q tt ext) →
  awp (crashLogs ← (if String.eqb cid "" then mret [] else act (ActRecentLogs cid) (λ n, h_recentLogs n cid));
       _ ← reportRuntime job k statusFailed port cid ("could not start container: " +:+ err_text e) crashLogs;
       cleanupFailedContainer cid) Q.
Proof.
  intros HQ. unfold reportRuntime, report. awp_steps; apply awp_cleanup; intros; simpl; apply HQ; try done;
    (unfold tame; simpl; by rewrite String.eqb_refl).
Qed.

(** The parts of a run that got as far as starting its container. *)
Lemma failed_after_run pre r i ext cid n port err :
  forallb (λ a, harmless a || bool_decide (act_status a ≠ None)) pre = true →
  statuses pre = [statusPulling] ∨ statuses pre = [statusCloning; statusBuilding] →
  rp_Status r = statusStarting → h_run n i = (cid, port, err) →
  forallb (tame cid) ext = true →
  protocol statusStarting (statuses ext) = true → last (statuses ext) = Some statusFailed →
  failed_run (pre ++ ActReport r :: ActRun i :: ext).
Proof.
  intros Hh Hp Hr Hrun He Hpr Hl. destruct (harmless_prefix pre Hh) as (N1 & N2 & N3).
  destruct (tame_spec cid ext He) as (He1 & He2 & Hni).
  assert (statuses (pre ++ ActReport r :: ActRun i :: ext) = statuses pre ++ statusStarting :: statuses ext) as Hs
    by (rewrite statuses_app; unfold statuses at 2; simpl; by rewrite Hr).
  unfold failed_run. rewrite Hs. split; [by apply protocol_prepared|]. split; [|split].
  - rewrite last_app, last_cons, Hl. done.
  - by rewrite forallb_app, N1.
  - exists cid. split; [by rewrite forallb_app, N2|].
    intros i' [Hi|[[=]|[[=->]|Hi]%elem_of_cons]%elem_of_cons]%elem_of_app; [by destruct (N3 i')| |by destruct (Hni i')].
    exists n. by rewrite Hrun.
Qed.

(** A run that got to the switch. *)
Lemma switched_after pre r i ext r' q job cid port n logs :
  forallb (λ a, harmless a || bool_decide (act_status a ≠ None)) pre = true →
  statuses pre = [statusPulling] ∨ statuses pre = [statusCloning; statusBuilding] →
  rp_Status r = statusStarting → rp_Status r' = statusRunning → h_run n i = (cid, port, None) →
  in_appLabel i = j_AppLabel job →
  forallb (tame cid) ext = true → statuses ext = [] ∨ statuses ext = [statusHealthcheck; statusRouting] →
  forallb quiet q = true →
  (j_Visibility job ≠ "private" →
       (∃ n, ActHealth port ∈ ext ∧ h_health n port = None) ∧
       (∃ n routes, ActApply (routesForDeployment routes (job_route job cid port)) ∈ ext ∧
          snd (h_apply n (routesForDeployment routes (job_route job cid port))) = None)) →
  switched_run job (pre ++ ActReport r :: ActRun i :: ext ++
    ActReplacePrevious (j_AppLabel job) cid :: ActRecentLogs logs :: ActReport r' :: q).
Proof.
  intros Hh Hp Hr Hr' Hrun Hlab Ht Hst Hq Hex. destruct (harmless_prefix pre Hh) as (N1 & N2 & N3).
  destruct (quiet_spec cid q Hq) as [Q1 Q2]. unfold switched_run.
  assert (statuses (pre ++ ActReport r :: ActRun i :: ext ++ ActReplacePrevious (j_AppLabel job) cid :: ActRecentLogs logs :: ActReport r' :: q)
    = statuses pre ++ statusStarting :: (statuses ext ++ [statusRunning])) as ->.
  { rewrite statuses_app. unfold statuses at 2. simpl. rewrite Hr. do 2 f_equal.
    rewrite omap_app. simpl. rewrite Hr'. f_equal. f_equal. exact Q1. }
  split; [apply protocol_prepared; [done|]; by destruct Hst as [->| ->]|]. split.
  { rewrite last_app, last_cons, last_snoc. done. }
  exists (pre ++ ActReport r :: ActRun i :: ext), (ActRecentLogs logs :: ActReport r' :: q), i, n, cid, port.
  split; [by rewrite <- app_assoc|]. split; [set_solver|]. split; [done|]. split; [done|]. split.
  - apply forallb_forall. intros a Hin%list_elem_of_In.
    destruct (tame_spec cid ext Ht) as (T1 & T2 & _).
    apply andb_true_iff; split; revert a Hin; intros a Hin.
    + revert a Hin. apply forallb_elem. rewrite !forallb_app. simpl. rewrite N1, T1. simpl.
      apply forallb_and in Q2 as [-> _]. done.
    + revert a Hin. apply forallb_elem. rewrite !forallb_app. simpl. rewrite N2, T2. simpl.
      apply forallb_and in Q2 as [_ ->]. done.
  - intros Hpub. destruct (Hex Hpub) as ((n1 & Hin & ?) & (n2 & routes & Hin2 & ?)). split; [exists n1; set_solver|].
    exists n2, routes. split; [set_solver|done].
Qed.

Lemma awp_execute m job : awp (executeDeployment true (Some m) job) (λ _ ext, failed_run ext ∨ switched_run job ext).
Proof.
  unfold executeDeployment. awp_step. eapply awp_mono; [|apply awp_prepare].
  intros prep pre [Hh Hp]. destruct prep as [[[[img port0] k] logs]|]; simpl.
  2:{ awp_step. left. rewrite app_nil_r. destruct (harmless_prefix pre Hh) as (N1 & N2 & N3).
      destruct Hp as [Hp1 Hp2]. split; [done|]. split; [done|]. split; [done|].
      exists "". split; [done|]. intros i Hi. by destruct (N3 i). }
  unfold reportBuild at 1, report at 1. do 2 awp_step. simpl. do 2 awp_step. simpl.
  set (i := run_input job img port0 _). destruct (h_run n0 i) as [[cid port] err] eqn:Hrun.
  destruct err as [e|]; simpl.
  { apply awp_run_failed. intros ext He1 He2. left. eapply failed_after_run; try done; by rewrite He2. }
  awp_step. eapply (awp_mono _ (λ r ext, forallb (tame cid) ext = true ∧
    match r with
    | None => protocol statusStarting (statuses ext) = true ∧ last (statuses ext) = Some statusFailed
    | Some _ => (statuses ext = [] ∨ statuses ext = [statusHealthcheck; statusRouting]) ∧
        (j_Visibility job ≠ "private" → exposed m job cid port r ext)
    end)).
  2:{ destruct (String.eqb (j_Visibility job) "private") eqn:Hpriv; simpl.
      - awp_step. propify. split; [done|]. split; [by left|done].
      - eapply awp_mono; [|apply awp_expose]. intros r ext Hex. destruct Hex as [Ht Hr]. split; [done|].
        destruct r; [|done]. destruct Hr as (Hs & Hr). split; [by right|]. intros _. by split. }
  intros r ext [Ht Hr]. destruct r as [k'|]; simpl.
  2:{ awp_step. left. rewrite app_nil_r. destruct Hr as [Hr1 Hr2]. by eapply failed_after_run. }
  unfold reportRuntime, report. do 2 awp_step. simpl. do 2 awp_step. simpl. do 2 awp_step. simpl.
  apply awp_sync. intros q Hq. right. simpl. destruct Hr as [Hst Hex].
  eapply (switched_after pre _ i ext _ q); try done.
  intros Hpub. destruct (Hex Hpub) as (_ & _ & ? & ?). done.
Qed.
End Runs.

(** ** Runs whose every action satisfies a predicate *)
Section Every.
Context {H : Host}.
Implicit Types (P : Act → Prop).

Definition every {A} P (m : AM A) : Prop := awp m (λ _ ext, Forall P ext).

Lemma every_ret {A} P (a : A) : every P (mret a).
Proof. by apply awp_ret. Qed.
Lemma every_act {A} P x (f : nat → A) : P x → every P (act x f).
Proof. intros Hx. apply awp_act. intros _. by repeat constructor. Qed.
Lemma every_bind {A B} P (m : AM A) (k : A → AM B) : every P m → (∀ a, every P (k a)) → every P (m ≫= k).
Proof.
  intros Hm Hk. apply awp_bind. eapply awp_mono; [|exact Hm]. intros a e He.
  eapply awp_mono; [|exact (Hk a)]. intros b e' He'. by apply Forall_app.
Qed.
Lemma awp_and {A} (m : AM A) (Q Q' : A → list Act → Prop) : awp m Q → awp m Q' → awp m (λ a e, Q a e ∧ Q' a e).
Proof.
  intros H1 H2 tr. destruct (H1 tr) as (a & e & Hr & HQ), (H2 tr) as (a' & e' & Hr' & HQ').
  rewrite Hr in Hr'. injection Hr' as <- <-%app_inv_head. eauto.
Qed.
(** What a triple says of a concrete run. *)
Lemma awp_run {A} (m : AM A) (Q : A → list Act → Prop) tr : awp m Q →
  ∃ ext, snd (m tr) = tr ++ ext ∧ Q (fst (m tr)) ext.
Proof. intros Hm. destruct (Hm tr) as (a & e & -> & HQ). eauto. Qed.
End Every.

Ltac every_step :=
  lazymatch goal with
  | |- every _ (_ ≫= _) => apply every_bind; [|intros ?]
  | |- every _ (mret _) => apply every_ret
  | |- every _ (act _ _) => apply every_act; try done
  | |- every _ (if ?b then _ else _) => destruct b eqn:?
  | |- every _ (match ?x with _ => _ end) => destruct x eqn:?
  end.
Ltac every_steps := repeat every_step.

(** A report about [id]. *)
Definition about (id : string) (a : Act) : Prop :=
  match a with ActReport r => rp_DeploymentId r = id | _ => True end.

Section Reports.
Context {H : Host}.

Lemma every_sync P b b' :
  P ActListRoutes → (∀ l, P (ActSyncRoutes l)) → (∀ l, P (ActApply l)) → (∀ l, P (ActReportRouteSync l)) →
  every P (syncCustomRoutes b b').
Proof. intros. unfold syncCustomRoutes. every_steps; auto. Qed.

Lemma every_about hasRuntime router job : every (about (j_DeploymentId job)) (executeDeployment hasRuntime router job).
Proof.
  unfold executeDeployment, prepare, buildFromSource, expose, cleanupFailedContainer, reportBuild, reportRuntime, report.
  every_steps. all: try (apply every_sync; done).
Qed.

(** Every report of a deployment tags its lines with a stream the control plane stores. *)
Definition stream_tagged (a : Act) : Prop :=
  match a with ActReport r => in_list event_streams (rp_LogStream r) = true | _ => True end.
Lemma every_tagged hasRuntime router job : every stream_tagged (executeDeployment hasRuntime router job).
Proof.
  unfold executeDeployment, prepare, buildFromSource, expose, cleanupFailedContainer, reportBuild, reportRuntime, report.
  every_steps. all: try (apply every_sync; done).
Qed.

(** Every status of a complete run is one the control plane takes from an agent. *)
Lemma protocol_reportable a l : protocol a l = true → Forall (λ s, isAgentReportableStatus s = true) l.
Proof.
  revert a. induction l as [|b l IH]; intros a Hp; simpl in Hp; constructor; apply andb_true_iff in Hp as [Hn Hp].
  - unfold next_ok in Hn. repeat (destruct (String.eqb a _); [apply existsb_exists in Hn as (x & Hx & ->%String.eqb_eq); simpl in Hx; destruct_or! Hx; subst; done|]). discriminate.
  - by eapply IH.
Qed.
Lemma awp_protocol hasRuntime router job :
  awp (executeDeployment hasRuntime router job) (λ _ ext, protocol "" (statuses ext) = true).
Proof.
  destruct hasRuntime, router as [m|].
  1:{ eapply awp_mono; [|apply awp_execute]. by intros _ ext [[? _]|[? _]]. }
  all: unfold executeDeployment, reportBuild, report; apply awp_act; intros _; reflexivity.
Qed.
End Reports.

(** ** Teardowns *)
Definition td_status (a : Act) : option string :=
  match a with ActTeardownReport _ s _ _ => Some s | _ => None end.
Definition td_statuses (tr : list Act) : list string := omap td_status tr.

(** A teardown removes only what carries its route key, and deploys nothing. *)
Definition tears_down (job : TeardownJobMsg) (a : Act) : Prop :=
  match a with
  | ActRemoveByService k => k = tj_RouteKey job
  | ActRemoveNetwork n => n = tj_NetworkName job ∧ n ≠ ""
  | ActTeardownReport id _ _ _ => id = tj_TeardownId job
  | ActListRoutes | ActApply _ => True
  | _ => False
  end.

(** A run's reports in order; success only with the container gone and Caddy reloaded
    from what still runs. *)
Definition torn_down {H : Host} (hasRouter : bool) (job : TeardownJobMsg) (ext : list Act) : Prop :=
  match td_statuses ext with
  | [s] | [_; s] => s = teardownStatusFailed
  | [a; b; s] =>
      a = teardownStatusStopping ∧ b = teardownStatusRemoving ∧
      (∃ n removed, ActRemoveByService (tj_RouteKey job) ∈ ext ∧ h_removeByService n (tj_RouteKey job) = inr removed) ∧
      (s = teardownStatusFailed ∨
       s = teardownStatusSucceeded ∧
       (hasRouter = true → ∃ n n' routes, h_listRoutes n = inr routes ∧ ActApply routes ∈ ext ∧ snd (h_apply n' routes) = None))
  | _ => False
  end.

Section Teardowns.
Context {H : Host}.

Lemma every_teardown hasRuntime hasRouter job : every (tears_down job) (executeTeardown hasRuntime hasRouter job).
Proof. unfold executeTeardown, teardown_fail, teardown_report. every_steps. split; [done|]. by apply String.eqb_neq. Qed.

Lemma awp_teardown hasRuntime hasRouter job :
  awp (executeTeardown hasRuntime hasRouter job)
    (λ _ ext, torn_down hasRouter job ext ∧
              Forall (λ s, isAgentReportableTeardownStatus s = true) (td_statuses ext)).
Proof.
  unfold executeTeardown, teardown_fail, teardown_report. awp_steps.
  all: (split; [|repeat constructor]); unfold torn_down; simpl; try done.
  all: split; [done|]; split; [done|].
  all: split; [eexists _, _; split; [set_solver|eassumption]|]; auto.
  all: right; split; [done|]; intros ?; try (by destruct hasRouter).
  all: eexists _, _, _; split; [eassumption|]; split; [set_solver|eassumption].
Qed.
End Teardowns.

(** ** Custom-domain routes *)

(** A desired route is a running one, untouched, or the route of the override's service
    on the port its own container listens on. *)
Definition from_override (routes : list managedRoute) (overrides : list RouteOverride) (r : managedRoute) : Prop :=
  r ∈ routes ∨
  ∃ base o, base ∈ routes ∧ o ∈ overrides ∧ ov_ServiceId o = r_ServiceID base ∧
            r = with_custom_hosts base (ov_Hostnames o) ∧ ov_Hostnames o ≠ [].

Lemma routesForDeployment_elem existing current r :
  r ∈ routesForDeployment existing current ↔
  r = current ∨ (r ∈ existing ∧ r_ServiceID r ≠ r_ServiceID current ∧ r_ContainerID r ≠ r_ContainerID current).
Proof.
  unfold routesForDeployment. rewrite elem_of_app, list_elem_of_singleton.
  rewrite list_elem_of_In, filter_In, <- list_elem_of_In, negb_true_iff, orb_false_iff, !String.eqb_neq. tauto.
Qed.

Lemma by_service_elem routes id base : by_service routes id = Some base → base ∈ routes ∧ r_ServiceID base = id.
Proof.
  intros Hb%last_Some_elem_of. apply list_elem_of_In, filter_In in Hb as [Hb Hid].
  apply list_elem_of_In in Hb. by apply String.eqb_eq in Hid.
Qed.

Definition result_of (routes : list managedRoute) (overrides : list RouteOverride) (x : RouteResult) : Prop :=
  ∃ base o, base ∈ routes ∧ o ∈ overrides ∧ ov_ServiceId o = r_ServiceID base ∧
    rr_ServiceId x = r_ServiceID base ∧ rr_DeploymentId x = r_DeploymentID base ∧ rr_Hostnames x = ov_Hostnames o.

Lemma apply_overrides_spec routes overrides all desired results :
  (∀ o, o ∈ overrides → o ∈ all) → Forall (from_override routes all) desired → Forall (result_of routes all) results →
  Forall (from_override routes all) (fst (apply_overrides routes overrides desired results)) ∧
  Forall (result_of routes all) (snd (apply_overrides routes overrides desired results)).
Proof.
  revert desired results. induction overrides as [|o os IH]; intros desired results Hin Hd Hr; simpl; [done|].
  destruct (by_service routes (ov_ServiceId o)) as [base|] eqn:Hb; [|apply IH; set_solver].
  destruct (by_service_elem _ _ _ Hb) as [Hbase Hid].
  destruct (ov_Hostnames o) as [|h hs] eqn:Hh; [apply IH; set_solver|]. rewrite <- Hh.
  apply IH; [set_solver| |].
  - apply Forall_forall. intros r [->|[Hr' _]]%routesForDeployment_elem.
    + right. exists base, o. rewrite Hh. split; [done|]. split; [apply Hin; left|]. done.
    + by apply (proj1 (Forall_forall _ _) Hd).
  - apply Forall_app. split; [done|]. constructor; [|constructor]. exists base, o. split; [done|].
    split; [apply Hin; left|]. done.
Qed.

Section Sync.
Context {H : Host}.

Lemma result_of_fail routes all msg l :
  Forall (result_of routes all) l → Forall (λ x, result_of routes all x ∧ rr_Ok x = false) (map (fail_result msg) l).
Proof. induction 1 as [|x l (b & o & ?) _ IH]; simpl; constructor; [|done]. split; [by exists b, o|done]. Qed.

(** What a synchronisation did: nothing, or it asked the control plane about the
    running routes and applied the answer. *)
Definition synced (ext : list Act) : Prop :=
  (∀ l, ActReportRouteSync l ∉ ext) ∧ (∀ l, ActApply l ∉ ext) ∨
  ∃ routes n n' overrides desired,
    h_sync n routes = inr overrides ∧ ActSyncRoutes routes ∈ ext ∧ ActApply desired ∈ ext ∧
    Forall (from_override routes overrides) desired ∧
    (∀ l, ActApply l ∈ ext → l = desired) ∧
    ∀ results, ActReportRouteSync results ∈ ext → Forall (result_of routes overrides) results ∧
      (snd (h_apply n' desired) ≠ None → Forall (λ x, rr_Ok x = false) results).

Lemma awp_synced b b' : awp (syncCustomRoutes b b') (λ _ ext, synced ext).
Proof.
  unfold syncCustomRoutes.
  awp_step; [awp_steps; left; split; intros l ?; set_solver|].
  awp_step; awp_step. destruct (h_listRoutes n) as [e0|l]; [awp_steps; left; split; intros l ?; set_solver|].
  destruct l as [|r0 routes0]; [awp_steps; left; split; intros l ?; set_solver|].
  set (routes := r0 :: routes0). awp_step. awp_step.
  destruct (h_sync n0 routes) as [e|overrides] eqn:Hsync; [awp_steps; left; split; intros l ?; set_solver|].
  pose proof (apply_overrides_spec routes overrides overrides routes []) as Hspec.
  destruct (apply_overrides routes overrides routes []) as [desired results]. simpl in Hspec.
  destruct Hspec as [Hd Hr]; [done|apply Forall_forall; intros; by left|constructor|].
  awp_step. awp_step. destruct (h_apply n1 desired) as [logs err] eqn:Happ.
  assert (∀ results', (Forall (result_of routes overrides) results' ∧ (err ≠ None → Forall (λ x, rr_Ok x = false) results')) →
    ∀ tl, tl = [] ∨ tl = [ActReportRouteSync results'] →
    synced ([ActListRoutes] ++ [ActSyncRoutes routes] ++ [ActApply desired] ++ tl)) as Hgoal.
  { intros results' Hres tl Htl. right. exists routes, n0, n1, overrides, desired.
    rewrite Happ. split; [done|]. split; [set_solver|]. split; [set_solver|]. split; [done|]. split.
    - intros l Hl. destruct Htl as [->| ->]; set_solver.
    - intros l Hl. destruct Htl as [->| ->]; [set_solver|].
      assert (l = results') as -> by set_solver. done. }
  destruct err as [e|].
  - set (results' := map _ results).
    assert (Forall (λ x, result_of routes overrides x ∧ rr_Ok x = false) results') as Hf by by apply result_of_fail.
    apply Forall_and in Hf. destruct results' as [|x l] eqn:Hx; rewrite <- ?Hx in *; awp_step;
      (eapply Hgoal; [|auto]); (split; [apply Hf|intros _; apply Hf]).
  - destruct results as [|x l] eqn:Hx; rewrite <- ?Hx in *; awp_step; (eapply Hgoal; [|auto]); (split; [exact Hr|done]).
Qed.
End Sync.

(** ** Runtime logs *)

(** What a tick does: it reads logs, and reports lines of running containers. *)
Definition log_action (running : list managedContainer) (a : Act) : Prop :=
  match a with
  | ActReport r =>
      rp_Status r = statusRunning ∧ rp_HostPort r = 0 ∧ rp_LogLines r ≠ [] ∧ rp_RouteUrl r = "" ∧
      ∃ c, c ∈ running ∧ rp_DeploymentId r = mc_DeploymentID c
  | ActNow | ActListRunning => True
  | ActLogsSince id since => ∃ c, c ∈ running ∧ id = mc_ID c
  | _ => False
  end.

Section Logs.
Context {H : Host}.

Lemma every_tail running all cursors : (∀ c, c ∈ running → c ∈ all) →
  every (log_action all) (tail_containers running cursors).
Proof.
  revert cursors. induction running as [|c cs IH]; intros cursors Hin; simpl; every_steps; try (apply IH; set_solver).
  - exists c. split; [apply Hin; left|done].
  - unfold log_report. every_step. repeat split; try done. exists c. split; [apply Hin; left|done].
Qed.

(** The cursor of a container after a tick. *)
Lemma awp_log_tick cursors :
  awp (log_tick cursors) (λ cursors' ext,
    ∃ n, match h_listRunning n with
         | inl _ => cursors' = cursors ∧ ext = [ActListRunning]
         | inr running => Forall (log_action running) ext ∧
                          ∀ id, is_Some (cursors' !! id) → id ∈ map mc_ID running
         end).
Proof.
  unfold log_tick. do 2 awp_step. destruct (h_listRunning n) as [e|running] eqn:Hl.
  - awp_step. exists n. by rewrite Hl.
  - awp_step. eapply awp_mono; [|exact (every_tail running running cursors (λ _ H, H))].
    intros cursors' ext He. awp_step. exists n. rewrite Hl. split.
    + constructor; [done|]. by rewrite app_nil_r.
    + intros id [v Hv]. by apply map_lookup_filter_Some in Hv as [_ Hv].
Qed.
End Logs.

(** ** The properties *)
Section Properties.
Context {H : Host}.

(** C2: A deployment never loses the release it replaces. Whatever Docker, Caddy and the
    network answer, a run that reaches an image either fails — it reports [failed] last,
    removes nothing but the container it started and never replaces the previous one —
    or switches: the new container runs, a public one passed its health check and Caddy
    accepted a configuration with its route, all before the previous container of the
    same label is replaced, once, and [running] is reported last. *)
Theorem executeDeployment_safe m job tr :
  ∃ ext, snd (executeDeployment true (Some m) job tr) = tr ++ ext ∧ (failed_run ext ∨ switched_run job ext).
Proof. exact (awp_run _ _ tr (awp_execute m job)). Qed.

(** The reports of a run are a complete word of the status protocol (pull or clone
    and build, start, check and route, then exactly one of [running] and [failed], as
    the last), each about the job's deployment and with a status the control plane
    accepts from an agent. *)
Theorem executeDeployment_protocol hasRuntime router job tr :
  ∃ ext, snd (executeDeployment hasRuntime router job tr) = tr ++ ext ∧
    protocol "" (statuses ext) = true ∧
    Forall (about (j_DeploymentId job)) ext ∧
    Forall (λ s, isAgentReportableStatus s = true) (statuses ext).
Proof.
  destruct (awp_run _ _ tr (awp_and _ _ _ (awp_protocol hasRuntime router job) (every_about hasRuntime router job)))
    as (ext & Hrun & Hp & Ha).
  exists ext. split; [done|]. split; [done|]. split; [done|]. by eapply protocol_reportable.
Qed.

(** The desired routes after a deployment are the running routes except those of
    the same service or container, in their order, and then the new one: no service
    and no container has a second route. *)
Theorem routesForDeployment_replaces existing current r :
  (r ∈ routesForDeployment existing current ↔
     r = current ∨ (r ∈ existing ∧ r_ServiceID r ≠ r_ServiceID current ∧ r_ContainerID r ≠ r_ContainerID current)) ∧
  (NoDup (map r_ServiceID existing) → NoDup (map r_ServiceID (routesForDeployment existing current))) ∧
  last (routesForDeployment existing current) = Some current.
Proof.
  split; [apply routesForDeployment_elem|]. split; [|unfold routesForDeployment; by rewrite last_snoc].
  intros Hnd. unfold routesForDeployment. rewrite map_app. apply NoDup_app. split; [|split; [|simpl; apply NoDup_singleton]].
  - clear r. induction existing as [|r l IH]; simpl; [constructor|]. apply NoDup_cons in Hnd as [Hr Hl].
    destruct (negb _); simpl; [|by apply IH]. constructor; [|by apply IH].
    intros (x & Hx & Hin)%list_elem_of_fmap. apply Hr. rewrite Hx. apply list_elem_of_fmap_2.
    apply list_elem_of_In, filter_In in Hin as [Hin _]. by apply list_elem_of_In.
  - intros s (x & -> & Hin)%list_elem_of_fmap Hs. apply list_elem_of_singleton in Hs.
    apply list_elem_of_In, filter_In in Hin as [_ Hb]. rewrite negb_true_iff, orb_false_iff, !String.eqb_neq in Hb. tauto.
Qed.

(** A teardown reports stopping, removing, and then exactly one of [succeeded] and
    [failed], all statuses the control plane accepts; it acts on its own route key and
    network only, and it succeeds only when Docker removed the containers of the key and
    Caddy took a configuration made of what Docker then lists as running. *)
Theorem executeTeardown_protocol hasRuntime hasRouter job tr :
  ∃ ext, snd (executeTeardown hasRuntime hasRouter job tr) = tr ++ ext ∧
    Forall (tears_down job) ext ∧ torn_down hasRouter job ext ∧
    Forall (λ s, isAgentReportableTeardownStatus s = true) (td_statuses ext).
Proof.
  destruct (awp_run _ _ tr (awp_and _ _ _ (every_teardown hasRuntime hasRouter job) (awp_teardown hasRuntime hasRouter job)))
    as (ext & Hrun & Ha & Ht & Hs). eauto.
Qed.

(** Synchronising custom domains cannot misroute. The only configuration it applies
    consists of running routes and of the hostnames the control plane returned for a
    service, pointed at the port of that service's own container; what it reports back
    names those services and hostnames, and reports failure when Caddy refused them. *)
Theorem syncCustomRoutes_owned hasRuntime hasRouter tr :
  ∃ ext, snd (syncCustomRoutes hasRuntime hasRouter tr) = tr ++ ext ∧ synced ext.
Proof. exact (awp_run _ _ tr (awp_synced hasRuntime hasRouter)). Qed.

(** A tick of the log loop only reads logs and reports lines: each report is of a
    running container, with status [running] and host port 0 (so the control plane never
    takes it for a switch), and afterwards the cursors are those of running containers
    only. *)
Theorem log_tick_reports cursors tr :
  ∃ ext n, snd (log_tick cursors tr) = tr ++ ext ∧
    match h_listRunning n with
    | inl _ => fst (log_tick cursors tr) = cursors ∧ ext = [ActListRunning]
    | inr running => Forall (log_action running) ext ∧
                     ∀ id, is_Some (fst (log_tick cursors tr) !! id) → id ∈ map mc_ID running
    end.
Proof. destruct (awp_run _ _ tr (awp_log_tick cursors)) as (ext & Hrun & n & Hn). eauto. Qed.
End Properties.
