(* ===== verification/Gateway.v ===== *)
(** * Gateway: the agent against the control plane

    [internal/deployments/handler.go] translates the messages of the two sides; here the
    agent's runs are delivered to the deployments module.  [runs] is the success logic of
    a healthy environment, for statements that something does happen. *)
From S2P Require Import Prelude.
From S2P Require Import GoStrings.
From S2P Require Import Problem.
From S2P Require Import Schema.
From S2P Require Import Platform.
From S2P Require Import Authz.
From S2P Require Import DeployNames.
From S2P Require Import DeployStore.
From S2P Require Import Deployments.
From S2P Require Import DeploySpec.
From S2P Require Import DeployHandlers.
From S2P Require Import DeployInv.
From S2P Require Import DeploySafety.
From S2P Require Import DeployJobs.
From S2P Require Import Caddy.
From S2P Require Import CaddyProps.
From S2P Require Import Agent.
From S2P Require Import AgentProps.

(** ** The messages (handler.go) *)

(** [PollDeployment]: the job of a claim. *)
Definition job_message (c : Claimed) : Job := {|
  j_DeploymentId := cl_DeploymentID c;
  j_ImageRef := cl_ImageRef c;
  j_ContainerPort := cl_ContainerPort c;
  j_Env := cl_Env c;
  j_AppLabel := cl_AppLabel c;
  j_SourceKind := cl_SourceKind c;
  j_CloneUrl := cl_CloneURL c;
  j_GitRef := cl_GitRef c;
  j_BuiltImageTag := cl_BuiltImageTag c;
  j_GitCredential := cl_GitCredential c;
  j_Visibility := cl_Visibility c;
  j_NetworkName := cl_NetworkName c;
  j_NetworkAlias := cl_NetworkAlias c;
  j_BasicAuthUser := cl_BasicAuthUser c;
  j_BasicAuthHash := cl_BasicAuthHash c;
  j_RouteHost := cl_RouteHost c;
|}.

(** [ReportDeployment]: the input of a report, under the agent's identity. *)
Definition report_input (agentID credential : string) (r : Report) : ReportInput := {|
  ri_AgentID := agentID;
  ri_Credential := credential;
  ri_DeploymentID := rp_DeploymentId r;
  ri_Status := rp_Status r;
  ri_HostPort := rp_HostPort r;
  ri_ContainerID := rp_ContainerId r;
  ri_LogLines := rp_LogLines r;
  ri_LogStream := rp_LogStream r;
  ri_Message := rp_Message r;
  ri_CommitSha := rp_CommitSha r;
  ri_BuiltImageRef := rp_BuiltImageRef r;
  ri_RouteURL := rp_RouteUrl r;
|}.

Definition reports_of (tr : list Act) : list Report :=
  omap (λ a, match a with ActReport r => Some r | _ => None end) tr.

Lemma statuses_reports tr : statuses tr = map rp_Status (reports_of tr).
Proof. induction tr as [|a tr IH]; [done|]. unfold statuses, reports_of in *. destruct a; cbn; try exact IH; f_equal; exact IH. Qed.
Lemma elem_of_reports r tr : r ∈ reports_of tr → ActReport r ∈ tr.
Proof. intros (a & Ha & Hr)%list_elem_of_omap. destruct a; congruence. Qed.

(** ** Success under a healthy environment *)
Definition runs {A} (m : M A) (Q : A → World → Prop) (w : World) : Prop :=
  ∃ a w', m w = (inr a, w') ∧ Q a w'.

Section Runs.
Context {E : Env} (Hnf : no_fault).
Implicit Types (w : World).

Lemma runs_ret {A} (a : A) Q w : Q a w → runs (mret a) Q w.
Proof. intros HQ. by exists a, w. Qed.
Lemma runs_bind {A B} (m : M A) (k : A → M B) Q w : runs m (λ a w1, runs (k a) Q w1) w → runs (m ≫= k) Q w.
Proof. intros (a & w1 & Hm & b & w2 & Hk & HQ). exists b, w2. unfold mbind, M_bind. by rewrite Hm. Qed.
Lemma runs_mono {A} (m : M A) (Q Q' : A → World → Prop) w : (∀ a w', Q a w' → Q' a w') → runs m Q w → runs m Q' w.
Proof. intros Hi (a & w1 & Hm & HQ). exists a, w1. eauto. Qed.
Lemma runs_require b e (Q : unit → World → Prop) w : b = true → Q tt w → runs (require b e) Q w.
Proof. intros -> HQ. by apply runs_ret. Qed.
Lemma runs_wrap {A} op (m : M A) Q w : runs m Q w → runs (wrap op m) Q w.
Proof. intros (a & w1 & Hm & HQ). exists a, w1. unfold wrap, on_err. by rewrite Hm. Qed.
Lemma runs_found {A} op (q : M (option A)) e (a : A) Q w :
  runs q (λ r w1, r = Some a ∧ Q a w1) w → runs (found op q e) Q w.
Proof.
  intros Hq. unfold found. apply runs_bind, runs_wrap. eapply runs_mono; [|exact Hq].
  intros r w1 [-> HQ]. by apply runs_ret.
Qed.
Lemma runs_query_opt {A} (f : DB → option A) Q w :
  Q (f (w_db w)) (tick w) → runs (ok_or_norows (db_query_row f)) Q w.
Proof.
  intros HQ. unfold runs, ok_or_norows, db_query_row. rewrite Hnf. destruct (f (w_db w)); eauto.
Qed.
Lemma runs_exec {A} (f : Stamp → DB → go_error + (A * DB)) a d Q w :
  f (mk_Stamp (w_txnow w) (uuid_at (w_tick w)) (Z.of_nat (w_tick w))) (w_db w) = inr (a, d) →
  Q a (mk_World d (S (w_tick w)) (w_txnow w)) → runs (db_exec f) Q w.
Proof. intros Hf HQ. unfold runs, db_exec. rewrite Hnf, Hf. eauto. Qed.
Lemma runs_within_tx {A} (body : M A) Q w :
  runs body (λ a w1, Q a (mk_World (w_db w1) (S (w_tick w1)) (w_txnow w))) (mk_World (w_db w) (S (w_tick w)) (now_at (w_tick w))) →
  runs (within_tx body) Q w.
Proof. intros (a & w1 & Hb & HQ). unfold runs, within_tx. rewrite Hnf, Hb, Hnf. eauto. Qed.

Lemma fresh_later w w' : fresh_ids w → (w_tick w ≤ w_tick w')%nat →
  deployment_events (w_db w') = deployment_events (w_db w) → fresh_ids w'.
Proof. intros [Hi Hf] Ht Hd. split; [done|]. intros n Hn. rewrite Hd. apply Hf. lia. Qed.
Ltac later := eapply fresh_later; [eassumption|simpl; lia|reflexivity].

(** An event of an existing deployment is accepted. *)
Lemma runs_AppendEvent id kind status message stream (Q : unit → World → Prop) w :
  fresh_ids w → has_key dp_ID id (deployments (w_db w)) = true → in_list ["status"; "log"] kind = true →
  in_list event_streams stream = true →
  (∀ ev w', w_db w' = set_deployment_events (deployment_events (w_db w) ++ [ev]) (w_db w) → fresh_ids w' → Q tt w') →
  runs (AppendEvent (mk_NewEvent id kind status message stream)) Q w.
Proof.
  intros [Hi Hf] Hk Hkind Hstream HQ. unfold AppendEvent. apply runs_bind.
  eapply runs_exec.
  - unfold sql_AppendDeploymentEvent. cbn [ne_DeploymentID ne_Kind ne_Status ne_Message ne_Stream].
    unfold event_constraints. cbn [ev_ID ev_DeploymentID ev_Kind ev_Stream st_uuid]. rewrite Hk, Hkind, Hstream.
    assert (has_key ev_ID (uuid_at (w_tick w)) (deployment_events (w_db w)) = false) as ->
      by (apply has_key_false, Hf; lia). reflexivity.
  - apply runs_ret. eapply HQ; [reflexivity|]. split; [done|]. intros n Hn. simpl in *. rewrite map_app.
    intros [H|H]%elem_of_app; [apply (Hf n); [lia|done]|].
    apply list_elem_of_singleton, (inj uuid_at) in H. lia.
Qed.

Lemma runs_report_logs i lines (Q : unit → World → Prop) w :
  fresh_ids w → has_key dp_ID (ri_DeploymentID i) (deployments (w_db w)) = true →
  in_list event_streams (ri_LogStream i) = true →
  (∀ w', deployments (w_db w') = deployments (w_db w) → fresh_ids w' → Q tt w') →
  runs (for_each lines (λ line,
        if String.eqb (TrimSpace line) "" then mret tt
        else AppendEvent (mk_NewEvent (ri_DeploymentID i) KindLog "" line (ri_LogStream i)))) Q w.
Proof.
  revert w. induction lines as [|l lines IH]; intros w Hf Hk Hs HQ; simpl; [apply runs_ret; by apply HQ|].
  apply runs_bind. destruct (String.eqb (TrimSpace l) ""); [by apply runs_ret, IH|].
  apply runs_AppendEvent; [done|done|done|done|]. intros ev w1 Hw1 Hf1.
  apply IH; [done|by rewrite Hw1|done|]. intros w2 Hw2. apply HQ. by rewrite Hw2, Hw1.
Qed.

Lemma runs_report_tx i row srv (Q : unit → World → Prop) w :
  fresh_ids w → lookup_by dp_ID (ri_DeploymentID i) (deployments (w_db w)) = Some row →
  isAgentReportableStatus (ri_Status i) = true → in_list event_streams (ri_LogStream i) = true → (∀ w', fresh_ids w' → Q tt w') →
  runs (report_tx i (deploymentFromRow row) srv) Q w.
Proof.
  intros Hf Hl Hs Hstream HQ. unfold report_tx. apply runs_within_tx, runs_bind. unfold UpdateStatus. apply runs_bind.
  eapply runs_exec.
  { unfold sql_UpdateDeploymentStatus, report_update. cbn -[in_list lookup_by update_where]. rewrite Hl.
    assert (in_list deployment_statuses (ri_Status i) = true) as -> by (by apply in_list_true, reportable_status).
    reflexivity. }
  apply runs_ret, runs_bind. simpl.
  assert (has_key dp_ID (ri_DeploymentID i) (update_where (λ x, String.eqb (dp_ID x) (ri_DeploymentID i))
     (dp_report i (now_at (w_tick w))) (deployments (w_db w))) = true) as Hk.
  { apply has_key_true. apply lookup_by_Some in Hl as [Hin Hid]. exists (dp_report i (now_at (w_tick w)) row).
    split; [|done]. apply elem_of_update_where. exists row. split; [done|]. by rewrite Hid, String.eqb_refl. }
  apply runs_AppendEvent; [later|exact Hk|done|done|].
  intros ev w1 Hw1 Hf1. apply runs_bind, runs_report_logs; [done|by rewrite Hw1|done|].
  intros w2 Hw2 Hf2. apply runs_bind.
  assert (∀ w3, fresh_ids w3 → runs (if String.eqb (ri_Status i) StatusRunning && (0 <? ri_HostPort i)
     then SupersedePreviousRunning (routeKeyOr (dp_RouteKey row) (dp_ServiceID row)) srv (ri_DeploymentID i)
     else mret tt) (λ a w4, Q a (mk_World (w_db w4) (S (w_tick w4)) (w_txnow w))) w3) as Hend.
  { intros w3 Hf3. destruct (_ && _).
    - unfold SupersedePreviousRunning. eapply runs_exec; [reflexivity|]. apply HQ. later.
    - apply runs_ret, HQ. later. }
  destruct (negb (String.eqb (ri_RouteURL i) "") && _).
  - unfold UpdateServiceRouteURL. eapply runs_exec; [reflexivity|]. apply Hend. later.
  - by apply runs_ret, Hend.
Qed.

Lemma runs_wp {A} (m : M A) (Q Q' : A → World → Prop) w :
  runs m Q w → wp m (λ r w', match r with inl _ => True | inr a => Q' a w' end) w → runs m (λ a w', Q a w' ∧ Q' a w') w.
Proof. intros (a & w1 & Hm & HQ) Hw. exists a, w1. unfold wp in Hw. rewrite Hm in Hw. done. Qed.

(** The agent is known by its credential, as a server's. *)
Definition known_agent (agentID credential srv : string) (d : DB) : Prop :=
  credential ≠ "" ∧ ∃ got, sql_GetAgentServerByCredential (hashToken credential) d = Some (got, srv) ∧
    (agentID = "" ∨ agentID = got).

Lemma runs_agent_server aid cred srv (Q : string → World → Prop) w :
  known_agent aid cred srv (w_db w) → Q srv (tick w) → runs (agent_server aid cred) Q w.
Proof.
  intros (_ & got & Hk & Hid) HQ. unfold agent_server, resolveAgent, AgentServerByCredential.
  apply runs_bind, runs_bind, runs_wrap, runs_query_opt. rewrite Hk.
  assert (negb (String.eqb aid "") && negb (String.eqb aid got) = false) as ->.
  { destruct Hid as [->| ->]; [done|]. by rewrite String.eqb_refl, andb_false_r. }
  by apply runs_ret, runs_ret.
Qed.

(** A report of the server's own deployment, of a stream the database stores, is taken. *)
Lemma runs_ReportDeployment i srv row w :
  fresh_ids w → known_agent (ri_AgentID i) (ri_Credential i) srv (w_db w) →
  uuid_parse_ok (ri_DeploymentID i) = true → isAgentReportableStatus (ri_Status i) = true → in_list event_streams (ri_LogStream i) = true →
  lookup_by dp_ID (ri_DeploymentID i) (deployments (w_db w)) = Some row → dp_ServerID row = srv →
  runs (ReportDeployment i) (λ _ w', fresh_ids w' ∧ ∃ srv row', lookup_by dp_ID (ri_DeploymentID i) (deployments (w_db w)) = Some row' ∧
          reported i srv row' (w_db w) (w_db w')) w.
Proof.
  intros Hf Hk Hid Hs Hstream Hl Hsrv. apply runs_wp.
  - unfold ReportDeployment, need_credential. pose proof Hk as [Hc _].
    apply runs_bind, runs_require; [by apply negb_true_iff, String.eqb_neq|].
    apply runs_bind, runs_require; [exact Hid|]. apply runs_bind, runs_require; [exact Hs|].
    apply runs_bind, (runs_agent_server _ _ srv); [done|]. apply runs_bind.
    eapply (runs_found _ _ _ (deploymentFromRow row)). unfold GetDeployment. apply runs_query_opt.
    unfold sql_GetDeployment. simpl. rewrite Hl. split; [done|].
    apply runs_bind, runs_require; [by apply String.eqb_eq|]. apply runs_wrap, runs_report_tx; [|exact Hl|exact Hs|exact Hstream|auto].
    eapply fresh_later; [exact Hf|simpl; lia|reflexivity].
  - apply wp_ReportDeployment; [done|]. intros srv' row' w' _ Hl' _ _ Hr. eauto.
Qed.

(** What a report does to the row it is about. *)
Lemma reported_row i srv row r d d' :
  reported i srv r d d' → lookup_by dp_ID (ri_DeploymentID i) (deployments d) = Some row →
  agents d' = agents d ∧
  ∃ row', lookup_by dp_ID (ri_DeploymentID i) (deployments d') = Some row' ∧ dp_ServerID row' = dp_ServerID row ∧
          dp_Status row' = ri_Status i ∧ dp_core row' = dp_core row.
Proof.
  intros (now & now' & now'' & evs & _ & _ & ->) Hl. cbn -[lookup_by update_where]. split; [done|].
  set (deps := update_where (λ x, String.eqb (dp_ID x) (ri_DeploymentID i)) (dp_report i now) (deployments d)).
  assert (lookup_by dp_ID (ri_DeploymentID i) deps = Some (dp_report i now row)) as Hl1.
  { unfold deps. rewrite lookup_by_update by done. rewrite Hl. apply lookup_by_Some in Hl as [_ Hid]. simpl.
    by rewrite Hid, String.eqb_refl. }
  exists (dp_report i now row). split; [|done]. destruct (switches i); [|exact Hl1].
  rewrite lookup_by_update by done. rewrite Hl1. simpl. unfold supersedes.
  apply lookup_by_Some in Hl as [_ Hid]. simpl. by rewrite Hid, String.eqb_refl, andb_false_r.
Qed.
End Runs.

(** ** A whole run delivered *)
Section Deliver.
Context {E : Env} {H : Host}.
Implicit Types (w : World).

(** The control plane receives the reports one by one. *)
Definition deliver (agentID credential : string) (reports : list Report) : M unit :=
  for_each reports (λ r, ReportDeployment (report_input agentID credential r)).

(** The row [id] is on [srv], with status [s]. *)
Definition row_at (id srv s : string) (core : db_Deployment) (d : DB) : Prop :=
  ∃ row, lookup_by dp_ID id (deployments d) = Some row ∧ dp_ServerID row = srv ∧ dp_Status row = s ∧
         dp_core row = dp_core core.

Lemma runs_deliver aid cred srv id core reports s w :
  no_fault → fresh_ids w → known_agent aid cred srv (w_db w) → uuid_parse_ok id = true →
  row_at id srv s core (w_db w) →
  Forall (λ r, rp_DeploymentId r = id ∧ isAgentReportableStatus (rp_Status r) = true ∧
            in_list event_streams (rp_LogStream r) = true) reports →
  runs (deliver aid cred reports)
    (λ _ w', row_at id srv (default s (last (map rp_Status reports))) core (w_db w')) w.
Proof.
  intros Hnf. revert s w. induction reports as [|r rs IH]; intros s w Hf Hk Hid Hrow Hall; [by apply runs_ret|].
  apply Forall_cons in Hall as [(Hr & Hst & Hstream) Hall]. destruct Hrow as (row & Hl & Hsrv & Hs & Hc).
  unfold deliver. simpl. apply runs_bind.
  eapply runs_mono; [|apply (runs_ReportDeployment Hnf (report_input aid cred r) srv row); simpl; rewrite ?Hr; done].
  intros _ w1 [Hf1 (srv' & row' & Hl' & Hrep)]. simpl in Hl'. rewrite Hr in Hl'.
  destruct (reported_row _ _ row _ _ _ Hrep) as [Hag (row1 & Hl1 & Hs1 & Hst1 & Hc1)]; [simpl; by rewrite Hr|].
  simpl in Hl1, Hst1. rewrite Hr in Hl1.
  assert (default s (last (rp_Status r :: map rp_Status rs)) = default (rp_Status r) (last (map rp_Status rs))) as Hd.
  { destruct rs as [|r' rs]; [done|]. simpl map. rewrite last_cons.
    destruct (last (rp_Status r' :: map rp_Status rs)) eqn:Hlast; [done|]. by apply last_None in Hlast. }
  eapply runs_mono; [|apply (IH (rp_Status r) w1); [done| |done| |done]].
  - intros [] w2 Hw2. simpl in *. by rewrite Hd.
  - destruct Hk as [? Hk]. split; [done|]. unfold sql_GetAgentServerByCredential in *. by rewrite Hag.
  - exists row1. split; [done|]. split; [congruence|]. split; [done|congruence].
Qed.

Lemma protocol_ends a l : l ≠ [] → protocol a l = true → ∃ s, last l = Some s ∧ (s = statusRunning ∨ s = statusFailed).
Proof.
  revert a. induction l as [|b l IH]; intros a Hne Hp; [done|]. simpl in Hp. apply andb_true_iff in Hp as [_ Hp].
  destruct l as [|c l].
  - exists b. split; [done|]. simpl in Hp. unfold terminal in Hp. apply in_list_true in Hp. set_solver.
  - destruct (IH b) as (s & Hs & ?); [done|done|]. exists s. by rewrite last_cons, Hs.
Qed.
End Deliver.

Lemma authenticated_known aid cred srv d :
  NoDup (map ag_CredentialHash (agents d)) → cred ≠ "" → authenticated aid cred srv d → known_agent aid cred srv d.
Proof.
  intros Hnd Hc (a & Ha & Hh & Hs & Hid). split; [done|]. exists (ag_ID a). split; [|done].
  unfold sql_GetAgentServerByCredential. rewrite <- Hh.
  assert (List.find (λ x, bool_decide (ag_CredentialHash x = ag_CredentialHash a)) (agents d) = Some a) as Hf; [|].
  { clear Hh Hs Hid. induction (agents d) as [|x l IH]; [by apply elem_of_nil in Ha|]. simpl in *.
    apply NoDup_cons in Hnd as [Hx Hnd]. apply elem_of_cons in Ha as [<-|Ha].
    - by rewrite bool_decide_eq_true_2.
    - rewrite bool_decide_eq_false_2; [by apply IH|]. intros He. apply Hx. rewrite He. by apply list_elem_of_fmap_2. }
  rewrite Hf. simpl. by rewrite Hs.
Qed.

Section Contract.
Context {E : Env} {A : Authorizer}.
Implicit Types (w : World).

(** The row a poll claimed, after the poll. *)
Lemma wp_poll_claims i (Q : go_error + Claimed → World → Prop) w :
  wf (w_db w) →
  (∀ e w', Q (inl e) w') → (∀ out w', cl_HasWork out = false → Q (inr out) w') →
  (∀ srv row rest now out w', authenticated (pi_AgentID i) (pi_Credential i) srv (w_db w) →
     claimed_from srv row rest now (w_db w) (w_db w') → job_of (deploymentFromRow (dp_assign now row)) (w_db w') out →
     wf (w_db w') → Q (inr out) w') →
  wp (PollDeployment i) Q w.
Proof.
  intros W He Hn Ha. apply wp_PollDeployment; [auto|by intros; apply Hn|].
  intros srv row rest now w1 Hauth Hc. apply wp_dispatch; [auto|by intros; apply Hn|].
  intros out w2 Hw2 Hj. rewrite <- Hw2 in *. eapply Ha; try done. eapply wf_evolved; [|exact W]. by eapply evolved_claimed.
Qed.

Lemma wf_routing_label d row : wf d → row ∈ deployments d → label_ok (dp_RouteKey row).
Proof.
  intros W Hin. pose proof (wf_service_uuid _ _ W Hin) as Hu.
  pose proof (proj1 (Forall_forall _ _) (wf_deployments _ W) row Hin) as [_ _ [(_ & Hk & _)|(_ & _ & _ & Hk)] Hpr]; rewrite Hk.
  - by apply canonical_uuid_is_label.
  - by apply previewRouteKey_label.
Qed.

Lemma newCaddyManager_domain opts path m : newCaddyManager opts path = inr m → validateDomainName (m_baseDomain m) = None.
Proof.
  unfold newCaddyManager. set (base := if String.eqb _ "" then _ else _). clearbody base.
  intros Hm. destruct (validateDomainName base) eqn:Hv; [done|]. repeat destr_match; simplify_eq/=; done.
Qed.

(** The job of a claimed row names hosts the router accepts. *)
Lemma job_labels row now d out :
  wf d → row ∈ deployments d → job_of (deploymentFromRow (dp_assign now row)) d out →
  label_ok (j_AppLabel (job_message out)) ∧
  (j_RouteHost (job_message out) = "" ∨ label_ok (j_RouteHost (job_message out))).
Proof.
  intros W Hin Hj. pose proof (job_of_matches row now d out W Hin Hj) as (_ & _ & _ & _ & Hl & Hk & _).
  simpl. rewrite Hl. split; [by eapply wf_routing_label|]. destruct (is_preview row); [right|left]; apply Hk.
Qed.
End Contract.

(** ** The properties *)
Section Properties.
Context {E : Env} {H : Host}.
Implicit Types (w : World).

(** C1: A deployment that an agent takes comes to an end. With no faults, when a poll
    hands out a job and the agent executes it — whatever Docker, Caddy and the builder
    answer — the control plane accepts every report of the run (its statuses and the
    streams of its log lines are ones the tables admit), and afterwards the
    claimed row, still on the same server and unchanged but for its progress, is
    [running] or [failed]: it is never left in between. *)
Theorem deployment_completes i w out w1 hasRuntime router tr :
  no_fault → wf (w_db w) → NoDup (map ag_CredentialHash (agents (w_db w))) →
  PollDeployment i w = (inr out, w1) → cl_HasWork out = true →
  fresh_ids w1 → uuid_parse_ok (cl_DeploymentID out) = true →
  ∃ ext w2 row row', snd (executeDeployment hasRuntime router (job_message out) tr) = tr ++ ext ∧
    deliver (pi_AgentID i) (pi_Credential i) (reports_of ext) w1 = (inr tt, w2) ∧
    lookup_by dp_ID (cl_DeploymentID out) (deployments (w_db w)) = Some row ∧ dp_Status row = StatusQueued ∧
    lookup_by dp_ID (cl_DeploymentID out) (deployments (w_db w2)) = Some row' ∧ dp_core row' = dp_core row ∧
    last (statuses ext) = Some (dp_Status row') ∧ (dp_Status row' = StatusRunning ∨ dp_Status row' = StatusFailed).
Proof.
  intros Hnf W Hag Hrun. assert (pi_Credential i ≠ "") as Hcred.
  { intros Hc. unfold PollDeployment, need_credential in Hrun. rewrite Hc in Hrun. discriminate. }
  use_wp Hrun. apply wp_poll_claims; [done|done|by intros ? ? ? [= <-] ?; congruence|].
  intros srv row rest now out' w' Hauth Hc Hj W' [= <-] _ Hf Hid.
  destruct (awp_run _ _ tr (awp_and _ _ _ (awp_protocol hasRuntime router (job_message out'))
    (awp_and _ _ _ (every_about hasRuntime router (job_message out')) (every_tagged hasRuntime router (job_message out')))))
    as (ext & Hext & Hp & Ha & Htag).
  pose proof Hc as (Hq & ev & Hw' & _). destruct (queue_elem _ _ _ _ Hq) as (Hin & Hsrv & Hst).
  pose proof (lookup_by_unique dp_ID _ _ (wf_deployment_ids _ W) Hin) as Hl.
  assert (row ∈ deployments (w_db w)) as Hin' by done.
  assert (lookup_by dp_ID (dp_ID row) (deployments (w_db w')) = Some (dp_assign now row)) as Hl1.
  { rewrite Hw'. cbn -[lookup_by update_where]. rewrite lookup_by_update by done. rewrite Hl. simpl. by rewrite String.eqb_refl. }
  assert (cl_DeploymentID out' = dp_ID row) as Hout.
  { destruct Hj as (env & svc & cred & _ & _ & -> & _). by destruct (String.eqb _ _). }
  destruct (runs_deliver (pi_AgentID i) (pi_Credential i) srv (dp_ID row) row (reports_of ext) (dp_Status (dp_assign now row)) w')
    as ([] & w2 & Hd & row' & Hl2 & Hs2 & Hst2 & Hc2); [done|done| |by rewrite <- Hout|by exists (dp_assign now row)| |].
  - destruct (authenticated_known _ _ _ _ Hag Hcred Hauth) as [? Hk]. split; [done|]. unfold sql_GetAgentServerByCredential in *. by rewrite Hw'.
  - pose proof (protocol_reportable _ _ Hp) as Hrep. apply Forall_forall. intros r Hr. split_and!.
    + rewrite <- Hout. exact (proj1 (Forall_forall _ _) Ha _ (elem_of_reports _ _ Hr)).
    + rewrite statuses_reports in Hrep. apply (proj1 (Forall_forall _ _) Hrep). by apply list_elem_of_fmap_2.
    + exact (proj1 (Forall_forall _ _) Htag _ (elem_of_reports _ _ Hr)).
  - destruct (protocol_ends "" (statuses ext)) as (s & Hs & Hrf); [by intros He; rewrite He in Hp|done|].
    rewrite <- statuses_reports, Hs in Hst2. simpl in Hst2. rewrite Hout.
    exists ext, w2, row, row'. do 6 (split; [done|]). rewrite Hst2. split; [done|]. by destruct Hrf as [->| ->]; [left|right].
Qed.

(** The control plane never names a host the agent's router refuses. For every job
    a poll hands out and every router [newCaddyManager] builds, the public URL of the
    job can be derived, and the configuration with the job's route and any well-formed
    running routes renders. *)
Theorem claimed_job_routable i w out w1 opts path m :
  wf (w_db w) → PollDeployment i w = (inr out, w1) → cl_HasWork out = true → newCaddyManager opts path = inr m →
  let job := job_message out in
  (∃ url, routeURL m (if String.eqb (j_RouteHost job) "" then j_AppLabel job else j_RouteHost job) = inr url) ∧
  ∀ order cid port routes, (∀ l, order l ≡ₚ l) → 0 < port ≤ 65535 → Forall route_wf routes →
    ∃ text, render m order (routesForDeployment routes (job_route job cid port)) = inr text.
Proof.
  intros W Hrun Hw Hm. revert Hw. pose proof (newCaddyManager_domain _ _ _ Hm) as Hdom.
  use_wp Hrun. apply wp_poll_claims; [done|done|by intros ? ? ? [= <-] ?; congruence|].
  intros srv row rest now out' w' _ Hc Hj W' [= <-] _. cbv zeta.
  pose proof Hc as (Hq & ev & Hw' & _). destruct (queue_elem _ _ _ _ Hq) as (Hin & _ & _).
  assert (job_of (deploymentFromRow (dp_assign now row)) (w_db w) out') as Hj0.
  { destruct Hj as (env & svc & cred & Henv & Hsvc & Hrest). exists env, svc, cred. rewrite Hw' in Henv, Hsvc. done. }
  destruct (job_labels _ _ _ _ W Hin Hj0) as [Hla Hrh]. split.
  - set (label := if String.eqb _ "" then _ else _).
    assert (label_ok label) as Hlab.
    { unfold label. destruct (String.eqb_spec (j_RouteHost (job_message out')) ""); [done|]. by destruct Hrh. }
    unfold routeURL. rewrite (routeHost_label _ _ Hlab Hdom). destruct (m_httpPort m =? 80); eauto.
  - intros order cid port routes Ho Hp Hr.
    destruct (render_wf m order (routesForDeployment routes (job_route (job_message out') cid port)) Ho Hdom) as (text & Ht & _).
    + apply Forall_forall. intros r [->|[Hr' _]]%routesForDeployment_elem; [|by apply (proj1 (Forall_forall _ _) Hr)].
      split; [exact Hla|]. split; [exact Hrh|]. done.
    + eauto.
Qed.

(** A release without a published port retires nothing. A private container reports
    host port 0 (docker.go, [run]); the control plane takes such a report for a log-only
    one, so beside the new release every other row of the same routing key keeps the
    status it had: the release it replaced still counts as running. *)
Theorem private_release_keeps_previous i w w' row old :
  ReportDeployment i w = (inr tt, w') → ri_Status i = StatusRunning → ri_HostPort i = 0 →
  lookup_by dp_ID (ri_DeploymentID i) (deployments (w_db w)) = Some row →
  old ∈ deployments (w_db w) → dp_ID old ≠ dp_ID row →
  old ∈ deployments (w_db w') ∧
  ∃ row', row' ∈ deployments (w_db w') ∧ dp_ID row' = dp_ID row ∧ dp_Status row' = StatusRunning ∧
          dp_RouteKey row' = dp_RouteKey row.
Proof.
  intros Hrun Hst Hhp Hl Hold Hne. use_wp Hrun. apply wp_ReportDeployment; [done|].
  intros srv' row' w1 _ _ _ _ (now & now' & now'' & evs & _ & _ & ->) _.
  apply lookup_by_Some in Hl as [Hin Hid]. unfold switches. rewrite Hst, Hhp. simpl. split.
  - apply elem_of_update_where. exists old. split; [done|].
    rewrite <- Hid. by rewrite (proj2 (String.eqb_neq _ _) Hne).
  - exists (dp_report i now row). split; [|split; [done|split; [exact Hst|done]]].
    apply elem_of_update_where. exists row. by rewrite Hid, String.eqb_refl.
Qed.
End Properties.
