(* ===== verification/Config.v ===== *)
(** * Config: configuration entries

    [internal/config]: config.go, service.go and postgres.go, over the statements of
    [internal/platform/database/db/config.sql.go].  A variable is stored as text, a
    secret as the bytes the [Sealer] port returns; at deploy time the deployments module
    reads the same table. *)
From S2P Require Import Prelude.
From S2P Require Import GoStrings.
From S2P Require Import Problem.
From S2P Require Import Schema.
From S2P Require Import Platform.
From S2P Require Import Authz.
From S2P Require Import DeployStore.
From S2P Require Import Deployments.

(** ** Vocabulary (config.go) *)
Definition TypeVariable : string := "variable".
Definition TypeSecret : string := "secret".
Definition ScopeService : string := "service".
Definition ScopeEnvironment : string := "environment".
Definition maxKeyLen : Z := 128.
Definition maxValueLen : Z := 32768.

Record Entry := mk_Entry {
  ent_ID : string;
  ent_Type : string;
  ent_Scope : string;
  ent_ServiceID : string;
  ent_EnvironmentID : string;
  ent_WorkspaceID : string;
  ent_Key : string;
  ent_Value : string;
  ent_CreatedAt : Z;
  ent_UpdatedAt : Z;
}.

Record SetInput := mk_SetInput {
  si_Type : string;
  si_Scope : string;
  si_ServiceID : string;
  si_EnvironmentID : string;
  si_Key : string;
  si_Value : string;
}.

Record DeleteInput := mk_DeleteInput {
  di_Scope : string;
  di_ServiceID : string;
  di_EnvironmentID : string;
  di_Key : string;
}.

(** ** Validation *)

(** [^[A-Z_][A-Z0-9_]*$] *)
Definition key_head (c : ascii) : bool := is_upper c || Ascii.eqb c "_".
Definition key_tail (c : ascii) : bool := key_head c || is_digit c.
Definition keyRe_MatchString (s : string) : bool :=
  match bytes_of s with
  | [] => false
  | c :: cs => key_head c && forallb key_tail cs
  end.

Definition validateType (t : string) : go_error + string :=
  if in_list [TypeVariable; TypeSecret] t then inr t
  else inl (InvalidInput "type must be variable or secret" []).
Definition validateScope (sc : string) : go_error + string :=
  if in_list [ScopeService; ScopeEnvironment] sc then inr sc
  else inl (InvalidInput "scope must be service or environment" []).
Definition validateKey (raw : string) : go_error + string :=
  let key := TrimSpace raw in
  if String.eqb key "" then inl (InvalidInput "config key is required" [])
  else if maxKeyLen <? len key then inl (InvalidInput "key must be at most %d characters" [AInt maxKeyLen])
  else if negb (keyRe_MatchString key)
  then inl (InvalidInput "key must match %s (e.g. DATABASE_URL)" [AStr "^[A-Z_][A-Z0-9_]*$"])
  else inr key.

(** ** Statements *)

(** The CHECKs of 00019_config.sql; an empty ciphertext stands for NULL. *)
Definition is_some {X} (o : option X) : bool := match o with Some _ => true | None => false end.
Definition is_nil {X} (l : list X) : bool := match l with [] => true | _ => false end.
Definition value_by_type (r : db_ConfigEntry) : bool :=
  (String.eqb (ce_Type r) "variable" && is_some (ce_Value r) && is_nil (ce_Ciphertext r)) ||
  (String.eqb (ce_Type r) "secret" && negb (is_nil (ce_Ciphertext r)) && negb (is_some (ce_Value r))).
Definition config_checks (r : db_ConfigEntry) : bool :=
  in_list ["variable"; "secret"] (ce_Type r) &&
  in_list ["service"; "environment"] (ce_Scope r) &&
  keyRe_MatchString (ce_Key r) && (RuneCountInString (ce_Key r) <=? 128) &&
  match ce_Value r with None => true | Some v => RuneCountInString v <=? 32768 end &&
  (Z.of_nat (length (ce_Ciphertext r)) <=? 65536) && value_by_type r.

(** The foreign keys and the primary key of an inserted row. *)
Definition config_references (r : db_ConfigEntry) (d : DB) : bool :=
  negb (has_key ce_ID (ce_ID r) (config_entries d)) &&
  match ce_ServiceID r with None => true | Some i => has_key sv_ID i (services d) end &&
  match ce_EnvironmentID r with None => true | Some i => has_key en_ID i (environments d) end.

(** [SET type, value, ciphertext = EXCLUDED..., updated_at = now()] *)
Definition ce_replace (typ : string) (value : option string) (ciphertext : list Z) (now : Z)
    (r : db_ConfigEntry) : db_ConfigEntry :=
  {| ce_ID := ce_ID r; ce_Type := typ; ce_Scope := ce_Scope r; ce_ServiceID := ce_ServiceID r;
     ce_EnvironmentID := ce_EnvironmentID r; ce_Key := ce_Key r; ce_Value := value;
     ce_Ciphertext := ciphertext; ce_CreatedAt := ce_CreatedAt r; ce_UpdatedAt := now |}.

(** [INSERT ... ON CONFLICT (target, key) DO UPDATE]; [same] is the conflict. *)
Definition upsert_config (same : db_ConfigEntry → bool) (row : db_ConfigEntry) (now : Z) (d : DB)
    : go_error + (db_ConfigEntry * DB) :=
  if config_checks row then
    match List.find same (config_entries d) with
    | Some r =>
        let f := ce_replace (ce_Type row) (ce_Value row) (ce_Ciphertext row) now in
        inr (f r, set_config_entries (update_where same f (config_entries d)) d)
    | None =>
        if config_references row d then inr (row, set_config_entries (config_entries d ++ [row]) d)
        else inl (ErrConstraint "config_entries")
    end
  else inl (ErrConstraint "config_entries_check").

Definition service_key (serviceID key : string) (r : db_ConfigEntry) : bool :=
  opt_eqb (ce_ServiceID r) serviceID && String.eqb (ce_Key r) key.
Definition environment_key (environmentID key : string) (r : db_ConfigEntry) : bool :=
  opt_eqb (ce_EnvironmentID r) environmentID && String.eqb (ce_Key r) key.

Definition sql_UpsertServiceConfig (typ serviceID key : string) (value : option string)
    (ciphertext : list Z) (st : Stamp) (d : DB) : go_error + (db_ConfigEntry * DB) :=
  upsert_config (service_key serviceID key)
    (mk_ce (st_uuid st) typ "service" (Some serviceID) None key value ciphertext (st_now st) (st_now st)) (st_now st) d.
Definition sql_UpsertEnvironmentConfig (typ environmentID key : string) (value : option string)
    (ciphertext : list Z) (st : Stamp) (d : DB) : go_error + (db_ConfigEntry * DB) :=
  upsert_config (environment_key environmentID key)
    (mk_ce (st_uuid st) typ "environment" None (Some environmentID) key value ciphertext (st_now st) (st_now st)) (st_now st) d.

Definition delete_config (same : db_ConfigEntry → bool) (d : DB) : go_error + (string * DB) :=
  match List.find same (config_entries d) with
  | None => inl ErrNoRows
  | Some r => inr (ce_ID r, set_config_entries (where_ (λ x, negb (same x)) (config_entries d)) d)
  end.
Definition sql_DeleteServiceConfig (serviceID key : string) (st : Stamp) (d : DB) : go_error + (string * DB) :=
  delete_config (service_key serviceID key) d.
Definition sql_DeleteEnvironmentConfig (environmentID key : string) (st : Stamp) (d : DB) : go_error + (string * DB) :=
  delete_config (environment_key environmentID key) d.

Definition sql_GetServiceWorkspaceID (id : string) (d : DB) : option string :=
  sv_WorkspaceID <$> lookup_by sv_ID id (services d).
Definition sql_GetEnvironmentWorkspaceID (id : string) (d : DB) : option string :=
  match lookup_by en_ID id (environments d) with
  | None => None
  | Some e => pj_WorkspaceID <$> lookup_by pj_ID (en_ProjectID e) (projects d)
  end.

(** [entryFromRow] drops the ciphertext. *)
Definition entryFromRow (r : db_ConfigEntry) : Entry :=
  {| ent_ID := ce_ID r; ent_Type := ce_Type r; ent_Scope := ce_Scope r;
     ent_ServiceID := derefStr (ce_ServiceID r); ent_EnvironmentID := derefStr (ce_EnvironmentID r);
     ent_WorkspaceID := ""; ent_Key := ce_Key r; ent_Value := derefStr (ce_Value r);
     ent_CreatedAt := ce_CreatedAt r; ent_UpdatedAt := ce_UpdatedAt r |}.
Definition with_workspace (workspaceID : string) (e : Entry) : Entry :=
  {| ent_ID := ent_ID e; ent_Type := ent_Type e; ent_Scope := ent_Scope e;
     ent_ServiceID := ent_ServiceID e; ent_EnvironmentID := ent_EnvironmentID e;
     ent_WorkspaceID := workspaceID; ent_Key := ent_Key e; ent_Value := ent_Value e;
     ent_CreatedAt := ent_CreatedAt e; ent_UpdatedAt := ent_UpdatedAt e |}.

(** ** The invariant of the table *)

(** The CHECKs config_scope_target and config_value_by_type. *)
Definition scope_target (e : db_ConfigEntry) : Prop :=
  (ce_Scope e = configScopeEnvironment ∧ is_some (ce_EnvironmentID e) = true ∧ ce_ServiceID e = None) ∨
  (ce_Scope e = configScopeService ∧ is_some (ce_ServiceID e) = true ∧ ce_EnvironmentID e = None).
Definition config_row_ok (e : db_ConfigEntry) : Prop :=
  scope_target e ∧
  (ce_Type e = "variable" ∧ ce_Value e ≠ None ∨ ce_Type e = configTypeSecret ∧ ce_Value e = None).
(** What the unique indexes range over. *)
Definition config_target (e : db_ConfigEntry) : option string * option string * string :=
  (ce_ServiceID e, ce_EnvironmentID e, ce_Key e).

Record cwf (d : DB) : Prop := {
  cwf_rows : Forall config_row_ok (config_entries d);
  cwf_unique : NoDup (map config_target (config_entries d));
}.

(** ** The store *)
Section Store.
Context {E : Env}.

Definition UpsertServiceConfig (typ serviceID key : string) (value : option string) (ciphertext : list Z) : M Entry :=
  row ← db_exec (sql_UpsertServiceConfig typ serviceID key value ciphertext);
  mret (entryFromRow row).
Definition UpsertEnvironmentConfig (typ environmentID key : string) (value : option string) (ciphertext : list Z) : M Entry :=
  row ← db_exec (sql_UpsertEnvironmentConfig typ environmentID key value ciphertext);
  mret (entryFromRow row).
Definition store_ListForService (serviceID : string) : M (list Entry) :=
  db_query (λ d, map entryFromRow (sql_ListConfigForService serviceID d)).
Definition DeleteServiceConfig (serviceID key : string) : M (option string) :=
  ok_or_norows (db_exec (sql_DeleteServiceConfig serviceID key)).
Definition DeleteEnvironmentConfig (environmentID key : string) : M (option string) :=
  ok_or_norows (db_exec (sql_DeleteEnvironmentConfig environmentID key)).
Definition WorkspaceIDForService (serviceID : string) : M (option string) :=
  ok_or_norows (db_query_row (sql_GetServiceWorkspaceID serviceID)).
Definition WorkspaceIDForEnvironment (environmentID : string) : M (option string) :=
  ok_or_norows (db_query_row (sql_GetEnvironmentWorkspaceID environmentID)).
End Store.

Definition config_resource (workspaceID : string) : Resource := mk_Resource "config" workspaceID "".

(** ** The service *)
Section Service.
Context {E : Env} {A : Authorizer} {S : Sealer}.

(** The workspace and the id of the scope's target. *)
Definition resolveScope (scope serviceID environmentID : string) : M (string * string) :=
  if String.eqb scope ScopeService then
    _ ← require (id_Parse serviceID) (InvalidInput "a valid service_id is required for service scope" []);
    ws ← found "resolve service" (WorkspaceIDForService serviceID) (NotFound "service %s not found" [AStr serviceID]);
    mret (ws, serviceID)
  else if String.eqb scope ScopeEnvironment then
    _ ← require (id_Parse environmentID) (InvalidInput "a valid environment_id is required for environment scope" []);
    ws ← found "resolve environment" (WorkspaceIDForEnvironment environmentID)
           (NotFound "environment %s not found" [AStr environmentID]);
    mret (ws, environmentID)
  else fail (InvalidInput "scope must be service or environment" []).

(** What is stored: a variable's text, or a secret's sealed bytes. *)
Definition stored_value (typ value : string) : M (option string * list Z) :=
  if String.eqb typ TypeSecret then
    c ← wrap "seal secret" (port (λ n, seal n value)); mret (None, c)
  else mret (Some value, []).

Definition upsert (scope typ scopeID key : string) (value : option string) (ciphertext : list Z) : M Entry :=
  if String.eqb scope ScopeService then UpsertServiceConfig typ scopeID key value ciphertext
  else UpsertEnvironmentConfig typ scopeID key value ciphertext.

(** [Set] *)
Definition Set_ (caller : Principal) (i : SetInput) : M Entry :=
  typ ← of_sum (validateType (si_Type i));
  scope ← of_sum (validateScope (si_Scope i));
  key ← of_sum (validateKey (si_Key i));
  _ ← require (negb (maxValueLen <? len (si_Value i)))
        (InvalidInput "value must be at most %d bytes" [AInt maxValueLen]);
  r ← resolveScope scope (si_ServiceID i) (si_EnvironmentID i);
  let '(workspaceID, scopeID) := r in
  _ ← Authorize caller ActionConfigSet (config_resource workspaceID);
  v ← stored_value typ (si_Value i);
  saved ← on_err (λ e, mapErr e "set config")
    (within_tx
      (saved ← upsert scope typ scopeID key (fst v) (snd v);
       _ ← audit_Record "config.set" "config" (ent_ID saved) workspaceID (p_UserID caller);
       mret saved));
  mret (with_workspace workspaceID saved).

(** [sort.Strings] of the map's keys. *)
Definition sorted_keys (vars : gmap string string) : list string :=
  isort String.leb (map fst (map_to_list vars)).

Definition set_one (serviceID : string) (vars : gmap string string) (raw : string) : M unit :=
  key ← of_sum (validateKey raw);
  let value := default "" (vars !! raw) in
  _ ← require (negb (maxValueLen <? len value)) (InvalidInput "value must be at most %d bytes" [AInt maxValueLen]);
  _ ← UpsertServiceConfig TypeVariable serviceID key (Some value) [];
  mret tt.

Definition SetWithinTx (serviceID : string) (vars : gmap string string) : M unit :=
  _ ← require (id_Parse serviceID) (InvalidInput "a valid service_id is required" []);
  for_each (sorted_keys vars) (set_one serviceID vars).

Definition ListForService (caller : Principal) (serviceID : string) : M (list Entry) :=
  _ ← require (id_Parse serviceID) (InvalidInput "a valid service_id is required" []);
  ws ← found "list config" (WorkspaceIDForService serviceID) (NotFound "service %s not found" [AStr serviceID]);
  _ ← Authorize caller ActionConfigRead (config_resource ws);
  entries ← store_ListForService serviceID;
  mret (map (with_workspace ws) entries).

Definition Delete (caller : Principal) (i : DeleteInput) : M unit :=
  scope ← of_sum (validateScope (di_Scope i));
  key ← of_sum (validateKey (di_Key i));
  r ← resolveScope scope (di_ServiceID i) (di_EnvironmentID i);
  let '(workspaceID, scopeID) := r in
  _ ← Authorize caller ActionConfigDelete (config_resource workspaceID);
  on_err (λ e, mapErr e "delete config")
    (within_tx
      (deleted ← (if String.eqb scope ScopeService then DeleteServiceConfig scopeID key
                  else DeleteEnvironmentConfig scopeID key);
       match deleted with
       | None => fail (NotFound "config %q not found" [AStr key])
       | Some deletedID => audit_Record "config.delete" "config" deletedID workspaceID (p_UserID caller)
       end)).
End Service.
