(* ===== verification/ConfigProps.v ===== *)
(** * ConfigProps: what a configuration request does, and what a deployment then sees

    One rule per handler of [Config], the invariant of the table, and the theorems that
    tie a write to the environment the next deployment of the service starts with. *)
From S2P Require Import Prelude.
From S2P Require Import GoStrings.
From S2P Require Import Problem.
From S2P Require Import Schema.
From S2P Require Import Platform.
From S2P Require Import Authz.
From S2P Require Import DeployStore.
From S2P Require Import Deployments.
From S2P Require Import DeploySpec.
From S2P Require Import DeployHandlers.
From S2P Require Import DeployJobs.
From S2P Require Import Config.

(** ** The entry of a target *)
Notation target := (option string * option string * string)%type.
Definition entry_at (t : target) (d : DB) : option db_ConfigEntry :=
  List.find (λ r, bool_decide (config_target r = t)) (config_entries d).
Definition service_target (serviceID key : string) : target := (Some serviceID, None, key).
Definition environment_target (environmentID key : string) : target := (None, Some environmentID, key).

Lemma opt_eqb_true o s : opt_eqb o s = true ↔ o = Some s.
Proof. destruct o as [x|]; simpl; [|done]. rewrite String.eqb_eq. naive_solver. Qed.

Lemma service_key_target sid k r : config_row_ok r →
  service_key sid k r = bool_decide (config_target r = service_target sid k).
Proof.
  intros [[(_ & He & Hs)|(_ & He & Hs)] _]; unfold service_key, config_target, service_target; rewrite Hs.
  - symmetry. by apply bool_decide_eq_false.
  - apply eq_iff_eq_true. rewrite bool_decide_eq_true, andb_true_iff, opt_eqb_true, String.eqb_eq. split; [by intros [-> ->]|by intros [= -> ->]].
Qed.
Lemma environment_key_target eid k r : config_row_ok r →
  environment_key eid k r = bool_decide (config_target r = environment_target eid k).
Proof.
  intros [[(_ & He & Hs)|(_ & He & Hs)] _]; unfold environment_key, config_target, environment_target; rewrite Hs.
  - apply eq_iff_eq_true. rewrite bool_decide_eq_true, andb_true_iff, opt_eqb_true, String.eqb_eq. split; [by intros [-> ->]|by intros [= -> ->]].
  - symmetry. by apply bool_decide_eq_false.
Qed.

(** The entry that decides the value of a key for a service: its own, else its
    environment's. *)
Definition deciding_entry (sid k : string) (d : DB) : option db_ConfigEntry :=
  match entry_at (service_target sid k) d with
  | Some r => Some r
  | None => match lookup_by sv_ID sid (services d) with
            | Some s => entry_at (environment_target (sv_EnvironmentID s) k) d
            | None => None
            end
  end.

Section Effective.
Context {E : Env}.

(** The value of a row, if it can be read. *)
Definition plain_value (r : db_ConfigEntry) : option string := value_of (configFromRow r).

(** One scope of the rows that apply: at most one of them has the key. *)
Lemma scope_entry_at scope sid k t d :
  cwf d →
  (∀ r, r ∈ config_entries d → config_row_ok r →
     config_applies sid d r && (String.eqb (ce_Scope r) scope && String.eqb (ce_Key r) k)
     = bool_decide (config_target r = t)) →
  scope_entry scope true (map configFromRow (sql_ListConfigForService sid d)) k = configFromRow <$> entry_at t d.
Proof.
  intros [Hok Hnd] Ht. unfold scope_entry, sql_ListConfigForService. rewrite filter_map, last_map. f_equal.
  assert (∀ r, r ∈ config_entries d →
    config_applies sid d r && (String.eqb (ce_Scope r) scope && included true (configFromRow r) && String.eqb (ce_Key r) k)
    = bool_decide (config_target r = t)) as Ht'.
  { intros r Hr. unfold included. rewrite orb_true_r, andb_true_r. apply Ht; [done|].
    by apply (proj1 (Forall_forall _ _) Hok). }
  pose proof (filter_Permutation (λ r, String.eqb (ce_Scope r) scope && included true (configFromRow r) && String.eqb (ce_Key r) k)
    _ _ (isort_perm config_leb (where_ (config_applies sid d) (config_entries d)))) as Hp.
  unfold where_ in Hp at 2. rewrite filter_filter in Hp.
  set (q := λ x, config_applies sid d x && _) in Hp.
  assert (List.filter q (config_entries d) = match entry_at t d with Some r => [r] | None => [] end) as Hq.
  { unfold entry_at. rewrite <- (find_ext_in q _ _ Ht'). apply (filter_unique config_target t _ _ Hnd).
    intros r Hr Hb. apply (bool_decide_eq_true_1 (config_target r = t)). rewrite <- Ht' by done. exact Hb. }
  rewrite Hq in Hp. clear Hq. simpl in *.
  destruct (entry_at t d) as [r|].
  - by apply Permutation_singleton_r in Hp as ->.
  - by apply Permutation_nil_r in Hp as ->.
Qed.

Lemma effective_deciding sid k d : cwf d →
  effective true (map configFromRow (sql_ListConfigForService sid d)) k = deciding_entry sid k d ≫= plain_value.
Proof.
  intros W. unfold effective, deciding_entry.
  rewrite (scope_entry_at configScopeService sid k (service_target sid k) d W).
  2:{ intros r Hr Hok. rewrite <- service_key_target by done. destruct Hok as [[(Hs & He & Hn)|(Hs & He & Hn)] _];
      unfold config_applies, service_key; rewrite Hs, Hn; [by rewrite andb_false_r|].
      assert (match lookup_by sv_ID sid (services d) with Some s => opt_eqb None (sv_EnvironmentID s) | None => false end = false)
        as -> by by destruct (lookup_by _ _ _). by rewrite orb_false_r. }
  destruct (entry_at (service_target sid k) d) as [r|]; [done|]. simpl.
  destruct (lookup_by sv_ID sid (services d)) as [s|] eqn:Hl.
  - rewrite (scope_entry_at configScopeEnvironment sid k (environment_target (sv_EnvironmentID s) k) d W).
    2:{ intros r Hr Hok. rewrite <- environment_key_target by done. destruct Hok as [[(Hs & He & Hn)|(Hs & He & Hn)] _];
        unfold config_applies, environment_key; rewrite Hs, Hn, ?Hl; [done|]. by rewrite andb_false_r. }
    by destruct (entry_at _ d).
  - destruct (scope_entry configScopeEnvironment true _ k) as [e|] eqn:Hs; [|done]. exfalso.
    apply scope_entry_Some in Hs as Hin. destruct Hin as (Hin & _ & _).
    unfold scope_entry in Hs. apply last_Some in Hs as [l Hs].
    assert (e ∈ List.filter (λ e, String.eqb (cfd_Scope e) configScopeEnvironment && included true e && String.eqb (cfd_Key e) k)
      (map configFromRow (sql_ListConfigForService sid d))) as He by (rewrite Hs; set_solver).
    apply list_elem_of_In, filter_In in He as [_ Hb]. propify.
    apply list_elem_of_fmap in Hin as (r & -> & Hr). unfold sql_ListConfigForService in Hr. rewrite isort_perm in Hr.
    apply elem_of_where in Hr as [Hr Happ]. unfold config_applies in Happ. rewrite Hl, orb_false_r in Happ.
    apply opt_eqb_true in Happ. simpl in *.
    destruct (proj1 (Forall_forall _ _) (cwf_rows d W) r Hr) as [[(_ & _ & Hn)|(Hsc & _)] _]; [congruence|by rewrite H in Hsc].
Qed.
End Effective.

(** ** What the statements write *)

(** The table [es] may have changed; nothing else has. *)
Definition config_only (d d' : DB) : Prop := d' = set_config_entries (config_entries d') d.

(** [d'] is [d] with the entry of [t] replaced or added. *)
Record upserted (t : target) (typ : string) (value : option string) (ciphertext : list Z)
    (row : db_ConfigEntry) (d d' : DB) : Prop := {
  up_only : config_only d d';
  up_cwf : cwf d';
  up_entry : ∀ t', entry_at t' d' = if decide (t' = t) then Some row else entry_at t' d;
  up_target : config_target row = t;
  up_type : ce_Type row = typ;
  up_value : ce_Value row = value;
  up_ciphertext : ce_Ciphertext row = ciphertext;
  up_other : ∀ r, r ∈ config_entries d' → r = row ∨ r ∈ config_entries d;
}.

Record config_deleted (t : target) (row : db_ConfigEntry) (d d' : DB) : Prop := {
  del_only : config_only d d';
  del_cwf : cwf d';
  del_entry : ∀ t', entry_at t' d' = if decide (t' = t) then None else entry_at t' d;
  del_row : entry_at t d = Some row;
}.

Lemma entry_at_elem t d r : cwf d → entry_at t d = Some r ↔ r ∈ config_entries d ∧ config_target r = t.
Proof.
  intros W. unfold entry_at. split.
  - intros H. apply find_Some_elem in H as [? H]. by apply bool_decide_eq_true in H.
  - intros [Hin Ht]. destruct (List.find _ _) as [r'|] eqn:Hf.
    + apply find_Some_elem in Hf as [Hin' Ht']. apply bool_decide_eq_true in Ht'. f_equal.
      eapply NoDup_map_inj; [apply (cwf_unique d W)|done|done|congruence].
    + eapply find_None_elem in Hf; [|exact Hin]. by apply bool_decide_eq_false in Hf.
Qed.

Lemma config_checks_row r : config_checks r = true → scope_target r → config_row_ok r.
Proof.
  unfold config_checks, value_by_type, config_row_ok, configTypeSecret, is_some. intros H Hs.
  split; [done|]. apply andb_true_iff, proj2, orb_true_iff in H as [H|H]; propify; destruct (ce_Value r); naive_solver.
Qed.

Lemma ce_replace_ok row r now : config_row_ok r → config_row_ok row →
  config_row_ok (ce_replace (ce_Type row) (ce_Value row) (ce_Ciphertext row) now r).
Proof. intros [Hs _] [_ Ht]. by split. Qed.

Lemma upsert_config_spec t same row now d r d' :
  cwf d → (∀ r, config_row_ok r → same r = bool_decide (config_target r = t)) →
  config_target row = t → scope_target row →
  upsert_config same row now d = inr (r, d') →
  upserted t (ce_Type row) (ce_Value row) (ce_Ciphertext row) r d d'.
Proof.
  intros W Hsame Ht Hsc H. unfold upsert_config in H. case_match eqn:Hck; [|done].
  pose proof (config_checks_row _ Hck Hsc) as Hrow. pose proof (proj1 (Forall_forall _ _) (cwf_rows d W)) as Hok.
  assert (List.find same (config_entries d) = entry_at t d) as Hfind.
  { apply find_ext_in. intros x Hx. apply Hsame, Hok, Hx. }
  rewrite Hfind in H. destruct (entry_at t d) as [r0|] eqn:He.
  - apply (entry_at_elem t d r0 W) in He as He'. destruct He' as [Hin Ht0].
    assert (∀ x, x ∈ config_entries d → same x = true → x = r0) as Hone.
    { intros x Hx Hs. rewrite Hsame in Hs by by apply Hok. apply bool_decide_eq_true in Hs.
      eapply NoDup_map_inj; [apply (cwf_unique d W)|done|done|congruence]. }
    set (f := ce_replace _ _ _ _) in H. injection H as <- <-.
    assert (config_row_ok (f r0)) by by apply ce_replace_ok; [apply Hok|].
    assert (cwf (set_config_entries (update_where same f (config_entries d)) d)) as W'.
    { split; simpl.
      - apply Forall_update_where; [|apply W]. intros x Hx _. by apply ce_replace_ok.
      - rewrite map_update_where by done. apply W. }
    split; try done.
    + intros t'. unfold entry_at. simpl. rewrite find_update_where by done. fold (entry_at t' d).
      destruct (decide (t' = t)) as [->|Hne].
      * rewrite He. simpl. rewrite (Hsame r0) by by apply Hok. by rewrite bool_decide_true.
      * destruct (entry_at t' d) as [x|] eqn:Hx; [|done]. simpl. apply (entry_at_elem t' d x W) in Hx as [Hx <-].
        rewrite Hsame by by apply Hok. by rewrite bool_decide_false.
    + intros x Hx. simpl in Hx. apply elem_of_update_where in Hx as (y & Hy & ->).
      destruct (same y) eqn:Hs; [|by right]. left. by rewrite (Hone y Hy Hs).
  - case_match; [|done]. injection H as <- <-.
    assert (∀ x, x ∈ config_entries d → config_target x ≠ t) as Hnew.
    { intros x Hx Hxt. pose proof (proj2 (entry_at_elem t d x W) (conj Hx Hxt)). congruence. }
    assert (cwf (set_config_entries (config_entries d ++ [row]) d)) as W'.
    { split; simpl; [apply Forall_app; split; [apply W|by constructor]|].
      apply NoDup_map_snoc; [apply W|]. rewrite Ht. apply Hnew. }
    split; try done.
    + intros t'. unfold entry_at. simpl. rewrite find_app_list. fold (entry_at t' d). simpl. rewrite Ht.
      destruct (decide (t' = t)) as [->|Hne]; [by rewrite He, bool_decide_true|].
      rewrite (bool_decide_false (t = t')) by done. by destruct (entry_at t' d).
    + simpl. intros x. rewrite elem_of_app, list_elem_of_singleton. tauto.
Qed.

Lemma delete_config_spec t same d i d' :
  cwf d → (∀ r, config_row_ok r → same r = bool_decide (config_target r = t)) →
  delete_config same d = inr (i, d') → ∃ row, i = ce_ID row ∧ config_deleted t row d d'.
Proof.
  intros W Hsame H. unfold delete_config in H. pose proof (proj1 (Forall_forall _ _) (cwf_rows d W)) as Hok.
  assert (List.find same (config_entries d) = entry_at t d) as Hfind.
  { apply find_ext_in. intros x Hx. apply Hsame, Hok, Hx. }
  rewrite Hfind in H. destruct (entry_at t d) as [r|] eqn:He; [|done]. injection H as <- <-.
  assert (cwf (set_config_entries (where_ (λ x, negb (same x)) (config_entries d)) d)) as W'.
  { split; simpl.
    - apply Forall_forall. intros x Hx. apply elem_of_where in Hx as [Hx _]. by apply Hok.
    - apply NoDup_map_where, W. }
  exists r. split; [done|]. split; try done.
  intros t'. destruct (entry_at t' (set_config_entries _ d)) as [x|] eqn:Hx.
  - apply (entry_at_elem t' _ x W') in Hx as [Hx Ht]. simpl in Hx. apply elem_of_where in Hx as [Hx Hs].
    rewrite Hsame in Hs by by apply Hok. apply negb_true_iff, bool_decide_eq_false in Hs.
    rewrite decide_False by congruence. symmetry. by apply entry_at_elem.
  - destruct (decide (t' = t)); [done|]. destruct (entry_at t' d) as [y|] eqn:Hy; [|done].
    apply (entry_at_elem t' d y W) in Hy as [Hy Hyt].
    assert (entry_at t' (set_config_entries (where_ (λ x, negb (same x)) (config_entries d)) d) = Some y); [|congruence].
    apply entry_at_elem; [done|]. split; [|done]. apply elem_of_where. split; [done|].
    rewrite Hsame by by apply Hok. apply negb_true_iff, bool_decide_eq_false. congruence.
Qed.

Lemma upserted_service typ sid key value ct st d row d' : cwf d →
  sql_UpsertServiceConfig typ sid key value ct st d = inr (row, d') →
  upserted (service_target sid key) typ value ct row d d'.
Proof.
  intros W H. refine (upsert_config_spec (service_target sid key) _ _ _ _ _ _ W _ _ _ H); [|done|by right].
  intros r Hr. by apply service_key_target.
Qed.
Lemma upserted_environment typ eid key value ct st d row d' : cwf d →
  sql_UpsertEnvironmentConfig typ eid key value ct st d = inr (row, d') →
  upserted (environment_target eid key) typ value ct row d d'.
Proof.
  intros W H. refine (upsert_config_spec (environment_target eid key) _ _ _ _ _ _ W _ _ _ H); [|done|by left].
  intros r Hr. by apply environment_key_target.
Qed.

(** ** The handlers *)

(** What a request names: its target, and the workspace that owns it. *)
Definition scope_target_of (scope sid eid key : string) : target :=
  if String.eqb scope ScopeService then service_target sid key else environment_target eid key.
Definition scope_workspace (scope sid eid : string) (d : DB) : option string :=
  if String.eqb scope ScopeService then sql_GetServiceWorkspaceID sid d else sql_GetEnvironmentWorkspaceID eid d.

Section Rules.
Context {E : Env} {A : Authorizer} {S : Sealer}.

(** What is stored for a value of a type. *)
Definition stores (typ value : string) (v : option string * list Z) : Prop :=
  if String.eqb typ TypeSecret then fst v = None ∧ ∃ n, seal n value = inr (snd v)
  else v = (Some value, []).

Record config_set (c : Principal) (i : SetInput) (key ws : string) (row : db_ConfigEntry) (d d' : DB) : Prop := {
  cs_type : in_list [TypeVariable; TypeSecret] (si_Type i) = true;
  cs_scope : in_list [ScopeService; ScopeEnvironment] (si_Scope i) = true;
  cs_key : validateKey (si_Key i) = inr key;
  cs_value : len (si_Value i) ≤ maxValueLen;
  cs_workspace : scope_workspace (si_Scope i) (si_ServiceID i) (si_EnvironmentID i) d = Some ws;
  cs_allowed : allows c ActionConfigSet (config_resource ws) d;
  cs_written : ∃ v d1, stores (si_Type i) (si_Value i) v ∧
    upserted (scope_target_of (si_Scope i) (si_ServiceID i) (si_EnvironmentID i) key) (si_Type i) (fst v) (snd v) row d d1 ∧
    audited "config.set" "config" (ce_ID row) ws (p_UserID c) d1 d';
}.

Record config_removed (c : Principal) (i : DeleteInput) (key ws : string) (row : db_ConfigEntry) (d d' : DB) : Prop := {
  cd_scope : in_list [ScopeService; ScopeEnvironment] (di_Scope i) = true;
  cd_key : validateKey (di_Key i) = inr key;
  cd_workspace : scope_workspace (di_Scope i) (di_ServiceID i) (di_EnvironmentID i) d = Some ws;
  cd_allowed : allows c ActionConfigDelete (config_resource ws) d;
  cd_written : ∃ d1,
    config_deleted (scope_target_of (di_Scope i) (di_ServiceID i) (di_EnvironmentID i) key) row d d1 ∧
    audited "config.delete" "config" (ce_ID row) ws (p_UserID c) d1 d';
}.

Lemma wp_WorkspaceIDForService op sid e (Q : go_error + string → World → Prop) w :
  (∀ e w', w_db w' = w_db w → Q (inl e) w') →
  (∀ ws w', w_db w' = w_db w → sql_GetServiceWorkspaceID sid (w_db w) = Some ws → Q (inr ws) w') →
  wp (found op (WorkspaceIDForService sid) e) Q w.
Proof.
  intros He Ha. unfold WorkspaceIDForService. do 2 wp_step; [by apply He|].
  destruct (sql_GetServiceWorkspaceID sid (w_db w)) eqn:Hs; [by apply Ha|by apply He].
Qed.
Lemma wp_WorkspaceIDForEnvironment op eid e (Q : go_error + string → World → Prop) w :
  (∀ e w', w_db w' = w_db w → Q (inl e) w') →
  (∀ ws w', w_db w' = w_db w → sql_GetEnvironmentWorkspaceID eid (w_db w) = Some ws → Q (inr ws) w') →
  wp (found op (WorkspaceIDForEnvironment eid) e) Q w.
Proof.
  intros He Ha. unfold WorkspaceIDForEnvironment. do 2 wp_step; [by apply He|].
  destruct (sql_GetEnvironmentWorkspaceID eid (w_db w)) eqn:Hs; [by apply Ha|by apply He].
Qed.

Lemma wp_resolveScope scope sid eid (Q : go_error + string * string → World → Prop) w :
  (∀ e w', w_db w' = w_db w → Q (inl e) w') →
  (∀ ws w', w_db w' = w_db w → scope_workspace scope sid eid (w_db w) = Some ws →
     Q (inr (ws, if String.eqb scope ScopeService then sid else eid)) w') →
  wp (resolveScope scope sid eid) Q w.
Proof.
  intros He Ha. unfold resolveScope, scope_workspace in *.
  destruct (String.eqb scope ScopeService) eqn:Hsc; [|destruct (String.eqb scope ScopeEnvironment); [|by apply He]];
    (wp_step; wp_step; [|by apply He]; wp_step).
  - apply wp_WorkspaceIDForService; [by apply He|]. intros ws w' Hw Hs. wp_step. by apply Ha.
  - apply wp_WorkspaceIDForEnvironment; [by apply He|]. intros ws w' Hw Hs. wp_step. by apply Ha.
Qed.

Lemma wp_stored_value typ value (Q : go_error + option string * list Z → World → Prop) w :
  (∀ e w', w_db w' = w_db w → Q (inl e) w') →
  (∀ v w', w_db w' = w_db w → stores typ value v → Q (inr v) w') →
  wp (stored_value typ value) Q w.
Proof.
  intros He Ha. unfold stored_value, stores in *. destruct (String.eqb typ TypeSecret); [|by apply Ha].
  do 3 wp_step. destruct (seal _ value) as [e|c] eqn:Hs; [by apply He|]. apply Ha; [done|]. split; [done|by eexists].
Qed.

Lemma wp_upsert scope typ sid eid key v (Q : go_error + Entry → World → Prop) w :
  cwf (w_db w) →
  (∀ e w', w_db w' = w_db w → Q (inl e) w') →
  (∀ row w', upserted (scope_target_of scope sid eid key) typ (fst v) (snd v) row (w_db w) (w_db w') →
     Q (inr (entryFromRow row)) w') →
  wp (upsert scope typ (if String.eqb scope ScopeService then sid else eid) key (fst v) (snd v)) Q w.
Proof.
  intros W He Ha. unfold upsert, scope_target_of in *. destruct (String.eqb scope ScopeService).
  - unfold UpsertServiceConfig. wp_step. wp_step; [by apply He|]. wp_step. by eapply Ha, upserted_service.
  - unfold UpsertEnvironmentConfig. wp_step. wp_step; [by apply He|]. wp_step. by eapply Ha, upserted_environment.
Qed.

Lemma wp_Set c i (Q : go_error + Entry → World → Prop) w :
  cwf (w_db w) →
  (∀ e w', w_db w' = w_db w → Q (inl e) w') →
  (∀ key ws row w', config_set c i key ws row (w_db w) (w_db w') →
     Q (inr (with_workspace ws (entryFromRow row))) w') →
  wp (Set_ c i) Q w.
Proof.
  intros W He Ha. unfold Set_. wp_step. wp_step. unfold validateType. destruct (in_list _ (si_Type i)) eqn:Ht; [|by apply He].
  wp_step. wp_step. unfold validateScope. destruct (in_list _ (si_Scope i)) eqn:Hsc; [|by apply He].
  wp_step. wp_step. destruct (validateKey (si_Key i)) as [e|key] eqn:Hk; [by apply He|].
  wp_step. wp_step; [|by apply He]. propify.
  wp_step. apply wp_resolveScope; [by apply He|]. intros ws w1 Hw1 Hws.
  wp_step. apply wp_Authorize; [intros; apply He; congruence|]. intros w2 Hw2 Hal.
  wp_step. apply wp_stored_value; [intros; apply He; congruence|]. intros v w3 Hw3 Hst.
  wp_step. wp_step. wp_step; [apply He; congruence|]. world_eq. wp_step.
  apply wp_upsert; [by world_eq| done|]. intros row w5 Hup.
  wp_step. apply wp_audit_Record; [done|]. intros w6 Haud. wp_step. intros w7 Hw7. wp_step.
  world_eq. apply (Ha key). split; try done. exists v, (w_db w5). split; [exact Hst|]. split; [exact Hup|by dbs].
Qed.

Lemma wp_Delete c i (Q : go_error + unit → World → Prop) w :
  cwf (w_db w) →
  (∀ e w', w_db w' = w_db w → Q (inl e) w') →
  (∀ key ws row w', config_removed c i key ws row (w_db w) (w_db w') → Q (inr tt) w') →
  wp (Delete c i) Q w.
Proof.
  intros W He Ha. unfold Delete.
  wp_step. wp_step. unfold validateScope. destruct (in_list _ (di_Scope i)) eqn:Hsc; [|by apply He].
  wp_step. wp_step. destruct (validateKey (di_Key i)) as [e|key] eqn:Hk; [by apply He|].
  wp_step. apply wp_resolveScope; [by apply He|]. intros ws w1 Hw1 Hws.
  wp_step. apply wp_Authorize; [intros; apply He; congruence|]. intros w2 Hw2 Hal.
  wp_step. wp_step; [apply He; congruence|]. world_eq. wp_step.
  assert (wp (if String.eqb (di_Scope i) ScopeService
    then DeleteServiceConfig (if String.eqb (di_Scope i) ScopeService then di_ServiceID i else di_EnvironmentID i) key
    else DeleteEnvironmentConfig (if String.eqb (di_Scope i) ScopeService then di_ServiceID i else di_EnvironmentID i) key)
    (λ r w', match r with inr (Some id) => ∃ row, id = ce_ID row ∧
        config_deleted (scope_target_of (di_Scope i) (di_ServiceID i) (di_EnvironmentID i) key) row (w_db w0) (w_db w')
      | _ => True end) w0) as Hdel.
  { unfold scope_target_of. destruct (String.eqb (di_Scope i) ScopeService);
      unfold DeleteServiceConfig, DeleteEnvironmentConfig; (apply wp_exec_opt; [done|done|]; intros st a w4 Hdel);
      (eapply delete_config_spec; [by world_eq| |exact Hdel]); intros r Hr;
      [by apply service_key_target|by apply environment_key_target]. }
  eapply wp_mono; [|exact Hdel]. intros [e|[id|]] w4; [done| |done]. intros (row & -> & Hrow).
  apply wp_audit_Record; [done|]. intros w5 Haud w6 Hw6. world_eq.
  apply (Ha key ws row). split; try done. exists (w_db w4). split; [exact Hrow|by dbs].
Qed.

Lemma wp_ListForService c sid (Q : go_error + list Entry → World → Prop) w :
  (∀ e w', w_db w' = w_db w → Q (inl e) w') →
  (∀ ws w', w_db w' = w_db w → sql_GetServiceWorkspaceID sid (w_db w) = Some ws →
     allows c ActionConfigRead (config_resource ws) (w_db w) →
     Q (inr (map (λ r, with_workspace ws (entryFromRow r)) (sql_ListConfigForService sid (w_db w)))) w') →
  wp (ListForService c sid) Q w.
Proof.
  intros He Ha. unfold ListForService. wp_step. wp_step; [|by apply He].
  wp_step. apply wp_WorkspaceIDForService; [by apply He|]. intros ws w1 Hw1 Hws.
  wp_step. apply wp_Authorize; [intros; apply He; congruence|]. intros w2 Hw2 Hal.
  wp_step. unfold store_ListForService. wp_step; [apply He; congruence|]. wp_step. rewrite map_map. world_eq. by apply Ha.
Qed.
End Rules.

(** ** Writing several variables at once *)

Lemma validateKey_inr raw key : validateKey raw = inr key →
  key = TrimSpace raw ∧ len key ≤ maxKeyLen ∧ keyRe_MatchString key = true.
Proof. unfold validateKey. repeat case_match; intros [= <-]; by propify. Qed.

(** After [SetWithinTx] the service has exactly these variables on top of what it had. *)
Record vars_set (sid : string) (vars : gmap string string) (todo : list string) (d d' : DB) : Prop := {
  vs_only : config_only d d';
  vs_cwf : cwf d';
  vs_written : ∀ k v, vars !! k = Some v → k ∉ todo → ∃ row,
    entry_at (service_target sid k) d' = Some row ∧ ce_Type row = TypeVariable ∧ ce_Value row = Some v;
  vs_kept : ∀ t, (∀ k, is_Some (vars !! k) → k ∉ todo → t ≠ service_target sid k) → entry_at t d' = entry_at t d;
}.

Lemma config_only_trans d d1 d2 : config_only d d1 → config_only d1 d2 → config_only d d2.
Proof. intros H1 H2. unfold config_only in *. rewrite H1 in H2. exact H2. Qed.

Lemma vars_set_step sid vars k v todo row d d1 d2 :
  vars_set sid vars (k :: todo) d d1 → k ∉ todo → vars !! k = Some v →
  upserted (service_target sid k) TypeVariable (Some v) [] row d1 d2 → vars_set sid vars todo d d2.
Proof.
  intros V Hk Hv U. split.
  - eapply config_only_trans; [apply V|apply U].
  - apply U.
  - intros k' v' Hv' Hk'. rewrite (up_entry _ _ _ _ _ _ _ U). destruct (decide (k' = k)) as [->|Hne].
    + rewrite decide_True by done. exists row. simplify_eq. split; [done|]. split; apply U.
    + rewrite decide_False by (intros [= ?]; done). apply (vs_written _ _ _ _ _ V); [done|]. set_solver.
  - intros t Ht. rewrite (up_entry _ _ _ _ _ _ _ U). rewrite decide_False by by apply Ht.
    apply (vs_kept _ _ _ _ _ V). intros k' Hk' Hn. apply Ht; [done|]. set_solver.
Qed.

Lemma sorted_keys_elem vars k : k ∈ sorted_keys vars ↔ is_Some (vars !! k).
Proof.
  unfold sorted_keys. rewrite isort_perm, list_elem_of_fmap. split.
  - intros ([k' v] & -> & H). apply elem_of_map_to_list in H. by exists v.
  - intros [v H]. exists (k, v). split; [done|]. by apply elem_of_map_to_list.
Qed.
Lemma sorted_keys_NoDup vars : NoDup (sorted_keys vars).
Proof. unfold sorted_keys. rewrite isort_perm. apply NoDup_fst_map_to_list. Qed.

Section Vars.
Context {E : Env}.
Lemma wp_SetWithinTx sid vars (Q : go_error + unit → World → Prop) w :
  cwf (w_db w) → (∀ k, is_Some (vars !! k) → TrimSpace k = k) →
  (∀ e w', Q (inl e) w') →
  (∀ w', vars_set sid vars [] (w_db w) (w_db w') → Q (inr tt) w') →
  wp (SetWithinTx sid vars) Q w.
Proof.
  intros W Htrim He Ha. unfold SetWithinTx. wp_step. wp_step; [|by apply He].
  apply (wp_for_each _ _ (λ l w', NoDup l ∧ (∀ k, k ∈ l → is_Some (vars !! k)) ∧ vars_set sid vars l (w_db w) (w_db w'))).
  - split; [apply sorted_keys_NoDup|]. split; [intros k; apply sorted_keys_elem|]. split; [by destruct (w_db w)|done| |done].
    intros k v Hk Hn. destruct Hn. apply sorted_keys_elem. by exists v.
  - intros k l w1 ([Hk Hnd]%NoDup_cons & Hl & V). unfold set_one. wp_step. wp_step.
    destruct (validateKey k) as [e|key] eqn:Hv; [by apply He|]. apply validateKey_inr in Hv as (-> & _).
    destruct (Hl k ltac:(left)) as [v Hkv]. rewrite Hkv. simpl. wp_step. wp_step; [|by apply He].
    unfold UpsertServiceConfig. wp_step. wp_step. wp_step; [by apply He|]. wp_step. wp_step.
    rewrite Htrim in * by by exists v. split; [done|]. split; [by intros; apply Hl; right|].
    eapply vars_set_step; [done|done|done|]. eapply upserted_service; [apply V|done].
  - intros w1 (_ & _ & V). by apply Ha.
Qed.
End Vars.

(** ** What a deployment sees *)
Section Deployed.
Context {E : Env}.

(** The container environment of a production deployment of the service. *)
Definition service_env (sid : string) (d : DB) : go_error + gmap string string :=
  config_env true (map configFromRow (sql_ListConfigForService sid d)).

(** The target [t] decides the key for the service: it is the service's own entry, or
    its environment's while the service has none. *)
Definition sees (t : target) (sid k : string) (d : DB) : bool :=
  bool_decide (t = service_target sid k) ||
  match entry_at (service_target sid k) d, lookup_by sv_ID sid (services d) with
  | None, Some s => bool_decide (t = environment_target (sv_EnvironmentID s) k)
  | _, _ => false
  end.

Lemma elem_of_list_config r sid d :
  r ∈ sql_ListConfigForService sid d ↔ r ∈ config_entries d ∧ config_applies sid d r = true.
Proof. unfold sql_ListConfigForService. by rewrite isort_perm, elem_of_where. Qed.

Lemma service_env_readable sid d : cwf d →
  (∃ env, service_env sid d = inr env) ↔
  ∀ r, r ∈ config_entries d → config_applies sid d r = true → plain_value r ≠ None.
Proof.
  intros W. pose proof (config_env_spec true (map configFromRow (sql_ListConfigForService sid d))) as Hspec.
  fold (service_env sid d) in Hspec. destruct (service_env sid d) as [e|env].
  - split; [by intros [? [=]]|]. destruct Hspec as (x & Hx & _ & Hv). apply list_elem_of_fmap in Hx as (r & -> & Hr).
    apply elem_of_list_config in Hr as [Hr Ha]. intros H. by destruct (H r Hr Ha).
  - split; [|by exists env]. intros _ r Hr Ha. destruct Hspec as [_ Hspec]. apply (Hspec (configFromRow r)).
    + by apply list_elem_of_fmap_2, elem_of_list_config.
    + destruct (proj1 (Forall_forall _ _) (cwf_rows d W) r Hr) as [[[Hs _]|[Hs _]] _]; auto.
    + unfold included. apply orb_true_r.
Qed.

Lemma service_env_lookup sid d env k : cwf d → service_env sid d = inr env →
  env !! k = deciding_entry sid k d ≫= plain_value.
Proof.
  intros W H. pose proof (config_env_spec true (map configFromRow (sql_ListConfigForService sid d))) as Hspec.
  unfold service_env in H. rewrite H in Hspec. rewrite (proj1 Hspec). by apply effective_deciding.
Qed.

Lemma deciding_upserted t typ v ct row d d' sid k : upserted t typ v ct row d d' →
  deciding_entry sid k d' = if sees t sid k d then Some row else deciding_entry sid k d.
Proof.
  intros U. unfold deciding_entry, sees. rewrite (up_only _ _ _ _ _ _ _ U). simpl.
  rewrite <- (up_only _ _ _ _ _ _ _ U), !(up_entry _ _ _ _ _ _ _ U).
  case_bool_decide as Ht; simpl; [by rewrite decide_True|]. rewrite decide_False by done.
  destruct (entry_at (service_target sid k) d); [done|]. destruct (lookup_by sv_ID sid (services d)) as [s|]; [|done].
  rewrite (up_entry _ _ _ _ _ _ _ U). case_bool_decide; [by rewrite decide_True|by rewrite decide_False].
Qed.

(** An audit row is no configuration. *)
Lemma audited_config act ty ti ws ac d d' : audited act ty ti ws ac d d' →
  config_entries d' = config_entries d ∧ services d' = services d.
Proof. by intros (row & -> & _). Qed.
Lemma service_env_audited act ty ti ws ac d d' sid : audited act ty ti ws ac d d' → service_env sid d' = service_env sid d.
Proof. by intros (row & -> & _). Qed.
Lemma cwf_audited act ty ti ws ac d d' : audited act ty ti ws ac d d' → cwf d → cwf d'.
Proof. by intros (row & -> & _) [? ?]. Qed.

Lemma service_env_upserted t typ v ct row d d' sid env x :
  cwf d → upserted t typ v ct row d d' → plain_value row = Some x → service_env sid d = inr env →
  ∃ env', service_env sid d' = inr env' ∧ ∀ k, env' !! k = if sees t sid k d then Some x else env !! k.
Proof.
  intros W U Hx Henv. pose proof (up_cwf _ _ _ _ _ _ _ U) as W'.
  assert (∃ env', service_env sid d' = inr env') as [env' Henv'].
  { apply (service_env_readable sid d' W'). intros r Hr Ha.
    destruct (up_other _ _ _ _ _ _ _ U r Hr) as [->|Hin]; [congruence|].
    apply (proj1 (service_env_readable sid d W) (ex_intro _ _ Henv)); [done|].
    rewrite (up_only _ _ _ _ _ _ _ U) in Ha. exact Ha. }
  exists env'. split; [done|]. intros k. rewrite (service_env_lookup _ _ _ _ W' Henv').
  rewrite (deciding_upserted _ _ _ _ _ _ _ _ _ U). destruct (sees t sid k d); [done|].
  symmetry. by apply service_env_lookup.
Qed.
End Deployed.

Section Theorems.
Context {E : Env} {A : Authorizer} {S : Sealer}.

Lemma stored_readable (i : SetInput) (v : option string * list Z) t row d d' :
  (∀ n p c, seal n p = inr c → open_sealed c = Some p) →
  in_list [TypeVariable; TypeSecret] (si_Type i) = true →
  stores (si_Type i) (si_Value i) v → upserted t (si_Type i) (fst v) (snd v) row d d' →
  plain_value row = Some (si_Value i).
Proof.
  intros Hseal Ht Hst U. unfold plain_value, value_of, configValue, configFromRow, stores in *. simpl.
  rewrite (up_type _ _ _ _ _ _ _ U), (up_value _ _ _ _ _ _ _ U), (up_ciphertext _ _ _ _ _ _ _ U).
  change configTypeSecret with TypeSecret. destruct (String.eqb (si_Type i) TypeSecret).
  - destruct Hst as [_ [n Hn]]. by rewrite (Hseal _ _ _ Hn).
  - by subst v.
Qed.

(** C30: What setting an entry does to the next deployment. After a successful [Set],
    the container environment of every service that could be deployed before still can
    be built, and it differs from the old one in exactly one way: where the written
    entry decides the key, the key has the value that was set, secret or not. A
    service entry decides for its service, an environment entry for the services of the
    environment without an entry of their own. *)
Theorem config_set_deployed c i e w w' :
  cwf (w_db w) → (∀ n p ct, seal n p = inr ct → open_sealed ct = Some p) →
  Set_ c i w = (inr e, w') →
  ∃ key, validateKey (si_Key i) = inr key ∧
  ∀ sid env, service_env sid (w_db w) = inr env →
    ∃ env', service_env sid (w_db w') = inr env' ∧
    ∀ k, env' !! k =
      if sees (scope_target_of (si_Scope i) (si_ServiceID i) (si_EnvironmentID i) key) sid k (w_db w)
      then Some (si_Value i) else env !! k.
Proof.
  intros W Hseal H. use_wp H. apply wp_Set; [done|intros ? ? _ [=]|].
  intros key ws row w1 C _. exists key. split; [apply C|]. intros sid env Henv.
  destruct (cs_written _ _ _ _ _ _ _ C) as (v & d1 & Hst & U & Haud).
  rewrite (service_env_audited _ _ _ _ _ _ _ _ Haud).
  eapply service_env_upserted; [done|exact U| |done]. eapply stored_readable; [done|apply C|done|exact U].
Qed.

(** ** Requests *)
Inductive ConfigRequest :=
| RqSet (i : SetInput) | RqDelete (i : DeleteInput) | RqList (serviceID : string).
Definition run_config (c : Principal) (q : ConfigRequest) : M unit :=
  match q with
  | RqSet i => _ ← Set_ c i; mret tt
  | RqDelete i => Delete c i
  | RqList sid => _ ← ListForService c sid; mret tt
  end.

(** The one effect a successful request may have. *)
Definition config_effect (c : Principal) (q : ConfigRequest) (d d' : DB) : Prop :=
  match q with
  | RqSet i => ∃ key ws row, config_set c i key ws row d d'
  | RqDelete i => ∃ key ws row, config_removed c i key ws row d d'
  | RqList sid => d' = d ∧ ∃ ws, sql_GetServiceWorkspaceID sid d = Some ws ∧ allows c ActionConfigRead (config_resource ws) d
  end.

(** C31: The configuration table through any request. The invariant (every row belongs
    to exactly one scope, holds either a value or a ciphertext as its type says, and no
    target has two rows for a key) is preserved; a failed request changes nothing; a
    successful one was allowed in the workspace that owns its target, changed exactly
    the entry it names, and is audited with it. *)
Theorem config_requests_safe c q r w w' :
  cwf (w_db w) → run_config c q w = (r, w') →
  cwf (w_db w') ∧
  match r with
  | inl _ => w_db w' = w_db w
  | inr _ => config_effect c q (w_db w) (w_db w')
  end.
Proof.
  intros W H. use_wp H. destruct q as [i|i|sid]; simpl.
  - apply wp_bind, wp_Set; [done|by intros e w1 Hw <-; rewrite Hw|]. intros key ws row w1 C. apply wp_ret. intros <-.
    split; [|by exists key, ws, row]. destruct (cs_written _ _ _ _ _ _ _ C) as (v & d1 & _ & U & Haud).
    eapply cwf_audited; [exact Haud|apply U].
  - apply wp_Delete; [done|by intros e w1 Hw <-; rewrite Hw|]. intros key ws row w1 C <-.
    split; [|by exists key, ws, row]. destruct (cd_written _ _ _ _ _ _ _ C) as (d1 & U & Haud).
    eapply cwf_audited; [exact Haud|apply U].
  - apply wp_bind, wp_ListForService; [by intros e w1 Hw <-; rewrite Hw|]. intros ws w1 Hw Hws Hal. apply wp_ret. intros <-.
    rewrite Hw. split; [done|]. split; [done|]. by exists ws.
Qed.

(** ** Validated input is storable *)
Lemma validateType_cases typ : in_list [TypeVariable; TypeSecret] typ = true → typ = TypeVariable ∨ typ = TypeSecret.
Proof. unfold in_list. simpl. rewrite orb_false_r. intros H. apply orb_true_iff in H as [H|H]; propify; auto. Qed.

(** Validation is at least as strict as the table. A key that passes is trimmed,
    1 to 128 bytes long, made of the bytes of the grammar, and passes again unchanged;
    with a type that passes, a value within the byte limit and a sealed form that is
    neither empty nor longer than 65536 bytes, the row meets every CHECK of the
    migration, so on an existing service the statement succeeds. *)
Theorem validated_config_accepted raw key typ value v sid st d :
  validateKey raw = inr key → in_list [TypeVariable; TypeSecret] typ = true →
  len value ≤ maxValueLen → stores typ value v →
  (typ = TypeSecret → snd v ≠ [] ∧ Z.of_nat (length (snd v)) ≤ 65536) →
  has_key sv_ID sid (services d) = true → has_key ce_ID (st_uuid st) (config_entries d) = false →
  (1 ≤ len key ≤ 128 ∧ validateKey key = inr key ∧
   Forall (λ c, key_tail c = true) (bytes_of key)) ∧
  ∃ row d', sql_UpsertServiceConfig typ sid key (fst v) (snd v) st d = inr (row, d').
Proof.
  intros Hk Ht Hv Hst Hct Hsid Hid. pose proof (validateKey_inr _ _ Hk) as (Hkey & Hlen & Hre).
  unfold maxKeyLen, maxValueLen in *.
  assert (RuneCountInString key ≤ 128 ∧ RuneCountInString value ≤ 32768) as [Hrk Hrv]
    by (pose proof (RuneCountInString_len key); pose proof (RuneCountInString_len value); lia).
  assert (Forall (λ c, key_tail c = true) (bytes_of key) ∧ 1 ≤ len key) as [Hall Hpos].
  { unfold keyRe_MatchString in Hre. rewrite len_length. destruct (bytes_of key) as [|c cs]; [done|]. propify. split; [|simpl; lia].
    constructor; [by unfold key_tail; rewrite H|]. apply Forall_forall. intros x Hx. apply (proj1 (forallb_forall _ _) H0). by apply list_elem_of_In. }
  split; [split; [lia|split; [|done]]|].
  - unfold validateKey, maxKeyLen. rewrite Hkey, TrimSpace_idem, <- Hkey, Hre.
    destruct (String.eqb_spec key "") as [->|_]; [by rewrite len_length in Hpos|].
    by rewrite (proj2 (Z.ltb_ge _ _) Hlen).
  - unfold sql_UpsertServiceConfig, upsert_config.
    assert (config_checks (mk_ce (st_uuid st) typ "service" (Some sid) None key (fst v) (snd v) (st_now st) (st_now st)) = true) as ->.
    { unfold config_checks, value_by_type. simpl. rewrite Hre, (proj2 (Z.leb_le _ _) Hrk).
      unfold stores in Hst. apply validateType_cases in Ht as [-> | ->]; simpl in *.
      - subst v. simpl. by rewrite (proj2 (Z.leb_le _ _) Hrv).
      - destruct Hst as [-> _], (Hct eq_refl) as [Hne Hmax]. simpl. rewrite (proj2 (Z.leb_le _ _) Hmax). by destruct (snd v). }
    destruct (List.find _ _) as [r|]; [by eexists _, _|].
    unfold config_references. simpl. rewrite Hid, Hsid. simpl. by eexists _, _.
Qed.
End Theorems.

(** ** Secrets *)
Section Secrets.
Context {E : Env} {S : Sealer}.

(** The database with every sealed value blanked out. *)
Definition blind_row (r : db_ConfigEntry) : db_ConfigEntry :=
  ce_replace (ce_Type r) (ce_Value r) [] (ce_UpdatedAt r) r.
Definition blind (d : DB) : DB := set_config_entries (map blind_row (config_entries d)) d.

Lemma list_blind sid d : sql_ListConfigForService sid (blind d) = map blind_row (sql_ListConfigForService sid d).
Proof.
  unfold sql_ListConfigForService, where_. simpl. rewrite filter_map.
  by rewrite (isort_map blind_row config_leb).
Qed.

(** A computation that does not look at the sealed values. *)
Definition blind_world (w : World) : World := mk_World (blind (w_db w)) (w_tick w) (w_txnow w).
Definition blinded {X} (m : M X) : Prop := ∀ w, m (blind_world w) = (fst (m w), blind_world (snd (m w))).

Lemma blinded_ret {X} (x : X) : blinded (mret x).
Proof. done. Qed.
Lemma blinded_fail {X} e : blinded (fail (A := X) e).
Proof. done. Qed.
Lemma blinded_bind {X Y} (m : M X) (k : X → M Y) : blinded m → (∀ x, blinded (k x)) → blinded (m ≫= k).
Proof.
  intros Hm Hk w. unfold mbind, M_bind. rewrite Hm. destruct (m w) as [[e|x] w1]; simpl; [done|apply Hk].
Qed.
Lemma blinded_on_err {X} f (m : M X) : blinded m → blinded (on_err f m).
Proof. intros Hm w. unfold on_err. rewrite Hm. by destruct (m w) as [[e|x] w1]. Qed.
Lemma blinded_query {X} (f : DB → X) : (∀ d, f (blind d) = f d) → blinded (db_query f).
Proof. intros Hf w. unfold db_query. simpl. rewrite Hf. by destruct (fault _). Qed.
Lemma blinded_query_opt {X} (f : DB → option X) : (∀ d, f (blind d) = f d) → blinded (ok_or_norows (db_query_row f)).
Proof.
  intros Hf w. unfold ok_or_norows, db_query_row. simpl. rewrite Hf. destruct (fault _); [done|]. by destruct (f (w_db w)).
Qed.
Lemma blinded_found {X} op (q : M (option X)) e : blinded q → blinded (found op q e).
Proof. intros Hq. apply blinded_bind; [by apply blinded_on_err|]. by intros [x|]. Qed.
Lemma blinded_Authorize p a res : blinded (policy_Authorize p a res).
Proof.
  unfold policy_Authorize. do 2 (case_match; [done|]). apply blinded_bind.
  - by apply blinded_on_err, blinded_query_opt.
  - intros [role|]; [|done]. by case_match.
Qed.

(** A secret's plaintext goes to the sealer and nowhere else. Two [Set] requests
    that differ only in the value of a secret, and whose values the sealer maps to the
    same bytes, have the same outcome and leave the same database: a value never
    reaches the table, the audit log or the response in the clear. And what [List]
    answers does not depend on the stored bytes: blanking out every sealed value of
    the database changes no answer. *)
Theorem secret_confined c :
  (∀ i v w, si_Type i = TypeSecret →
     len (si_Value i) ≤ maxValueLen → len v ≤ maxValueLen → (∀ n, seal n v = seal n (si_Value i)) →
     Set_ c (mk_SetInput (si_Type i) (si_Scope i) (si_ServiceID i) (si_EnvironmentID i) (si_Key i) v) w = Set_ c i w) ∧
  (∀ sid w, fst (ListForService c sid (blind_world w)) = fst (ListForService c sid w)).
Proof.
  split.
  - intros i v w Ht Hl Hl' Hs. unfold Set_. simpl. rewrite Ht.
    change (validateType TypeSecret) with (inr TypeSecret : go_error + string). rewrite !bind_of_sum.
    apply bind_ext; [done|]. intros scope w2. apply bind_ext; [done|]. intros key w3.
    rewrite !(proj2 (Z.ltb_ge _ _)) by done. apply bind_ext; [done|]. intros _ w4.
    apply bind_ext; [done|]. intros [ws id] w5. apply bind_ext; [done|]. intros _ w6.
    apply bind_ext; [|done]. unfold stored_value. simpl. apply bind_ext; [|done]. unfold wrap, on_err, port. by rewrite Hs.
  - intros sid w. assert (blinded (ListForService c sid)) as ->; [|done]. unfold ListForService.
    apply blinded_bind; [by unfold require; case_match|]. intros _.
    apply blinded_bind; [by apply blinded_found, blinded_query_opt|]. intros ws.
    apply blinded_bind; [apply blinded_Authorize|]. intros _.
    apply blinded_bind; [|done]. apply blinded_query. intros d. by rewrite list_blind, map_map.
Qed.
End Secrets.
