(* ===== verification/Sources.v ===== *)
(** * Sources: a workspace's connections to Git providers

    [internal/sources]: the provider seam (provider.go), its GitHub implementation
    (provider_github.go), and the service (service.go, postgres.go) over the statements
    of [internal/platform/database/db/sources.sql.go].  The GitHub client
    is the class [GitHubClient] of [Platform].  The sealed connect
    state is JSON in a cookie; [openState]'s result is an argument of the handlers that
    use it, so their theorems hold for every decoding. *)
From S2P Require Import Prelude.
From S2P Require Import GoStrings.
From S2P Require Import Problem.
From S2P Require Import Schema.
From S2P Require Import Platform.
From S2P Require Import Authz.
From S2P Require Import DeployStore.
From S2P Require Import Deployments.

Definition kindOAuth : string := "oauth".
Definition kindApp : string := "app".
Definition defaultProvider : string := "github".

Record Connection := mk_Connection {
  cn_ID : string;
  cn_WorkspaceID : string;
  cn_Provider : string;
  cn_Kind : string;
  cn_AccountLogin : string;
  cn_AccountID : option Z;
  cn_InstallationID : option string;
  cn_Scopes : string;
  cn_ConnectedBy : option string;
  cn_CreatedAt : Z;
  cn_UpdatedAt : Z;
}.

(** ** The provider seam *)

(** The sentinels of provider.go, and any other error. *)
Inductive ProviderError := ErrNotFound | ErrUnauthorized | ErrForbidden | ErrRateLimited
  | ProviderOther (what : string).

Definition mapGitHubErr (e : GitHubError) : ProviderError :=
  match e with
  | github_ErrNotFound => ErrNotFound
  | github_ErrUnauthorized => ErrUnauthorized
  | github_ErrForbidden => ErrForbidden
  | github_ErrRateLimited => ErrRateLimited
  | github_Other what => ProviderOther what
  end.

Record Account := mk_Account { ac_Login : string; ac_ID : option Z }.
Record Repo := mk_Repo {
  rp_Owner : string; rp_Name : string; rp_FullName : string; rp_DefaultBranch : string;
  rp_HTMLURL : string; rp_Description : string; rp_Private : bool;
}.
Record Conn := mk_Conn { co_Kind : string; co_Token : string; co_InstallationID : string }.

(** What each Git host implements; the index is the interaction. *)
Record Provider := mk_Provider {
  pv_ID : string;
  pv_DisplayName : string;
  pv_OAuthConfigured : bool;
  pv_AppConfigured : nat → bool;
  pv_ExchangeCode : nat → string → ProviderError + (string * string * Account);
  pv_RevokeToken : nat → string → ProviderError + unit;
  pv_ResolveInstallation : nat → string → ProviderError + Account;
  pv_InstallationToken : nat → string → ProviderError + string;
  pv_ListBranches : nat → Conn → string → string → ProviderError + list string;
  pv_GetRepository : nat → Conn → string → string → ProviderError + Repo;
  pv_GetBranch : nat → Conn → string → string → string → ProviderError + unit;
  pv_Buildable : string → bool;
}.

Record OAuthConfig := mk_OAuthConfig {
  oa_ClientID : string; oa_ClientSecret : string; oa_Scopes : string; oa_RedirectURL : string;
}.

Definition map_err {X} (r : GitHubError + X) : ProviderError + X :=
  match r with inl e => inl (mapGitHubErr e) | inr x => inr x end.
Definition toRepo (r : RepoInfo) : Repo :=
  mk_Repo (ri_Owner r) (ri_Name r) (ri_FullName r) (ri_DefaultBranch r) (ri_HTMLURL r)
    (ri_Description r) (ri_Private r).

Section GitHub.
Context {C : GitHubClient} (oauth : OAuthConfig).

Definition OAuthConfigured : bool :=
  negb (String.eqb (oa_ClientID oauth) "") && negb (String.eqb (oa_ClientSecret oauth) "").
Definition github_ExchangeCode (n : nat) (code : string) : ProviderError + (string * string * Account) :=
  match gh_ExchangeCode n (oa_ClientID oauth) (oa_ClientSecret oauth) code (oa_RedirectURL oauth) with
  | inl e => inl (mapGitHubErr e)
  | inr tok => match gh_GetAuthenticatedUser n (tk_AccessToken tok) with
               | inl e => inl (mapGitHubErr e)
               | inr (login, id) => inr (tk_AccessToken tok, tk_Scope tok, mk_Account login (Some id))
               end
  end.
Definition github_RevokeToken (n : nat) (token : string) : ProviderError + unit :=
  if String.eqb token "" || negb OAuthConfigured then inr tt
  else map_err (gh_RevokeToken n (oa_ClientID oauth) (oa_ClientSecret oauth) token).
Definition github_ResolveInstallation (n : nat) (installationID : string) : ProviderError + Account :=
  match gh_GetInstallation n installationID with
  | inl e => inl (mapGitHubErr e)
  | inr (account, id) => inr (mk_Account account (Some id))
  end.
Definition github_GetRepository (n : nat) (c : Conn) (owner repo : string) : ProviderError + Repo :=
  match gh_GetRepository n (co_Token c) owner repo with
  | inl e => inl (mapGitHubErr e)
  | inr info => inr (toRepo info)
  end.
Definition github_Buildable (kind : string) : bool := String.eqb kind "app".

(** [NewGitHub] *)
Definition GitHub : Provider := {|
  pv_ID := "github";
  pv_DisplayName := "GitHub";
  pv_OAuthConfigured := OAuthConfigured;
  pv_AppConfigured := gh_AppConfigured;
  pv_ExchangeCode := github_ExchangeCode;
  pv_RevokeToken := github_RevokeToken;
  pv_ResolveInstallation := github_ResolveInstallation;
  pv_InstallationToken := λ n i, map_err (gh_InstallationToken n i);
  pv_ListBranches := λ n c o r, map_err (gh_ListBranches n (co_Token c) o r);
  pv_GetRepository := github_GetRepository;
  pv_GetBranch := λ n c o r b, map_err (gh_GetBranch n (co_Token c) o r b);
  pv_Buildable := github_Buildable;
|}.
End GitHub.

(** [Registry]: the map keeps the last provider registered under an id. *)
Class Registry := { registered : list Provider }.
Definition Registry_Get {R : Registry} (id : string) : option Provider :=
  List.find (λ p, String.eqb (pv_ID p) id) (rev registered).
Definition Registry_All {R : Registry} : list Provider :=
  omap (λ p, Registry_Get (pv_ID p)) registered.

(** ** Errors *)

(** The error value of a sentinel. *)
Definition provider_error (e : ProviderError) : go_error :=
  ErrOther match e with
           | ErrNotFound => "provider: not found"
           | ErrUnauthorized => "provider: unauthorized"
           | ErrForbidden => "provider: forbidden"
           | ErrRateLimited => "provider: rate limited"
           | ProviderOther what => what
           end.
Definition mapProviderErr (e : ProviderError) : go_error :=
  match e with
  | ErrNotFound => NotFound "repository not found or not accessible by this integration" []
  | ErrUnauthorized => PermissionDenied "the provider rejected the request; reconnect the integration" []
  | ErrForbidden => PermissionDenied "the provider denied access" []
  | ErrRateLimited => Internalf (provider_error e) "the provider is rate limiting requests; try again shortly" []
  | ProviderOther _ => Internalf (provider_error e) "provider request failed" []
  end.

(** ** Statements *)
Definition connectionFromRow (r : db_SourceConnection) : Connection :=
  {| cn_ID := sc_ID r; cn_WorkspaceID := sc_WorkspaceID r; cn_Provider := sc_Provider r; cn_Kind := sc_Kind r;
     cn_AccountLogin := sc_AccountLogin r; cn_AccountID := sc_AccountID r;
     cn_InstallationID := sc_InstallationID r; cn_Scopes := sc_Scopes r; cn_ConnectedBy := sc_ConnectedBy r;
     cn_CreatedAt := sc_CreatedAt r; cn_UpdatedAt := sc_UpdatedAt r |}.

Definition sql_GetConnectionByID (id : string) (d : DB) : option db_SourceConnection :=
  lookup_by sc_ID id (source_connections d).
Definition sql_GetSealedTokenByConnection (id : string) (d : DB) : option (list Z) :=
  sc_AccessTokenCiphertext <$> lookup_by sc_ID id (source_connections d).
Definition sql_ListConnectionsByWorkspace (workspaceID : string) (d : DB) : list db_SourceConnection :=
  newest_first sc_CreatedAt (where_ (λ r, String.eqb (sc_WorkspaceID r) workspaceID) (source_connections d)).
Definition sql_CountServicesByConnection (connectionID : string) (d : DB) : Z :=
  Z.of_nat (length (where_ (λ s, opt_eqb (sv_ConnectionID s) connectionID) (services d))).

(** ON DELETE RESTRICT from services. *)
Definition sql_DeleteConnectionByID (id : string) (st : Stamp) (d : DB) : go_error + (string * DB) :=
  if has_key sc_ID id (source_connections d) then
    if existsb (λ s, opt_eqb (sv_ConnectionID s) id) (services d)
    then inl (ErrConstraint "services_connection_id_fkey")
    else inr (id, set_source_connections (where_ (λ r, negb (String.eqb (sc_ID r) id)) (source_connections d)) d)
  else inl ErrNoRows.

(** The CHECKs; an absent ciphertext is the empty one. *)
Definition connection_checks (r : db_SourceConnection) : bool :=
  in_list ["github"; "gitlab"] (sc_Provider r) && in_list ["oauth"; "app"] (sc_Kind r) &&
  (Z.of_nat (length (sc_AccessTokenCiphertext r)) <=? 65536) &&
  ((String.eqb (sc_Kind r) "oauth" && negb (bool_decide (sc_AccessTokenCiphertext r = [])) &&
      bool_decide (sc_InstallationID r = None)) ||
   (String.eqb (sc_Kind r) "app" && negb (bool_decide (sc_InstallationID r = None)) &&
      bool_decide (sc_AccessTokenCiphertext r = []))).

(** The two partial unique indexes. *)
Definition same_installation (provider : string) (installationID : option string) (r : db_SourceConnection) : bool :=
  match installationID with
  | None => false
  | Some i => String.eqb (sc_Provider r) provider && opt_eqb (sc_InstallationID r) i
  end.
Definition same_account (workspaceID provider kind : string) (accountID : option Z) (r : db_SourceConnection) : bool :=
  match accountID with
  | None => false
  | Some a => String.eqb (sc_WorkspaceID r) workspaceID && String.eqb (sc_Provider r) provider &&
              String.eqb (sc_Kind r) kind && bool_decide (sc_AccountID r = Some a)
  end.
Definition clashes (r x : db_SourceConnection) : bool :=
  negb (String.eqb (sc_ID x) (sc_ID r)) &&
  (same_installation (sc_Provider r) (sc_InstallationID r) x ||
   same_account (sc_WorkspaceID r) (sc_Provider r) (sc_Kind r) (sc_AccountID r) x).

Definition connection_refs (r : db_SourceConnection) (d : DB) : bool :=
  has_key ws_ID (sc_WorkspaceID r) (workspaces d) &&
  match sc_ConnectedBy r with None => true | Some u => has_key us_ID u (users d) end.

(** [INSERT ... ON CONFLICT (target) DO UPDATE]: a row of the conflict target is
    replaced by [f] of it, every other uniqueness conflict is an error. *)
Definition upsert_connection (target : db_SourceConnection → bool) (f : db_SourceConnection → db_SourceConnection)
    (row : db_SourceConnection) (d : DB) : go_error + (Connection * DB) :=
  if negb (connection_checks row) then inl (ErrConstraint "source_connections_check")
  else
    let '(new, rows) :=
      match List.find target (source_connections d) with
      | Some r => (f r, update_where (λ x, String.eqb (sc_ID x) (sc_ID r)) f (source_connections d))
      | None => (row, source_connections d ++ [row])
      end in
    if existsb (clashes new) (source_connections d) ||
       (negb (existsb target (source_connections d)) && has_key sc_ID (sc_ID row) (source_connections d))
    then inl (ErrUnique "source_connections_account_key")
    else if negb (connection_checks new && connection_refs new d) then inl (ErrConstraint "source_connections")
    else inr (connectionFromRow new, set_source_connections rows d).

Definition sc_refresh_oauth (login : string) (cipher : list Z) (scopes : string) (by_ : option string) (now : Z)
    (r : db_SourceConnection) : db_SourceConnection :=
  {| sc_ID := sc_ID r; sc_WorkspaceID := sc_WorkspaceID r; sc_Provider := sc_Provider r; sc_AccountLogin := login;
     sc_AccountID := sc_AccountID r; sc_AccessTokenCiphertext := cipher; sc_Scopes := scopes; sc_ConnectedBy := by_;
     sc_CreatedAt := sc_CreatedAt r; sc_UpdatedAt := now; sc_InstallationID := sc_InstallationID r; sc_Kind := sc_Kind r |}.
Definition sc_rehome_app (workspaceID login : string) (accountID : option Z) (by_ : option string) (now : Z)
    (r : db_SourceConnection) : db_SourceConnection :=
  {| sc_ID := sc_ID r; sc_WorkspaceID := workspaceID; sc_Provider := sc_Provider r; sc_AccountLogin := login;
     sc_AccountID := accountID; sc_AccessTokenCiphertext := sc_AccessTokenCiphertext r; sc_Scopes := sc_Scopes r;
     sc_ConnectedBy := by_; sc_CreatedAt := sc_CreatedAt r; sc_UpdatedAt := now;
     sc_InstallationID := sc_InstallationID r; sc_Kind := sc_Kind r |}.

Definition sql_InsertOAuthConnection (workspaceID provider login : string) (accountID : option Z)
    (cipher : list Z) (scopes : string) (by_ : option string) (st : Stamp) (d : DB) : go_error + (Connection * DB) :=
  upsert_connection (same_account workspaceID provider "oauth" accountID)
    (sc_refresh_oauth login cipher scopes by_ (st_now st))
    (mk_sc (st_uuid st) workspaceID provider login accountID cipher scopes by_ (st_now st) (st_now st) None "oauth") d.
Definition sql_InsertAppConnection (workspaceID provider login : string) (accountID : option Z)
    (installationID : string) (by_ : option string) (st : Stamp) (d : DB) : go_error + (Connection * DB) :=
  upsert_connection (same_installation provider (Some installationID))
    (sc_rehome_app workspaceID login accountID by_ (st_now st))
    (mk_sc (st_uuid st) workspaceID provider login accountID [] "" by_ (st_now st) (st_now st)
       (Some installationID) "app") d.

(** ** The store *)
Section Store.
Context {E : Env}.
Definition ListConnectionsByWorkspace (workspaceID : string) : M (list Connection) :=
  db_query (λ d, map connectionFromRow (sql_ListConnectionsByWorkspace workspaceID d)).
Definition GetConnectionByID (connectionID : string) : M (option Connection) :=
  ok_or_norows (db_query_row (λ d, connectionFromRow <$> sql_GetConnectionByID connectionID d)).
Definition GetSealedTokenByConnection (connectionID : string) : M (option (list Z)) :=
  r ← ok_or_norows (db_query_row (sql_GetSealedTokenByConnection connectionID));
  mret (match r with Some (x :: xs) => Some (x :: xs) | _ => None end).
Definition InsertOAuthConnection (workspaceID provider login : string) (accountID : option Z) (cipher : list Z)
    (scopes : string) (by_ : option string) : M Connection :=
  db_exec (sql_InsertOAuthConnection workspaceID provider login accountID cipher scopes by_).
Definition InsertAppConnection (workspaceID provider login : string) (accountID : option Z)
    (installationID : string) (by_ : option string) : M Connection :=
  db_exec (sql_InsertAppConnection workspaceID provider login accountID installationID by_).
Definition DeleteConnectionByID (connectionID : string) : M (option string) :=
  ok_or_norows (db_exec (sql_DeleteConnectionByID connectionID)).
Definition CountServicesByConnection (connectionID : string) : M Z :=
  db_query (sql_CountServicesByConnection connectionID).
End Store.

(** ** The service *)
Record connectState := mk_connectState {
  st_WorkspaceID : string; st_UserID : string; st_Provider : string; st_Nonce : string; st_ExpiresAt : Z;
}.
Record CompleteOAuthInput := mk_CompleteOAuthInput {
  ci_Provider : string; ci_Code : string; ci_State : string;
}.
Record CompleteAppInput := mk_CompleteAppInput {
  ca_Provider : string; ca_InstallationID : string; ca_State : string;
}.
Record CompleteAuthResult := mk_CompleteAuthResult { cr_WorkspaceID : string; cr_AccountLogin : string }.
Record ResolvedRepo := mk_ResolvedRepo {
  rr_Owner : string; rr_Name : string; rr_FullName : string; rr_DefaultBranch : string; rr_HTMLURL : string;
  rr_IsPrivate : bool; rr_Branch : string; rr_Provider : string; rr_Kind : string; rr_AccountLogin : string;
  rr_Buildable : bool;
}.
Record ProviderStatus := mk_ProviderStatus {
  ps_Provider : string; ps_DisplayName : string; ps_OAuthConfigured : bool; ps_AppConfigured : bool; ps_Available : bool;
}.

Definition source_resource (workspaceID : string) : Resource := mk_Resource "source" workspaceID "".

Section Service.
Context {E : Env} {A : Authorizer} {S : Sealer} {R : Registry}.

(** A provider call whose error is mapped. *)
Definition provider_call {X} (f : nat → ProviderError + X) (mapErr : ProviderError → go_error) : M X :=
  port (λ n, match f n with inl e => inl (mapErr e) | inr x => inr x end).

Definition provider (idStr : string) : M Provider :=
  let idStr := if String.eqb (TrimSpace idStr) "" then defaultProvider else idStr in
  match Registry_Get idStr with
  | Some p => mret p
  | None => fail (InvalidInput "unknown provider %q" [AStr idStr])
  end.

Definition requireConnection (connectionID : string) : M Connection :=
  _ ← require (id_Parse connectionID) (InvalidInput "a valid connection_id is required" []);
  found "resolve connection" (GetConnectionByID connectionID)
    (NotFound "connection %s not found" [AStr connectionID]).

Definition openToken (connectionID : string) : M (option string) :=
  c ← wrap "load token" (GetSealedTokenByConnection connectionID);
  match c with
  | None => mret None
  | Some cipher => plain ← wrap "open token" (of_sum (box_Open cipher)); mret (Some plain)
  end.

Definition resolveConn (conn : Connection) : M (Conn * Provider) :=
  match Registry_Get (cn_Provider conn) with
  | None => fail (InvalidInput "unknown provider %q" [AStr (cn_Provider conn)])
  | Some p =>
      if String.eqb (cn_Kind conn) kindApp then
        match cn_InstallationID conn with
        | None | Some EmptyString =>
            fail (Internalf (ErrOther "app connection missing installation id") "resolve connection" [])
        | Some inst =>
            token ← provider_call (λ n, pv_InstallationToken p n inst) mapProviderErr;
            mret (mk_Conn (cn_Kind conn) token inst, p)
        end
      else
        t ← openToken (cn_ID conn);
        match t with
        | None => fail (NotFound "this integration has no stored credential; reconnect it" [])
        | Some token => mret (mk_Conn (cn_Kind conn) token "", p)
        end
  end.

(** *** Connect flows, from the decoded state on *)
Definition beginConnect (caller : Principal) (workspaceID providerID : string) : M Provider :=
  _ ← require (id_Parse workspaceID) (InvalidInput "a valid workspace_id is required" []);
  _ ← Authorize caller ActionSourceConnect (source_resource workspaceID);
  provider providerID.

(** [opened] is what [openState] returned for the cookie. *)
Definition openAndVerify (opened : go_error + connectState) (caller : Principal)
    (routeProvider echoedNonce : string) : M (connectState * Provider) :=
  st ← of_sum opened;
  _ ← require (negb (String.eqb echoedNonce "" || negb (String.eqb (st_Nonce st) echoedNonce)))
        (InvalidInput "connect state mismatch; please try again" []);
  now ← time_now;
  _ ← require (negb (st_ExpiresAt st <? Unix now)) (InvalidInput "the connect request expired; please try again" []);
  _ ← require (negb (negb (String.eqb routeProvider "") && negb (String.eqb routeProvider (st_Provider st))))
        (InvalidInput "connect provider mismatch; please try again" []);
  _ ← require (negb (negb (IsAuthenticated caller) || negb (String.eqb (p_UserID caller) (st_UserID st))))
        (PermissionDenied "this connect flow was started by a different session" []);
  _ ← Authorize caller ActionSourceConnect (source_resource (st_WorkspaceID st));
  p ← provider (st_Provider st);
  mret (st, p).

Definition CompleteOAuth (opened : go_error + connectState) (caller : Principal) (i : CompleteOAuthInput) : M CompleteAuthResult :=
  r ← openAndVerify opened caller (ci_Provider i) (ci_State i);
  let '(st, p) := r in
  _ ← require (negb (String.eqb (TrimSpace (ci_Code i)) "")) (InvalidInput "missing authorization code" []);
  x ← provider_call (λ n, pv_ExchangeCode p n (ci_Code i)) mapProviderErr;
  let '(token, scopes, account) := x in
  sealedToken ← wrap "seal token" (port (λ n, seal n token));
  _ ← wrap "connect oauth" (within_tx
        (conn ← InsertOAuthConnection (st_WorkspaceID st) (pv_ID p) (ac_Login account) (ac_ID account)
                  sealedToken scopes (Some (st_UserID st));
         audit_Record "source.oauth.connect" "source_connection" (cn_ID conn) (st_WorkspaceID st) (st_UserID st)));
  mret (mk_CompleteAuthResult (st_WorkspaceID st) (ac_Login account)).

Definition CompleteAppInstall (opened : go_error + connectState) (caller : Principal) (i : CompleteAppInput) : M CompleteAuthResult :=
  _ ← require (negb (String.eqb (TrimSpace (ca_InstallationID i)) "")) (InvalidInput "missing installation id" []);
  r ← openAndVerify opened caller (ca_Provider i) (ca_State i);
  let '(st, p) := r in
  account ← provider_call (λ n, pv_ResolveInstallation p n (ca_InstallationID i)) mapProviderErr;
  _ ← wrap "connect app" (within_tx
        (conn ← InsertAppConnection (st_WorkspaceID st) (pv_ID p) (ac_Login account) (ac_ID account)
                  (ca_InstallationID i) (Some (st_UserID st));
         audit_Record "source.app.connect" "source_connection" (cn_ID conn) (st_WorkspaceID st) (st_UserID st)));
  mret (mk_CompleteAuthResult (st_WorkspaceID st) (ac_Login account)).

(** *** Reads and mutations *)
Definition providerStatuses : M (list ProviderStatus) := λ w,
  (inr (map (λ p, mk_ProviderStatus (pv_ID p) (pv_DisplayName p) (pv_OAuthConfigured p)
                    (pv_AppConfigured p (w_tick w)) true) Registry_All), tick w).

Definition ListConnections (caller : Principal) (workspaceID : string) : M (list Connection * list ProviderStatus) :=
  _ ← require (id_Parse workspaceID) (InvalidInput "a valid workspace_id is required" []);
  _ ← Authorize caller ActionSourceRead (source_resource workspaceID);
  conns ← wrap "list connections" (ListConnectionsByWorkspace workspaceID);
  ps ← providerStatuses;
  mret (conns, ps).

(** Best-effort revocation at the provider: every error is swallowed. *)
Definition revoke_at_provider (conn : Connection) : M unit :=
  if String.eqb (cn_Kind conn) kindOAuth then
    t ← try (openToken (cn_ID conn));
    match t with
    | inr (Some token) =>
        match Registry_Get (cn_Provider conn) with
        | Some p => _ ← try (provider_call (λ n, pv_RevokeToken p n token) mapProviderErr); mret tt
        | None => mret tt
        end
    | _ => mret tt
    end
  else mret tt.

Definition DisconnectConnection (caller : Principal) (connectionID : string) : M unit :=
  conn ← requireConnection connectionID;
  _ ← Authorize caller ActionSourceDisconnect (source_resource (cn_WorkspaceID conn));
  inUse ← wrap "disconnect" (CountServicesByConnection connectionID);
  _ ← require (negb (0 <? inUse))
        (InvalidInput "this integration is used by %d service(s); remove or repoint them first" [AInt inUse]);
  _ ← revoke_at_provider conn;
  on_err (λ e, mapErr e "disconnect") (within_tx
    (deleted ← DeleteConnectionByID connectionID;
     match deleted with
     | None => fail (NotFound "connection %s not found" [AStr connectionID])
     | Some deletedID => audit_Record "source.disconnect" "source_connection" deletedID (cn_WorkspaceID conn) (p_UserID caller)
     end)).

Definition ListBranches (caller : Principal) (connectionID owner repo : string) : M (list string) :=
  _ ← require (negb (String.eqb (TrimSpace owner) "" || String.eqb (TrimSpace repo) ""))
        (InvalidInput "owner and repo are required" []);
  conn ← requireConnection connectionID;
  _ ← Authorize caller ActionSourceConnect (source_resource (cn_WorkspaceID conn));
  r ← resolveConn conn;
  provider_call (λ n, pv_ListBranches (snd r) n (fst r) owner repo) mapProviderErr.

(** *** Internal seams *)
Definition InstallationToken (connectionID : string) : M (option string) :=
  c ← wrap "resolve connection" (GetConnectionByID connectionID);
  match c with
  | Some conn =>
      match String.eqb (cn_Kind conn) kindApp, cn_InstallationID conn, Registry_Get (cn_Provider conn) with
      | true, Some (String _ _ as inst), Some p =>
          token ← provider_call (λ n, pv_InstallationToken p n inst) mapProviderErr; mret (Some token)
      | _, _, _ => mret None
      end
  | None => mret None
  end.

Definition GetConnectionMeta (connectionID : string) : M (option Connection) :=
  _ ← require (id_Parse connectionID) (InvalidInput "a valid connection_id is required" []);
  wrap "resolve connection" (GetConnectionByID connectionID).

(** A chosen branch is verified, an empty one is the default. *)
Definition resolve_branch (p : Provider) (pc : Conn) (info : Repo) (branch : string) : M string :=
  if String.eqb branch "" then mret (rp_DefaultBranch info)
  else
    _ ← provider_call (λ n, pv_GetBranch p n pc (rp_Owner info) (rp_Name info) branch)
          (λ e, match e with
                | ErrNotFound => InvalidInput "branch %q was not found in %s" [AStr branch; AStr (rp_FullName info)]
                | _ => mapProviderErr e
                end);
    mret branch.

Definition ValidateRepo (connectionID owner repo branch : string) : M ResolvedRepo :=
  conn ← requireConnection connectionID;
  _ ← require (negb (String.eqb (TrimSpace owner) "" || String.eqb (TrimSpace repo) ""))
        (InvalidInput "owner and repo are required" []);
  r ← resolveConn conn;
  let '(pc, p) := r in
  info ← provider_call (λ n, pv_GetRepository p n pc (TrimSpace owner) (TrimSpace repo)) mapProviderErr;
  resolvedBranch ← resolve_branch p pc info (TrimSpace branch);
  mret {| rr_Owner := rp_Owner info; rr_Name := rp_Name info; rr_FullName := rp_FullName info;
          rr_DefaultBranch := rp_DefaultBranch info; rr_HTMLURL := rp_HTMLURL info; rr_IsPrivate := rp_Private info;
          rr_Branch := resolvedBranch; rr_Provider := cn_Provider conn; rr_Kind := cn_Kind conn;
          rr_AccountLogin := cn_AccountLogin conn; rr_Buildable := pv_Buildable p (cn_Kind conn) |}.
End Service.
