(* ===== verification/SourcesSpec.v ===== *)
(** * SourcesSpec: what each handler of the sources module does

    The invariant of the connections table and one weakest-precondition rule per handler
    of [Sources]. *)
From S2P Require Import Prelude.
From S2P Require Import GoStrings.
From S2P Require Import Problem.
From S2P Require Import Schema.
From S2P Require Import Platform.
From S2P Require Import Authz.
From S2P Require Import DeployStore.
From S2P Require Import Deployments.
From S2P Require Import DeploySpec.
From S2P Require Import DeployHandlers.
From S2P Require Import Config.
From S2P Require Import ConfigProps.
From S2P Require Import Sources.

(** ** The table *)

(** The rows meet the CHECKs, ids are unique, and no two rows clash on an installation
    or on an account of a workspace. *)
Record scwf (d : DB) : Prop := {
  scwf_checks : Forall (λ r, connection_checks r = true) (source_connections d);
  scwf_ids : NoDup (map sc_ID (source_connections d));
  scwf_apart : ∀ x y, x ∈ source_connections d → y ∈ source_connections d → clashes x y = false;
}.

Lemma same_installation_true p i x : same_installation p i x = true ↔
  i ≠ None ∧ sc_Provider x = p ∧ sc_InstallationID x = i.
Proof.
  unfold same_installation. destruct i as [i|]; [|naive_solver]. rewrite andb_true_iff, String.eqb_eq, opt_eqb_true. naive_solver.
Qed.
Lemma same_account_true ws p k a x : same_account ws p k a x = true ↔
  a ≠ None ∧ sc_WorkspaceID x = ws ∧ sc_Provider x = p ∧ sc_Kind x = k ∧ sc_AccountID x = a.
Proof.
  unfold same_account. destruct a as [a|]; [|naive_solver].
  rewrite !andb_true_iff, !String.eqb_eq, bool_decide_eq_true. naive_solver.
Qed.
Lemma clashes_true x y : clashes x y = true ↔ sc_ID x ≠ sc_ID y ∧
  ((sc_InstallationID x ≠ None ∧ sc_Provider y = sc_Provider x ∧ sc_InstallationID y = sc_InstallationID x) ∨
   (sc_AccountID x ≠ None ∧ sc_WorkspaceID y = sc_WorkspaceID x ∧ sc_Provider y = sc_Provider x ∧
    sc_Kind y = sc_Kind x ∧ sc_AccountID y = sc_AccountID x)).
Proof.
  unfold clashes. rewrite andb_true_iff, orb_true_iff, same_installation_true, same_account_true, negb_true_iff, String.eqb_neq.
  naive_solver.
Qed.
Lemma clashes_sym x y : clashes x y = clashes y x.
Proof. apply eq_iff_eq_true. rewrite !clashes_true. intuition congruence. Qed.

(** ** The upsert *)
(** [new] is the row of the conflict target rewritten by [f], or the proposed row. *)
Inductive upserted_row (target : db_SourceConnection → bool) (f : db_SourceConnection → db_SourceConnection)
    (row : db_SourceConnection) (d : DB) : db_SourceConnection → list db_SourceConnection → Prop :=
  | up_replaced r : r ∈ source_connections d → target r = true →
      upserted_row target f row d (f r)
        (update_where (λ x, String.eqb (sc_ID x) (sc_ID r)) f (source_connections d))
  | up_inserted : (∀ x, x ∈ source_connections d → target x = false) →
      (∀ x, x ∈ source_connections d → sc_ID x ≠ sc_ID row) →
      upserted_row target f row d row (source_connections d ++ [row]).

Lemma existsb_false {X} (p : X → bool) l : existsb p l = false ↔ ∀ x, x ∈ l → p x = false.
Proof.
  rewrite <- not_true_iff_false, existsb_exists. split.
  - intros H x Hx. apply not_true_iff_false. intros Hp. apply H. exists x. by rewrite <- list_elem_of_In.
  - intros H (x & Hx & Hp). rewrite <- list_elem_of_In in Hx. by rewrite H in Hp.
Qed.

Lemma upsert_connection_spec target f row d c d' : upsert_connection target f row d = inr (c, d') →
  ∃ new rows, upserted_row target f row d new rows ∧ c = connectionFromRow new ∧
    connection_checks new = true ∧ connection_refs new d = true ∧
    (∀ x, x ∈ source_connections d → clashes new x = false) ∧ d' = set_source_connections rows d.
Proof.
  unfold upsert_connection. destruct (negb (connection_checks row)); [done|].
  destruct (List.find target (source_connections d)) as [r|] eqn:Hf.
  - apply find_some in Hf as [Hin Ht]. rewrite <- list_elem_of_In in Hin.
    destruct (existsb (clashes (f r)) _) eqn:Hcl; [done|]. rewrite existsb_false in Hcl.
    destruct (existsb target (source_connections d)) eqn:He; [simpl|by rewrite (proj1 (existsb_false _ _) He r Hin) in Ht].
    destruct (connection_checks (f r) && connection_refs (f r) d) eqn:Hck; [|done]. intros [= <- <-].
    apply andb_true_iff in Hck as [Hck Hrf]. eexists _, _. by split; [apply (up_replaced _ _ _ _ r)|].
  - destruct (existsb (clashes row) _) eqn:Hcl; [done|]. rewrite existsb_false in Hcl.
    assert (∀ x, x ∈ source_connections d → target x = false) as Hn by (intros x Hx; apply (find_none _ _ Hf x); by apply list_elem_of_In).
    rewrite (proj2 (existsb_false _ _) Hn). simpl.
    destruct (has_key sc_ID (sc_ID row) (source_connections d)) eqn:Hk; [done|]. simpl.
    destruct (connection_checks row && connection_refs row d) eqn:Hck; [|done]. intros [= <- <-].
    apply andb_true_iff in Hck as [Hck Hrf]. eexists _, _. split; [apply up_inserted; [done|]|done].
    intros x Hx Heq. apply not_true_iff_false in Hk. apply Hk, has_key_true. by exists x.
Qed.

Lemma upserted_elem target f row d new rows x :
  (∀ r, sc_ID (f r) = sc_ID r) → NoDup (map sc_ID (source_connections d)) → upserted_row target f row d new rows →
  x ∈ rows ↔ x = new ∨ x ∈ source_connections d ∧ sc_ID x ≠ sc_ID new.
Proof.
  intros Hf Hnd [r Hr Ht|Hn Hid].
  - rewrite elem_of_update_where. rewrite Hf. split.
    + intros (y & Hy & ->). destruct (String.eqb_spec (sc_ID y) (sc_ID r)) as [He|Hne]; [left|by right].
      f_equal. by eapply (NoDup_map_inj sc_ID).
    + intros [->|[Hx Hne]]; [exists r; by rewrite String.eqb_refl|]. exists x. by apply String.eqb_neq in Hne as ->.
  - rewrite elem_of_app, list_elem_of_singleton. split; [intros [Hx|Hx]; auto|intros [->|[Hx _]]; auto].
Qed.

Lemma scwf_upserted target f row d new rows :
  (∀ r, sc_ID (f r) = sc_ID r) → upserted_row target f row d new rows → connection_checks new = true →
  (∀ x, x ∈ source_connections d → clashes new x = false) → scwf d → scwf (set_source_connections rows d).
Proof.
  intros Hf Hup Hck Hcl [S1 S2 S3]. pose proof (λ x, upserted_elem _ _ _ _ _ _ x Hf S2 Hup) as Hel. split; simpl.
  - apply Forall_forall. intros x Hx. apply Hel in Hx as [->|[Hx _]]; [done|]. by apply (proj1 (Forall_forall _ _) S1).
  - destruct Hup as [r Hr Ht|Hn Hid]; [by rewrite map_update_where|]. apply NoDup_map_snoc; [done|]. intros y Hy. by apply Hid.
  - intros x y Hx Hy. apply Hel in Hx as [->|[Hx _]], Hy as [->|[Hy _]]; [|by apply Hcl|by rewrite clashes_sym; apply Hcl|by apply S3].
    apply not_true_iff_false. rewrite clashes_true. naive_solver.
Qed.

(** ** Resolving a connection *)
Section Rules.
Context {E : Env} {A : Authorizer} {S : Sealer} {R : Registry}.
Implicit Types (w : World).

Lemma wp_provider_call {X} (f : nat → ProviderError + X) mapErr (Q : go_error + X → World → Prop) w :
  (∀ e w', w_db w' = w_db w → Q (inl e) w') →
  (∀ n x w', w_db w' = w_db w → f n = inr x → Q (inr x) w') →
  wp (provider_call f mapErr) Q w.
Proof.
  intros He Ha. unfold provider_call. wp_step. destruct (f n) as [e|x] eqn:Hf; [by apply He|by eapply Ha].
Qed.

Lemma wp_requireConnection id (Q : go_error + Connection → World → Prop) w :
  (∀ e w', w_db w' = w_db w → Q (inl e) w') →
  (∀ row w', w_db w' = w_db w → lookup_by sc_ID id (source_connections (w_db w)) = Some row →
     Q (inr (connectionFromRow row)) w') →
  wp (requireConnection id) Q w.
Proof.
  intros He Ha. unfold requireConnection. wp_step. wp_step; [|by apply He]. wp_step. unfold GetConnectionByID.
  wp_step; [by apply He|]. unfold sql_GetConnectionByID.
  destruct (lookup_by sc_ID id (source_connections (w_db w))) as [row|]; [by apply Ha|by apply He].
Qed.

Lemma wp_openToken id (Q : go_error + option string → World → Prop) w :
  (∀ e w', w_db w' = w_db w → Q (inl e) w') →
  (∀ w', w_db w' = w_db w → Q (inr None) w') →
  (∀ row plain w', w_db w' = w_db w → lookup_by sc_ID id (source_connections (w_db w)) = Some row →
     sc_AccessTokenCiphertext row ≠ [] → open_sealed (sc_AccessTokenCiphertext row) = Some plain → Q (inr (Some plain)) w') →
  wp (openToken id) Q w.
Proof.
  intros He Hn Ha. unfold openToken. wp_step. wp_step. unfold GetSealedTokenByConnection. wp_step. wp_step; [by apply He|].
  wp_step. unfold sql_GetSealedTokenByConnection in *.
  destruct (lookup_by sc_ID id (source_connections (w_db w))) as [row|] eqn:Hl; [|simpl; wp_step; by apply Hn]. simpl.
  destruct (sc_AccessTokenCiphertext row) as [|b l] eqn:Hc; [wp_step; by apply Hn|].
  wp_step. wp_step. wp_step. unfold box_Open. destruct (open_sealed (b :: l)) as [plain|] eqn:Ho; [|by apply He].
  wp_step. apply (Ha row); [done|done|by rewrite Hc|by rewrite Hc].
Qed.

(** The credential of a connection: a minted installation token, or the opened one. *)
Definition conn_resolved (row : db_SourceConnection) (pc : Conn) (p : Provider) : Prop :=
  Registry_Get (sc_Provider row) = Some p ∧ co_Kind pc = sc_Kind row ∧
  if String.eqb (sc_Kind row) kindApp
  then ∃ n, sc_InstallationID row = Some (co_InstallationID pc) ∧ co_InstallationID pc ≠ "" ∧
         pv_InstallationToken p n (co_InstallationID pc) = inr (co_Token pc)
  else open_sealed (sc_AccessTokenCiphertext row) = Some (co_Token pc) ∧ co_InstallationID pc = "".

Lemma wp_resolveConn row (Q : go_error + Conn * Provider → World → Prop) w :
  lookup_by sc_ID (sc_ID row) (source_connections (w_db w)) = Some row →
  (∀ e w', w_db w' = w_db w → Q (inl e) w') →
  (∀ pc p w', w_db w' = w_db w → conn_resolved row pc p → Q (inr (pc, p)) w') →
  wp (resolveConn (connectionFromRow row)) Q w.
Proof.
  intros Hl He Ha. unfold resolveConn. simpl. destruct (Registry_Get (sc_Provider row)) as [p|] eqn:Hp; [|by apply He].
  destruct (String.eqb (sc_Kind row) kindApp) eqn:Hk.
  - destruct (sc_InstallationID row) as [[|a s]|] eqn:Hi; [by apply He| |by apply He].
    wp_step. apply wp_provider_call; [done|]. intros n tok w1 Hw1 Ht. wp_step. apply Ha; [done|].
    unfold conn_resolved. rewrite Hk. split; [done|]. split; [done|]. by exists n.
  - wp_step. apply wp_openToken; [done|by intros; apply wp_fail, He|].
    intros row' plain w1 Hw1 Hl' _ Ho. wp_step. rewrite Hl in Hl'. injection Hl' as <-. apply Ha; [done|].
    unfold conn_resolved. rewrite Hk. done.
Qed.

(** ** Reads *)
(** What [ValidateRepo] answers: the repository as the connection's credential sees it. *)
Definition repo_validated (row : db_SourceConnection) (owner repo branch : string) (v : ResolvedRepo) : Prop :=
  ∃ pc p n info, conn_resolved row pc p ∧
    pv_GetRepository p n pc (TrimSpace owner) (TrimSpace repo) = inr info ∧
    rr_Owner v = rp_Owner info ∧ rr_Name v = rp_Name info ∧ rr_FullName v = rp_FullName info ∧
    rr_DefaultBranch v = rp_DefaultBranch info ∧ rr_HTMLURL v = rp_HTMLURL info ∧ rr_IsPrivate v = rp_Private info ∧
    rr_Provider v = sc_Provider row ∧ rr_Kind v = sc_Kind row ∧ rr_AccountLogin v = sc_AccountLogin row ∧
    rr_Buildable v = pv_Buildable p (sc_Kind row) ∧
    (if String.eqb (TrimSpace branch) "" then rr_Branch v = rp_DefaultBranch info
     else rr_Branch v = TrimSpace branch ∧
          ∃ m, pv_GetBranch p m pc (rp_Owner info) (rp_Name info) (TrimSpace branch) = inr tt).

Lemma lookup_self id row (d : DB) : lookup_by sc_ID id (source_connections d) = Some row →
  lookup_by sc_ID (sc_ID row) (source_connections d) = Some row.
Proof. intros H. pose proof H as [_ Hid]%lookup_by_Some. by rewrite Hid. Qed.

Lemma wp_ValidateRepo id owner repo branch (Q : go_error + ResolvedRepo → World → Prop) w :
  (∀ e w', w_db w' = w_db w → Q (inl e) w') →
  (∀ row v w', w_db w' = w_db w → lookup_by sc_ID id (source_connections (w_db w)) = Some row →
     repo_validated row owner repo branch v → Q (inr v) w') →
  wp (ValidateRepo id owner repo branch) Q w.
Proof.
  intros He Ha. unfold ValidateRepo. wp_step. apply wp_requireConnection; [done|]. intros row w1 Hw1 Hl.
  wp_step. wp_step; [|apply He; congruence]. wp_step. apply wp_resolveConn; [rewrite Hw1; by eapply lookup_self| |].
  { intros; apply He; congruence. }
  intros pc p w2 Hw2 Hc. wp_step. apply wp_provider_call; [intros; apply He; congruence|]. intros n info w3 Hw3 Hinfo.
  wp_step. unfold resolve_branch. destruct (String.eqb (TrimSpace branch) "") eqn:Hb.
  - wp_step. wp_step. apply (Ha row); [congruence|done|]. exists pc, p, n, info. rewrite Hb. do 12 (split; [done|]). done.
  - wp_step. apply wp_provider_call; [intros; apply He; congruence|]. intros m [] w4 Hw4 Hbr. wp_step. wp_step.
    apply (Ha row); [congruence|done|]. exists pc, p, n, info. rewrite Hb. do 12 (split; [done|]). split; [done|by exists m].
Qed.

Lemma wp_GetConnectionMeta id (Q : go_error + option Connection → World → Prop) w :
  (∀ e w', w_db w' = w_db w → Q (inl e) w') →
  (∀ w', w_db w' = w_db w → Q (inr (connectionFromRow <$> lookup_by sc_ID id (source_connections (w_db w)))) w') →
  wp (GetConnectionMeta id) Q w.
Proof.
  intros He Ha. unfold GetConnectionMeta. wp_step. wp_step; [|by apply He]. wp_step. unfold GetConnectionByID.
  wp_step; [by apply He|]. by apply Ha.
Qed.

Lemma wp_ListBranches c id owner repo (Q : go_error + list string → World → Prop) w :
  (∀ e w', w_db w' = w_db w → Q (inl e) w') →
  (∀ row bs w', w_db w' = w_db w → lookup_by sc_ID id (source_connections (w_db w)) = Some row →
     allows c ActionSourceConnect (source_resource (sc_WorkspaceID row)) (w_db w) → Q (inr bs) w') →
  wp (ListBranches c id owner repo) Q w.
Proof.
  intros He Ha. unfold ListBranches. wp_step. wp_step; [|by apply He].
  wp_step. apply wp_requireConnection; [by apply He|]. intros row w1 Hw1 Hl.
  wp_step. apply wp_Authorize; [intros; apply He; congruence|]. intros w2 Hw2 Hal. rewrite Hw1 in *.
  wp_step. apply wp_resolveConn; [rewrite Hw2; by eapply lookup_self|intros; apply He; congruence|]. intros pc p w3 Hw3 _.
  apply wp_provider_call; [intros; apply He; congruence|]. intros n bs w4 Hw4 _. apply (Ha row); [congruence|done|done].
Qed.

Lemma wp_ListConnections c ws (Q : go_error + list Connection * list ProviderStatus → World → Prop) w :
  (∀ e w', w_db w' = w_db w → Q (inl e) w') →
  (∀ ps w', w_db w' = w_db w → allows c ActionSourceRead (source_resource ws) (w_db w) →
     Q (inr (map connectionFromRow (sql_ListConnectionsByWorkspace ws (w_db w)), ps)) w') →
  wp (ListConnections c ws) Q w.
Proof.
  intros He Ha. unfold ListConnections. wp_step. wp_step; [|by apply He].
  wp_step. apply wp_Authorize; [done|]. intros w1 Hw1 Hal. wp_step. wp_step. unfold ListConnectionsByWorkspace.
  wp_step; [apply He; congruence|]. wp_step. unfold wp, providerStatuses. simpl. rewrite Hw1.
  apply (Ha _ (tick w')); [simpl; congruence|done].
Qed.

(** ** Connecting *)
(** What the sealed state, the session and the clock were checked for. *)
Definition state_verified (opened : go_error + connectState) (c : Principal) (route nonce : string)
    (st : connectState) (p : Provider) (d : DB) : Prop :=
  opened = inr st ∧ nonce ≠ "" ∧ st_Nonce st = nonce ∧ (route = "" ∨ route = st_Provider st) ∧
  IsAuthenticated c = true ∧ p_UserID c = st_UserID st ∧ (∃ n, Unix (now_at n) ≤ st_ExpiresAt st) ∧
  allows c ActionSourceConnect (source_resource (st_WorkspaceID st)) d ∧ ∃ id, Registry_Get id = Some p.

Lemma wp_openAndVerify opened c route nonce (Q : go_error + connectState * Provider → World → Prop) w :
  (∀ e w', w_db w' = w_db w → Q (inl e) w') →
  (∀ st p w', w_db w' = w_db w → state_verified opened c route nonce st p (w_db w) → Q (inr (st, p)) w') →
  wp (openAndVerify opened c route nonce) Q w.
Proof.
  intros He Ha. unfold openAndVerify. wp_step. wp_step. destruct opened as [e|st] eqn:Ho; [by apply He|].
  wp_step. wp_step; [|by apply He]. wp_step. apply wp_time_now_at. intros n w1 Hw1.
  wp_step. wp_step; [|by apply He]. wp_step. wp_step; [|by apply He]. wp_step. wp_step; [|by apply He].
  wp_step. apply wp_Authorize; [intros; apply He; congruence|]. intros w2 Hw2 Hal.
  wp_step. unfold provider. set (key := if String.eqb _ "" then _ else _).
  destruct (Registry_Get key) as [p|] eqn:Hp; [|apply wp_fail, He; congruence]. wp_step. wp_step.
  apply Ha; [congruence|]. rewrite Hw1 in Hal.
  apply negb_true_iff, orb_false_iff in H as [Hn1 Hn2]. apply negb_true_iff, Z.ltb_ge in H0.
  apply negb_true_iff, orb_false_iff in H2 as [Hu1 Hu2]. apply negb_false_iff, String.eqb_eq in Hn2, Hu2. apply negb_false_iff in Hu1.
  apply negb_true_iff, andb_false_iff in H1. rewrite !negb_false_iff, !String.eqb_eq in H1. apply String.eqb_neq in Hn1.
  do 6 (split; [done|]). split; [by exists n|]. split; [done|]. by exists key.
Qed.

(** A connect flow that succeeded: one upserted row, owned by the workspace of the
    state, and its audit row. *)
Definition connected (action : string) (st : connectState) (target : db_SourceConnection → bool)
    (f : db_SourceConnection → db_SourceConnection) (row new : db_SourceConnection) (d d' : DB) : Prop :=
  ∃ rows, upserted_row target f row d new rows ∧ connection_checks new = true ∧ connection_refs new d = true ∧
    (∀ x, x ∈ source_connections d → clashes new x = false) ∧
    audited action "source_connection" (sc_ID new) (st_WorkspaceID st) (st_UserID st) (set_source_connections rows d) d'.

Definition oauth_connected (st : connectState) (p : Provider) (code : string) (new : db_SourceConnection) (d d' : DB) : Prop :=
  ∃ n m token scopes account sealed id now,
    pv_ExchangeCode p n code = inr (token, scopes, account) ∧ seal m token = inr sealed ∧
    connected "source.oauth.connect" st (same_account (st_WorkspaceID st) (pv_ID p) "oauth" (ac_ID account))
      (sc_refresh_oauth (ac_Login account) sealed scopes (Some (st_UserID st)) now)
      (mk_sc id (st_WorkspaceID st) (pv_ID p) (ac_Login account) (ac_ID account) sealed scopes (Some (st_UserID st)) now now None "oauth")
      new d d'.
Definition app_connected (st : connectState) (p : Provider) (inst : string) (new : db_SourceConnection) (d d' : DB) : Prop :=
  ∃ n account id now,
    pv_ResolveInstallation p n inst = inr account ∧
    connected "source.app.connect" st (same_installation (pv_ID p) (Some inst))
      (sc_rehome_app (st_WorkspaceID st) (ac_Login account) (ac_ID account) (Some (st_UserID st)) now)
      (mk_sc id (st_WorkspaceID st) (pv_ID p) (ac_Login account) (ac_ID account) [] "" (Some (st_UserID st)) now now (Some inst) "app")
      new d d'.

Lemma wp_CompleteOAuth opened c i (Q : go_error + CompleteAuthResult → World → Prop) w :
  (∀ e w', w_db w' = w_db w → Q (inl e) w') →
  (∀ st p new w', state_verified opened c (ci_Provider i) (ci_State i) st p (w_db w) →
     oauth_connected st p (ci_Code i) new (w_db w) (w_db w') →
     Q (inr (mk_CompleteAuthResult (st_WorkspaceID st) (sc_AccountLogin new))) w') →
  wp (CompleteOAuth opened c i) Q w.
Proof.
  intros He Ha. unfold CompleteOAuth. wp_step. apply wp_openAndVerify; [done|]. intros st p w1 Hw1 Hv.
  wp_step. wp_step; [|by apply He]. wp_step. apply wp_provider_call; [intros; apply He; congruence|].
  intros n [[token scopes] account] w2 Hw2 Hx. wp_step. wp_step. wp_step. destruct (seal n0 token) as [e|sealed] eqn:Hs; [apply He; congruence|].
  wp_step. wp_step. wp_step; [apply He; congruence|]. wp_step. unfold InsertOAuthConnection. apply wp_exec; [done|].
  intros stamp conn w5 Hins. apply upsert_connection_spec in Hins as (new & rows & Hup & -> & Hck & Hrf & Hcl & Hw5).
  apply wp_audit_Record; [done|]. intros w6 Haud w7 Hw7. wp_step.
  assert (sc_AccountLogin new = ac_Login account) as <- by by destruct Hup.
  world_eq. apply (Ha st p new); [done|]. exists n, n0, token, scopes, account, sealed, (st_uuid stamp), (st_now stamp).
  split; [done|]. split; [done|]. exists rows. do 4 (split; [done|]). rewrite Hw7, <- Hw5. exact Haud.
Qed.

Lemma wp_CompleteAppInstall opened c i (Q : go_error + CompleteAuthResult → World → Prop) w :
  (∀ e w', w_db w' = w_db w → Q (inl e) w') →
  (∀ st p new w', state_verified opened c (ca_Provider i) (ca_State i) st p (w_db w) →
     app_connected st p (ca_InstallationID i) new (w_db w) (w_db w') →
     Q (inr (mk_CompleteAuthResult (st_WorkspaceID st) (sc_AccountLogin new))) w') →
  wp (CompleteAppInstall opened c i) Q w.
Proof.
  intros He Ha. unfold CompleteAppInstall. wp_step. wp_step; [|by apply He].
  wp_step. apply wp_openAndVerify; [done|]. intros st p w1 Hw1 Hv.
  wp_step. apply wp_provider_call; [intros; apply He; congruence|]. intros n account w2 Hw2 Hx.
  wp_step. wp_step. wp_step; [apply He; congruence|]. wp_step. unfold InsertAppConnection. apply wp_exec; [done|].
  intros stamp conn w5 Hins. apply upsert_connection_spec in Hins as (new & rows & Hup & -> & Hck & Hrf & Hcl & Hw5).
  apply wp_audit_Record; [done|]. intros w6 Haud w7 Hw7. wp_step.
  assert (sc_AccountLogin new = ac_Login account) as <- by by destruct Hup.
  world_eq. apply (Ha st p new); [done|]. exists n, account, (st_uuid stamp), (st_now stamp).
  split; [done|]. exists rows. do 4 (split; [done|]). rewrite Hw7, <- Hw5. exact Haud.
Qed.

(** ** Disconnecting *)
Definition disconnected (c : Principal) (id : string) (row : db_SourceConnection) (d d' : DB) : Prop :=
  lookup_by sc_ID id (source_connections d) = Some row ∧
  allows c ActionSourceDisconnect (source_resource (sc_WorkspaceID row)) d ∧
  (∀ s, s ∈ services d → sv_ConnectionID s ≠ Some id) ∧
  audited "source.disconnect" "source_connection" id (sc_WorkspaceID row) (p_UserID c)
    (set_source_connections (where_ (λ r, negb (String.eqb (sc_ID r) id)) (source_connections d)) d) d'.

Lemma wp_revoke conn (Q : go_error + unit → World → Prop) w :
  (∀ w', w_db w' = w_db w → Q (inr tt) w') → wp (revoke_at_provider conn) Q w.
Proof.
  intros Ha. unfold revoke_at_provider. destruct (String.eqb _ _); [|by apply wp_ret, Ha].
  wp_step. wp_step. apply wp_openToken; [intros; by wp_step; apply Ha|intros; by wp_step; apply Ha|].
  intros row plain w1 Hw1 _ _ _. destruct (Registry_Get _) as [p|]; [|by wp_step; apply Ha].
  wp_step. wp_step. apply wp_provider_call; intros; wp_step; apply Ha; congruence.
Qed.

Lemma wp_DisconnectConnection c id (Q : go_error + unit → World → Prop) w :
  (∀ e w', w_db w' = w_db w → Q (inl e) w') →
  (∀ row w', disconnected c id row (w_db w) (w_db w') → Q (inr tt) w') →
  wp (DisconnectConnection c id) Q w.
Proof.
  intros He Ha. unfold DisconnectConnection. wp_step. apply wp_requireConnection; [done|]. intros row w1 Hw1 Hl.
  wp_step. apply wp_Authorize; [intros; apply He; congruence|]. intros w2 Hw2 Hal. rewrite Hw1 in Hal.
  wp_step. wp_step. unfold CountServicesByConnection. wp_step; [apply He; congruence|].
  wp_step. wp_step; [|apply He; congruence]. wp_step. apply wp_revoke. intros w4 Hw4.
  wp_step. wp_step; [apply He; congruence|]. wp_step. unfold DeleteConnectionByID. apply wp_exec_opt; [done|by intros; apply wp_fail|].
  intros stamp did w5 Hdel. unfold sql_DeleteConnectionByID in Hdel. destruct (has_key sc_ID id _); [|done].
  destruct (existsb _ (services _)) eqn:Hex; [done|]. injection Hdel as <- Hdel.
  apply wp_audit_Record; [done|]. intros w6 Haud w7 Hw7. apply (Ha row). world_eq.
  split; [done|]. split; [done|]. split; [|by rewrite Hdel].
  intros s Hs Hc. apply opt_eqb_true in Hc. pose proof (proj1 (existsb_false _ _) Hex s Hs) as Hn. simpl in Hn. by rewrite Hc in Hn.
Qed.
End Rules.
