(* ===== verification/GitHubApp.v ===== *)
(** * GitHubApp: the credentials of the server-wide GitHub App

    [internal/githubapp]: the environment or the sealed singleton row, the cache of the
    resolved credentials, the registration through GitHub's manifest flow.  The cache is a
    field of the process: a resolver takes it and returns it.  The exchange of the manifest
    code at GitHub is the class [ManifestConverter]. *)
From S2P Require Import Prelude.
From S2P Require Import GoStrings.
From S2P Require Import GoUrl.
From S2P Require Import Json.
From S2P Require Import Sha256.
From S2P Require Import Problem.
From S2P Require Import Schema.
From S2P Require Import Platform.
From S2P Require Import Authz.

(** ** Data (githubapp.go, store.go) *)
Record Credentials := mk_Credentials {
  cr_AppID : string;
  cr_Slug : string;
  cr_PrivateKeyPEM : string;
  cr_WebhookSecret : string;
  cr_ClientID : string;
  cr_ClientSecret : string;
  cr_Configured : bool;
  cr_Source : string;
}.
Record EnvConfig := mk_EnvConfig {
  ec_AppID : string; ec_PrivateKeyPEM : string; ec_Slug : string; ec_WebhookSecret : string;
}.
Definition env_configured (e : EnvConfig) : bool :=
  negb (String.eqb (ec_AppID e) "") && negb (String.eqb (ec_PrivateKeyPEM e) "").

Record ConfigWrite := mk_ConfigWrite {
  cw_AppID : string; cw_AppSlug : string; cw_ClientID : string;
  cw_SealedPrivateKey : list Z; cw_SealedWebhookSecret : list Z; cw_SealedClientSecret : list Z;
  cw_CreatedBy : string;
}.
Record StoredConfig := mk_StoredConfig {
  sg_AppID : string; sg_AppSlug : string; sg_ClientID : string;
  sg_SealedPrivateKey : list Z; sg_SealedWebhookSecret : list Z; sg_SealedClientSecret : list Z;
}.
Record BeginRegistrationInput := mk_BeginRegistrationInput { bg_WorkspaceID : string; bg_Org : string }.
Record BeginRegistrationResult := mk_BeginRegistrationResult {
  br_ManifestJSON : string; br_FormAction : string; br_State : string;
}.
Record CompleteRegistrationInput := mk_CompleteRegistrationInput {
  cp_Code : string; cp_State : string; cp_CookieState : string;
}.
Record CompleteRegistrationResult := mk_CompleteRegistrationResult { cx_Slug : string; cx_AppID : string }.
Record regState := mk_regState { rg_WorkspaceID : string; rg_UserID : string; rg_Nonce : string; rg_ExpiresAt : Z }.

(** What GitHub answers to the manifest code. *)
Record ManifestConversion := mk_ManifestConversion {
  mc_AppID : Z; mc_Slug : string; mc_PrivateKeyPEM : string; mc_WebhookSecret : string;
  mc_ClientID : string; mc_ClientSecret : string;
}.
Class ManifestConverter := { ConvertManifest : nat → string → go_error + ManifestConversion }.

(** ** The statements *)
Definition ga_fresh (w : ConfigWrite) (createdBy : option string) (now : Z) : db_GithubAppConfig :=
  mk_ga true (cw_AppID w) (cw_AppSlug w) (cw_ClientID w) (cw_SealedPrivateKey w) (cw_SealedWebhookSecret w)
    (cw_SealedClientSecret w) createdBy now now.
(** ON CONFLICT (singleton) DO UPDATE: everything but the creation time is replaced. *)
Definition ga_replace (w : ConfigWrite) (createdBy : option string) (now : Z) (r : db_GithubAppConfig) : db_GithubAppConfig :=
  mk_ga (ga_Singleton r) (cw_AppID w) (cw_AppSlug w) (cw_ClientID w) (cw_SealedPrivateKey w) (cw_SealedWebhookSecret w)
    (cw_SealedClientSecret w) createdBy (ga_CreatedAt r) now.
Definition github_app_checks (w : ConfigWrite) (createdBy : option string) (d : DB) : bool :=
  (Z.of_nat (length (cw_SealedPrivateKey w)) <=? 16384) && (Z.of_nat (length (cw_SealedWebhookSecret w)) <=? 1024) &&
  match createdBy with None => true | Some u => has_key us_ID u (users d) end.
Definition sql_UpsertGitHubAppConfig (w : ConfigWrite) (createdBy : option string) (st : Stamp) (d : DB) : go_error + (unit * DB) :=
  if github_app_checks w createdBy d then
    inr (tt, set_github_app_config
               (if existsb ga_Singleton (github_app_config d)
                then update_where ga_Singleton (ga_replace w createdBy (st_now st)) (github_app_config d)
                else github_app_config d ++ [ga_fresh w createdBy (st_now st)]) d)
  else inl (ErrConstraint "github_app_config").
Definition sql_GetSealedGitHubAppConfig (d : DB) : option StoredConfig :=
  (λ r, mk_StoredConfig (ga_AppID r) (ga_AppSlug r) (ga_ClientID r) (ga_SealedPrivateKey r)
          (ga_SealedWebhookSecret r) (ga_SealedClientSecret r)) <$> List.find ga_Singleton (github_app_config d).
Definition sql_DeleteGitHubAppConfig (st : Stamp) (d : DB) : go_error + (unit * DB) :=
  inr (tt, set_github_app_config (where_ (λ r, negb (ga_Singleton r)) (github_app_config d)) d).

Section Store.
Context {E : Env}.
Definition UpsertConfig (w : ConfigWrite) : M unit :=
  let createdBy := if String.eqb (cw_CreatedBy w) "" then None else Some (cw_CreatedBy w) in
  db_exec (sql_UpsertGitHubAppConfig w createdBy).
Definition GetSealedConfig : M (option StoredConfig) := ok_or_norows (db_query_row sql_GetSealedGitHubAppConfig).
Definition DeleteConfig : M unit := db_exec sql_DeleteGitHubAppConfig.
End Store.

(** ** The manifest (githubapp.go) *)
Definition TrimRight_slash (s : string) : string := str_of (rev (drop_while (Ascii.eqb "/") (rev (bytes_of s)))).
Definition json_text (s : string) : bytes := json_string (bytes_of s).
(** The keys of a map are written in order. *)
Definition manifest_fields (baseURL webhookURL : string) : list (string * bytes) :=
  let base := TrimRight_slash baseURL in
  [("url", json_text base);
   ("hook_attributes", marshal_struct [("url", json_text webhookURL)]);
   ("redirect_url", json_text (base +:+ "/api/github/app/manifest/callback"));
   ("setup_url", json_text (base +:+ "/api/github/app/setup"));
   ("setup_on_update", bytes_of "true");
   ("public", bytes_of "false");
   ("default_events", bytes_of "[" ++ json_text "pull_request" ++ bytes_of "]");
   ("default_permissions", marshal_struct [("contents", json_text "read"); ("metadata", json_text "read");
                                           ("pull_requests", json_text "read")])].
Definition buildManifest (baseURL webhookURL : string) : string := str_of (marshal_struct (manifest_fields baseURL webhookURL)).

(** ** The registration state *)
Definition stateTTL : Z := 600 * time_Second.
Definition marshal_regState (s : regState) : string :=
  str_of (marshal_struct [("w", json_text (rg_WorkspaceID s)); ("u", json_text (rg_UserID s));
                          ("n", json_text (rg_Nonce s)); ("e", json_int (rg_ExpiresAt s))]).
Definition unmarshal_regState (text : string) : option regState :=
  ms ← unmarshal_struct (bytes_of text);
  w ← assign_field string_value "" "w" ms;
  u ← assign_field string_value "" "u" ms;
  n ← assign_field string_value "" "n" ms;
  e ← assign_field (int_value 64) 0 "e" ms;
  Some (mk_regState w u n e).

Definition invalid_state : go_error := InvalidInput "invalid registration state; please try again" [].
Definition openState {E : Env} (cookie : string) : go_error + regState :=
  if String.eqb (TrimSpace cookie) "" then inl (InvalidInput "missing registration state; please try again" [])
  else match open_cookie cookie with
       | None => inl invalid_state
       | Some plain => match unmarshal_regState plain with Some st => inr st | None => inl invalid_state end
       end.

Definition mapGitHubErr (e : go_error) : go_error := Internalf e "register github app" [].

(** ** The service *)
Definition app_resource (workspaceID : string) : Resource := mk_Resource "github_app" workspaceID "".
Definition env_refusal : go_error :=
  InvalidInput "the GitHub App is configured via environment variables; unset GITHUB_APP_* to register it from the dashboard" [].

Section Service.
Context {E : Env} {A : Authorizer} {S : Sealer} {R : Entropy} {C : ManifestConverter}.
Context (env : EnvConfig) (baseURL webhookURL : string).

Definition env_credentials : Credentials :=
  mk_Credentials (ec_AppID env) (ec_Slug env) (ec_PrivateKeyPEM env) (ec_WebhookSecret env) "" "" true "env".
Definition not_configured : Credentials := mk_Credentials "" "" "" "" "" "" false "".

(** The stored row, opened. *)
Definition open_stored (s : StoredConfig) : M Credentials :=
  pem ← wrap "open github app key" (of_sum (box_Open (sg_SealedPrivateKey s)));
  secret ← wrap "open github webhook secret" (of_sum (box_Open (sg_SealedWebhookSecret s)));
  clientSecret ← match sg_SealedClientSecret s with
                 | [] => mret ""
                 | sealed => wrap "open github client secret" (of_sum (box_Open sealed))
                 end;
  mret (mk_Credentials (sg_AppID s) (sg_AppSlug s) pem secret (sg_ClientID s) clientSecret true "stored").

(** [Current] when the cache is empty. *)
Definition resolve : M Credentials :=
  if env_configured env then mret env_credentials
  else
    stored ← wrap "load github app config" GetSealedConfig;
    match stored with
    | None => mret not_configured
    | Some s => open_stored s
    end.

Definition Cache : Type := option Credentials.
Definition clearCache (_ : Cache) : Cache := None.

Definition Current (cached : Cache) : M (Credentials * Cache) :=
  match cached with
  | Some c => mret (c, cached)
  | None => c ← resolve; mret (c, Some c)
  end.

(** The resolvers: an error means "not configured", and leaves the cache alone. *)
Definition AppCredentials (cached : Cache) : M (option (string * string) * Cache) :=
  r ← try (Current cached);
  mret match r with
       | inl _ => (None, cached)
       | inr (c, cached) => (if cr_Configured c then Some (cr_AppID c, cr_PrivateKeyPEM c) else None, cached)
       end.
Definition WebhookSecret (cached : Cache) : M (string * Cache) :=
  r ← try (Current cached);
  mret match r with
       | inl _ => ("", cached)
       | inr (c, cached) => (cr_WebhookSecret c, cached)
       end.
Definition AppConfig (cached : Cache) : M (string * string * bool * Cache) :=
  r ← try (Current cached);
  mret match r with
       | inl _ => ("", "", false, cached)
       | inr (c, cached) => (cr_AppID c, cr_Slug c, cr_Configured c, cached)
       end.
Definition InstallURL (cached : Cache) (state : string) : M (option string * Cache) :=
  r ← AppConfig cached;
  let '(_, slug, configured, cached) := r in
  mret (if negb configured || String.eqb slug "" then None
        else Some ("https://github.com/apps/" +:+ slug +:+ "/installations/new?state=" +:+ QueryEscape state), cached).

Definition newNonce : M string :=
  b ← port (λ k, rand_Read k 16);
  mret (hex_encode b).

Definition BeginRegistration (caller : Principal) (i : BeginRegistrationInput) : M BeginRegistrationResult :=
  _ ← require (id_Parse (bg_WorkspaceID i)) (InvalidInput "a valid workspace_id is required" []);
  _ ← Authorize caller ActionGitHubAppRegister (app_resource (bg_WorkspaceID i));
  _ ← require (negb (env_configured env)) env_refusal;
  let manifestJSON := buildManifest baseURL webhookURL in
  nonce ← wrap "begin registration" newNonce;
  now ← time_now;
  let payload := marshal_regState (mk_regState (bg_WorkspaceID i) (p_UserID caller) nonce (Unix (now + stateTTL))) in
  sealed ← wrap "seal registration state" (port (λ k, seal k payload));
  let org := TrimSpace (bg_Org i) in
  let formAction :=
    if String.eqb org "" then "https://github.com/settings/apps/new?state=" +:+ QueryEscape nonce
    else "https://github.com/organizations/" +:+ PathEscape org +:+ "/settings/apps/new?state=" +:+ QueryEscape nonce in
  mret (mk_BeginRegistrationResult manifestJSON formAction (str_of (b64_encode sealed))).

(** From the code to the sealed row: everything before the transaction. *)
Definition check_registration (caller : Principal) (i : CompleteRegistrationInput) : M regState :=
  _ ← require (negb (String.eqb (TrimSpace (cp_Code i)) "")) (InvalidInput "missing manifest code" []);
  st ← of_sum (openState (cp_CookieState i));
  _ ← require (negb (String.eqb (cp_State i) "" || negb (String.eqb (rg_Nonce st) (cp_State i))))
        (InvalidInput "registration state mismatch; please try again" []);
  now ← time_now;
  _ ← require (negb (rg_ExpiresAt st <? Unix now)) (InvalidInput "the registration request expired; please try again" []);
  _ ← require (negb (negb (IsAuthenticated caller) || negb (String.eqb (p_UserID caller) (rg_UserID st))))
        (PermissionDenied "this registration was started by a different session" []);
  _ ← Authorize caller ActionGitHubAppRegister (app_resource (rg_WorkspaceID st));
  _ ← require (negb (env_configured env)) env_refusal;
  mret st.

(** The new App, sealed. *)
Definition seal_conversion (conv : ManifestConversion) (createdBy : string) : M ConfigWrite :=
  key ← wrap "seal app key" (port (λ k, seal k (mc_PrivateKeyPEM conv)));
  secret ← wrap "seal webhook secret" (port (λ k, seal k (mc_WebhookSecret conv)));
  client ← wrap "seal client secret" (port (λ k, seal k (mc_ClientSecret conv)));
  mret (mk_ConfigWrite (Itoa (mc_AppID conv)) (mc_Slug conv) (mc_ClientID conv) key secret client createdBy).

(** The cache is cleared after the commit. *)
Definition CompleteRegistration (caller : Principal) (i : CompleteRegistrationInput) (cached : Cache)
    : M (CompleteRegistrationResult * Cache) :=
  st ← check_registration caller i;
  conv ← on_err mapGitHubErr (port (λ k, ConvertManifest k (cp_Code i)));
  w ← seal_conversion conv (p_UserID caller);
  _ ← wrap "store github app" (within_tx
        (_ ← UpsertConfig w;
         audit_Record "github_app.register" "github_app" (cw_AppID w) (rg_WorkspaceID st) (p_UserID caller)));
  mret (mk_CompleteRegistrationResult (mc_Slug conv) (cw_AppID w), clearCache cached).
End Service.
