(* ===== verification/Webhooks.v ===== *)
(** * Webhooks: deliveries of GitHub become previews

    [internal/webhooks] and the endpoint of [internal/app/github_webhook.go]: the signature
    over the raw body, the payload, the workspace of the installation, the services of the
    repository, and a preview created or torn down for each.  The deployments module is the
    class [PreviewPort]; [deployments_previews] is its implementation. *)
From S2P Require Import Prelude.
From S2P Require Import GoStrings.
From S2P Require Import Json.
From S2P Require Import Sha256.
From S2P Require Import Problem.
From S2P Require Import Schema.
From S2P Require Import Platform.
From S2P Require Import Authz.
From S2P Require Import DeployNames.
From S2P Require Import DeployStore.
From S2P Require Import Deployments.
From S2P Require Import DeploySpec.
From S2P Require Import DeployHandlers.
From S2P Require Import GitHubApp.

(** ** Data *)
Definition ActionOpened : string := "opened".
Definition ActionSynchronize : string := "synchronize".
Definition ActionReopened : string := "reopened".
Definition ActionClosed : string := "closed".

Record PullRequestEvent := mk_PullRequestEvent {
  pe_Action : string;
  pe_InstallationID : string;
  pe_Owner : string;
  pe_Repo : string;
  pe_PRNumber : Z;
  pe_Merged : bool;
}.
Record HandleResult := mk_HandleResult {
  hr_Action : string;
  hr_MatchedServices : Z;
  hr_Created : Z;
  hr_TornDown : Z;
  hr_Ignored : string;
}.

(** ** The statements *)
Definition is_app_installation (installationID : string) (r : db_SourceConnection) : bool :=
  String.eqb (sc_Kind r) "app" && match sc_InstallationID r with Some i => String.eqb i installationID | None => false end.
Definition sql_GetWorkspaceByInstallation (installationID : string) (d : DB) : option string :=
  sc_WorkspaceID <$> List.find (is_app_installation installationID) (source_connections d).
Definition is_repo_service (workspaceID owner repo : string) (s : db_Service) : bool :=
  String.eqb (sv_WorkspaceID s) workspaceID && String.eqb (sv_SourceKind s) "git" &&
  String.eqb (ToLower (sv_Owner s)) (ToLower owner) && String.eqb (ToLower (sv_Repo s)) (ToLower repo).
Definition sql_ListServiceIDsForRepo (workspaceID owner repo : string) (d : DB) : list string :=
  map sv_ID (where_ (is_repo_service workspaceID owner repo) (services d)).

Section Store.
Context {E : Env}.
Definition WorkspaceForInstallation (installationID : string) : M (option string) :=
  ok_or_norows (db_query_row (sql_GetWorkspaceByInstallation installationID)).
Definition ServicesForRepo (workspaceID owner repo : string) : M (list string) :=
  db_query (sql_ListServiceIDsForRepo workspaceID owner repo).
End Store.

(** ** What the module needs of deployments *)

(** One preview of a service for a pull request was queued, and the audit row written. *)
Definition preview_created (sid : string) (pr : Z) (d d' : DB) : Prop :=
  ∃ row au, d' = set_audit_events (audit_events d ++ [au]) (set_deployments (deployments d ++ [row]) d) ∧
    dp_ServiceID row = sid ∧ dp_Kind row = KindPreview ∧ dp_PrNumber row = pr ∧
    dp_RouteKey row = previewRouteKey sid pr "" ∧ dp_Status row = StatusQueued ∧ 0 < pr.
(** One teardown of the preview of that pull request was queued, and the audit row written. *)
Definition teardown_created (sid : string) (pr : Z) (d d' : DB) : Prop :=
  ∃ dep t au, d' = set_audit_events (audit_events d ++ [au]) (set_teardown_jobs (teardown_jobs d ++ [t]) d) ∧
    dep ∈ deployments d ∧ dp_ServiceID dep = sid ∧ dp_Kind dep = KindPreview ∧
    dp_RouteKey dep = previewRouteKey sid pr "" ∧ dp_Status dep ≠ StatusTornDown ∧
    td_DeploymentID t = dp_ID dep ∧ td_RouteKey t = previewRouteKey sid pr "" ∧ td_ServerID t = dp_ServerID dep ∧
    td_Status t = TeardownStatusQueued.
(** No preview of the pull request is left. *)
Definition no_active_preview (sid : string) (pr : Z) (d : DB) : Prop :=
  ∀ dep, dep ∈ deployments d → dp_ServiceID dep = sid → dp_Kind dep = KindPreview →
    dp_RouteKey dep = previewRouteKey sid pr "" → dp_Status dep = StatusTornDown.

Class PreviewPort {E : Env} := {
  port_CreatePreviewForPR : string → Z → M string;
  port_TeardownPreviewForPR : string → Z → M unit;
  wp_port_Create : ∀ sid pr (Q : go_error + string → World → Prop) w,
    (∀ e w', w_db w' = w_db w → Q (inl e) w') →
    (∀ i w', preview_created sid pr (w_db w) (w_db w') → Q (inr i) w') →
    wp (port_CreatePreviewForPR sid pr) Q w;
  wp_port_Teardown : ∀ sid pr (Q : go_error + unit → World → Prop) w,
    (∀ e w', w_db w' = w_db w → Q (inl e) w') →
    (∀ w', w_db w' = w_db w → no_active_preview sid pr (w_db w) → Q (inr tt) w') →
    (∀ w', teardown_created sid pr (w_db w) (w_db w') → Q (inr tt) w') →
    wp (port_TeardownPreviewForPR sid pr) Q w;
}.

(** ** The service *)
Definition hr_ignore (r : HandleResult) (why : string) : HandleResult :=
  mk_HandleResult (hr_Action r) (hr_MatchedServices r) (hr_Created r) (hr_TornDown r) why.
Definition hr_matched (r : HandleResult) (n : Z) : HandleResult :=
  mk_HandleResult (hr_Action r) n (hr_Created r) (hr_TornDown r) (hr_Ignored r).
Definition hr_created (r : HandleResult) : HandleResult :=
  mk_HandleResult (hr_Action r) (hr_MatchedServices r) (hr_Created r + 1) (hr_TornDown r) (hr_Ignored r).
Definition hr_torndown (r : HandleResult) : HandleResult :=
  mk_HandleResult (hr_Action r) (hr_MatchedServices r) (hr_Created r) (hr_TornDown r + 1) (hr_Ignored r).

(** The switch over the action: create, tear down, or neither. *)
Definition action_creates (a : string) : option bool :=
  if String.eqb a ActionOpened || String.eqb a ActionSynchronize || String.eqb a ActionReopened then Some true
  else if String.eqb a ActionClosed then Some false else None.
Definition incomplete (e : PullRequestEvent) : bool :=
  String.eqb (pe_InstallationID e) "" || String.eqb (pe_Owner e) "" || String.eqb (pe_Repo e) "" || (pe_PRNumber e <=? 0).

Section Service.
Context {E : Env} {P : PreviewPort}.

(** One iteration: an error of a service is logged and the loop goes on. *)
Definition handle_service (create : bool) (pr : Z) (res : HandleResult) (serviceID : string) : M HandleResult :=
  if create then
    r ← try (port_CreatePreviewForPR serviceID pr);
    mret (match r with inl _ => res | inr _ => hr_created res end)
  else
    r ← try (port_TeardownPreviewForPR serviceID pr);
    mret (match r with inl _ => res | inr _ => hr_torndown res end).

Definition HandlePullRequest (e : PullRequestEvent) : M HandleResult :=
  let res := mk_HandleResult (pe_Action e) 0 0 0 "" in
  match action_creates (pe_Action e) with
  | None => mret (hr_ignore res "unhandled action")
  | Some create =>
      if incomplete e then mret (hr_ignore res "incomplete event")
      else
        ws ← on_err (λ e, Errorf "resolve installation: %w" [] (Some e)) (WorkspaceForInstallation (pe_InstallationID e));
        match ws with
        | None => mret (hr_ignore res "unknown installation")
        | Some workspaceID =>
            ids ← on_err (λ e, Errorf "resolve services: %w" [] (Some e)) (ServicesForRepo workspaceID (pe_Owner e) (pe_Repo e));
            match ids with
            | [] => mret (hr_ignore res "no matching service")
            | _ => fold_each ids (handle_service create (pe_PRNumber e)) (hr_matched res (Z.of_nat (length ids)))
            end
        end
  end.
End Service.

(** ** The endpoint (github_webhook.go) *)
Definition maxWebhookBytes : Z := 5 * 2 ^ 20.
Definition StatusOK : Z := 200.
Definition StatusNoContent : Z := 204.
Definition StatusBadRequest : Z := 400.
Definition StatusUnauthorized : Z := 401.
Definition StatusInternalServerError : Z := 500.

(** [githubWebhookPayload]; a nested struct is the members given to it. *)
Record githubWebhookPayload := mk_githubWebhookPayload {
  wp_Action : string; wp_Number : Z; wp_InstallationID : Z; wp_RepositoryName : string; wp_OwnerLogin : string; wp_Merged : bool;
}.
Definition unmarshal_payload (body : bytes) : option githubWebhookPayload :=
  ms ← unmarshal_struct body;
  action ← assign_field string_value "" "action" ms;
  number ← assign_field (int_value 32) 0 "number" ms;
  installation ← assign_field object_value [] "installation" ms;
  id ← assign_field (int_value 64) 0 "id" installation;
  repository ← assign_field object_value [] "repository" ms;
  name ← assign_field string_value "" "name" repository;
  owner ← assign_field object_value [] "owner" repository;
  login ← assign_field string_value "" "login" owner;
  pull ← assign_field object_value [] "pull_request" ms;
  merged ← assign_field bool_value false "merged" pull;
  Some (mk_githubWebhookPayload action number id name login merged).

Definition event_of (p : githubWebhookPayload) : PullRequestEvent :=
  mk_PullRequestEvent (wp_Action p) (if 0 <? wp_InstallationID p then Itoa (wp_InstallationID p) else "")
    (wp_OwnerLogin p) (wp_RepositoryName p) (wp_Number p) (wp_Merged p).

(** A delivery: the body as the connection gives it, or its failure, and the two headers. *)
Record Delivery := mk_Delivery { dl_Body : go_error + bytes; dl_Signature : string; dl_Event : string }.

(** [io.LimitReader] *)
Definition limited (body : bytes) : bytes := take (Z.to_nat maxWebhookBytes) body.

Section Endpoint.
Context {E : Env} {P : PreviewPort} (env : EnvConfig).

(** [githubWebhookHandler]: the status written, and the cache of credentials. *)
Definition githubWebhookHandler (dl : Delivery) (cached : Cache) : M (Z * Cache) :=
  match dl_Body dl with
  | inl _ => mret (StatusBadRequest, cached)
  | inr raw =>
      let body := limited raw in
      s ← WebhookSecret env cached;
      let '(secret, cached) := s in
      if negb (VerifyWebhookSignature secret body (dl_Signature dl)) then mret (StatusUnauthorized, cached)
      else if String.eqb (dl_Event dl) "ping" then mret (StatusOK, cached)
      else if negb (String.eqb (dl_Event dl) "pull_request") then mret (StatusNoContent, cached)
      else
        match unmarshal_payload body with
        | None => mret (StatusBadRequest, cached)
        | Some p =>
            r ← try (HandlePullRequest (event_of p));
            mret (match r with inl _ => StatusInternalServerError | inr _ => StatusOK end, cached)
        end
  end.
End Endpoint.

(** ** The deployments module implements the port *)
Section Implementation.
Context {E : Env}.

Lemma pr_route_key sid pr ref : 0 < pr → previewRouteKey sid pr ref = previewRouteKey sid pr "".
Proof. intros H. unfold previewRouteKey, preview_suffix. by apply Z.ltb_lt in H as ->. Qed.

Lemma wp_deployments_Create sid pr (Q : go_error + string → World → Prop) w :
  (∀ e w', w_db w' = w_db w → Q (inl e) w') →
  (∀ i w', preview_created sid pr (w_db w) (w_db w') → Q (inr i) w') →
  wp (CreatePreviewForPR sid pr) Q w.
Proof.
  intros He Ha. apply wp_CreatePreviewForPR; [done|].
  intros srv svc row w' Hpr _ _ (Hf & Hcols & Hprn & _) (d1 & (_ & ->) & (au & Hw' & _)). apply Ha. rewrite Hw'.
  destruct Hf as (H1 & _ & _ & _ & _ & H2 & _). destruct Hcols as (H3 & _ & _ & H4).
  exists row, au. rewrite H4, H1, Hprn, pr_route_key by done. done.
Qed.

Lemma latest_active_preview sid rk d :
  match sql_GetLatestActivePreviewByRouteKey sid rk d with
  | Some r => r ∈ deployments d ∧ dp_ServiceID r = sid ∧ dp_RouteKey r = rk ∧ dp_Kind r = KindPreview ∧ dp_Status r ≠ StatusTornDown
  | None => ∀ r, r ∈ deployments d → dp_ServiceID r = sid → dp_Kind r = KindPreview → dp_RouteKey r = rk → dp_Status r = StatusTornDown
  end.
Proof.
  unfold sql_GetLatestActivePreviewByRouteKey, newest_first.
  destruct (order_by _ _) as [|r l] eqn:Hq.
  - apply order_by_nil in Hq. intros r Hr H1 H2 H3.
    destruct (String.eqb_spec (dp_Status r) StatusTornDown) as [|Hne]; [done|exfalso].
    assert (r ∈ where_ (λ r, String.eqb (dp_ServiceID r) sid && String.eqb (dp_RouteKey r) rk &&
      String.eqb (dp_Kind r) "preview" && negb (String.eqb (dp_Status r) "torndown")) (deployments d)) as Hin.
    { apply elem_of_where. split; [done|]. apply String.eqb_neq in Hne. change "torndown" with StatusTornDown.
      rewrite H1, H2, H3, !String.eqb_refl, Hne. done. }
    rewrite Hq in Hin. by apply elem_of_nil in Hin.
  - apply order_by_head_elem, elem_of_where in Hq as [Hin Hb]. propify. done.
Qed.

Lemma wp_deployments_Teardown sid pr (Q : go_error + unit → World → Prop) w :
  (∀ e w', w_db w' = w_db w → Q (inl e) w') →
  (∀ w', w_db w' = w_db w → no_active_preview sid pr (w_db w) → Q (inr tt) w') →
  (∀ w', teardown_created sid pr (w_db w) (w_db w') → Q (inr tt) w') →
  wp (TeardownPreviewForPR sid pr) Q w.
Proof.
  intros He Hn Ha. pose proof (latest_active_preview sid (previewRouteKey sid pr "") (w_db w)) as Hl.
  apply wp_TeardownPreviewForPR; [done| |].
  - intros w' Hw Hnone. apply Hn; [done|]. rewrite Hnone in Hl. intros dep H1 H2 H3 H4. by apply Hl.
  - intros dep t w' _ Hsome (d1 & Hrow & _ & -> & (au & Hw' & _)). apply Ha. rewrite Hw'. rewrite Hsome in Hl.
    destruct Hrow as (H1 & _ & H2 & _ & _ & _ & H3 & H4 & _). exists dep, t, au.
    destruct Hl as (Hl1 & Hl2 & Hl3 & Hl4 & Hl5). by rewrite H1, H2, H3, H4.
Qed.

#[export] Instance deployments_previews : PreviewPort := {|
  port_CreatePreviewForPR := CreatePreviewForPR;
  port_TeardownPreviewForPR := TeardownPreviewForPR;
  wp_port_Create := wp_deployments_Create;
  wp_port_Teardown := wp_deployments_Teardown;
|}.
End Implementation.
