(* ===== verification/WebhooksProps.v ===== *)
(** * WebhooksProps: what a delivery may do, and what it does

    The rules of [Webhooks] and [GitHubApp]'s resolvers, the effect of a delivery as a
    relation, and the theorems: only a signed delivery acts, and only on previews of the
    repository's services in the workspace of the installation. *)
From S2P Require Import Prelude.
From S2P Require Import GoStrings.
From S2P Require Import Json.
From S2P Require Import Sha256.
From S2P Require Import Problem.
From S2P Require Import Schema.
From S2P Require Import Platform.
From S2P Require Import Authz.
From S2P Require Import DeployNames.
From S2P Require Import DeployStore.
From S2P Require Import GitHubApp.
From S2P Require Import Webhooks.

(** ** The secret a resolver returns *)
Section Secret.
Context {E : Env} (env : EnvConfig).

(** Credentials the database or the environment gives. *)
Definition resolved_from (d : DB) (c : Credentials) : Prop :=
  if env_configured env then c = env_credentials env
  else match sql_GetSealedGitHubAppConfig d with
       | None => c = not_configured
       | Some s =>
           cr_AppID c = sg_AppID s ∧ cr_Slug c = sg_AppSlug s ∧ cr_ClientID c = sg_ClientID s ∧
           open_sealed (sg_SealedPrivateKey s) = Some (cr_PrivateKeyPEM c) ∧
           open_sealed (sg_SealedWebhookSecret s) = Some (cr_WebhookSecret c) ∧
           (if decide (sg_SealedClientSecret s = []) then cr_ClientSecret c = ""
            else open_sealed (sg_SealedClientSecret s) = Some (cr_ClientSecret c)) ∧
           cr_Configured c = true ∧ cr_Source c = "stored"
       end.

Lemma wp_box_Open sealed op (Q : go_error + string → World → Prop) w :
  (∀ e, Q (inl e) w) → (∀ p, open_sealed sealed = Some p → Q (inr p) w) →
  wp (wrap op (of_sum (box_Open sealed))) Q w.
Proof.
  intros He Ha. unfold box_Open. do 2 wp_step. destruct (open_sealed sealed) as [p|] eqn:Ho; [by apply Ha|apply He].
Qed.

Lemma wp_resolve (Q : go_error + Credentials → World → Prop) w :
  (∀ e w', w_db w' = w_db w → Q (inl e) w') →
  (∀ c w', w_db w' = w_db w → resolved_from (w_db w) c → Q (inr c) w') →
  wp (resolve env) Q w.
Proof.
  intros He Ha. unfold resolve, resolved_from, GetSealedConfig in *. destruct (env_configured env); [by apply wp_ret, Ha|].
  do 3 wp_step; [by apply He|]. destruct (sql_GetSealedGitHubAppConfig (w_db w)) as [s|]; [|by apply wp_ret, Ha].
  unfold open_stored. wp_step. apply wp_box_Open; [by intros; apply He|]. intros pem Hp.
  wp_step. apply wp_box_Open; [by intros; apply He|]. intros secret Hs. wp_step.
  destruct (sg_SealedClientSecret s) as [|b l] eqn:Hc.
  - do 2 wp_step. apply Ha; [done|]. by rewrite decide_True.
  - apply wp_box_Open; [by intros; apply He|]. intros client Hcl. wp_step. apply Ha; [done|]. by rewrite decide_False.
Qed.

(** The credentials in force: the cached ones, or those resolved now. *)
Definition in_force (cached : Cache) (d : DB) (c : Credentials) : Prop :=
  match cached with Some c0 => c = c0 | None => resolved_from d c end.

Lemma wp_Current cached (Q : go_error + (Credentials * Cache) → World → Prop) w :
  (∀ e w', w_db w' = w_db w → Q (inl e) w') →
  (∀ c w', w_db w' = w_db w → in_force cached (w_db w) c → Q (inr (c, Some c)) w') →
  wp (Current env cached) Q w.
Proof.
  intros He Ha. unfold Current, in_force in *. destruct cached as [c|]; [by apply wp_ret, Ha|].
  wp_step. apply wp_resolve; [done|]. intros c w' Hw Hr. by apply wp_ret, Ha.
Qed.

Lemma wp_WebhookSecret cached (Q : go_error + (string * Cache) → World → Prop) w :
  (∀ w', w_db w' = w_db w → Q (inr ("", cached)) w') →
  (∀ c w', w_db w' = w_db w → in_force cached (w_db w) c → Q (inr (cr_WebhookSecret c, Some c)) w') →
  wp (WebhookSecret env cached) Q w.
Proof.
  intros He Ha. unfold WebhookSecret. do 2 wp_step. apply wp_Current.
  - intros e w' Hw. by apply wp_ret, He.
  - intros c w' Hw Hc. by apply wp_ret, Ha.
Qed.
End Secret.

(** ** The effect of a delivery *)
Definition acted (create : bool) (sid : string) (pr : Z) (d d' : DB) : Prop :=
  if create then preview_created sid pr d d'
  else teardown_created sid pr d d' ∨ (d' = d ∧ no_active_preview sid pr d).

(** The services in order; each was acted on, or failed and changed nothing.  [done] are
    those acted on. *)
Inductive deliveries (create : bool) (pr : Z) : list string → list string → DB → DB → Prop :=
  | dl_nil d : deliveries create pr [] [] d d
  | dl_ok sid l done d d1 d2 : acted create sid pr d d1 → deliveries create pr l done d1 d2 →
      deliveries create pr (sid :: l) (sid :: done) d d2
  | dl_failed sid l done d d2 : deliveries create pr l done d d2 → deliveries create pr (sid :: l) done d d2.

(** Rows were added, and nothing else. *)
Definition added (rows : list db_Deployment) (ts : list db_TeardownJob) (aus : list db_AuditEvent) (d : DB) : DB :=
  set_audit_events (audit_events d ++ aus)
    (set_teardown_jobs (teardown_jobs d ++ ts) (set_deployments (deployments d ++ rows) d)).
Lemma added_nil d : added [] [] [] d = d.
Proof. unfold added. rewrite !app_nil_r. by destruct d. Qed.
Lemma added_app r1 t1 a1 r2 t2 a2 d :
  added r2 t2 a2 (added r1 t1 a1 d) = added (r1 ++ r2) (t1 ++ t2) (a1 ++ a2) d.
Proof. unfold added. destruct d; simpl. by rewrite !app_assoc. Qed.

Definition preview_of (ids : list string) (pr : Z) (r : db_Deployment) : Prop :=
  dp_ServiceID r ∈ ids ∧ dp_Kind r = KindPreview ∧ dp_PrNumber r = pr ∧
  dp_RouteKey r = previewRouteKey (dp_ServiceID r) pr "" ∧ dp_Status r = StatusQueued.
Definition teardown_of (ids : list string) (pr : Z) (d : DB) (t : db_TeardownJob) : Prop :=
  ∃ dep, dep ∈ deployments d ∧ dp_ServiceID dep ∈ ids ∧ dp_Kind dep = KindPreview ∧ td_DeploymentID t = dp_ID dep ∧
    td_RouteKey t = dp_RouteKey dep ∧ dp_RouteKey dep = previewRouteKey (dp_ServiceID dep) pr "" ∧
    td_ServerID t = dp_ServerID dep ∧ td_Status t = TeardownStatusQueued.

Lemma preview_of_mono ids ids' pr r : (∀ i, i ∈ ids → i ∈ ids') → preview_of ids pr r → preview_of ids' pr r.
Proof. unfold preview_of. naive_solver. Qed.
Lemma teardown_of_mono ids ids' pr d t : (∀ i, i ∈ ids → i ∈ ids') → teardown_of ids pr d t → teardown_of ids' pr d t.
Proof. unfold teardown_of. naive_solver. Qed.

(** A preview of the pull request is left to tear down. *)
Definition active_preview (pr : Z) (d : DB) (sid : string) : bool :=
  existsb (λ dep, String.eqb (dp_ServiceID dep) sid && String.eqb (dp_Kind dep) KindPreview &&
    String.eqb (dp_RouteKey dep) (previewRouteKey sid pr "") && negb (String.eqb (dp_Status dep) StatusTornDown)) (deployments d).
Lemma active_preview_spec pr d sid : active_preview pr d sid = false ↔ no_active_preview sid pr d.
Proof.
  unfold active_preview, no_active_preview. rewrite <- not_true_iff_false, existsb_exists. split.
  - intros H dep Hin H1 H2 H3. destruct (String.eqb_spec (dp_Status dep) StatusTornDown) as [|Hne]; [done|].
    exfalso. apply H. exists dep. split; [by apply list_elem_of_In|]. apply String.eqb_neq in Hne.
    by rewrite H1, H2, H3, !String.eqb_refl, Hne.
  - intros H (dep & Hin & Hb). propify. apply list_elem_of_In in Hin. naive_solver.
Qed.

(** What acting on [done] adds, exactly.  A creation adds one preview row per service, in
    order; a teardown adds one job per service that had a preview left, in order, and
    nothing for the others.  There is one audit row for each. *)
Definition account (create : bool) (pr : Z) (done : list string) (d d' : DB) : Prop :=
  ∃ rows ts aus, d' = added rows ts aus d ∧ length aus = (length rows + length ts)%nat ∧
    Forall (preview_of done pr) rows ∧ Forall (teardown_of done pr d) ts ∧
    if create then ts = [] ∧ map dp_ServiceID rows = done
    else rows = [] ∧ map td_RouteKey ts = map (λ i, previewRouteKey i pr "") (where_ (active_preview pr d) done).

Lemma deliveries_account create pr ids done d d' : deliveries create pr ids done d d' → account create pr done d d'.
Proof.
  induction 1 as [d|sid l done d d1 d2 Hact _ IH|]; [|clear -Hact IH|done].
  { exists [], [], []. rewrite added_nil. by destruct create. }
  assert (∀ i, i ∈ done → i ∈ sid :: done) as Hin by (intros; by right).
  destruct IH as (rows & ts & aus & -> & Hlen & Hr & Ht & Hn), create; simpl in Hact.
  - destruct Hact as (row & au & -> & H1 & H2 & H3 & H4 & H5 & _). destruct Hn as [-> Hn].
    exists (row :: rows), [], (au :: aus). split_and!; [|simpl in *; lia| |done|done|simpl; by rewrite H1, Hn].
    + unfold added. simpl. rewrite <- !app_assoc. by destruct d.
    + apply Forall_cons. split; [|by eapply Forall_impl; [exact Hr|intros x; by apply preview_of_mono]].
      unfold preview_of. rewrite H1. split; [by left|done].
  - destruct Hn as [-> Hn]. destruct Hact as [(dep & t & au & -> & H1 & H2 & H3 & H4 & H5 & H6 & H7 & H8 & H9)|[-> Hno]].
    + exists [], (t :: ts), (au :: aus). split_and!; [|simpl in *; lia|done| |done|].
      * unfold added. simpl. rewrite <- !app_assoc, !app_nil_r. by destruct d.
      * apply Forall_cons. split.
        -- exists dep. rewrite H2, H4, H7. split; [done|]. split; [by left|done].
        -- eapply Forall_impl; [exact Ht|]. intros t' (dep' & Hd & Hl & Hrest). exists dep'.
           split; [done|]. split; [by right|done].
      * simpl. destruct (active_preview pr d sid) eqn:Ha; [simpl; by rewrite H7, Hn|].
        apply active_preview_spec in Ha. by destruct H5; apply (Ha dep).
    + exists [], ts, aus. split_and!; [done|done|done| |done|].
      * eapply Forall_impl; [exact Ht|]. intros x; by apply teardown_of_mono.
      * apply active_preview_spec in Hno. simpl. by rewrite Hno.
Qed.

(** The services acted on are among those of the delivery, in their order. *)
Lemma deliveries_sublist create pr ids done d d' : deliveries create pr ids done d d' → done `sublist_of` ids.
Proof. induction 1; by constructor. Qed.
Lemma sublist_all {A} (Q : A → Prop) (l k : list A) : l `sublist_of` k → Forall Q k → Forall Q l.
Proof. induction 1; intros Hk; [done| |]; apply Forall_cons in Hk as [Hx Hk]; [apply Forall_cons|]; auto. Qed.

Lemma acted_grows create sid pr d d' : acted create sid pr d d' →
  (∀ r, r ∈ deployments d → r ∈ deployments d') ∧ (∀ t, t ∈ teardown_jobs d → t ∈ teardown_jobs d').
Proof.
  destruct create; simpl; [intros (row & au & -> & _)|intros [(dep & t & au & -> & _)|[-> _]]]; simpl;
    (split; intros; try done; apply elem_of_app; by left).
Qed.
Lemma deliveries_grow create pr ids done d d' : deliveries create pr ids done d d' →
  (∀ r, r ∈ deployments d → r ∈ deployments d') ∧ (∀ t, t ∈ teardown_jobs d → t ∈ teardown_jobs d').
Proof.
  induction 1 as [d|sid l done d d1 d2 Hact _ IH|sid l done d d2 _ IH]; [done| |done].
  apply acted_grows in Hact as [H1 H2]. destruct IH as [H3 H4]. auto.
Qed.

(** ** The rules *)
Section Rules.
Context {E : Env} {P : PreviewPort}.

(** The call the loop makes for a service. *)
Definition call_service (create : bool) (pr : Z) (sid : string) : M unit :=
  if create then _ ← port_CreatePreviewForPR sid pr; mret tt else port_TeardownPreviewForPR sid pr.

(** The calls of a delivery, one after the other; [done] are the services whose call
    returned without an error. *)
Inductive calls (create : bool) (pr : Z) : list string → list string → World → World → Prop :=
  | calls_nil w : calls create pr [] [] w w
  | calls_ok sid l done w w1 w2 : call_service create pr sid w = (inr tt, w1) → calls create pr l done w1 w2 →
      calls create pr (sid :: l) (sid :: done) w w2
  | calls_failed sid l done e w w1 w2 : call_service create pr sid w = (inl e, w1) → calls create pr l done w1 w2 →
      calls create pr (sid :: l) done w w2.

Lemma call_acted create pr sid w r w1 : call_service create pr sid w = (r, w1) →
  match r with inl _ => w_db w1 = w_db w | inr _ => acted create sid pr (w_db w) (w_db w1) end.
Proof.
  intros H. use_wp H. unfold call_service, acted. destruct create.
  - wp_step. apply wp_port_Create; [by intros e w2 Hw <-|]. intros i w2 H. by apply wp_ret; intros <-.
  - apply wp_port_Teardown; [by intros e w2 Hw <-|intros w2 Hw Hn <-; by right|intros w2 H <-; by left].
Qed.

(** The calls at the level of the database. *)
Lemma calls_deliveries create pr ids done w w' : calls create pr ids done w w' →
  deliveries create pr ids done (w_db w) (w_db w').
Proof.
  induction 1 as [|sid l done w w1 w2 H%call_acted _ IH|sid l done e w w1 w2 H%call_acted _ IH]; [constructor|by econstructor|].
  apply dl_failed. by rewrite <- H.
Qed.

(** The counters after the services [done] were acted on. *)
Definition counted (create : bool) (done : list string) (r : HandleResult) : HandleResult :=
  mk_HandleResult (hr_Action r) (hr_MatchedServices r) (hr_Created r + (if create then Z.of_nat (length done) else 0))
    (hr_TornDown r + (if create then 0 else Z.of_nat (length done))) (hr_Ignored r).
Lemma counted_nil create r : counted create [] r = r.
Proof. unfold counted. destruct create, r; simpl; by rewrite !Z.add_0_r. Qed.
Lemma counted_cons create sid done r :
  counted create (sid :: done) r = counted create done (if create then hr_created r else hr_torndown r).
Proof. unfold counted. destruct create; simpl; f_equal; lia. Qed.

Lemma handle_service_run create pr res sid w :
  handle_service create pr res sid w =
  let '(r, w1) := call_service create pr sid w in
  (inr (match r with inl _ => res | inr _ => if create then hr_created res else hr_torndown res end), w1).
Proof.
  unfold handle_service, call_service, try, mbind, M_bind. destruct create.
  - by destruct (port_CreatePreviewForPR sid pr w) as [[e|i] w1].
  - by destruct (port_TeardownPreviewForPR sid pr w) as [[e|i] w1].
Qed.

Lemma wp_services create pr ids : ∀ res (Q : go_error + HandleResult → World → Prop) w,
  (∀ done w', calls create pr ids done w w' → Q (inr (counted create done res)) w') →
  wp (fold_each ids (handle_service create pr) res) Q w.
Proof.
  induction ids as [|sid ids IH]; intros res Q w HQ; simpl.
  - apply wp_ret. rewrite <- (counted_nil create res). apply HQ. constructor.
  - wp_step. unfold wp at 1. rewrite handle_service_run.
    destruct (call_service create pr sid w) as [[e|[]] w1] eqn:Hcall; simpl; apply IH; intros done w2 Hd.
    + apply HQ. by eapply calls_failed.
    + rewrite <- (counted_cons create sid). apply HQ. by eapply calls_ok.
Qed.

(** The services a delivery concerns: those of the repository in the workspace that
    connected the installation. *)
Definition concerned (e : PullRequestEvent) (d : DB) : option (list string) :=
  if incomplete e then None
  else ws ← sql_GetWorkspaceByInstallation (pe_InstallationID e) d;
       Some (sql_ListServiceIDsForRepo ws (pe_Owner e) (pe_Repo e) d).

Lemma wp_HandlePullRequest e (Q : go_error + HandleResult → World → Prop) w :
  (∀ err w', w_db w' = w_db w → Q (inl err) w') →
  (∀ why w', w_db w' = w_db w → why ≠ "" →
     (action_creates (pe_Action e) = None ∨ concerned e (w_db w) = None ∨ concerned e (w_db w) = Some []) →
     Q (inr (mk_HandleResult (pe_Action e) 0 0 0 why)) w') →
  (∀ create ids done w1 w', action_creates (pe_Action e) = Some create → concerned e (w_db w) = Some ids → ids ≠ [] →
     w_db w1 = w_db w → calls create (pe_PRNumber e) ids done w1 w' →
     Q (inr (counted create done (mk_HandleResult (pe_Action e) (Z.of_nat (length ids)) 0 0 ""))) w') →
  wp (HandlePullRequest e) Q w.
Proof.
  intros He Hi Ha. unfold HandlePullRequest, concerned, WorkspaceForInstallation, ServicesForRepo in *.
  destruct (action_creates (pe_Action e)) as [create|] eqn:Hact; [|apply wp_ret, Hi; by auto].
  destruct (incomplete e) eqn:Hinc; [apply wp_ret, Hi; by auto|].
  do 3 wp_step; [by apply He|]. destruct (sql_GetWorkspaceByInstallation _ _) as [ws|]; [|apply wp_ret, Hi; by auto].
  do 3 wp_step; [apply He; congruence|]. simpl in *. rewrite H in *.
  destruct (sql_ListServiceIDsForRepo ws _ _ (w_db w)) as [|sid ids]; [apply wp_ret, Hi; by auto|].
  apply wp_services. intros done w3 Hd. eapply (Ha create (sid :: ids) done); [..|exact Hd]; congruence.
Qed.

Context (env : EnvConfig).

(** The endpoint: nothing happens, or a signed delivery is handled. *)
Lemma wp_githubWebhookHandler dl cached (Q : go_error + (Z * Cache) → World → Prop) w :
  (∀ code cached' w', w_db w' = w_db w → Q (inr (code, cached')) w') →
  (∀ raw c p create ids done w', dl_Body dl = inr raw → in_force env cached (w_db w) c →
     signed_by (cr_WebhookSecret c) (limited raw) (dl_Signature dl) → dl_Event dl = "pull_request" →
     unmarshal_payload (limited raw) = Some p → action_creates (wp_Action p) = Some create →
     concerned (event_of p) (w_db w) = Some ids → deliveries create (wp_Number p) ids done (w_db w) (w_db w') →
     Q (inr (StatusOK, Some c)) w') →
  wp (githubWebhookHandler env dl cached) Q w.
Proof.
  intros Hs Ha. unfold githubWebhookHandler. destruct (dl_Body dl) as [|raw]; [by apply wp_ret, Hs|].
  wp_step. apply wp_WebhookSecret.
  { intros w1 Hw1. by apply wp_ret, Hs. }
  intros c w1 Hw1 Hc. destruct (VerifyWebhookSignature _ _ _) eqn:Hv; cbn [negb]; [|by apply wp_ret, Hs].
  apply verify_signed in Hv. destruct (String.eqb (dl_Event dl) "ping"); [by apply wp_ret, Hs|].
  destruct (String.eqb_spec (dl_Event dl) "pull_request") as [He|]; cbn [negb]; [|by apply wp_ret, Hs].
  destruct (unmarshal_payload (limited raw)) as [p|] eqn:Hp; [|by apply wp_ret, Hs].
  do 2 wp_step. apply wp_HandlePullRequest.
  - intros e w2 Hw2. apply wp_ret, Hs. congruence.
  - intros why w2 Hw2 _ _. apply wp_ret, Hs. congruence.
  - intros create ids done w2 w3 H1 H2 _ Hw2 H4%calls_deliveries. rewrite Hw2, Hw1 in *. apply wp_ret. by eapply Ha.
Qed.

(** The code of the answer: 401 exactly when the signature does not verify; without
    credentials nothing verifies. *)
Lemma wp_endpoint_code dl cached body (Q : go_error + (Z * Cache) → World → Prop) w :
  dl_Body dl = inr body →
  (∀ w', Q (inr (StatusUnauthorized, cached)) w') →
  (∀ c w' code, in_force env cached (w_db w) c →
     (code = StatusUnauthorized ↔ ¬ signed_by (cr_WebhookSecret c) (limited body) (dl_Signature dl)) →
     Q (inr (code, Some c)) w') →
  wp (githubWebhookHandler env dl cached) Q w.
Proof.
  intros Hb Hs Ha. unfold githubWebhookHandler. rewrite Hb. wp_step. apply wp_WebhookSecret.
  { intros w1 Hw1. cbn [VerifyWebhookSignature]. by apply wp_ret, Hs. }
  intros c w1 Hw1 Hc. destruct (VerifyWebhookSignature _ _ _) eqn:Hv; cbn [negb].
  - apply verify_signed in Hv.
    assert (∀ code w', code ≠ StatusUnauthorized → Q (inr (code, Some c)) w') as Hok by (intros; apply Ha; tauto).
    destruct (String.eqb (dl_Event dl) "ping"); [by apply wp_ret, Hok|].
    destruct (String.eqb (dl_Event dl) "pull_request"); cbn [negb]; [|by apply wp_ret, Hok].
    destruct (unmarshal_payload (limited body)); [|by apply wp_ret, Hok].
    do 2 wp_step. eapply wp_mono; [|apply (wp_HandlePullRequest _ (λ _ _, True)); done].
    intros [e|r] w2 _; by apply wp_ret, Hok.
  - apply wp_ret, Ha; [done|]. split; [|done]. intros _ Hsig. apply verify_signed in Hsig. congruence.
Qed.
End Rules.

(** ** Theorems *)
Section Theorems.
Context {E : Env} {P : PreviewPort}.
Implicit Types (w : World).

(** A Git service of the repository, in the workspace that connected the installation. *)
Definition repo_service (e : PullRequestEvent) (d : DB) (i : string) : Prop :=
  ∃ s k, s ∈ services d ∧ sv_ID s = i ∧ k ∈ source_connections d ∧ sc_Kind k = "app" ∧
    sc_InstallationID k = Some (pe_InstallationID e) ∧ sv_WorkspaceID s = sc_WorkspaceID k ∧ sv_SourceKind s = "git" ∧
    ToLower (sv_Owner s) = ToLower (pe_Owner e) ∧ ToLower (sv_Repo s) = ToLower (pe_Repo e).

Lemma concerned_services e d ids : concerned e d = Some ids →
  0 < pe_PRNumber e ∧ Forall (repo_service e d) ids.
Proof.
  unfold concerned. destruct (incomplete e) eqn:Hi; [done|]. unfold incomplete in Hi. propify.
  unfold sql_GetWorkspaceByInstallation. destruct (List.find _ _) as [k|] eqn:Hf; [|done]. intros [= <-].
  split; [done|]. apply find_some in Hf as [Hk Hp]. apply Forall_forall. intros i Hin.
  apply list_elem_of_fmap in Hin as (s & -> & Hs). apply elem_of_where in Hs as [Hs Hr].
  unfold is_app_installation in Hp. destruct (sc_InstallationID k) as [j|] eqn:Hj; [|by rewrite andb_false_r in Hp].
  unfold is_repo_service in Hr. propify. subst j.
  exists s, k. split; [done|]. split; [done|]. split; [by apply list_elem_of_In|]. done.
Qed.

(** C12: The endpoint changes the database only for a delivery whose body is signed under the
    secret in force, a pull-request event.  What it adds are previews, queued, of that
    pull request for Git services of that repository in the workspace that connected the
    installation, or teardown jobs of previews such services have, and one audit row
    for each: production and every other service are left as they are. *)
Theorem webhook_confined env dl cached w r w' :
  githubWebhookHandler env dl cached w = (r, w') → w_db w' ≠ w_db w →
  ∃ raw c p ids rows ts aus,
    dl_Body dl = inr raw ∧ in_force env cached (w_db w) c ∧
    signed_by (cr_WebhookSecret c) (limited raw) (dl_Signature dl) ∧ dl_Event dl = "pull_request" ∧
    unmarshal_payload (limited raw) = Some p ∧ 0 < wp_Number p ∧
    Forall (repo_service (event_of p) (w_db w)) ids ∧
    w_db w' = added rows ts aus (w_db w) ∧ length aus = (length rows + length ts)%nat ∧
    Forall (preview_of ids (wp_Number p)) rows ∧ Forall (teardown_of ids (wp_Number p) (w_db w)) ts.
Proof.
  intros Hrun Hne. revert Hne. use_wp Hrun. apply wp_githubWebhookHandler; [done|].
  intros raw c p create ids done w1 H1 H2 H3 H4 H5 _ H6 Hd _ _.
  pose proof (deliveries_sublist _ _ _ _ _ _ Hd) as Hsub.
  apply deliveries_account in Hd as (rows & ts & aus & Hw & Hlen & Hr & Ht & _).
  apply concerned_services in H6 as [Hpos Hids]. exists raw, c, p, done, rows, ts, aus.
  split_and!; try done. by eapply sublist_all.
Qed.

(** What a complete delivery achieved for a service. *)
Definition served (create : bool) (pr : Z) (d d' : DB) (i : string) : Prop :=
  if create then ∃ row, row ∈ deployments d' ∧ preview_of [i] pr row
  else no_active_preview i pr d ∨
       ∃ t, t ∈ teardown_jobs d' ∧ td_RouteKey t = previewRouteKey i pr "" ∧ td_Status t = TeardownStatusQueued.

Lemma deliveries_all create pr ids done d d' : deliveries create pr ids done d d' → length done = length ids →
  Forall (served create pr d d') ids.
Proof.
  induction 1 as [d|sid l done d d1 d2 Hact Hd IH|sid l done d d2 Hd _]; intros Hn; [done| |].
  - apply Forall_cons. simpl in Hn. apply deliveries_grow in Hd as [Hg1 Hg2]. specialize (IH ltac:(lia)).
    destruct create; simpl in *.
    + destruct Hact as (row & au & -> & H1 & H2 & H3 & H4 & H5 & _). split; [|done].
      exists row. split; [apply Hg1; simpl; apply elem_of_app; right; by left|].
      unfold preview_of. rewrite H1. split; [by left|done].
    + destruct Hact as [(dep & t & au & -> & _ & _ & _ & _ & _ & _ & H2 & _ & H4)|[-> Hno]].
      * split; [|done]. right. exists t. split; [apply Hg2; simpl; apply elem_of_app; right; by left|done].
      * split; [by left|done].
  - apply deliveries_sublist, sublist_length in Hd. simpl in Hn. lia.
Qed.

(** C19: The answer of a delivery is exact.  A delivery that concerns no service is answered
    with a reason and zero counts, and changes nothing.  Otherwise the count of matched
    services is the number of services of the repository; the services are called in
    order, and the count of the action (previews created, or torn down when the pull
    request was closed) is the number of services whose call succeeded, the other count
    being zero.  The database then holds exactly what those services account for: one
    queued preview each when creating; when closing, one teardown job for each that had
    a preview left and nothing for the others; and one audit row for each row added.  When
    every call succeeded, every service of the repository has a queued preview of the
    pull request, or a queued teardown job unless no preview of it was left. *)
Theorem delivery_answer e w r w' : HandlePullRequest e w = (inr r, w') →
  (∃ why, r = mk_HandleResult (pe_Action e) 0 0 0 why ∧ why ≠ "" ∧ w_db w' = w_db w ∧
     (action_creates (pe_Action e) = None ∨ concerned e (w_db w) = None ∨ concerned e (w_db w) = Some [])) ∨
  (∃ create ids done w1,
     action_creates (pe_Action e) = Some create ∧ concerned e (w_db w) = Some ids ∧ ids ≠ [] ∧
     w_db w1 = w_db w ∧ calls create (pe_PRNumber e) ids done w1 w' ∧ done `sublist_of` ids ∧
     r = mk_HandleResult (pe_Action e) (Z.of_nat (length ids))
           (if create then Z.of_nat (length done) else 0) (if create then 0 else Z.of_nat (length done)) "" ∧
     account create (pe_PRNumber e) done (w_db w) (w_db w') ∧
     (length done = length ids → Forall (served create (pe_PRNumber e) (w_db w) (w_db w')) ids)).
Proof.
  intros Hrun. use_wp Hrun. apply wp_HandlePullRequest; [done| |].
  - intros why w1 Hw Hwhy Hno [= <-]. left. by exists why.
  - intros create ids done w1 w2 Hc Hids Hne Hw1 Hcalls [= <-]. right. exists create, ids, done, w1.
    pose proof (calls_deliveries _ _ _ _ _ _ Hcalls) as Hd. rewrite Hw1 in Hd.
    do 5 (split; [done|]). split; [by eapply deliveries_sublist|]. split; [by destruct create|].
    split; [by eapply deliveries_account|by apply deliveries_all].
Qed.
End Theorems.
