(* ===== verification/GitHubAppProps.v ===== *)
(** * GitHubAppProps: the registration of the GitHub App

    Who registers an App and what the database keeps of it; that the state of the manifest
    flow comes back as it was sealed; that a registered App is the one the resolvers then
    answer with; and the cache of credentials over histories of operations. *)
From S2P Require Import Prelude.
From S2P Require Import GoStrings.
From S2P Require Import GoUrl.
From S2P Require Import Json.
From S2P Require Import JsonProps.
From S2P Require Import Sha256.
From S2P Require Import Problem.
From S2P Require Import Schema.
From S2P Require Import Platform.
From S2P Require Import Authz.
From S2P Require Import GitHubApp.
From S2P Require Import Webhooks.
From S2P Require Import WebhooksProps.

(** ** The registration state survives its trip *)
Lemma reg_fields (a b c e : json) :
  let ms := [(bytes_of "w", a); (bytes_of "u", b); (bytes_of "n", c); (bytes_of "e", e)] in
  field_values "w" ms = [a] ∧ field_values "u" ms = [b] ∧ field_values "n" ms = [c] ∧ field_values "e" ms = [e].
Proof. repeat split. Qed.

Lemma int_value_json z cur : 0 < z < 2 ^ 63 → int_value 64 cur (JNumber (json_int z)) = Some z.
Proof.
  intros H. destruct (Itoa_lead z ltac:(lia)) as (c & k & Hk & _ & Hall). unfold int_value, json_int.
  pose proof (Itoa_value z ltac:(lia)) as Hv. rewrite Hk in *.
  apply Forall_cons in Hall as [Hc _].
  assert (is_code 45 c = false) as ->.
  { unfold is_digit in Hc. unfold is_code. propify. apply Z.eqb_neq. lia. }
  rewrite Hv. change (2 ^ (64 - 1)) with (2 ^ 63).
  assert ((- 2 ^ 63 <=? z) = true) as -> by (apply Z.leb_le; lia).
  by assert ((z <? 2 ^ 63) = true) as -> by (apply Z.ltb_lt; lia).
Qed.

(** Text in its fields, and an expiry that is a time. *)
Definition state_ok (s : regState) : Prop :=
  utf8 (bytes_of (rg_WorkspaceID s)) ∧ utf8 (bytes_of (rg_UserID s)) ∧ utf8 (bytes_of (rg_Nonce s)) ∧
  0 < rg_ExpiresAt s < 2 ^ 63.

Lemma regState_roundtrip s : state_ok s → unmarshal_regState (marshal_regState s) = Some s.
Proof.
  intros (Hw & Hu & Hn & He). unfold unmarshal_regState, marshal_regState. rewrite bytes_of_str_of.
  rewrite (unmarshal_marshal _ [(bytes_of "w", JString (bytes_of (rg_WorkspaceID s)));
    (bytes_of "u", JString (bytes_of (rg_UserID s))); (bytes_of "n", JString (bytes_of (rg_Nonce s)));
    (bytes_of "e", JNumber (json_int (rg_ExpiresAt s)))]).
  - cbv [mbind option_bind assign_field]. destruct (reg_fields (JString (bytes_of (rg_WorkspaceID s)))
      (JString (bytes_of (rg_UserID s))) (JString (bytes_of (rg_Nonce s))) (JNumber (json_int (rg_ExpiresAt s))))
      as (-> & -> & -> & ->).
    cbn [foldl string_value]. rewrite int_value_json, !str_of_bytes_of by done. by destruct s.
  - done.
  - repeat (apply Forall2_cons; split; [split; [by apply utf8_all_ascii; repeat constructor|split; [constructor; (done||lia)|done]]|]).
    apply Forall2_nil. done.
Qed.

Lemma hex_text l : Forall (λ b, 0 ≤ b < 256) l → utf8 (bytes_of (hex_encode l)).
Proof.
  intros H. apply utf8_all_ascii. eapply Forall_impl; [by apply hex_encode_hex|].
  intros c Hc. unfold is_hex, is_digit in Hc. apply orb_true_iff in Hc as [Hc|Hc]; propify; lia.
Qed.

(** ** The handlers *)
Section Rules.
Context {E : Env} {A : Authorizer} {S : Sealer} {R : Entropy} {C : ManifestConverter}.
Context (env : EnvConfig) (baseURL webhookURL : string).
Implicit Types (w : World).

(** What a sealed state must be: its text is what the box sealed. *)
Lemma openState_sealed k s sealed : opens_sealed → sealed_bytes → state_ok s → sealed ≠ [] →
  seal k (marshal_regState s) = inr sealed → openState (str_of (b64_encode sealed)) = inr s.
Proof.
  intros Ho Hb Hs Hne Hseal. unfold openState. rewrite b64_text_plain.
  apply b64_text_nonempty, String.eqb_neq in Hne as ->.
  by rewrite (open_sealed_cookie _ _ _ Ho Hb Hseal), regState_roundtrip.
Qed.

Lemma wp_BeginRegistration caller i (Q : go_error + BeginRegistrationResult → World → Prop) w :
  (∀ e w', w_db w' = w_db w → Q (inl e) w') →
  (∀ k k' b n sealed w', w_db w' = w_db w →
     allows caller ActionGitHubAppRegister (app_resource (bg_WorkspaceID i)) (w_db w) → env_configured env = false →
     rand_Read k 16 = inr b →
     seal k' (marshal_regState (mk_regState (bg_WorkspaceID i) (p_UserID caller) (hex_encode b) (Unix (now_at n + stateTTL)))) = inr sealed →
     Q (inr (mk_BeginRegistrationResult (buildManifest baseURL webhookURL)
              (if String.eqb (TrimSpace (bg_Org i)) "" then "https://github.com/settings/apps/new?state=" +:+ QueryEscape (hex_encode b)
               else "https://github.com/organizations/" +:+ PathEscape (TrimSpace (bg_Org i)) +:+ "/settings/apps/new?state=" +:+ QueryEscape (hex_encode b))
              (str_of (b64_encode sealed)))) w') →
  wp (BeginRegistration env baseURL webhookURL caller i) Q w.
Proof.
  intros He Ha. unfold BeginRegistration, newNonce. do 2 wp_step; [|by apply He].
  wp_step. apply wp_Authorize; [done|]. intros w1 Hw1 Hal. do 2 wp_step; [|apply He; congruence].
  do 4 wp_step. destruct (rand_Read n 16) as [e|b] eqn:Hr; [apply He; congruence|].
  wp_step. wp_step. apply wp_time_now_at. intros n' w3 Hw3.
  do 3 wp_step. destruct (seal _ _) as [e|sealed] eqn:Hse; [apply He; congruence|].
  wp_step. apply (Ha n n0 b n' sealed); try done; [congruence|by propify].
Qed.

(** A registration that passes its checks. *)
Record registration_checked (caller : Principal) (i : CompleteRegistrationInput) (st : regState) (d : DB) : Prop := {
  rc_opened : openState (cp_CookieState i) = inr st;
  rc_nonce : cp_State i = rg_Nonce st ∧ rg_Nonce st ≠ "";
  rc_caller : p_UserID caller = rg_UserID st ∧ p_UserID caller ≠ "";
  rc_fresh : ∃ n, Unix (now_at n) ≤ rg_ExpiresAt st;
  rc_allowed : allows caller ActionGitHubAppRegister (app_resource (rg_WorkspaceID st)) d;
  rc_env : env_configured env = false;
}.

Lemma wp_check_registration caller i (Q : go_error + regState → World → Prop) w :
  (∀ e w', w_db w' = w_db w → Q (inl e) w') →
  (∀ st w', w_db w' = w_db w → registration_checked caller i st (w_db w) → Q (inr st) w') →
  wp (check_registration env caller i) Q w.
Proof.
  intros He Ha. unfold check_registration. do 2 wp_step; [|by apply He].
  wp_step. wp_step. destruct (openState (cp_CookieState i)) as [e|st] eqn:Ho; [by apply He|].
  do 2 wp_step; [|by apply He]. wp_step. apply wp_time_now_at. intros n w1 Hw1.
  do 2 wp_step; [|by apply He]. do 2 wp_step; [|by apply He]. wp_step.
  apply wp_Authorize; [intros; apply He; congruence|]. intros w2 Hw2 Hal.
  do 2 wp_step; [|apply He; congruence]. wp_step. apply Ha; [congruence|].
  unfold IsAuthenticated in *. rewrite negb_involutive in *. rewrite Hw1 in Hal.
  repeat match goal with
  | H : negb (_ || _) = true |- _ => rewrite negb_orb in H
  | H : negb (negb _) = true |- _ => rewrite negb_involutive in H
  end. propify. rewrite ?negb_involutive in *. propify.
  split; try done; [split; congruence|by exists n].
Qed.

(** A new App, as the row holds it. *)
Definition sealed_conversion (conv : ManifestConversion) (caller : string) (w : ConfigWrite) : Prop :=
  cw_AppID w = Itoa (mc_AppID conv) ∧ cw_AppSlug w = mc_Slug conv ∧ cw_ClientID w = mc_ClientID conv ∧ cw_CreatedBy w = caller ∧
  (∃ k, seal k (mc_PrivateKeyPEM conv) = inr (cw_SealedPrivateKey w)) ∧
  (∃ k, seal k (mc_WebhookSecret conv) = inr (cw_SealedWebhookSecret w)) ∧
  (∃ k, seal k (mc_ClientSecret conv) = inr (cw_SealedClientSecret w)).

Lemma wp_seal_conversion conv by_ (Q : go_error + ConfigWrite → World → Prop) w :
  (∀ e w', w_db w' = w_db w → Q (inl e) w') →
  (∀ x w', w_db w' = w_db w → sealed_conversion conv by_ x → Q (inr x) w') →
  wp (seal_conversion conv by_) Q w.
Proof.
  intros He Ha. unfold seal_conversion.
  do 3 wp_step. destruct (seal n _) as [e|key] eqn:S1; [by apply He|].
  do 3 wp_step. destruct (seal n0 _) as [e|secret] eqn:S2; [apply He; congruence|].
  do 3 wp_step. destruct (seal n1 _) as [e|client] eqn:S3; [apply He; congruence|].
  wp_step. apply Ha; [congruence|]. unfold sealed_conversion; simpl. eauto 10.
Qed.

(** The singleton row after a registration. *)
Definition singleton (d : DB) : Prop :=
  Forall (λ r, ga_Singleton r = true) (github_app_config d) ∧ (length (github_app_config d) ≤ 1)%nat.
Definition stored_as (w : ConfigWrite) (r : db_GithubAppConfig) : Prop :=
  ga_AppID r = cw_AppID w ∧ ga_AppSlug r = cw_AppSlug w ∧ ga_ClientID r = cw_ClientID w ∧
  ga_SealedPrivateKey r = cw_SealedPrivateKey w ∧ ga_SealedWebhookSecret r = cw_SealedWebhookSecret w ∧
  ga_SealedClientSecret r = cw_SealedClientSecret w ∧ ga_Singleton r = true.

Lemma upsert_singleton x by_ st d u d' : singleton d → sql_UpsertGitHubAppConfig x by_ st d = inr (u, d') →
  ∃ r, d' = set_github_app_config [r] d ∧ stored_as x r.
Proof.
  intros [Hall Hlen]. unfold sql_UpsertGitHubAppConfig. destruct (github_app_checks _ _ _); [|done]. intros [= _ <-].
  destruct (github_app_config d) as [|r [|r2 l]]; simpl in *; [| |lia].
  - eexists. split; [done|]. done.
  - apply Forall_cons in Hall as [Hr _]. unfold update_where. simpl. rewrite Hr. simpl. eexists. split; [done|]. unfold stored_as, ga_replace. simpl. done.
Qed.

Lemma wp_CompleteRegistration caller i cached (Q : go_error + (CompleteRegistrationResult * Cache) → World → Prop) w :
  singleton (w_db w) →
  (∀ e w', w_db w' = w_db w → Q (inl e) w') →
  (∀ st k conv x r au w', registration_checked caller i st (w_db w) → ConvertManifest k (cp_Code i) = inr conv →
     sealed_conversion conv (p_UserID caller) x → stored_as x r →
     w_db w' = set_audit_events (audit_events (w_db w) ++ [au]) (set_github_app_config [r] (w_db w)) →
     au_Action au = "github_app.register" → au_TargetID au = cw_AppID x → au_Actor au = p_UserID caller →
     Q (inr (mk_CompleteRegistrationResult (mc_Slug conv) (cw_AppID x), None)) w') →
  wp (CompleteRegistration env caller i cached) Q w.
Proof.
  intros Hsing He Ha. unfold CompleteRegistration, UpsertConfig. wp_step. apply wp_check_registration; [done|].
  intros st w1 Hw1 Hck. do 3 wp_step. destruct (ConvertManifest n (cp_Code i)) as [e|conv] eqn:Hc; [apply He; congruence|].
  wp_step. apply wp_seal_conversion; [intros; apply He; congruence|]. intros x w3 Hw3 Hx.
  do 3 wp_step; [apply He; congruence|]. do 2 wp_step; [done|]. apply wp_audit_Record; [done|].
  intros w5 (au & Hw5 & H1' & _ & H2' & H3' & _). intros w6 Hw6. wp_step.
  assert (w_db w0 = w_db w) as Hw0 by congruence. rewrite Hw0 in H1.
  destruct (upsert_singleton _ _ _ _ _ _ Hsing H1) as (r & Hr & Hst).
  eapply Ha; try done. by rewrite Hw6, Hw5, Hr.
Qed.
End Rules.

(** ** Theorems *)
Section Theorems.
Context {E : Env} {A : Authorizer} {S : Sealer} {R : Entropy} {C : ManifestConverter} {P : PreviewPort}.
Context (env : EnvConfig) (baseURL webhookURL : string).
Implicit Types (w : World).

(** What the box and the clock are known for: a sealed value opens, is bytes and is not
    empty (it starts with the nonce); the time is a positive number of seconds. *)
Record box_laws : Prop := {
  bl_opens : opens_sealed;
  bl_bytes : sealed_bytes;
  bl_nonempty : ∀ k p c, seal k p = inr c → c ≠ [];
  bl_clock : ∀ n, 0 < Unix (now_at n) ∧ Unix (now_at n + stateTTL) < 2 ^ 63;
}.

Lemma expiry_later n : Unix (now_at n) ≤ Unix (now_at n + stateTTL).
Proof. unfold Unix, stateTTL, time_Second. apply Z.div_le_mono; lia. Qed.

(** A registration that begins can be completed: the state in the cookie opens to the
    workspace, the user, the nonce of the form's address and an expiry ten minutes ahead,
    and the callback with that nonce, made by the same user before the expiry, passes every
    check but a changed membership. *)
Theorem registration_round_trip caller i w res w' :
  box_laws → utf8 (bytes_of (bg_WorkspaceID i)) → utf8 (bytes_of (p_UserID caller)) →
  BeginRegistration env baseURL webhookURL caller i w = (inr res, w') →
  ∃ nonce n,
    openState (br_State res) = inr (mk_regState (bg_WorkspaceID i) (p_UserID caller) nonce (Unix (now_at n + stateTTL))) ∧
    (∃ address, br_FormAction res = address +:+ "/settings/apps/new?state=" +:+ QueryEscape nonce) ∧
    allows caller ActionGitHubAppRegister (app_resource (bg_WorkspaceID i)) (w_db w) ∧ w_db w' = w_db w ∧
    ∀ code w2, TrimSpace code ≠ "" → nonce ≠ "" → p_UserID caller ≠ "" →
      Unix (now_at (w_tick w2)) ≤ Unix (now_at n + stateTTL) →
      wp (check_registration env caller (mk_CompleteRegistrationInput code nonce (br_State res)))
         (λ r w3, (∃ st, r = inr st ∧ rg_WorkspaceID st = bg_WorkspaceID i) ∨
                  ∃ e, r = inl e ∧ Authorize caller ActionGitHubAppRegister (app_resource (bg_WorkspaceID i)) (tick w2) = (inl e, w3)) w2.
Proof.
  intros [B1 B2 B3 B4] Hw Hu Hrun. use_wp Hrun. apply wp_BeginRegistration; [done|].
  intros k k' b n sealed w1 Hw1 Hal Henv Hr Hseal [= <-].
  set (st := mk_regState (bg_WorkspaceID i) (p_UserID caller) (hex_encode b) (Unix (now_at n + stateTTL))) in *.
  assert (openState (str_of (b64_encode sealed)) = inr st) as Hopen.
  { apply (openState_sealed k'); [done|done| |by eapply B3|done].
    destruct (rand_Read_spec _ _ _ Hr) as [_ Hb]. destruct (B4 n) as [H1 H2]. pose proof (expiry_later n).
    unfold state_ok, st; simpl. split_and!; try done; [by apply hex_text|lia]. }
  exists (hex_encode b), n. split; [done|]. split.
  { simpl. destruct (String.eqb _ _); [by exists "https://github.com"|].
    exists ("https://github.com/organizations/" +:+ PathEscape (TrimSpace (bg_Org i))). by rewrite String_append_assoc. }
  split; [done|]. split; [done|]. intros code w2 Hcode Hnon Huser Hnow. unfold check_registration. simpl.
  apply String.eqb_neq in Hcode, Hnon, Huser. rewrite Hopen. unfold wp, require, time_now, of_sum, IsAuthenticated. simpl.
  unfold mbind, M_bind. rewrite Hcode, Hnon, Huser, !String.eqb_refl. simpl.
  assert ((Unix (now_at n + stateTTL) <? Unix (now_at (w_tick w2))) = false) as -> by (by apply Z.ltb_ge). simpl.
  destruct (Authorize _ _ _ _) as [[e|[]] w3] eqn:Hau; simpl; [right; by exists e|].
  rewrite Henv. simpl. left. by exists st.
Qed.

(** The credentials a conversion stands for, once stored. *)
Definition converted (conv : ManifestConversion) : Credentials :=
  mk_Credentials (Itoa (mc_AppID conv)) (mc_Slug conv) (mc_PrivateKeyPEM conv) (mc_WebhookSecret conv)
    (mc_ClientID conv) (mc_ClientSecret conv) true "stored".

Lemma stored_resolves conv by_ x r d c : box_laws → env_configured env = false → sealed_conversion conv by_ x → stored_as x r →
  github_app_config d = [r] → resolved_from env d c → c = converted conv.
Proof.
  intros B Henv (X1 & X2 & X3 & _ & (k1 & X5) & (k2 & X6) & (k3 & X7)) (R1 & R2 & R3 & R4 & R5 & R6 & R7) Hd.
  unfold resolved_from, sql_GetSealedGitHubAppConfig. rewrite Henv, Hd. simpl. rewrite R7. simpl.
  rewrite R1, R2, R3, R4, R5, R6, X1, X2, X3. rewrite decide_False by (by eapply bl_nonempty).
  rewrite (bl_opens B _ _ _ X5), (bl_opens B _ _ _ X6), (bl_opens B _ _ _ X7).
  intros (H1 & H2 & H3 & H4 & H5 & H6 & H7 & H8). destruct c; simpl in *. unfold converted. congruence.
Qed.

(** C13: A registration takes effect, and only that.  On an error the database is untouched.
    On success the caller was allowed to register in the workspace sealed in the cookie,
    the database differs by the one row of the App and one audit row, the cache is empty,
    and as long as the row stays every resolver that answers answers with exactly what
    GitHub returned for the code, so a delivery GitHub signs with the new secret is
    accepted and one signed otherwise is refused. *)
Theorem registration_takes_effect caller i cached w r w' :
  box_laws → singleton (w_db w) → CompleteRegistration env caller i cached w = (r, w') →
  match r with
  | inl _ => w_db w' = w_db w
  | inr (res, cached') =>
      cached' = None ∧ singleton (w_db w') ∧
      (∃ st, registration_checked env caller i st (w_db w)) ∧
      (∃ row au, w_db w' = set_audit_events (audit_events (w_db w) ++ [au]) (set_github_app_config [row] (w_db w)) ∧
                 au_Action au = "github_app.register" ∧ au_Actor au = p_UserID caller) ∧
      ∃ k conv, ConvertManifest k (cp_Code i) = inr conv ∧ cx_Slug res = mc_Slug conv ∧
        ∀ w2, github_app_config (w_db w2) = github_app_config (w_db w') →
          wp (Current env cached') (λ r2 _, ∀ c cached2, r2 = inr (c, cached2) → c = converted conv ∧ cached2 = Some c) w2 ∧
          ∀ dl body, dl_Body dl = inr body →
            wp (githubWebhookHandler env dl cached') (λ r2 w3, ∀ code c, r2 = inr (code, Some c) →
              (code = StatusUnauthorized ↔ ¬ signed_by (mc_WebhookSecret conv) (limited body) (dl_Signature dl))) w2
  end.
Proof.
  intros B Hs Hrun. use_wp Hrun. apply wp_CompleteRegistration; [done|intros e w1 Hw1 <-; exact Hw1|].
  intros st k conv x row au w1 Hck Hconv Hx Hrow Hw1 Ha1 _ Ha3 <-.
  split; [done|]. split; [rewrite Hw1; split; [by repeat constructor; apply Hrow|simpl; lia]|].
  split; [by exists st|]. split; [by exists row, au|]. exists k, conv. split; [done|]. split; [done|].
  intros w2 Hw2. rewrite Hw1 in Hw2. simpl in Hw2.
  assert (∀ c, resolved_from env (w_db w2) c → c = converted conv) as Hres.
  { intros c Hin. by eapply (stored_resolves conv); [..|exact Hin]; [|apply Hck|..]. }
  split; [apply wp_Current; [by intros|]; intros c w3 _ Hin c' cached2 [= <- <-]; split; [by apply Hres|done]|].
  intros dl body Hbody. apply (wp_endpoint_code env dl None body); [done| |].
  - by intros w3 code c [=].
  - intros c w3 code Hin Hcode code' c' Heq. injection Heq as -> _. by rewrite (Hres c Hin) in Hcode.
Qed.

(** *** The cache *)

(** What is cached is what the database says. *)
Definition coherent (d : DB) (cached : Cache) : Prop :=
  match cached with None => True | Some c => resolved_from env d c end.

Lemma resolved_same d d' c : github_app_config d' = github_app_config d → resolved_from env d c → resolved_from env d' c.
Proof. intros H. unfold resolved_from, sql_GetSealedGitHubAppConfig. by rewrite H. Qed.

(** When the operations do not overlap, the cache stays coherent: a resolver's answer is the
    one it would compute from the database. *)
Theorem resolvers_coherent cached w : coherent (w_db w) cached →
  wp (Current env cached) (λ r w', w_db w' = w_db w ∧
    match r with inl _ => True | inr (c, cached') => resolved_from env (w_db w) c ∧ cached' = Some c end) w ∧
  ∀ caller i, singleton (w_db w) →
    wp (CompleteRegistration env caller i cached) (λ r w', coherent (w_db w')
      match r with inl _ => cached | inr (_, cached') => cached' end) w.
Proof.
  intros Hc. split.
  - apply wp_Current; [done|]. intros c w' Hw Hin. split; [done|]. split; [|done].
    destruct cached; simpl in *; [by subst c|done].
  - intros caller i Hs. apply wp_CompleteRegistration; [done|intros e w' Hw|intros; done].
    by rewrite Hw.
Qed.

(** The same operations in steps that may interleave: a resolver that missed the cache
    computes its answer and stores it later; a registration commits and clears later. *)
Record AppProc := mk_AppProc { ap_world : World; ap_cache : Cache; ap_answers : list Credentials; ap_clearing : nat }.
Inductive AppStep := StepMiss | StepStore | StepCommit (caller : Principal) (i : CompleteRegistrationInput) | StepClear.

Definition app_step (s : AppProc) (a : AppStep) : option AppProc :=
  match a with
  | StepMiss =>
      match ap_cache s, resolve env (ap_world s) with
      | None, (inr c, w') => Some (mk_AppProc w' None (ap_answers s ++ [c]) (ap_clearing s))
      | _, _ => None
      end
  | StepStore =>
      match ap_answers s with
      | c :: l => Some (mk_AppProc (ap_world s) (Some c) l (ap_clearing s))
      | [] => None
      end
  | StepCommit caller i =>
      match CompleteRegistration env caller i (ap_cache s) (ap_world s) with
      | (inr _, w') => Some (mk_AppProc w' (ap_cache s) (ap_answers s) (Datatypes.S (ap_clearing s)))
      | _ => None
      end
  | StepClear =>
      match ap_clearing s with
      | O => None
      | Datatypes.S n => Some (mk_AppProc (ap_world s) (clearCache (ap_cache s)) (ap_answers s) n)
      end
  end.
Definition app_steps (s : AppProc) (l : list AppStep) : option AppProc := foldl (λ s a, s ≫= λ s, app_step s a) (Some s) l.
End Theorems.
