(* ===== verification/Services.v ===== *)
(** * Services: a project's deployable components

    [internal/services]: services.go, store.go, templates.go, service.go and postgres.go
    over the statements of [internal/platform/database/db/services.sql.go].  The module
    reaches the others through ports, wired in [internal/app/modules.go]: the first
    deployment of a service is queued by [EnqueueFirstDeployment] of the deployments
    module, a database's credentials are written by [SetWithinTx] of the config module,
    and a connected repository is validated through the class [SourcesPort]. *)
From S2P Require Import Prelude.
From S2P Require Import GoStrings.
From S2P Require Import GoUrl.
From S2P Require Import Problem.
From S2P Require Import Schema.
From S2P Require Import Platform.
From S2P Require Import Authz.
From S2P Require Import DeployNames.
From S2P Require Import DeployStore.
From S2P Require Import Deployments.
From S2P Require Import Config.

(** ** Vocabulary (services.go) *)
Definition SourceTemplate : string := "template".
Definition accessOAuth : string := "oauth".
Definition accessPublic : string := "public".
Definition accessApp : string := "app".
Definition VisibilityPublic : string := "public".
Definition VisibilityPrivate : string := "private".
Definition provider : string := "github".
Definition maxNameLen : Z := 100.

Record CreateInput := mk_CreateInput {
  ic_EnvironmentID : string; ic_Name : string; ic_SourceKind : string; ic_ImageRef : string;
  ic_TemplateID : string; ic_RepoURL : string; ic_ConnectionID : string; ic_Owner : string;
  ic_Repo : string; ic_Branch : string; ic_ContainerPort : Z; ic_Visibility : string;
  ic_ServerID : string; ic_DeployNow : bool;
}.
Record UpdateSourceInput := mk_UpdateSourceInput {
  iu_ID : string; iu_SourceKind : string; iu_ImageRef : string; iu_TemplateID : string;
  iu_RepoURL : string; iu_ConnectionID : string; iu_Owner : string; iu_Repo : string;
  iu_Branch : string; iu_ContainerPort : Z;
}.
Record DatabaseInput := mk_DatabaseInput {
  id_EnvironmentID : string; id_Name : string; id_TemplateID : string; id_DatabaseName : string;
  id_Username : string; id_Password : string; id_ServerID : string; id_DeployNow : bool;
}.
Record Service := mk_Service {
  s_ID : string; s_EnvironmentID : string; s_ProjectID : string; s_WorkspaceID : string;
  s_Name : string; s_Slug : string; s_SourceKind : string; s_ImageRef : string; s_TemplateID : string;
  s_ConnectionID : string; s_Provider : string; s_Owner : string; s_Repo : string; s_FullName : string;
  s_Branch : string; s_DefaultBranch : string; s_IsPrivate : bool; s_HTMLURL : string;
  s_SourceAccess : string; s_ContainerPort : Z; s_Visibility : string; s_RouteURL : string;
  s_GitHubLogin : string; s_CreatedAt : Z; s_UpdatedAt : Z;
}.
Record Result := mk_Result { res_Service : Service; res_DeploymentID : string }.
Record DatabaseResult := mk_DatabaseResult {
  dr_Service : Service; dr_DeploymentID : string; dr_ConnectionURI : string;
}.

(** ** Database templates (templates.go) *)
Record databaseTemplate := mk_databaseTemplate {
  tm_id : string; tm_displayName : string; tm_image : string; tm_port : Z; tm_scheme : string;
  tm_defaultUser : string; tm_defaultDB : string;
}.
Definition postgresTemplate : databaseTemplate :=
  mk_databaseTemplate "postgres" "PostgreSQL" "postgres:16-alpine" 5432 "postgresql" "plorigo" "app".
Definition lookupDatabaseTemplate (id : string) : option databaseTemplate :=
  if String.eqb (TrimSpace id) "postgres" then Some postgresTemplate else None.

Definition template_env (t : databaseTemplate) (user password db : string) : gmap string string :=
  if String.eqb (tm_id t) "postgres" then
    {["POSTGRES_USER" := user]} ∪ {["POSTGRES_PASSWORD" := password]} ∪ {["POSTGRES_DB" := db]}
  else ∅.

(** *** [net/url]: the text of a URL with user, host and path *)
Inductive encoding := encodePath | encodeHost | encodeUserPassword.
Definition is_alpha (c : ascii) : bool := is_lower c || is_upper c.
Definition in_chars (chars : string) (c : ascii) : bool := existsb (Ascii.eqb c) (bytes_of chars).
Definition quote_char : ascii := chr 34.
Definition shouldEscape (c : ascii) (mode : encoding) : bool :=
  if is_alpha c || is_digit c then false
  else if match mode with encodeHost => in_chars "!$&'()*+,;=:[]<>" c || Ascii.eqb c quote_char | _ => false end then false
  else if in_chars "-_.~" c then false
  else if in_chars "$&+,/:;=?@" c then
    match mode with
    | encodePath => Ascii.eqb c "?"
    | encodeUserPassword => in_chars "@/?:" c
    | encodeHost => true
    end
  else true.
Definition escape_byte (mode : encoding) (c : ascii) : bytes :=
  if shouldEscape c mode
  then ["%"%char; upperhex (N_of_ascii c / 16); upperhex (N_of_ascii c mod 16)] else [c].
Definition url_escape (mode : encoding) (s : string) : string :=
  str_of (concat (map (escape_byte mode) (bytes_of s))).
(** [URL{Scheme, User: UserPassword(..), Host, Path}.String()] with every part present. *)
Definition url_String (scheme user password host path : string) : string :=
  scheme +:+ "://" +:+ url_escape encodeUserPassword user +:+ ":" +:+ url_escape encodeUserPassword password
  +:+ "@" +:+ url_escape encodeHost host +:+ url_escape encodePath path.

Definition connectionURI (t : databaseTemplate) (host user password db : string) : string :=
  url_String (tm_scheme t) user password (host +:+ ":" +:+ Itoa (tm_port t)) ("/" +:+ db).

Definition generateDatabasePassword {E : Env} {R : Entropy} : M string :=
  b ← port (λ k, rand_Read k 24); mret (str_of (b64_encode b)).

(** [^[A-Za-z_][A-Za-z0-9_]{0,62}$] and [^[\x21-\x7E]{8,128}$] *)
Definition ident_head (c : ascii) : bool := is_alpha c || Ascii.eqb c "_".
Definition ident_tail (c : ascii) : bool := ident_head c || is_digit c.
Definition pgIdentifierRe_MatchString (s : string) : bool :=
  match bytes_of s with
  | [] => false
  | c :: cs => ident_head c && forallb ident_tail cs && (length cs <=? 62)%nat
  end.
Definition validatePGIdentifier (label s : string) : go_error + unit :=
  if pgIdentifierRe_MatchString s then inr tt
  else inl (InvalidInput "%s must be 1–63 chars: a letter or underscore, then letters, digits, or underscores" [AStr label]).
Definition is_visible (c : ascii) : bool := (33 <=? code c) && (code c <=? 126).
Definition dbPasswordRe_MatchString (s : string) : bool :=
  forallb is_visible (bytes_of s) && (8 <=? len s) && (len s <=? 128).
Definition validateDBPassword (s : string) : go_error + unit :=
  if dbPasswordRe_MatchString s then inr tt
  else inl (InvalidInput "password must be 8–128 characters with no spaces or control characters" []).

(** ** Validation (service.go) *)
Definition validateName (raw : string) : go_error + (string * string) :=
  let name := TrimSpace raw in
  if String.eqb name "" then inl (InvalidInput "a service name is required" [])
  else if maxNameLen <? len name then inl (InvalidInput "name must be at most %d characters" [AInt maxNameLen])
  else
    let slug := Trim_dash (routeKeyNonAlnum_replace (ToLower name)) in
    if String.eqb slug "" then inl (InvalidInput "name must contain a letter or number" []) else inr (name, slug).

Definition validateVisibility (raw : string) : go_error + string :=
  let v := TrimSpace raw in
  if String.eqb v "" then inr VisibilityPublic
  else if negb (String.eqb v VisibilityPublic) && negb (String.eqb v VisibilityPrivate)
  then inl (InvalidInput "visibility must be %q or %q" [AStr VisibilityPublic; AStr VisibilityPrivate])
  else inr v.

Definition validatePort (kind : string) (port : Z) : go_error + Z :=
  if (port <? 0) || (maxPort <? port)
  then inl (InvalidInput "container_port must be between 1 and %d" [AInt maxPort])
  else if negb (String.eqb kind SourceGit) && (port <? 1)
  then inl (InvalidInput "a container_port is required for an image service" [])
  else inr port.

Fixpoint firstNonEmpty (vals : list string) : string :=
  match vals with
  | [] => ""
  | v :: vs => if negb (String.eqb (TrimSpace v) "") then TrimSpace v else firstNonEmpty vs
  end.

Definition providerFor (kind : string) : string := if String.eqb kind SourceGit then provider else "".

(** [strings.Cut(s, sep)] for a one-byte separator: the part before it. *)
Fixpoint before_byte (sep : ascii) (l : bytes) : bytes :=
  match l with [] => [] | c :: l' => if Ascii.eqb c sep then [] else c :: before_byte sep l' end.
Definition CutPrefix (s p : string) : option string :=
  match strip_prefix (bytes_of p) (bytes_of s) with Some r => Some (str_of r) | None => None end.

Definition bad_repo : go_error :=
  InvalidInput "enter a public GitHub repository URL like https://github.com/owner/repo" [].
(** What is left of a reference once the host is removed; [None] for another host. *)
Definition repo_path (str : string) : option string :=
  match CutPrefix str "git@github.com:" with
  | Some rest => Some rest
  | None =>
      let str := TrimPrefix (TrimPrefix (TrimPrefix str "https://") "http://") "www." in
      match CutPrefix str "github.com/" with
      | Some rest => Some rest
      | None =>
          if has_byte "/" str && Contains (str_of (before_byte "/" (bytes_of str))) "." then None else Some str
      end
  end.
Definition parsePublicRepo (raw : string) : go_error + (string * string) :=
  let str := TrimSpace raw in
  if String.eqb str "" then inl bad_repo
  else
    match repo_path str with
    | None => inl bad_repo
    | Some path =>
        match Split (TrimPrefix path "/") "/" with
        | owner :: second :: _ =>
            let repo := TrimSuffix second ".git" in
            if String.eqb owner "" || String.eqb repo "" then inl bad_repo else inr (owner, repo)
        | _ => inl bad_repo
        end
    end.

Definition mapGitHubErr (e : GitHubError) : go_error :=
  match e with
  | github_ErrNotFound => NotFound "repository not found, or your GitHub access can't see it" []
  | github_ErrUnauthorized =>
      InvalidInput "GitHub rejected the request; the connection may have been revoked — reconnect GitHub" []
  | github_ErrForbidden => PermissionDenied "GitHub denied access to this repository" []
  | github_ErrRateLimited => Internalf (github_error e) "GitHub rate limit reached; please try again shortly" []
  | github_Other _ => Internalf (github_error e) "could not reach GitHub" []
  end.

(** ** Statements *)

(** The CHECKs of 00017_services.sql. *)
Definition service_checks (r : db_Service) : bool :=
  in_list ["image"; "git"; "template"] (sv_SourceKind r) && in_list [""; "github"] (sv_Provider r) &&
  in_list [""; "oauth"; "public"; "app"] (sv_SourceAccess r) && in_list ["public"; "private"] (sv_Visibility r) &&
  (negb (String.eqb (sv_SourceKind r) "git") ||
   (String.eqb (sv_SourceAccess r) "public" && bool_decide (sv_ConnectionID r = None)) ||
   (in_list ["oauth"; "app"] (sv_SourceAccess r) && negb (bool_decide (sv_ConnectionID r = None)))).
(** The primary key and UNIQUE (environment_id, slug). *)
Definition service_unique (r : db_Service) (d : DB) : bool :=
  negb (has_key sv_ID (sv_ID r) (services d)) &&
  negb (existsb (λ x, String.eqb (sv_EnvironmentID x) (sv_EnvironmentID r) && String.eqb (sv_Slug x) (sv_Slug r)) (services d)).
Definition connection_exists (r : db_Service) (d : DB) : bool :=
  match sv_ConnectionID r with None => true | Some c => has_key sc_ID c (source_connections d) end.
Definition service_refs (r : db_Service) (d : DB) : bool :=
  has_key en_ID (sv_EnvironmentID r) (environments d) && has_key pj_ID (sv_ProjectID r) (projects d) &&
  has_key ws_ID (sv_WorkspaceID r) (workspaces d) && connection_exists r d.

Definition insert_service (r : db_Service) (d : DB) : go_error + (db_Service * DB) :=
  if negb (service_checks r) then inl (ErrConstraint "services_check")
  else if negb (service_unique r d) then inl (ErrUnique "services")
  else if negb (service_refs r d) then inl (ErrConstraint "services_fkey")
  else inr (r, set_services (services d ++ [r]) d).

Record ServiceWrite := mk_ServiceWrite {
  wr_EnvironmentID : string; wr_ProjectID : string; wr_WorkspaceID : string; wr_Name : string; wr_Slug : string;
  wr_SourceKind : string; wr_ImageRef : string; wr_TemplateID : string; wr_ContainerPort : Z; wr_Visibility : string;
}.
Record GitServiceWrite := mk_GitServiceWrite {
  gw_EnvironmentID : string; gw_ProjectID : string; gw_WorkspaceID : string; gw_Name : string; gw_Slug : string;
  gw_SourceAccess : string; gw_ConnectionID : string; gw_Provider : string; gw_Owner : string; gw_Repo : string;
  gw_FullName : string; gw_Branch : string; gw_DefaultBranch : string; gw_IsPrivate : bool; gw_HTMLURL : string;
  gw_ContainerPort : Z; gw_Visibility : string;
}.
Record SourceWrite := mk_SourceWrite {
  sw_ID : string; sw_SourceKind : string; sw_ImageRef : string; sw_TemplateID : string; sw_ConnectionID : string;
  sw_Provider : string; sw_Owner : string; sw_Repo : string; sw_FullName : string; sw_Branch : string;
  sw_DefaultBranch : string; sw_IsPrivate : bool; sw_HTMLURL : string; sw_SourceAccess : string; sw_ContainerPort : Z;
}.

Definition nullableStr (s : string) : option string := if String.eqb s "" then None else Some s.

Definition sql_CreateService (w : ServiceWrite) (st : Stamp) (d : DB) : go_error + (db_Service * DB) :=
  insert_service
    (mk_sv (st_uuid st) (wr_EnvironmentID w) (wr_ProjectID w) (wr_WorkspaceID w) (wr_Name w) (wr_Slug w)
       (wr_SourceKind w) (wr_ImageRef w) (wr_TemplateID w) None "" "" "" "" "" "" false "" ""
       (wr_ContainerPort w) (wr_Visibility w) "" (st_now st) (st_now st)) d.
Definition sql_CreateGitService (w : GitServiceWrite) (st : Stamp) (d : DB) : go_error + (db_Service * DB) :=
  insert_service
    (mk_sv (st_uuid st) (gw_EnvironmentID w) (gw_ProjectID w) (gw_WorkspaceID w) (gw_Name w) (gw_Slug w)
       "git" "" "" (nullableStr (gw_ConnectionID w)) (gw_Provider w) (gw_Owner w) (gw_Repo w) (gw_FullName w)
       (gw_Branch w) (gw_DefaultBranch w) (gw_IsPrivate w) (gw_HTMLURL w) (gw_SourceAccess w)
       (gw_ContainerPort w) (gw_Visibility w) "" (st_now st) (st_now st)) d.

Definition sv_set_source (w : SourceWrite) (now : Z) (r : db_Service) : db_Service :=
  mk_sv (sv_ID r) (sv_EnvironmentID r) (sv_ProjectID r) (sv_WorkspaceID r) (sv_Name r) (sv_Slug r)
    (sw_SourceKind w) (sw_ImageRef w) (sw_TemplateID w) (nullableStr (sw_ConnectionID w)) (sw_Provider w)
    (sw_Owner w) (sw_Repo w) (sw_FullName w) (sw_Branch w) (sw_DefaultBranch w) (sw_IsPrivate w) (sw_HTMLURL w)
    (sw_SourceAccess w) (sw_ContainerPort w) (sv_Visibility r) (sv_RouteUrl r) (sv_CreatedAt r) now.
Definition sv_set_visibility (visibility : string) (now : Z) (r : db_Service) : db_Service :=
  mk_sv (sv_ID r) (sv_EnvironmentID r) (sv_ProjectID r) (sv_WorkspaceID r) (sv_Name r) (sv_Slug r)
    (sv_SourceKind r) (sv_ImageRef r) (sv_TemplateID r) (sv_ConnectionID r) (sv_Provider r) (sv_Owner r)
    (sv_Repo r) (sv_FullName r) (sv_Branch r) (sv_DefaultBranch r) (sv_IsPrivate r) (sv_HtmlUrl r)
    (sv_SourceAccess r) (sv_ContainerPort r) visibility (sv_RouteUrl r) (sv_CreatedAt r) now.

(** [UPDATE services SET ... WHERE id = $1 RETURNING *] *)
Definition update_service (id : string) (f : db_Service → db_Service) (d : DB) : go_error + (db_Service * DB) :=
  match lookup_by sv_ID id (services d) with
  | None => inl ErrNoRows
  | Some r =>
      if service_checks (f r) && connection_exists (f r) d
      then inr (f r, set_services (update_where (λ x, String.eqb (sv_ID x) id) f (services d)) d)
      else inl (ErrConstraint "services")
  end.
Definition sql_UpdateServiceSource (w : SourceWrite) (st : Stamp) (d : DB) : go_error + (db_Service * DB) :=
  update_service (sw_ID w) (sv_set_source w (st_now st)) d.
Definition sql_UpdateServiceVisibility (id visibility : string) (st : Stamp) (d : DB) : go_error + (db_Service * DB) :=
  update_service id (sv_set_visibility visibility (st_now st)) d.

(** [DELETE FROM services]: what references the row goes with it (ON DELETE CASCADE),
    and a rollback reference to a deleted deployment is cleared (SET NULL). *)
Definition clear_rollback (gone : string → bool) (r : db_Deployment) : db_Deployment :=
  {| dp_ID := dp_ID r; dp_EnvironmentID := dp_EnvironmentID r; dp_ProjectID := dp_ProjectID r;
     dp_WorkspaceID := dp_WorkspaceID r; dp_ServerID := dp_ServerID r; dp_ImageRef := dp_ImageRef r;
     dp_ContainerPort := dp_ContainerPort r; dp_HostPort := dp_HostPort r; dp_ContainerID := dp_ContainerID r;
     dp_Status := dp_Status r; dp_Message := dp_Message r; dp_CreatedAt := dp_CreatedAt r;
     dp_UpdatedAt := dp_UpdatedAt r; dp_SourceKind := dp_SourceKind r; dp_SourceAccess := dp_SourceAccess r;
     dp_CloneUrl := dp_CloneUrl r; dp_GitRef := dp_GitRef r; dp_CommitSha := dp_CommitSha r;
     dp_BuiltImageRef := dp_BuiltImageRef r; dp_RouteUrl := dp_RouteUrl r; dp_ServiceID := dp_ServiceID r;
     dp_RolledBackFrom := match dp_RolledBackFrom r with
                          | Some i => if gone i then None else Some i | None => None end;
     dp_Kind := dp_Kind r; dp_RouteKey := dp_RouteKey r; dp_PrNumber := dp_PrNumber r; dp_PrUrl := dp_PrUrl r;
     dp_PreviewAuthUser := dp_PreviewAuthUser r; dp_PreviewAuthHash := dp_PreviewAuthHash r |}.
Definition delete_service_rows (id : string) (d : DB) : DB :=
  let of_service := λ i : string, String.eqb i id in
  let gone_dep := λ i, has_key dp_ID i (where_ (λ r, of_service (dp_ServiceID r)) (deployments d)) in
  let gone_bk := λ i, has_key bk_ID i (where_ (λ r, of_service (bk_ServiceID r)) (backups d)) in
  let d := set_services (where_ (λ r, negb (of_service (sv_ID r))) (services d)) d in
  let d := set_deployments (map (clear_rollback gone_dep) (where_ (λ r, negb (of_service (dp_ServiceID r))) (deployments d))) d in
  let d := set_deployment_events (where_ (λ r, negb (gone_dep (ev_DeploymentID r))) (deployment_events d)) d in
  let d := set_teardown_jobs (where_ (λ r, negb (of_service (td_ServiceID r) || gone_dep (td_DeploymentID r))) (teardown_jobs d)) d in
  let d := set_backups (where_ (λ r, negb (of_service (bk_ServiceID r))) (backups d)) d in
  let d := set_restore_jobs (where_ (λ r, negb (of_service (rj_ServiceID r) || gone_bk (rj_BackupID r))) (restore_jobs d)) d in
  let d := set_domains (where_ (λ r, negb (of_service (dm_ServiceID r))) (domains d)) d in
  set_config_entries (where_ (λ r, negb (opt_eqb (ce_ServiceID r) id)) (config_entries d)) d.
Definition sql_DeleteService (id : string) (st : Stamp) (d : DB) : go_error + (string * DB) :=
  if has_key sv_ID id (services d) then inr (id, delete_service_rows id d) else inl ErrNoRows.

Definition list_services (p : db_Service → bool) (d : DB) : list db_Service :=
  newest_first sv_CreatedAt (where_ p (services d)).
Definition sql_GetService (id : string) (d : DB) : option db_Service := lookup_by sv_ID id (services d).
Definition sql_ListServicesByEnvironment (environmentID : string) : DB → list db_Service :=
  list_services (λ r, String.eqb (sv_EnvironmentID r) environmentID).
Definition sql_ListServicesByProject (projectID : string) : DB → list db_Service :=
  list_services (λ r, String.eqb (sv_ProjectID r) projectID).
Definition sql_ListServicesByWorkspace (workspaceID : string) : DB → list db_Service :=
  list_services (λ r, String.eqb (sv_WorkspaceID r) workspaceID).

(** ** The store (postgres.go) *)
Definition serviceFromRow (r : db_Service) : Service :=
  {| s_ID := sv_ID r; s_EnvironmentID := sv_EnvironmentID r; s_ProjectID := sv_ProjectID r;
     s_WorkspaceID := sv_WorkspaceID r; s_Name := sv_Name r; s_Slug := sv_Slug r; s_SourceKind := sv_SourceKind r;
     s_ImageRef := sv_ImageRef r; s_TemplateID := sv_TemplateID r; s_ConnectionID := derefStr (sv_ConnectionID r);
     s_Provider := sv_Provider r; s_Owner := sv_Owner r; s_Repo := sv_Repo r; s_FullName := sv_FullName r;
     s_Branch := sv_Branch r; s_DefaultBranch := sv_DefaultBranch r; s_IsPrivate := sv_IsPrivate r;
     s_HTMLURL := sv_HtmlUrl r; s_SourceAccess := sv_SourceAccess r; s_ContainerPort := sv_ContainerPort r;
     s_Visibility := sv_Visibility r; s_RouteURL := sv_RouteUrl r; s_GitHubLogin := "";
     s_CreatedAt := sv_CreatedAt r; s_UpdatedAt := sv_UpdatedAt r |}.
(** [saved.GitHubLogin = login] *)
Definition with_login (login : string) (s : Service) : Service :=
  mk_Service (s_ID s) (s_EnvironmentID s) (s_ProjectID s) (s_WorkspaceID s) (s_Name s) (s_Slug s) (s_SourceKind s)
    (s_ImageRef s) (s_TemplateID s) (s_ConnectionID s) (s_Provider s) (s_Owner s) (s_Repo s) (s_FullName s)
    (s_Branch s) (s_DefaultBranch s) (s_IsPrivate s) (s_HTMLURL s) (s_SourceAccess s) (s_ContainerPort s)
    (s_Visibility s) (s_RouteURL s) login (s_CreatedAt s) (s_UpdatedAt s).

Section Store.
Context {E : Env}.
(** A unique violation is "already exists". *)
Definition named_conflict {X} (name : string) (m : M X) : M X :=
  on_err (λ e, if isUniqueViolation e
               then AlreadyExists "a service named %q already exists in this environment" [AStr name] else e) m.
Definition InsertService (w : ServiceWrite) : M Service :=
  row ← named_conflict (wr_Name w) (db_exec (sql_CreateService w)); mret (serviceFromRow row).
Definition InsertGitService (w : GitServiceWrite) : M Service :=
  row ← named_conflict (gw_Name w) (db_exec (sql_CreateGitService w)); mret (serviceFromRow row).
Definition store_GetService (id : string) : M (option Service) :=
  ok_or_norows (db_query_row (λ d, serviceFromRow <$> sql_GetService id d)).
Definition store_ListServices (rows : DB → list db_Service) : M (list Service) :=
  db_query (λ d, map serviceFromRow (rows d)).
Definition UpdateServiceSource (w : SourceWrite) : M Service :=
  row ← db_exec (sql_UpdateServiceSource w); mret (serviceFromRow row).
Definition store_UpdateVisibility (id visibility : string) : M Service :=
  row ← db_exec (sql_UpdateServiceVisibility id visibility); mret (serviceFromRow row).
Definition store_DeleteService (id : string) : M (option string) := ok_or_norows (db_exec (sql_DeleteService id)).
End Store.

(** ** The Sources port *)
Record ConnectionMeta := mk_ConnectionMeta {
  cm_WorkspaceID : string; cm_Provider : string; cm_Kind : string; cm_AccountLogin : string;
}.
Record ResolvedRepo := mk_ResolvedRepo {
  vr_Owner : string; vr_Name : string; vr_FullName : string; vr_DefaultBranch : string; vr_HTMLURL : string;
  vr_IsPrivate : bool; vr_Branch : string; vr_Provider : string; vr_Kind : string; vr_AccountLogin : string;
  vr_Buildable : bool;
}.
(** Neither call writes; what they report of a connection is what its row says, and
    whether a build can clone is decided by the connection's provider and kind. *)
Class SourcesPort {E : Env} := {
  src_Buildable : string → string → bool;
  src_GetConnectionMeta : string → M (option ConnectionMeta);
  src_ValidateRepo : string → string → string → string → M ResolvedRepo;
  wp_GetConnectionMeta : ∀ id w, wp (src_GetConnectionMeta id) (λ r w', w_db w' = w_db w ∧
    ∀ m, r = inr (Some m) → ∃ row, lookup_by sc_ID id (source_connections (w_db w)) = Some row ∧
      cm_WorkspaceID m = sc_WorkspaceID row ∧ cm_Kind m = sc_Kind row) w;
  wp_ValidateRepo : ∀ id owner repo branch w, wp (src_ValidateRepo id owner repo branch) (λ r w', w_db w' = w_db w ∧
    ∀ v, r = inr v → ∃ row, lookup_by sc_ID id (source_connections (w_db w)) = Some row ∧
      vr_Kind v = sc_Kind row ∧ vr_Buildable v = src_Buildable (sc_Provider row) (sc_Kind row)) w;
}.

(** ** The service *)
Record resolvedSource := mk_resolvedSource {
  rs_kind : string; rs_imageRef : string; rs_templateID : string; rs_access : string; rs_connectionID : string;
  rs_owner : string; rs_repo : string; rs_fullName : string; rs_branch : string; rs_defaultBranch : string;
  rs_htmlURL : string; rs_isPrivate : bool; rs_githubLogin : string; rs_buildable : bool;
}.
(** The source fields both [CreateInput] and [UpdateSourceInput] carry. *)
Record SourceFields := mk_SourceFields {
  sf_kind : string; sf_imageRef : string; sf_templateID : string; sf_repoURL : string; sf_connectionID : string;
  sf_owner : string; sf_repo : string; sf_branch : string;
}.

Definition service_resource (workspaceID id : string) : Resource := mk_Resource "service" workspaceID id.

Section Service.
Context {E : Env} {A : Authorizer} {G : GitHubClient} {P : SourcesPort} {N : Entropy}.

Definition github_call {X} (f : nat → GitHubError + X) (mapErr : GitHubError → go_error) : M X :=
  port (λ n, match f n with inl e => inl (mapErr e) | inr x => inr x end).

Definition resolveBranch (token : string) (info : RepoInfo) (branch : string) : M string :=
  if String.eqb branch "" then mret (ri_DefaultBranch info)
  else
    _ ← github_call (λ n, gh_GetBranch n token (ri_Owner info) (ri_Name info) branch)
          (λ e, match e with
                | github_ErrNotFound =>
                    InvalidInput "branch %q was not found in %s" [AStr branch; AStr (ri_FullName info)]
                | _ => mapGitHubErr e
                end);
    mret branch.

Definition resolveGitSource (workspaceID : string) (f : SourceFields) : M resolvedSource :=
  let branch := TrimSpace (sf_branch f) in
  if negb (String.eqb (TrimSpace (sf_repoURL f)) "") then
    or_ ← of_sum (parsePublicRepo (sf_repoURL f));
    info ← github_call (λ n, gh_GetRepository n "" (fst or_) (snd or_)) mapGitHubErr;
    _ ← require (negb (ri_Private info))
          (InvalidInput "%s is private; connect an integration to deploy a private repository" [AStr (ri_FullName info)]);
    b ← resolveBranch "" info branch;
    mret {| rs_kind := SourceGit; rs_imageRef := ""; rs_templateID := ""; rs_access := accessPublic;
            rs_connectionID := ""; rs_owner := ri_Owner info; rs_repo := ri_Name info; rs_fullName := ri_FullName info;
            rs_branch := b; rs_defaultBranch := ri_DefaultBranch info; rs_htmlURL := ri_HTMLURL info;
            rs_isPrivate := false; rs_githubLogin := ""; rs_buildable := true |}
  else
    _ ← require (negb (String.eqb (TrimSpace (sf_connectionID f)) ""))
          (InvalidInput "a public repository URL, or a connection plus owner and repo, is required" []);
    _ ← require (negb (String.eqb (TrimSpace (sf_owner f)) "" || String.eqb (TrimSpace (sf_repo f)) ""))
          (InvalidInput "owner and repo are required for a connected source" []);
    conn ← src_GetConnectionMeta (sf_connectionID f);
    _ ← require (match conn with Some m => String.eqb (cm_WorkspaceID m) workspaceID | None => false end)
          (NotFound "connection not found in this workspace" []);
    rr ← src_ValidateRepo (sf_connectionID f) (TrimSpace (sf_owner f)) (TrimSpace (sf_repo f)) branch;
    mret {| rs_kind := SourceGit; rs_imageRef := ""; rs_templateID := "";
            rs_access := if String.eqb (vr_Kind rr) "app" then accessApp else accessOAuth;
            rs_connectionID := sf_connectionID f; rs_owner := vr_Owner rr; rs_repo := vr_Name rr;
            rs_fullName := vr_FullName rr; rs_branch := vr_Branch rr; rs_defaultBranch := vr_DefaultBranch rr;
            rs_htmlURL := vr_HTMLURL rr; rs_isPrivate := vr_IsPrivate rr; rs_githubLogin := vr_AccountLogin rr;
            rs_buildable := vr_Buildable rr |}.

Definition image_source (kind imageRef templateID : string) : resolvedSource :=
  mk_resolvedSource kind imageRef templateID "" "" "" "" "" "" "" "" false "" true.
Definition resolveSource (workspaceID : string) (f : SourceFields) : M resolvedSource :=
  if String.eqb (sf_kind f) SourceImage then
    ref ← of_sum (validateImageRef (sf_imageRef f)); mret (image_source SourceImage ref "")
  else if String.eqb (sf_kind f) SourceTemplate then
    ref ← of_sum (validateImageRef (sf_imageRef f));
    _ ← require (negb (String.eqb (TrimSpace (sf_templateID f)) ""))
          (InvalidInput "a template_id is required for a template service" []);
    mret (image_source SourceTemplate ref (TrimSpace (sf_templateID f)))
  else if String.eqb (sf_kind f) SourceGit then resolveGitSource workspaceID f
  else fail (InvalidInput "source_kind must be one of %q, %q, or %q" [AStr SourceImage; AStr SourceGit; AStr SourceTemplate]).

(** The server a first deployment goes to: one of the service's workspace. *)
Definition deploy_server (op : string) (deploy : bool) (serverID workspaceID : string) : M string :=
  if deploy then
    _ ← require (id_Parse serverID) (InvalidInput "a valid server_id is required to deploy" []);
    ws ← wrap op (WorkspaceForServer serverID);
    _ ← require (match ws with Some x => String.eqb x workspaceID | None => false end)
          (NotFound "server %s not found in this workspace" [AStr serverID]);
    mret serverID
  else mret "".
Definition first_deployment (deploy : bool) (serviceID serverID : string) : M string :=
  if deploy then EnqueueFirstDeployment serviceID serverID else mret "".

Definition ic_source (i : CreateInput) : SourceFields :=
  mk_SourceFields (ic_SourceKind i) (ic_ImageRef i) (ic_TemplateID i) (ic_RepoURL i) (ic_ConnectionID i)
    (ic_Owner i) (ic_Repo i) (ic_Branch i).
Definition iu_source (i : UpdateSourceInput) : SourceFields :=
  mk_SourceFields (iu_SourceKind i) (iu_ImageRef i) (iu_TemplateID i) (iu_RepoURL i) (iu_ConnectionID i)
    (iu_Owner i) (iu_Repo i) (iu_Branch i).

(** The insert of either kind of source. *)
Definition insert_resolved (environmentID projectID workspaceID name slug : string) (rs : resolvedSource)
    (port : Z) (visibility : string) : M Service :=
  if String.eqb (rs_kind rs) SourceGit then
    InsertGitService (mk_GitServiceWrite environmentID projectID workspaceID name slug (rs_access rs)
      (rs_connectionID rs) provider (rs_owner rs) (rs_repo rs) (rs_fullName rs) (rs_branch rs)
      (rs_defaultBranch rs) (rs_isPrivate rs) (rs_htmlURL rs) port visibility)
  else
    InsertService (mk_ServiceWrite environmentID projectID workspaceID name slug (rs_kind rs) (rs_imageRef rs)
      (rs_templateID rs) port visibility).

Definition CreateService (caller : Principal) (i : CreateInput) : M Result :=
  _ ← require (id_Parse (ic_EnvironmentID i)) (InvalidInput "a valid environment_id is required" []);
  ns ← of_sum (validateName (ic_Name i));
  visibility ← of_sum (validateVisibility (ic_Visibility i));
  wp_ ← found "create service" (WorkspaceAndProjectForEnvironment (ic_EnvironmentID i))
          (NotFound "environment %s not found" [AStr (ic_EnvironmentID i)]);
  let '(workspaceID, projectID) := wp_ in
  _ ← Authorize caller ActionServiceCreate (service_resource workspaceID "");
  rs ← resolveSource workspaceID (ic_source i);
  port ← of_sum (validatePort (rs_kind rs) (ic_ContainerPort i));
  let deploy := ic_DeployNow i && rs_buildable rs in
  serverID ← deploy_server "create service" deploy (ic_ServerID i) workspaceID;
  r ← on_err (λ e, mapErr e "create service") (within_tx
        (saved ← insert_resolved (ic_EnvironmentID i) projectID workspaceID (fst ns) (snd ns) rs port visibility;
         _ ← audit_Record "service.create" "service" (s_ID saved) workspaceID (p_UserID caller);
         deploymentID ← first_deployment deploy (s_ID saved) serverID;
         mret (saved, deploymentID)));
  let '(saved, deploymentID) := r in
  mret (mk_Result (with_login (rs_githubLogin rs) saved) deploymentID).

Definition database_password (given : string) : M string :=
  if String.eqb given "" then wrap "create database" generateDatabasePassword else mret given.

Definition CreateDatabase (caller : Principal) (i : DatabaseInput) : M DatabaseResult :=
  _ ← require (id_Parse (id_EnvironmentID i)) (InvalidInput "a valid environment_id is required" []);
  tmpl ← of_sum (match lookupDatabaseTemplate (id_TemplateID i) with
                 | Some t => inr t
                 | None => inl (InvalidInput "unknown database template %q" [AStr (id_TemplateID i)])
                 end);
  ns ← of_sum (validateName (id_Name i));
  let dbName := firstNonEmpty [id_DatabaseName i; tm_defaultDB tmpl] in
  let user := firstNonEmpty [id_Username i; tm_defaultUser tmpl] in
  _ ← of_sum (validatePGIdentifier "database name" dbName);
  _ ← of_sum (validatePGIdentifier "username" user);
  _ ← (if negb (String.eqb (id_Password i) "") then of_sum (validateDBPassword (id_Password i)) else mret tt);
  wp_ ← found "create database" (WorkspaceAndProjectForEnvironment (id_EnvironmentID i))
          (NotFound "environment %s not found" [AStr (id_EnvironmentID i)]);
  let '(workspaceID, projectID) := wp_ in
  _ ← Authorize caller ActionServiceCreate (service_resource workspaceID "");
  let deploy := id_DeployNow i in
  serverID ← deploy_server "create database" deploy (id_ServerID i) workspaceID;
  password ← database_password (id_Password i);
  r ← on_err (λ e, mapErr e "create database") (within_tx
        (saved ← InsertService (mk_ServiceWrite (id_EnvironmentID i) projectID workspaceID (fst ns) (snd ns)
                   SourceTemplate (tm_image tmpl) (tm_id tmpl) (tm_port tmpl) VisibilityPrivate);
         _ ← SetWithinTx (s_ID saved) (template_env tmpl user password dbName);
         _ ← audit_Record "service.create_database" "service" (s_ID saved) workspaceID (p_UserID caller);
         deploymentID ← first_deployment deploy (s_ID saved) serverID;
         mret (saved, deploymentID)));
  let '(saved, deploymentID) := r in
  mret (mk_DatabaseResult saved deploymentID (connectionURI tmpl (s_Slug saved) user password dbName)).

(** *** Reads *)
Definition GetService (caller : Principal) (serviceID : string) : M Service :=
  _ ← require (id_Parse serviceID) (InvalidInput "a valid service id is required" []);
  svc ← found "get service" (store_GetService serviceID) (NotFound "service %s not found" [AStr serviceID]);
  _ ← Authorize caller ActionServiceRead (service_resource (s_WorkspaceID svc) (s_ID svc));
  mret svc.
Definition ListByEnvironment (caller : Principal) (environmentID : string) : M (list Service) :=
  _ ← require (id_Parse environmentID) (InvalidInput "a valid environment_id is required" []);
  ws ← found "list services" (WorkspaceAndProjectForEnvironment environmentID)
         (NotFound "environment %s not found" [AStr environmentID]);
  _ ← Authorize caller ActionServiceRead (service_resource (fst ws) "");
  store_ListServices (sql_ListServicesByEnvironment environmentID).
Definition ListByProject (caller : Principal) (projectID : string) : M (list Service) :=
  _ ← require (id_Parse projectID) (InvalidInput "a valid project_id is required" []);
  ws ← found "list services" (WorkspaceForProject projectID) (NotFound "project %s not found" [AStr projectID]);
  _ ← Authorize caller ActionServiceRead (service_resource ws "");
  store_ListServices (sql_ListServicesByProject projectID).
Definition ListByWorkspace (caller : Principal) (workspaceID : string) : M (list Service) :=
  _ ← require (id_Parse workspaceID) (InvalidInput "a valid workspace_id is required" []);
  _ ← Authorize caller ActionServiceRead (service_resource workspaceID "");
  store_ListServices (sql_ListServicesByWorkspace workspaceID).

(** *** Changes *)

(** The workspace and project of the service to change. *)
Definition owner_of (op serviceID : string) : M (string * string) :=
  found op (WorkspaceAndProjectForService serviceID) (NotFound "service %s not found" [AStr serviceID]).

Definition UpdateSource (caller : Principal) (i : UpdateSourceInput) : M Service :=
  _ ← require (id_Parse (iu_ID i)) (InvalidInput "a valid service id is required" []);
  ws ← owner_of "update service source" (iu_ID i);
  let workspaceID := fst ws in
  _ ← Authorize caller ActionServiceUpdate (service_resource workspaceID (iu_ID i));
  rs ← resolveSource workspaceID (iu_source i);
  port ← of_sum (validatePort (rs_kind rs) (iu_ContainerPort i));
  saved ← on_err (λ e, mapErr e "update service source") (within_tx
    (saved ← UpdateServiceSource (mk_SourceWrite (iu_ID i) (rs_kind rs) (rs_imageRef rs) (rs_templateID rs)
               (rs_connectionID rs) (providerFor (rs_kind rs)) (rs_owner rs) (rs_repo rs) (rs_fullName rs)
               (rs_branch rs) (rs_defaultBranch rs) (rs_isPrivate rs) (rs_htmlURL rs) (rs_access rs) port);
     _ ← audit_Record "service.update" "service" (iu_ID i) workspaceID (p_UserID caller);
     mret saved));
  mret (with_login (rs_githubLogin rs) saved).

Definition UpdateVisibility (caller : Principal) (serviceID visibility : string) : M Service :=
  _ ← require (id_Parse serviceID) (InvalidInput "a valid service id is required" []);
  vis ← of_sum (validateVisibility visibility);
  ws ← owner_of "update service visibility" serviceID;
  let workspaceID := fst ws in
  _ ← Authorize caller ActionServiceUpdate (service_resource workspaceID serviceID);
  on_err (λ e, mapErr e "update service visibility") (within_tx
    (saved ← store_UpdateVisibility serviceID vis;
     _ ← audit_Record "service.update" "service" serviceID workspaceID (p_UserID caller);
     mret saved)).

Definition DeleteService (caller : Principal) (serviceID : string) : M unit :=
  _ ← require (id_Parse serviceID) (InvalidInput "a valid service id is required" []);
  ws ← owner_of "delete service" serviceID;
  let workspaceID := fst ws in
  _ ← Authorize caller ActionServiceDelete (service_resource workspaceID serviceID);
  on_err (λ e, mapErr e "delete service") (within_tx
    (deleted ← store_DeleteService serviceID;
     match deleted with
     | None => fail (NotFound "service %s not found" [AStr serviceID])
     | Some deletedID => audit_Record "service.delete" "service" deletedID workspaceID (p_UserID caller)
     end)).
End Service.
