(* ===== verification/ServicesSpec.v ===== *)
(** * ServicesSpec: what each handler of the services module does

    One weakest-precondition rule per handler of [Services]: an error leaves the
    database as it was, a success writes the row described here, its audit row and, for
    a create that deploys, the queued deployment. *)
From S2P Require Import Prelude.
From S2P Require Import GoStrings.
From S2P Require Import Problem.
From S2P Require Import Schema.
From S2P Require Import Platform.
From S2P Require Import Authz.
From S2P Require Import DeployNames.
From S2P Require Import DeployStore.
From S2P Require Import Deployments.
From S2P Require Import DeploySpec.
From S2P Require Import DeployHandlers.
From S2P Require Import Config.
From S2P Require Import ConfigProps.
From S2P Require Import Services.

(** ** Statements *)
Definition service_inserted (row : db_Service) (d d' : DB) : Prop :=
  service_checks row = true ∧ service_unique row d = true ∧ service_refs row d = true ∧
  d' = set_services (services d ++ [row]) d.
Definition service_updated (id : string) (f : db_Service → db_Service) (row : db_Service) (d d' : DB) : Prop :=
  lookup_by sv_ID id (services d) = Some row ∧ service_checks (f row) = true ∧ connection_exists (f row) d = true ∧
  d' = set_services (update_where (λ x, String.eqb (sv_ID x) id) f (services d)) d.

Lemma insert_service_spec row d r d' : insert_service row d = inr (r, d') → r = row ∧ service_inserted row d d'.
Proof.
  unfold insert_service. destruct (service_checks row) eqn:H1; [|done]. destruct (service_unique row d) eqn:H2; [|done].
  destruct (service_refs row d) eqn:H3; [|done]. intros [= <- <-]. by repeat split.
Qed.
Lemma update_service_spec id f d r d' : update_service id f d = inr (r, d') →
  ∃ row, r = f row ∧ service_updated id f row d d'.
Proof.
  unfold update_service, service_updated. destruct (lookup_by sv_ID id (services d)) as [row|]; [|done].
  destruct (service_checks (f row) && connection_exists (f row) d) eqn:Hc; [|done]. intros [= <- <-]. propify. by exists row.
Qed.

(** The columns of a new row. *)
Definition new_service {E : Env} (env pj ws name slug : string) (rs : resolvedSource) (port : Z) (vis : string) (row : db_Service) : Prop :=
  sv_EnvironmentID row = env ∧ sv_ProjectID row = pj ∧ sv_WorkspaceID row = ws ∧ sv_Name row = name ∧ sv_Slug row = slug ∧
  sv_SourceKind row = rs_kind rs ∧ sv_ImageRef row = rs_imageRef rs ∧ sv_TemplateID row = rs_templateID rs ∧
  sv_ConnectionID row = nullableStr (rs_connectionID rs) ∧ sv_Owner row = rs_owner rs ∧ sv_Repo row = rs_repo rs ∧
  sv_FullName row = rs_fullName rs ∧ sv_Branch row = rs_branch rs ∧ sv_DefaultBranch row = rs_defaultBranch rs ∧
  sv_IsPrivate row = rs_isPrivate rs ∧ sv_HtmlUrl row = rs_htmlURL rs ∧ sv_SourceAccess row = rs_access rs ∧
  sv_ContainerPort row = port ∧ sv_Visibility row = vis ∧ sv_RouteUrl row = "" ∧ sv_Provider row = providerFor (rs_kind rs) ∧
  ∃ n, sv_ID row = uuid_at n.

(** What a source resolves to. *)
Inductive source_resolved {E : Env} {G : GitHubClient} {P : SourcesPort} (ws : string) (f : SourceFields) (d : DB) : resolvedSource → Prop :=
  | sr_image ref : sf_kind f = SourceImage → validateImageRef (sf_imageRef f) = inr ref →
      source_resolved ws f d (image_source SourceImage ref "")
  | sr_template ref : sf_kind f = SourceTemplate → validateImageRef (sf_imageRef f) = inr ref →
      TrimSpace (sf_templateID f) ≠ "" →
      source_resolved ws f d (image_source SourceTemplate ref (TrimSpace (sf_templateID f)))
  | sr_public o r n info b : sf_kind f = SourceGit → parsePublicRepo (sf_repoURL f) = inr (o, r) →
      gh_GetRepository n "" o r = inr info → ri_Private info = false →
      (b = TrimSpace (sf_branch f) ∧ TrimSpace (sf_branch f) ≠ "" ∨ b = ri_DefaultBranch info ∧ TrimSpace (sf_branch f) = "") →
      source_resolved ws f d
        (mk_resolvedSource SourceGit "" "" accessPublic "" (ri_Owner info) (ri_Name info) (ri_FullName info) b
           (ri_DefaultBranch info) (ri_HTMLURL info) false "" true)
  | sr_connected row rs : sf_kind f = SourceGit → TrimSpace (sf_repoURL f) = "" →
      lookup_by sc_ID (sf_connectionID f) (source_connections d) = Some row → sc_WorkspaceID row = ws →
      rs_kind rs = SourceGit → rs_imageRef rs = "" → rs_templateID rs = "" →
      rs_connectionID rs = sf_connectionID f → sf_connectionID f ≠ "" →
      rs_access rs = (if String.eqb (sc_Kind row) "app" then accessApp else accessOAuth) →
      rs_buildable rs = src_Buildable (sc_Provider row) (sc_Kind row) →
      source_resolved ws f d rs.

Section Rules.
Context {E : Env} {A : Authorizer} {G : GitHubClient} {P : SourcesPort} {N : Entropy}.
Implicit Types (w : World).

Lemma wp_github_call {X} (f : nat → GitHubError + X) mapErr (Q : go_error + X → World → Prop) w :
  (∀ e w', w_db w' = w_db w → Q (inl e) w') →
  (∀ n x w', w_db w' = w_db w → f n = inr x → Q (inr x) w') →
  wp (github_call f mapErr) Q w.
Proof.
  intros He Ha. unfold github_call. wp_step. destruct (f n) as [e|x] eqn:Hf; [by apply He|by eapply Ha].
Qed.

Lemma wp_resolveBranch tok info b (Q : go_error + string → World → Prop) w :
  (∀ e w', w_db w' = w_db w → Q (inl e) w') →
  (∀ r w', w_db w' = w_db w → (r = b ∧ b ≠ "" ∨ r = ri_DefaultBranch info ∧ b = "") → Q (inr r) w') →
  wp (resolveBranch tok info b) Q w.
Proof.
  intros He Ha. unfold resolveBranch. destruct (String.eqb_spec b "") as [->|Hb]; [apply wp_ret, Ha; auto|].
  wp_step. apply wp_github_call; [done|]. intros n x w' Hw _. wp_step. apply Ha; auto.
Qed.

Lemma wp_resolveGitSource ws f (Q : go_error + resolvedSource → World → Prop) w :
  sf_kind f = SourceGit →
  (∀ e w', w_db w' = w_db w → Q (inl e) w') →
  (∀ rs w', w_db w' = w_db w → source_resolved ws f (w_db w) rs → Q (inr rs) w') →
  wp (resolveGitSource ws f) Q w.
Proof.
  intros Hk He Ha. unfold resolveGitSource. destruct (String.eqb_spec (TrimSpace (sf_repoURL f)) "") as [Hu|Hu]; simpl.
  - wp_step. wp_step; [|by apply He]. wp_step. wp_step; [|by apply He]. propify.
    wp_step. eapply wp_mono; [|apply wp_GetConnectionMeta]. intros r w1 [Hw1 Hm].
    destruct r as [e|m]; [by apply He|]. wp_step. wp_step; [|by apply He]. destruct m as [m|]; [|done]. propify.
    destruct (Hm m eq_refl) as (row & Hrow & Hws & _). wp_step. eapply wp_mono; [|apply wp_ValidateRepo].
    intros r w2 [Hw2 Hv]. destruct r as [e|v]; [apply He; congruence|]. wp_step. apply Ha; [congruence|].
    destruct (Hv v eq_refl) as (row' & Hrow' & Hkind & Hbuild). rewrite Hw1 in *. simplify_eq.
    eapply sr_connected; try done; try congruence; [|simpl; by rewrite Hkind].
    intros Hc. rewrite Hc in H. by vm_compute in H.
  - wp_step. wp_step. destruct (parsePublicRepo (sf_repoURL f)) as [e|[o r]] eqn:Hp; [by apply He|].
    wp_step. apply wp_github_call; [by apply He|]. intros n info w1 Hw1 Hinfo. wp_step. wp_step; [|by apply He].
    wp_step. apply wp_resolveBranch; [intros; apply He; congruence|]. intros b w2 Hw2 Hb. wp_step.
    apply Ha; [congruence|]. propify. by apply (sr_public _ _ _ o r n).
Qed.

Lemma wp_resolveSource ws f (Q : go_error + resolvedSource → World → Prop) w :
  (∀ e w', w_db w' = w_db w → Q (inl e) w') →
  (∀ rs w', w_db w' = w_db w → source_resolved ws f (w_db w) rs → Q (inr rs) w') →
  wp (resolveSource ws f) Q w.
Proof.
  intros He Ha. unfold resolveSource. destruct (String.eqb_spec (sf_kind f) SourceImage) as [Hk|Hk1].
  { wp_step. wp_step. destruct (validateImageRef (sf_imageRef f)) as [e|ref] eqn:Hv; [by apply He|]. wp_step. by apply Ha; [|apply sr_image]. }
  destruct (String.eqb_spec (sf_kind f) SourceTemplate) as [Hk|Hk2].
  { wp_step. wp_step. destruct (validateImageRef (sf_imageRef f)) as [e|ref] eqn:Hv; [by apply He|].
    wp_step. wp_step; [|by apply He]. propify. wp_step. by apply Ha; [|apply sr_template]. }
  destruct (String.eqb_spec (sf_kind f) SourceGit) as [Hk|Hk3]; [by apply wp_resolveGitSource|by apply He].
Qed.

Lemma wp_deploy_server op (deploy : bool) srv ws (Q : go_error + string → World → Prop) w :
  (∀ e w', w_db w' = w_db w → Q (inl e) w') →
  (∀ w', w_db w' = w_db w →
     (if deploy then ∃ s, lookup_by srv_ID srv (servers (w_db w)) = Some s ∧ srv_WorkspaceID s = ws else True) →
     Q (inr (if deploy then srv else "")) w') →
  wp (deploy_server op deploy srv ws) Q w.
Proof.
  intros He Ha. unfold deploy_server. destruct deploy; [|by apply wp_ret, Ha].
  wp_step. wp_step; [|by apply He]. wp_step. wp_step. unfold WorkspaceForServer. wp_step; [by apply He|].
  wp_step. wp_step; [|by apply He]. wp_step. apply Ha; [done|]. unfold sql_GetServerWorkspace in *.
  destruct (lookup_by srv_ID srv (servers (w_db w))) as [s|]; [|done]. simpl in *. propify. by exists s.
Qed.

(** The first deployment: nothing, or the queued production row of the service. *)
Definition first_deployed (deploy : bool) (sid srv depID : string) (d d' : DB) : Prop :=
  if deploy then ∃ svc row, service_row sid svc d ∧ production_row sid srv svc 0 "" row ∧ inserted row d d' ∧ depID = dp_ID row
  else d' = d ∧ depID = "".
Lemma wp_first_deployment (deploy : bool) sid srv (Q : go_error + string → World → Prop) w :
  (∀ e w', Q (inl e) w') →
  (∀ depID w', first_deployed deploy sid srv depID (w_db w) (w_db w') → Q (inr depID) w') →
  wp (first_deployment deploy sid srv) Q w.
Proof.
  intros He Ha. unfold first_deployment. destruct deploy; [|by apply wp_ret, Ha].
  unfold EnqueueFirstDeployment. wp_step. apply wp_serviceForDeploy; [by intros; apply He|by intros; apply He|].
  intros svc w1 Hw1 Hsvc. wp_step. apply wp_buildAndInsert; [by intros; apply He|]. intros row w2 Hins Hrow. wp_step.
  apply Ha. exists svc, row. rewrite Hw1 in *. split; [done|]. by split.
Qed.

Lemma wp_named_conflict {X} name (m : M X) (Q : go_error + X → World → Prop) w :
  wp m (λ r w', match r with inl e => ∀ e', Q (inl e') w' | inr a => Q (inr a) w' end) w → wp (named_conflict name m) Q w.
Proof. intros H. unfold named_conflict. wp_step. eapply wp_mono; [|exact H]. by intros [e|a] w' ?. Qed.

Lemma wp_insert_resolved env pj ws name slug rs port vis (Q : go_error + Service → World → Prop) w :
  (rs_kind rs = SourceGit → rs_imageRef rs = "" ∧ rs_templateID rs = "") →
  (rs_kind rs ≠ SourceGit → ∃ ref tid, rs = image_source (rs_kind rs) ref tid) →
  (∀ e w', Q (inl e) w') →
  (∀ row w', new_service env pj ws name slug rs port vis row → service_inserted row (w_db w) (w_db w') →
     Q (inr (serviceFromRow row)) w') →
  wp (insert_resolved env pj ws name slug rs port vis) Q w.
Proof.
  intros Hgit Himg He Ha. unfold insert_resolved. destruct (String.eqb_spec (rs_kind rs) SourceGit) as [Hk|Hk].
  - unfold InsertGitService. wp_step. apply wp_named_conflict, wp_exec_uuid; [by intros|]. intros n st r w1 Hn H.
    apply insert_service_spec in H as [-> Hins]. wp_step. apply Ha; [|done]. destruct (Hgit Hk) as [H1 H2].
    unfold new_service, providerFor. rewrite Hk, H1, H2. by repeat split; [..|exists n].
  - unfold InsertService. wp_step. apply wp_named_conflict, wp_exec_uuid; [by intros|]. intros n st r w1 Hn H.
    apply insert_service_spec in H as [-> Hins]. wp_step. apply Ha; [|done]. destruct (Himg Hk) as (ref & tid & Hrs).
    unfold new_service, providerFor. rewrite Hrs. simpl. destruct (String.eqb_spec (rs_kind rs) SourceGit); [done|]. by repeat split; [..|exists n].
Qed.

(** ** Creating *)
Record service_created (c : Principal) (i : CreateInput) (row : db_Service) (login depID : string) (d d' : DB) : Prop := {
  scr_source : ∃ rs, source_resolved (sv_WorkspaceID row) (ic_source i) d rs ∧ login = rs_githubLogin rs ∧
    ∃ name slug port vis pj d1 d2,
      validateName (ic_Name i) = inr (name, slug) ∧ validateVisibility (ic_Visibility i) = inr vis ∧
      validatePort (rs_kind rs) (ic_ContainerPort i) = inr port ∧
      sql_GetEnvironmentWorkspaceAndProject (ic_EnvironmentID i) d = Some (sv_WorkspaceID row, pj) ∧
      new_service (ic_EnvironmentID i) pj (sv_WorkspaceID row) name slug rs port vis row ∧
      service_inserted row d d1 ∧
      audited "service.create" "service" (sv_ID row) (sv_WorkspaceID row) (p_UserID c) d1 d2 ∧
      (ic_DeployNow i && rs_buildable rs = true →
         ∃ s, lookup_by srv_ID (ic_ServerID i) (servers d) = Some s ∧ srv_WorkspaceID s = sv_WorkspaceID row) ∧
      first_deployed (ic_DeployNow i && rs_buildable rs) (sv_ID row) (ic_ServerID i) depID d2 d';
  scr_allowed : allows c ActionServiceCreate (service_resource (sv_WorkspaceID row) "") d;
}.

Lemma source_resolved_shape ws f d rs : source_resolved ws f d rs →
  (rs_kind rs = SourceGit → rs_imageRef rs = "" ∧ rs_templateID rs = "") ∧
  (rs_kind rs ≠ SourceGit → ∃ ref tid, rs = image_source (rs_kind rs) ref tid).
Proof. intros []; split; simpl; intros H'; try done; try congruence; eauto. Qed.

Lemma wp_CreateService c i (Q : go_error + Result → World → Prop) w :
  (∀ e w', w_db w' = w_db w → Q (inl e) w') →
  (∀ row login depID w', service_created c i row login depID (w_db w) (w_db w') →
     Q (inr (mk_Result (with_login login (serviceFromRow row)) depID)) w') →
  wp (CreateService c i) Q w.
Proof.
  intros He Ha. unfold CreateService. wp_step. wp_step; [|by apply He].
  wp_step. wp_step. destruct (validateName (ic_Name i)) as [e|[name slug]] eqn:Hn; [by apply He|].
  wp_step. wp_step. destruct (validateVisibility (ic_Visibility i)) as [e|vis] eqn:Hv; [by apply He|].
  wp_step. wp_step. unfold WorkspaceAndProjectForEnvironment. wp_step; [by apply He|].
  destruct (sql_GetEnvironmentWorkspaceAndProject (ic_EnvironmentID i) (w_db w)) as [[ws pj]|] eqn:Hws; [|by apply He].
  wp_step. apply wp_Authorize; [intros; apply He; congruence|]. intros w2 Hw2 Hal. world_eq.
  wp_step. apply wp_resolveSource; [intros; apply He; congruence|]. intros rs w3 Hw3 Hrs. world_eq.
  wp_step. wp_step. destruct (validatePort (rs_kind rs) (ic_ContainerPort i)) as [e|port] eqn:Hp; [apply He; congruence|].
  wp_step. apply wp_deploy_server; [intros; apply He; congruence|]. intros w4 Hw4 Hsrv.
  wp_step. wp_step. wp_step; [apply He; congruence|]. world_eq. destruct (source_resolved_shape _ _ _ _ Hrs) as [Hg Hi].
  wp_step. apply wp_insert_resolved; [done|done|done|]. intros row w5 Hrow Hins.
  wp_step. apply wp_audit_Record; [done|]. intros w6 Haud. wp_step. apply wp_first_deployment; [done|].
  intros depID w7 Hdep. wp_step. intros w8 Hw8. wp_step.
  assert (sv_WorkspaceID row = ws) as Hrow_ws by apply Hrow.
  rewrite H0 in *. apply Ha. split; rewrite Hrow_ws; [|done]. exists rs. split; [done|]. split; [done|].
  exists name, slug, port, vis, pj, (w_db w5), (w_db w6). rewrite Hw8.
  split; [done|]. split; [done|]. split; [done|]. split; [done|]. split; [done|]. split; [done|]. split; [exact Haud|].
  by destruct (ic_DeployNow i && rs_buildable rs).
Qed.

(** A managed database: a private template service, its credentials, its audit row and
    its first deployment, in one transaction. *)
Definition db_name (i : DatabaseInput) : string := firstNonEmpty [id_DatabaseName i; tm_defaultDB postgresTemplate].
Definition db_user (i : DatabaseInput) : string := firstNonEmpty [id_Username i; tm_defaultUser postgresTemplate].
Definition database_source : resolvedSource := image_source SourceTemplate (tm_image postgresTemplate) (tm_id postgresTemplate).
Definition password_ok (i : DatabaseInput) (password : string) : Prop :=
  if String.eqb (id_Password i) "" then ∃ k l, rand_Read k 24 = inr l ∧ password = str_of (b64_encode l)
  else password = id_Password i ∧ dbPasswordRe_MatchString password = true.

Record database_created (c : Principal) (i : DatabaseInput) (row : db_Service) (password depID : string) (d d' : DB) : Prop := {
  dcr_inputs : pgIdentifierRe_MatchString (db_name i) = true ∧ pgIdentifierRe_MatchString (db_user i) = true ∧
    password_ok i password;
  dcr_allowed : allows c ActionServiceCreate (service_resource (sv_WorkspaceID row) "") d;
  dcr_server : id_DeployNow i = true →
    ∃ s, lookup_by srv_ID (id_ServerID i) (servers d) = Some s ∧ srv_WorkspaceID s = sv_WorkspaceID row;
  dcr_written : ∃ name slug pj d1 d2 d3,
    validateName (id_Name i) = inr (name, slug) ∧
    sql_GetEnvironmentWorkspaceAndProject (id_EnvironmentID i) d = Some (sv_WorkspaceID row, pj) ∧
    new_service (id_EnvironmentID i) pj (sv_WorkspaceID row) name slug database_source 5432 VisibilityPrivate row ∧
    service_inserted row d d1 ∧
    vars_set (sv_ID row) (template_env postgresTemplate (db_user i) password (db_name i)) [] d1 d2 ∧
    audited "service.create_database" "service" (sv_ID row) (sv_WorkspaceID row) (p_UserID c) d2 d3 ∧
    first_deployed (id_DeployNow i) (sv_ID row) (id_ServerID i) depID d3 d';
}.

Lemma template_env_keys user password db k :
  is_Some (template_env postgresTemplate user password db !! k) →
  k = "POSTGRES_USER" ∨ k = "POSTGRES_PASSWORD" ∨ k = "POSTGRES_DB".
Proof.
  unfold template_env. simpl. rewrite !lookup_union_is_Some. intros [[[v H]|[v H]]|[v H]];
    apply lookup_singleton_Some in H as [<- _]; auto.
Qed.
Lemma template_env_trimmed user password db k :
  is_Some (template_env postgresTemplate user password db !! k) → TrimSpace k = k.
Proof. intros H. apply template_env_keys in H as [-> | [-> | ->]]; by vm_compute. Qed.

Lemma cwf_services d rows : cwf d → cwf (set_services rows d).
Proof. by intros [? ?]. Qed.

Lemma wp_database_password given (Q : go_error + string → World → Prop) w :
  (∀ e w', w_db w' = w_db w → Q (inl e) w') →
  (∀ p w', w_db w' = w_db w →
     (if String.eqb given "" then ∃ k l, rand_Read k 24 = inr l ∧ p = str_of (b64_encode l) else p = given) →
     Q (inr p) w') →
  wp (database_password given) Q w.
Proof.
  intros He Ha. unfold database_password in *. destruct (String.eqb given ""); [|by apply wp_ret, Ha].
  unfold generateDatabasePassword. do 3 wp_step. destruct (rand_Read n 24) as [e|l] eqn:Hr; [by apply He|].
  wp_step. apply Ha; [done|]. by exists n, l.
Qed.

Lemma wp_given_password given (Q : go_error + unit → World → Prop) w :
  (∀ e w', w_db w' = w_db w → Q (inl e) w') →
  ((String.eqb given "" = false → dbPasswordRe_MatchString given = true) → Q (inr tt) w) →
  wp (if negb (String.eqb given "") then of_sum (validateDBPassword given) else mret tt) Q w.
Proof.
  intros He Ha. destruct (String.eqb given "") eqn:Hg; simpl; [by apply wp_ret, Ha|]. wp_step.
  unfold validateDBPassword. destruct (dbPasswordRe_MatchString given) eqn:Hm; [by apply Ha|by apply He].
Qed.

Lemma wp_CreateDatabase c i (Q : go_error + DatabaseResult → World → Prop) w :
  cwf (w_db w) →
  (∀ e w', w_db w' = w_db w → Q (inl e) w') →
  (∀ row password depID w', database_created c i row password depID (w_db w) (w_db w') →
     Q (inr (mk_DatabaseResult (serviceFromRow row) depID
               (connectionURI postgresTemplate (sv_Slug row) (db_user i) password (db_name i)))) w') →
  wp (CreateDatabase c i) Q w.
Proof.
  intros W He Ha. unfold CreateDatabase. wp_step. wp_step; [|by apply He].
  wp_step. wp_step. unfold lookupDatabaseTemplate. destruct (String.eqb (TrimSpace (id_TemplateID i)) "postgres"); [|by apply He].
  wp_step. wp_step. destruct (validateName (id_Name i)) as [e|[name slug]] eqn:Hn; [by apply He|]. cbv zeta.
  fold (db_name i). fold (db_user i).
  wp_step. wp_step. unfold validatePGIdentifier. destruct (pgIdentifierRe_MatchString (db_name i)) eqn:Hdb; [|by apply He].
  wp_step. wp_step. destruct (pgIdentifierRe_MatchString (db_user i)) eqn:Hus; [|by apply He].
  wp_step. apply wp_given_password; [done|]. intros Hgiven.
  wp_step. wp_step. unfold WorkspaceAndProjectForEnvironment. wp_step; [by apply He|].
  destruct (sql_GetEnvironmentWorkspaceAndProject (id_EnvironmentID i) (w_db w)) as [[ws pj]|] eqn:Hws; [|by apply He].
  wp_step. apply wp_Authorize; [intros; apply He; congruence|]. intros w2 Hw2 Hal. world_eq.
  wp_step. apply wp_deploy_server; [intros; apply He; congruence|]. intros w3 Hw3 Hsrv. world_eq.
  wp_step. apply wp_database_password; [intros; apply He; congruence|]. intros password w4 Hw4 Hpw. world_eq.
  wp_step. wp_step. wp_step; [apply He; congruence|].
  wp_step. unfold InsertService. wp_step. apply wp_named_conflict, wp_exec_uuid; [done|]. intros n st r w5 Hn' Hins.
  apply insert_service_spec in Hins as [-> Hins]. set (row := mk_sv _ _ _ _ _ _ _ _ _ _ _ _ _ _ _ _ _ _ _ _ _ _ _ _) in *.
  wp_step. wp_step. apply wp_SetWithinTx; [|by intros k; apply template_env_trimmed|done|].
  { destruct Hins as (_ & _ & _ & ->). apply cwf_services. by world_eq. }
  intros w6 Hvars. wp_step. apply wp_audit_Record; [done|]. intros w7 Haud. wp_step. apply wp_first_deployment; [done|].
  intros depID w8 Hdep. wp_step. intros w9 Hw9. wp_step. world_eq.
  apply (Ha row). split.
  - split; [done|]. split; [done|]. unfold password_ok. destruct (String.eqb (id_Password i) ""); [done|]. subst password. by split; [|apply Hgiven].
  - exact Hal.
  - intros Hd. by rewrite Hd in Hsrv.
  - exists name, slug, pj, (w_db w5), (w_db w6), (w_db w7).
    split; [done|]. split; [done|]. split; [by repeat split; [..|exists n]|]. split; [done|]. split; [exact Hvars|].
    split; [exact Haud|]. dbs. by destruct (id_DeployNow i).
Qed.

(** ** Reads *)
(** The caller may read services of the workspace [ws]. *)
Definition services_readable (c : Principal) (ws : string) (d : DB) : Prop :=
  allows c ActionServiceRead (service_resource ws "") d.

Lemma wp_GetService c id (Q : go_error + Service → World → Prop) w :
  (∀ e w', w_db w' = w_db w → Q (inl e) w') →
  (∀ row w', w_db w' = w_db w → lookup_by sv_ID id (services (w_db w)) = Some row →
     allows c ActionServiceRead (service_resource (sv_WorkspaceID row) (sv_ID row)) (w_db w) →
     Q (inr (serviceFromRow row)) w') →
  wp (GetService c id) Q w.
Proof.
  intros He Ha. unfold GetService. wp_step. wp_step; [|by apply He]. wp_step. wp_step. unfold store_GetService. wp_step; [by apply He|].
  unfold sql_GetService. destruct (lookup_by sv_ID id (services (w_db w))) as [row|] eqn:Hl; [|by apply He]. simpl.
  wp_step. apply wp_Authorize; [intros; apply He; congruence|]. intros w2 Hw2 Hal. wp_step. world_eq. by apply Ha.
Qed.
Lemma wp_list_services c (rows : DB → list db_Service) ws (Q : go_error + list Service → World → Prop) w :
  (∀ e w', w_db w' = w_db w → Q (inl e) w') →
  (∀ w', w_db w' = w_db w → services_readable c ws (w_db w) → Q (inr (map serviceFromRow (rows (w_db w)))) w') →
  wp (Authorize c ActionServiceRead (service_resource ws "") ≫= λ _, store_ListServices rows) Q w.
Proof.
  intros He Ha. wp_step. apply wp_Authorize; [done|]. intros w2 Hw2 Hal. unfold store_ListServices.
  wp_step; [apply He; congruence|]. world_eq. by apply Ha.
Qed.
Lemma wp_ListByEnvironment c env (Q : go_error + list Service → World → Prop) w :
  (∀ e w', w_db w' = w_db w → Q (inl e) w') →
  (∀ ws pj w', w_db w' = w_db w → sql_GetEnvironmentWorkspaceAndProject env (w_db w) = Some (ws, pj) →
     services_readable c ws (w_db w) →
     Q (inr (map serviceFromRow (sql_ListServicesByEnvironment env (w_db w)))) w') →
  wp (ListByEnvironment c env) Q w.
Proof.
  intros He Ha. unfold ListByEnvironment. wp_step. wp_step; [|by apply He]. wp_step. wp_step.
  unfold WorkspaceAndProjectForEnvironment. wp_step; [by apply He|].
  destruct (sql_GetEnvironmentWorkspaceAndProject env (w_db w)) as [[ws pj]|] eqn:Hws; [|by apply He].
  apply wp_list_services; [intros; apply He; congruence|]. intros; world_eq. by eapply Ha.
Qed.
Lemma wp_ListByProject c pj (Q : go_error + list Service → World → Prop) w :
  (∀ e w', w_db w' = w_db w → Q (inl e) w') →
  (∀ ws w', w_db w' = w_db w → sql_GetProjectWorkspaceID pj (w_db w) = Some ws → services_readable c ws (w_db w) →
     Q (inr (map serviceFromRow (sql_ListServicesByProject pj (w_db w)))) w') →
  wp (ListByProject c pj) Q w.
Proof.
  intros He Ha. unfold ListByProject. wp_step. wp_step; [|by apply He]. wp_step. wp_step.
  unfold WorkspaceForProject. wp_step; [by apply He|].
  destruct (sql_GetProjectWorkspaceID pj (w_db w)) as [ws|] eqn:Hws; [|by apply He].
  apply wp_list_services; [intros; apply He; congruence|]. intros; world_eq. by eapply Ha.
Qed.
Lemma wp_ListByWorkspace c ws (Q : go_error + list Service → World → Prop) w :
  (∀ e w', w_db w' = w_db w → Q (inl e) w') →
  (∀ w', w_db w' = w_db w → services_readable c ws (w_db w) →
     Q (inr (map serviceFromRow (sql_ListServicesByWorkspace ws (w_db w)))) w') →
  wp (ListByWorkspace c ws) Q w.
Proof.
  intros He Ha. unfold ListByWorkspace. wp_step. wp_step; [|by apply He]. by apply wp_list_services.
Qed.

(** ** Changes *)
Lemma wp_owner_of op id (Q : go_error + string * string → World → Prop) w :
  (∀ e w', w_db w' = w_db w → Q (inl e) w') →
  (∀ row w', w_db w' = w_db w → lookup_by sv_ID id (services (w_db w)) = Some row →
     Q (inr (sv_WorkspaceID row, sv_ProjectID row)) w') →
  wp (owner_of op id) Q w.
Proof.
  intros He Ha. unfold owner_of, WorkspaceAndProjectForService. do 2 wp_step; [by apply He|].
  unfold sql_GetServiceWorkspaceAndProject. destruct (lookup_by sv_ID id (services (w_db w))) as [row|] eqn:Hl; [by apply Ha|by apply He].
Qed.

(** An update of the row [row]: [f] of it, audited. *)
Definition changed_audited (c : Principal) (id : string) (f : db_Service → db_Service) (row : db_Service) (d d' : DB) : Prop :=
  allows c ActionServiceUpdate (service_resource (sv_WorkspaceID row) id) d ∧
  ∃ d1, service_updated id f row d d1 ∧ audited "service.update" "service" id (sv_WorkspaceID row) (p_UserID c) d1 d'.

Definition source_write (i : UpdateSourceInput) (rs : resolvedSource) (port : Z) : SourceWrite :=
  mk_SourceWrite (iu_ID i) (rs_kind rs) (rs_imageRef rs) (rs_templateID rs)
    (rs_connectionID rs) (providerFor (rs_kind rs)) (rs_owner rs) (rs_repo rs) (rs_fullName rs)
    (rs_branch rs) (rs_defaultBranch rs) (rs_isPrivate rs) (rs_htmlURL rs) (rs_access rs) port.

Lemma wp_UpdateSource c i (Q : go_error + Service → World → Prop) w :
  (∀ e w', w_db w' = w_db w → Q (inl e) w') →
  (∀ row rs port now w',
     source_resolved (sv_WorkspaceID row) (iu_source i) (w_db w) rs →
     validatePort (rs_kind rs) (iu_ContainerPort i) = inr port →
     changed_audited c (iu_ID i) (sv_set_source (source_write i rs port) now) row (w_db w) (w_db w') →
     Q (inr (with_login (rs_githubLogin rs) (serviceFromRow (sv_set_source (source_write i rs port) now row)))) w') →
  wp (UpdateSource c i) Q w.
Proof.
  intros He Ha. unfold UpdateSource. wp_step. wp_step; [|by apply He].
  wp_step. apply wp_owner_of; [by apply He|]. intros row w1 Hw1 Hrow. simpl.
  wp_step. apply wp_Authorize; [intros; apply He; congruence|]. intros w2 Hw2 Hal. world_eq.
  wp_step. apply wp_resolveSource; [intros; apply He; congruence|]. intros rs w3 Hw3 Hrs. world_eq.
  wp_step. wp_step. destruct (validatePort (rs_kind rs) (iu_ContainerPort i)) as [e|port] eqn:Hp; [apply He; congruence|].
  wp_step. wp_step. wp_step; [apply He; congruence|]. rename w0 into w4, H0 into Hw4. fold (source_write i rs port).
  wp_step. unfold UpdateServiceSource. wp_step. apply wp_exec; [done|]. intros st r w5 Hup.
  apply update_service_spec in Hup as (row' & -> & Hup). wp_step.
  wp_step. apply wp_audit_Record; [done|]. intros w6 Haud. wp_step. intros w7 Hw7. wp_step.
  change (sw_ID (source_write i rs port)) with (iu_ID i) in Hup. rewrite Hw4, Hw3 in Hup.
  assert (row' = row) as -> by (destruct Hup as [Hup _]; congruence).
  eapply Ha; try done. split; [done|]. exists (w_db w5). split; [done|]. by dbs.
Qed.

Lemma wp_UpdateVisibility c id visibility (Q : go_error + Service → World → Prop) w :
  (∀ e w', w_db w' = w_db w → Q (inl e) w') →
  (∀ row vis now w', validateVisibility visibility = inr vis →
     changed_audited c id (sv_set_visibility vis now) row (w_db w) (w_db w') →
     Q (inr (serviceFromRow (sv_set_visibility vis now row))) w') →
  wp (UpdateVisibility c id visibility) Q w.
Proof.
  intros He Ha. unfold UpdateVisibility. wp_step. wp_step; [|by apply He].
  wp_step. wp_step. destruct (validateVisibility visibility) as [e|vis] eqn:Hv; [by apply He|].
  wp_step. apply wp_owner_of; [by apply He|]. intros row w1 Hw1 Hrow. simpl.
  wp_step. apply wp_Authorize; [intros; apply He; congruence|]. intros w2 Hw2 Hal. world_eq.
  wp_step. wp_step; [apply He; congruence|]. rename w0 into w4, H0 into Hw4.
  wp_step. unfold store_UpdateVisibility. wp_step. apply wp_exec; [done|]. intros st r w5 Hup.
  apply update_service_spec in Hup as (row' & -> & Hup). wp_step.
  wp_step. apply wp_audit_Record; [done|]. intros w6 Haud. wp_step. intros w7 Hw7.
  rewrite Hw4, Hw2 in Hup. assert (row' = row) as -> by (destruct Hup as [Hup _]; congruence).
  eapply Ha; try done. split; [done|]. exists (w_db w5). split; [done|]. by dbs.
Qed.

Definition service_deleted (c : Principal) (id : string) (row : db_Service) (d d' : DB) : Prop :=
  lookup_by sv_ID id (services d) = Some row ∧
  allows c ActionServiceDelete (service_resource (sv_WorkspaceID row) id) d ∧
  audited "service.delete" "service" id (sv_WorkspaceID row) (p_UserID c) (delete_service_rows id d) d'.

Lemma wp_DeleteService c id (Q : go_error + unit → World → Prop) w :
  (∀ e w', w_db w' = w_db w → Q (inl e) w') →
  (∀ row w', service_deleted c id row (w_db w) (w_db w') → Q (inr tt) w') →
  wp (DeleteService c id) Q w.
Proof.
  intros He Ha. unfold DeleteService. wp_step. wp_step; [|by apply He].
  wp_step. apply wp_owner_of; [by apply He|]. intros row w1 Hw1 Hrow. simpl.
  wp_step. apply wp_Authorize; [intros; apply He; congruence|]. intros w2 Hw2 Hal. world_eq.
  wp_step. wp_step; [apply He; congruence|]. rename w0 into w4, H0 into Hw4.
  wp_step. unfold store_DeleteService. apply wp_exec_opt; [done|by intros; apply wp_fail|].
  intros st did w5 Hdel. unfold sql_DeleteService in Hdel. destruct (has_key sv_ID id (services (w_db w4))); [|done].
  injection Hdel as <- Hdel. apply wp_audit_Record; [done|]. intros w6 Haud w7 Hw7.
  apply (Ha row). split; [done|]. split; [done|]. by rewrite Hw7, <- Hw2, <- Hw4, Hdel.
Qed.
End Rules.
