(* ===== verification/Builder.v ===== *)
(** * Builder: how a repository is built

    [internal/builder] (the detection and the Dockerfile templates), its two readers, the
    clone of the agent ([OSFiles]) and the contents API of GitHub ([githubFiles] of
    [internal/services]), and the two callers: [DetectFramework] of the services module and
    the build of [internal/agentcore/build.go] with its lines and its port.  git, docker and
    the file system are the class [BuildHost], the contents API is [RepoContents]. *)
From S2P Require Import Prelude.
From S2P Require Import GoStrings.
From S2P Require Import Json.
From S2P Require Import Problem.
From S2P Require Import Platform.
From S2P Require Import Services.
From S2P Require Import ServicesSpec.
From S2P Require Caddy.

Definition dq : string := String (chr 34) "".
Definition nl : string := String newline "".
Definition quoted (s : string) : string := dq +:+ s +:+ dq.

(** ** Plans (builder.go) *)
Inductive Status := StatusDetected | StatusHasDockerfile | StatusUnsupported.
#[global] Instance Status_eq_dec : EqDecision Status.
Proof. solve_decision. Defined.
Definition status_text (s : Status) : string :=
  match s with StatusDetected => "detected" | StatusHasDockerfile => "dockerfile" | StatusUnsupported => "unsupported" end.
Definition RuntimeNext : string := "nextjs".
Definition RuntimeVite : string := "vite".
Definition RuntimeNode : string := "nodejs".
Record Plan := mk_Plan {
  pl_Status : Status; pl_Runtime : string; pl_PackageManager : string; pl_NodeVersion : string;
  pl_BuildCommand : string; pl_StartCommand : string; pl_Port : Z; pl_Dockerfile : string; pl_NextSteps : string;
}.
#[global] Instance Plan_eq_dec : EqDecision Plan.
Proof. solve_decision. Defined.
Definition RuntimeLabel (p : Plan) : string :=
  if String.eqb (pl_Runtime p) RuntimeNext then "Next.js"
  else if String.eqb (pl_Runtime p) RuntimeVite then "Vite"
  else if String.eqb (pl_Runtime p) RuntimeNode then "Node.js" else pl_Runtime p.
Definition defaultPort : Z := 3000.
Definition defaultNodeMajor : string := "22".
Definition stepsNoPackageJSON : string :=
  "No Dockerfile and no package.json were found at the repository root. Plorigo builds Node, Vite, and Next.js apps automatically, or any app with a Dockerfile. Add a Dockerfile, or deploy from the root of a Node project.".
Definition stepsBadPackageJSON : string :=
  "package.json could not be parsed as JSON. Fix it, or add a Dockerfile to control the build yourself.".
Definition stepsNodeNoStart : string :=
  "This looks like a Node project, but it has no " +:+ quoted "start" +:+ " script and isn't a Next.js or Vite app. Add a " +:+
  quoted "start" +:+ " script to package.json (for example " +:+ quoted "node server.js" +:+ "), or add a Dockerfile.".
Definition without_build (s : Status) (steps : string) : Plan := mk_Plan s "" "" "" "" "" 0 "" steps.

(** ** package.json *)
Record packageJSON := mk_packageJSON {
  pk_Scripts : gmap string string; pk_Dependencies : gmap string string; pk_DevDependencies : gmap string string; pk_EngineNode : string;
}.
(** A value decoded into a [map[string]string]: a null clears the map, an object adds to it. *)
Definition add_member (acc : option (gmap string string)) (m : bytes * json) : option (gmap string string) :=
  cur ← acc; v ← string_value "" (snd m); Some (<[str_of (fst m) := v]> cur).
Definition map_value (cur : gmap string string) (v : json) : option (gmap string string) :=
  match v with
  | JNull => Some ∅
  | JObject ms => foldl add_member (Some cur) ms
  | _ => None
  end.
Definition unmarshal_package (data : bytes) : option packageJSON :=
  ms ← unmarshal_struct data;
  scripts ← assign_field map_value ∅ "scripts" ms;
  deps ← assign_field map_value ∅ "dependencies" ms;
  dev ← assign_field map_value ∅ "devDependencies" ms;
  engines ← assign_field object_value [] "engines" ms;
  node ← assign_field string_value "" "node" engines;
  Some (mk_packageJSON scripts deps dev node).
Definition hasDep (p : packageJSON) (name : string) : bool :=
  bool_decide (is_Some (pk_Dependencies p !! name)) || bool_decide (is_Some (pk_DevDependencies p !! name)).
Definition script (p : packageJSON) (name : string) : string := TrimSpace (default "" (pk_Scripts p !! name)).

(** The first run of decimal digits. *)
Definition FindDigits (s : string) : string := str_of (fst (read_digits (drop_while (λ c, negb (is_digit c)) (bytes_of s)))).
Definition sane_major (src : string) : option Z :=
  let m := FindDigits (TrimSpace src) in
  if String.eqb m "" then None
  else n ← Atoi m; if (18 <=? n) && (n <=? 24) then Some n else None.
Definition nodeMajor (nvmrc engines : string) : string :=
  match sane_major nvmrc with
  | Some n => Itoa n
  | None => match sane_major engines with Some n => Itoa n | None => defaultNodeMajor end
  end.

(** ** The templates (templates.go) *)
Record dockerfileParams := mk_dockerfileParams {
  BaseImage : string; EnableCorepack : bool; InstallCmd : string; BuildCmd : string; StartCmd : string; Port : Z;
  NodeMajor : string; OutputDir : string;
}.
Definition when_ (b : bool) (s : string) : string := if b then s else "".
Definition serverTemplate (p : dockerfileParams) : string :=
  "FROM " +:+ BaseImage p +:+ nl +:+ "WORKDIR /app" +:+ when_ (EnableCorepack p) (nl +:+ "RUN corepack enable") +:+ nl +:+
  "COPY . ." +:+ nl +:+ "RUN " +:+ InstallCmd p +:+
  when_ (negb (String.eqb (BuildCmd p) "")) (nl +:+ "RUN " +:+ BuildCmd p) +:+ nl +:+
  "ENV NODE_ENV=production" +:+ nl +:+ "ENV PORT=" +:+ Itoa (Port p) +:+ nl +:+ "EXPOSE " +:+ Itoa (Port p) +:+ nl +:+
  "CMD [" +:+ quoted "sh" +:+ ", " +:+ quoted "-c" +:+ ", " +:+ quoted (StartCmd p) +:+ "]" +:+ nl.
Definition viteTemplate (p : dockerfileParams) : string :=
  "FROM " +:+ BaseImage p +:+ " AS build" +:+ nl +:+ "WORKDIR /app" +:+ when_ (EnableCorepack p) (nl +:+ "RUN corepack enable") +:+ nl +:+
  "COPY . ." +:+ nl +:+ "RUN " +:+ InstallCmd p +:+ nl +:+ "RUN " +:+ BuildCmd p +:+ nl +:+ nl +:+
  "FROM node:" +:+ NodeMajor p +:+ "-bookworm-slim" +:+ nl +:+ "WORKDIR /app" +:+ nl +:+ "RUN npm install -g serve@14" +:+ nl +:+
  "COPY --from=build /app/" +:+ OutputDir p +:+ " ./" +:+ OutputDir p +:+ nl +:+
  "ENV NODE_ENV=production" +:+ nl +:+ "ENV PORT=" +:+ Itoa (Port p) +:+ nl +:+ "EXPOSE " +:+ Itoa (Port p) +:+ nl +:+
  "CMD [" +:+ quoted "sh" +:+ ", " +:+ quoted "-c" +:+ ", " +:+
  quoted ("serve -s " +:+ OutputDir p +:+ " -l " +:+ Itoa (Port p)) +:+ "]" +:+ nl.

Definition baseImage (pm node : string) : string :=
  if String.eqb pm "bun" then "oven/bun:1" else "node:" +:+ node +:+ "-bookworm-slim".
Definition enableCorepack (pm : string) : bool := String.eqb pm "pnpm" || String.eqb pm "yarn".
Definition installCmd (pm : string) (hasLock : bool) : string :=
  if String.eqb pm "pnpm" then "pnpm install"
  else if String.eqb pm "yarn" then "yarn install"
  else if String.eqb pm "bun" then "bun install"
  else if hasLock then "npm ci || npm install" else "npm install".
Definition runScript (pm name : string) : string :=
  if String.eqb pm "yarn" then "yarn " +:+ name
  else if String.eqb pm "bun" then "bun run " +:+ name
  else if String.eqb pm "pnpm" then "pnpm run " +:+ name else "npm run " +:+ name.
Definition runBinary (pm argv : string) : string :=
  if String.eqb pm "yarn" then "yarn " +:+ argv
  else if String.eqb pm "bun" then "bun x " +:+ argv
  else if String.eqb pm "pnpm" then "pnpm exec " +:+ argv else "npm exec -- " +:+ argv.

Definition script_or (pm name fallback : string) (pkg : packageJSON) : string :=
  if String.eqb (script pkg name) "" then runBinary pm fallback else runScript pm name.
Definition renderNext (pm : string) (hasLock : bool) (node : string) (pkg : packageJSON) : Plan :=
  let build := script_or pm "build" "next build" pkg in
  let start := script_or pm "start" "next start" pkg in
  mk_Plan StatusDetected RuntimeNext pm node build start defaultPort
    (serverTemplate (mk_dockerfileParams (baseImage pm node) (enableCorepack pm) (installCmd pm hasLock) build start defaultPort "" "")) "".
Definition renderNode (pm : string) (hasLock : bool) (node : string) (pkg : packageJSON) : Plan :=
  let build := if String.eqb (script pkg "build") "" then "" else runScript pm "build" in
  let start := runScript pm "start" in
  mk_Plan StatusDetected RuntimeNode pm node build start defaultPort
    (serverTemplate (mk_dockerfileParams (baseImage pm node) (enableCorepack pm) (installCmd pm hasLock) build start defaultPort "" "")) "".
Definition renderVite (pm : string) (hasLock : bool) (node : string) (pkg : packageJSON) : Plan :=
  let build := script_or pm "build" "vite build" pkg in
  let outputDir := "dist" in
  mk_Plan StatusDetected RuntimeVite pm node build ("serve -s " +:+ outputDir) defaultPort
    (viteTemplate (mk_dockerfileParams (baseImage pm node) (enableCorepack pm) (installCmd pm hasLock) build "" defaultPort node outputDir)) "".

(** ** Detection *)
Definition lockfiles : list (string * string) :=
  [("pnpm-lock.yaml", "pnpm"); ("yarn.lock", "yarn"); ("bun.lockb", "bun"); ("package-lock.json", "npm"); ("npm-shrinkwrap.json", "npm")].
Definition classify (pm : string) (hasLock : bool) (node : string) (pkg : packageJSON) : Plan :=
  if hasDep pkg "next" then renderNext pm hasLock node pkg
  else if hasDep pkg "vite" then renderVite pm hasLock node pkg
  else if negb (String.eqb (script pkg "start") "") then renderNode pm hasLock node pkg
  else without_build StatusUnsupported stepsNodeNoStart.

(** Over the effects of the reader: a failing read ends the detection. *)
Section Detect.
Context {Mo : Type → Type} {R : MRet Mo} {B : MBind Mo} (ReadFile : string → Mo (option bytes)).

Fixpoint first_lockfile (l : list (string * string)) : Mo (string * bool) :=
  match l with
  | [] => mret ("npm", false)
  | (file, pm) :: rest =>
      data ← ReadFile file;
      match data with Some _ => mret (pm, true) | None => first_lockfile rest end
  end.
Definition detectPackageManager : Mo (string * bool) := first_lockfile lockfiles.
Definition Detect : Mo Plan :=
  dockerfile ← ReadFile "Dockerfile";
  match dockerfile with
  | Some _ => mret (without_build StatusHasDockerfile "")
  | None =>
      raw ← ReadFile "package.json";
      match raw with
      | None => mret (without_build StatusUnsupported stepsNoPackageJSON)
      | Some raw =>
          match unmarshal_package raw with
          | None => mret (without_build StatusUnsupported stepsBadPackageJSON)
          | Some pkg =>
              lock ← detectPackageManager;
              nvmrc ← ReadFile ".nvmrc";
              mret (classify (fst lock) (snd lock) (nodeMajor (str_of (default [] nvmrc)) (pk_EngineNode pkg)) pkg)
          end
      end
  end.
End Detect.

(** ** The preview of the dashboard (services/service.go) *)
Class RepoContents := { gh_GetFileContent : nat → string → string → string → string → string → go_error + option bytes }.
Record DetectInput := mk_DetectInput { di_RepoURL : string; di_Branch : string }.
Record Detection := mk_Detection {
  dt_Status : string; dt_Runtime : string; dt_RuntimeLabel : string; dt_PackageManager : string; dt_NodeVersion : string;
  dt_BuildCommand : string; dt_StartCommand : string; dt_ContainerPort : Z; dt_Dockerfile : string; dt_NextSteps : string;
}.
Definition detection_of (plan : Plan) : Detection :=
  mk_Detection (status_text (pl_Status plan)) (pl_Runtime plan) (RuntimeLabel plan) (pl_PackageManager plan) (pl_NodeVersion plan)
    (pl_BuildCommand plan) (pl_StartCommand plan) (pl_Port plan) (pl_Dockerfile plan) (pl_NextSteps plan).

Section Preview.
Context {G : GitHubClient} {RC : RepoContents}.
Definition githubFiles (owner repo ref path : string) : M (option bytes) := port (λ n, gh_GetFileContent n "" owner repo ref path).
Definition DetectFramework (i : DetectInput) : M Detection :=
  or_ ← of_sum (parsePublicRepo (di_RepoURL i));
  info ← github_call (λ n, gh_GetRepository n "" (fst or_) (snd or_)) mapGitHubErr;
  _ ← require (negb (ri_Private info))
        (InvalidInput "%s is private; connect GitHub to deploy a private repository" [AStr (ri_FullName info)]);
  let ref := if String.eqb (TrimSpace (di_Branch i)) "" then ri_DefaultBranch info else TrimSpace (di_Branch i) in
  plan ← wrap "detect framework" (Detect (githubFiles (ri_Owner info) (ri_Name info) ref));
  mret (detection_of plan).
End Preview.

(** ** The build of the agent (agentcore/build.go) *)

(** Reads that may fail, over files that do not change. *)
Definition Reads (X : Type) : Type := (go_error + X)%type.
#[global] Instance Reads_ret : MRet Reads := λ X x, inr x.
#[global] Instance Reads_bind : MBind Reads := λ X Y k m, match m with inl e => inl e | inr x => k x end.

(** The clone and docker: [os.Stat] of its Dockerfile, [os.ReadFile] ([None] is
    [fs.ErrNotExist]), [os.WriteFile], and [docker build] with a Dockerfile: the chunks it
    printed and its error. *)
Class BuildHost := {
  bh_Stat : bool;
  bh_ReadFile : string → go_error + option bytes;
  bh_WriteFile : option go_error;
  bh_DockerBuild : string → string → list bytes * option go_error;
}.

(** [path.Clean] of a rooted path, by its segments. *)
Fixpoint clean_segments (acc : list bytes) (l : list bytes) : list bytes :=
  match l with
  | [] => rev acc
  | s :: l =>
      if bool_decide (s = []) || bool_decide (s = bytes_of ".") then clean_segments acc l
      else if bool_decide (s = bytes_of "..") then clean_segments (tl acc) l
      else clean_segments (s :: acc) l
  end.
Definition join_segments (l : list bytes) : bytes := flat_map (cons "/"%char) l.
Definition rooted (l : list bytes) : string := match l with [] => "/" | _ => str_of (join_segments l) end.
Definition path_Clean (p : string) : string := rooted (clean_segments [] (split_bytes "/" (bytes_of p))).
(** The file a name stands for in the tree under [root], an absolute directory. *)
Definition full_path (root p : string) : string := path_Clean (root +:+ "/" +:+ path_Clean ("/" +:+ p)).

Inductive BuildAct := ActEmitted (line : string) | ActWritten (file : string) (content : string) | ActDocker (tag file : string).

(** *** The lines of docker (lineEmitter) *)
Definition emitLine (line : bytes) : list string :=
  let line := Caddy.TrimRight_cr (str_of line) in
  if String.eqb (TrimSpace line) "" then [] else [line].
Definition ends_line (c : ascii) : bool := Ascii.eqb newline c.
#[global] Arguments ends_line : simpl never.
(** The lines that end in what was written, and what is left in the buffer. *)
Fixpoint drain (cur l : bytes) : list string * bytes :=
  match l with
  | [] => ([], cur)
  | c :: l =>
      if ends_line c then let '(ls, buf) := drain [] l in (emitLine cur ++ ls, buf)
      else drain (cur ++ [c]) l
  end.
Definition emitter_Write (st : list string * bytes) (p : bytes) : list string * bytes :=
  let '(ls, buf) := drain [] (snd st ++ p) in (fst st ++ ls, buf).
Definition emitter_flush (st : list string * bytes) : list string :=
  match snd st with [] => fst st | buf => fst st ++ emitLine buf end.
Definition emitted_lines (chunks : list bytes) : list string := emitter_flush (foldl emitter_Write ([], []) chunks).

Section Build.
Context {H : BuildHost}.
Definition OSFiles (root p : string) : Reads (option bytes) := bh_ReadFile (full_path root p).

Definition generated : string := "Dockerfile.plorigo".
Definition TrimRight_nl (s : string) : string := str_of (rev (drop_while (Ascii.eqb newline) (rev (bytes_of s)))).
Definition docker_run (tag file : string) : list BuildAct * option go_error :=
  let '(chunks, err) := bh_DockerBuild tag file in
  (ActDocker tag file :: map ActEmitted (emitted_lines chunks),
   match err with Some e => Some (Errorf "docker build failed: %w" [] (Some e)) | None => None end).
Definition build (dir tag : string) : list BuildAct * option go_error :=
  if bh_Stat then docker_run tag "Dockerfile"
  else
    match Detect (Mo := Reads) (OSFiles dir) with
    | inl e => ([], Some (Errorf "inspect repository: %w" [] (Some e)))
    | inr plan =>
        if negb (bool_decide (pl_Status plan = StatusDetected)) then ([], Some (ErrOther (pl_NextSteps plan)))
        else
          match bh_WriteFile with
          | Some e => ([], Some (Errorf "write generated Dockerfile: %w" [] (Some e)))
          | None =>
              let '(acts, err) := docker_run tag generated in
              (ActWritten generated (pl_Dockerfile plan) ::
               ActEmitted ("no Dockerfile found — generated one for " +:+ RuntimeLabel plan +:+ " (" +:+ pl_PackageManager plan +:+
                           ", node " +:+ pl_NodeVersion plan +:+ ")") ::
               map (λ line, ActEmitted ("│ " +:+ line)) (Split (TrimRight_nl (pl_Dockerfile plan)) newline) ++ acts, err)
          end
    end.
End Build.

(** *** The port of the image *)

(** One key of ExposedPorts. *)
Definition tcp_port (key : bytes) : option Z :=
  let '(spec, proto) := match cut_bytes "/" key with Some (a, b) => (a, b) | None => (key, []) end in
  if negb (bool_decide (proto = [])) && negb (bool_decide (proto = bytes_of "tcp")) then None
  else n ← Atoi (str_of spec); if (0 <? n) && (n <=? 65535) then Some n else None.
(** [range] is the iteration order of the map. *)
Definition lowestTCPPort (range : list bytes → list bytes) (exposedJSON : string) : go_error + Z :=
  let s := TrimSpace exposedJSON in
  if String.eqb s "" || String.eqb s "null" then inl (Errorf "the image exposes no ports" [] None)
  else
    match json_parse (bytes_of s) with
    | Some (JObject ms) =>
        match isort Z.leb (omap tcp_port (range (remove_dups (map fst ms)))) with
        | [] => inl (Errorf "the image exposes no TCP port" [] None)
        | p :: _ => inr p
        end
    | _ => inl (Errorf "parse exposed ports: %w" [] None)
    end.

(** ** The same files give the same plan *)
Definition inspected : list string := "Dockerfile" :: "package.json" :: ".nvmrc" :: map fst lockfiles.
(** A reader whose answers, in any effect, are those of [content], gives its plan: [ok m x s]
    says that the computation [m] from the state [s] answers [x]. *)
Section Stable.
Context {Mo : Type → Type} {R : MRet Mo} {B : MBind Mo} {St : Type} (ok : ∀ X, Mo X → X → St → Prop).
Context (ok_ret : ∀ X (x : X) s, ok X (mret x) x s).
Context (ok_bind : ∀ X Y (m : Mo X) (k : X → Mo Y) x y s, ok X m x s → (∀ s', ok Y (k x) y s') → ok Y (m ≫= k) y s).
Context (ReadFile : string → Mo (option bytes)) (content : string → option bytes).
Context (reads : ∀ p s, p ∈ inspected → ok _ (ReadFile p) (content p) s).

Definition lock_in (l : list (string * string)) : string * bool :=
  match List.find (λ x, bool_decide (is_Some (content (fst x)))) l with Some x => (snd x, true) | None => ("npm", false) end.
Definition plan_in : Plan :=
  match content "Dockerfile" with
  | Some _ => without_build StatusHasDockerfile ""
  | None =>
      match content "package.json" with
      | None => without_build StatusUnsupported stepsNoPackageJSON
      | Some raw =>
          match unmarshal_package raw with
          | None => without_build StatusUnsupported stepsBadPackageJSON
          | Some pkg => classify (fst (lock_in lockfiles)) (snd (lock_in lockfiles))
                          (nodeMajor (str_of (default [] (content ".nvmrc"))) (pk_EngineNode pkg)) pkg
          end
      end
  end.
Lemma first_lockfile_ok l s : (∀ x, x ∈ l → fst x ∈ inspected) → ok _ (first_lockfile ReadFile l) (lock_in l) s.
Proof.
  revert s. unfold lock_in. induction l as [|[file pm] l IH]; intros s Hl; [apply ok_ret|]. simpl.
  eapply ok_bind; [apply reads, (Hl (file, pm)); by left|]. intros s'. simpl.
  destruct (content file) as [data|]; simpl; [apply ok_ret|]. apply IH. intros x Hx. apply Hl. by right.
Qed.
Lemma Detect_ok s : ok _ (Detect ReadFile) plan_in s.
Proof.
  unfold Detect, plan_in. eapply ok_bind; [apply reads; by left|]. intros s1.
  destruct (content "Dockerfile"); [apply ok_ret|]. eapply ok_bind; [apply reads; right; by left|]. intros s2.
  destruct (content "package.json") as [raw|]; [|apply ok_ret]. destruct (unmarshal_package raw) as [pkg|]; [|apply ok_ret].
  eapply ok_bind; [apply first_lockfile_ok|].
  { intros x Hx. do 3 right. by apply list_elem_of_fmap_2. }
  intros s3. eapply ok_bind; [apply reads; right; right; by left|]. intros s4. apply ok_ret.
Qed.
End Stable.

Lemma Detect_reads f content : (∀ p, p ∈ inspected → f p = inr (content p)) → Detect (Mo := Reads) f = inr (plan_in content).
Proof.
  intros Hf. apply (Detect_ok (Mo := Reads) (λ X (m : Reads X) x (_ : unit), m = inr x)); [done| |intros p _; apply Hf|exact tt].
  intros X Y m k x y _ -> Hk. apply (Hk tt).
Qed.
Lemma Detect_github {RC : RepoContents} o r ref content w :
  (∀ n p, p ∈ inspected → gh_GetFileContent n "" o r ref p = inr (content p)) →
  ∃ w', Detect (githubFiles o r ref) w = (inr (plan_in content), w') ∧ w_db w' = w_db w.
Proof.
  intros Hf.
  apply (Detect_ok (Mo := M) (λ X (m : M X) x w, ∃ w', m w = (inr x, w') ∧ w_db w' = w_db w)).
  - intros X x s. by exists s.
  - intros X Y m k x y s (w1 & Hm & H1) Hk. destruct (Hk w1) as (w2 & Hk2 & H2). exists w2. unfold mbind, M_bind. rewrite Hm. split; [done|congruence].
  - intros p s Hp. exists (tick s). unfold githubFiles, port. by rewrite Hf.
Qed.

Lemma plan_cases content : content "Dockerfile" = None →
  pl_Status (plan_in content) = StatusDetected ∨
  (pl_Status (plan_in content) = StatusUnsupported ∧ pl_Dockerfile (plan_in content) = "").
Proof.
  intros Hd. unfold plan_in. rewrite Hd. destruct (content "package.json"); [|by right].
  destruct (unmarshal_package _) as [pkg|]; [|by right]. unfold classify.
  destruct (hasDep pkg "next"); [by left|]. destruct (hasDep pkg "vite"); [by left|].
  destruct (negb _); [by left|by right].
Qed.
(** The answer of the preview, for a repository with these files. *)
Lemma DetectFramework_stable {G : GitHubClient} {RC : RepoContents} i w det w' content :
  DetectFramework i w = (inr det, w') → (∀ n o r ref p, p ∈ inspected → gh_GetFileContent n "" o r ref p = inr (content p)) →
  w_db w' = w_db w ∧ det = detection_of (plan_in content).
Proof.
  intros Hrun Hf. use_wp Hrun. unfold DetectFramework. wp_step. wp_step. destruct (parsePublicRepo _) as [e|or_]; [by intros [=]|].
  wp_step. apply wp_github_call; [by intros e w1 _ [=]|]. intros n info w1 Hw1 _.
  wp_step. wp_step; [|by intros [=]]. wp_step. wp_step.
  destruct (Detect_github (ri_Owner info) (ri_Name info) (if (TrimSpace (di_Branch i) =? "")%string then ri_DefaultBranch info else TrimSpace (di_Branch i))
    content w1) as (w2 & Hd & H2); [by intros; apply Hf|].
  unfold wp at 1. rewrite Hd. simpl. wp_step. intros [= <-]. split; [congruence|done].
Qed.

(** C21: The preview is what is built.  When the clone of a repository holds the files GitHub
    answers with, the framework detection shown in the dashboard and the agent's build
    agree: on a repository with a Dockerfile both leave it alone and it is built as it is;
    when a framework is detected the agent writes exactly the Dockerfile that was shown,
    builds that and shows it first; otherwise it builds nothing and fails with the very
    steps that were shown. *)
Theorem preview_is_build {G : GitHubClient} {RC : RepoContents} {H : BuildHost} i w det w' content dir tag :
  DetectFramework i w = (inr det, w') →
  (∀ n o r ref p, p ∈ inspected → gh_GetFileContent n "" o r ref p = inr (content p)) →
  (∀ p, p ∈ inspected → bh_ReadFile (full_path dir p) = inr (content p)) →
  bh_Stat = bool_decide (is_Some (content "Dockerfile")) → bh_WriteFile = None →
  w_db w' = w_db w ∧
  ((dt_Status det = "dockerfile" ∧ dt_Dockerfile det = "" ∧ build dir tag = docker_run tag "Dockerfile") ∨
   (dt_Status det = "detected" ∧ ∃ shown,
      build dir tag = (ActWritten generated (dt_Dockerfile det) :: map ActEmitted shown ++ fst (docker_run tag generated),
                       snd (docker_run tag generated)) ∧
      tl shown = map (λ line, "│ " +:+ line) (Split (TrimRight_nl (dt_Dockerfile det)) newline)) ∨
   (dt_Status det = "unsupported" ∧ dt_Dockerfile det = "" ∧ build dir tag = ([], Some (ErrOther (dt_NextSteps det))))).
Proof.
  intros Hrun Hgit Hclone Hstat Hwrite. destruct (DetectFramework_stable _ _ _ _ _ Hrun Hgit) as [Hw ->]. split; [done|].
  unfold build. rewrite Hstat, Hwrite. rewrite (Detect_reads (OSFiles dir) content Hclone).
  destruct (content "Dockerfile") as [data|] eqn:Hd.
  - left. unfold plan_in. rewrite Hd. done.
  - right. simpl. destruct (plan_cases content Hd) as [Hs|[Hs Hf]]; rewrite Hs; simpl.
    + left. split; [done|]. destruct (docker_run tag generated) as [acts err].
      eexists (_ :: _). simpl. rewrite map_map. split; [reflexivity|done].
    + right. by rewrite Hf.
Qed.

(** ** The Dockerfiles *)

(** A reader of Dockerfiles: one instruction a line, its keyword up to the first blank. *)
Definition instruction (line : bytes) : option (string * string) :=
  match cut_bytes " " line with Some (k, args) => Some (str_of k, str_of args) | None => None end.
Definition read_dockerfile (text : string) : option (list (string * string)) :=
  mapM instruction (List.filter (λ l, negb (bool_decide (l = []))) (split_bytes newline (bytes_of text))).
(** The words of the JSON form of an instruction. *)
Definition json_words (args : string) : option (list string) :=
  match json_parse (bytes_of args) with
  | Some (JArray l) => mapM (λ v, match v with JString s => Some (str_of s) | _ => None end) l
  | _ => None
  end.
Definition keywords : list string := ["FROM"; "WORKDIR"; "RUN"; "COPY"; "ENV"; "EXPOSE"; "CMD"].
Definition majors : list string := ["18"; "19"; "20"; "21"; "22"; "23"; "24"].
Definition base_images : list string := "oven/bun:1" :: map (λ n, "node:" +:+ n +:+ "-bookworm-slim") majors.
(** What BuildKit makes of the text: a base image, the install step, the build step shown,
    the port shown, and one command, a shell that starts what is shown. *)
Definition well_built (pl : Plan) : bool :=
  match read_dockerfile (pl_Dockerfile pl) with
  | None => false
  | Some ins =>
      let args k := map snd (List.filter (λ i, String.eqb (fst i) k) ins) in
      forallb (λ i, existsb (String.eqb (fst i)) keywords) ins &&
      forallb (λ image, existsb (λ b, String.eqb image b || String.eqb image (b +:+ " AS build")) base_images) (args "FROM") &&
      match args "FROM" with [] => false | _ => String.eqb (fst (hd ("", "") ins)) "FROM" end &&
      (String.eqb (pl_BuildCommand pl) "" || existsb (String.eqb (pl_BuildCommand pl)) (args "RUN")) &&
      bool_decide (args "EXPOSE" = [Itoa (pl_Port pl)]) && existsb (String.eqb ("PORT=" +:+ Itoa (pl_Port pl))) (args "ENV") &&
      match args "CMD" with
      | [cmd] =>
          match json_words cmd with
          | Some ["sh"; "-c"; start] =>
              if String.eqb (pl_Runtime pl) RuntimeVite then String.eqb start (pl_StartCommand pl +:+ " -l " +:+ Itoa (pl_Port pl))
              else String.eqb start (pl_StartCommand pl)
          | _ => false
          end
      | _ => false
      end
  end.

(** Every plan there is: by runtime, package manager, Node version and the scripts. *)
Definition managers : list (string * bool) := [("pnpm", true); ("yarn", true); ("bun", true); ("npm", true); ("npm", false)].
Definition sample (build start : bool) : packageJSON :=
  mk_packageJSON ((if build then {["build" := "x"]} else ∅) ∪ (if start then {["start" := "x"]} else ∅)) ∅ ∅ "".
Definition samples : list packageJSON := [sample true true; sample true false; sample false true; sample false false].
Definition plans_for (m : string * bool) (node : string) (pkg : packageJSON) : list Plan :=
  [renderNext (fst m) (snd m) node pkg; renderVite (fst m) (snd m) node pkg; renderNode (fst m) (snd m) node pkg].
Definition all_plans : list Plan :=
  flat_map (λ m, flat_map (λ node, flat_map (plans_for m node) samples) majors) managers.

Lemma all_plans_built : forallb well_built all_plans = true.
Proof. vm_compute. reflexivity. Qed.

Lemma nodeMajor_major nvmrc engines : nodeMajor nvmrc engines ∈ majors.
Proof.
  assert (∀ s n, sane_major s = Some n → Itoa n ∈ majors) as Hs.
  { intros s n. unfold sane_major. destruct (String.eqb _ _); [done|]. destruct (Atoi _) as [z|]; [|done]. simpl.
    destruct ((18 <=? z) && (z <=? 24)) eqn:Hz; [|done]. intros [= ->]. apply andb_true_iff in Hz as [H1 H2].
    assert (n = 18 ∨ n = 19 ∨ n = 20 ∨ n = 21 ∨ n = 22 ∨ n = 23 ∨ n = 24) as Hn by lia.
    destruct_or!; subst n; apply (bool_decide_eq_true (_ ∈ _)); vm_compute; reflexivity. }
  unfold nodeMajor. destruct (sane_major nvmrc) eqn:H1; [by eapply Hs|]. destruct (sane_major engines) eqn:H2; [by eapply Hs|].
  apply (bool_decide_eq_true (_ ∈ _)). vm_compute. reflexivity.
Qed.

Lemma first_lockfile_cases f l m : first_lockfile (Mo := Reads) f l = inr m → m ∈ map (λ x, (snd x, true)) l ++ [("npm", false)].
Proof.
  induction l as [|[file pm] l IH]; simpl; [intros [= <-]; by left|]. unfold mbind, Reads_bind.
  destruct (f file) as [e|[data|]]; [done|intros [= <-]; by left|]. intros H. right. by apply IH.
Qed.
Lemma detected_plan f pl : Detect (Mo := Reads) f = inr pl → pl_Status pl = StatusDetected →
  ∃ m node pkg, m ∈ managers ∧ node ∈ majors ∧ pl = classify (fst m) (snd m) node pkg.
Proof.
  unfold Detect, mbind, Reads_bind. destruct (f "Dockerfile") as [e|[d|]]; [done|by intros [= <-]|].
  destruct (f "package.json") as [e|[raw|]]; [done| |by intros [= <-]]. destruct (unmarshal_package raw) as [pkg|]; [|by intros [= <-]].
  unfold detectPackageManager. destruct (first_lockfile f lockfiles) as [e|m] eqn:Hm; [done|].
  destruct (f ".nvmrc") as [e|nvmrc]; [done|]. intros [= <-] _. eexists m, _, pkg. split; [|split; [apply nodeMajor_major|reflexivity]].
  apply first_lockfile_cases in Hm. simpl in Hm. unfold managers.
  repeat (apply elem_of_cons in Hm as [->|Hm]; [apply (bool_decide_eq_true (_ ∈ _)); vm_compute; reflexivity|]). by apply elem_of_nil in Hm.
Qed.

Definition same_scripts (p q : packageJSON) : Prop :=
  String.eqb (script p "build") "" = String.eqb (script q "build") "" ∧ String.eqb (script p "start") "" = String.eqb (script q "start") "".
Lemma sampled pkg : ∃ q, q ∈ samples ∧ same_scripts pkg q.
Proof.
  destruct (String.eqb (script pkg "build") "") eqn:Hb, (String.eqb (script pkg "start") "") eqn:Hs.
  - exists (sample false false). split; [do 3 right; by left|]. by split; rewrite ?Hb, ?Hs.
  - exists (sample false true). split; [do 2 right; by left|]. by split; rewrite ?Hb, ?Hs.
  - exists (sample true false). split; [right; by left|]. by split; rewrite ?Hb, ?Hs.
  - exists (sample true true). split; [by left|]. by split; rewrite ?Hb, ?Hs.
Qed.
Lemma classify_listed m node pkg : m ∈ managers → node ∈ majors → pl_Status (classify (fst m) (snd m) node pkg) = StatusDetected →
  classify (fst m) (snd m) node pkg ∈ all_plans.
Proof.
  intros Hm Hn Hst. destruct (sampled pkg) as (q & Hq & Hb & Hs).
  assert (∀ pl, pl ∈ plans_for m node q → pl ∈ all_plans) as Hin.
  { intros pl Hpl. unfold all_plans. apply list_elem_of_In, in_flat_map. exists m. split; [by apply list_elem_of_In|].
    apply in_flat_map. exists node. split; [by apply list_elem_of_In|]. apply in_flat_map. exists q. split; by apply list_elem_of_In. }
  revert Hst. unfold classify. destruct (hasDep pkg "next").
  { intros _. apply Hin. unfold renderNext, script_or. rewrite Hb, Hs. by left. }
  destruct (hasDep pkg "vite").
  { intros _. apply Hin. unfold renderVite, script_or. rewrite Hb. right. by left. }
  destruct (negb _); [|done]. intros _. apply Hin. unfold renderNode. rewrite Hb. right. right. by left.
Qed.

(** C22: No text of a repository reaches a generated Dockerfile.  Whatever its files contain,
    a detected framework gets one of finitely many plans, and its Dockerfile, read
    instruction by instruction, is one of the pinned base images, the install step, the
    build step shown, the port shown, and one command that starts what is shown through a
    shell. *)
Theorem generated_dockerfile f pl :
  Detect (Mo := Reads) f = inr pl → pl_Status pl = StatusDetected → pl ∈ all_plans ∧ well_built pl = true.
Proof.
  intros Hd Hst. destruct (detected_plan _ _ Hd Hst) as (m & node & pkg & Hm & Hn & ->).
  pose proof (classify_listed _ _ pkg Hm Hn Hst) as Hin. split; [done|].
  pose proof all_plans_built as Hall. rewrite forallb_forall in Hall. by apply Hall, list_elem_of_In.
Qed.

(** ** The lines of a build *)
Lemma drain_app cur l k :
  drain cur (l ++ k) = (fst (drain cur l) ++ fst (drain (snd (drain cur l)) k), snd (drain (snd (drain cur l)) k)).
Proof.
  revert cur. induction l as [|c l IH]; intros cur; [cbn; by destruct (drain cur k)|]. cbn [drain app].
  destruct (ends_line c); [|apply IH]. rewrite IH. destruct (drain [] l) as [ls buf]. cbn [fst snd].
  destruct (drain buf k). cbn [fst snd]. by rewrite app_assoc.
Qed.
Lemma drain_buffer cur b k : Forall (λ c, ends_line c = false) b → drain cur (b ++ k) = drain (cur ++ b) k.
Proof.
  revert cur. induction b as [|c b IH]; intros cur Hb; simpl; [by rewrite app_nil_r|].
  apply Forall_cons in Hb as [-> Hb]. by rewrite IH, <- app_assoc.
Qed.
Lemma drain_rest cur l : Forall (λ c, ends_line c = false) cur → Forall (λ c, ends_line c = false) (snd (drain cur l)).
Proof.
  revert cur. induction l as [|c l IH]; intros cur Hc; simpl; [done|]. destruct (ends_line c) eqn:Hn.
  - specialize (IH [] (Forall_nil_2 _)). by destruct (drain [] l).
  - apply IH, Forall_app. by split; [|repeat constructor].
Qed.
Lemma writes_drain chunks ls buf :
  Forall (λ c, ends_line c = false) buf →
  foldl emitter_Write (ls, buf) chunks = (ls ++ fst (drain buf (concat chunks)), snd (drain buf (concat chunks))).
Proof.
  revert ls buf. induction chunks as [|p chunks IH]; intros ls buf Hb; simpl; [by rewrite app_nil_r|].
  unfold emitter_Write at 2. simpl. rewrite (drain_buffer [] buf p Hb). simpl. rewrite drain_app.
  pose proof (drain_rest buf p Hb) as Hr. destruct (drain buf p) as [ls' buf']. simpl in *. rewrite IH by done. by rewrite app_assoc.
Qed.
Lemma emitLine_nil : emitLine [] = [].
Proof. vm_compute. reflexivity. Qed.
Lemma drain_lines cur l : fst (drain cur l) ++ emitLine (snd (drain cur l)) =
  match split_bytes newline l with [] => [] | w :: ws => flat_map emitLine ((cur ++ w) :: ws) end.
Proof.
  revert cur. induction l as [|c l IH]; intros cur; [simpl; by rewrite !app_nil_r|]. cbn [drain split_bytes].
  assert (ends_line c = Ascii.eqb c newline) as -> by (unfold ends_line; apply Ascii.eqb_sym).
  destruct (Ascii.eqb c newline).
  - specialize (IH []). destruct (drain [] l) as [ls buf]. cbn [fst snd flat_map] in *. rewrite <- app_assoc, app_nil_r, IH. f_equal.
    by destruct (split_bytes newline l).
  - rewrite IH. destruct (split_bytes newline l) as [|w ws] eqn:Hw; [|by rewrite <- app_assoc].
    exfalso. destruct l as [|d l]; simpl in Hw; [done|]. destruct (Ascii.eqb d newline); [done|]. by destruct (split_bytes newline l).
Qed.

(** However docker's output is cut into writes, the lines reported are those of the
    whole output: its text split at line ends, without carriage returns at their ends and
    without blank ones, the last line too when it has no line end. *)
Theorem lines_whole chunks : emitted_lines chunks = flat_map emitLine (split_bytes newline (concat chunks)).
Proof.
  unfold emitted_lines. rewrite writes_drain by constructor. pose proof (drain_lines [] (concat chunks)) as H.
  destruct (drain [] (concat chunks)) as [ls buf]. cbn [fst snd app] in *.
  transitivity (ls ++ emitLine buf); [|rewrite H; by destruct (split_bytes newline (concat chunks))].
  unfold emitter_flush. destruct buf as [|c buf]; cbn [fst snd]; [by rewrite emitLine_nil, app_nil_r|done].
Qed.

(** ** The port *)
Lemma tcp_port_range key p : tcp_port key = Some p → 1 ≤ p ≤ 65535.
Proof.
  unfold tcp_port. destruct (match cut_bytes "/" key with Some (a, b) => (a, b) | None => (key, []) end) as [spec proto].
  destruct (_ && _); [done|]. destruct (Atoi _) as [n|]; [|done]. simpl. destruct (_ && _) eqn:H; [|done]. intros [= <-].
  apply andb_true_iff in H as [H1 H2]. lia.
Qed.

(** The port published for a built image is the lowest TCP port it exposes, whatever
    the iteration order of the map of exposed ports: it is a port number, one of the keys
    stands for it, no key stands for a lower one, and there is an error only when no key
    stands for any. *)
Theorem lowest_port range s ms :
  (∀ l, range l ≡ₚ l) → json_parse (bytes_of (TrimSpace s)) = Some (JObject ms) →
  match lowestTCPPort range s with
  | inr p => 1 ≤ p ≤ 65535 ∧ (∃ key, key ∈ map fst ms ∧ tcp_port key = Some p) ∧
             ∀ key q, key ∈ map fst ms → tcp_port key = Some q → p ≤ q
  | inl _ => ∀ key, key ∈ map fst ms → tcp_port key = None
  end.
Proof.
  intros Hr Hp. unfold lowestTCPPort. destruct (String.eqb (TrimSpace s) "" || String.eqb (TrimSpace s) "null") eqn:Hs.
  { exfalso. apply orb_true_iff in Hs as [Hs|Hs]; apply String.eqb_eq in Hs; rewrite Hs in Hp; vm_compute in Hp; discriminate Hp. }
  rewrite Hp. set (ports := omap tcp_port _).
  assert (∀ q, q ∈ ports ↔ ∃ key, key ∈ map fst ms ∧ tcp_port key = Some q) as Hin.
  { intros q. unfold ports. rewrite list_elem_of_omap. setoid_rewrite (Hr _). by setoid_rewrite elem_of_remove_dups. }
  pose proof (isort_perm Z.leb ports) as Hperm.
  assert (StronglySorted (λ a b, Z.leb a b = true) (isort Z.leb ports)) as Hsorted by (apply isort_sorted; lia).
  destruct (isort Z.leb ports) as [|p l].
  - intros key Hk. destruct (tcp_port key) as [q|] eqn:Hq; [|done]. exfalso.
    assert (q ∈ ports) as H by (apply Hin; eauto). rewrite <- Hperm in H. by apply elem_of_nil in H.
  - assert (p ∈ ports) as (key & Hk & Hkp)%Hin by (rewrite <- Hperm; by left). split; [by eapply tcp_port_range|].
    split; [by exists key|]. intros key' q Hk' Hq. assert (q ∈ ports) as H by (apply Hin; eauto). rewrite <- Hperm in H.
    apply elem_of_cons in H as [->|H]; [lia|]. apply StronglySorted_inv in Hsorted as [_ Hall].
    rewrite Forall_forall in Hall. apply Hall in H. lia.
Qed.

(** ** The reach of a name *)
Definition clean_segment (s : bytes) : Prop :=
  s ≠ [] ∧ s ≠ bytes_of "." ∧ s ≠ bytes_of ".." ∧ Forall (λ c, Ascii.eqb c "/" = false) s.
Lemma split_segments l : Forall (λ s, Forall (λ c, Ascii.eqb c "/" = false) s) (split_bytes "/" l).
Proof.
  induction l as [|c l IH]; [by repeat constructor|]. cbn [split_bytes]. destruct (Ascii.eqb c "/") eqn:Hc; [by constructor|].
  destruct (split_bytes "/" l) as [|w ws]; [by repeat constructor|]. apply Forall_cons in IH as [Hw Hws]. by repeat constructor.
Qed.
Lemma clean_segments_clean acc l : Forall clean_segment acc → Forall (λ s, Forall (λ c, Ascii.eqb c "/" = false) s) l →
  Forall clean_segment (clean_segments acc l).
Proof.
  revert acc. induction l as [|s l IH]; intros acc Ha Hl; [by apply Forall_rev|]. apply Forall_cons in Hl as [Hs Hl]. cbn [clean_segments].
  destruct (bool_decide (s = []) || bool_decide (s = bytes_of ".")) eqn:H1; [by apply IH|].
  apply orb_false_iff in H1 as [H1 H2]. apply bool_decide_eq_false in H1, H2.
  case_bool_decide as H3; apply IH; try done.
  - destruct acc; [done|]. by apply Forall_cons in Ha as [_ ?].
  - by constructor.
Qed.
Lemma clean_segments_push acc l k : Forall clean_segment l → clean_segments acc (l ++ k) = clean_segments (rev l ++ acc) k.
Proof.
  revert acc. induction l as [|s l IH]; intros acc Hl; [done|]. apply Forall_cons in Hl as [(H1 & H2 & H3 & _) Hl]. cbn [app clean_segments].
  rewrite !bool_decide_eq_false_2 by done. simpl. rewrite IH by done. by rewrite <- app_assoc.
Qed.
Lemma clean_segments_empty acc l : clean_segments acc ([] :: l) = clean_segments acc l.
Proof. done. Qed.
Lemma split_bytes_segment s l : Forall (λ c, Ascii.eqb c "/" = false) s → split_bytes "/" (s ++ "/"%char :: l) = s :: split_bytes "/" l.
Proof. induction s as [|c s IH]; intros Hs; [done|]. apply Forall_cons in Hs as [Hc Hs]. cbn [app split_bytes]. by rewrite Hc, IH. Qed.
Lemma split_bytes_last s : Forall (λ c, Ascii.eqb c "/" = false) s → split_bytes "/" s = [s].
Proof. induction s as [|c s IH]; intros Hs; [done|]. apply Forall_cons in Hs as [Hc Hs]. cbn [split_bytes]. by rewrite Hc, IH. Qed.
Lemma split_join ss l : Forall clean_segment ss → split_bytes "/" (join_segments ss ++ "/"%char :: l) = [] :: ss ++ split_bytes "/" l.
Proof.
  revert l. induction ss as [|s ss IH]; intros l Hs; [done|]. apply Forall_cons in Hs as [(_ & _ & _ & Hs) Hss].
  cbn [join_segments flat_map]. fold (join_segments ss). cbn [app split_bytes]. rewrite Ascii.eqb_refl.
  assert (split_bytes "/" (s ++ join_segments ss ++ "/"%char :: l) = s :: ss ++ split_bytes "/" l) as <-; [|by rewrite <- app_assoc].
  destruct ss as [|s2 ss].
  - simpl. by apply split_bytes_segment.
  - specialize (IH l Hss). cbn [join_segments flat_map app] in *. fold (join_segments ss) in *. cbn [split_bytes] in IH.
    rewrite Ascii.eqb_refl in IH. injection IH as IH. rewrite split_bytes_segment by done. by rewrite IH.
Qed.
Lemma path_Clean_join ss l : Forall clean_segment ss →
  path_Clean (str_of (join_segments ss ++ "/"%char :: l)) =
  rooted (clean_segments (rev ss) (split_bytes "/" l)).
Proof.
  intros Hs. unfold path_Clean. rewrite bytes_of_str_of, split_join by done. rewrite clean_segments_empty, clean_segments_push by done.
  by rewrite app_nil_r.
Qed.

(** A name read by the detection never leaves the clone: whatever it is, dots and
    slashes included, the file read is the root followed by segments that are neither empty
    nor "." nor "..". *)
Theorem OSFiles_contained rs p : rs ≠ [] → Forall clean_segment rs →
  ∃ ps, Forall clean_segment ps ∧ full_path (str_of (join_segments rs)) p = str_of (join_segments (rs ++ ps)).
Proof.
  intros Hne Hrs. unfold full_path.
  set (ps := clean_segments [] (split_bytes "/" (bytes_of p))).
  assert (Forall clean_segment ps) as Hps by (apply clean_segments_clean; [constructor|apply split_segments]).
  assert (path_Clean ("/" +:+ p) = rooted ps) as ->.
  { rewrite <- (str_of_bytes_of ("/" +:+ p)), bytes_of_app. exact (path_Clean_join [] (bytes_of p) (Forall_nil_2 _)). }
  exists ps. split; [done|].
  set (inner := rooted ps).
  assert (str_of (join_segments rs) +:+ "/" +:+ inner = str_of (join_segments rs ++ "/"%char :: bytes_of inner)) as ->.
  { rewrite <- (str_of_bytes_of (_ +:+ _)), !bytes_of_app, bytes_of_str_of. done. }
  rewrite path_Clean_join by done.
  assert (clean_segments (rev rs) (split_bytes "/" (bytes_of inner)) = rs ++ ps) as ->; [|by destruct rs].
  unfold inner. clearbody ps. destruct ps as [|s ps].
  - simpl. by rewrite rev_involutive, app_nil_r.
  - assert (∃ k t, s :: ps = k ++ [t]) as (k & t & Hk) by (destruct (exists_last (l := s :: ps)) as (k & t & ->); eauto).
    rewrite Hk in Hps |- *. assert (rooted (k ++ [t]) = str_of (join_segments (k ++ [t]))) as -> by (by destruct k).
    apply Forall_app in Hps as [Hk1 Hk2]. apply Forall_cons in Hk2 as [Ht _].
    rewrite bytes_of_str_of. unfold join_segments. rewrite flat_map_app. simpl. rewrite app_nil_r. fold (join_segments k). rewrite split_join by done.
    rewrite clean_segments_empty. rewrite (split_bytes_last t) by apply Ht.
    rewrite <- (app_nil_r (k ++ [t])), clean_segments_push by (apply Forall_app; split; [done|by apply Forall_singleton]).
    cbn [clean_segments]. by rewrite <- rev_app_distr, rev_involutive, app_nil_r.
Qed.
