(* ===== verification/BackupStore.v ===== *)
(** * BackupStore: the backups module's data and its PostgreSQL store

    [internal/backups] backups.go, store.go and postgres.go, over the queries of
    [internal/platform/database/db/backups.sql.go].  The queries it shares with the
    deployments module (the agent's credential, the configuration entries) are those of
    [DeployStore]. *)
From S2P Require Import Prelude.
From S2P Require Import GoStrings.
From S2P Require Import Problem.
From S2P Require Import Schema.
From S2P Require Import Platform.
From S2P Require Import DeployStore.

(** ** Vocabulary *)
Definition StatusQueued : string := "queued".
Definition StatusAssigned : string := "assigned".
Definition StatusDumping : string := "dumping".
Definition StatusUploading : string := "uploading".
Definition StatusVerifying : string := "verifying".
Definition StatusSucceeded : string := "succeeded".
Definition StatusFailed : string := "failed".
Definition RestoreStatusRestoring : string := "restoring".
Definition RestoreStatusVerifying : string := "verifying".
Definition RestoreStatusSucceeded : string := "succeeded".
Definition RestoreStatusFailed : string := "failed".
Definition TriggerManual : string := "manual".
Definition maxLabelLen : Z := 80.
Definition EnginePostgres : string := "postgres".
Definition KindBackup : string := "backup".
Definition templatePostgres : string := "postgres".
Definition sourceTemplate : string := "template".

(** ** Domain records *)
Record Backup := mk_Backup {
  b_ID : string;
  b_ServiceID : string;
  b_EnvironmentID : string;
  b_ProjectID : string;
  b_WorkspaceID : string;
  b_ServerID : string;
  b_Destination : string;
  b_ArtifactURI : string;
  b_SizeBytes : Z;
  b_Checksum : string;
  b_Status : string;
  b_Message : string;
  b_Error : string;
  b_Label : string;
  b_TriggerSource : string;
  b_CreatedAt : Z;
  b_UpdatedAt : Z;
}.

Record RestoreJob := mk_RestoreJob {
  r_ID : string;
  r_BackupID : string;
  r_ServiceID : string;
  r_EnvironmentID : string;
  r_ProjectID : string;
  r_WorkspaceID : string;
  r_ServerID : string;
  r_ArtifactURI : string;
  r_Status : string;
  r_Message : string;
  r_Error : string;
  r_CreatedAt : Z;
  r_UpdatedAt : Z;
}.

Record NewBackup := mk_NewBackup {
  nb_ServiceID : string;
  nb_EnvironmentID : string;
  nb_ProjectID : string;
  nb_WorkspaceID : string;
  nb_ServerID : string;
  nb_Label : string;
  nb_TriggerSource : string;
}.

Record NewRestore := mk_NewRestore {
  nr_BackupID : string;
  nr_ServiceID : string;
  nr_EnvironmentID : string;
  nr_ProjectID : string;
  nr_WorkspaceID : string;
  nr_ServerID : string;
  nr_ArtifactURI : string;
}.

Record StatusUpdate := mk_StatusUpdate {
  su_BackupID : string;
  su_Status : string;
  su_ArtifactURI : string;
  su_SizeBytes : Z;
  su_Checksum : string;
  su_Message : string;
  su_Error : string;
}.

Record RestoreStatusUpdate := mk_RestoreStatusUpdate {
  rsu_RestoreID : string;
  rsu_Status : string;
  rsu_Message : string;
  rsu_Error : string;
}.

Record ServiceTarget := mk_ServiceTarget {
  tg_ID : string;
  tg_Name : string;
  tg_EnvironmentID : string;
  tg_ProjectID : string;
  tg_WorkspaceID : string;
  tg_SourceKind : string;
  tg_TemplateID : string;
}.

Record DBCredentials := mk_DBCredentials { c_User : string; c_Password : string; c_Database : string }.

(** ** Queries *)

(** The INSERT gives [destination], [status] and the empty columns their defaults
    (00025, 00026). *)
Definition sql_CreateBackup (ServiceID EnvironmentID ProjectID WorkspaceID ServerID Label
    TriggerSource : string) (st : Stamp) (d : DB) : go_error + (db_Backup * DB) :=
  let r :=
    {| bk_ID := st_uuid st; bk_ServiceID := ServiceID; bk_EnvironmentID := EnvironmentID;
       bk_ProjectID := ProjectID; bk_WorkspaceID := WorkspaceID; bk_ServerID := ServerID;
       bk_Destination := "local"; bk_ArtifactUri := ""; bk_SizeBytes := 0; bk_Checksum := "";
       bk_Status := "queued"; bk_Message := ""; bk_Error := ""; bk_CreatedAt := st_now st;
       bk_UpdatedAt := st_now st; bk_Label := Label; bk_TriggerSource := TriggerSource |} in
  if backup_constraints r d then inr (r, set_backups (backups d ++ [r]) d)
  else inl (ErrConstraint "backups").

Definition sql_GetBackup (id : string) (d : DB) : option db_Backup := lookup_by bk_ID id (backups d).
Definition sql_ListBackupsByService (serviceID : string) (d : DB) : list db_Backup :=
  newest_first bk_CreatedAt (where_ (λ r, String.eqb (bk_ServiceID r) serviceID) (backups d)).

Definition bk_apply_update (status message error artifactUri : string) (sizeBytes : Z)
    (checksum : string) (now : Z) (r : db_Backup) : db_Backup :=
  {| bk_ID := bk_ID r; bk_ServiceID := bk_ServiceID r; bk_EnvironmentID := bk_EnvironmentID r;
     bk_ProjectID := bk_ProjectID r; bk_WorkspaceID := bk_WorkspaceID r;
     bk_ServerID := bk_ServerID r; bk_Destination := bk_Destination r;
     bk_ArtifactUri := keep artifactUri (bk_ArtifactUri r);
     bk_SizeBytes := keep_pos sizeBytes (bk_SizeBytes r);
     bk_Checksum := keep checksum (bk_Checksum r); bk_Status := status;
     bk_Message := keep message (bk_Message r); bk_Error := keep error (bk_Error r);
     bk_CreatedAt := bk_CreatedAt r; bk_UpdatedAt := now; bk_Label := bk_Label r;
     bk_TriggerSource := bk_TriggerSource r |}.

(** [SET status = 'assigned', updated_at = now()] *)
Definition bk_assign (now : Z) (r : db_Backup) : db_Backup :=
  {| bk_ID := bk_ID r; bk_ServiceID := bk_ServiceID r; bk_EnvironmentID := bk_EnvironmentID r;
     bk_ProjectID := bk_ProjectID r; bk_WorkspaceID := bk_WorkspaceID r;
     bk_ServerID := bk_ServerID r; bk_Destination := bk_Destination r;
     bk_ArtifactUri := bk_ArtifactUri r; bk_SizeBytes := bk_SizeBytes r;
     bk_Checksum := bk_Checksum r; bk_Status := "assigned"; bk_Message := bk_Message r;
     bk_Error := bk_Error r; bk_CreatedAt := bk_CreatedAt r; bk_UpdatedAt := now;
     bk_Label := bk_Label r; bk_TriggerSource := bk_TriggerSource r |}.

(** The queue of a server: its queued backups, oldest first. *)
Definition backup_queue (serverID : string) (d : DB) : list db_Backup :=
  order_by bk_CreatedAt
    (where_ (λ r, String.eqb (bk_ServerID r) serverID && String.eqb (bk_Status r) "queued") (backups d)).

Definition sql_ClaimNextBackupForServer (serverID : string) (st : Stamp) (d : DB)
    : go_error + (db_Backup * DB) :=
  match backup_queue serverID d with
  | [] => inl ErrNoRows
  | r :: _ =>
      let f := bk_assign (st_now st) in
      inr (f r, set_backups (update_where (λ x, String.eqb (bk_ID x) (bk_ID r)) f (backups d)) d)
  end.

Definition sql_UpdateBackupStatus (status message error artifactUri : string) (sizeBytes : Z)
    (checksum id : string) (st : Stamp) (d : DB) : go_error + (db_Backup * DB) :=
  match lookup_by bk_ID id (backups d) with
  | None => inl ErrNoRows
  | Some r =>
      if in_list backup_statuses status then
        let f := bk_apply_update status message error artifactUri sizeBytes checksum (st_now st) in
        inr (f r, set_backups (update_where (λ x, String.eqb (bk_ID x) id) f (backups d)) d)
      else inl (ErrConstraint "backups_status_check")
  end.

Definition sql_GetBackupServiceTarget (id : string) (d : DB) : option db_Service :=
  lookup_by sv_ID id (services d).

Definition running_releases (serviceID : string) (d : DB) : list db_Deployment :=
  newest_first dp_CreatedAt
    (where_ (λ r, String.eqb (dp_ServiceID r) serviceID && String.eqb (dp_Status r) "running") (deployments d)).
Definition sql_GetLatestRunningServerForService (serviceID : string) (d : DB) : option string :=
  match running_releases serviceID d with [] => None | r :: _ => Some (dp_ServerID r) end.

Definition sql_CreateRestoreJob (BackupID ServiceID EnvironmentID ProjectID WorkspaceID ServerID
    ArtifactUri : string) (st : Stamp) (d : DB) : go_error + (db_RestoreJob * DB) :=
  let r :=
    {| rj_ID := st_uuid st; rj_BackupID := BackupID; rj_ServiceID := ServiceID;
       rj_EnvironmentID := EnvironmentID; rj_ProjectID := ProjectID; rj_WorkspaceID := WorkspaceID;
       rj_ServerID := ServerID; rj_ArtifactUri := ArtifactUri; rj_Status := "queued";
       rj_Message := ""; rj_Error := ""; rj_CreatedAt := st_now st; rj_UpdatedAt := st_now st |} in
  if restore_constraints r d then inr (r, set_restore_jobs (restore_jobs d ++ [r]) d)
  else inl (ErrConstraint "restore_jobs").

Definition sql_GetRestoreJob (id : string) (d : DB) : option db_RestoreJob := lookup_by rj_ID id (restore_jobs d).
Definition sql_ListRestoreJobsByService (serviceID : string) (d : DB) : list db_RestoreJob :=
  newest_first rj_CreatedAt (where_ (λ r, String.eqb (rj_ServiceID r) serviceID) (restore_jobs d)).

Definition rj_apply_update (status message error : string) (now : Z) (r : db_RestoreJob) : db_RestoreJob :=
  {| rj_ID := rj_ID r; rj_BackupID := rj_BackupID r; rj_ServiceID := rj_ServiceID r;
     rj_EnvironmentID := rj_EnvironmentID r; rj_ProjectID := rj_ProjectID r;
     rj_WorkspaceID := rj_WorkspaceID r; rj_ServerID := rj_ServerID r;
     rj_ArtifactUri := rj_ArtifactUri r; rj_Status := status;
     rj_Message := keep message (rj_Message r); rj_Error := keep error (rj_Error r);
     rj_CreatedAt := rj_CreatedAt r; rj_UpdatedAt := now |}.

Definition restore_queue (serverID : string) (d : DB) : list db_RestoreJob :=
  order_by rj_CreatedAt
    (where_ (λ r, String.eqb (rj_ServerID r) serverID && String.eqb (rj_Status r) "queued") (restore_jobs d)).

(** [SET status = 'assigned', updated_at = now()] keeps the texts. *)
Definition rj_assign (now : Z) : db_RestoreJob → db_RestoreJob := rj_apply_update "assigned" "" "" now.

Definition sql_ClaimNextRestoreForServer (serverID : string) (st : Stamp) (d : DB)
    : go_error + (db_RestoreJob * DB) :=
  match restore_queue serverID d with
  | [] => inl ErrNoRows
  | r :: _ =>
      let f := rj_assign (st_now st) in
      inr (f r, set_restore_jobs (update_where (λ x, String.eqb (rj_ID x) (rj_ID r)) f (restore_jobs d)) d)
  end.

Definition sql_UpdateRestoreStatus (status message error id : string) (st : Stamp) (d : DB)
    : go_error + (db_RestoreJob * DB) :=
  match lookup_by rj_ID id (restore_jobs d) with
  | None => inl ErrNoRows
  | Some r =>
      if in_list restore_statuses status then
        let f := rj_apply_update status message error (st_now st) in
        inr (f r, set_restore_jobs (update_where (λ x, String.eqb (rj_ID x) id) f (restore_jobs d)) d)
      else inl (ErrConstraint "restore_jobs_status_check")
  end.

(** ** Rows to domain values *)
Definition backupFromRow (r : db_Backup) : Backup :=
  {| b_ID := bk_ID r; b_ServiceID := bk_ServiceID r; b_EnvironmentID := bk_EnvironmentID r;
     b_ProjectID := bk_ProjectID r; b_WorkspaceID := bk_WorkspaceID r; b_ServerID := bk_ServerID r;
     b_Destination := bk_Destination r; b_ArtifactURI := bk_ArtifactUri r;
     b_SizeBytes := bk_SizeBytes r; b_Checksum := bk_Checksum r; b_Status := bk_Status r;
     b_Message := bk_Message r; b_Error := bk_Error r; b_Label := bk_Label r;
     b_TriggerSource := bk_TriggerSource r; b_CreatedAt := bk_CreatedAt r;
     b_UpdatedAt := bk_UpdatedAt r |}.
Definition restoreFromRow (r : db_RestoreJob) : RestoreJob :=
  {| r_ID := rj_ID r; r_BackupID := rj_BackupID r; r_ServiceID := rj_ServiceID r;
     r_EnvironmentID := rj_EnvironmentID r; r_ProjectID := rj_ProjectID r;
     r_WorkspaceID := rj_WorkspaceID r; r_ServerID := rj_ServerID r;
     r_ArtifactURI := rj_ArtifactUri r; r_Status := rj_Status r; r_Message := rj_Message r;
     r_Error := rj_Error r; r_CreatedAt := rj_CreatedAt r; r_UpdatedAt := rj_UpdatedAt r |}.
Definition targetFromRow (s : db_Service) : ServiceTarget :=
  {| tg_ID := sv_ID s; tg_Name := sv_Name s; tg_EnvironmentID := sv_EnvironmentID s;
     tg_ProjectID := sv_ProjectID s; tg_WorkspaceID := sv_WorkspaceID s;
     tg_SourceKind := sv_SourceKind s; tg_TemplateID := sv_TemplateID s |}.

(** One row of the loop of [DBCredentialsForService]. *)
Definition credential_row (c : DBCredentials) (r : db_ConfigEntry) : DBCredentials :=
  if negb (String.eqb (ce_Type r) "variable") then c
  else match ce_Value r with
       | None => c
       | Some v =>
           if String.eqb (ce_Key r) "POSTGRES_USER" then mk_DBCredentials v (c_Password c) (c_Database c)
           else if String.eqb (ce_Key r) "POSTGRES_PASSWORD" then mk_DBCredentials (c_User c) v (c_Database c)
           else if String.eqb (ce_Key r) "POSTGRES_DB" then mk_DBCredentials (c_User c) (c_Password c) v
           else c
       end.
Definition credentials_of (rows : list db_ConfigEntry) : DBCredentials :=
  foldl credential_row (mk_DBCredentials "" "" "") rows.

(** ** The store ([postgresStore]) *)
Section Store.
Context {E : Env}.

Definition InsertBackup (n : NewBackup) : M Backup :=
  row ← db_exec (sql_CreateBackup (nb_ServiceID n) (nb_EnvironmentID n) (nb_ProjectID n)
          (nb_WorkspaceID n) (nb_ServerID n) (nb_Label n) (nb_TriggerSource n));
  mret (backupFromRow row).
Definition store_GetBackup (id : string) : M (option Backup) :=
  ok_or_norows (db_query_row (λ d, backupFromRow <$> sql_GetBackup id d)).
Definition store_ListByService (serviceID : string) : M (list Backup) :=
  db_query (λ d, map backupFromRow (sql_ListBackupsByService serviceID d)).
Definition ClaimNextForServer (serverID : string) : M (option Backup) :=
  row ← ok_or_norows (db_exec (sql_ClaimNextBackupForServer serverID));
  mret (backupFromRow <$> row).
Definition UpdateStatus (u : StatusUpdate) : M Backup :=
  row ← db_exec (sql_UpdateBackupStatus (su_Status u) (su_Message u) (su_Error u) (su_ArtifactURI u)
          (su_SizeBytes u) (su_Checksum u) (su_BackupID u));
  mret (backupFromRow row).
Definition store_ServiceTarget (serviceID : string) : M (option ServiceTarget) :=
  ok_or_norows (db_query_row (λ d, targetFromRow <$> sql_GetBackupServiceTarget serviceID d)).
Definition RunningServerForService (serviceID : string) : M (option string) :=
  ok_or_norows (db_query_row (sql_GetLatestRunningServerForService serviceID)).
Definition AgentServerByCredential (credentialHash : list Z) : M (option (string * string)) :=
  ok_or_norows (db_query_row (sql_GetAgentServerByCredential credentialHash)).
Definition DBCredentialsForService (serviceID : string) : M DBCredentials :=
  rows ← db_query (sql_ListConfigForService serviceID);
  mret (credentials_of rows).

Definition InsertRestore (n : NewRestore) : M RestoreJob :=
  row ← db_exec (sql_CreateRestoreJob (nr_BackupID n) (nr_ServiceID n) (nr_EnvironmentID n)
          (nr_ProjectID n) (nr_WorkspaceID n) (nr_ServerID n) (nr_ArtifactURI n));
  mret (restoreFromRow row).
Definition GetRestore (id : string) : M (option RestoreJob) :=
  ok_or_norows (db_query_row (λ d, restoreFromRow <$> sql_GetRestoreJob id d)).
Definition store_ListRestoresByService (serviceID : string) : M (list RestoreJob) :=
  db_query (λ d, map restoreFromRow (sql_ListRestoreJobsByService serviceID d)).
Definition ClaimNextRestoreForServer (serverID : string) : M (option RestoreJob) :=
  row ← ok_or_norows (db_exec (sql_ClaimNextRestoreForServer serverID));
  mret (restoreFromRow <$> row).
Definition UpdateRestoreStatus (u : RestoreStatusUpdate) : M RestoreJob :=
  row ← db_exec (sql_UpdateRestoreStatus (rsu_Status u) (rsu_Message u) (rsu_Error u) (rsu_RestoreID u));
  mret (restoreFromRow row).
End Store.
