(* ===== verification/Backups.v ===== *)
(** * Backups: the handlers of the backups module

    [internal/backups/service.go], handler by handler.  The dashboard handlers take the
    caller of the request context; the agent handlers authenticate by the credential in
    their input.  Log lines are dropped. *)
From S2P Require Import Prelude.
From S2P Require Import GoStrings.
From S2P Require Import Sha256.
From S2P Require Import Problem.
From S2P Require Import Schema.
From S2P Require Import Platform.
From S2P Require Import Authz.
From S2P Require Import DeployStore.
From S2P Require Import BackupStore.

(** ** Inputs and results (backups.go) *)
Record PollInput := mk_PollInput { pi_AgentID : string; pi_Credential : string }.

Record Claimed := mk_Claimed {
  cb_HasWork : bool;
  cb_BackupID : string;
  cb_Kind : string;
  cb_ServiceID : string;
  cb_Engine : string;
  cb_PgUser : string;
  cb_PgPassword : string;
  cb_PgDatabase : string;
}.

Record ClaimedRestore := mk_ClaimedRestore {
  cr_HasWork : bool;
  cr_RestoreID : string;
  cr_ServiceID : string;
  cr_Engine : string;
  cr_PgUser : string;
  cr_PgPassword : string;
  cr_PgDatabase : string;
  cr_ArtifactURI : string;
}.

Record ReportInput := mk_ReportInput {
  rb_AgentID : string;
  rb_Credential : string;
  rb_BackupID : string;
  rb_Status : string;
  rb_ArtifactURI : string;
  rb_SizeBytes : Z;
  rb_Checksum : string;
  rb_Message : string;
  rb_Error : string;
}.

Record ReportRestoreInput := mk_ReportRestoreInput {
  rr_AgentID : string;
  rr_Credential : string;
  rr_RestoreID : string;
  rr_Status : string;
  rr_Message : string;
  rr_Error : string;
}.

(** ** Pure helpers *)
Definition isAgentReportableStatus (status : string) : bool :=
  in_list [StatusDumping; StatusUploading; StatusVerifying; StatusSucceeded; StatusFailed] status.
Definition isAgentReportableRestoreStatus (status : string) : bool :=
  in_list [RestoreStatusRestoring; RestoreStatusVerifying; RestoreStatusSucceeded; RestoreStatusFailed] status.
Definition hashToken (raw : string) : list Z := sum_string raw.

Definition backup_resource (workspaceID id : string) : Resource := mk_Resource "backup" workspaceID id.

Definition no_backup : Claimed := mk_Claimed false "" "" "" "" "" "" "".
Definition no_restore : ClaimedRestore := mk_ClaimedRestore false "" "" "" "" "" "" "".

(** The data of the two inserts. *)
Definition new_backup (t : ServiceTarget) (serverID label : string) : NewBackup :=
  {| nb_ServiceID := tg_ID t; nb_EnvironmentID := tg_EnvironmentID t; nb_ProjectID := tg_ProjectID t;
     nb_WorkspaceID := tg_WorkspaceID t; nb_ServerID := serverID; nb_Label := label;
     nb_TriggerSource := TriggerManual |}.
Definition new_restore (b : Backup) : NewRestore :=
  {| nr_BackupID := b_ID b; nr_ServiceID := b_ServiceID b; nr_EnvironmentID := b_EnvironmentID b;
     nr_ProjectID := b_ProjectID b; nr_WorkspaceID := b_WorkspaceID b; nr_ServerID := b_ServerID b;
     nr_ArtifactURI := b_ArtifactURI b |}.

Section Service.
Context {E : Env} {A : Authorizer}.

(** ** The dashboard *)
Definition CreateBackup (caller : Principal) (serviceID label : string) : M Backup :=
  _ ← require (id_Parse serviceID) (InvalidInput "a valid service_id is required" []);
  let label := TrimSpace label in
  _ ← require (negb (maxLabelLen <? RuneCountInString label))
        (InvalidInput "the backup name must be at most %d characters" [AInt maxLabelLen]);
  target ← found "create backup" (store_ServiceTarget serviceID)
             (NotFound "service %s not found" [AStr serviceID]);
  _ ← require (String.eqb (tg_SourceKind target) sourceTemplate && String.eqb (tg_TemplateID target) templatePostgres)
        (InvalidInput "backups are only supported for managed Postgres databases" []);
  _ ← Authorize caller ActionBackupCreate (backup_resource (tg_WorkspaceID target) serviceID);
  serverID ← found "create backup" (RunningServerForService serviceID)
    (InvalidInput "the database must be running before it can be backed up — deploy it first" []);
  wrap "create backup"
    (within_tx
      (b ← InsertBackup (new_backup target serverID label);
       _ ← audit_Record (action_string ActionBackupCreate) "backup" (b_ID b) (tg_WorkspaceID target) (p_UserID caller);
       mret b)).

Definition GetBackup (caller : Principal) (backupID : string) : M Backup :=
  _ ← require (id_Parse backupID) (InvalidInput "a valid backup id is required" []);
  b ← found "get backup" (store_GetBackup backupID) (NotFound "backup %s not found" [AStr backupID]);
  _ ← Authorize caller ActionBackupRead (backup_resource (b_WorkspaceID b) (b_ID b));
  mret b.

Definition ListByService (caller : Principal) (serviceID : string) : M (list Backup) :=
  _ ← require (id_Parse serviceID) (InvalidInput "a valid service_id is required" []);
  target ← found "list backups" (store_ServiceTarget serviceID)
             (NotFound "service %s not found" [AStr serviceID]);
  _ ← Authorize caller ActionBackupRead (backup_resource (tg_WorkspaceID target) serviceID);
  wrap "list backups" (store_ListByService serviceID).

Definition RestoreBackup (caller : Principal) (backupID : string) : M RestoreJob :=
  _ ← require (id_Parse backupID) (InvalidInput "a valid backup id is required" []);
  b ← found "restore backup" (store_GetBackup backupID) (NotFound "backup %s not found" [AStr backupID]);
  _ ← require (String.eqb (b_Status b) StatusSucceeded)
        (InvalidInput "only a succeeded backup can be restored" []);
  _ ← Authorize caller ActionBackupCreate (backup_resource (b_WorkspaceID b) (b_ServiceID b));
  serverID ← found "restore backup" (RunningServerForService (b_ServiceID b))
    (InvalidInput "the database must be running to restore into it — deploy it first" []);
  _ ← require (String.eqb serverID (b_ServerID b))
    (InvalidInput "the backup is stored on a different server than the database currently runs on" []);
  wrap "restore backup"
    (within_tx
      (r ← InsertRestore (new_restore b);
       _ ← audit_Record "backup.restore" "restore" (r_ID r) (b_WorkspaceID b) (p_UserID caller);
       mret r)).

Definition ListRestoresByService (caller : Principal) (serviceID : string) : M (list RestoreJob) :=
  _ ← require (id_Parse serviceID) (InvalidInput "a valid service_id is required" []);
  target ← found "list restores" (store_ServiceTarget serviceID)
             (NotFound "service %s not found" [AStr serviceID]);
  _ ← Authorize caller ActionBackupRead (backup_resource (tg_WorkspaceID target) serviceID);
  wrap "list restores" (store_ListRestoresByService serviceID).

(** ** The agent gateway *)

(** [resolveAgent] returns the agent and its server. *)
Definition resolveAgent (agentID credential : string) : M (string * string) :=
  r ← found "resolve agent" (AgentServerByCredential (hashToken credential))
        (PermissionDenied "unknown agent credential" []);
  let '(gotAgentID, serverID) := r in
  if negb (String.eqb agentID "") && negb (String.eqb agentID gotAgentID)
  then fail (PermissionDenied "agent id does not match the credential" [])
  else mret (gotAgentID, serverID).

Definition need_credential (credential : string) : M unit :=
  require (negb (String.eqb credential "")) (InvalidInput "a credential is required" []).

Definition PollBackupJob (i : PollInput) : M Claimed :=
  _ ← need_credential (pi_Credential i);
  r ← resolveAgent (pi_AgentID i) (pi_Credential i);
  claimed ← wrap "poll backup job" (within_tx (ClaimNextForServer (snd r)));
  match claimed with
  | None => mret no_backup
  | Some b =>
      creds ← wrap "poll backup job" (DBCredentialsForService (b_ServiceID b));
      mret (mk_Claimed true (b_ID b) KindBackup (b_ServiceID b) EnginePostgres
              (c_User creds) (c_Password creds) (c_Database creds))
  end.

Definition ReportBackupJob (i : ReportInput) : M unit :=
  _ ← need_credential (rb_Credential i);
  _ ← require (id_Parse (rb_BackupID i)) (InvalidInput "a valid backup id is required" []);
  _ ← require (isAgentReportableStatus (rb_Status i))
        (InvalidInput "status %q is not a valid agent-reported backup status" [AStr (rb_Status i)]);
  r ← resolveAgent (rb_AgentID i) (rb_Credential i);
  b ← found "report backup job" (store_GetBackup (rb_BackupID i))
        (NotFound "backup %s not found" [AStr (rb_BackupID i)]);
  _ ← require (String.eqb (b_ServerID b) (snd r))
        (PermissionDenied "this agent does not own backup %s" [AStr (rb_BackupID i)]);
  wrap "report backup job"
    (within_tx
      (_ ← UpdateStatus (mk_StatusUpdate (rb_BackupID i) (rb_Status i) (rb_ArtifactURI i) (rb_SizeBytes i)
             (rb_Checksum i) (rb_Message i) (rb_Error i));
       mret tt)).

Definition PollRestoreJob (i : PollInput) : M ClaimedRestore :=
  _ ← need_credential (pi_Credential i);
  r ← resolveAgent (pi_AgentID i) (pi_Credential i);
  claimed ← wrap "poll restore job" (within_tx (ClaimNextRestoreForServer (snd r)));
  match claimed with
  | None => mret no_restore
  | Some j =>
      creds ← wrap "poll restore job" (DBCredentialsForService (r_ServiceID j));
      mret (mk_ClaimedRestore true (r_ID j) (r_ServiceID j) EnginePostgres
              (c_User creds) (c_Password creds) (c_Database creds) (r_ArtifactURI j))
  end.

Definition ReportRestoreJob (i : ReportRestoreInput) : M unit :=
  _ ← need_credential (rr_Credential i);
  _ ← require (id_Parse (rr_RestoreID i)) (InvalidInput "a valid restore id is required" []);
  _ ← require (isAgentReportableRestoreStatus (rr_Status i))
        (InvalidInput "status %q is not a valid agent-reported restore status" [AStr (rr_Status i)]);
  r ← resolveAgent (rr_AgentID i) (rr_Credential i);
  j ← found "report restore job" (GetRestore (rr_RestoreID i))
        (NotFound "restore %s not found" [AStr (rr_RestoreID i)]);
  _ ← require (String.eqb (r_ServerID j) (snd r))
        (PermissionDenied "this agent does not own restore %s" [AStr (rr_RestoreID i)]);
  wrap "report restore job"
    (within_tx
      (_ ← UpdateRestoreStatus (mk_RestoreStatusUpdate (rr_RestoreID i) (rr_Status i) (rr_Message i) (rr_Error i));
       mret tt)).
End Service.
