(* ===== verification/BackupSpec.v ===== *)
(** * BackupSpec: what each handler of the backups module does

    One weakest-precondition rule per handler of [Backups], in the style of
    [DeployHandlers]: the database after an error, and after a success the rows written
    and the value returned. *)
From S2P Require Import Prelude.
From S2P Require Import DeploySpec.
From S2P Require Import GoStrings.
From S2P Require Import Problem.
From S2P Require Import Schema.
From S2P Require Import Platform.
From S2P Require Import Authz.
From S2P Require Import DeployStore.
From S2P Require Import DeployHandlers.
From S2P Require Import BackupStore.
From S2P Require Import Backups.

#[export] Instance backup_job : Job db_Backup := {|
  job_id := bk_ID; job_server := bk_ServerID; job_status := bk_Status; job_created := bk_CreatedAt;
  job_assign := bk_assign;
  job_assign_id := λ _ _, eq_refl; job_assign_status := λ _ _, eq_refl;
|}.
#[export] Instance restore_job : Job db_RestoreJob := {|
  job_id := rj_ID; job_server := rj_ServerID; job_status := rj_Status; job_created := rj_CreatedAt;
  job_assign := rj_assign;
  job_assign_id := λ _ _, eq_refl; job_assign_status := λ _ _, eq_refl;
|}.

(** ** Effects *)

(** The row of a new backup of service [s] on server [srv]. *)
Definition backup_row (s : db_Service) (srv label : string) (row : db_Backup) : Prop :=
  bk_ServiceID row = sv_ID s ∧ bk_EnvironmentID row = sv_EnvironmentID s ∧
  bk_ProjectID row = sv_ProjectID s ∧ bk_WorkspaceID row = sv_WorkspaceID s ∧
  bk_ServerID row = srv ∧ bk_Destination row = "local" ∧ bk_Label row = label ∧
  bk_TriggerSource row = TriggerManual ∧ bk_Status row = StatusQueued ∧
  bk_ArtifactUri row = "" ∧ bk_SizeBytes row = 0 ∧ bk_Checksum row = "" ∧
  bk_Message row = "" ∧ bk_Error row = "".

(** The row of a restore of backup [b]. *)
Definition restore_row (b : db_Backup) (row : db_RestoreJob) : Prop :=
  rj_BackupID row = bk_ID b ∧ rj_ServiceID row = bk_ServiceID b ∧
  rj_EnvironmentID row = bk_EnvironmentID b ∧ rj_ProjectID row = bk_ProjectID b ∧
  rj_WorkspaceID row = bk_WorkspaceID b ∧ rj_ServerID row = bk_ServerID b ∧
  rj_ArtifactUri row = bk_ArtifactUri b ∧ rj_Status row = StatusQueued ∧
  rj_Message row = "" ∧ rj_Error row = "".

(** The service is a managed Postgres database. *)
Definition managed_postgres (s : db_Service) : Prop :=
  sv_SourceKind s = sourceTemplate ∧ sv_TemplateID s = templatePostgres.

Definition backup_created (caller : Principal) (row : db_Backup) (d d' : DB) : Prop :=
  backup_constraints row d = true ∧
  audited "backup.create" "backup" (bk_ID row) (bk_WorkspaceID row) (p_UserID caller)
    (set_backups (backups d ++ [row]) d) d'.
Definition restore_created (caller : Principal) (row : db_RestoreJob) (d d' : DB) : Prop :=
  restore_constraints row d = true ∧
  audited "backup.restore" "restore" (rj_ID row) (rj_WorkspaceID row) (p_UserID caller)
    (set_restore_jobs (restore_jobs d ++ [row]) d) d'.

Definition backup_claimed (srv : string) (row : db_Backup) (rest : list db_Backup) (now : Z) (d d' : DB) : Prop :=
  backup_queue srv d = row :: rest ∧ d' = set_backups (claim_row row now (backups d)) d.
Definition restore_claimed (srv : string) (row : db_RestoreJob) (rest : list db_RestoreJob) (now : Z) (d d' : DB) : Prop :=
  restore_queue srv d = row :: rest ∧ d' = set_restore_jobs (claim_row row now (restore_jobs d)) d.

Definition bk_report (i : ReportInput) (now : Z) : db_Backup → db_Backup :=
  bk_apply_update (rb_Status i) (rb_Message i) (rb_Error i) (rb_ArtifactURI i) (rb_SizeBytes i) (rb_Checksum i) now.
Definition rj_report (i : ReportRestoreInput) (now : Z) : db_RestoreJob → db_RestoreJob :=
  rj_apply_update (rr_Status i) (rr_Message i) (rr_Error i) now.

Definition backup_reported (i : ReportInput) (d d' : DB) : Prop :=
  ∃ now, d' = set_backups (update_where (λ x, String.eqb (bk_ID x) (rb_BackupID i)) (bk_report i now) (backups d)) d.
Definition restore_reported (i : ReportRestoreInput) (d d' : DB) : Prop :=
  ∃ now, d' = set_restore_jobs (update_where (λ x, String.eqb (rj_ID x) (rr_RestoreID i)) (rj_report i now) (restore_jobs d)) d.

(** The job handed out for a claimed row. *)
Definition backup_message (row : db_Backup) (c : DBCredentials) : Claimed :=
  mk_Claimed true (bk_ID row) KindBackup (bk_ServiceID row) EnginePostgres (c_User c) (c_Password c) (c_Database c).
Definition restore_message (row : db_RestoreJob) (c : DBCredentials) : ClaimedRestore :=
  mk_ClaimedRestore true (rj_ID row) (rj_ServiceID row) EnginePostgres (c_User c) (c_Password c) (c_Database c) (rj_ArtifactUri row).
Definition service_credentials (serviceID : string) (d : DB) : DBCredentials :=
  credentials_of (sql_ListConfigForService serviceID d).

Section Rules.
Context {E : Env} {A : Authorizer}.
Implicit Types (w : World).

(** ** Building blocks *)
Lemma wp_store_GetBackup id (Q : go_error + option Backup → World → Prop) w :
  (∀ e w', w_db w' = w_db w → Q (inl e) w') →
  (∀ w', w_db w' = w_db w → Q (inr None) w') →
  (∀ row w', w_db w' = w_db w → lookup_by bk_ID id (backups (w_db w)) = Some row →
     Q (inr (Some (backupFromRow row))) w') →
  wp (store_GetBackup id) Q w.
Proof.
  intros He Hn Ha. unfold store_GetBackup. wp_step; [by apply He|].
  unfold sql_GetBackup. destruct (lookup_by _ _ _) eqn:Hl; simpl; [by apply Ha|by apply Hn].
Qed.
Lemma wp_GetRestore id (Q : go_error + option RestoreJob → World → Prop) w :
  (∀ e w', w_db w' = w_db w → Q (inl e) w') →
  (∀ w', w_db w' = w_db w → Q (inr None) w') →
  (∀ row w', w_db w' = w_db w → lookup_by rj_ID id (restore_jobs (w_db w)) = Some row →
     Q (inr (Some (restoreFromRow row))) w') →
  wp (GetRestore id) Q w.
Proof.
  intros He Hn Ha. unfold GetRestore. wp_step; [by apply He|].
  unfold sql_GetRestoreJob. destruct (lookup_by _ _ _) eqn:Hl; simpl; [by apply Ha|by apply Hn].
Qed.
Lemma wp_store_ServiceTarget id (Q : go_error + option ServiceTarget → World → Prop) w :
  (∀ e w', w_db w' = w_db w → Q (inl e) w') →
  (∀ w', w_db w' = w_db w → Q (inr None) w') →
  (∀ s w', w_db w' = w_db w → lookup_by sv_ID id (services (w_db w)) = Some s →
     Q (inr (Some (targetFromRow s))) w') →
  wp (store_ServiceTarget id) Q w.
Proof.
  intros He Hn Ha. unfold store_ServiceTarget. wp_step; [by apply He|].
  unfold sql_GetBackupServiceTarget. destruct (lookup_by _ _ _) eqn:Hl; simpl; [by apply Ha|by apply Hn].
Qed.

Lemma wp_resolveAgent aid cred (Q : go_error + string * string → World → Prop) w :
  (∀ e w', w_db w' = w_db w → Q (inl e) w') →
  (∀ got srv w', w_db w' = w_db w → authenticated aid cred srv (w_db w) → Q (inr (got, srv)) w') →
  wp (resolveAgent aid cred) Q w.
Proof.
  intros He Ha. unfold resolveAgent, AgentServerByCredential.
  do 3 wp_step; [by apply He|].
  unfold sql_GetAgentServerByCredential. destruct (List.find _ _) as [a|] eqn:Hf; cbn; [|by apply He].
  wp_steps; [by apply He|]. apply Ha; [done|].
  apply find_some in Hf as [Hin Hc]. propify. exists a.
  split; [by apply list_elem_of_In|]. split; [done|]. split; [done|].
  apply andb_false_iff in Heqb as [Hb|Hb]; propify; auto.
Qed.

Lemma wp_agent_checked {X} aid cred (k : string * string → M X) (Q : go_error + X → World → Prop) w :
  (∀ e w', w_db w' = w_db w → Q (inl e) w') →
  (∀ got srv w', w_db w' = w_db w → authenticated aid cred srv (w_db w) → wp (k (got, srv)) Q w') →
  wp (resolveAgent aid cred ≫= k) Q w.
Proof. intros He Ha. wp_step. apply wp_resolveAgent; [done|]. auto. Qed.

(** The inserts: the row has the columns given and the defaults of the table. *)
Definition new_backup_row (n : NewBackup) (row : db_Backup) : Prop :=
  bk_ServiceID row = nb_ServiceID n ∧ bk_EnvironmentID row = nb_EnvironmentID n ∧
  bk_ProjectID row = nb_ProjectID n ∧ bk_WorkspaceID row = nb_WorkspaceID n ∧
  bk_ServerID row = nb_ServerID n ∧ bk_Destination row = "local" ∧ bk_Label row = nb_Label n ∧
  bk_TriggerSource row = nb_TriggerSource n ∧ bk_Status row = StatusQueued ∧
  bk_ArtifactUri row = "" ∧ bk_SizeBytes row = 0 ∧ bk_Checksum row = "" ∧
  bk_Message row = "" ∧ bk_Error row = "".

Lemma wp_InsertBackup n (Q : go_error + Backup → World → Prop) w :
  (∀ e w', w_db w' = w_db w → Q (inl e) w') →
  (∀ row w', new_backup_row n row → backup_constraints row (w_db w) = true →
     w_db w' = set_backups (backups (w_db w) ++ [row]) (w_db w) → Q (inr (backupFromRow row)) w') →
  wp (InsertBackup n) Q w.
Proof.
  intros He Ha. unfold InsertBackup. wp_steps; [by apply He|].
  unfold sql_CreateBackup in H. case_match eqn:Hc; [|done]. injection H as <- Hw.
  by apply Ha; [repeat split|exact Hc|].
Qed.

Lemma wp_InsertRestore b (Q : go_error + RestoreJob → World → Prop) w :
  (∀ e w', w_db w' = w_db w → Q (inl e) w') →
  (∀ row w', restore_row b row → restore_constraints row (w_db w) = true →
     w_db w' = set_restore_jobs (restore_jobs (w_db w) ++ [row]) (w_db w) → Q (inr (restoreFromRow row)) w') →
  wp (InsertRestore (new_restore (backupFromRow b))) Q w.
Proof.
  intros He Ha. unfold InsertRestore. wp_steps; [by apply He|].
  unfold sql_CreateRestoreJob in H. case_match eqn:Hc; [|done]. injection H as <- Hw.
  by apply Ha; [repeat split|exact Hc|].
Qed.

Lemma wp_RunningServer op sid e (Q : go_error + string → World → Prop) w :
  (∀ e w', w_db w' = w_db w → Q (inl e) w') →
  (∀ srv w', w_db w' = w_db w → sql_GetLatestRunningServerForService sid (w_db w) = Some srv → Q (inr srv) w') →
  wp (found op (RunningServerForService sid) e) Q w.
Proof.
  intros He Ha. unfold RunningServerForService. do 2 wp_step; [by apply He|].
  destruct (sql_GetLatestRunningServerForService sid (w_db w)) eqn:Hs; [by apply Ha|by apply He].
Qed.

Lemma wp_DBCredentialsForService sid (Q : go_error + DBCredentials → World → Prop) w :
  (∀ e w', w_db w' = w_db w → Q (inl e) w') →
  (∀ w', w_db w' = w_db w → Q (inr (service_credentials sid (w_db w))) w') →
  wp (DBCredentialsForService sid) Q w.
Proof. intros He Ha. unfold DBCredentialsForService. wp_steps; [by apply He|by apply Ha]. Qed.

(** A transaction under [wrap]. *)
Lemma wp_wrap_tx {X} op (m : M X) (Q : go_error + X → World → Prop) w :
  (∀ e w', w_db w' = w_db w → Q (inl e) w') →
  (∀ w0, w_db w0 = w_db w →
     wp m (λ r w1, match r with inl _ => True | inr a => ∀ w', w_db w' = w_db w1 → Q (inr a) w' end) w0) →
  wp (wrap op (within_tx m)) Q w.
Proof. intros He Ha. wp_step. wp_step; [by apply He|]. by apply Ha. Qed.

(** ** The dashboard *)
Lemma wp_CreateBackup c sid label (Q : go_error + Backup → World → Prop) w :
  (∀ e w', w_db w' = w_db w → Q (inl e) w') →
  (∀ s srv row w',
     lookup_by sv_ID sid (services (w_db w)) = Some s → managed_postgres s →
     RuneCountInString (TrimSpace label) ≤ maxLabelLen →
     allows c ActionBackupCreate (backup_resource (sv_WorkspaceID s) sid) (w_db w) →
     sql_GetLatestRunningServerForService sid (w_db w) = Some srv →
     backup_row s srv (TrimSpace label) row → backup_created c row (w_db w) (w_db w') →
     Q (inr (backupFromRow row)) w') →
  wp (CreateBackup c sid label) Q w.
Proof.
  intros He Ha. unfold CreateBackup.
  wp_step. wp_step; [|by apply He]. wp_step. wp_step; [|by apply He]. propify.
  wp_step. wp_step. apply wp_store_ServiceTarget; [intros; by apply He|intros; by apply He|].
  intros s w1 Hw1 Hs. wp_step. wp_step; [|apply He; congruence]. simpl in *. propify.
  wp_step. apply wp_Authorize; [intros; apply He; congruence|]. intros w2 Hw2 Hal.
  wp_step. apply wp_RunningServer; [intros; apply He; congruence|]. intros srv w3 Hw3 Hsrv.
  apply wp_wrap_tx; [intros; apply He; congruence|]. intros w4 Hw4.
  wp_step. apply wp_InsertBackup; [done|]. intros row w5 Hrow Hc Hw5.
  wp_step. apply wp_audit_Record; [done|]. intros w6 Haud. wp_step. intros w7 Hw7.
  world_eq. assert (bk_WorkspaceID row = sv_WorkspaceID s) as Hws by apply Hrow.
  eapply Ha; try done. split; [done|]. by rewrite Hw7, <- Hw5, Hws.
Qed.

(** The two reads of one backup or one service's rows. *)
Lemma wp_GetBackup c id (Q : go_error + Backup → World → Prop) w :
  (∀ e w', w_db w' = w_db w → Q (inl e) w') →
  (∀ row w', w_db w' = w_db w → lookup_by bk_ID id (backups (w_db w)) = Some row →
     allows c ActionBackupRead (backup_resource (bk_WorkspaceID row) (bk_ID row)) (w_db w) →
     Q (inr (backupFromRow row)) w') →
  wp (GetBackup c id) Q w.
Proof.
  intros He Ha. unfold GetBackup. wp_step. wp_step; [|by apply He].
  wp_step. wp_step. apply wp_store_GetBackup; [intros; by apply He|intros; by apply He|].
  intros row w1 Hw1 Hl. wp_step. apply wp_Authorize; [intros; apply He; congruence|]. intros w2 Hw2 Hal.
  wp_step. world_eq. by apply Ha.
Qed.

Lemma wp_list {X} c sid op (q : DB → list X) (Q : go_error + list X → World → Prop) w :
  (∀ e w', w_db w' = w_db w → Q (inl e) w') →
  (∀ s w', w_db w' = w_db w → lookup_by sv_ID sid (services (w_db w)) = Some s →
     allows c ActionBackupRead (backup_resource (sv_WorkspaceID s) sid) (w_db w) →
     Q (inr (q (w_db w))) w') →
  wp (_ ← require (id_Parse sid) (InvalidInput "a valid service_id is required" []);
      target ← found op (store_ServiceTarget sid) (NotFound "service %s not found" [AStr sid]);
      _ ← Authorize c ActionBackupRead (backup_resource (tg_WorkspaceID target) sid);
      wrap op (db_query q)) Q w.
Proof.
  intros He Ha. wp_step. wp_step; [|by apply He].
  wp_step. wp_step. apply wp_store_ServiceTarget; [intros; by apply He|intros; by apply He|].
  intros s w1 Hw1 Hl. wp_step. apply wp_Authorize; [intros; apply He; congruence|]. intros w2 Hw2 Hal.
  wp_step. wp_step; [apply He; congruence|]. world_eq. by eapply Ha.
Qed.
Lemma wp_ListByService c sid (Q : go_error + list Backup → World → Prop) w :
  (∀ e w', w_db w' = w_db w → Q (inl e) w') →
  (∀ s w', w_db w' = w_db w → lookup_by sv_ID sid (services (w_db w)) = Some s →
     allows c ActionBackupRead (backup_resource (sv_WorkspaceID s) sid) (w_db w) →
     Q (inr (map backupFromRow (sql_ListBackupsByService sid (w_db w)))) w') →
  wp (ListByService c sid) Q w.
Proof. exact (wp_list c sid _ (λ d, map backupFromRow (sql_ListBackupsByService sid d)) Q w). Qed.
Lemma wp_ListRestoresByService c sid (Q : go_error + list RestoreJob → World → Prop) w :
  (∀ e w', w_db w' = w_db w → Q (inl e) w') →
  (∀ s w', w_db w' = w_db w → lookup_by sv_ID sid (services (w_db w)) = Some s →
     allows c ActionBackupRead (backup_resource (sv_WorkspaceID s) sid) (w_db w) →
     Q (inr (map restoreFromRow (sql_ListRestoreJobsByService sid (w_db w)))) w') →
  wp (ListRestoresByService c sid) Q w.
Proof. exact (wp_list c sid _ (λ d, map restoreFromRow (sql_ListRestoreJobsByService sid d)) Q w). Qed.

Lemma wp_RestoreBackup c id (Q : go_error + RestoreJob → World → Prop) w :
  (∀ e w', w_db w' = w_db w → Q (inl e) w') →
  (∀ b row w',
     lookup_by bk_ID id (backups (w_db w)) = Some b → bk_Status b = StatusSucceeded →
     allows c ActionBackupCreate (backup_resource (bk_WorkspaceID b) (bk_ServiceID b)) (w_db w) →
     sql_GetLatestRunningServerForService (bk_ServiceID b) (w_db w) = Some (bk_ServerID b) →
     restore_row b row → restore_created c row (w_db w) (w_db w') →
     Q (inr (restoreFromRow row)) w') →
  wp (RestoreBackup c id) Q w.
Proof.
  intros He Ha. unfold RestoreBackup. wp_step. wp_step; [|by apply He].
  wp_step. wp_step. apply wp_store_GetBackup; [intros; by apply He|intros; by apply He|].
  intros b w1 Hw1 Hl. wp_step. wp_step; [|apply He; congruence]. simpl in *. propify.
  wp_step. apply wp_Authorize; [intros; apply He; congruence|]. intros w2 Hw2 Hal.
  wp_step. apply wp_RunningServer; [intros; apply He; congruence|]. intros srv w3 Hw3 Hsrv.
  wp_step. wp_step; [|apply He; congruence]. propify. subst srv.
  apply wp_wrap_tx; [intros; apply He; congruence|]. intros w4 Hw4.
  wp_step. apply wp_InsertRestore; [done|]. intros row w5 Hrow Hc Hw5.
  wp_step. apply wp_audit_Record; [done|]. intros w6 Haud. wp_step. intros w7 Hw7.
  world_eq. assert (rj_WorkspaceID row = bk_WorkspaceID b) as Hws by apply Hrow.
  eapply Ha; try done. split; [done|]. by rewrite Hw7, <- Hw5, Hws.
Qed.

(** ** The agent gateway *)
Lemma wp_ClaimNextForServer srv (Q : go_error + option Backup → World → Prop) w :
  (∀ e w', w_db w' = w_db w → Q (inl e) w') →
  (∀ w', w_db w' = w_db w → backup_queue srv (w_db w) = [] → Q (inr None) w') →
  (∀ row rest now w', backup_claimed srv row rest now (w_db w) (w_db w') →
     Q (inr (Some (backupFromRow (bk_assign now row)))) w') →
  wp (ClaimNextForServer srv) Q w.
Proof.
  intros He Hn Ha. unfold ClaimNextForServer. wp_step. unfold wp, ok_or_norows, db_exec.
  destruct (fault (w_tick w)); [by apply He|]. unfold sql_ClaimNextBackupForServer.
  destruct (backup_queue srv (w_db w)) as [|row rest] eqn:Hq; [by apply Hn|]. by eapply Ha.
Qed.
Lemma wp_ClaimNextRestore srv (Q : go_error + option RestoreJob → World → Prop) w :
  (∀ e w', w_db w' = w_db w → Q (inl e) w') →
  (∀ w', w_db w' = w_db w → restore_queue srv (w_db w) = [] → Q (inr None) w') →
  (∀ row rest now w', restore_claimed srv row rest now (w_db w) (w_db w') →
     Q (inr (Some (restoreFromRow (rj_assign now row)))) w') →
  wp (ClaimNextRestoreForServer srv) Q w.
Proof.
  intros He Hn Ha. unfold ClaimNextRestoreForServer. wp_step. unfold wp, ok_or_norows, db_exec.
  destruct (fault (w_tick w)); [by apply He|]. unfold sql_ClaimNextRestoreForServer.
  destruct (restore_queue srv (w_db w)) as [|row rest] eqn:Hq; [by apply Hn|]. by eapply Ha.
Qed.

(** A poll: nothing, or a claim, after which resolving the credentials can still fail. *)
Lemma wp_PollBackupJob i (Q : go_error + Claimed → World → Prop) w :
  (∀ e w', w_db w' = w_db w → Q (inl e) w') →
  (∀ srv w', w_db w' = w_db w → authenticated (pi_AgentID i) (pi_Credential i) srv (w_db w) →
     backup_queue srv (w_db w) = [] → Q (inr no_backup) w') →
  (∀ srv row rest now w',
     authenticated (pi_AgentID i) (pi_Credential i) srv (w_db w) →
     backup_claimed srv row rest now (w_db w) (w_db w') →
     (∀ e, Q (inl e) w') ∧
     Q (inr (backup_message row (service_credentials (bk_ServiceID row) (w_db w)))) w') →
  wp (PollBackupJob i) Q w.
Proof.
  intros He Hn Ha. unfold PollBackupJob, need_credential. wp_step. wp_step; [|by apply He].
  apply wp_agent_checked; [done|]. intros got srv w1 Hw1 Hauth. cbn [snd]. wp_step.
  apply wp_wrap_tx; [intros; apply He; congruence|]. intros w2 Hw2. world_eq.
  apply wp_ClaimNextForServer; [done| |]; rewrite Hw2.
  - intros w3 Hw3 Hq w4 Hw4. wp_step. apply (Hn srv); [congruence|done|done].
  - intros row rest now w3 Hc w4 Hw4. rewrite <- Hw4 in Hc.
    wp_step. wp_step. apply wp_DBCredentialsForService.
    + intros e w5 Hw5. rewrite <- Hw5 in Hc. by apply (Ha srv row rest now w5 Hauth Hc).
    + intros w5 Hw5. wp_step. rewrite <- Hw5 in Hc. destruct (Ha srv row rest now w5 Hauth Hc) as [_ Ha2].
      revert Ha2. destruct Hc as [_ Hc]. rewrite Hw5 in Hc.
      unfold service_credentials, sql_ListConfigForService. by rewrite Hc.
Qed.
Lemma wp_PollRestoreJob i (Q : go_error + ClaimedRestore → World → Prop) w :
  (∀ e w', w_db w' = w_db w → Q (inl e) w') →
  (∀ srv w', w_db w' = w_db w → authenticated (pi_AgentID i) (pi_Credential i) srv (w_db w) →
     restore_queue srv (w_db w) = [] → Q (inr no_restore) w') →
  (∀ srv row rest now w',
     authenticated (pi_AgentID i) (pi_Credential i) srv (w_db w) →
     restore_claimed srv row rest now (w_db w) (w_db w') →
     (∀ e, Q (inl e) w') ∧
     Q (inr (restore_message row (service_credentials (rj_ServiceID row) (w_db w)))) w') →
  wp (PollRestoreJob i) Q w.
Proof.
  intros He Hn Ha. unfold PollRestoreJob, need_credential. wp_step. wp_step; [|by apply He].
  apply wp_agent_checked; [done|]. intros got srv w1 Hw1 Hauth. cbn [snd]. wp_step.
  apply wp_wrap_tx; [intros; apply He; congruence|]. intros w2 Hw2. world_eq.
  apply wp_ClaimNextRestore; [done| |]; rewrite Hw2.
  - intros w3 Hw3 Hq w4 Hw4. wp_step. apply (Hn srv); [congruence|done|done].
  - intros row rest now w3 Hc w4 Hw4. rewrite <- Hw4 in Hc.
    wp_step. wp_step. apply wp_DBCredentialsForService.
    + intros e w5 Hw5. rewrite <- Hw5 in Hc. by apply (Ha srv row rest now w5 Hauth Hc).
    + intros w5 Hw5. wp_step. rewrite <- Hw5 in Hc. destruct (Ha srv row rest now w5 Hauth Hc) as [_ Ha2].
      revert Ha2. destruct Hc as [_ Hc]. rewrite Hw5 in Hc.
      unfold service_credentials, sql_ListConfigForService. by rewrite Hc.
Qed.

Lemma wp_ReportBackupJob i (Q : go_error + unit → World → Prop) w :
  (∀ e w', w_db w' = w_db w → Q (inl e) w') →
  (∀ srv row w',
     authenticated (rb_AgentID i) (rb_Credential i) srv (w_db w) →
     lookup_by bk_ID (rb_BackupID i) (backups (w_db w)) = Some row → bk_ServerID row = srv →
     isAgentReportableStatus (rb_Status i) = true →
     backup_reported i (w_db w) (w_db w') → Q (inr tt) w') →
  wp (ReportBackupJob i) Q w.
Proof.
  intros He Ha. unfold ReportBackupJob, need_credential. wp_step. wp_step; [|by apply He].
  wp_step. wp_step; [|by apply He]. wp_step. wp_step; [|by apply He].
  apply wp_agent_checked; [done|]. intros got srv w1 Hw1 Hauth. cbn [snd]. wp_step. wp_step.
  apply wp_store_GetBackup; [intros; apply He; congruence|intros; apply He; congruence|].
  intros row w2 Hw2 Hl. wp_step. wp_step; [|apply He; congruence]. cbn in H2. propify.
  apply wp_wrap_tx; [intros; apply He; congruence|]. intros w3 Hw3. unfold UpdateStatus.
  wp_step. wp_step. wp_step; [done|]. do 2 wp_step. intros w4 Hw4. world_eq.
  apply (Ha srv row w4); [done|done|done|done|].
  unfold sql_UpdateBackupStatus in *. cbn -[in_list update_where lookup_by] in *. rewrite Hl in *.
  case_match; [|done]. simplify_eq. exists (st_now st). rewrite Hw4. done.
Qed.
Lemma wp_ReportRestoreJob i (Q : go_error + unit → World → Prop) w :
  (∀ e w', w_db w' = w_db w → Q (inl e) w') →
  (∀ srv row w',
     authenticated (rr_AgentID i) (rr_Credential i) srv (w_db w) →
     lookup_by rj_ID (rr_RestoreID i) (restore_jobs (w_db w)) = Some row → rj_ServerID row = srv →
     isAgentReportableRestoreStatus (rr_Status i) = true →
     restore_reported i (w_db w) (w_db w') → Q (inr tt) w') →
  wp (ReportRestoreJob i) Q w.
Proof.
  intros He Ha. unfold ReportRestoreJob, need_credential. wp_step. wp_step; [|by apply He].
  wp_step. wp_step; [|by apply He]. wp_step. wp_step; [|by apply He].
  apply wp_agent_checked; [done|]. intros got srv w1 Hw1 Hauth. cbn [snd]. wp_step. wp_step.
  apply wp_GetRestore; [intros; apply He; congruence|intros; apply He; congruence|].
  intros row w2 Hw2 Hl. wp_step. wp_step; [|apply He; congruence]. cbn in H2. propify.
  apply wp_wrap_tx; [intros; apply He; congruence|]. intros w3 Hw3. unfold UpdateRestoreStatus.
  wp_step. wp_step. wp_step; [done|]. do 2 wp_step. intros w4 Hw4. world_eq.
  apply (Ha srv row w4); [done|done|done|done|].
  unfold sql_UpdateRestoreStatus in *. cbn -[in_list update_where lookup_by] in *. rewrite Hl in *.
  case_match; [|done]. simplify_eq. exists (st_now st). rewrite Hw4. done.
Qed.
End Rules.
