(* ===== verification/BackupSystem.v ===== *)
(** * BackupSystem: backups beside deployments

    The requests of the backups module as a transition system interleaved with those of
    the deployments module, the invariant of the two tables and its preservation.  The
    modules meet in the database: a backup is placed by reading the deployments table,
    and neither module writes a table of the other. *)
From S2P Require Import Prelude.
From S2P Require Import DeploySpec.
From S2P Require Import GoStrings.
From S2P Require Import Problem.
From S2P Require Import Schema.
From S2P Require Import Platform.
From S2P Require Import Authz.
From S2P Require Import DeployNames.
From S2P Require Import DeployStore.
From S2P Require Import DeployHandlers.
From S2P Require Import DeployInv.
From S2P Require Import DeploySystem.
From S2P Require Import BackupStore.
From S2P Require Import Backups.
From S2P Require Import BackupSpec.

Inductive BackupRequest :=
  | BCreate (caller : Principal) (serviceID label : string)
  | BGet (caller : Principal) (backupID : string)
  | BList (caller : Principal) (serviceID : string)
  | BRestore (caller : Principal) (backupID : string)
  | BListRestores (caller : Principal) (serviceID : string)
  | BPoll (i : PollInput)
  | BReport (i : ReportInput)
  | BPollRestore (i : PollInput)
  | BReportRestore (i : ReportRestoreInput).

(** ** The invariant *)

(** The columns no statement updates. *)
Definition bk_core (r : db_Backup) :=
  (bk_ID r, bk_ServiceID r, bk_EnvironmentID r, bk_ProjectID r, bk_WorkspaceID r, bk_ServerID r,
   bk_Destination r, bk_CreatedAt r, bk_Label r, bk_TriggerSource r).
Definition rj_core (r : db_RestoreJob) :=
  (rj_ID r, rj_BackupID r, rj_ServiceID r, rj_EnvironmentID r, rj_ProjectID r, rj_WorkspaceID r,
   rj_ServerID r, rj_ArtifactUri r, rj_CreatedAt r).

(** The service and the server exist and share the workspace. *)
Definition located (d : DB) (service server workspace : string) : Prop :=
  (∃ s, s ∈ services d ∧ sv_ID s = service ∧ sv_WorkspaceID s = workspace) ∧
  (∃ s, s ∈ servers d ∧ srv_ID s = server ∧ srv_WorkspaceID s = workspace).
Definition backup_located (d : DB) (b : db_Backup) : Prop :=
  located d (bk_ServiceID b) (bk_ServerID b) (bk_WorkspaceID b).

(** A restore is of a backup of the table, on that backup's server. *)
Definition restore_of (d : DB) (r : db_RestoreJob) : Prop :=
  ∃ b, b ∈ backups d ∧ bk_ID b = rj_BackupID r ∧ bk_ServiceID b = rj_ServiceID r ∧
       bk_ServerID b = rj_ServerID r ∧ bk_WorkspaceID b = rj_WorkspaceID r.

Record bwf (d : DB) : Prop := {
  bwf_ids : NoDup (map bk_ID (backups d));
  bwf_located : Forall (backup_located d) (backups d);
  bwf_restore_ids : NoDup (map rj_ID (restore_jobs d));
  bwf_restores : Forall (restore_of d) (restore_jobs d);
}.

(** ** Tables of other modules *)
Definition foreign (d : DB) :=
  (workspaces d, workspace_members d, projects d, environments d, servers d, agents d, config_entries d,
   users d, source_connections d, registration_tokens d).
(** A service without the columns the deployments module maintains. *)
Definition sv_static (s : db_Service) : db_Service := sv_set_route_url "" 0 s.
Lemma static_core l l' : map sv_static l' = map sv_static l → map sv_core l' = map sv_core l.
Proof. intros H. exact (map_core sv_static sv_core l l' H). Qed.

(** A domain row through route-sync reports: a status that says it was served. *)
Definition dm_route_synced (m m' : db_Domain) : Prop :=
  m' = m ∨ (dm_Status m ∈ ["verified"; "active"; "failed"] ∧
            ∃ status msg now, status ∈ ["active"; "failed"] ∧ m' = dm_set_status status msg now m).
#[export] Instance dm_route_synced_refl : Reflexive dm_route_synced. Proof. by left. Qed.
#[export] Instance dm_route_synced_trans : Transitive dm_route_synced.
Proof.
  intros m1 m2 m3 [->|(Hs & s & msg & now & Hin & ->)]; [done|]. intros [->|(_ & s' & msg' & now' & Hs' & ->)]; right;
    (split; [exact Hs|]); [by exists s, msg, now|by exists s', msg', now'].
Qed.
(** What a deployments handler keeps. *)
Definition deploy_keeps (d d' : DB) : Prop :=
  foreign d' = foreign d ∧ backups d' = backups d ∧ restore_jobs d' = restore_jobs d ∧
  map sv_static (services d') = map sv_static (services d) ∧ Forall2 dm_route_synced (domains d) (domains d').
(** What a backups handler keeps. *)
Definition backup_keeps (d d' : DB) : Prop :=
  foreign d' = foreign d ∧ services d' = services d ∧ domains d' = domains d ∧
  deployments d' = deployments d ∧ deployment_events d' = deployment_events d ∧
  teardown_jobs d' = teardown_jobs d.

Lemma wf_backup_keeps d d' : backup_keeps d d' → wf d → wf d'.
Proof.
  intros (Hf & Hs & _ & Hd & He & Ht). apply wf_evolved. injection Hf as _ _ _ _ Hsrv _ _ _ _ _.
  split; [rewrite Hd; apply Forall2_refl, _|done|by rewrite Hs|by rewrite Ht|]. exists []. by rewrite He, app_nil_r.
Qed.

Lemma located_mono d d' service server workspace :
  map sv_core (services d') = map sv_core (services d) → servers d' = servers d →
  located d service server workspace → located d' service server workspace.
Proof.
  intros Hs Hv [(s & Hin & H1 & H2) Hsrv]. split; [|by rewrite Hv].
  destruct (elem_of_map_core _ _ _ _ Hs Hin) as (s' & Hin' & Hc). injection Hc as Hc1 Hc2.
  exists s'. by rewrite Hc1, Hc2.
Qed.

(** Backups whose rows only changed in their status columns, plus new ones. *)
Lemma bwf_backups d d' :
  foreign d' = foreign d → services d' = services d → restore_jobs d' = restore_jobs d →
  map bk_core (backups d') = map bk_core (backups d) → bwf d → bwf d'.
Proof.
  intros Hf Hs Hr Hb [W1 W2 W3 W4]. injection Hf as _ _ _ _ Hsrv _ _ _ _ _.
  split; rewrite ?Hr; [|  |done|].
  - by rewrite (map_core bk_core (λ c, c.1.1.1.1.1.1.1.1.1) _ _ Hb : map bk_ID _ = map bk_ID _).
  - apply Forall_forall. intros b' Hb'. symmetry in Hb.
    destruct (elem_of_map_core _ _ _ _ Hb Hb') as (b & Hin & Hc). unfold bk_core in Hc.
    pose proof (proj1 (Forall_forall _ _) W2 b Hin) as Hl. unfold backup_located in *.
    replace (bk_ServiceID b') with (bk_ServiceID b) by congruence.
    replace (bk_ServerID b') with (bk_ServerID b) by congruence.
    replace (bk_WorkspaceID b') with (bk_WorkspaceID b) by congruence. apply (located_mono d); [by rewrite Hs|done|done].
  - eapply Forall_impl; [exact W4|]. intros r (b & Hin & H1 & H2 & H3 & H4).
    destruct (elem_of_map_core _ _ _ _ Hb Hin) as (b' & Hin' & Hc). unfold bk_core in Hc.
    exists b'. repeat split; try done; congruence.
Qed.
Lemma bwf_restores_kept d d' :
  foreign d' = foreign d → services d' = services d → backups d' = backups d →
  map rj_core (restore_jobs d') = map rj_core (restore_jobs d) → bwf d → bwf d'.
Proof.
  intros Hf Hs Hb Hr [W1 W2 W3 W4]. injection Hf as _ _ _ _ Hsrv _ _ _ _ _.
  split; rewrite ?Hb; [done| | |].
  - eapply Forall_impl; [exact W2|]. intros b. apply located_mono; [by rewrite Hs|done].
  - by rewrite (map_core rj_core (λ c, c.1.1.1.1.1.1.1.1) _ _ Hr : map rj_ID _ = map rj_ID _).
  - apply Forall_forall. intros r' Hr'. symmetry in Hr.
    destruct (elem_of_map_core _ _ _ _ Hr Hr') as (r & Hin & Hc). unfold rj_core in Hc.
    destruct (proj1 (Forall_forall _ _) W4 r Hin) as (b & H1' & H2' & H3' & H4' & H5').
    exists b. rewrite Hb. repeat split; try done; congruence.
Qed.

Lemma bwf_deploy_keeps d d' : deploy_keeps d d' → bwf d → bwf d'.
Proof.
  intros (Hf & Hb & Hr & Hs%static_core & _) [W1 W2 W3 W4]. injection Hf as _ _ _ _ Hsrv _ _ _ _ _.
  split; rewrite ?Hb, ?Hr; [done| |done|].
  - eapply Forall_impl; [exact W2|]. intros b. by apply located_mono.
  - eapply Forall_impl; [exact W4|]. intros r. unfold restore_of. by rewrite Hb.
Qed.

(** Steps of the other modules, as far as they only add services and servers. *)
Lemma bwf_other_step d d' :
  other_step d d' → backups d' = backups d → restore_jobs d' = restore_jobs d → bwf d → bwf d'.
Proof.
  intros [_ _ _ _ _ _ O7 O8] Hb Hr [B1 B2 B3 B4]. split; rewrite ?Hb, ?Hr; [done| |done|].
  - eapply Forall_impl; [exact B2|]. intros b [(s & Hs & H1 & H2) (v & Hv & H3 & H4)]. split.
    + destruct (O7 s Hs) as (s' & Hs' & Hc). injection Hc as Hc1 Hc2. exists s'. by rewrite Hc1, Hc2.
    + destruct (O8 v Hv) as (v' & Hv' & Hc1 & Hc2). exists v'. by rewrite Hc1, Hc2.
  - eapply Forall_impl; [exact B4|]. intros r. unfold restore_of. by rewrite Hb.
Qed.

(** New rows. *)
Lemma running_release_located sid srv s d :
  wf d → lookup_by sv_ID sid (services d) = Some s →
  sql_GetLatestRunningServerForService sid d = Some srv → located d (sv_ID s) srv (sv_WorkspaceID s).
Proof.
  intros W Hs Hr. unfold sql_GetLatestRunningServerForService in Hr.
  destruct (running_releases sid d) as [|r l] eqn:Hq; [done|]. injection Hr as <-.
  apply order_by_head_elem, elem_of_where in Hq as [Hin Hb]. propify.
  pose proof (proj1 (Forall_forall _ _) (wf_deployments _ W) r Hin) as [_ [(s' & Hs' & H1 & H2) (v & Hv & H3 & H4)] _ _].
  apply lookup_by_Some in Hs as [Hins Hid]. split; [by exists s|]. exists v. split; [done|]. split; [done|].
  pose proof (lookup_by_unique sv_ID _ _ (wf_service_ids _ W) Hins) as L1.
  pose proof (lookup_by_unique sv_ID _ _ (wf_service_ids _ W) Hs') as L2. congruence.
Qed.

Lemma NoDup_snoc_key {X} (key : X → string) x l :
  NoDup (map key l) → has_key key (key x) l = false → NoDup (map key (l ++ [x])).
Proof.
  intros Hnd Hk. rewrite map_app. apply NoDup_app. split; [done|]. split; [|by apply NoDup_singleton].
  intros y Hy ->%list_elem_of_singleton. by apply has_key_false in Hk.
Qed.

Lemma bwf_backup_created c row d d' : backup_created c row d d' → backup_located d row → bwf d → bwf d'.
Proof.
  intros (Hc & au & -> & _) Hl [W1 W2 W3 W4]. unfold backup_constraints in Hc. propify. split; simpl.
  - by apply NoDup_snoc_key.
  - apply Forall_app. split; [by eapply Forall_impl|]. by constructor.
  - done.
  - eapply Forall_impl; [exact W4|]. intros r (b & Hb & ?). exists b. simpl. set_solver.
Qed.
Lemma bwf_restore_created c row d d' : restore_created c row d d' → restore_of d row → bwf d → bwf d'.
Proof.
  intros (Hc & au & -> & _) Hl [W1 W2 W3 W4]. unfold restore_constraints in Hc. propify. split; simpl.
  - done.
  - by eapply Forall_impl.
  - by apply NoDup_snoc_key.
  - apply Forall_app. split; [by eapply Forall_impl|]. by constructor.
Qed.

Lemma restore_row_of id b row d :
  lookup_by bk_ID id (backups d) = Some b → restore_row b row → restore_of d row.
Proof.
  intros Hl (H1 & H2 & _ & _ & H3 & H4 & _). apply lookup_by_Some in Hl as [Hin _]. exists b.
  repeat split; congruence.
Qed.

Section System.
Context {E : Env} {A : Authorizer}.
Implicit Types (w : World).

Definition handle_backup (r : BackupRequest) : M unit :=
  match r with
  | BCreate c sid label => discard (CreateBackup c sid label)
  | BGet c id => discard (GetBackup c id)
  | BList c sid => discard (ListByService c sid)
  | BRestore c id => discard (RestoreBackup c id)
  | BListRestores c sid => discard (ListRestoresByService c sid)
  | BPoll i => discard (PollBackupJob i)
  | BReport i => ReportBackupJob i
  | BPollRestore i => discard (PollRestoreJob i)
  | BReportRestore i => ReportRestoreJob i
  end.

(** Worlds reached by requests of both modules and by the others. *)
Inductive platform_reachable (w0 : World) : World → Prop :=
  | pr_start : platform_reachable w0 w0
  | pr_deploy w r : platform_reachable w0 w → typed r → platform_reachable w0 (snd (handle r w))
  | pr_backup w r : platform_reachable w0 w → platform_reachable w0 (snd (handle_backup r w))
  | pr_other w w' : platform_reachable w0 w → other_step (w_db w) (w_db w') →
      backups (w_db w') = backups (w_db w) → restore_jobs (w_db w') = restore_jobs (w_db w) →
      platform_reachable w0 w'.

(** ** What a backups request may have done *)

(** A new backup, a new restore, a claim or a report, by whom it is. *)
Inductive backup_effect (d d' : DB) : BackupRequest → Prop :=
  | eff_create c sid label s srv row :
      lookup_by sv_ID sid (services d) = Some s → managed_postgres s →
      allows c ActionBackupCreate (backup_resource (sv_WorkspaceID s) sid) d →
      sql_GetLatestRunningServerForService sid d = Some srv →
      backup_row s srv (TrimSpace label) row → backup_created c row d d' →
      backup_effect d d' (BCreate c sid label)
  | eff_restore c id b row :
      lookup_by bk_ID id (backups d) = Some b → bk_Status b = StatusSucceeded →
      allows c ActionBackupCreate (backup_resource (bk_WorkspaceID b) (bk_ServiceID b)) d →
      sql_GetLatestRunningServerForService (bk_ServiceID b) d = Some (bk_ServerID b) →
      restore_row b row → restore_created c row d d' →
      backup_effect d d' (BRestore c id)
  | eff_poll i srv row rest now :
      authenticated (pi_AgentID i) (pi_Credential i) srv d →
      backup_claimed srv row rest now d d' → backup_effect d d' (BPoll i)
  | eff_poll_restore i srv row rest now :
      authenticated (pi_AgentID i) (pi_Credential i) srv d →
      restore_claimed srv row rest now d d' → backup_effect d d' (BPollRestore i)
  | eff_report i srv row :
      authenticated (rb_AgentID i) (rb_Credential i) srv d →
      lookup_by bk_ID (rb_BackupID i) (backups d) = Some row → bk_ServerID row = srv →
      isAgentReportableStatus (rb_Status i) = true →
      backup_reported i d d' → backup_effect d d' (BReport i)
  | eff_report_restore i srv row :
      authenticated (rr_AgentID i) (rr_Credential i) srv d →
      lookup_by rj_ID (rr_RestoreID i) (restore_jobs d) = Some row → rj_ServerID row = srv →
      isAgentReportableRestoreStatus (rr_Status i) = true →
      restore_reported i d d' → backup_effect d d' (BReportRestore i).

(** What a successful read or write of a dashboard user was allowed. *)
Definition backup_allowed (r : BackupRequest) (d : DB) : Prop :=
  match r with
  | BCreate c _ _ | BRestore c _ => ∃ ws id, allows c ActionBackupCreate (backup_resource ws id) d
  | BGet c _ | BList c _ | BListRestores c _ => ∃ ws id, allows c ActionBackupRead (backup_resource ws id) d
  | _ => True
  end.
Definition is_poll (r : BackupRequest) : bool :=
  match r with BPoll _ | BPollRestore _ => true | _ => false end.
Definition is_write (r : BackupRequest) : bool :=
  match r with BCreate _ _ _ | BRestore _ _ | BReport _ | BReportRestore _ => true | _ => false end.

(** Every run of a backups request: an error that changed nothing (a poll's error may
    come after its claim), a success without effect (reads, empty queues), or the
    effect. *)
Definition backup_outcome (r : BackupRequest) (res : go_error + unit) (d d' : DB) : Prop :=
  (d' = d ∧ (res = inr tt → is_write r = false ∧ backup_allowed r d)) ∨
  (backup_effect d d' r ∧ backup_allowed r d ∧ (is_poll r = true ∨ res = inr tt)).

Lemma wp_handle_backup r w : wp (handle_backup r) (λ res w', backup_outcome r res (w_db w) (w_db w')) w.
Proof.
  assert (∀ e w', w_db w' = w_db w → backup_outcome r (inl e) (w_db w) (w_db w')) as He by (intros e w' Hw'; by left).
  destruct r as [c sid label|c id|c sid|c id|c sid|i|i|i|i]; simpl; try apply wp_discard.
  - apply wp_CreateBackup; [done|]. intros. right. split; [by eapply eff_create|]. simpl. eauto.
  - apply wp_GetBackup; [done|]. intros. left. split; [done|]. simpl. eauto.
  - apply wp_ListByService; [done|]. intros. left. split; [done|]. simpl. eauto.
  - apply wp_RestoreBackup; [done|]. intros. right. split; [by eapply eff_restore|]. simpl. eauto.
  - apply wp_ListRestoresByService; [done|]. intros. left. split; [done|]. simpl. eauto.
  - apply wp_PollBackupJob; [done|by left|]. intros srv row rest now w' Ha Hc.
    assert (backup_effect (w_db w) (w_db w') (BPoll i)) by by eapply eff_poll.
    split; [intros e|]; right; simpl; auto.
  - apply wp_ReportBackupJob; [done|]. intros. right. split; [by eapply eff_report|]. simpl. auto.
  - apply wp_PollRestoreJob; [done|by left|]. intros srv row rest now w' Ha Hc.
    assert (backup_effect (w_db w) (w_db w') (BPollRestore i)) by by eapply eff_poll_restore.
    split; [intros e|]; right; simpl; auto.
  - apply wp_ReportRestoreJob; [done|]. intros. right. split; [by eapply eff_report_restore|]. simpl. auto.
Qed.

(** ** Preservation *)
Lemma bwf_effect r d d' : wf d → bwf d → backup_effect d d' r → bwf d'.
Proof.
  intros W B [c sid label s srv row Hs _ _ Hr Hrow Hc|c id b row Hl _ _ _ Hrow Hc|i srv row rest now _ [_ ->]
    |i srv row rest now _ [_ ->]|i srv row _ _ _ _ (now & ->)|i srv row _ _ _ _ (now & ->)].
  - eapply bwf_backup_created; [exact Hc| |done]. destruct Hrow as (H1 & _ & _ & H2 & H3 & _).
    unfold backup_located. rewrite H1, H2, H3. by apply (running_release_located sid).
  - eapply bwf_restore_created; [exact Hc| |done]. by eapply restore_row_of.
  - eapply bwf_backups; [..|exact B]; try done. simpl. by apply map_update_where.
  - eapply bwf_restores_kept; [..|exact B]; try done. simpl. by apply map_update_where.
  - eapply bwf_backups; [..|exact B]; try done. simpl. by apply map_update_where.
  - eapply bwf_restores_kept; [..|exact B]; try done. simpl. by apply map_update_where.
Qed.

Lemma effect_keeps r d d' : backup_effect d d' r → backup_keeps d d'.
Proof.
  intros [c sid label s srv row _ _ _ _ _ (_ & au & -> & _)|c id b row _ _ _ _ _ (_ & au & -> & _)
    |i srv row rest now _ [_ ->]|i srv row rest now _ [_ ->]|i srv row _ _ _ _ (now & ->)
    |i srv row _ _ _ _ (now & ->)]; done.
Qed.

Lemma deploy_keeps_refl d : deploy_keeps d d.
Proof. repeat (split; [done|]). apply Forall2_refl, _. Qed.
Lemma deploy_keeps_trans d d' d'' : deploy_keeps d d' → deploy_keeps d' d'' → deploy_keeps d d''.
Proof.
  unfold deploy_keeps. intros (-> & -> & -> & -> & H) (-> & -> & -> & -> & H').
  repeat (split; [done|]). by eapply Forall2_trans; [apply _|exact H|].
Qed.
(** A change of rows the module owns. *)
Lemma deploy_keeps_own d d' :
  foreign d' = foreign d → backups d' = backups d → restore_jobs d' = restore_jobs d →
  map sv_static (services d') = map sv_static (services d) → domains d' = domains d → deploy_keeps d d'.
Proof. intros H1 H2 H3 H4 H5. repeat (split; [done|]). rewrite H5. apply Forall2_refl, _. Qed.
End System.
