(* ===== verification/BackupAgent.v ===== *)
(** * BackupAgent: running backups and restores on a server

    [internal/agentcore] backup.go, and the three methods of docker.go it calls.  A run
    is a computation over the files of the server and a trace of its actions; the class
    [BackupHost] decides what Docker, the operating system and the control plane answer,
    indexed by the number of actions so far.  A dump is the sequence of chunks the
    container's standard output delivers; it is shorter than 2^63 bytes, so the byte
    counter does not wrap. *)
From S2P Require Import Prelude.
From S2P Require Import GoStrings.
From S2P Require Import Sha256.
From S2P Require Import Problem.

(** ** Vocabulary *)
Definition backupStatusDumping : string := "dumping".
Definition backupStatusVerifying : string := "verifying".
Definition backupStatusSucceeded : string := "succeeded".
Definition backupStatusFailed : string := "failed".
Definition restoreStatusRestoring : string := "restoring".

(** [PollBackupJobResponse] and [PollRestoreJobResponse] *)
Record BackupMsg := mk_BackupMsg {
  bm_HasWork : bool;
  bm_BackupId : string;
  bm_ServiceId : string;
  bm_PgUser : string;
  bm_PgPassword : string;
  bm_PgDatabase : string;
}.
Record RestoreMsg := mk_RestoreMsg {
  rm_HasWork : bool;
  rm_RestoreId : string;
  rm_ServiceId : string;
  rm_PgUser : string;
  rm_PgPassword : string;
  rm_PgDatabase : string;
  rm_ArtifactUri : string;
}.

(** [ReportBackupJobRequest] and [ReportRestoreJobRequest], without the identity. *)
Record BackupReport := mk_BackupReport {
  br_BackupId : string;
  br_Status : string;
  br_ArtifactUri : string;
  br_SizeBytes : Z;
  br_Checksum : string;
  br_Message : string;
  br_Error : string;
}.
Record RestoreReport := mk_RestoreReport {
  rs_RestoreId : string;
  rs_Status : string;
  rs_Message : string;
  rs_Error : string;
}.

Inductive BAct :=
  | BReportBackup (r : BackupReport)
  | BReportRestore (r : RestoreReport)
  | BPollBackup
  | BPollRestore
  | BListContainers (serviceID : string)
  | BExecCreate (containerID : string) (cmd env : list string)
  | BExecAttach (execID : string)
  | BDumpStream (execID : string)
  | BFeed (execID : string) (input : bytes)
  | BExecInspect (execID : string)
  | BMkdirAll (dir : string)
  | BOpenFile (path : string)
  | BClose (path : string)
  | BRemove (path : string)
  | BStat (path : string)
  | BOpenRead (path : string).

Abbreviation error := (option go_error).

(** [io.EOF], and [errors.Is] for it. *)
Definition io_EOF : go_error := ErrOther "EOF".
Fixpoint is_EOF (e : go_error) : bool :=
  match e with
  | ErrOther what => String.eqb what "EOF"
  | Errorf _ _ (Some e') => is_EOF e'
  | Problem _ _ _ (Some e') => is_EOF e'
  | _ => false
  end.
(** [if err != nil && !errors.Is(err, io.EOF) { return err }] *)
Definition stream_error (e : error) : error :=
  match e with Some e' => if is_EOF e' then None else Some e' | None => None end.

Class BackupHost := {
  berr_text : go_error → string;                                  (* err.Error() *)
  bh_pollBackup : nat → go_error + BackupMsg;
  bh_pollRestore : nat → go_error + RestoreMsg;
  bh_containers : nat → string → go_error + list string;          (* ContainerList, running, by label *)
  bh_execCreate : nat → string → list string → list string → go_error + string;
  bh_execAttach : nat → string → error;
  bh_stream : nat → string → list bytes * string * error;         (* stdout chunks, stderr, read error *)
  bh_feed : nat → string → bytes → error * string * error;        (* write error, stderr, read error *)
  bh_execInspect : nat → string → go_error + Z;                   (* the exit code *)
  bh_mkdirAll : nat → string → error;
  bh_openFile : nat → string → error;
  bh_write : nat → nat → bytes → option (nat * go_error);         (* a short write: the bytes written, the error *)
  bh_write_eof : ∀ n k c m e, bh_write n k c = Some (m, e) → is_EOF e = false;   (* a write never fails with io.EOF *)
  bh_close : nat → string → error;
  bh_remove : nat → string → error;
  bh_stat : nat → string → error;
  bh_openRead : nat → string → error;
}.

(** ** The state of the server and its monad *)
Abbreviation Disk := (gmap string bytes).
Record BState := mk_BState { bs_disk : Disk; bs_trace : list BAct }.
Definition BM (A : Type) : Type := BState → A * BState.
#[global] Instance BM_ret : MRet BM := λ A a s, (a, s).
#[global] Instance BM_bind : MBind BM := λ A B k m s, let '(a, s') := m s in k a s'.

(** One action: it is recorded, then answered; it may change the files. *)
Definition bact {A} (a : BAct) (answer : nat → Disk → A * Disk) : BM A := λ s,
  let '(r, d) := answer (length (bs_trace s)) (bs_disk s) in (r, mk_BState d (bs_trace s ++ [a])).
Definition bask {A} (a : BAct) (answer : nat → A) : BM A := bact a (λ n d, (answer n, d)).

Section BackupAgent.
Context {H : BackupHost}.

(** ** docker.go *)
Definition findRunningByService (serviceID : string) : BM (go_error + option string) :=
  r ← bask (BListContainers serviceID) (λ n, bh_containers n serviceID);
  mret (match r with
        | inl e => inl e
        | inr [] => inr None
        | inr (c :: _) => inr (Some c)
        end).

Definition pg_dump_cmd (user database : string) : list string :=
  ["pg_dump"; "--no-owner"; "--no-privileges"; "-U"; user; "-d"; database].
Definition psql_cmd (user database : string) : list string :=
  ["psql"; "-v"; "ON_ERROR_STOP=1"; "-U"; user; "-d"; database].
Definition pg_env (password : string) : list string := ["PGPASSWORD=" +:+ password].

(** A non-zero exit code is an error: the trimmed standard error, or the code. *)
Definition exit_error (tool stderr : string) (code : Z) : error :=
  if code =? 0 then None
  else if negb (String.eqb (TrimSpace stderr) "") then Some (ErrOther (TrimSpace stderr))
  else Some (Errorf (tool +:+ " exited with code %d") [AInt code] None).
Definition inspect_exit (tool execID stderr : string) : BM error :=
  r ← bask (BExecInspect execID) (λ n, bh_execInspect n execID);
  mret (match r with inl e => Some e | inr code => exit_error tool stderr code end).

(** [io.MultiWriter(f, hasher, counter)]: each chunk goes to the file first, and only a
    chunk the file took whole reaches the hasher and the counter.  The file's bytes, the
    bytes hashed and counted, and the error that stopped the copy. *)
Fixpoint write_chunks (n k : nat) (chunks : list bytes) (file seen : bytes) : bytes * bytes * error :=
  match chunks with
  | [] => (file, seen, None)
  | c :: cs =>
      match bh_write n k c with
      | None => write_chunks n (S k) cs (file ++ c) (seen ++ c)
      | Some (m, e) => (file ++ take m c, seen, Some e)
      end
  end.

(** [execPgDump] with the multi-writer as its destination: its error and the bytes that
    were hashed and counted. *)
Definition execPgDump (containerID user password database path : string) : BM (error * bytes) :=
  r ← bask (BExecCreate containerID (pg_dump_cmd user database) (pg_env password))
        (λ n, bh_execCreate n containerID (pg_dump_cmd user database) (pg_env password));
  match r with
  | inl e => mret (Some e, [])
  | inr execID =>
      err ← bask (BExecAttach execID) (λ n, bh_execAttach n execID);
      match err with
      | Some e => mret (Some e, [])
      | None =>
          r ← bact (BDumpStream execID) (λ n d,
                let '(chunks, stderr, rerr) := bh_stream n execID in
                let '(file, seen, werr) := write_chunks n 0 chunks (default [] (d !! path)) [] in
                ((seen, stderr, match werr with Some e => Some e | None => rerr end), <[path := file]> d));
          let '(seen, stderr, err) := r in
          match stream_error err with
          | Some e => mret (Some e, seen)
          | None => err ← inspect_exit "pg_dump" execID stderr; mret (err, seen)
          end
      end
  end.

(** [execPsqlRestore] with the whole artifact as its source. *)
Definition execPsqlRestore (containerID user password database : string) (src : bytes) : BM error :=
  r ← bask (BExecCreate containerID (psql_cmd user database) (pg_env password))
        (λ n, bh_execCreate n containerID (psql_cmd user database) (pg_env password));
  match r with
  | inl e => mret (Some e)
  | inr execID =>
      err ← bask (BExecAttach execID) (λ n, bh_execAttach n execID);
      match err with
      | Some e => mret (Some e)
      | None =>
          r ← bask (BFeed execID src) (λ n, bh_feed n execID src);
          let '(writeErr, stderr, demuxErr) := r in
          match writeErr with
          | Some e => mret (Some e)
          | None =>
              match stream_error demuxErr with
              | Some e => mret (Some e)
              | None => inspect_exit "psql" execID stderr
              end
          end
      end
  end.

(** ** The files (os) *)

(** Create or truncate. *)
Definition os_OpenFile (path : string) : BM error :=
  bact (BOpenFile path) (λ n d,
    match bh_openFile n path with Some e => (Some e, d) | None => (None, <[path := []]> d) end).
Definition os_Remove (path : string) : BM error :=
  bact (BRemove path) (λ n d,
    match bh_remove n path with Some e => (Some e, d) | None => (None, delete path d) end).
(** The size, or an error. *)
Definition os_Stat (path : string) : BM (go_error + Z) :=
  bact (BStat path) (λ n d,
    (match bh_stat n path, d !! path with
     | Some e, _ => inl e
     | None, None => inl (ErrOther "no such file or directory")
     | None, Some f => inr (Z.of_nat (length f))
     end, d)).
(** The contents the open file will deliver. *)
Definition os_Open (path : string) : BM (go_error + bytes) :=
  bact (BOpenRead path) (λ n d,
    (match bh_openRead n path, d !! path with
     | Some e, _ => inl e
     | None, None => inl (ErrOther "no such file or directory")
     | None, Some f => inr f
     end, d)).

(** ** backup.go *)
Definition backup_dir (dataDir serviceID : string) : string := filepath_Join [dataDir; "backups"; serviceID].
Definition artifact_path (dataDir serviceID backupID : string) : string :=
  filepath_Join [backup_dir dataDir serviceID; backupID +:+ ".sql"].

Definition report_backup (backupID status artifactURI : string) (size : Z) (checksum message errMsg : string) : BM unit :=
  bask (BReportBackup (mk_BackupReport backupID status artifactURI size checksum message errMsg)) (λ _, tt).
Definition fail_backup (backupID msg : string) : BM unit :=
  report_backup backupID backupStatusFailed "" 0 "" "" msg.

(** After the dump: what [dumpErr], [closeErr] and the counter say. *)
Definition finish_backup (backupID path : string) (dumpErr closeErr : error) (seen : bytes) : BM unit :=
  let size := Z.of_nat (length seen) in
  match dumpErr, closeErr with
  | Some e, _ => _ ← os_Remove path; fail_backup backupID ("pg_dump failed: " +:+ berr_text e)
  | None, Some e => _ ← os_Remove path; fail_backup backupID ("could not finalize the backup file: " +:+ berr_text e)
  | None, None =>
      if size =? 0 then _ ← os_Remove path; fail_backup backupID "pg_dump produced no output"
      else
        let checksum := hex_sum (str_of seen) in
        _ ← report_backup backupID backupStatusVerifying path size checksum "verifying the backup" "";
        info ← os_Stat path;
        if match info with inl _ => true | inr n => negb (n =? size) end
        then fail_backup backupID "backup verification failed: the artifact is missing or truncated"
        else report_backup backupID backupStatusSucceeded path size checksum ("backed up " +:+ Itoa size +:+ " bytes") ""
  end.

Definition executeBackup (hasRuntime : bool) (dataDir : string) (job : BackupMsg) : BM unit :=
  let backupID := bm_BackupId job in
  if negb hasRuntime then fail_backup backupID "Docker is not available on this server"
  else
    r ← findRunningByService (bm_ServiceId job);
    match r with
    | inl e => fail_backup backupID ("could not find the database container: " +:+ berr_text e)
    | inr None => fail_backup backupID "the database container is not running on this server"
    | inr (Some containerID) =>
        _ ← report_backup backupID backupStatusDumping "" 0 "" "running pg_dump" "";
        let dir := backup_dir dataDir (bm_ServiceId job) in
        err ← bask (BMkdirAll dir) (λ n, bh_mkdirAll n dir);
        match err with
        | Some e => fail_backup backupID ("could not create the backup directory: " +:+ berr_text e)
        | None =>
            let path := artifact_path dataDir (bm_ServiceId job) backupID in
            err ← os_OpenFile path;
            match err with
            | Some e => fail_backup backupID ("could not create the backup file: " +:+ berr_text e)
            | None =>
                r ← execPgDump containerID (bm_PgUser job) (bm_PgPassword job) (bm_PgDatabase job) path;
                let '(dumpErr, seen) := r in
                closeErr ← bask (BClose path) (λ n, bh_close n path);
                finish_backup backupID path dumpErr closeErr seen
            end
        end
    end.

Definition report_restore (restoreID status message errMsg : string) : BM unit :=
  bask (BReportRestore (mk_RestoreReport restoreID status message errMsg)) (λ _, tt).
Definition fail_restore (restoreID msg : string) : BM unit := report_restore restoreID backupStatusFailed "" msg.

Definition executeRestore (hasRuntime : bool) (job : RestoreMsg) : BM unit :=
  let restoreID := rm_RestoreId job in
  if negb hasRuntime then fail_restore restoreID "Docker is not available on this server"
  else
    r ← findRunningByService (rm_ServiceId job);
    match r with
    | inl e => fail_restore restoreID ("could not find the database container: " +:+ berr_text e)
    | inr None => fail_restore restoreID "the database container is not running on this server"
    | inr (Some containerID) =>
        r ← os_Open (rm_ArtifactUri job);
        match r with
        | inl e => fail_restore restoreID ("could not open the backup artifact: " +:+ berr_text e)
        | inr f =>
            _ ← report_restore restoreID restoreStatusRestoring "restoring with psql" "";
            err ← execPsqlRestore containerID (rm_PgUser job) (rm_PgPassword job) (rm_PgDatabase job) f;
            match err with
            | Some e => fail_restore restoreID ("restore failed: " +:+ berr_text e)
            | None => report_restore restoreID backupStatusSucceeded "restore complete" ""
            end
        end
    end.

(** [pollAndRunRestore]: whether there was work. *)
Definition pollAndRunRestore (hasRuntime : bool) : BM bool :=
  r ← bask BPollRestore bh_pollRestore;
  match r with
  | inl _ => mret false
  | inr job => if negb (rm_HasWork job) then mret false
               else _ ← executeRestore hasRuntime job; mret true
  end.

(** One iteration of [backupLoop]: what the loop does before the next poll. *)
Inductive LoopStep := LoopAgain | LoopSleep | LoopBackoff.
Definition backup_tick (hasRuntime : bool) (dataDir : string) : BM LoopStep :=
  r ← bask BPollBackup bh_pollBackup;
  match r with
  | inl _ => mret LoopBackoff
  | inr job =>
      if negb (bm_HasWork job) then
        worked ← pollAndRunRestore hasRuntime;
        mret (if worked : bool then LoopAgain else LoopSleep)
      else _ ← executeBackup hasRuntime dataDir job; mret LoopAgain
  end.
End BackupAgent.
