(* ===== verification/BackupAgentProps.v ===== *)
(** * BackupAgentProps: what a run of the agent's backup loop guarantees *)
From S2P Require Import Prelude.
From S2P Require Import GoStrings.
From S2P Require Import Sha256.
From S2P Require Import Problem.
From S2P Require Import BackupAgent.

(** ** Runs extend the trace *)
Section Triples.
Context {H : BackupHost}.

(** From the files [d], [m] returns [a], leaves the files [d'] and appends [ext]. *)
Definition bwp {A} (m : BM A) (Q : A → Disk → list BAct → Prop) (d : Disk) : Prop :=
  ∀ tr, ∃ a d' ext, m (mk_BState d tr) = (a, mk_BState d' (tr ++ ext)) ∧ Q a d' ext.

Lemma bwp_ret {A} (a : A) (Q : A → Disk → list BAct → Prop) d : Q a d [] → bwp (mret a) Q d.
Proof. intros HQ tr. exists a, d, []. by rewrite app_nil_r. Qed.
Lemma bwp_bact {A} x (f : nat → Disk → A * Disk) (Q : A → Disk → list BAct → Prop) d :
  (∀ n, Q (f n d).1 (f n d).2 [x]) → bwp (bact x f) Q d.
Proof.
  intros HQ tr. exists (f (length tr) d).1, (f (length tr) d).2, [x]. split; [|done].
  unfold bact. simpl. by destruct (f _ _).
Qed.
Lemma bwp_bask {A} x (f : nat → A) (Q : A → Disk → list BAct → Prop) d :
  (∀ n, Q (f n) d [x]) → bwp (bask x f) Q d.
Proof. intros HQ. by apply bwp_bact. Qed.
Lemma bwp_bind {A B} (m : BM A) (k : A → BM B) (Q : B → Disk → list BAct → Prop) d :
  bwp m (λ a d1 e1, bwp (k a) (λ b d2 e2, Q b d2 (e1 ++ e2)) d1) d → bwp (m ≫= k) Q d.
Proof.
  intros Hm tr. destruct (Hm tr) as (a & d1 & e1 & Hrun & Hk). destruct (Hk (tr ++ e1)) as (b & d2 & e2 & Hrun2 & HQ).
  exists b, d2, (e1 ++ e2). unfold mbind, BM_bind. rewrite Hrun, Hrun2. by rewrite app_assoc.
Qed.
Lemma bwp_mono {A} (m : BM A) (Q Q' : A → Disk → list BAct → Prop) d :
  (∀ a d' e, Q a d' e → Q' a d' e) → bwp m Q d → bwp m Q' d.
Proof. intros Hi Hm tr. destruct (Hm tr) as (a & d' & e & ? & ?). eauto 6. Qed.
Lemma bwp_run {A} (m : BM A) (Q : A → Disk → list BAct → Prop) d tr a s :
  bwp m Q d → m (mk_BState d tr) = (a, s) → ∃ ext, bs_trace s = tr ++ ext ∧ Q a (bs_disk s) ext.
Proof. intros Hm Hrun. destruct (Hm tr) as (a' & d' & e & Hrun' & HQ). rewrite Hrun in Hrun'. simplify_eq. eauto. Qed.
End Triples.

Ltac bwp_step :=
  lazymatch goal with
  | |- bwp (_ ≫= _) _ _ => apply bwp_bind
  | |- bwp (mret _) _ _ => apply bwp_ret
  | |- bwp (bask _ _) _ _ => apply bwp_bask; intros ?
  | |- bwp (if ?b then _ else _) _ _ => destruct b eqn:?
  | |- bwp (match ?x with _ => _ end) _ _ => destruct x eqn:?
  | |- bwp (let '_ := ?x in _) _ _ => destruct x eqn:?
  end.
Ltac bwp_steps := repeat (bwp_step; simpl).

(** ** Reading a trace *)
Definition backup_reports (tr : list BAct) : list BackupReport :=
  omap (λ a, match a with BReportBackup r => Some r | _ => None end) tr.
Definition restore_reports (tr : list BAct) : list RestoreReport :=
  omap (λ a, match a with BReportRestore r => Some r | _ => None end) tr.
(** The inputs fed to a command. *)
Definition fed (tr : list BAct) : list bytes :=
  omap (λ a, match a with BFeed _ input => Some input | _ => None end) tr.
Definition commands (tr : list BAct) : list (list string) :=
  omap (λ a, match a with BExecCreate _ cmd _ => Some cmd | _ => None end) tr.

Lemma backup_reports_app e f : backup_reports (e ++ f) = backup_reports e ++ backup_reports f.
Proof. apply omap_app. Qed.
Lemma restore_reports_app e f : restore_reports (e ++ f) = restore_reports e ++ restore_reports f.
Proof. apply omap_app. Qed.
Lemma fed_app e f : fed (e ++ f) = fed e ++ fed f.
Proof. apply omap_app. Qed.
Lemma commands_app e f : commands (e ++ f) = commands e ++ commands f.
Proof. apply omap_app. Qed.

#[export] Hint Rewrite backup_reports_app restore_reports_app fed_app commands_app : plorigo.

Section Dump.
Context {H : BackupHost}.

Lemma write_chunks_ok n k cs file seen file' seen' :
  write_chunks n k cs file seen = (file', seen', None) →
  file' = file ++ concat cs ∧ seen' = seen ++ concat cs.
Proof.
  revert k file seen. induction cs as [|c cs IH]; intros k file seen; simpl.
  - intros [= <- <-]. by rewrite !app_nil_r.
  - destruct (bh_write n k c) as [[m e]|]; [done|]. intros Hw. apply IH in Hw as [-> ->].
    by rewrite <- !app_assoc.
Qed.
Lemma write_chunks_err n k cs file seen file' seen' e :
  write_chunks n k cs file seen = (file', seen', Some e) → is_EOF e = false.
Proof.
  revert k file seen. induction cs as [|c cs IH]; intros k file seen; simpl; [done|].
  destruct (bh_write n k c) as [[m e']|] eqn:Hw; [|apply IH].
  intros [= _ _ <-]. by eapply bh_write_eof.
Qed.

(** The dump of a database: the whole standard output of a pg_dump that exited with
    code 0 in the service's running container. *)
Definition dumped (job : BackupMsg) (data : bytes) : Prop :=
  ∃ n0 n1 n2 n3 cid cids execID chunks stderr rerr,
    bh_containers n0 (bm_ServiceId job) = inr (cid :: cids) ∧
    bh_execCreate n1 cid (pg_dump_cmd (bm_PgUser job) (bm_PgDatabase job)) (pg_env (bm_PgPassword job)) = inr execID ∧
    bh_stream n2 execID = (chunks, stderr, rerr) ∧ stream_error rerr = None ∧
    bh_execInspect n3 execID = inr 0 ∧ data = concat chunks.

Definition dumped_in (cid : string) (job : BackupMsg) (data : bytes) : Prop :=
  ∃ n1 n2 n3 execID chunks stderr rerr,
    bh_execCreate n1 cid (pg_dump_cmd (bm_PgUser job) (bm_PgDatabase job)) (pg_env (bm_PgPassword job)) = inr execID ∧
    bh_stream n2 execID = (chunks, stderr, rerr) ∧ stream_error rerr = None ∧
    bh_execInspect n3 execID = inr 0 ∧ data = concat chunks.

Lemma exit_error_None tool stderr code : exit_error tool stderr code = None → code = 0.
Proof. unfold exit_error. destruct (Z.eqb_spec code 0); [done|]. by case_match. Qed.

(** [execPgDump] into an empty file: only that file changes, and without an error it
    holds the dump, all of it hashed and counted. *)
Lemma bwp_execPgDump cid job path d (Q : error * bytes → Disk → list BAct → Prop) :
  d !! path = Some [] →
  (∀ err seen file ext,
     backup_reports ext = [] → restore_reports ext = [] → fed ext = [] →
     Forall (λ c, c = pg_dump_cmd (bm_PgUser job) (bm_PgDatabase job)) (commands ext) →
     (err = None → file = seen ∧ dumped_in cid job seen) →
     Q (err, seen) (<[path := file]> d) ext) →
  bwp (execPgDump cid (bm_PgUser job) (bm_PgPassword job) (bm_PgDatabase job) path) Q d.
Proof.
  intros Hp HQ. assert (<[path := []]> d = d) as Hid by by apply insert_id.
  assert (∀ e ext, backup_reports ext = [] → restore_reports ext = [] → fed ext = [] →
     Forall (λ c, c = pg_dump_cmd (bm_PgUser job) (bm_PgDatabase job)) (commands ext) → Q (Some e, []) d ext) as HQ0.
  { intros e ext ????. rewrite <- Hid. by apply HQ. }
  unfold execPgDump, inspect_exit.
  do 2 bwp_step. destruct (bh_execCreate n _ _ _) as [e|execID] eqn:Hc.
  { bwp_step. apply HQ0; try done. by repeat constructor. }
  do 2 bwp_step. destruct (bh_execAttach n0 execID) as [e|].
  { bwp_step. apply HQ0; try done. by repeat constructor. }
  bwp_step. apply bwp_bact. intros n2. destruct (bh_stream n2 execID) as [[chunks stderr] rerr] eqn:Hs.
  rewrite Hp. simpl. destruct (write_chunks n2 0 chunks [] []) as [[file seen] werr] eqn:Hw. simpl.
  destruct (stream_error _) as [e|] eqn:He.
  { bwp_step. apply HQ; try done. by repeat constructor. }
  do 5 bwp_step. simpl. apply HQ; try done; [by repeat constructor|].
  intros Hnone. destruct (bh_execInspect n1 execID) as [e|code] eqn:Hi; [done|]. apply exit_error_None in Hnone as ->.
  destruct werr as [e|].
  { apply write_chunks_err in Hw. simpl in He. by rewrite Hw in He. }
  apply write_chunks_ok in Hw as [-> ->]. split; [done|]. exists n, n2, n1, execID, chunks, stderr, rerr. done.
Qed.
End Dump.

Section Runs.
Context {H : BackupHost}.

(** The reports of one run, as (status, artifact, size, checksum). *)
Definition report_line (r : BackupReport) := (br_Status r, br_ArtifactUri r, br_SizeBytes r, br_Checksum r).
Definition size_of (data : bytes) : Z := Z.of_nat (length data).
Definition checksum_of (data : bytes) : string := hex_sum (str_of data).

(** A run that failed: the reports end in "failed", without an artifact in that report;
    the file is as before, or gone, or its removal failed, or the operating system
    could not look at it when it was complete. *)
Definition failed_backup (path : string) (d d' : Disk) (ext : list BAct) : Prop :=
  (map report_line (backup_reports ext) = [(backupStatusFailed, "", 0, "")] ∨
   map report_line (backup_reports ext) = [(backupStatusDumping, "", 0, ""); (backupStatusFailed, "", 0, "")] ∨
   ∃ size sum, map report_line (backup_reports ext) =
     [(backupStatusDumping, "", 0, ""); (backupStatusVerifying, path, size, sum); (backupStatusFailed, "", 0, "")]) ∧
  (d' = d ∨ d' !! path = None ∨ (∃ n e, bh_remove n path = Some e) ∨ (∃ n e, bh_stat n path = Some e)).

(** A run that succeeded: the file holds the dump, which is not empty, and the reports
    carry its path, its size and its SHA-256. *)
Definition succeeded_backup (job : BackupMsg) (path : string) (d' : Disk) (ext : list BAct) : Prop :=
  ∃ data, d' !! path = Some data ∧ data ≠ [] ∧ dumped job data ∧
    map report_line (backup_reports ext) =
      [(backupStatusDumping, "", 0, ""); (backupStatusVerifying, path, size_of data, checksum_of data);
       (backupStatusSucceeded, path, size_of data, checksum_of data)].

Definition backup_run (dataDir : string) (job : BackupMsg) (d d' : Disk) (ext : list BAct) : Prop :=
  let path := artifact_path dataDir (bm_ServiceId job) (bm_BackupId job) in
  (∀ p, p ≠ path → d' !! p = d !! p) ∧
  Forall (λ r, br_BackupId r = bm_BackupId job) (backup_reports ext) ∧
  restore_reports ext = [] ∧ fed ext = [] ∧
  Forall (λ c, c = pg_dump_cmd (bm_PgUser job) (bm_PgDatabase job)) (commands ext) ∧
  (failed_backup path d d' ext ∨ succeeded_backup job path d' ext).

(** Compute what a trace with a dump in it shows. *)
Ltac observe :=
  unfold failed_backup, succeeded_backup; simpl; autorewrite with plorigo;
  repeat match goal with
  | R : backup_reports ?e = [] |- context [backup_reports ?e] => rewrite R
  | R : restore_reports ?e = [] |- context [restore_reports ?e] => rewrite R
  | R : fed ?e = [] |- context [fed ?e] => rewrite R
  end; simpl; rewrite ?app_nil_r;
  (split; [by repeat constructor|]); (split; [done|]); (split; [done|]); (split; [done|]).
Ltac early := split; [done|]; simpl; do 4 (split; [by repeat constructor|]); left; split; [simpl; auto|by left].

(** Removing the partial file. *)
Lemma bwp_os_Remove path d (Q : error → Disk → list BAct → Prop) :
  (∀ r d', (d' = delete path d ∨ (d' = d ∧ ∃ n e, bh_remove n path = Some e)) → Q r d' [BRemove path]) →
  bwp (os_Remove path) Q d.
Proof.
  intros HQ. apply bwp_bact. intros n. destruct (bh_remove n path) as [e|] eqn:Hr; apply HQ; simpl; eauto 6.
Qed.

(** The end of a run: on any error the partial file is removed and the run fails. *)
Lemma bwp_finish id path dumpErr closeErr seen file d (Q : unit → Disk → list BAct → Prop) :
  d !! path = Some file → (dumpErr = None → file = seen) →
  (∀ d' ext msg,
     (d' = delete path d ∨ (d' = d ∧ ∃ n e, bh_remove n path = Some e)) →
     ext = [BRemove path; BReportBackup (mk_BackupReport id backupStatusFailed "" 0 "" "" msg)] → Q tt d' ext) →
  (∀ ext msg, seen ≠ [] → dumpErr = None → (∃ n e, bh_stat n path = Some e) →
     ext = [BReportBackup (mk_BackupReport id backupStatusVerifying path (size_of seen) (checksum_of seen) "verifying the backup" "");
            BStat path; BReportBackup (mk_BackupReport id backupStatusFailed "" 0 "" "" msg)] → Q tt d ext) →
  (∀ ext msg, seen ≠ [] → dumpErr = None →
     ext = [BReportBackup (mk_BackupReport id backupStatusVerifying path (size_of seen) (checksum_of seen) "verifying the backup" "");
            BStat path;
            BReportBackup (mk_BackupReport id backupStatusSucceeded path (size_of seen) (checksum_of seen) msg "")] → Q tt d ext) →
  bwp (finish_backup id path dumpErr closeErr seen) Q d.
Proof.
  intros Hp Hfile Hrem Hstat Hok. unfold finish_backup, fail_backup, report_backup.
  assert (∀ msg, bwp (_ ← os_Remove path;
            bask (BReportBackup (mk_BackupReport id backupStatusFailed "" 0 "" "" msg)) (λ _, tt)) Q d) as Hr.
  { intros msg. bwp_step. apply bwp_os_Remove. intros r d' Hd'. bwp_step. simpl. by eapply Hrem. }
  destruct dumpErr as [e|]; [apply Hr|]. destruct closeErr as [e|]; [apply Hr|].
  destruct (Z.eqb_spec (Z.of_nat (length seen)) 0) as [H0|H0]; [apply Hr|].
  assert (seen ≠ []) as Hne by (intros ->; done). rewrite (Hfile eq_refl) in Hp.
  do 3 bwp_step. apply bwp_bact. intros m. rewrite Hp. destruct (bh_stat m path) as [e|] eqn:Hs; simpl.
  - bwp_step. simpl. eapply Hstat; eauto.
  - rewrite Z.eqb_refl. simpl. bwp_step. simpl. by eapply Hok.
Qed.

Lemma bwp_executeBackup hasRuntime dataDir job d :
  bwp (executeBackup hasRuntime dataDir job) (λ _ d' ext, backup_run dataDir job d d' ext) d.
Proof.
  unfold executeBackup, findRunningByService, fail_backup, report_backup.
  bwp_step; [bwp_step; by early|]. do 3 bwp_step.
  destruct (bh_containers n (bm_ServiceId job)) as [e|[|cid cids]] eqn:Hc; (bwp_step; simpl); [bwp_step; by early..|].
  do 4 bwp_step. bwp_step; [bwp_step; by early|]. bwp_step. apply bwp_bact. intros n2.
  destruct (bh_openFile n2 _) as [e|]; simpl; [bwp_step; by early|].
  set (path := artifact_path dataDir (bm_ServiceId job) (bm_BackupId job)).
  bwp_step. apply bwp_execPgDump; [by rewrite lookup_insert_eq|].
  intros err seen file ext R1 R2 R3 R4 Hok. rewrite insert_insert_eq. do 2 bwp_step.
  assert (∀ p, p ≠ path → <[path:=file]> d !! p = d !! p) as Hfr by (intros p ?; by apply lookup_insert_ne).
  assert (∀ p, p ≠ path → delete path (<[path:=file]> d) !! p = d !! p) as Hfr'
    by (intros p ?; rewrite lookup_delete_ne by done; by apply Hfr).
  apply (bwp_finish _ _ _ _ _ file); [by rewrite lookup_insert_eq|naive_solver| | |].
  - intros d' ext' msg Hd' ->. split; [by destruct Hd' as [->|[-> _]]|].
    observe. left. split; [right; left; done|].
    destruct Hd' as [->|[-> Hr]]; [right; left; by rewrite lookup_delete_eq|eauto 6].
  - intros ext' msg _ _ Hs ->. split; [done|]. observe. left. split; [right; right; by eexists _, _|eauto 6].
  - intros ext' msg Hne Herr ->. destruct (Hok Herr) as [-> (m1 & m2 & m3 & eid & cs & se & re & D1 & D2 & D3 & D4 & D5)].
    split; [done|]. observe. right. exists seen. rewrite lookup_insert_eq.
    split; [done|]. split; [done|]. split; [|done].
    by exists n, m1, m2, m3, cid, cids, eid, cs, se, re.
Qed.

(** ** Restores *)
Definition restore_line (r : RestoreReport) : string := rs_Status r.

(** The command exited with code 0 after it took the whole input. *)
Definition restored (job : RestoreMsg) (data : bytes) : Prop :=
  ∃ n0 n1 n2 n3 cid cids execID stderr rerr,
    bh_containers n0 (rm_ServiceId job) = inr (cid :: cids) ∧
    bh_execCreate n1 cid (psql_cmd (rm_PgUser job) (rm_PgDatabase job)) (pg_env (rm_PgPassword job)) = inr execID ∧
    bh_feed n2 execID data = (None, stderr, rerr) ∧ stream_error rerr = None ∧
    bh_execInspect n3 execID = inr 0.

Definition restore_run (job : RestoreMsg) (d d' : Disk) (ext : list BAct) : Prop :=
  d' = d ∧ backup_reports ext = [] ∧
  Forall (λ r, rs_RestoreId r = rm_RestoreId job) (restore_reports ext) ∧
  Forall (λ c, c = psql_cmd (rm_PgUser job) (rm_PgDatabase job)) (commands ext) ∧
  ((map restore_line (restore_reports ext) = [backupStatusFailed] ∧ fed ext = [] ∨
    map restore_line (restore_reports ext) = [restoreStatusRestoring; backupStatusFailed] ∧
      (fed ext = [] ∨ ∃ data, d !! rm_ArtifactUri job = Some data ∧ fed ext = [data])) ∨
   map restore_line (restore_reports ext) = [restoreStatusRestoring; backupStatusSucceeded] ∧
     ∃ data, d !! rm_ArtifactUri job = Some data ∧ fed ext = [data] ∧ restored job data).

Lemma bwp_executeRestore hasRuntime job d :
  bwp (executeRestore hasRuntime job) (λ _ d' ext, restore_run job d d' ext) d.
Proof.
  unfold executeRestore, findRunningByService, fail_restore, report_restore, os_Open, execPsqlRestore, inspect_exit.
  assert (∀ r ext, (map restore_line (restore_reports ext) = [backupStatusFailed] ∧ fed ext = [] ∨
    map restore_line (restore_reports ext) = [restoreStatusRestoring; backupStatusFailed] ∧
      (fed ext = [] ∨ ∃ data, d !! rm_ArtifactUri job = Some data ∧ fed ext = [data])) → r = d →
    backup_reports ext = [] → Forall (λ r, rs_RestoreId r = rm_RestoreId job) (restore_reports ext) →
    Forall (λ c, c = psql_cmd (rm_PgUser job) (rm_PgDatabase job)) (commands ext) → restore_run job d r ext) as Hfail.
  { intros r ext Hx -> H1 H2 H3. repeat (split; [done|]). by left. }
  bwp_step; [bwp_step; apply Hfail; try done; [by left|repeat constructor..]|]. do 3 bwp_step.
  destruct (bh_containers n (rm_ServiceId job)) as [e|[|cid cids]] eqn:Hc; (bwp_step; simpl);
    [bwp_step; apply Hfail; try done; [by left|repeat constructor..]..|].
  bwp_step. apply bwp_bact. intros n1. simpl.
  destruct (bh_openRead n1 (rm_ArtifactUri job)) as [e|]; [|destruct (d !! rm_ArtifactUri job) as [data|] eqn:Hd];
    simpl; [bwp_step; apply Hfail; try done; [by left|repeat constructor..]| |bwp_step; apply Hfail; try done; [by left|repeat constructor..]].
  do 5 bwp_step. destruct (bh_execCreate n2 _ _ _) as [e|eid] eqn:He.
  { do 2 bwp_step. apply Hfail; try done; [by auto|repeat constructor..]. }
  do 2 bwp_step. destruct (bh_execAttach n3 eid) as [e|].
  { do 2 bwp_step. apply Hfail; try done; [by auto|repeat constructor..]. }
  do 2 bwp_step. destruct (bh_feed n4 eid data) as [[werr stderr] rerr] eqn:Hf. destruct werr as [e|].
  { do 2 bwp_step. apply Hfail; try done; [right; eauto|repeat constructor..]. }
  destruct (stream_error rerr) as [e|] eqn:Hr.
  { do 2 bwp_step. apply Hfail; try done; [right; eauto|repeat constructor..]. }
  do 3 bwp_step. destruct (bh_execInspect n5 eid) as [e|code] eqn:Hi.
  { bwp_step. apply Hfail; try done; [right; eauto|repeat constructor..]. }
  destruct (exit_error "psql" stderr code) as [e|] eqn:Hx.
  { bwp_step. apply Hfail; try done; [right; eauto|repeat constructor..]. }
  apply exit_error_None in Hx as ->. bwp_step.
  split; [done|]. split; [done|]. split; [by repeat constructor|]. split; [by repeat constructor|].
  right. split; [done|]. exists data. split; [done|]. split; [done|].
  by exists n, n2, n4, n5, cid, cids, eid, stderr, rerr.
Qed.

(** ** Artifacts of different backups *)
Lemma sql_name_plain id : has_byte "/" id = false → plain_name (id +:+ ".sql") = true.
Proof.
  intros Hs. unfold plain_name, has_byte in *. rewrite bytes_of_app, existsb_app, Hs.
  assert (∀ t, String.length t ≤ 3 → String.eqb (id +:+ ".sql") t = false)%nat as Hne.
  { intros t Ht. apply String.eqb_neq. intros Heq. apply (f_equal String.length) in Heq.
    rewrite length_append in Heq. simpl in Heq. lia. }
  rewrite !Hne by (simpl; lia). done.
Qed.

Lemma artifact_path_inj dataDir sid sid' id id' :
  has_byte "/" id = false → has_byte "/" id' = false →
  artifact_path dataDir sid id = artifact_path dataDir sid' id' → id = id'.
Proof.
  intros Hi Hi' Heq. apply (f_equal (after_last "/")) in Heq. unfold artifact_path in Heq.
  rewrite !filepath_Join_base in Heq by by apply sql_name_plain.
  apply (f_equal bytes_of) in Heq. rewrite !bytes_of_app in Heq. by apply app_inv_tail, bytes_of_inj in Heq.
Qed.

(** A day of the agent: any jobs, one after the other. *)
Inductive AgentJob := JBackup (job : BackupMsg) | JRestore (job : RestoreMsg).
Definition run_job (hasRuntime : bool) (dataDir : string) (j : AgentJob) : BM unit :=
  match j with
  | JBackup job => executeBackup hasRuntime dataDir job
  | JRestore job => executeRestore hasRuntime job
  end.
Fixpoint run_jobs (hasRuntime : bool) (dataDir : string) (jobs : list AgentJob) : BM unit :=
  match jobs with
  | [] => mret tt
  | j :: js => _ ← run_job hasRuntime dataDir j; run_jobs hasRuntime dataDir js
  end.
(** The job does not write the artifact of backup [id]. *)
Definition spares (id : string) (j : AgentJob) : Prop :=
  match j with JBackup job => bm_BackupId job ≠ id ∧ has_byte "/" (bm_BackupId job) = false | JRestore _ => True end.

Lemma bwp_run_jobs hasRuntime dataDir jobs sid id d :
  has_byte "/" id = false → Forall (spares id) jobs →
  bwp (run_jobs hasRuntime dataDir jobs)
    (λ _ d' _, d' !! artifact_path dataDir sid id = d !! artifact_path dataDir sid id) d.
Proof.
  intros Hid. revert d. induction jobs as [|j js IH]; intros d Hjs; simpl; [by bwp_step|].
  apply Forall_cons in Hjs as [Hj Hjs]. bwp_step.
  assert (bwp (run_job hasRuntime dataDir j)
    (λ _ d' _, d' !! artifact_path dataDir sid id = d !! artifact_path dataDir sid id) d) as Hrun.
  { destruct j as [job|job]; simpl.
    - destruct Hj as [Hne Hs]. eapply bwp_mono; [|apply bwp_executeBackup]. intros _ d' ext (Hfr & _).
      apply Hfr. intros Heq. apply artifact_path_inj in Heq; congruence.
    - eapply bwp_mono; [|apply bwp_executeRestore]. by intros _ d' ext (-> & _). }
  eapply bwp_mono; [|exact Hrun]. intros u d' ext Heq; simpl in Heq. eapply bwp_mono; [|by apply IH].
  intros u' d2 ext'. simpl. intros Heq2; rewrite Heq2; done.
Qed.
End Runs.

Section Properties.
Context {H : BackupHost}.

(** A backup run tells the truth. Whatever Docker, the operating system and pg_dump
    answer, a run reports for its own backup only, changes at most its own artifact
    file, and runs no command but pg_dump. It ends in exactly one final report: either
    "succeeded", and then the file is not empty, it is byte for byte the whole standard
    output of a pg_dump that exited with code 0 inside the service's running container,
    and the report carries the file's path, its exact size and its SHA-256; or
    "failed", which carries no artifact, and then the file is as it was before or gone,
    unless removing it or looking at it failed. *)
Theorem executeBackup_truthful hasRuntime dataDir job d tr :
  let s := snd (executeBackup hasRuntime dataDir job (mk_BState d tr)) in
  ∃ ext, bs_trace s = tr ++ ext ∧ backup_run dataDir job d (bs_disk s) ext.
Proof.
  destruct (executeBackup hasRuntime dataDir job (mk_BState d tr)) as [u s] eqn:Hrun.
  exact (bwp_run _ _ _ _ _ _ (bwp_executeBackup hasRuntime dataDir job d) Hrun).
Qed.

(** A restore run. It changes no file, reports for its own restore only and runs no
    command but psql with ON_ERROR_STOP; psql is fed at most once, after the report
    "restoring", and only with the exact bytes of the artifact; it ends in one final
    report, which is "succeeded" only if psql in the service's running container took
    all of them and exited with code 0. *)
Theorem executeRestore_exact hasRuntime job d tr :
  let s := snd (executeRestore hasRuntime job (mk_BState d tr)) in
  ∃ ext, bs_trace s = tr ++ ext ∧ restore_run job d (bs_disk s) ext.
Proof.
  destruct (executeRestore hasRuntime job (mk_BState d tr)) as [u s] eqn:Hrun.
  exact (bwp_run _ _ _ _ _ _ (bwp_executeRestore hasRuntime job d) Hrun).
Qed.
End Properties.
