(* ===== verification/BackupProps.v ===== *)
(** * BackupProps: the theorems about the backups module *)
From S2P Require Import Prelude.
From S2P Require Import DeploySpec.
From S2P Require Import GoStrings.
From S2P Require Import Problem.
From S2P Require Import Schema.
From S2P Require Import Platform.
From S2P Require Import Authz.
From S2P Require Import DeployNames.
From S2P Require Import DeployStore.
From S2P Require Import Deployments.
From S2P Require Import DeployHandlers.
From S2P Require Import DeployInv.
From S2P Require Import DeploySystem.
From S2P Require Import DeployJobs.
From S2P Require Import Config.
From S2P Require Import BackupStore.
From S2P Require Import Backups.
From S2P Require Import BackupSpec.
From S2P Require Import BackupSystem.

(** ** The deployments handlers keep the other tables *)
Section Keeps.
Context {E : Env} {A : Authorizer}.
Implicit Types (w : World).

Lemma keeps_created row a ws ac d d' : created_audited row a ws ac d d' → deploy_keeps d d'.
Proof. intros (d1 & (_ & ->) & (au & -> & _)). by apply deploy_keeps_own. Qed.
Lemma keeps_teardown dep rk a ac t d d' : teardown_audited dep rk a ac t d d' → deploy_keeps d d'.
Proof. intros (d1 & _ & _ & -> & (au & -> & _)). by apply deploy_keeps_own. Qed.
Lemma keeps_claimed srv row rest now d d' : claimed_from srv row rest now d d' → deploy_keeps d d'.
Proof. intros (_ & ev & -> & _). by apply deploy_keeps_own. Qed.
Lemma keeps_failed id d d' : failed_or_same id d d' → deploy_keeps d d'.
Proof. intros [->|(msg & now & ev & -> & _)]; by apply deploy_keeps_own. Qed.

Lemma wp_deploy_keeps r w : wp (handle r) (λ _ w', deploy_keeps (w_db w) (w_db w')) w.
Proof.
  assert (∀ w', w_db w' = w_db w → deploy_keeps (w_db w) (w_db w')) as Hs by (intros w' ->; apply deploy_keeps_refl).
  destruct r as [c r|r|r]; simpl.
  - destruct (is_read r) eqn:Hr; [apply wp_read; auto|].
    destruct r as [i|i|t|t| | | | | | |]; try done; simpl; apply wp_discard.
    + apply wp_CreateForService; [auto|]. intros. by eapply keeps_created.
    + apply wp_CreatePreview; [auto|]. intros. by eapply keeps_created.
    + apply wp_RollbackToDeployment; [auto|]. intros. by eapply keeps_created.
    + apply wp_TeardownPreview; [auto|]. intros. by eapply keeps_teardown.
  - destruct r as [i|i|i|i|i|i]; simpl; try apply wp_discard.
    + apply wp_PollDeployment; [auto|auto|]. intros srv row rest now w1 _ Hc%keeps_claimed.
      apply wp_dispatch; [by intros e w2 ->| |by intros out w2 ->].
      intros w2 Hf%keeps_failed. by eapply deploy_keeps_trans.
    + apply wp_ReportDeployment; [auto|]. intros srv row w' _ _ _ _ (now & now' & now'' & evs & _ & _ & ->).
      apply deploy_keeps_own; try done. simpl. destruct (publishes i row); [by apply map_update_where|done].
    + apply wp_SyncRoutes; auto.
    + apply wp_ReportRouteSync; [auto|]. intros srv ds w' _ -> Hds. repeat (split; [done|]). simpl.
      eapply Forall2_impl; [exact Hds|]. intros m m' [->|(_ & ?)]; [done|by right].
    + apply wp_PollTeardownJob; [auto|auto|]. intros srv t rest now w' _ (_ & ->). by apply deploy_keeps_own.
    + apply wp_ReportTeardownJob; [auto|]. intros srv t w' _ _ _ _ (now & now' & ->). by apply deploy_keeps_own.
  - destruct r as [sid pr|sid pr|ttl]; simpl; try apply wp_discard.
    + apply wp_CreatePreviewForPR; [auto|]. intros. by eapply keeps_created.
    + apply wp_TeardownPreviewForPR; [auto|auto|]. intros. by eapply keeps_teardown.
    + apply wp_ExpirePreviews; [auto|by intros _; apply Hs|]. intros now n w' _ (ts & aus & -> & _). by apply deploy_keeps_own.
Qed.

Lemma wp_backup_keeps r w : wp (handle_backup r) (λ _ w', backup_keeps (w_db w) (w_db w')) w.
Proof.
  eapply wp_mono; [|apply wp_handle_backup]. intros res w' [[-> _]|[He _]]; [done|]. by eapply effect_keeps.
Qed.

Lemma invariant_reachable w0 w :
  wf (w_db w0) → bwf (w_db w0) → platform_reachable w0 w → wf (w_db w) ∧ bwf (w_db w).
Proof.
  intros W0 B0. induction 1 as [|w r _ [W B] Ht|w r _ [W B]|w w' _ [W B] Ho Hb Hr]; [done| | |].
  - split; [by apply (wf_handle r w)|]. eapply bwf_deploy_keeps; [|exact B]. apply (wp_deploy_keeps r w).
  - assert (backup_outcome r (handle_backup r w).1 (w_db w) (w_db (handle_backup r w).2)) as Ho
      by apply (wp_handle_backup r w).
    split; [eapply wf_backup_keeps; [apply (wp_backup_keeps r w)|done]|].
    destruct Ho as [[-> _]|[He _]]; [done|]. by eapply bwf_effect.
  - split; [by eapply wf_other_step|]. by eapply bwf_other_step.
Qed.
End Keeps.

(** ** The credentials *)

Definition credential (k : string) (c : DBCredentials) : string :=
  if String.eqb k "POSTGRES_USER" then c_User c
  else if String.eqb k "POSTGRES_PASSWORD" then c_Password c else c_Database c.
Definition credential_keys : list string := ["POSTGRES_USER"; "POSTGRES_PASSWORD"; "POSTGRES_DB"].

(** The last plain variable of a key wins. *)
Lemma credentials_lookup k rows c :
  k ∈ credential_keys → (∀ e, e ∈ rows → ce_Key e = k → ce_Type e = "variable" ∧ ce_Value e ≠ None) →
  credential k (foldl credential_row c rows) =
  match last (List.filter (λ e, String.eqb (ce_Key e) k) rows) with
  | Some e => default "" (ce_Value e)
  | None => credential k c
  end.
Proof.
  intros Hk. revert c. induction rows as [|e rows IH]; intros c Hr; [done|]. simpl foldl.
  rewrite last_filter_cons, IH by (intros; apply Hr; [by right|done]).
  destruct (last _); [done|]. destruct (String.eqb_spec (ce_Key e) k) as [Heq|Hne].
  - destruct (Hr e ltac:(left) Heq) as [Ht Hv]. unfold credential_row. rewrite Ht, Heq. simpl.
    destruct (ce_Value e) as [v|]; [|done]. unfold credential_keys in Hk.
    repeat (apply elem_of_cons in Hk as [->|Hk]; [done|]). by apply elem_of_nil in Hk.
  - unfold credential_row. destruct (negb _); [done|]. destruct (ce_Value e) as [v|]; [|done].
    unfold credential_keys in Hk.
    destruct (String.eqb_spec (ce_Key e) "POSTGRES_USER") as [H1|H1]; [|
      destruct (String.eqb_spec (ce_Key e) "POSTGRES_PASSWORD") as [H2|H2]; [|
        destruct (String.eqb_spec (ce_Key e) "POSTGRES_DB") as [H3|H3]; [|done]]].
    all: repeat (apply elem_of_cons in Hk as [->|Hk]; [congruence || done|]); by apply elem_of_nil in Hk.
Qed.

(** The rows come sorted: the environment's entries before the service's. *)
Lemma config_leb_total a b : config_leb a b = false → config_leb b a = true.
Proof.
  unfold config_leb. rewrite (String.eqb_sym (ce_Scope b)).
  destruct (String.eqb (ce_Scope a) (ce_Scope b)); apply string_leb_total.
Qed.
Lemma config_leb_trans a b c : config_leb a b = true → config_leb b c = true → config_leb a c = true.
Proof.
  unfold config_leb.
  destruct (String.eqb_spec (ce_Scope a) (ce_Scope b)) as [H1|H1], (String.eqb_spec (ce_Scope b) (ce_Scope c)) as [H2|H2].
  - rewrite H1, H2, String.eqb_refl. apply string_leb_trans.
  - rewrite H1. by destruct (String.eqb_spec (ce_Scope b) (ce_Scope c)).
  - rewrite <- H2. by destruct (String.eqb_spec (ce_Scope a) (ce_Scope b)).
  - intros Hab Hbc. destruct (String.eqb_spec (ce_Scope a) (ce_Scope c)) as [H3|H3]; [|by eapply string_leb_trans].
    exfalso. rewrite H3 in Hab. by pose proof (String.leb_antisym _ _ Hab Hbc).
Qed.

Lemma scopes_split rows :
  StronglySorted (λ a b, config_leb a b = true) rows → Forall config_row_ok rows →
  rows = List.filter (λ e, String.eqb (ce_Scope e) configScopeEnvironment) rows ++
         List.filter (λ e, String.eqb (ce_Scope e) configScopeService) rows.
Proof.
  induction 1 as [|e rows Hs IH Hall]; intros Hok; [done|]. apply Forall_cons in Hok as [[Hsc _] Hok].
  specialize (IH Hok). simpl. destruct Hsc as [[He _]|[He _]]; rewrite !He; simpl; [by f_equal|].
  assert (List.filter (λ e, String.eqb (ce_Scope e) configScopeEnvironment) rows = []) as Hnil.
  { apply filter_none. intros x Hx. pose proof (proj1 (Forall_forall _ _) Hall x Hx) as Hle. simpl in Hle.
    apply String.eqb_neq. intros Hxs. unfold config_leb in Hle. by rewrite He, Hxs in Hle. }
  rewrite Hnil in *. simpl in *. by f_equal.
Qed.

Section Credentials.
Context {E : Env}.

Lemma scope_entry_rows scope rows k :
  scope_entry scope true (map configFromRow rows) k =
  configFromRow <$> last (List.filter (λ e, String.eqb (ce_Key e) k)
                            (List.filter (λ e, String.eqb (ce_Scope e) scope) rows)).
Proof.
  unfold scope_entry. rewrite filter_map, filter_filter, <- fmap_last. do 2 f_equal.
  apply filter_ext. intros e. unfold included. simpl. by rewrite orb_true_r, andb_true_r.
Qed.

Lemma credentials_effective sid d k :
  Forall config_row_ok (config_entries d) → k ∈ credential_keys →
  (∀ e, e ∈ sql_ListConfigForService sid d → ce_Key e = k → ce_Type e ≠ configTypeSecret) →
  credential k (service_credentials sid d) =
  default "" (effective true (map configFromRow (sql_ListConfigForService sid d)) k).
Proof.
  intros Hok Hk Hns. unfold service_credentials, credentials_of.
  assert (Forall config_row_ok (sql_ListConfigForService sid d)) as Hrows.
  { apply Forall_forall. intros e He. unfold sql_ListConfigForService in He. rewrite isort_perm in He.
    apply elem_of_where in He as [He _]. by apply (proj1 (Forall_forall _ _) Hok). }
  assert (StronglySorted (λ a b, config_leb a b = true) (sql_ListConfigForService sid d)) as Hsorted.
  { apply isort_sorted; [exact config_leb_total|exact config_leb_trans]. }
  set (rows := sql_ListConfigForService sid d) in *.
  assert (∀ e, e ∈ rows → ce_Key e = k → ce_Type e = "variable" ∧ ce_Value e ≠ None) as Hvar.
  { intros e He Hek. destruct (proj1 (Forall_forall _ _) Hrows e He) as [_ [?|[Ht _]]]; [done|].
    by destruct (Hns e He Hek). }
  rewrite credentials_lookup by done. rewrite (scopes_split rows) at 1 by done.
  rewrite List.filter_app, last_app. unfold effective. rewrite !scope_entry_rows.
  assert (∀ q e, last (List.filter (λ e, String.eqb (ce_Key e) k) (List.filter q rows)) = Some e →
    value_of (configFromRow e) = Some (default "" (ce_Value e))) as Hval.
  { intros q e He. apply last_Some in He as [l He].
    assert (e ∈ List.filter (λ e, String.eqb (ce_Key e) k) (List.filter q rows)) as Hin by (rewrite He; set_solver).
    apply list_elem_of_In, filter_In in Hin as [Hin Hek]. apply filter_In in Hin as [Hin _].
    propify. destruct (Hvar e) as [Ht _]; [by apply list_elem_of_In|done|].
    apply (value_of_variable (configFromRow e)). unfold is_secret. simpl. by rewrite Ht. }
  destruct (last (List.filter _ (List.filter (λ e, String.eqb (ce_Scope e) configScopeService) rows))) as [e|] eqn:H1; simpl.
  - by rewrite (Hval _ _ H1).
  - destruct (last (List.filter _ (List.filter (λ e, String.eqb (ce_Scope e) configScopeEnvironment) rows))) as [e|] eqn:H2; simpl.
    + by rewrite (Hval _ _ H2).
    + unfold credential. by repeat case_match.
Qed.
End Credentials.

(** The two queues are queues of jobs. *)
Lemma backup_queue_head srv d row rest : backup_queue srv d = row :: rest →
  row ∈ backups d ∧ bk_ServerID row = srv ∧ bk_Status row = StatusQueued.
Proof. intros Hq. destruct (queue_head (J := backup_job) srv (backups d) row rest Hq) as (? & ? & ? & _). done. Qed.
Lemma restore_queue_head srv d row rest : restore_queue srv d = row :: rest →
  row ∈ restore_jobs d ∧ rj_ServerID row = srv ∧ rj_Status row = StatusQueued.
Proof. intros Hq. destruct (queue_head (J := restore_job) srv (restore_jobs d) row rest Hq) as (? & ? & ? & _). done. Qed.

(** ** What an agent may change *)
Definition backup_agent (r : BackupRequest) : option (string * string) :=
  match r with
  | BPoll i | BPollRestore i => Some (pi_AgentID i, pi_Credential i)
  | BReport i => Some (rb_AgentID i, rb_Credential i)
  | BReportRestore i => Some (rr_AgentID i, rr_Credential i)
  | _ => None
  end.

Definition bk_frame (srv : string) (b b' : db_Backup) : Prop :=
  b' = b ∨ (bk_ServerID b = srv ∧ bk_core b' = bk_core b).
Definition rj_frame (srv : string) (r r' : db_RestoreJob) : Prop :=
  r' = r ∨ (rj_ServerID r = srv ∧ rj_core r' = rj_core r).
#[export] Instance bk_frame_refl srv : Reflexive (bk_frame srv). Proof. by left. Qed.
#[export] Instance rj_frame_refl srv : Reflexive (rj_frame srv). Proof. by left. Qed.

Record backup_frame (srv : string) (d d' : DB) : Prop := {
  bf_backups : Forall2 (bk_frame srv) (backups d) (backups d');
  bf_restores : Forall2 (rj_frame srv) (restore_jobs d) (restore_jobs d');
  bf_rest : d' = set_backups (backups d') (set_restore_jobs (restore_jobs d') d);
}.

(** An update of one row, by its id, that keeps the core columns. *)
Lemma frame_backup srv row f d :
  NoDup (map bk_ID (backups d)) → row ∈ backups d → bk_ServerID row = srv → (∀ b, bk_core (f b) = bk_core b) →
  backup_frame srv d (set_backups (update_where (λ x, String.eqb (bk_ID x) (bk_ID row)) f (backups d)) d).
Proof.
  intros Hnd Hin Hs Hf. split; simpl; [|apply Forall2_refl, _|by destruct d].
  apply Forall2_update_where; [apply _|]. intros x Hx Hid. propify. right.
  by rewrite (job_unique (J := backup_job) (backups d) row x Hnd Hin Hx Hid).
Qed.
Lemma frame_restore srv row f d :
  NoDup (map rj_ID (restore_jobs d)) → row ∈ restore_jobs d → rj_ServerID row = srv → (∀ r, rj_core (f r) = rj_core r) →
  backup_frame srv d (set_restore_jobs (update_where (λ x, String.eqb (rj_ID x) (rj_ID row)) f (restore_jobs d)) d).
Proof.
  intros Hnd Hin Hs Hf. split; simpl; [apply Forall2_refl, _| |by destruct d].
  apply Forall2_update_where; [apply _|]. intros x Hx Hid. propify. right.
  by rewrite (job_unique (J := restore_job) (restore_jobs d) row x Hnd Hin Hx Hid).
Qed.

Section Properties.
Context {E : Env} {A : Authorizer}.
Implicit Types (w : World).

(** The backups of every reachable state. Whatever sequence of requests to the
    deployments and the backups module is served, under any faults, a backup's service
    and server exist and are of the backup's workspace (the server is one the service
    runs on, by the deployments' invariant), a restore is of an existing backup and on
    that backup's service, server and workspace, and no two backups or restores share
    an id. *)
Theorem backups_stay_in_workspace w0 w :
  wf (w_db w0) → bwf (w_db w0) → platform_reachable w0 w →
  (∀ b, b ∈ backups (w_db w) → located (w_db w) (bk_ServiceID b) (bk_ServerID b) (bk_WorkspaceID b)) ∧
  (∀ r, r ∈ restore_jobs (w_db w) → ∃ b, b ∈ backups (w_db w) ∧ bk_ID b = rj_BackupID r ∧
     bk_ServiceID b = rj_ServiceID r ∧ bk_ServerID b = rj_ServerID r ∧ bk_WorkspaceID b = rj_WorkspaceID r) ∧
  NoDup (map bk_ID (backups (w_db w))) ∧ NoDup (map rj_ID (restore_jobs (w_db w))).
Proof.
  intros W0 B0 Hr. destruct (invariant_reachable w0 w W0 B0 Hr) as [_ [B1 B2 B3 B4]].
  split; [|split; [|done]].
  - by apply Forall_forall.
  - intros r Hin. by apply (proj1 (Forall_forall _ _) B4).
Qed.

(** The module boundary. A request to the deployments module writes neither the
    backups nor the restores, nor any membership, server, agent or configuration row,
    and of a service at most its route; a request to the backups module writes nothing
    but backups, restores and the audit log. *)
Theorem modules_keep_tables :
  (∀ r w, deploy_keeps (w_db w) (w_db (snd (handle r w)))) ∧
  (∀ r w, backup_keeps (w_db w) (w_db (snd (handle_backup r w)))).
Proof. split; intros r w; [apply (wp_deploy_keeps r w)|apply (wp_backup_keeps r w)]. Qed.

(** C27: Atomicity and authorization of the backups module. A request that returns an
    error leaves the database as it was, unless it is a poll, whose claim can commit
    before its credentials are read; a dashboard request succeeds only if the policy
    allows creating (for a read: reading) backups in a workspace; and whenever the
    database changes at all, the change is the one effect of that request. *)
Theorem backup_request_safe r w res w' :
  handle_backup r w = (res, w') →
  (∀ e, res = inl e → is_poll r = false → w_db w' = w_db w) ∧
  (res = inr tt → backup_allowed r (w_db w)) ∧
  (w_db w' ≠ w_db w → backup_effect (w_db w) (w_db w') r ∧ backup_allowed r (w_db w)).
Proof.
  intros Hrun. use_wp Hrun. eapply wp_mono; [|apply wp_handle_backup]. intros r' w1 [[-> Hok]|(He & Hal & Hres)] ->.
  - split; [done|]. split; [|done]. intros ->. by apply Hok.
  - split; [|done]. intros e -> Hp. destruct Hres; congruence.
Qed.

(** Agent isolation. Whatever an agent sends to the backups module, either nothing
    changes or its credential authenticated it for one server, and then only backup and
    restore rows of that server changed, in their status columns only; every other
    table, and every row of another server, is as it was. *)
Theorem backup_agent_isolation r aid cred w res w' :
  bwf (w_db w) → backup_agent r = Some (aid, cred) → handle_backup r w = (res, w') →
  w_db w' = w_db w ∨ ∃ srv, authenticated aid cred srv (w_db w) ∧ backup_frame srv (w_db w) (w_db w').
Proof.
  intros [B1 _ B3 _] Ha Hrun. use_wp Hrun. eapply wp_mono; [|apply wp_handle_backup].
  intros r' w1 [[-> _]|(He & _)] _; [by left|right].
  destruct He as [| |i srv row rest now Hau [Hq Hd]|i srv row rest now Hau [Hq Hd]|i srv row Hau Hl Hs _ (now & Hd)
    |i srv row Hau Hl Hs _ (now & Hd)]; try done; simpl in Ha; injection Ha as <- <-; exists srv; split; try done; rewrite Hd.
  - apply backup_queue_head in Hq as (Hin & Hsrv & _). by apply frame_backup.
  - apply restore_queue_head in Hq as (Hin & Hsrv & _). by apply frame_restore.
  - apply lookup_by_Some in Hl as [Hin <-]. by apply frame_backup.
  - apply lookup_by_Some in Hl as [Hin <-]. by apply frame_restore.
Qed.

(** The two queues are first in, first out, exactly once. A poll that changes
    anything claimed the oldest queued backup (or restore) of the authenticated agent's
    server; afterwards that queue is the old one without its head, and every other queue
    is untouched, so no job is handed out twice. *)
Theorem backup_polls_fifo r w res w' :
  bwf (w_db w) → is_poll r = true → handle_backup r w = (res, w') →
  w_db w' = w_db w ∨
  ∃ aid cred srv, backup_agent r = Some (aid, cred) ∧ authenticated aid cred srv (w_db w) ∧
    (claims_oldest srv (backups (w_db w)) (backups (w_db w')) ∧ restore_jobs (w_db w') = restore_jobs (w_db w) ∨
     claims_oldest srv (restore_jobs (w_db w)) (restore_jobs (w_db w')) ∧ backups (w_db w') = backups (w_db w)).
Proof.
  intros [B1 _ B3 _] Hp Hrun. use_wp Hrun. eapply wp_mono; [|apply wp_handle_backup].
  intros r' w1 [[-> _]|(He & _)] _; [by left|right].
  destruct He as [| |i srv row rest now Hau [Hq ->]|i srv row rest now Hau [Hq ->]| |]; try done;
    exists (pi_AgentID i), (pi_Credential i), srv; (split; [done|]); (split; [done|]).
  - left. split; [|done]. by apply (claim_row_oldest (J := backup_job) srv row rest now).
  - right. split; [|done]. by apply (claim_row_oldest (J := restore_job) srv row rest now).
Qed.

(** Taking a backup. When [CreateBackup] succeeds, the service is a managed Postgres
    database the caller may back up, it runs, and exactly one backup of it was queued on
    the server of its newest running release, with the trimmed name of at most 80
    characters, triggered manually and still without artifact, together with its audit
    row; the result is that row. *)
Theorem CreateBackup_queues c sid label w b w' :
  CreateBackup c sid label w = (inr b, w') →
  ∃ s srv row,
    lookup_by sv_ID sid (services (w_db w)) = Some s ∧ managed_postgres s ∧
    allows c ActionBackupCreate (backup_resource (sv_WorkspaceID s) sid) (w_db w) ∧
    sql_GetLatestRunningServerForService sid (w_db w) = Some srv ∧
    RuneCountInString (TrimSpace label) ≤ maxLabelLen ∧
    backup_row s srv (TrimSpace label) row ∧ b = backupFromRow row ∧
    backup_created c row (w_db w) (w_db w').
Proof.
  intros Hrun. use_wp Hrun. apply wp_CreateBackup; [done|].
  intros s srv row w1 Hs Hm Hl Hal Hr Hrow Hc [= <-]. by exists s, srv, row.
Qed.

(** Restoring a backup. When [RestoreBackup] succeeds, the backup had succeeded, the
    caller may create backups in its workspace, the database runs on the server that
    holds the artifact, and exactly one restore was queued, of that backup, on that
    server, with that artifact, together with its audit row; the result is that row. *)
Theorem RestoreBackup_queues c id w r w' :
  RestoreBackup c id w = (inr r, w') →
  ∃ b row,
    lookup_by bk_ID id (backups (w_db w)) = Some b ∧ bk_Status b = StatusSucceeded ∧
    allows c ActionBackupCreate (backup_resource (bk_WorkspaceID b) (bk_ServiceID b)) (w_db w) ∧
    sql_GetLatestRunningServerForService (bk_ServiceID b) (w_db w) = Some (bk_ServerID b) ∧
    restore_row b row ∧ r = restoreFromRow row ∧ restore_created c row (w_db w) (w_db w').
Proof.
  intros Hrun. use_wp Hrun. apply wp_RestoreBackup; [done|].
  intros b row w1 Hl Hs Hal Hr Hrow Hc [= <-]. by exists b, row.
Qed.

(** The credentials of a job are the database's. When a poll hands out a backup, it
    is a queued backup of the agent's server, and the user, password and database it
    carries are the POSTGRES values of the environment the service's container is
    started with, provided none of the three is configured as a secret. *)
Theorem backup_job_credentials i w out w' env :
  PollBackupJob i w = (inr out, w') → cb_HasWork out = true →
  Forall config_row_ok (config_entries (w_db w)) →
  config_env true (map configFromRow (sql_ListConfigForService (cb_ServiceID out) (w_db w))) = inr env →
  (∀ e, e ∈ sql_ListConfigForService (cb_ServiceID out) (w_db w) → ce_Key e ∈ credential_keys →
     ce_Type e ≠ configTypeSecret) →
  (∃ srv row, authenticated (pi_AgentID i) (pi_Credential i) srv (w_db w) ∧ row ∈ backups (w_db w) ∧
     bk_ServerID row = srv ∧ bk_Status row = StatusQueued ∧
     cb_BackupID out = bk_ID row ∧ cb_ServiceID out = bk_ServiceID row) ∧
  [cb_PgUser out; cb_PgPassword out; cb_PgDatabase out] = map (λ k, default "" (env !! k)) credential_keys.
Proof.
  intros Hrun. revert out Hrun. intros out Hrun Hw Hok Henv Hns.
  enough (∃ srv row rest now, authenticated (pi_AgentID i) (pi_Credential i) srv (w_db w) ∧
    backup_claimed srv row rest now (w_db w) (w_db w') ∧
    out = backup_message row (service_credentials (bk_ServiceID row) (w_db w))) as (srv & row & rest & now & Ha & [Hq _] & ->).
  - split.
    + apply backup_queue_head in Hq as (Hin & Hs & Hst). by exists srv, row.
    + simpl in *. pose proof (config_env_spec true (map configFromRow (sql_ListConfigForService (bk_ServiceID row) (w_db w)))) as Hspec.
      rewrite Henv in Hspec. destruct Hspec as [Hspec _]. rewrite !Hspec.
      rewrite <- !credentials_effective; try done; try set_solver.
      all: intros e He Hk; apply Hns; [done|]; rewrite Hk; set_solver.
  - clear Henv Hns Hok. revert Hw. use_wp Hrun. apply wp_PollBackupJob; [done|by intros srv w1 _ _ _ [= <-]|].
    intros srv row rest now w1 Ha Hc. split; [done|]. intros [= <-] _. by exists srv, row, rest, now.
Qed.
End Properties.
