(* ===== verification/BackupGateway.v ===== *)
(** * BackupGateway: backups and restores across both halves

    The messages of [internal/backups/handler.go], a backup run of the agent delivered to
    the control plane, and the way of a dump from pg_dump to psql. *)
From S2P Require Import Prelude.
From S2P Require Import DeploySpec.
From S2P Require Import GoStrings.
From S2P Require Import Sha256.
From S2P Require Import Problem.
From S2P Require Import Schema.
From S2P Require Import Platform.
From S2P Require Import Authz.
From S2P Require Import DeployStore.
From S2P Require Import DeployInv.
From S2P Require Import DeployJobs.
From S2P Require Import Gateway.
From S2P Require Import BackupStore.
From S2P Require Import Backups.
From S2P Require Import BackupSpec.
From S2P Require Import BackupSystem.
From S2P Require Import BackupProps.
From S2P Require Import BackupAgent.
From S2P Require Import BackupAgentProps.

(** ** The messages (handler.go) *)
Definition backup_job_message (c : Claimed) : BackupMsg :=
  mk_BackupMsg (cb_HasWork c) (cb_BackupID c) (cb_ServiceID c) (cb_PgUser c) (cb_PgPassword c) (cb_PgDatabase c).
Definition restore_job_message (c : ClaimedRestore) : RestoreMsg :=
  mk_RestoreMsg (cr_HasWork c) (cr_RestoreID c) (cr_ServiceID c) (cr_PgUser c) (cr_PgPassword c) (cr_PgDatabase c)
    (cr_ArtifactURI c).
Definition backup_report_input (agentID credential : string) (r : BackupReport) : ReportInput :=
  {| rb_AgentID := agentID; rb_Credential := credential; rb_BackupID := br_BackupId r; rb_Status := br_Status r;
     rb_ArtifactURI := br_ArtifactUri r; rb_SizeBytes := br_SizeBytes r; rb_Checksum := br_Checksum r;
     rb_Message := br_Message r; rb_Error := br_Error r |}.
Definition restore_report_input (agentID credential : string) (r : RestoreReport) : ReportRestoreInput :=
  {| rr_AgentID := agentID; rr_Credential := credential; rr_RestoreID := rs_RestoreId r; rr_Status := rs_Status r;
     rr_Message := rs_Message r; rr_Error := rs_Error r |}.

Section Deliver.
Context {E : Env}.
Implicit Types (w : World).

(** The control plane receives the reports one by one. *)
Definition deliver_backup (agentID credential : string) (reports : list BackupReport) : M unit :=
  for_each reports (λ r, ReportBackupJob (backup_report_input agentID credential r)).

Lemma runs_ReportBackupJob i srv row w :
  no_fault → known_agent (rb_AgentID i) (rb_Credential i) srv (w_db w) → uuid_parse_ok (rb_BackupID i) = true →
  isAgentReportableStatus (rb_Status i) = true →
  lookup_by bk_ID (rb_BackupID i) (backups (w_db w)) = Some row → bk_ServerID row = srv →
  runs (ReportBackupJob i) (λ _ w', backup_reported i (w_db w) (w_db w')) w.
Proof.
  intros Hnf Hk Hid Hs Hl Hsrv. eapply runs_mono; [|apply (runs_wp _ (λ _ _, True) (λ _ w', backup_reported i (w_db w) (w_db w')))].
  - intros a w' [_ Hr]. exact Hr.
  - destruct Hk as (Hc & got & Hk & Hgot). unfold ReportBackupJob, need_credential.
    apply runs_bind, runs_require; [by apply negb_true_iff, String.eqb_neq|].
    apply runs_bind, runs_require; [exact Hid|]. apply runs_bind, runs_require; [exact Hs|].
    apply runs_bind. unfold resolveAgent, AgentServerByCredential. apply runs_bind.
    eapply (runs_found _ _ _ (got, srv)), (runs_query_opt Hnf). split; [exact Hk|].
    assert (negb (String.eqb (rb_AgentID i) "") && negb (String.eqb (rb_AgentID i) got) = false) as ->.
    { destruct Hgot as [->| ->]; [done|]. by rewrite String.eqb_refl, andb_false_r. }
    apply runs_ret, runs_bind. eapply (runs_found _ _ _ (backupFromRow row)). unfold store_GetBackup.
    apply (runs_query_opt Hnf). unfold sql_GetBackup. simpl. rewrite Hl. split; [done|].
    apply runs_bind, runs_require; [by apply String.eqb_eq|]. apply runs_wrap, (runs_within_tx Hnf), runs_bind.
    unfold UpdateStatus. apply runs_bind. eapply (runs_exec Hnf).
    { unfold sql_UpdateBackupStatus. cbn -[in_list lookup_by update_where]. rewrite Hl.
      assert (in_list backup_statuses (rb_Status i) = true) as ->; [|reflexivity].
      apply in_list_true. apply in_list_true in Hs. unfold backup_statuses. set_solver. }
    by apply runs_ret, runs_ret.
  - apply wp_ReportBackupJob; [done|]. by intros srv' row' w' _ _ _ _ Hr.
Qed.

(** After the reports of one backup the row is its last report, over its core columns. *)
Lemma runs_deliver_backup aid cred srv row reports rep w :
  no_fault → known_agent aid cred srv (w_db w) → uuid_parse_ok (bk_ID row) = true →
  lookup_by bk_ID (bk_ID row) (backups (w_db w)) = Some row → bk_ServerID row = srv →
  Forall (λ r, br_BackupId r = bk_ID row ∧ isAgentReportableStatus (br_Status r) = true) (reports ++ [rep]) →
  runs (deliver_backup aid cred (reports ++ [rep]))
    (λ _ w', ∃ prev now, let row' := bk_report (backup_report_input aid cred rep) now prev in
       lookup_by bk_ID (bk_ID row) (backups (w_db w')) = Some row' ∧ bk_core row' = bk_core row) w.
Proof.
  intros Hnf. revert row w. induction reports as [|r rs IH]; intros row w Hk Hid Hl Hs Hall;
    apply Forall_cons in Hall as [[Hr Hst] Hall]; unfold deliver_backup; simpl; apply runs_bind.
  - eapply runs_mono; [|apply (runs_ReportBackupJob (backup_report_input aid cred rep) srv row); simpl; rewrite ?Hr; done].
    intros _ w1 (now & Hw1). apply runs_ret. exists row, now. cbv zeta. split; [|done].
    rewrite Hw1. cbn -[lookup_by update_where]. rewrite lookup_by_update by done. rewrite Hr, Hl. simpl.
    by rewrite String.eqb_refl.
  - eapply runs_mono; [|apply (runs_ReportBackupJob (backup_report_input aid cred r) srv row); simpl; rewrite ?Hr; done].
    intros _ w1 (now & Hw1). set (row1 := bk_report (backup_report_input aid cred r) now row).
    eapply runs_mono; [|apply (IH row1 w1); [|done| |done|done]].
    + intros _ w2 (prev & now' & Hl2 & Hc2). exists prev, now'. cbv zeta in *. split; [exact Hl2|]. by rewrite Hc2.
    + destruct Hk as [? Hk]. split; [done|]. unfold sql_GetAgentServerByCredential in *. by rewrite Hw1.
    + rewrite Hw1. cbn -[lookup_by update_where]. rewrite lookup_by_update by done. rewrite Hr. rewrite Hl. simpl.
      by rewrite String.eqb_refl.
Qed.
End Deliver.

(** The reports of a run, as they reach the control plane. *)
Lemma report_statuses l k : map report_line l = k → map br_Status l = map (λ x, x.1.1.1) k.
Proof. intros <-. rewrite map_map. by apply map_ext. Qed.

Lemma run_reportable {H : BackupHost} dataDir job d d' ext :
  backup_run dataDir job d d' ext →
  Forall (λ r, br_BackupId r = bm_BackupId job ∧ isAgentReportableStatus (br_Status r) = true) (backup_reports ext) ∧
  ∃ rs rep, backup_reports ext = rs ++ [rep] ∧
    (br_Status rep = StatusFailed ∨
     br_Status rep = StatusSucceeded ∧
     let path := artifact_path dataDir (bm_ServiceId job) (bm_BackupId job) in
     ∃ data, d' !! path = Some data ∧ data ≠ [] ∧ dumped job data ∧
       br_ArtifactUri rep = path ∧ br_SizeBytes rep = size_of data ∧ br_Checksum rep = checksum_of data).
Proof.
  intros (_ & Hids & _ & _ & _ & Hend).
  assert (∀ k, map report_line (backup_reports ext) = k → forallb (λ x, isAgentReportableStatus x.1.1.1) k = true →
    Forall (λ r, br_BackupId r = bm_BackupId job ∧ isAgentReportableStatus (br_Status r) = true) (backup_reports ext)) as Hall.
  { intros k <- Hf. apply Forall_forall. intros r Hr. split; [by apply (proj1 (Forall_forall _ _) Hids)|].
    rewrite forallb_forall in Hf. apply (Hf (report_line r)), list_elem_of_In. by apply list_elem_of_fmap_2. }
  assert (∀ k x, map report_line (backup_reports ext) = k ++ [x] → ∃ rs rep, backup_reports ext = rs ++ [rep] ∧ report_line rep = x) as Hlast.
  { intros k x Hk. apply map_eq_app in Hk as (rs & l2 & -> & _ & H2).
    apply map_eq_cons in H2 as (rep & l3 & -> & H2 & ->%map_eq_nil). by exists rs, rep. }
  destruct Hend as [[[Hk|[Hk|(size & sum & Hk)]] _]|(data & Hd & Hne & Hdump & Hk)].
  - split; [by eapply Hall|]. destruct (Hlast [] _ Hk) as (rs & rep & -> & Hr). exists rs, rep. split; [done|left].
    by injection Hr.
  - split; [by eapply Hall|]. destruct (Hlast [_] _ Hk) as (rs & rep & -> & Hr). exists rs, rep. split; [done|left].
    by injection Hr.
  - split; [by eapply Hall|]. destruct (Hlast [_; _] _ Hk) as (rs & rep & -> & Hr). exists rs, rep. split; [done|left].
    by injection Hr.
  - split; [by eapply Hall|]. destruct (Hlast [_; _] _ Hk) as (rs & rep & -> & Hr). exists rs, rep. split; [done|right].
    injection Hr as H1 H2 H3 H4. split; [done|]. exists data. done.
Qed.

(** The text and the number a succeeded report carries are not the zero values. *)
Lemma artifact_path_nonempty dataDir sid id : has_byte "/" id = false → artifact_path dataDir sid id ≠ "".
Proof.
  intros Hid Heq. unfold artifact_path in Heq. apply (f_equal (after_last "/")) in Heq.
  rewrite filepath_Join_base in Heq by by apply sql_name_plain. apply (f_equal String.length) in Heq.
  rewrite length_append in Heq. simpl in Heq. lia.
Qed.
Lemma checksum_nonempty data : checksum_of data ≠ "".
Proof. intros Heq. apply (f_equal String.length) in Heq. unfold checksum_of in Heq. by rewrite length_hex_sum in Heq. Qed.
Lemma size_of_pos data : data ≠ [] → 0 < size_of data.
Proof. destruct data; [done|]. unfold size_of. simpl. lia. Qed.
Lemma keep_pos_positive new old : 0 < new → keep_pos new old = new.
Proof. intros Hn. unfold keep_pos. by destruct (Z.ltb_spec 0 new); [|lia]. Qed.
Lemma keep_nonempty new old : new ≠ "" → keep new old = new.
Proof. intros Hn. unfold keep. by destruct (String.eqb_spec new ""). Qed.

Section Contract.
Context {E : Env} {A : Authorizer} {H : BackupHost}.
Implicit Types (w : World).

(** A poll that hands out work claimed a queued backup of the agent's server. *)
Lemma poll_backup_claims i w out w1 :
  PollBackupJob i w = (inr out, w1) → cb_HasWork out = true →
  pi_Credential i ≠ "" ∧ ∃ srv row rest now, authenticated (pi_AgentID i) (pi_Credential i) srv (w_db w) ∧
    backup_claimed srv row rest now (w_db w) (w_db w1) ∧
    out = backup_message row (service_credentials (bk_ServiceID row) (w_db w)).
Proof.
  intros Hrun Hw. split.
  { intros Hc. unfold PollBackupJob, need_credential in Hrun. rewrite Hc in Hrun. discriminate. }
  revert Hw. use_wp Hrun. apply wp_PollBackupJob; [done|by intros srv w' _ _ _ [= <-]|].
  intros srv row rest now w' Ha Hc. split; [done|]. intros [= <-] _. by exists srv, row, rest, now.
Qed.

(** The claimed job, executed and reported. *)
Lemma backup_reported_back i w out w1 hasRuntime dataDir d tr :
  no_fault → bwf (w_db w) → NoDup (map ag_CredentialHash (agents (w_db w))) →
  PollBackupJob i w = (inr out, w1) → cb_HasWork out = true →
  uuid_parse_ok (cb_BackupID out) = true → has_byte "/" (cb_BackupID out) = false →
  let job := backup_job_message out in
  let s := snd (executeBackup hasRuntime dataDir job (mk_BState d tr)) in
  let path := artifact_path dataDir (cb_ServiceID out) (cb_BackupID out) in
  ∃ ext w2 row row', bs_trace s = tr ++ ext ∧
    deliver_backup (pi_AgentID i) (pi_Credential i) (backup_reports ext) w1 = (inr tt, w2) ∧
    lookup_by bk_ID (cb_BackupID out) (backups (w_db w)) = Some row ∧ bk_Status row = StatusQueued ∧
    lookup_by bk_ID (cb_BackupID out) (backups (w_db w2)) = Some row' ∧ bk_core row' = bk_core row ∧
    (bk_Status row' = StatusFailed ∨
     bk_Status row' = StatusSucceeded ∧ bk_ArtifactUri row' = path ∧
     ∃ data, bs_disk s !! path = Some data ∧ data ≠ [] ∧ dumped job data ∧
       bk_SizeBytes row' = size_of data ∧ bk_Checksum row' = checksum_of data).
Proof.
  intros Hnf [B1 _ _ _] Hag Hrun Hw Hid Hslash job s path.
  destruct (poll_backup_claims _ _ _ _ Hrun Hw) as (Hcred & srv & row & rest & now & Hauth & [Hq Hw1] & ->).
  destruct (backup_queue_head _ _ _ _ Hq) as (Hin & Hsrv & Hst). simpl in Hid, Hslash.
  destruct (executeBackup hasRuntime dataDir job (mk_BState d tr)) as [[] s'] eqn:Hexec. subst s. simpl.
  destruct (bwp_run _ _ _ _ _ _ (bwp_executeBackup hasRuntime dataDir job d) Hexec) as (ext & Hext & Hr).
  destruct (run_reportable _ _ _ _ _ Hr) as (Hall & rs & rep & Hrs & Hend).
  pose proof (lookup_by_unique bk_ID _ _ B1 Hin) as Hl.
  destruct (runs_deliver_backup (pi_AgentID i) (pi_Credential i) srv (bk_assign now row) rs rep w1)
    as ([] & w2 & Hd & prev & now' & Hl2 & Hc2); [done| |done| |done| |].
  - destruct (authenticated_known _ _ _ _ Hag Hcred Hauth) as [? Hk]. split; [done|].
    unfold sql_GetAgentServerByCredential in *. by rewrite Hw1.
  - rewrite Hw1. cbn -[lookup_by update_where]. unfold claim_row. rewrite lookup_by_update by done.
    cbn -[lookup_by]. rewrite Hl. simpl. by rewrite String.eqb_refl.
  - rewrite <- Hrs. exact Hall.
  - exists ext, w2, row, (bk_report (backup_report_input (pi_AgentID i) (pi_Credential i) rep) now' prev).
    split; [done|]. split; [by rewrite Hrs|]. split; [done|]. split; [done|]. split; [exact Hl2|]. split; [exact Hc2|].
    destruct Hend as [Hf|(Hok & data & Hdisk & Hne & Hdump & Hu & Hsz & Hck)]; [by left|right].
    pose proof (size_of_pos data Hne) as Hpos.
    split; [exact Hok|]. cbn. rewrite Hu, Hck. split; [by apply keep_nonempty, artifact_path_nonempty|].
    exists data. do 3 (split; [done|]). split; [|by apply keep_nonempty, checksum_nonempty].
    rewrite Hsz. by apply keep_pos_positive.
Qed.

(** The restore handed out for a restore row that is still the one created. *)
Lemma poll_restore_claims i w out w1 :
  PollRestoreJob i w = (inr out, w1) → cr_HasWork out = true →
  ∃ row, row ∈ restore_jobs (w_db w) ∧ rj_ID row = cr_RestoreID out ∧ cr_ArtifactURI out = rj_ArtifactUri row.
Proof.
  intros Hrun Hw. revert Hw. use_wp Hrun. apply wp_PollRestoreJob; [done|by intros srv w' _ _ _ [= <-]|].
  intros srv row rest now w' _ [Hq _]. split; [done|]. intros [= <-] _.
  destruct (restore_queue_head _ _ _ _ Hq) as (Hin & _). by exists row.
Qed.

(** C26: A backup that an agent takes comes to an end, and "succeeded" means the dump is
    on the disk. With no faults, when a poll hands out a backup and the agent executes
    it, whatever Docker and the operating system answer, the control plane takes every
    report, and afterwards the row, unchanged but for its progress, is either failed, or
    succeeded; and then the file its artifact column names holds exactly the dump, with
    the size and the SHA-256 of the row's columns. *)
Theorem backup_completes i w out w1 hasRuntime dataDir d tr :
  no_fault → bwf (w_db w) → NoDup (map ag_CredentialHash (agents (w_db w))) →
  PollBackupJob i w = (inr out, w1) → cb_HasWork out = true →
  uuid_parse_ok (cb_BackupID out) = true → has_byte "/" (cb_BackupID out) = false →
  let job := backup_job_message out in
  let s := snd (executeBackup hasRuntime dataDir job (mk_BState d tr)) in
  ∃ ext w2 row row', bs_trace s = tr ++ ext ∧
    deliver_backup (pi_AgentID i) (pi_Credential i) (backup_reports ext) w1 = (inr tt, w2) ∧
    lookup_by bk_ID (cb_BackupID out) (backups (w_db w)) = Some row ∧ bk_Status row = StatusQueued ∧
    lookup_by bk_ID (cb_BackupID out) (backups (w_db w2)) = Some row' ∧ bk_core row' = bk_core row ∧
    (bk_Status row' = StatusFailed ∨
     bk_Status row' = StatusSucceeded ∧
     ∃ data, bs_disk s !! bk_ArtifactUri row' = Some data ∧ data ≠ [] ∧ dumped job data ∧
       bk_SizeBytes row' = size_of data ∧ bk_Checksum row' = checksum_of data).
Proof.
  intros Hnf B Hag Hrun Hw Hid Hs.
  destruct (backup_reported_back i w out w1 hasRuntime dataDir d tr Hnf B Hag Hrun Hw Hid Hs)
    as (ext & w2 & row & row' & H1 & H2 & H3 & H4 & H5 & H6 & H7).
  exists ext, w2, row, row'. do 6 (split; [done|]). destruct H7 as [|(? & Hu & data & ? & ?)]; [by left|right].
  rewrite Hu. eauto.
Qed.

(** C25: The round trip. An agent polls a backup, runs it and reports it (no faults); the
    row says "succeeded"; later a user restores that backup, any jobs of other backups
    and any restores having run on the server meanwhile; an agent polls that restore and
    runs it. Then whatever psql is fed is byte for byte the dump pg_dump wrote, and if
    the restore reports "succeeded", psql was fed it, once, and exited with code 0. *)
Theorem backup_roundtrip i w out w1 hasRuntime dataDir d tr ext w2 row' c w3 r w4 i' w5 rout w6 jobs tr' :
  no_fault → bwf (w_db w) → NoDup (map ag_CredentialHash (agents (w_db w))) →
  PollBackupJob i w = (inr out, w1) → cb_HasWork out = true →
  uuid_parse_ok (cb_BackupID out) = true → has_byte "/" (cb_BackupID out) = false →
  let s := snd (executeBackup hasRuntime dataDir (backup_job_message out) (mk_BState d tr)) in
  bs_trace s = tr ++ ext →
  deliver_backup (pi_AgentID i) (pi_Credential i) (backup_reports ext) w1 = (inr tt, w2) →
  lookup_by bk_ID (cb_BackupID out) (backups (w_db w2)) = Some row' → bk_Status row' = StatusSucceeded →
  lookup_by bk_ID (cb_BackupID out) (backups (w_db w3)) = Some row' →
  RestoreBackup c (cb_BackupID out) w3 = (inr r, w4) →
  NoDup (map rj_ID (restore_jobs (w_db w5))) →
  (∃ j, lookup_by rj_ID (r_ID r) (restore_jobs (w_db w4)) = Some j ∧
        lookup_by rj_ID (r_ID r) (restore_jobs (w_db w5)) = Some j) →
  PollRestoreJob i' w5 = (inr rout, w6) → cr_HasWork rout = true → cr_RestoreID rout = r_ID r →
  Forall (spares (cb_BackupID out)) jobs →
  let s2 := snd (run_jobs hasRuntime dataDir jobs s) in
  let s3 := snd (executeRestore hasRuntime (restore_job_message rout) (mk_BState (bs_disk s2) tr')) in
  ∃ data ext3, dumped (backup_job_message out) data ∧ bs_trace s3 = tr' ++ ext3 ∧
    (∀ input, input ∈ fed ext3 → input = data) ∧
    (last (map restore_line (restore_reports ext3)) = Some backupStatusSucceeded →
     fed ext3 = [data] ∧ restored (restore_job_message rout) data).
Proof.
  intros Hnf B Hag Hrun Hw Hid Hslash s Hext Hdel Hl2 Hst Hl3 Hres Hnd5 (j & Hj4 & Hj5) Hpoll Hw6 Hrid Hjobs s2 s3.
  destruct (backup_reported_back i w out w1 hasRuntime dataDir d tr Hnf B Hag Hrun Hw Hid Hslash)
    as (ext0 & w20 & row & row0 & H1 & H2 & H3 & H4 & H5 & H6 & H7).
  fold s in H1, H7. rewrite Hext in H1. apply app_inv_head in H1 as <-. rewrite Hdel in H2. injection H2 as <-.
  rewrite Hl2 in H5. injection H5 as <-.
  destruct H7 as [Hf|(_ & Hu & data & Hdata & _ & Hdump & _)]; [by rewrite Hf in Hst|].
  assert (rj_ArtifactUri j = bk_ArtifactUri row') as Hart.
  { clear Hj5. revert Hj4. use_wp Hres. apply wp_RestoreBackup; [done|].
    intros b rrow w' Hb _ _ _ Hrow (Hc & au & Hd & _) [= <-]. rewrite Hl3 in Hb. injection Hb as <-.
    rewrite Hd. cbn -[lookup_by]. unfold restore_constraints in Hc. propify. intros Hlk.
    apply lookup_by_Some in Hlk as [[Hin|Hin]%elem_of_app Heq].
    - exfalso. match goal with Hk : has_key rj_ID _ _ = false |- _ => apply has_key_false in Hk; apply Hk end.
      simpl in Heq. rewrite <- Heq. by apply list_elem_of_fmap_2.
    - apply list_elem_of_singleton in Hin as ->. apply Hrow. }
  destruct (poll_restore_claims _ _ _ _ Hpoll Hw6) as (rrow & Hin & Hrid2 & Huri).
  assert (rrow = j) as ->.
  { pose proof (lookup_by_unique rj_ID _ _ Hnd5 Hin) as Hlu. rewrite Hrid2, Hrid, Hj5 in Hlu. by injection Hlu. }
  assert (bs_disk s2 !! cr_ArtifactURI rout = Some data) as Hd2.
  { rewrite Huri, Hart, Hu, <- Hdata. unfold s2. destruct s as [ds trs] eqn:Hs.
    destruct (run_jobs hasRuntime dataDir jobs (mk_BState ds trs)) as [u s2'] eqn:Hrj.
    destruct (bwp_run _ _ _ _ _ _ (bwp_run_jobs hasRuntime dataDir jobs (cb_ServiceID out) (cb_BackupID out) ds Hslash Hjobs) Hrj)
      as (e2 & _ & Heq). exact Heq. }
  destruct (executeRestore hasRuntime (restore_job_message rout) (mk_BState (bs_disk s2) tr')) as [u s3'] eqn:Hrs.
  destruct (bwp_run _ _ _ _ _ _ (bwp_executeRestore hasRuntime (restore_job_message rout) (bs_disk s2)) Hrs)
    as (ext3 & Hext3 & (_ & _ & _ & _ & Hend)).
  exists data, ext3. split; [done|]. split; [done|]. simpl in Hend. rewrite Hd2 in Hend.
  destruct Hend as [[[Hk Hf]|[Hk [Hf|(x & [= <-] & Hf)]]]|[Hk (x & [= <-] & Hf & Hre)]]; rewrite Hk, Hf; simpl.
  - split; [by intros ? ?%elem_of_nil|done].
  - split; [by intros ? ?%elem_of_nil|done].
  - split; [by intros ? ->%list_elem_of_singleton|done].
  - split; [by intros ? ->%list_elem_of_singleton|done].
Qed.
End Contract.
