(* ===== verification/ServicesProps.v ===== *)
(** * ServicesProps: the invariant of the services module and its theorems

    [swf] is the type of the table: the schema's checks, slugs that are words, one slug
    per environment, ports in range, and every row below the environment, project and
    workspace it names.  Every request of the services module keeps it together with
    the invariants of the deployments, backups and configuration tables, into which a
    create and a delete reach.

    What the requests of the services module guarantee.  The safety of every request, and the two that reach into the other modules: a
    managed database is created with the credentials its container, its backups and its
    connection URI agree on, and a delete leaves no row of the service in any table. *)
From S2P Require Import Prelude.
From S2P Require Import GoStrings.
From S2P Require Import Problem.
From S2P Require Import Schema.
From S2P Require Import Platform.
From S2P Require Import Authz.
From S2P Require Import DeployNames.
From S2P Require Import DeployStore.
From S2P Require Import Deployments.
From S2P Require Import DeploySpec.
From S2P Require Import DeployHandlers.
From S2P Require Import DeployInv.
From S2P Require Import DeploySystem.
From S2P Require Import DeployJobs.
From S2P Require Import Config.
From S2P Require Import ConfigProps.
From S2P Require Import Services.
From S2P Require Import ServicesPure.
From S2P Require Import ServicesSpec.
From S2P Require Import BackupStore.
From S2P Require Import BackupSpec.
From S2P Require Import BackupSystem.
From S2P Require Import BackupProps.

(** ** The invariant *)
Definition slug_key (s : db_Service) : string * string := (sv_EnvironmentID s, sv_Slug s).
Definition port_ok (s : db_Service) : Prop :=
  0 ≤ sv_ContainerPort s ≤ 65535 ∧ (sv_SourceKind s ≠ SourceGit → 1 ≤ sv_ContainerPort s).
(** The row names its environment's project and that project's workspace. *)
Definition in_tree (d : DB) (s : db_Service) : Prop :=
  sql_GetEnvironmentWorkspaceAndProject (sv_EnvironmentID s) d = Some (sv_WorkspaceID s, sv_ProjectID s).

Record service_row_ok (d : DB) (s : db_Service) : Prop := {
  sro_checks : service_checks s = true;
  sro_slug : slug_ok (sv_Slug s) ∧ len (sv_Slug s) ≤ 100;
  sro_port : port_ok s;
  sro_tree : in_tree d s;
  sro_connection : connection_exists s d = true;
}.
Record swf (d : DB) : Prop := {
  swf_rows : Forall (service_row_ok d) (services d);
  swf_unique : NoDup (map slug_key (services d));
}.

(** The invariants of the four modules. *)
Record inv (d : DB) : Prop := {
  inv_deployments : wf d;
  inv_backups : bwf d;
  inv_config : cwf d;
  inv_services : swf d;
}.

(** ** What the rows depend on *)
Lemma wf_frame d d' :
  services d' = services d → servers d' = servers d → deployments d' = deployments d →
  deployment_events d' = deployment_events d → teardown_jobs d' = teardown_jobs d → wf d → wf d'.
Proof.
  intros H1 H2 H3 H4 H5. apply wf_evolved. split; [rewrite H3; apply Forall2_refl, _|done|by rewrite H1|by rewrite H5|].
  exists []. by rewrite H4, app_nil_r.
Qed.
Lemma bwf_frame d d' :
  services d' = services d → servers d' = servers d → backups d' = backups d → restore_jobs d' = restore_jobs d →
  bwf d → bwf d'.
Proof.
  intros H1 H2 H3 H4 [B1 B2 B3 B4]. split; rewrite ?H3, ?H4; [done| |done|].
  - eapply Forall_impl; [exact B2|]. intros b. unfold backup_located, located. by rewrite H1, H2.
  - eapply Forall_impl; [exact B4|]. intros r. unfold restore_of. by rewrite H3.
Qed.
Lemma cwf_frame d d' : config_entries d' = config_entries d → cwf d → cwf d'.
Proof. intros H [C1 C2]. by split; rewrite H. Qed.

Lemma service_row_ok_frame d d' s :
  environments d' = environments d → projects d' = projects d → source_connections d' = source_connections d →
  service_row_ok d s → service_row_ok d' s.
Proof.
  intros He Hp Hc [R1 R2 R3 R4 R5]. split; [done|done|done| |].
  - unfold in_tree, sql_GetEnvironmentWorkspaceAndProject. by rewrite He, Hp.
  - unfold connection_exists. by rewrite Hc.
Qed.
Lemma swf_frame d d' :
  environments d' = environments d → projects d' = projects d → source_connections d' = source_connections d →
  services d' = services d → swf d → swf d'.
Proof.
  intros He Hp Hc Hs [S1 S2]. split; rewrite Hs; [|done]. eapply Forall_impl; [exact S1|]. intros s. by apply service_row_ok_frame.
Qed.

Lemma inv_audited a ty ti ws ac d d' : audited a ty ti ws ac d d' → inv d → inv d'.
Proof.
  intros Ha [I1 I2 I3 I4]. split; [by eapply wf_audited| | by eapply cwf_audited |].
  - destruct Ha as (row & -> & _). by eapply bwf_frame; [..|exact I2].
  - destruct Ha as (row & -> & _). by eapply swf_frame; [..|exact I4].
Qed.

Lemma config_only_keeps d d' : config_only d d' → cwf d' → inv d → inv d'.
Proof.
  intros H W [I1 I2 I3 I4]. split; [| |done|]; unfold config_only in H.
  - rewrite H. by eapply wf_frame; [..|exact I1].
  - rewrite H. by eapply bwf_frame; [..|exact I2].
  - rewrite H. by eapply swf_frame; [..|exact I4].
Qed.

(** ** A new service *)
Lemma inv_service_inserted row d d' :
  service_inserted row d d' → canonical_uuid (sv_ID row) → service_row_ok d row → inv d → inv d'.
Proof.
  intros (Hck & Hu & _ & ->) Huuid Hrow [I1 I2 I3 [S1 S2]]. unfold service_unique in Hu. propify.
  assert (other_step d (set_services (services d ++ [row]) d)) as Ho.
  { destruct I1 as [W1 W2 W3 W4 W5 W6 W7 W8]. split; simpl; try done.
    - by apply NoDup_snoc_key.
    - apply Forall_app. by split; [|constructor].
    - intros s Hs. exists s. split; [apply elem_of_app; by left|done].
    - intros s Hs. by exists s. }
  split; [by eapply wf_other_step|by eapply bwf_other_step|by eapply cwf_frame; [|exact I3]|]. split; simpl.
  - assert (∀ s, service_row_ok d s → service_row_ok (set_services (services d ++ [row]) d) s) as Hf
      by (intros s; by apply service_row_ok_frame).
    apply Forall_app. split; [by eapply Forall_impl|]. constructor; [by apply Hf|done].
  - apply NoDup_map_snoc; [done|]. intros y Hy [= He Hs].
    apply not_true_iff_false in H0. apply H0, existsb_exists. exists y. rewrite <- list_elem_of_In, He, Hs, !String.eqb_refl. done.
Qed.

(** The first deployment lands on a server of the service's workspace. *)
Lemma inv_first_deployed deploy row srv depID d d' :
  lookup_by sv_ID (sv_ID row) (services d) = Some row →
  (deploy = true → ∃ s, lookup_by srv_ID srv (servers d) = Some s ∧ srv_WorkspaceID s = sv_WorkspaceID row) →
  first_deployed deploy (sv_ID row) srv depID d d' → inv d → inv d'.
Proof.
  intros Hrow Hsrv Hd I. destruct deploy; [|by destruct Hd as [-> _]].
  destruct Hd as (svc & r & Hsvc & Hprod & Hins & _), (Hsrv eq_refl) as (s & Hs & Hws).
  destruct Hsvc as (row' & Hrow' & ->). rewrite Hrow in Hrow'. injection Hrow' as <-.
  destruct Hprod as ((H1 & H2 & _ & _ & H3 & _) & Hcols & _).
  apply lookup_by_Some in Hrow as [Hin _], Hs as [Hsin Hsid].
  destruct I as [I1 I2 I3 I4]. split.
  - eapply wf_inserted; [exact Hins| |by left| |done].
    + split; [exists row; by rewrite H1, H3|]. exists s. rewrite H2, H3. by split.
    + destruct Hcols as (_ & _ & Hpr & _). rewrite Hpr. lia.
  - destruct Hins as [_ ->]. by eapply bwf_frame; [..|exact I2].
  - destruct Hins as [_ ->]. by eapply cwf_frame; [|exact I3].
  - destruct Hins as [_ ->]. by eapply swf_frame; [..|exact I4].
Qed.

(** ** An update *)
Lemma slug_keys_update id f l : (∀ s, slug_key (f s) = slug_key s) →
  map slug_key (update_where (λ x, String.eqb (sv_ID x) id) f l) = map slug_key l.
Proof. intros H. by apply map_update_where. Qed.
Lemma inv_service_updated id f row d d' :
  service_updated id f row d d' → (∀ s, sv_core (f s) = sv_core s ∧ slug_key (f s) = slug_key s) →
  service_row_ok d (f row) → inv d → inv d'.
Proof.
  intros (Hrow & _ & _ & ->) Hf Hok [I1 I2 I3 [S1 S2]].
  assert (map sv_core (update_where (λ x, String.eqb (sv_ID x) id) f (services d)) = map sv_core (services d)) as Hcore
    by (apply map_update_where; intros s _; apply Hf).
  split.
  - eapply wf_evolved; [|exact I1]. evolve.
  - destruct I2 as [B1 B2 B3 B4]. split; try done. eapply Forall_impl; [exact B2|]. intros b. by apply located_mono.
  - by eapply cwf_frame; [|exact I3].
  - split; simpl; [|rewrite slug_keys_update by apply Hf; done]. apply Forall_forall. intros x Hx.
    apply elem_of_update_where in Hx as (y & Hy & ->). pose proof (proj1 (Forall_forall _ _) S1 y Hy) as Hyok.
    destruct (String.eqb_spec (sv_ID y) id) as [He|]; [|by eapply service_row_ok_frame; [..|exact Hyok]].
    pose proof (lookup_by_unique sv_ID _ _ (wf_service_ids _ I1) Hy) as Hl. rewrite He, Hrow in Hl. injection Hl as <-.
    by eapply service_row_ok_frame; [..|exact Hok].
Qed.

(** ** A delete *)
Lemma elem_of_cleared gone (l : list db_Deployment) r :
  r ∈ map (clear_rollback gone) l ↔ ∃ x, x ∈ l ∧ r = clear_rollback gone x.
Proof.
  rewrite list_elem_of_fmap. split; intros (x & H1 & H2); by exists x.
Qed.

Lemma preview_cols_cleared gone r : preview_cols r → preview_cols (clear_rollback gone r).
Proof. intros (H1 & H2 & H3 & H4). unfold preview_cols. simpl. by rewrite H3. Qed.
Lemma wf_deployment_cleared d d' gone r :
  (∃ s, s ∈ services d' ∧ sv_ID s = dp_ServiceID r ∧ sv_WorkspaceID s = dp_WorkspaceID r) →
  servers d' = servers d → wf_deployment d r → wf_deployment d' (clear_rollback gone r).
Proof. intros Hs Hsrv [D1 [_ D2] D3 D4]. split; [exact D1| |destruct D3 as [D3|D3]; [by left|right; by apply preview_cols_cleared]|exact D4]. split; [exact Hs|]. by rewrite Hsrv. Qed.

(** A deployment of the service is gone, one of another is kept. *)
Lemma gone_dep_spec id d i :
  has_key dp_ID i (where_ (λ r, String.eqb (dp_ServiceID r) id) (deployments d)) = true ↔
  ∃ r, r ∈ deployments d ∧ dp_ID r = i ∧ dp_ServiceID r = id.
Proof.
  rewrite has_key_true. split.
  - intros (x & Hx & Hi). apply elem_of_where in Hx as [Hx Hb]. propify. by exists x.
  - intros (r & Hr & Hi & Hs). exists r. by rewrite elem_of_where, Hs, String.eqb_refl.
Qed.

Lemma wf_delete_service id d : wf d → wf (delete_service_rows id d).
Proof.
  intros [W1 W2 W3 W4 W5 W6 W7 W8]. unfold delete_service_rows.
  set (gone := λ i, has_key dp_ID i _). split; simpl.
  - by apply NoDup_map_where.
  - apply Forall_forall. intros s Hs. apply elem_of_where in Hs as [Hs _]. by apply (proj1 (Forall_forall _ _) W2).
  - done.
  - rewrite map_map. simpl. by apply NoDup_map_where.
  - apply Forall_forall. intros r' Hr. apply elem_of_cleared in Hr as (r & Hr & ->). apply elem_of_where in Hr as [Hr Hne].
    pose proof (proj1 (Forall_forall _ _) W5 r Hr) as Hok. apply (wf_deployment_cleared d); [|done|exact Hok].
    destruct Hok as [_ [(s & Hs & Hid & Hws) _] _ _]. exists s. simpl. rewrite elem_of_where, Hid. done.
  - by apply NoDup_map_where.
  - apply Forall_forall. intros t Ht. apply elem_of_where in Ht as [Ht Hne]. rewrite negb_orb in Hne. apply andb_true_iff in Hne as [Hne _].
    destruct (proj1 (Forall_forall _ _) W7 t Ht) as (r & Hr & H1 & H2 & H3 & H4 & H5 & H6).
    exists (clear_rollback gone r). split; [|split; [done|]].
    + apply elem_of_cleared. exists r. rewrite elem_of_where, <- H5. done.
    + split; [by apply preview_cols_cleared|done].
  - apply Forall_forall. intros e He. apply elem_of_where in He as [He Hne]. apply negb_true_iff in Hne.
    destruct (proj1 (Forall_forall _ _) W8 e He) as (r & Hr & Hid). exists (clear_rollback gone r). split; [|done].
    apply elem_of_cleared. exists r. rewrite elem_of_where. split; [|done]. split; [done|].
    apply negb_true_iff, String.eqb_neq. intros Hs. apply not_true_iff_false in Hne. apply Hne, gone_dep_spec. by exists r.
Qed.

Lemma bwf_delete_service id d : bwf d → bwf (delete_service_rows id d).
Proof.
  intros [B1 B2 B3 B4]. unfold delete_service_rows. split; simpl.
  - by apply NoDup_map_where.
  - apply Forall_forall. intros b Hb. apply elem_of_where in Hb as [Hb Hne].
    destruct (proj1 (Forall_forall _ _) B2 b Hb) as [(s & Hs & Hid & Hws) Hsrv]. split; [|done].
    exists s. simpl. rewrite elem_of_where, Hid. done.
  - by apply NoDup_map_where.
  - apply Forall_forall. intros r Hr. apply elem_of_where in Hr as [Hr Hne]. rewrite negb_orb in Hne. apply andb_true_iff in Hne as [Hne _].
    destruct (proj1 (Forall_forall _ _) B4 r Hr) as (b & Hb & H1 & H2 & H3). exists b. simpl.
    rewrite elem_of_where, H2. done.
Qed.

Lemma inv_delete_service id d : inv d → inv (delete_service_rows id d).
Proof.
  intros [I1 I2 [C1 C2] [S1 S2]]. split; [by apply wf_delete_service|by apply bwf_delete_service| |].
  - split; simpl; [|by apply NoDup_map_where]. apply Forall_forall. intros r Hr. apply elem_of_where in Hr as [Hr _].
    by apply (proj1 (Forall_forall _ _) C1).
  - split; simpl; [|by apply NoDup_map_where]. apply Forall_forall. intros s Hs. apply elem_of_where in Hs as [Hs _].
    eapply service_row_ok_frame; [..|by apply (proj1 (Forall_forall _ _) S1)]; done.
Qed.

(** ** The rows the handlers write *)
Lemma validatePort_inr kind p port : validatePort kind p = inr port →
  port = p ∧ 0 ≤ p ≤ 65535 ∧ (kind ≠ SourceGit → 1 ≤ p).
Proof.
  unfold validatePort, maxPort. destruct ((p <? 0) || (65535 <? p)) eqn:H1; [done|].
  destruct (negb (String.eqb kind SourceGit) && (p <? 1)) eqn:H2; [done|]. intros [= <-]. propify. split; [done|].
  split; [lia|]. intros Hk. apply andb_false_iff in H2 as [H2|H2]; propify; [congruence|lia].
Qed.

Section Rows.
Context {E : Env}.
Hypothesis uuids : ∀ n, canonical_uuid (uuid_at n).

Lemma new_service_ok env pj ws raw name slug rs p port vis row d d' :
  validateName raw = inr (name, slug) → validatePort (rs_kind rs) p = inr port →
  sql_GetEnvironmentWorkspaceAndProject env d = Some (ws, pj) →
  new_service env pj ws name slug rs port vis row → service_inserted row d d' →
  service_row_ok d row ∧ canonical_uuid (sv_ID row).
Proof.
  intros Hn Hp Hws Hrow (Hck & _ & Hrefs & _). apply validateName_inr in Hn as (_ & Hl & Hs & Hle).
  apply validatePort_inr in Hp as (-> & Hp).
  destruct Hrow as (R1 & R2 & R3 & R4 & R5 & R6 & _ & _ & _ & _ & _ & _ & _ & _ & _ & _ & _ & R7 & _ & _ & _ & (n & Hid)).
  unfold service_refs in Hrefs. propify. split; [|by rewrite Hid].
  split; [done| | | |done].
  - rewrite R5. split; [done|lia].
  - unfold port_ok. by rewrite R6, R7.
  - unfold in_tree. by rewrite R1, R2, R3.
Qed.

Lemma source_write_ok i rs port now row d :
  service_row_ok d row → validatePort (rs_kind rs) (iu_ContainerPort i) = inr port →
  service_checks (sv_set_source (source_write i rs port) now row) = true →
  connection_exists (sv_set_source (source_write i rs port) now row) d = true →
  service_row_ok d (sv_set_source (source_write i rs port) now row).
Proof.
  intros [R1 R2 R3 R4 R5] Hp Hck Hc. apply validatePort_inr in Hp as (-> & Hp). by split.
Qed.

Lemma visibility_ok vis now row d :
  service_row_ok d row → service_checks (sv_set_visibility vis now row) = true →
  service_row_ok d (sv_set_visibility vis now row).
Proof. intros [R1 R2 R3 R4 R5] Hck. by split. Qed.
End Rows.

(** ** Requests *)
Inductive ServiceRequest :=
  | SCreate (i : CreateInput) | SCreateDatabase (i : DatabaseInput) | SUpdateSource (i : UpdateSourceInput)
  | SUpdateVisibility (id visibility : string) | SDelete (id : string)
  | SGet (id : string) | SListByEnvironment (id : string) | SListByProject (id : string) | SListByWorkspace (id : string).

Section Requests.
Context {E : Env} {A : Authorizer} {G : GitHubClient} {P : SourcesPort} {N : Entropy}.

(** A request and the services it answers with: those a read returns, none for a change. *)
Definition answers_none {X} (m : M X) : M (list Service) := _ ← m; mret [].
Definition handle_service (c : Principal) (r : ServiceRequest) : M (list Service) :=
  match r with
  | SCreate i => answers_none (CreateService c i)
  | SCreateDatabase i => answers_none (CreateDatabase c i)
  | SUpdateSource i => answers_none (UpdateSource c i)
  | SUpdateVisibility id vis => answers_none (UpdateVisibility c id vis)
  | SDelete id => answers_none (DeleteService c id)
  | SGet id => svc ← GetService c id; mret [svc]
  | SListByEnvironment id => ListByEnvironment c id
  | SListByProject id => ListByProject c id
  | SListByWorkspace id => ListByWorkspace c id
  end.

Lemma wp_answers_none {X} (m : M X) (Q : go_error + list Service → World → Prop) w :
  wp m (λ r w', match r with inl e => Q (inl e) w' | inr _ => Q (inr []) w' end) w → wp (answers_none m) Q w.
Proof. intros H. unfold answers_none. apply wp_bind. eapply wp_mono; [|exact H]. by intros [e|a] w' ?. Qed.

(** What a read names: the workspace it is in, the resource to authorize there, and the
    rows it asks for. *)
Definition read_scope (r : ServiceRequest) (d : DB) (ws id : string) (rows : list db_Service) : Prop :=
  match r with
  | SGet i => ∃ row, lookup_by sv_ID i (services d) = Some row ∧ ws = sv_WorkspaceID row ∧ id = sv_ID row ∧ rows = [row]
  | SListByEnvironment e => (∃ pj, sql_GetEnvironmentWorkspaceAndProject e d = Some (ws, pj)) ∧ id = "" ∧
      rows = sql_ListServicesByEnvironment e d
  | SListByProject p => sql_GetProjectWorkspaceID p d = Some ws ∧ id = "" ∧ rows = sql_ListServicesByProject p d
  | SListByWorkspace i => ws = i ∧ id = "" ∧ rows = sql_ListServicesByWorkspace i d
  | _ => False
  end.

(** A read: allowed in the workspace of what it names, and answered with those rows. *)
Definition services_read (c : Principal) (r : ServiceRequest) (d : DB) (res : list Service) : Prop :=
  ∃ ws id rows, read_scope r d ws id rows ∧ allows c ActionServiceRead (service_resource ws id) d ∧
    res = map serviceFromRow rows.

(** What a successful request did, and that it was allowed. *)
Definition service_effect (c : Principal) (r : ServiceRequest) (res : list Service) (d d' : DB) : Prop :=
  match r with
  | SCreate i => ∃ row login dep, service_created c i row login dep d d'
  | SCreateDatabase i => ∃ row password dep, database_created c i row password dep d d'
  | SUpdateSource i => ∃ row rs port now, source_resolved (sv_WorkspaceID row) (iu_source i) d rs ∧
      validatePort (rs_kind rs) (iu_ContainerPort i) = inr port ∧
      changed_audited c (iu_ID i) (sv_set_source (source_write i rs port) now) row d d'
  | SUpdateVisibility id visibility => ∃ row vis now, validateVisibility visibility = inr vis ∧
      changed_audited c id (sv_set_visibility vis now) row d d'
  | SDelete id => ∃ row, service_deleted c id row d d'
  | _ => d' = d ∧ services_read c r d res
  end.

Lemma wp_handle_service c r w : cwf (w_db w) →
  wp (handle_service c r) (λ res w',
    match res with inl _ => w_db w' = w_db w | inr l => service_effect c r l (w_db w) (w_db w') end) w.
Proof.
  intros W. destruct r as [i|i|i|id vis|id|id|id|id|id]; simpl; try apply wp_answers_none.
  - apply wp_CreateService; [done|]. intros row login dep w' H. by exists row, login, dep.
  - apply wp_CreateDatabase; [done|done|]. intros row pw dep w' H. by exists row, pw, dep.
  - apply wp_UpdateSource; [done|]. intros row rs port now w' H1 H2 H3. by exists row, rs, port, now.
  - apply wp_UpdateVisibility; [done|]. intros row v now w' H1 H2. by exists row, v, now.
  - apply wp_DeleteService; [done|]. intros row w' H. by exists row.
  - wp_step. apply wp_GetService; [done|]. intros row w' Hw Hl H. wp_step. split; [exact Hw|].
    exists (sv_WorkspaceID row), (sv_ID row), [row]. split; [by exists row|done].
  - apply wp_ListByEnvironment; [done|]. intros ws pj w' -> Hws H. split; [done|].
    eexists ws, "", _. split; [split; [by exists pj|done]|done].
  - apply wp_ListByProject; [done|]. intros ws w' -> Hws H. split; [done|]. by eexists ws, "", _.
  - apply wp_ListByWorkspace; [done|]. intros w' -> H. split; [done|]. by eexists id, "", _.
Qed.

(** What a read names is determined by the database. *)
Lemma read_scope_unique r d ws id rows ws' id' rows' :
  read_scope r d ws id rows → read_scope r d ws' id' rows' → ws = ws' ∧ id = id' ∧ rows = rows'.
Proof.
  destruct r; simpl; try done; intros H1 H2.
  - destruct H1 as (s & Hs & -> & -> & ->), H2 as (s' & Hs' & -> & -> & ->). by simplify_eq.
  - destruct H1 as ([p1 H1] & -> & ->), H2 as ([p2 H2] & -> & ->). by simplify_eq.
  - destruct H1 as (H1 & -> & ->), H2 as (H2 & -> & ->). by simplify_eq.
  - destruct H1 as (-> & -> & ->), H2 as (-> & -> & ->). done.
Qed.

(** Under the invariant a read's rows are all of the workspace it names. *)
Lemma read_scope_home r d ws id rows : swf d → read_scope r d ws id rows → Forall (λ s, sv_WorkspaceID s = ws) rows.
Proof.
  intros W Hs. apply Forall_forall. intros s Hin.
  assert (∀ p, s ∈ list_services p d → p s = true ∧ in_tree d s) as Hlist.
  { intros p [Hs' Hp]%elem_of_order_by%elem_of_where. split; [done|].
    by apply (proj1 (Forall_forall _ _) (swf_rows _ W)). }
  destruct r as [i|i|i|i vis|i|i|i|i|i]; simpl in Hs; try done.
  - destruct Hs as (row & _ & -> & _ & ->). by apply list_elem_of_singleton in Hin as ->.
  - destruct Hs as ([pj Hws] & _ & ->). apply Hlist in Hin as [He Ht]. propify. unfold in_tree in Ht. congruence.
  - destruct Hs as (Hws & _ & ->). apply Hlist in Hin as [He Ht]. propify. subst i.
    unfold in_tree, sql_GetEnvironmentWorkspaceAndProject, sql_GetProjectWorkspaceID in *.
    destruct (lookup_by en_ID _ _) as [e|]; [|done]. destruct (lookup_by pj_ID (en_ProjectID e) _) as [p|] eqn:Hp; [|done].
    injection Ht as Hw Hpj. apply lookup_by_Some in Hp as Hp'. destruct Hp' as [_ Hpid].
    rewrite <- Hpj, Hpid, Hp in Hws. simpl in Hws. congruence.
  - destruct Hs as (-> & _ & ->). apply Hlist in Hin as [He _]. by propify.
Qed.

Hypothesis uuids : ∀ n, canonical_uuid (uuid_at n).

Lemma inserted_lookup row d d' : wf d → service_inserted row d d' → lookup_by sv_ID (sv_ID row) (services d') = Some row.
Proof.
  intros W (_ & Hu & _ & ->). unfold service_unique in Hu. propify. simpl.
  apply (lookup_by_unique sv_ID); [|apply elem_of_app; right; by left].
  apply NoDup_snoc_key; [apply W|done].
Qed.

Lemma service_effect_inv c r res d d' : service_effect c r res d d' → inv d → inv d'.
Proof.
  intros He I. destruct r as [i|i|i|id vis|id|id|id|id|id]; simpl in He; try (by destruct He as [-> _]).
  - destruct He as (row & login & dep & [(rs & _ & _ & name & slug & port & v & pj & d1 & d2 & Hn & Hv & Hp & Hws & Hrow & Hins & Haud & Hsrv & Hdep) _]).
    destruct (new_service_ok uuids _ _ _ _ _ _ _ _ _ _ _ _ _ Hn Hp Hws Hrow Hins) as [Hok Huuid].
    assert (inv d1) as I1 by by eapply inv_service_inserted.
    assert (inv d2) as I2 by by eapply inv_audited.
    pose proof (inserted_lookup _ _ _ (inv_deployments _ I) Hins) as Hlk. destruct Haud as (au & -> & _).
    refine (inv_first_deployed _ _ _ _ _ _ _ _ Hdep I2); [exact Hlk|]. destruct Hins as (_ & _ & _ & ->). exact Hsrv.
  - destruct He as (row & password & dep & [_ _ Hsrv (name & slug & pj & d1 & d2 & d3 & Hn & Hws & Hrow & Hins & Hvars & Haud & Hdep)]).
    destruct (new_service_ok uuids _ _ _ _ name slug database_source 5432 5432 _ _ _ _ Hn eq_refl Hws Hrow Hins) as [Hok Huuid].
    assert (inv d1) as I1 by by eapply inv_service_inserted.
    assert (inv d2) as I2 by (by eapply config_only_keeps; [apply Hvars|apply Hvars|]).
    assert (inv d3) as I3 by by eapply inv_audited.
    pose proof (inserted_lookup _ _ _ (inv_deployments _ I) Hins) as Hlk.
    pose proof (vs_only _ _ _ _ _ Hvars) as Hd2. destruct Haud as (au & -> & _). rewrite Hd2 in Hdep, I3.
    refine (inv_first_deployed _ _ _ _ _ _ _ _ Hdep I3); [exact Hlk|]. destruct Hins as (_ & _ & _ & ->). exact Hsrv.
  - destruct He as (row & rs & port & now & _ & Hp & _ & d1 & Hup & Haud). eapply inv_audited; [exact Haud|].
    eapply inv_service_updated; [exact Hup|done| |done]. destruct Hup as (Hl & Hck & Hc & _).
    apply lookup_by_Some in Hl as [Hin _]. apply source_write_ok; [|done|done|done].
    by apply (proj1 (Forall_forall _ _) (swf_rows _ (inv_services _ I))).
  - destruct He as (row & v & now & _ & _ & d1 & Hup & Haud). eapply inv_audited; [exact Haud|].
    eapply inv_service_updated; [exact Hup|done| |done]. destruct Hup as (Hl & Hck & Hc & _).
    apply lookup_by_Some in Hl as [Hin _]. apply visibility_ok; [|done].
    by apply (proj1 (Forall_forall _ _) (swf_rows _ (inv_services _ I))).
  - destruct He as (row & _ & _ & Haud). eapply inv_audited; [exact Haud|]. by apply inv_delete_service.
Qed.
End Requests.

Section Safety.
Context {E : Env} {A : Authorizer} {G : GitHubClient} {P : SourcesPort} {N : Entropy}.

(** C28: The services module through any request, under the invariants of all four
    modules it writes to.  The invariants hold afterwards (so slugs stay unique words,
    ports stay in range, every service stays under its environment's project and
    workspace, and no deployment, backup or configuration row dangles); a failed
    request changes nothing; a successful change was allowed in the workspace of the
    service and did exactly what its specification says.  A successful read changes
    nothing, was allowed in the workspace the service, environment or project it names
    is in, answers exactly the rows asked for, and every service it returns is of that
    workspace. *)
Theorem service_requests_safe c q r w w' :
  (∀ n, canonical_uuid (uuid_at n)) → inv (w_db w) → handle_service c q w = (r, w') →
  inv (w_db w') ∧
  match r with
  | inl _ => w_db w' = w_db w
  | inr res => service_effect c q res (w_db w) (w_db w') ∧
      ∀ ws id rows, read_scope q (w_db w) ws id rows →
        allows c ActionServiceRead (service_resource ws id) (w_db w) ∧
        res = map serviceFromRow rows ∧ Forall (λ s, s_WorkspaceID s = ws) res
  end.
Proof.
  intros Hu I H. assert (cwf (w_db w)) as W by apply I. pose proof (wp_handle_service c q w W) as Hw.
  unfold wp in Hw. rewrite H in Hw. simpl in Hw. destruct r as [e|res]; [by rewrite Hw|].
  split; [by eapply service_effect_inv|]. split; [done|]. intros ws id rows Hs.
  assert (services_read c q (w_db w) res) as (ws' & id' & rows' & Hs' & Ha & ->)
    by (destruct q; simpl in Hs; try done; apply Hw).
  destruct (read_scope_unique _ _ _ _ _ _ _ _ Hs' Hs) as (-> & -> & ->). split; [done|]. split; [done|].
  apply Forall_fmap. eapply Forall_impl; [|by intros s]. eapply read_scope_home; [apply I|done].
Qed.
End Safety.

(** ** Credentials of a service's own variables *)
Section OwnVariables.
Context {E : Env}.

(** The credentials loop skips a row of another key. *)
Lemma credential_other_rows k rows c : k ∈ credential_keys → (∀ e, e ∈ rows → ce_Key e ≠ k) →
  credential k (foldl credential_row c rows) = credential k c.
Proof.
  intros Hk Hr. rewrite credentials_lookup by naive_solver. rewrite filter_none; [done|].
  intros e He. by apply String.eqb_neq, Hr.
Qed.

Lemma entry_at_service_row sid k row d : cwf d → entry_at (service_target sid k) d = Some row →
  row ∈ sql_ListConfigForService sid d ∧ ce_Scope row = configScopeService ∧ ce_Key row = k ∧ ce_ServiceID row = Some sid.
Proof.
  intros W H. pose proof (proj1 (entry_at_elem _ _ _ W) H) as [Hin Ht].
  unfold config_target, service_target in Ht. injection Ht as Hs He Hk.
  destruct (proj1 (Forall_forall _ _) (cwf_rows d W) row Hin) as [[(_ & _ & Hn)|(Hsc & _)] _]; [congruence|].
  split; [|done]. apply elem_of_list_config. split; [done|]. unfold config_applies. by rewrite Hs; simpl; rewrite String.eqb_refl.
Qed.

(** A plain variable of the service itself decides the credential, whatever the
    environment holds. *)
Lemma credential_own_variable sid k row v d :
  cwf d → k ∈ credential_keys → entry_at (service_target sid k) d = Some row →
  ce_Type row = TypeVariable → ce_Value row = Some v → credential k (service_credentials sid d) = v.
Proof.
  intros W Hk Hrow Ht Hv. destruct (entry_at_service_row _ _ _ _ W Hrow) as (Hin & Hsc & Hkey & Hsid).
  unfold service_credentials, credentials_of.
  assert (StronglySorted (λ a b, config_leb a b = true) (sql_ListConfigForService sid d)) as Hsorted
    by (apply isort_sorted; [exact config_leb_total|exact config_leb_trans]).
  assert (NoDup (map config_target (sql_ListConfigForService sid d))) as Hnd.
  { unfold sql_ListConfigForService. rewrite isort_perm. apply NoDup_map_where, W. }
  assert (∀ e, e ∈ sql_ListConfigForService sid d → ce_Scope e = configScopeService → ce_Key e = k → config_target e = config_target row) as Huniq.
  { intros e He Hes Hek. apply elem_of_list_config in He as [He Ha].
    destruct (proj1 (Forall_forall _ _) (cwf_rows d W) e He) as [[(Hsc' & _)|(_ & _ & Hen)] _]; [by rewrite Hes in Hsc'|].
    apply elem_of_list_config in Hin as [Hin' _].
    destruct (proj1 (Forall_forall _ _) (cwf_rows d W) row Hin') as [[(Hsc' & _)|(_ & _ & Hen')] _]; [by rewrite Hsc in Hsc'|].
    unfold config_target. rewrite Hen, Hen', Hek, Hkey, Hsid. unfold config_applies in Ha. rewrite Hen in Ha.
    apply orb_true_iff in Ha as [Ha|Ha]; [by apply opt_eqb_true in Ha as ->|by destruct (lookup_by sv_ID sid (services d))]. }
  apply list_elem_of_split in Hin as (l1 & l2 & Hl). rewrite Hl in *. rewrite foldl_app. simpl.
  rewrite credential_other_rows; [|done|].
  - unfold credential_row. rewrite Ht, Hkey, Hv. simpl. unfold credential_keys in Hk.
    repeat (apply elem_of_cons in Hk as [->|Hk]; [done|]). by apply elem_of_nil in Hk.
  - intros e He Hek. apply StronglySorted_app in Hsorted as (_ & _ & Hs2). apply StronglySorted_inv in Hs2 as [_ Hs2].
    pose proof (proj1 (Forall_forall _ _) Hs2 e He) as Hle. simpl in Hle.
    rewrite map_app in Hnd. simpl in Hnd. apply NoDup_app in Hnd as (_ & _ & [Hnot _]%NoDup_cons). apply Hnot.
    assert (e ∈ l1 ++ row :: l2) as Hin2 by (apply elem_of_app; right; by right).
    apply list_elem_of_fmap. exists e. split; [|done]. symmetry. apply Huniq; [done| |done].
    rewrite <- Hl in Hin2. apply elem_of_list_config in Hin2 as [Hin2 _].
    destruct (proj1 (Forall_forall _ _) (cwf_rows d W) e Hin2) as [[(Hs & _)|(Hs & _)] _]; [|done].
    unfold config_leb in Hle. by rewrite Hsc, Hs in Hle.
Qed.

(** The container sees it too. *)
Lemma service_env_own_variable sid k row v d env :
  cwf d → entry_at (service_target sid k) d = Some row → ce_Type row = TypeVariable → ce_Value row = Some v →
  service_env sid d = inr env → env !! k = Some v.
Proof.
  intros W Hrow Ht Hv Henv. rewrite (service_env_lookup _ _ _ k W Henv). unfold deciding_entry. rewrite Hrow. simpl.
  unfold plain_value. rewrite value_of_variable; [simpl; by rewrite Hv|]. unfold is_secret, configFromRow. simpl. by rewrite Ht.
Qed.
End OwnVariables.

(** ** A managed database *)
Section Database.
Context {E : Env} {A : Authorizer} {G : GitHubClient} {P : SourcesPort} {N : Entropy}.

(** The queued first deployment of a database service. *)
Definition database_deployment (sid srv : string) (dep : db_Deployment) (d : DB) : Prop :=
  dep ∈ deployments d ∧ dp_ServiceID dep = sid ∧ dp_ServerID dep = srv ∧ dp_Status dep = StatusQueued ∧
  dp_Kind dep = KindProduction ∧ dp_SourceKind dep = SourceImage ∧
  dp_ImageRef dep = "postgres:16-alpine" ∧ dp_ContainerPort dep = 5432.

Lemma database_vars_own row user password db d1 d2 k v :
  vars_set (sv_ID row) (template_env postgresTemplate user password db) [] d1 d2 →
  template_env postgresTemplate user password db !! k = Some v →
  ∃ e, entry_at (service_target (sv_ID row) k) d2 = Some e ∧ ce_Type e = TypeVariable ∧ ce_Value e = Some v.
Proof. intros V Hk. apply (vs_written _ _ _ _ _ V _ _ Hk). by apply not_elem_of_nil. Qed.

(** What a create writes besides the service and its variables is not configuration. *)
Lemma first_deployed_rows deploy sid srv depID d d' : first_deployed deploy sid srv depID d d' →
  services d' = services d ∧ config_entries d' = config_entries d.
Proof. destruct deploy; [|by intros [-> _]]. intros (svc & row & _ & _ & [_ ->] & _). done. Qed.
Lemma cwf_rows_eq d d' : config_entries d' = config_entries d → cwf d → cwf d'.
Proof. intros H [C1 C2]. by split; rewrite H. Qed.

(** The first deployment of a database, from the row and the template. *)
Lemma database_first_deployment row srv depID d d' :
  lookup_by sv_ID (sv_ID row) (services d) = Some row → sv_SourceKind row = SourceTemplate →
  sv_ImageRef row = "postgres:16-alpine" → sv_ContainerPort row = 5432 →
  first_deployed true (sv_ID row) srv depID d d' →
  ∃ dep, depID = dp_ID dep ∧ database_deployment (sv_ID row) srv dep d'.
Proof.
  intros Hl Hk Him Hp (svc & dep & (row' & Hl' & ->) & (Hf & Hcols & _ & Hport & Hart) & [_ ->] & ->).
  rewrite Hl in Hl'. injection Hl' as <-. exists dep. split; [done|]. cbn -[deployments set_deployments] in *. rewrite Hk in Hart. rewrite Hp in Hport. simpl in Hart. unfold image_artifact in Hart. simpl in Hart. rewrite Him in Hart.
  destruct Hf as (H1 & H2 & _ & _ & _ & H3 & _), Hcols as (H4 & _), Hart as (H5 & H6 & _).
  change (validateImageRef "postgres:16-alpine") with (inr "postgres:16-alpine" : go_error + string) in H6. injection H6 as H6.
  unfold database_deployment. cbn [deployments set_deployments]. split; [apply elem_of_app; right; by left|]. by repeat split.
Qed.

(** C33: A managed database comes up with one set of credentials.  A successful
    [CreateDatabase] leaves a private template service whose container environment,
    whenever it can be built, has the user, password and database name, whose backups
    and restores run with the very same three, and whose connection URI reads back as
    them with the service's slug as host.  The password is the given one, or the
    encoding of 24 random bytes; if a deployment was asked for, the first one is queued
    on the chosen server with the template's image and port. *)
Theorem CreateDatabase_ready c i w r w' :
  cwf (w_db w) → wf (w_db w) → CreateDatabase c i w = (inr r, w') →
  ∃ row password, password_ok i password ∧
    dr_Service r = serviceFromRow row ∧ lookup_by sv_ID (sv_ID row) (services (w_db w')) = Some row ∧
    (sv_EnvironmentID row = id_EnvironmentID i ∧ sv_Visibility row = VisibilityPrivate ∧
     sv_SourceKind row = SourceTemplate ∧ sv_ContainerPort row = 5432) ∧
    (∀ env, service_env (sv_ID row) (w_db w') = inr env →
       env !! "POSTGRES_USER" = Some (db_user i) ∧ env !! "POSTGRES_PASSWORD" = Some password ∧
       env !! "POSTGRES_DB" = Some (db_name i)) ∧
    service_credentials (sv_ID row) (w_db w') = mk_DBCredentials (db_user i) password (db_name i) ∧
    read_uri "postgresql" (dr_ConnectionURI r)
      = Some (mk_uri_parts (db_user i) password (sv_Slug row) "5432" (db_name i)) ∧
    (id_DeployNow i = true → ∃ dep, dr_DeploymentID r = dp_ID dep ∧
       database_deployment (sv_ID row) (id_ServerID i) dep (w_db w')).
Proof.
  intros W Hwf H. use_wp H. apply wp_CreateDatabase; [done|by intros ? ? _ [=]|].
  intros row password depID w1 C [= <-]. exists row, password.
  destruct C as [(Hdb & Hus & Hpw) _ _ (name & slug & pj & d1 & d2 & d3 & Hn & Hws & Hrow & Hins & V & Haud & Hdep)].
  apply validateName_inr in Hn as (_ & _ & Hslug & _).
  destruct Hrow as (R1 & _ & _ & _ & R5 & R6 & R7 & _ & _ & _ & _ & _ & _ & _ & _ & _ & _ & R8 & R9 & _).
  destruct (first_deployed_rows _ _ _ _ _ _ Hdep) as [Hs4 Hc4], (audited_config _ _ _ _ _ _ _ Haud) as [Hc3 Hs3].
  assert (lookup_by sv_ID (sv_ID row) (services d3) = Some row) as Hl3.
  { rewrite Hs3, (vs_only _ _ _ _ _ V). simpl. by apply (inserted_lookup _ (w_db w)). }
  assert (cwf (w_db w1)) as W1 by (apply (cwf_rows_eq d2); [congruence|apply V]).
  assert (∀ k v, template_env postgresTemplate (db_user i) password (db_name i) !! k = Some v →
    ∃ e, entry_at (service_target (sv_ID row) k) (w_db w1) = Some e ∧ ce_Type e = TypeVariable ∧ ce_Value e = Some v) as Hvars.
  { intros k v Hk. destruct (database_vars_own _ _ _ _ _ _ _ _ V Hk) as (e & He & H2). exists e. split; [|done].
    unfold entry_at in *. by rewrite Hc4, Hc3. }
  destruct (Hvars "POSTGRES_USER" (db_user i)) as (e1 & E1 & T1 & V1); [done|].
  destruct (Hvars "POSTGRES_PASSWORD" password) as (e2 & E2 & T2 & V2); [done|].
  destruct (Hvars "POSTGRES_DB" (db_name i)) as (e3 & E3 & T3 & V3); [done|].
  split; [done|]. split; [done|]. split; [by rewrite Hs4|]. split; [done|]. split; [|split; [|split]].
  - intros env Henv. by repeat split; eapply service_env_own_variable.
  - pose proof (credential_own_variable (sv_ID row) "POSTGRES_USER" e1 _ _ W1 ltac:(by left) E1 T1 V1) as K1.
    pose proof (credential_own_variable (sv_ID row) "POSTGRES_PASSWORD" e2 _ _ W1 ltac:(by right; left) E2 T2 V2) as K2.
    pose proof (credential_own_variable (sv_ID row) "POSTGRES_DB" e3 _ _ W1 ltac:(by right; right; left) E3 T3 V3) as K3.
    destruct (service_credentials _ _). unfold credential in *. simpl in *. by subst.
  - simpl. apply connectionURI_read; [by rewrite R5|done|done].
  - intros Hd. rewrite Hd in Hdep. by apply (database_first_deployment row _ _ d3).
Qed.
End Database.

(** ** Deleting a service *)
Section Delete.
Context {E : Env} {A : Authorizer} {G : GitHubClient} {P : SourcesPort} {N : Entropy}.

(** No row of any table names the service, and no rollback reference, event or
    teardown job names a deployment it had in [d]. *)
Record forgotten (id : string) (d d' : DB) : Prop := {
  fg_service : lookup_by sv_ID id (services d') = None;
  fg_deployments : ∀ r, r ∈ deployments d' → dp_ServiceID r ≠ id;
  fg_rollbacks : ∀ r old, r ∈ deployments d' → old ∈ deployments d → dp_ServiceID old = id → dp_RolledBackFrom r ≠ Some (dp_ID old);
  fg_events : ∀ e old, e ∈ deployment_events d' → old ∈ deployments d → dp_ServiceID old = id → ev_DeploymentID e ≠ dp_ID old;
  fg_teardowns : ∀ t old, t ∈ teardown_jobs d' → td_ServiceID t ≠ id ∧
    (old ∈ deployments d → dp_ServiceID old = id → td_DeploymentID t ≠ dp_ID old);
  fg_backups : ∀ b, b ∈ backups d' → bk_ServiceID b ≠ id;
  fg_restores : ∀ r, r ∈ restore_jobs d' → rj_ServiceID r ≠ id;
  fg_domains : ∀ m, m ∈ domains d' → dm_ServiceID m ≠ id;
  fg_config : ∀ e, e ∈ config_entries d' → ce_ServiceID e ≠ Some id;
}.

(** The rows of the other services are still there. *)
Record others_kept (id : string) (d d' : DB) : Prop := {
  ok_services : ∀ s, s ∈ services d → sv_ID s ≠ id → s ∈ services d';
  ok_deployments : ∀ r, r ∈ deployments d → dp_ServiceID r ≠ id →
    (∀ old, old ∈ deployments d → dp_ServiceID old = id → dp_RolledBackFrom r ≠ Some (dp_ID old)) → r ∈ deployments d';
  ok_backups : ∀ b, b ∈ backups d → bk_ServiceID b ≠ id → b ∈ backups d';
  ok_domains : ∀ m, m ∈ domains d → dm_ServiceID m ≠ id → m ∈ domains d';
  ok_config : ∀ e, e ∈ config_entries d → ce_ServiceID e ≠ Some id → e ∈ config_entries d';
  ok_tree : environments d' = environments d ∧ projects d' = projects d ∧ workspaces d' = workspaces d ∧
    servers d' = servers d ∧ source_connections d' = source_connections d;
}.

Lemma gone_dep_iff d id i :
  has_key dp_ID i (where_ (λ r, String.eqb (dp_ServiceID r) id) (deployments d)) = false ↔
  ∀ r, r ∈ deployments d → dp_ServiceID r = id → i ≠ dp_ID r.
Proof.
  rewrite <- not_true_iff_false, gone_dep_spec. split.
  - intros H r Hr Hs ->. by apply H; exists r.
  - intros H (r & Hr & Hi & Hs). by apply (H r).
Qed.

Lemma delete_forgets id d : forgotten id d (delete_service_rows id d).
Proof.
  unfold delete_service_rows. set (gone := λ i, has_key dp_ID i _).
  assert (∀ i, gone i = false ↔ ∀ r, r ∈ deployments d → dp_ServiceID r = id → i ≠ dp_ID r) as Hg by (intros; apply gone_dep_iff).
  split; cbn -[where_].
  - fold (lookup_by sv_ID id (where_ (λ r, negb (String.eqb (sv_ID r) id)) (services d))).
    destruct (lookup_by sv_ID id _) as [s|] eqn:Hl; [|done]. apply lookup_by_Some in Hl as [Hs <-].
    apply elem_of_where in Hs as [_ Hs]. by rewrite String.eqb_refl in Hs.
  - intros r' Hr. apply elem_of_cleared in Hr as (r & Hr & ->). apply elem_of_where in Hr as [_ Hs]. by propify.
  - intros r' old Hr Hold Hs. apply elem_of_cleared in Hr as (r & Hr & ->). simpl.
    destruct (dp_RolledBackFrom r) as [i|]; [|done]. destruct (gone i) eqn:Hi; [done|]. intros [= ->]. by apply (proj1 (Hg _) Hi old).
  - intros e old He Hold Hs. apply elem_of_where in He as [_ He]. apply negb_true_iff in He. by apply (proj1 (Hg _) He old).
  - intros t old Ht. apply elem_of_where in Ht as [_ Ht]. rewrite negb_orb in Ht. apply andb_true_iff in Ht as [H1 H2].
    split; [by apply negb_true_iff, String.eqb_neq in H1|]. intros Hold Hs. apply negb_true_iff in H2. by apply (proj1 (Hg _) H2 old).
  - intros b Hb. apply elem_of_where in Hb as [_ Hb]. by propify.
  - intros r Hr. apply elem_of_where in Hr as [_ Hr]. rewrite negb_orb in Hr. apply andb_true_iff in Hr as [Hr _]. by propify.
  - intros m Hm. apply elem_of_where in Hm as [_ Hm]. by propify.
  - intros e He Hs. apply elem_of_where in He as [_ He]. rewrite Hs in He. simpl in He. by rewrite String.eqb_refl in He.
Qed.

Lemma neq_negb_eqb (a b : string) : a ≠ b → negb (String.eqb a b) = true.
Proof. intros H. by apply negb_true_iff, String.eqb_neq. Qed.

Lemma delete_keeps_others id d : others_kept id d (delete_service_rows id d).
Proof.
  unfold delete_service_rows. set (gone := λ i, has_key dp_ID i _).
  split; cbn -[where_]; [| | | | |done].
  - intros s Hs Hn. apply elem_of_where. by split; [|apply neq_negb_eqb].
  - intros r Hr Hn Hb. apply elem_of_cleared. exists r. rewrite elem_of_where. split; [by split; [|apply neq_negb_eqb]|].
    destruct r as [? ? ? ? ? ? ? ? ? ? ? ? ? ? ? ? ? ? ? ? ? rb]. unfold clear_rollback. simpl in *. f_equal. destruct rb as [i|]; [|done].
    assert (gone i = false) as ->; [|done]. apply gone_dep_iff. intros old Hold Hs ->. by apply (Hb old).
  - intros b Hb Hn. apply elem_of_where. by split; [|apply neq_negb_eqb].
  - intros m Hm Hn. apply elem_of_where. by split; [|apply neq_negb_eqb].
  - intros e He Hn. apply elem_of_where. split; [done|]. apply negb_true_iff, not_true_iff_false. by rewrite opt_eqb_true.
Qed.

Lemma forgotten_audited id a ty ti ws ac d d1 d' : audited a ty ti ws ac d1 d' → forgotten id d d1 → forgotten id d d'.
Proof. intros (row & -> & _) []. by split. Qed.
Lemma others_audited id a ty ti ws ac d d1 d' : audited a ty ti ws ac d1 d' → others_kept id d d1 → others_kept id d d'.
Proof. intros (row & -> & _) []. by split. Qed.

(** A successful delete of a service forgets it and nothing else.  It was allowed
    in the workspace of the service; afterwards no row of any table names the service
    or one of its deployments; every service, deployment, backup, domain and
    configuration entry of another service is kept as it was (a deployment that had
    been rolled back from a deleted one only loses that reference); and the delete is
    in the audit log. *)
Theorem DeleteService_forgets c id w w' :
  DeleteService c id w = (inr tt, w') →
  ∃ row d1, lookup_by sv_ID id (services (w_db w)) = Some row ∧
    allows c ActionServiceDelete (service_resource (sv_WorkspaceID row) id) (w_db w) ∧
    audited "service.delete" "service" id (sv_WorkspaceID row) (p_UserID c) d1 (w_db w') ∧
    forgotten id (w_db w) (w_db w') ∧ others_kept id (w_db w) (w_db w').
Proof.
  intros H. use_wp H. apply wp_DeleteService; [by intros ? ? _ [=]|]. intros row w1 (Hl & Hal & Haud) _.
  exists row, (delete_service_rows id (w_db w)). split; [done|]. split; [done|]. split; [done|]. split.
  - eapply forgotten_audited; [exact Haud|apply delete_forgets].
  - eapply others_audited; [exact Haud|apply delete_keeps_others].
Qed.
End Delete.
