(* ===== verification/SourcesProps.v ===== *)
(** * SourcesProps: what the requests of the sources module guarantee

    The safety of every request over the connections table, the adapter of
    [internal/app/sources_adapter.go] that gives the services module its port, and what
    the two modules together say about the workspace of a connected source. *)
From S2P Require Import Prelude.
From S2P Require Import GoStrings.
From S2P Require Import Problem.
From S2P Require Import Schema.
From S2P Require Import Platform.
From S2P Require Import Authz.
From S2P Require Import DeployStore.
From S2P Require Import Deployments.
From S2P Require Import DeploySpec.
From S2P Require Import DeployHandlers.
From S2P Require Import DeployInv.
From S2P Require Import DeploySystem.
From S2P Require Import BackupSystem.
From S2P Require Import Config.
From S2P Require Import ConfigProps.
From S2P Require Import Sources.
From S2P Require Import SourcesSpec.
From S2P Require Import Services.
From S2P Require Import ServicesPure.
From S2P Require Import ServicesSpec.
From S2P Require Import ServicesProps.

(** ** Requests *)
Inductive SourceRequest :=
  | QCompleteOAuth (opened : go_error + connectState) (i : CompleteOAuthInput)
  | QCompleteAppInstall (opened : go_error + connectState) (i : CompleteAppInput)
  | QDisconnect (connectionID : string)
  | QListConnections (workspaceID : string)
  | QListBranches (connectionID owner repo : string).

Section Safety.
Context {E : Env} {A : Authorizer} {S : Sealer} {R : Registry}.

Definition handle_source (c : Principal) (q : SourceRequest) : M unit :=
  match q with
  | QCompleteOAuth opened i => discard (CompleteOAuth opened c i)
  | QCompleteAppInstall opened i => discard (CompleteAppInstall opened c i)
  | QDisconnect id => DisconnectConnection c id
  | QListConnections ws => discard (ListConnections c ws)
  | QListBranches id owner repo => discard (Sources.ListBranches c id owner repo)
  end.

(** The one effect of a successful request. *)
Definition source_effect (c : Principal) (q : SourceRequest) (d d' : DB) : Prop :=
  match q with
  | QCompleteOAuth opened i => ∃ st p new, state_verified opened c (ci_Provider i) (ci_State i) st p d ∧
      oauth_connected st p (ci_Code i) new d d'
  | QCompleteAppInstall opened i => ∃ st p new, state_verified opened c (ca_Provider i) (ca_State i) st p d ∧
      app_connected st p (ca_InstallationID i) new d d'
  | QDisconnect id => ∃ row, disconnected c id row d d'
  | QListConnections ws => d' = d ∧ allows c ActionSourceRead (source_resource ws) d
  | QListBranches id _ _ => d' = d ∧ ∃ row, lookup_by sc_ID id (source_connections d) = Some row ∧
      allows c ActionSourceConnect (source_resource (sc_WorkspaceID row)) d
  end.

Lemma wp_handle_source c q w :
  wp (handle_source c q) (λ res w',
    match res with inl _ => w_db w' = w_db w | inr _ => source_effect c q (w_db w) (w_db w') end) w.
Proof.
  destruct q as [opened i|opened i|id|ws|id owner repo]; simpl; try apply wp_discard.
  - apply wp_CompleteOAuth; [done|]. intros st p new w' H1 H2. by exists st, p, new.
  - apply wp_CompleteAppInstall; [done|]. intros st p new w' H1 H2. by exists st, p, new.
  - apply wp_DisconnectConnection; [done|]. intros row w' H. by exists row.
  - apply wp_ListConnections; [done|]. by intros ps w' -> H.
  - apply wp_ListBranches; [done|]. intros row bs w' -> H1 H2. split; [done|]. by exists row.
Qed.

(** ** The invariants *)
Lemma scwf_audited a ty ti ws ac d d' : audited a ty ti ws ac d d' → scwf d → scwf d'.
Proof. by intros (row & -> & _) []. Qed.

(** The connections table changed; every connection a service names is still there. *)
Lemma inv_connections rows d :
  (∀ s id, s ∈ services d → sv_ConnectionID s = Some id → has_key sc_ID id (source_connections d) = true → has_key sc_ID id rows = true) →
  inv d → inv (set_source_connections rows d).
Proof.
  intros Hk [I1 I2 I3 [S1 S2]]. split; [by eapply wf_frame; [..|exact I1]|by eapply bwf_frame; [..|exact I2]|by eapply cwf_frame; [|exact I3]|].
  split; [|done]. simpl. apply Forall_forall. intros s Hs. destruct (proj1 (Forall_forall _ _) S1 s Hs) as [R1 R2 R3 R4 R5].
  split; [done|done|done|exact R4|]. unfold connection_exists in *. simpl. destruct (sv_ConnectionID s) as [id|] eqn:Hid; [|done]. by eapply Hk.
Qed.

Lemma upserted_has_key target f row d new rows id :
  (∀ r, sc_ID (f r) = sc_ID r) → upserted_row target f row d new rows →
  has_key sc_ID id (source_connections d) = true → has_key sc_ID id rows = true.
Proof.
  intros Hf Hup. rewrite !has_key_true. intros (x & Hx & Hid). destruct Hup as [r Hr Ht|Hn Hnew].
  - exists (if String.eqb (sc_ID x) (sc_ID r) then f x else x). split; [apply elem_of_update_where; by exists x|].
    case_match; [by rewrite Hf|done].
  - exists x. split; [apply elem_of_app; by left|done].
Qed.

Lemma connected_inv action st target f row new d d' :
  (∀ r, sc_ID (f r) = sc_ID r) → connected action st target f row new d d' → inv d → scwf d → inv d' ∧ scwf d'.
Proof.
  intros Hf (rows & Hup & Hck & _ & Hcl & Haud) I W. split.
  - eapply inv_audited; [exact Haud|]. apply inv_connections; [|done]. intros s id _ _. by eapply upserted_has_key.
  - eapply scwf_audited; [exact Haud|]. by eapply scwf_upserted.
Qed.

Lemma source_effect_inv c q d d' : source_effect c q d d' → inv d → scwf d → inv d' ∧ scwf d'.
Proof.
  intros He I W. destruct q as [opened i|opened i|id|ws|id owner repo]; simpl in He; try (by destruct He as [-> _]).
  - destruct He as (st & p & new & _ & n & m & token & scopes & account & sealed & id & now & _ & _ & Hc).
    by eapply connected_inv; [|exact Hc|..].
  - destruct He as (st & p & new & _ & n & account & id & now & _ & Hc). by eapply connected_inv; [|exact Hc|..].
  - destruct He as (row & _ & _ & Hfree & Haud). split.
    + eapply inv_audited; [exact Haud|]. apply inv_connections; [|done]. intros s id' Hs Hc Hk.
      apply has_key_true in Hk as (x & Hx & Hid). apply has_key_true. exists x. rewrite elem_of_where. split; [|done]. split; [done|].
      apply negb_true_iff, String.eqb_neq. rewrite Hid. intros ->. by apply (Hfree s).
    + eapply scwf_audited; [exact Haud|]. destruct W as [W1 W2 W3]. split; simpl.
      * apply Forall_forall. intros x Hx. apply elem_of_where in Hx as [Hx _]. by apply (proj1 (Forall_forall _ _) W1).
      * by apply NoDup_map_where.
      * intros x y Hx Hy. apply elem_of_where in Hx as [Hx _], Hy as [Hy _]. by apply W3.
Qed.

(** The connections table through any request.  Its invariant (every row has the
    credential columns of its kind and no other; ids are unique; no two rows share an
    installation, or an account within a workspace) and those of the other modules are
    kept: in particular a connection a service uses is never removed.  A failed request
    changes nothing.  A connect succeeds only for an unexpired state whose nonce was
    echoed, in the session of the user who began it, who may still connect sources to
    the state's workspace, and upserts one row; a disconnect only in the connection's
    own workspace and removes that row; both are audited. *)
Theorem source_requests_safe c q r w w' :
  inv (w_db w) → scwf (w_db w) → handle_source c q w = (r, w') →
  inv (w_db w') ∧ scwf (w_db w') ∧
  match r with
  | inl _ => w_db w' = w_db w
  | inr _ => source_effect c q (w_db w) (w_db w')
  end.
Proof.
  intros I W H. pose proof (wp_handle_source c q w) as Hw. unfold wp in Hw. rewrite H in Hw. simpl in Hw.
  destruct r as [e|[]]; [by rewrite Hw|]. destruct (source_effect_inv _ _ _ _ Hw I W). by split; [|split].
Qed.
End Safety.

(** ** The adapter for the services module (internal/app/sources_adapter.go) *)
Section Adapter.
Context {E : Env} {S : Sealer} {R : Registry}.

Definition adapter_GetConnectionMeta (connectionID : string) : M (option ConnectionMeta) :=
  c ← GetConnectionMeta connectionID;
  mret ((λ c, mk_ConnectionMeta (cn_WorkspaceID c) (cn_Provider c) (cn_Kind c) (cn_AccountLogin c)) <$> c).
Definition adapter_ValidateRepo (connectionID owner repo branch : string) : M Services.ResolvedRepo :=
  r ← ValidateRepo connectionID owner repo branch;
  mret {| vr_Owner := rr_Owner r; vr_Name := rr_Name r; vr_FullName := rr_FullName r;
          vr_DefaultBranch := rr_DefaultBranch r; vr_HTMLURL := rr_HTMLURL r; vr_IsPrivate := rr_IsPrivate r;
          vr_Branch := rr_Branch r; vr_Provider := rr_Provider r; vr_Kind := rr_Kind r;
          vr_AccountLogin := rr_AccountLogin r; vr_Buildable := rr_Buildable r |}.
Definition adapter_Buildable (provider kind : string) : bool :=
  match Registry_Get provider with Some p => pv_Buildable p kind | None => false end.

Lemma adapter_meta_spec id w : wp (adapter_GetConnectionMeta id) (λ r w', w_db w' = w_db w ∧
  ∀ m, r = inr (Some m) → ∃ row, lookup_by sc_ID id (source_connections (w_db w)) = Some row ∧
    cm_WorkspaceID m = sc_WorkspaceID row ∧ cm_Kind m = sc_Kind row) w.
Proof.
  unfold adapter_GetConnectionMeta. wp_step. apply SourcesSpec.wp_GetConnectionMeta; [by intros|].
  intros w' Hw. wp_step. split; [done|]. intros m [= Hm].
  destruct (lookup_by sc_ID id (source_connections (w_db w))) as [row|]; [|done]. injection Hm as <-. by exists row.
Qed.
Lemma adapter_repo_spec id owner repo branch w : wp (adapter_ValidateRepo id owner repo branch) (λ r w', w_db w' = w_db w ∧
  ∀ v, r = inr v → ∃ row, lookup_by sc_ID id (source_connections (w_db w)) = Some row ∧
    vr_Kind v = sc_Kind row ∧ vr_Buildable v = adapter_Buildable (sc_Provider row) (sc_Kind row)) w.
Proof.
  unfold adapter_ValidateRepo. wp_step. apply SourcesSpec.wp_ValidateRepo; [by intros|].
  intros row v w' Hw Hl (pc & p & n & info & (Hp & _) & H). wp_step. split; [done|]. intros v' [= <-]. exists row. split; [done|]. simpl.
  destruct H as (_ & _ & _ & _ & _ & _ & _ & _ & Hk & _ & Hb & _). split; [done|]. unfold adapter_Buildable. by rewrite Hp.
Qed.

#[export] Instance sourcesForServices : SourcesPort := {|
  src_Buildable := adapter_Buildable;
  src_GetConnectionMeta := adapter_GetConnectionMeta;
  src_ValidateRepo := adapter_ValidateRepo;
  Services.wp_GetConnectionMeta := adapter_meta_spec;
  Services.wp_ValidateRepo := adapter_repo_spec;
|}.
End Adapter.

(** ** A connected source belongs to its service's workspace *)
Section Home.
Context {E : Env} {A : Authorizer} {S : Sealer} {R : Registry} {G : GitHubClient} {N : Entropy}.

Definition at_home (d : DB) (s : db_Service) : Prop :=
  match sv_ConnectionID s with
  | None => True
  | Some c => ∃ row, lookup_by sc_ID c (source_connections d) = Some row ∧ sc_WorkspaceID row = sv_WorkspaceID s
  end.
Definition homed (d : DB) : Prop := ∀ s, s ∈ services d → at_home d s.

(** An app install that finds the installation connected elsewhere moves it; any other
    request leaves every connection where it is. *)
Definition moves_nothing (q : SourceRequest) (d : DB) : Prop :=
  match q with
  | QCompleteAppInstall (inr st) i =>
      ∀ x, x ∈ source_connections d → sc_InstallationID x = Some (ca_InstallationID i) → sc_WorkspaceID x = st_WorkspaceID st
  | _ => True
  end.

Lemma at_home_frame d d' s : source_connections d' = source_connections d → at_home d s → at_home d' s.
Proof. intros H. unfold at_home. by rewrite H. Qed.
Lemma resolved_home ws f d rs s : source_resolved ws f d rs → sv_ConnectionID s = nullableStr (rs_connectionID rs) →
  sv_WorkspaceID s = ws → at_home d s.
Proof.
  intros Hr Hc Hws. unfold at_home. rewrite Hc. unfold nullableStr.
  destruct Hr as [| | |row rs Hk Hu Hl Hrow ? ? ? Hid Hne Hacc]; simpl; try done.
  rewrite Hid. destruct (String.eqb_spec (sf_connectionID f) ""); [done|]. exists row. by rewrite Hrow.
Qed.

Lemma first_deployed_home deploy sid srv dep d d' : first_deployed deploy sid srv dep d d' → homed d → homed d'.
Proof. destruct deploy; [|by intros [-> _]]. by intros (svc & row & _ & _ & [_ ->] & _). Qed.
Lemma homed_audited a ty ti ws ac d d' : audited a ty ti ws ac d d' → homed d → homed d'.
Proof. by intros (row & -> & _). Qed.
Lemma homed_inserted row d d' : service_inserted row d d' → at_home d row → homed d → homed d'.
Proof.
  intros (_ & _ & _ & ->) Hrow H s Hs. simpl in Hs. apply elem_of_app in Hs as [Hs|Hs%list_elem_of_singleton]; [by apply (H s Hs)|by subst s].
Qed.
Lemma homed_updated id f row d d' : wf d → service_updated id f row d d' → at_home d (f row) → homed d → homed d'.
Proof.
  intros W (Hl & _ & _ & ->) Hrow H s Hs. simpl in Hs. apply elem_of_update_where in Hs as (y & Hy & ->).
  destruct (String.eqb_spec (sv_ID y) id) as [He|]; [|by apply (H y Hy)].
  pose proof (lookup_by_unique sv_ID _ _ (wf_service_ids _ W) Hy) as Hl'. rewrite He, Hl in Hl'. by injection Hl' as ->.
Qed.

Lemma service_effect_home c q res d d' : wf d → service_effect c q res d d' → homed d → homed d'.
Proof.
  intros W He H. destruct q as [i|i|i|id vis|id|id|id|id|id]; simpl in He; try (by destruct He as [-> _]).
  - destruct He as (row & login & dep & [(rs & Hrs & _ & name & slug & port & v & pj & d1 & d2 & _ & _ & _ & _ & Hrow & Hins & Haud & _ & Hdep) _]).
    eapply first_deployed_home; [exact Hdep|]. eapply homed_audited; [exact Haud|]. eapply homed_inserted; [exact Hins| |done].
    by eapply resolved_home; [exact Hrs|apply Hrow|].
  - destruct He as (row & password & dep & [_ _ _ (name & slug & pj & d1 & d2 & d3 & _ & _ & Hrow & Hins & Hvars & Haud & Hdep)]).
    eapply first_deployed_home; [exact Hdep|]. eapply homed_audited; [exact Haud|].
    assert (homed d1) as H1; [|pose proof (vs_only _ _ _ _ _ Hvars) as Hd2; unfold config_only in Hd2; by rewrite Hd2].
    eapply homed_inserted; [exact Hins| |done]. unfold at_home.
    assert (sv_ConnectionID row = nullableStr (rs_connectionID database_source)) as -> by apply Hrow. done.
  - destruct He as (row & rs & port & now & Hrs & _ & _ & d1 & Hup & Haud). eapply homed_audited; [exact Haud|].
    eapply homed_updated; [done|exact Hup| |done]. by eapply resolved_home.
  - destruct He as (row & v & now & _ & _ & d1 & Hup & Haud). eapply homed_audited; [exact Haud|].
    eapply homed_updated; [done|exact Hup| |done]. destruct Hup as (Hl & _). apply lookup_by_Some in Hl as [Hin _]. by apply (H row Hin).
  - destruct He as (row & _ & _ & Haud). eapply homed_audited; [exact Haud|]. intros s Hs.
    apply elem_of_where in Hs as [Hs _]. by apply (H s Hs).
Qed.

Lemma upserted_home target f row new rows d :
  (∀ r, sc_ID (f r) = sc_ID r) → scwf d → upserted_row target f row d new rows →
  (∀ x, x ∈ source_connections d → target x = true → sc_WorkspaceID (f x) = sc_WorkspaceID x) →
  homed d → homed (set_source_connections rows d).
Proof.
  intros Hf [_ W _] Hup Hws H s Hs. specialize (H s Hs). unfold at_home in *. simpl.
  destruct (sv_ConnectionID s) as [id|]; [|done]. destruct H as (x & Hl & Hx). apply lookup_by_Some in Hl as [Hin Hid].
  assert (NoDup (map sc_ID rows)) as Hnd.
  { destruct Hup as [r Hr Ht|Hn Hid']; [by rewrite map_update_where|]. by apply NoDup_map_snoc. }
  destruct Hup as [r Hr Ht|Hn Hnew].
  - exists (if String.eqb (sc_ID x) (sc_ID r) then f x else x). split.
    + rewrite <- Hid. replace (sc_ID x) with (sc_ID (if String.eqb (sc_ID x) (sc_ID r) then f x else x)) at 1
        by (case_match; [by rewrite Hf|done]).
      apply lookup_by_unique; [done|]. apply elem_of_update_where. by exists x.
    + destruct (String.eqb_spec (sc_ID x) (sc_ID r)) as [He|]; [|done]. rewrite Hws; [done|done|].
      assert (x = r) as ->; [|done]. by apply (NoDup_map_inj sc_ID (source_connections d)).
  - exists x. split; [|done]. rewrite <- Hid. apply lookup_by_unique; [done|]. apply elem_of_app. by left.
Qed.

Lemma source_effect_home c q d d' : scwf d → source_effect c q d d' → moves_nothing q d → homed d → homed d'.
Proof.
  intros W He Hm H. destruct q as [opened i|opened i|id|ws|id owner repo]; simpl in He; try (by destruct He as [-> _]).
  - destruct He as (st & p & new & _ & n & m & token & scopes & account & sealed & id & now & _ & _ & rows & Hup & _ & _ & _ & Haud).
    eapply homed_audited; [exact Haud|]. by eapply upserted_home; [..|exact Hup| |].
  - destruct He as (st & p & new & (Ho & _) & n & account & id & now & _ & rows & Hup & _ & _ & _ & Haud).
    eapply homed_audited; [exact Haud|]. eapply upserted_home; [..|exact Hup| |done]; [done|done|].
    intros x Hx Ht. apply same_installation_true in Ht as (_ & _ & Hi). simpl in *. subst opened. symmetry. by apply (Hm x).
  - destruct He as (row & _ & _ & Hfree & Haud). eapply homed_audited; [exact Haud|]. intros s Hs. specialize (H s Hs).
    unfold at_home in *. simpl. destruct (sv_ConnectionID s) as [id'|] eqn:Hc; [|done]. destruct H as (x & Hl & Hx). exists x. split; [|done].
    apply lookup_by_Some in Hl as [Hin Hid]. rewrite <- Hid. apply lookup_by_unique; [by apply NoDup_map_where, W|].
    apply elem_of_where. split; [done|]. apply negb_true_iff, String.eqb_neq. rewrite Hid. intros ->. by apply (Hfree s).
Qed.

(** C29: Connected repositories stay inside their workspace, across the two modules:
    whatever is requested of the services module (wired to the sources module by the
    adapter) or of the sources module, if every service's connection was one of the
    service's own workspace before, it still is afterwards.  The one exception is an
    app install that names an installation connected to another workspace, which moves
    the connection and leaves that workspace's services behind. *)
Theorem connected_sources_stay_home c w :
  inv (w_db w) → scwf (w_db w) → homed (w_db w) →
  (∀ q, homed (w_db (snd (handle_service c q w)))) ∧
  (∀ q, moves_nothing q (w_db w) → homed (w_db (snd (handle_source c q w)))).
Proof.
  intros I W H. split.
  - intros q. assert (cwf (w_db w)) as C by apply I. pose proof (wp_handle_service c q w C) as Hw. unfold wp in Hw.
    destruct (handle_service c q w) as [[e|res] w']; simpl in *; [by rewrite Hw|]. eapply service_effect_home; [apply I|exact Hw|done].
  - intros q Hm. pose proof (wp_handle_source c q w) as Hw. unfold wp in Hw.
    destruct (handle_source c q w) as [[e|[]] w']; simpl in *; [by rewrite Hw|]. by eapply source_effect_home.
Qed.
End Home.

(** ** What a GitHub connection can deploy *)
Section Buildable.
Context {E : Env} {A : Authorizer} {S : Sealer} {C : GitHubClient} {N : Entropy} (oauth : OAuthConfig).

(** The registry [modules.go] builds: GitHub alone. *)
#[local] Instance github_registry : Registry := {| registered := [GitHub oauth] |}.

Lemma service_inserted_lookup row d d' : service_inserted row d d' → lookup_by sv_ID (sv_ID row) (services d') = Some row.
Proof.
  intros (_ & Hu & _ & ->). unfold service_unique in Hu. apply andb_true_iff in Hu as [Hu _]. apply negb_true_iff, not_true_iff_false in Hu.
  simpl. unfold lookup_by. rewrite find_app_list. fold (lookup_by sv_ID (sv_ID row) (services d)).
  destruct (lookup_by sv_ID (sv_ID row) (services d)) as [x|] eqn:Hl; [|simpl; by rewrite String.eqb_refl].
  destruct Hu. apply lookup_by_Some in Hl as [Hx Hid]. apply has_key_true. by exists x.
Qed.

(** A service from a GitHub connection deploys at once exactly when it asked to
    and the connection is an App installation: an OAuth connection creates the service
    and its audit row and queues nothing, since the agent could not clone. *)
Theorem connected_source_deploys c i row w r w' :
  CreateService c i w = (inr r, w') →
  ic_SourceKind i = SourceGit → TrimSpace (ic_RepoURL i) = "" →
  lookup_by sc_ID (ic_ConnectionID i) (source_connections (w_db w)) = Some row → sc_Provider row = "github" →
  if ic_DeployNow i && String.eqb (sc_Kind row) "app"
  then ∃ dep, deployments (w_db w') = deployments (w_db w) ++ [dep] ∧ res_DeploymentID r = dp_ID dep ∧
         dp_ServerID dep = ic_ServerID i ∧ dp_Status dep = StatusQueued ∧ dp_SourceAccess dep = "app"
  else deployments (w_db w') = deployments (w_db w) ∧ res_DeploymentID r = "".
Proof.
  intros H Hk Hu Hl Hp. use_wp H. apply wp_CreateService; [by intros ? ? _ [=]|].
  intros srow login dep w1 [(rs & Hrs & _ & name & slug & port & v & pj & d1 & d2 & _ & _ & _ & _ & Hrow & Hins & Haud & _ & Hdep) _] [= <-].
  destruct Hrs as [ref Hk'|ref Hk'|o rp n info b Hk' Hpub|row' rs Hk' Hu' Hl' Hws Hgit _ _ Hid Hne Hacc Hb]; simpl in Hk'.
  { by rewrite Hk in Hk'. } { by rewrite Hk in Hk'. }
  { unfold parsePublicRepo in Hpub. simpl in Hpub. by rewrite Hu in Hpub. }
  simpl in Hl'. rewrite Hl in Hl'. injection Hl' as <-.
  assert (rs_buildable rs = String.eqb (sc_Kind row) "app") as Hbuild by (rewrite Hb, Hp; done). rewrite Hbuild in Hdep.
  assert (deployments d2 = deployments (w_db w)) as Hd2 by (destruct Haud as (au & -> & _), Hins as (_ & _ & _ & ->); done).
  destruct (ic_DeployNow i && String.eqb (sc_Kind row) "app") eqn:Hdo; [|by destruct Hdep as [-> ->]].
  destruct Hdep as (svc & dp & (srow' & Hl2 & ->) & (Hf & _ & _ & _ & Hart) & [_ ->] & ->).
  assert (srow' = srow) as ->.
  { destruct Haud as (au & -> & _). simpl in Hl2. rewrite (service_inserted_lookup _ _ _ Hins) in Hl2. congruence. }
  exists dp. simpl. rewrite Hd2. split; [done|]. split; [done|]. split; [apply Hf|]. split; [apply Hf|].
  apply andb_true_iff in Hdo as [_ Happ]. rewrite Happ in Hacc.
  assert (sv_SourceKind srow = SourceGit) as Hsk by (rewrite <- Hgit; apply Hrow).
  assert (sv_SourceAccess srow = "app") as Hsa by (etransitivity; [apply Hrow|exact Hacc]).
  simpl in Hart. rewrite Hsk in Hart. destruct Hart as (_ & _ & Ha & _). rewrite Ha. exact Hsa.
Qed.
End Buildable.
