(* ===== verification/Domains.v ===== *)
(** * Domains: custom hostnames of services

    [internal/domains]: domains.go, service.go, postgres.go and store.go over the
    statements of [internal/platform/database/db/domains.sql.go].  A user attaches a
    hostname to a service and has its DNS verified; verified hostnames are what
    [Deployments.SyncRoutes] hands to the agent.  DNS and the public suffix list are the
    class [Resolver]. *)
From S2P Require Import Prelude.
From S2P Require Import GoStrings.
From S2P Require Import GoUrl.
From S2P Require Import Problem.
From S2P Require Import Schema.
From S2P Require Import Platform.
From S2P Require Import Authz.
From S2P Require Import DeployStore.

(** ** Vocabulary (domains.go) *)
Definition StatusBlocked : string := "blocked".
Definition StatusPendingDNS : string := "pending_dns".
Definition StatusVerified : string := "verified".
Definition StatusActive : string := "active".
Definition StatusFailed : string := "failed".
Definition RecordCNAME : string := "CNAME".
Definition RecordA : string := "A".
Definition maxHostnameLen : Z := 253.

Record Domain := mk_Domain {
  dom_ID : string; dom_ServiceID : string; dom_EnvironmentID : string; dom_ProjectID : string; dom_WorkspaceID : string;
  dom_Hostname : string; dom_Status : string; dom_StatusMessage : string;
  dom_DNSRecordType : string; dom_DNSRecordName : string; dom_DNSRecordValue : string;
  dom_CreatedAt : Z; dom_UpdatedAt : Z; dom_LastCheckedAt : option Z;
}.
Record CreateInput := mk_CreateInput { cd_ServiceID : string; cd_Hostname : string }.
Record ServiceRoute := mk_ServiceRoute {
  sr_ID : string; sr_EnvironmentID : string; sr_ProjectID : string; sr_WorkspaceID : string;
  sr_Visibility : string; sr_RouteURL : string;
}.
Definition with_record (d : Domain) (type value : string) : Domain :=
  mk_Domain (dom_ID d) (dom_ServiceID d) (dom_EnvironmentID d) (dom_ProjectID d) (dom_WorkspaceID d) (dom_Hostname d)
    (dom_Status d) (dom_StatusMessage d) type (dom_Hostname d) value (dom_CreatedAt d) (dom_UpdatedAt d) (dom_LastCheckedAt d).

(** DNS lookups, failing with nothing, and the registrable part of a name. *)
Class Resolver := {
  LookupCNAME : nat → string → option string;
  LookupHost : nat → string → option (list string);
  EffectiveTLDPlusOne : string → option string;
}.

(** ** Hostnames *)
Definition is_host_rune (c : ascii) : bool := is_lower c || is_digit c || Ascii.eqb c "-".
(** The first rune that is not allowed. *)
Fixpoint bad_rune (l : bytes) : option bytes :=
  match l with
  | [] => None
  | c :: l' => if is_host_rune c then bad_rune l' else Some (hd [] (runes 1 l))
  end.
Definition validateLabel (label : string) : option go_error :=
  if String.eqb label "" then Some (InvalidInput "domain labels must not be empty" [])
  else if 63 <? len label then Some (InvalidInput "domain label %q is too long" [AStr label])
  else if bool_decide (head (bytes_of label) = Some "-"%char) || bool_decide (last (bytes_of label) = Some "-"%char)
  then Some (InvalidInput "domain label %q must not start or end with '-'" [AStr label])
  else match bad_rune (bytes_of label) with
       | Some r => Some (InvalidInput "domain label %q contains invalid character %q" [AStr label; AStr (str_of r)])
       | None => None
       end.
Fixpoint validate_labels (labels : list string) : option go_error :=
  match labels with
  | [] => None
  | l :: ls => match validateLabel l with Some e => Some e | None => validate_labels ls end
  end.
Definition normalizeHostname (raw : string) : go_error + string :=
  let host := TrimSuffix (TrimSpace (ToLower raw)) "." in
  if String.eqb host "" then inl (InvalidInput "domain is required" [])
  else if Contains host "://" then inl (InvalidInput "domain must not include http:// or https://" [])
  else if ContainsAny host "/?#" then inl (InvalidInput "domain must not include a path or query string" [])
  else if Contains host ":" then inl (InvalidInput "domain must not include a port" [])
  else if HasPrefix host "*." then inl (InvalidInput "wildcard domains are not supported yet" [])
  else if Contains host "*" then inl (InvalidInput "wildcard domains are not supported yet" [])
  else if maxHostnameLen <? len host then inl (InvalidInput "domain must be at most %d characters" [AInt maxHostnameLen])
  else if Z.of_nat (length (Split host ".")) <? 2
  then inl (InvalidInput "domain must include a public suffix, e.g. app.example.com" [])
  else match validate_labels (Split host ".") with Some e => inl e | None => inr host end.

Definition initialStatus (svc : ServiceRoute) : string * string :=
  if String.eqb (sr_Visibility svc) "private" then (StatusBlocked, "Make the service public before attaching a custom domain.")
  else if String.eqb (sr_RouteURL svc) ""
  then (StatusBlocked, "Deploy this public service first so Plorigo can create its generated domain.")
  else (StatusPendingDNS, "Add the shown DNS record at your DNS provider, then verify this domain.").

Definition sameDNSName (a b : string) : bool := EqualFold (TrimSuffix a ".") (TrimSuffix b ".").
Definition intersects (a b : list string) : bool := existsb (in_list a) b.

Section Names.
Context {N : Addresses} {R : Resolver}.
(** [hosts]: addresses in their canonical text, without repetition, sorted. *)
Fixpoint collect_hosts (seen : list string) (l : list string) : list string :=
  match l with
  | [] => []
  | h :: l' =>
      let h := default h (ParseIP_String h) in
      if String.eqb h "" || in_list seen h then collect_hosts seen l' else h :: collect_hosts (h :: seen) l'
  end.
Definition hosts (l : list string) : list string := isort String.leb (collect_hosts [] l).
Definition generatedHost (routeURL : string) : option string :=
  match Parse_Hostname routeURL with
  | None => None
  | Some h => if String.eqb h "" then None else Some (ToLower (TrimSuffix h "."))
  end.
Definition isApexDomain (host : string) : bool := bool_decide (EffectiveTLDPlusOne host = Some host).
End Names.

(** ** Statements *)
Definition domain_new (id : string) (c : Domain) (now : Z) : db_Domain :=
  mk_dm id (dom_ServiceID c) (dom_EnvironmentID c) (dom_ProjectID c) (dom_WorkspaceID c) (dom_Hostname c)
    (dom_Status c) (dom_StatusMessage c) None now now.
Definition domain_statuses : list string := ["blocked"; "pending_dns"; "verified"; "active"; "failed"].
Definition same_hostname (c : Domain) (r : db_Domain) : bool :=
  String.eqb (dm_WorkspaceID r) (dom_WorkspaceID c) && String.eqb (dm_Hostname r) (dom_Hostname c).
Definition sql_CreateDomain (c : Domain) (st : Stamp) (d : DB) : go_error + (db_Domain * DB) :=
  if existsb (same_hostname c) (domains d) then inl (ErrUnique "domains_workspace_id_hostname_key")
  else if has_key dm_ID (st_uuid st) (domains d) then inl (ErrUnique "domains_pkey")
  else if negb (in_list domain_statuses (dom_Status c)) then inl (ErrConstraint "domains_status_check")
  else if negb (has_key sv_ID (dom_ServiceID c) (services d) && has_key en_ID (dom_EnvironmentID c) (environments d) &&
                has_key pj_ID (dom_ProjectID c) (projects d) && has_key ws_ID (dom_WorkspaceID c) (workspaces d))
  then inl (ErrConstraint "domains_fkey")
  else let r := domain_new (st_uuid st) c (st_now st) in inr (r, set_domains (domains d ++ [r]) d).
Definition sql_GetDomain (id : string) (d : DB) : option db_Domain := lookup_by dm_ID id (domains d).
Definition sql_ListDomains (sel : db_Domain → bool) (d : DB) : list db_Domain := newest_first dm_CreatedAt (where_ sel (domains d)).
Definition sql_ListDomainsByService (serviceID : string) := sql_ListDomains (λ r, String.eqb (dm_ServiceID r) serviceID).
Definition sql_ListDomainsByProject (projectID : string) := sql_ListDomains (λ r, String.eqb (dm_ProjectID r) projectID).
Definition sql_ListDomainsByWorkspace (workspaceID : string) := sql_ListDomains (λ r, String.eqb (dm_WorkspaceID r) workspaceID).
Definition domain_checked (status message : string) (now : Z) (r : db_Domain) : db_Domain :=
  mk_dm (dm_ID r) (dm_ServiceID r) (dm_EnvironmentID r) (dm_ProjectID r) (dm_WorkspaceID r) (dm_Hostname r)
    status message (Some now) (dm_CreatedAt r) now.
Definition sql_UpdateDomainVerification (id status message : string) (st : Stamp) (d : DB) : go_error + (db_Domain * DB) :=
  match lookup_by dm_ID id (domains d) with
  | None => inl ErrNoRows
  | Some r =>
      if negb (in_list domain_statuses status) then inl (ErrConstraint "domains_status_check")
      else let f := domain_checked status message (st_now st) in
           inr (f r, set_domains (update_where (λ x, String.eqb (dm_ID x) id) f (domains d)) d)
  end.
Definition sql_DeleteDomain (id : string) (st : Stamp) (d : DB) : go_error + (string * DB) :=
  match lookup_by dm_ID id (domains d) with
  | None => inl ErrNoRows
  | Some r => inr (dm_ID r, set_domains (where_ (λ x, negb (String.eqb (dm_ID x) id)) (domains d)) d)
  end.
Definition sql_GetDomainServiceForCreate (id : string) (d : DB) : option db_Service := lookup_by sv_ID id (services d).
Definition sql_GetProject (id : string) (d : DB) : option db_Project := lookup_by pj_ID id (projects d).

(** ** The store (postgres.go) *)
Definition domainFromRow (r : db_Domain) : Domain :=
  mk_Domain (dm_ID r) (dm_ServiceID r) (dm_EnvironmentID r) (dm_ProjectID r) (dm_WorkspaceID r) (dm_Hostname r)
    (dm_Status r) (dm_StatusMessage r) "" "" "" (dm_CreatedAt r) (dm_UpdatedAt r) (dm_LastCheckedAt r).
Definition serviceRouteFromRow (r : db_Service) : ServiceRoute :=
  mk_ServiceRoute (sv_ID r) (sv_EnvironmentID r) (sv_ProjectID r) (sv_WorkspaceID r) (sv_Visibility r) (sv_RouteUrl r).

Section Store.
Context {E : Env}.
Definition store_CreateDomain (c : Domain) : M Domain :=
  on_err (λ e, if isUniqueViolation e then AlreadyExists "domain %q is already attached in this workspace" [AStr (dom_Hostname c)] else e)
    (row ← db_exec (sql_CreateDomain c); mret (domainFromRow row)).
Definition GetDomain (id : string) : M (option Domain) :=
  ok_or_norows (db_query_row (λ d, domainFromRow <$> sql_GetDomain id d)).
Definition store_ListByService (serviceID : string) : M (list Domain) :=
  db_query (λ d, map domainFromRow (sql_ListDomainsByService serviceID d)).
Definition store_ListByProject (projectID : string) : M (list Domain) :=
  db_query (λ d, map domainFromRow (sql_ListDomainsByProject projectID d)).
Definition store_ListByWorkspace (workspaceID : string) : M (list Domain) :=
  db_query (λ d, map domainFromRow (sql_ListDomainsByWorkspace workspaceID d)).
Definition UpdateVerification (id status message : string) : M Domain :=
  row ← db_exec (sql_UpdateDomainVerification id status message); mret (domainFromRow row).
Definition store_DeleteDomain (id : string) : M (option string) := ok_or_norows (db_exec (sql_DeleteDomain id)).
Definition store_ServiceRoute (serviceID : string) : M (option ServiceRoute) :=
  ok_or_norows (db_query_row (λ d, serviceRouteFromRow <$> sql_GetDomainServiceForCreate serviceID d)).
Definition store_WorkspaceForProject (projectID : string) : M (option string) :=
  ok_or_norows (db_query_row (λ d, pj_WorkspaceID <$> sql_GetProject projectID d)).
End Store.

(** ** The service (service.go) *)
Definition domain_resource (workspaceID id : string) : Resource := mk_Resource "domain" workspaceID id.

Section Service.
Context {E : Env} {A : Authorizer} {N : Addresses} {R : Resolver}.

(** A lookup never fails the request. *)
Definition lookup_host (host : string) : M (option (list string)) := port (λ n, inr (LookupHost n host)).
Definition lookup_cname (host : string) : M (option string) := port (λ n, inr (LookupCNAME n host)).

Definition resolveIPs (host : string) : M (list string) :=
  got ← lookup_host host; mret (match got with None => [] | Some l => hosts l end).

Definition enrichWithService (d : Domain) (svc : ServiceRoute) : M Domain :=
  let d := with_record d (dom_DNSRecordType d) (dom_DNSRecordValue d) in
  if String.eqb (sr_Visibility svc) "private" || String.eqb (sr_RouteURL svc) "" then mret d
  else
    match generatedHost (sr_RouteURL svc) with
    | None => mret d
    | Some target =>
        if isApexDomain (dom_Hostname d) then
          ips ← resolveIPs target;
          let value := Join ips ", " in
          mret (with_record d RecordA (if String.eqb value "" then target else value))
        else mret (with_record d RecordCNAME target)
    end.
Definition enrich (d : Domain) : M Domain :=
  svc ← try (store_ServiceRoute (dom_ServiceID d));
  match svc with
  | inr (Some svc) => enrichWithService d svc
  | _ => mret d
  end.
Fixpoint map_each {X Y} (f : X → M Y) (l : list X) : M (list Y) :=
  match l with
  | [] => mret []
  | x :: l' => y ← f x; ys ← map_each f l'; mret (y :: ys)
  end.
Definition enrichRows (rows : list Domain) : M (list Domain) := map_each enrich rows.

Definition verified : string * string :=
  (StatusVerified, "DNS is verified. The agent will activate this domain on the next route sync.").
Definition verify (d : Domain) (svc : ServiceRoute) : M (string * string) :=
  if String.eqb (sr_Visibility svc) "private"
  then mret (StatusBlocked, "Make the service public before attaching a custom domain.")
  else
    match generatedHost (sr_RouteURL svc) with
    | None => mret (StatusBlocked, "Deploy this public service first so Plorigo can create its generated domain.")
    | Some target =>
        if isApexDomain (dom_Hostname d) then
          got ← lookup_host (dom_Hostname d);
          match got with
          | None => mret (StatusPendingDNS, "DNS is not pointing here yet. Add the shown A/AAAA records, wait for propagation, then verify again.")
          | Some got =>
              want ← lookup_host target;
              match want with
              | Some (x :: want) =>
                  if intersects (hosts got) (hosts (x :: want)) then mret verified
                  else mret (StatusPendingDNS, "DNS is not pointing to this service yet. Update the shown A/AAAA records, then verify again.")
              | _ => mret (StatusPendingDNS, "Plorigo could not resolve the generated domain yet. Wait for the generated route to resolve, then verify again.")
              end
          end
        else
          cname ← lookup_cname (dom_Hostname d);
          match cname with
          | Some cname =>
              if sameDNSName cname target then mret verified
              else mret (StatusPendingDNS, "DNS is not pointing here yet. Add the shown CNAME record, wait for propagation, then verify again.")
          | None => mret (StatusPendingDNS, "DNS is not pointing here yet. Add the shown CNAME record, wait for propagation, then verify again.")
          end
    end.

Definition domainAndService (domainID : string) : M (Domain * ServiceRoute) :=
  d ← found "get domain" (GetDomain domainID) (NotFound "domain %s not found" [AStr domainID]);
  svc ← found "get domain" (store_ServiceRoute (dom_ServiceID d)) (NotFound "service %s not found" [AStr (dom_ServiceID d)]);
  mret (d, svc).

Definition new_domain (svc : ServiceRoute) (hostname : string) : Domain :=
  mk_Domain "" (sr_ID svc) (sr_EnvironmentID svc) (sr_ProjectID svc) (sr_WorkspaceID svc) hostname
    (fst (initialStatus svc)) (snd (initialStatus svc)) "" "" "" 0 0 None.

Definition CreateDomain (caller : Principal) (i : CreateInput) : M Domain :=
  _ ← require (id_Parse (cd_ServiceID i)) (InvalidInput "a valid service_id is required" []);
  hostname ← of_sum (normalizeHostname (cd_Hostname i));
  svc ← found "create domain" (store_ServiceRoute (cd_ServiceID i)) (NotFound "service %s not found" [AStr (cd_ServiceID i)]);
  _ ← Authorize caller ActionDomainCreate (domain_resource (sr_WorkspaceID svc) "");
  saved ← on_err (λ e, mapErr e "create domain") (within_tx
    (saved ← store_CreateDomain (new_domain svc hostname);
     _ ← audit_Record "domain.create" "domain" (dom_ID saved) (sr_WorkspaceID svc) (p_UserID caller);
     mret saved));
  enrich saved.

Definition ListByService (caller : Principal) (serviceID : string) : M (list Domain) :=
  _ ← require (id_Parse serviceID) (InvalidInput "a valid service_id is required" []);
  svc ← found "list domains" (store_ServiceRoute serviceID) (NotFound "service %s not found" [AStr serviceID]);
  _ ← Authorize caller ActionDomainRead (domain_resource (sr_WorkspaceID svc) "");
  rows ← wrap "list domains" (store_ListByService serviceID);
  map_each (λ d, enrichWithService d svc) rows.
Definition ListByProject (caller : Principal) (projectID : string) : M (list Domain) :=
  _ ← require (id_Parse projectID) (InvalidInput "a valid project_id is required" []);
  workspaceID ← found "list domains" (store_WorkspaceForProject projectID) (NotFound "project %s not found" [AStr projectID]);
  _ ← Authorize caller ActionDomainRead (domain_resource workspaceID "");
  rows ← wrap "list domains" (store_ListByProject projectID);
  enrichRows rows.
Definition ListByWorkspace (caller : Principal) (workspaceID : string) : M (list Domain) :=
  _ ← require (id_Parse workspaceID) (InvalidInput "a valid workspace_id is required" []);
  _ ← Authorize caller ActionDomainRead (domain_resource workspaceID "");
  rows ← wrap "list domains" (store_ListByWorkspace workspaceID);
  enrichRows rows.

Definition VerifyDomain (caller : Principal) (domainID : string) : M Domain :=
  _ ← require (id_Parse domainID) (InvalidInput "a valid domain id is required" []);
  ds ← domainAndService domainID;
  let '(d, svc) := ds in
  _ ← Authorize caller ActionDomainVerify (domain_resource (dom_WorkspaceID d) (dom_ID d));
  result ← verify d svc;
  let '(status, message) := result in
  saved ← on_err (λ e, mapErr e "verify domain") (within_tx
    (saved ← UpdateVerification (dom_ID d) status message;
     _ ← audit_Record "domain.verify" "domain" (dom_ID d) (dom_WorkspaceID d) (p_UserID caller);
     mret saved));
  enrichWithService saved svc.

Definition DeleteDomain (caller : Principal) (domainID : string) : M unit :=
  _ ← require (id_Parse domainID) (InvalidInput "a valid domain id is required" []);
  ds ← domainAndService domainID;
  let '(d, _) := ds in
  _ ← Authorize caller ActionDomainDelete (domain_resource (dom_WorkspaceID d) (dom_ID d));
  on_err (λ e, mapErr e "delete domain") (within_tx
    (deleted ← store_DeleteDomain (dom_ID d);
     match deleted with
     | None => fail (NotFound "domain %s not found" [AStr (dom_ID d)])
     | Some deletedID => audit_Record "domain.delete" "domain" deletedID (dom_WorkspaceID d) (p_UserID caller)
     end)).
End Service.
