(* ===== verification/DomainsProps.v ===== *)
(** * DomainsProps: a hostname is served only after DNS agreed

    The rules of the handlers of [Domains], the invariant of the domains table, and its
    way to the agent: what [Deployments.SyncRoutes] hands out was verified and is taken
    by the agent's router. *)
From S2P Require Import Prelude.
From S2P Require Import GoStrings.
From S2P Require Import GoUrl.
From S2P Require Import Problem.
From S2P Require Import Schema.
From S2P Require Import Platform.
From S2P Require Import Authz.
From S2P Require Import DeployNames.
From S2P Require Import DeployStore.
From S2P Require Import Deployments.
From S2P Require Import DeploySpec.
From S2P Require Import DeployHandlers.
From S2P Require Import DeploySystem.
From S2P Require Import Caddy.
From S2P Require Import CaddyProps.
From S2P Require Import Domains.

(** ** Hostnames *)
Record hostname_ok (h : string) : Prop := {
  host_labels : Forall label_ok (Split h ".");
  host_len : len h ≤ maxHostnameLen;
  host_dotted : (2 ≤ length (Split h "."))%nat;
}.

Lemma bad_rune_None l : bad_rune l = None ↔ Forall (λ c, is_label_byte c = true) l.
Proof.
  induction l as [|c l IH]; simpl; [by split; [constructor|]|]. change (is_host_rune c) with (is_label_byte c).
  destruct (is_label_byte c) eqn:Hc; [rewrite IH, Forall_cons; tauto|]. split; [done|]. intros H. inversion H. congruence.
Qed.
Lemma validateLabel_ok s : validateLabel s = None ↔ label_ok s.
Proof.
  unfold validateLabel. split.
  - destruct (String.eqb_spec s ""); [done|]. destruct (Z.ltb_spec 63 (len s)); [done|].
    destruct (bool_decide (head _ = _)) eqn:Hh; [done|]. destruct (bool_decide (last _ = _)) eqn:Hl; [done|].
    simpl. destruct (bad_rune _) eqn:Hf; [done|]. intros _. propify. apply bad_rune_None in Hf. by split.
  - intros [H1 H2 H3 H4 H5]. destruct (String.eqb_spec s ""); [done|]. destruct (Z.ltb_spec 63 (len s)); [lia|].
    rewrite !bool_decide_false by done. simpl. apply bad_rune_None in H3. by rewrite H3.
Qed.
Lemma domain_labels_ok ls : Domains.validate_labels ls = None ↔ Forall label_ok ls.
Proof.
  induction ls as [|l ls IH]; simpl; [by split; [constructor|]|]. rewrite Forall_cons, <- validateLabel_ok, <- IH.
  destruct (validateLabel l); split; try done; by intros [].
Qed.
Lemma caddy_labels_ok ls : Forall label_ok ls → Caddy.validate_labels ls = None.
Proof. induction 1 as [|l ls Hl _ IH]; [done|]. simpl. by rewrite (proj2 (validateDNSLabel_ok _ l) Hl). Qed.

Lemma hostname_bytes h : hostname_ok h → Forall (λ c, host_byte c = true) (bytes_of h).
Proof.
  intros [Hl _ _]. apply (split_bytes_Forall "."); [done|]. unfold Split in Hl.
  change (map str_of) with (fmap (M := list) str_of) in Hl. rewrite Forall_fmap in Hl.
  eapply Forall_impl; [exact Hl|]. intros w Hw. apply label_host_bytes in Hw. by rewrite bytes_of_str_of in Hw.
Qed.

(** No byte of [sub] that is not a host byte can be found. *)
Lemma contains_head_absent h c sub : Forall (λ c, host_byte c = true) (bytes_of h) → host_byte c = false →
  Contains h (String c sub) = false.
Proof.
  intros Hall Hc. unfold Contains. simpl. induction Hall as [|d l Hd _ IH]; [done|].
  cbn [contains_bytes strip_prefix]. destruct (Ascii.eqb_spec c d) as [->|]; [congruence|]. exact IH.
Qed.
Lemma contains_any_absent h chars : Forall (λ c, host_byte c = true) (bytes_of h) →
  forallb (λ c, negb (host_byte c)) (bytes_of chars) = true → ContainsAny h chars = false.
Proof.
  intros Hall Hc. unfold ContainsAny. apply not_true_iff_false. intros (c & Hin & Hx)%existsb_exists.
  rewrite Forall_forall in Hall. rewrite forallb_forall in Hc.
  unfold has_byte in Hx. apply existsb_exists in Hx as (x & Hx & ->%Ascii.eqb_eq).
  apply list_elem_of_In, Hall in Hx. apply Hc in Hin. by rewrite Hx in Hin.
Qed.
Lemma hostname_no_final_dot h : hostname_ok h → TrimSuffix h "." = h.
Proof.
  intros [Hl _ _]. unfold TrimSuffix. change (rev (bytes_of ".")) with ["."%char].
  destruct (strip_prefix ["."%char] (rev (bytes_of h))) as [r|] eqn:Hs; [|done]. apply strip_prefix_spec in Hs.
  assert (bytes_of h = rev r ++ "."%char :: []) as Hb by (by rewrite <- (rev_involutive (bytes_of h)), Hs).
  unfold Split in Hl. rewrite Hb, split_bytes_app in Hl. simpl in Hl. rewrite map_app in Hl. apply Forall_app in Hl as [_ Hl].
  inversion Hl as [|? ? Hx _]; subst. by destruct Hx.
Qed.
Lemma hostname_nonempty h : hostname_ok h → h ≠ "".
Proof. intros [_ _ Hd] ->. cbv in Hd. lia. Qed.

(** What the agent's router asks of a name. *)
Lemma hostname_routable h : hostname_ok h →
  validateDomainName h = None ∧ ToLower (TrimSpace (TrimSuffix h ".")) = h ∧ Contains h "*" = false.
Proof.
  intros Hok. pose proof (hostname_bytes h Hok) as Hb. split; [|split].
  - unfold validateDomainName. rewrite (proj2 (String.eqb_neq _ _) (hostname_nonempty h Hok)).
    destruct Hok as [Hl Hlen _]. unfold maxHostnameLen in Hlen.
    replace (253 <? len h) with false by (symmetry; apply Z.ltb_ge; lia). rewrite (contains_head_absent h ":" "//") by done.
    by apply caddy_labels_ok.
  - rewrite (hostname_no_final_dot h Hok). by apply host_normal.
  - by apply contains_head_absent.
Qed.

Lemma normalizeHostname_ok raw h : normalizeHostname raw = inr h → hostname_ok h.
Proof.
  unfold normalizeHostname. set (host := TrimSuffix _ ".").
  repeat (case_match; [done|]). intros [= <-]. split; [by apply domain_labels_ok| |].
  - match goal with H : (maxHostnameLen <? _) = false |- _ => apply Z.ltb_ge in H; exact H end.
  - match goal with H : (_ <? 2) = false |- _ => apply Z.ltb_ge in H; lia end.
Qed.

(** Normalising is idempotent, and what it returns needs no normalising. *)
Lemma hostname_normal h : hostname_ok h → normalizeHostname h = inr h.
Proof.
  intros Hok. pose proof (hostname_bytes h Hok) as Hb. unfold normalizeHostname.
  assert (ToLower h = h ∧ TrimSpace h = h) as [-> ->].
  { split; [|by apply host_trimmed]. unfold ToLower. by rewrite (lower_bytes_host _ Hb), str_of_bytes_of. }
  rewrite (hostname_no_final_dot h Hok), (proj2 (String.eqb_neq _ _) (hostname_nonempty h Hok)).
  rewrite (contains_head_absent h ":" "//"), (contains_any_absent h "/?#"), (contains_head_absent h ":" ""),
    (contains_head_absent h "*" "") by done.
  assert (HasPrefix h "*." = false) as ->.
  { unfold HasPrefix. destruct (strip_prefix _ _) as [r|] eqn:Hs; [|done]. apply strip_prefix_spec in Hs. rewrite Hs in Hb.
    inversion Hb. done. }
  destruct Hok as [Hl Hlen Hd]. replace (maxHostnameLen <? len h) with false by (symmetry; apply Z.ltb_ge; lia).
  replace (Z.of_nat (length (Split h ".")) <? 2) with false by (symmetry; apply Z.ltb_ge; lia).
  by rewrite (proj2 (domain_labels_ok _) Hl).
Qed.

(** The agent takes a list of hostnames as it is, once each. *)
Lemma custom_hosts_taken hs seen out : Forall hostname_ok hs →
  ∃ l, custom_hosts_loop hs seen out = inr (out ++ l) ∧ ∀ h, h ∈ l ↔ h ∈ hs ∧ h ∉ seen.
Proof.
  intros Hok. revert seen out. induction Hok as [|h hs Hh _ IH]; intros seen out; simpl.
  { exists []. rewrite app_nil_r. set_solver. }
  destruct (hostname_routable h Hh) as (Hv & Hnorm & Hstar).
  rewrite Hnorm, (proj2 (String.eqb_neq _ _) (hostname_nonempty h Hh)), Hstar, Hv. simpl.
  destruct (existsb (String.eqb h) seen) eqn:Hs.
  - destruct (IH seen out) as (l & Hl & Hin). exists l. split; [done|].
    assert (h ∈ seen) by by apply in_list_true. intros x. rewrite Hin. set_solver.
  - destruct (IH (h :: seen) (out ++ [h])) as (l & Hl & Hin). exists (h :: l). rewrite Hl, <- app_assoc. split; [done|].
    assert (h ∉ seen) as Hn by (rewrite <- in_list_true; unfold in_list; congruence).
    intros x. rewrite elem_of_cons, Hin, !elem_of_cons. destruct (decide (x = h)) as [->|]; tauto.
Qed.
Lemma normalizeCustomHosts_taken hs : Forall hostname_ok hs →
  ∃ l, normalizeCustomHosts hs = inr l ∧ ∀ h, h ∈ l ↔ h ∈ hs.
Proof.
  intros Hok. unfold normalizeCustomHosts. destruct (custom_hosts_taken hs [] [] Hok) as (l & -> & Hl).
  eexists. split; [done|]. intros h. rewrite isort_perm, app_nil_l, Hl. set_solver.
Qed.

(** ** What the handlers do *)
Section Rules.
Context {E : Env} {A : Authorizer} {N : Addresses} {R : Resolver}.

(** DNS sends [hostname] to the generated host of the service: an apex shares an address
    with it, any other name is a CNAME of it. *)
Definition points (hostname : string) (svc : ServiceRoute) : Prop :=
  sr_Visibility svc ≠ "private" ∧ ∃ target, generatedHost (sr_RouteURL svc) = Some target ∧
  if isApexDomain hostname
  then ∃ n m got want ip, LookupHost n hostname = Some got ∧ LookupHost m target = Some want ∧ ip ∈ hosts got ∧ ip ∈ hosts want
  else ∃ n cname, LookupCNAME n hostname = Some cname ∧ sameDNSName cname target = true.

Lemma intersects_spec a b : intersects a b = true → ∃ x, x ∈ a ∧ x ∈ b.
Proof. unfold intersects. intros (x & Hx & Ha)%existsb_exists. exists x. by rewrite <- in_list_true, list_elem_of_In. Qed.

Definition verify_outcome (d : Domain) (svc : ServiceRoute) (status : string) : Prop :=
  status = StatusBlocked ∨ status = StatusPendingDNS ∨ (status = StatusVerified ∧ points (dom_Hostname d) svc).

Lemma wp_verify d svc (Q : go_error + string * string → World → Prop) w :
  (∀ r w', w_db w' = w_db w → verify_outcome d svc (fst r) → Q (inr r) w') → wp (verify d svc) Q w.
Proof.
  intros Ha. unfold verify, lookup_host, lookup_cname, verify_outcome, points in *.
  destruct (String.eqb_spec (sr_Visibility svc) "private"); [by apply Ha; [|left]|].
  destruct (generatedHost (sr_RouteURL svc)) as [target|] eqn:Ht; [|by apply Ha; [|left]].
  destruct (isApexDomain (dom_Hostname d)) eqn:Hapex.
  - wp_step. wp_step. rename n0 into n1. destruct (LookupHost n1 (dom_Hostname d)) as [got|] eqn:Hg; [|by apply Ha; [|right; left]].
    wp_step. wp_step. destruct (LookupHost n0 target) as [[|x want]|] eqn:Hw; [apply wp_ret, Ha; [congruence|by right; left]| |apply wp_ret, Ha; [congruence|by right; left]].
    destruct (intersects _ _) eqn:Hi; [|apply wp_ret, Ha; [congruence|by right; left]]. apply wp_ret, Ha; [congruence|]. right; right. split; [done|]. split; [done|].
    exists target. split; [done|]. apply intersects_spec in Hi as (ip & H1 & H2). by exists n1, n0, got, (x :: want), ip.
  - wp_step. wp_step. rename n0 into n1. destruct (LookupCNAME n1 (dom_Hostname d)) as [cname|] eqn:Hc; [|by apply Ha; [|right; left]].
    destruct (sameDNSName cname target) eqn:Hs; [|by apply Ha; [|right; left]]. apply Ha; [done|]. right; right. split; [done|]. split; [done|].
    exists target. split; [done|]. by exists n1, cname.
Qed.

(** The row with DNS instructions added. *)
Definition instructed (d d' : Domain) : Prop := ∃ type value, d' = with_record d type value.

Lemma wp_enrichWithService d svc (Q : go_error + Domain → World → Prop) w :
  (∀ d' w', w_db w' = w_db w → instructed d d' → Q (inr d') w') → wp (enrichWithService d svc) Q w.
Proof.
  intros Ha. unfold enrichWithService, resolveIPs, lookup_host.
  assert (∀ w' t v, w_db w' = w_db w → Q (inr (with_record (with_record d (dom_DNSRecordType d) (dom_DNSRecordValue d)) t v)) w') as Hd
    by (intros w' t v Hw; apply Ha; [done|]; by exists t, v).
  destruct (_ || _); [by apply (Hd w (dom_DNSRecordType d) (dom_DNSRecordValue d))|].
  destruct (generatedHost _); [|by apply (Hd w (dom_DNSRecordType d) (dom_DNSRecordValue d))].
  destruct (isApexDomain _); [|by apply Hd]. do 4 wp_step. by apply Hd.
Qed.
Lemma wp_enrich d (Q : go_error + Domain → World → Prop) w :
  (∀ d' w', w_db w' = w_db w → (d' = d ∨ instructed d d') → Q (inr d') w') → wp (enrich d) Q w.
Proof.
  intros Ha. unfold enrich, store_ServiceRoute. do 3 wp_step; [by apply Ha; [|left]|].
  destruct (_ <$> _); [|by apply Ha; [|left]]. apply wp_enrichWithService. intros d' w1 Hw1 Hd. apply Ha; [congruence|by right].
Qed.
Lemma wp_map_each_with {X Y} (f : X → M Y) (Rel : X → Y → Prop) l (Q : go_error + list Y → World → Prop) w :
  (∀ x (Q : go_error + Y → World → Prop) w, (∀ y w', w_db w' = w_db w → Rel x y → Q (inr y) w') → wp (f x) Q w) →
  (∀ ys w', w_db w' = w_db w → Forall2 Rel l ys → Q (inr ys) w') → wp (map_each f l) Q w.
Proof.
  intros Hf. revert Q w. induction l as [|x l IH]; intros Q w Ha; simpl; [by apply Ha|].
  wp_step. apply Hf. intros y w1 Hw1 Hy. wp_step. apply IH. intros ys w2 Hw2 Hys. apply wp_ret, Ha; [congruence|by constructor].
Qed.
Lemma wp_map_each {X Y} (f : X → M Y) l (Q : go_error + list Y → World → Prop) w :
  (∀ x (Q : go_error + Y → World → Prop) w, (∀ y w', w_db w' = w_db w → Q (inr y) w') → wp (f x) Q w) →
  (∀ ys w', w_db w' = w_db w → Q (inr ys) w') → wp (map_each f l) Q w.
Proof. intros Hf Ha. apply (wp_map_each_with f (λ _ _, True)); auto. Qed.

Lemma wp_ServiceRoute op sid e (Q : go_error + ServiceRoute → World → Prop) w :
  (∀ e w', w_db w' = w_db w → Q (inl e) w') →
  (∀ s w', w_db w' = w_db w → lookup_by sv_ID sid (services (w_db w)) = Some s → Q (inr (serviceRouteFromRow s)) w') →
  wp (found op (store_ServiceRoute sid) e) Q w.
Proof.
  intros He Ha. unfold store_ServiceRoute. do 2 wp_step; [by apply He|].
  unfold sql_GetDomainServiceForCreate. destruct (lookup_by sv_ID sid _) as [s|] eqn:Hl; simpl; [by apply Ha|by apply He].
Qed.
Lemma wp_domainAndService id (Q : go_error + Domain * ServiceRoute → World → Prop) w :
  (∀ e w', w_db w' = w_db w → Q (inl e) w') →
  (∀ r s w', w_db w' = w_db w → lookup_by dm_ID id (domains (w_db w)) = Some r →
     lookup_by sv_ID (dm_ServiceID r) (services (w_db w)) = Some s → Q (inr (domainFromRow r, serviceRouteFromRow s)) w') →
  wp (domainAndService id) Q w.
Proof.
  intros He Ha. unfold domainAndService, GetDomain. wp_step. do 2 wp_step; [by apply He|].
  unfold sql_GetDomain. destruct (lookup_by dm_ID id _) as [r|] eqn:Hr; simpl; [|by apply He].
  wp_step. apply wp_ServiceRoute; [intros; apply He; congruence|]. intros s w1 Hw1 Hs. apply wp_ret, Ha; [congruence|done|].
  simpl in Hs. congruence.
Qed.

(** What each writing request did. *)
Record domain_created (c : Principal) (i : CreateInput) (row : db_Domain) (d d' : DB) : Prop := {
  dcr_written : ∃ svc n now, lookup_by sv_ID (cd_ServiceID i) (services d) = Some svc ∧
    normalizeHostname (cd_Hostname i) = inr (dm_Hostname row) ∧
    row = domain_new (uuid_at n) (new_domain (serviceRouteFromRow svc) (dm_Hostname row)) now ∧
    allows c ActionDomainCreate (domain_resource (sv_WorkspaceID svc) "") d;
  dcr_new : (∀ m, m ∈ domains d → dm_ID m ≠ dm_ID row) ∧
    (∀ m, m ∈ domains d → (dm_WorkspaceID m, dm_Hostname m) ≠ (dm_WorkspaceID row, dm_Hostname row));
  dcr_audited : audited "domain.create" "domain" (dm_ID row) (dm_WorkspaceID row) (p_UserID c)
    (set_domains (domains d ++ [row]) d) d';
}.
Record domain_verified (c : Principal) (id : string) (row : db_Domain) (d d' : DB) : Prop := {
  dvr_row : lookup_by dm_ID id (domains d) = Some row;
  dvr_allowed : allows c ActionDomainVerify (domain_resource (dm_WorkspaceID row) id) d;
  dvr_written : ∃ svc status msg now, lookup_by sv_ID (dm_ServiceID row) (services d) = Some svc ∧
    verify_outcome (domainFromRow row) (serviceRouteFromRow svc) status ∧
    audited "domain.verify" "domain" id (dm_WorkspaceID row) (p_UserID c)
      (set_domains (update_where (λ x, String.eqb (dm_ID x) id) (domain_checked status msg now) (domains d)) d) d';
}.
Record domain_deleted (c : Principal) (id : string) (row : db_Domain) (d d' : DB) : Prop := {
  ddl_row : lookup_by dm_ID id (domains d) = Some row;
  ddl_allowed : allows c ActionDomainDelete (domain_resource (dm_WorkspaceID row) id) d;
  ddl_audited : audited "domain.delete" "domain" id (dm_WorkspaceID row) (p_UserID c)
    (set_domains (where_ (λ x, negb (String.eqb (dm_ID x) id)) (domains d)) d) d';
}.

Lemma sql_CreateDomain_inr svc h st d r d' :
  sql_CreateDomain (new_domain svc h) st d = inr (r, d') →
  r = domain_new (st_uuid st) (new_domain svc h) (st_now st) ∧ d' = set_domains (domains d ++ [r]) d ∧
  (∀ m, m ∈ domains d → dm_ID m ≠ dm_ID r) ∧
  (∀ m, m ∈ domains d → (dm_WorkspaceID m, dm_Hostname m) ≠ (dm_WorkspaceID r, dm_Hostname r)).
Proof.
  unfold sql_CreateDomain. destruct (existsb _ _) eqn:Hx; [done|]. destruct (has_key dm_ID _ _) eqn:Hk; [done|].
  do 2 (case_match; [done|]). intros [= <- <-]. split; [done|]. split; [done|]. split.
  - intros m Hm Heq. apply has_key_false in Hk. apply Hk. apply list_elem_of_fmap. by exists m.
  - intros m Hm [= H1 H2]. apply not_true_iff_false in Hx. apply Hx, existsb_exists. exists m.
    rewrite <- list_elem_of_In. split; [done|]. unfold same_hostname. simpl. by rewrite H1, H2, !String.eqb_refl.
Qed.

Lemma wp_CreateDomain c i (Q : go_error + Domain → World → Prop) w :
  (∀ e w', w_db w' = w_db w → Q (inl e) w') →
  (∀ row d' w', domain_created c i row (w_db w) (w_db w') → (d' = domainFromRow row ∨ instructed (domainFromRow row) d') → Q (inr d') w') →
  wp (CreateDomain c i) Q w.
Proof.
  intros He Ha. unfold CreateDomain. do 2 wp_step; [|by apply He]. do 2 wp_step.
  destruct (normalizeHostname (cd_Hostname i)) as [e|h] eqn:Hh; [by apply He|].
  wp_step. apply wp_ServiceRoute; [by apply He|]. intros svc w1 Hw1 Hsvc.
  wp_step. apply wp_Authorize; [intros; apply He; congruence|]. intros w2 Hw2 Hal. world_eq.
  do 3 wp_step; [apply He; congruence|]. rename w0 into w3.
  unfold store_CreateDomain. do 3 wp_step. apply wp_exec_uuid; [done|]. intros n st r w4 Hu Hc. do 2 wp_step.
  apply wp_audit_Record; [done|]. intros w5 Haud. wp_step. intros w6 Hw6.
  apply wp_enrich. intros d' w7 Hw7 Hd. apply sql_CreateDomain_inr in Hc as (Hr & Hdb & H1 & H2).
  assert (dm_Hostname r = h) as Hrh by by rewrite Hr. assert (w_db w3 = w_db w) as Hw3 by congruence.
  assert (dm_WorkspaceID r = sv_WorkspaceID svc) as Hrw by by rewrite Hr.
  apply (Ha r); [|done]. rewrite Hw3 in *. split.
  - exists svc, n, (st_now st). rewrite Hrh, <- Hu. split; [congruence|]. split; [done|]. split; [done|]. exact Hal.
  - done.
  - rewrite Hw7, Hw6, <- Hdb, Hrw. exact Haud.
Qed.

Lemma wp_VerifyDomain c id (Q : go_error + Domain → World → Prop) w :
  (∀ e w', w_db w' = w_db w → Q (inl e) w') →
  (∀ row d' w', domain_verified c id row (w_db w) (w_db w') → Q (inr d') w') →
  wp (VerifyDomain c id) Q w.
Proof.
  intros He Ha. unfold VerifyDomain. do 2 wp_step; [|by apply He].
  wp_step. apply wp_domainAndService; [by apply He|]. intros r s w1 Hw1 Hr Hs. cbv beta iota.
  assert (dm_ID r = id) as Hid by by apply lookup_by_Some in Hr as [_ ?].
  wp_step. apply wp_Authorize; [intros; apply He; congruence|]. intros w2 Hw2 Hal. world_eq.
  wp_step. apply wp_verify. intros [status msg] w3 Hw3 Hout. cbv beta iota.
  do 3 wp_step; [apply He; congruence|]. rename w0 into w4.
  unfold UpdateVerification. do 3 wp_step; [done|]. rename a into r', w' into w5.
  do 2 wp_step. apply wp_audit_Record; [done|]. intros w6 Haud. wp_step. intros w7 Hw7.
  apply wp_enrichWithService. intros d' w8 Hw8 _. apply (Ha r).
  assert (w_db w4 = w_db w) as Hw4 by congruence.
  match goal with H : sql_UpdateDomainVerification _ _ _ _ _ = _ |- _ => unfold sql_UpdateDomainVerification in H; rename H into Hup end.
  simpl in Hup, Haud. rewrite Hid, Hw4 in *. rewrite Hr in Hup. case_match; [done|]. injection Hup as _ Hdb.
  split; [done|simpl in Hal; congruence|]. exists s, status, msg, (st_now st). split; [done|]. split; [done|].
  rewrite Hdb, Hw8, Hw7. exact Haud.
Qed.

Lemma wp_DeleteDomain c id (Q : go_error + unit → World → Prop) w :
  (∀ e w', w_db w' = w_db w → Q (inl e) w') →
  (∀ row w', domain_deleted c id row (w_db w) (w_db w') → Q (inr tt) w') →
  wp (DeleteDomain c id) Q w.
Proof.
  intros He Ha. unfold DeleteDomain. do 2 wp_step; [|by apply He].
  wp_step. apply wp_domainAndService; [by apply He|]. intros r s w1 Hw1 Hr Hs. cbv beta iota.
  assert (dm_ID r = id) as Hid by by apply lookup_by_Some in Hr as [_ ?].
  wp_step. apply wp_Authorize; [intros; apply He; congruence|]. intros w2 Hw2 Hal. world_eq.
  do 2 wp_step; [apply He; congruence|]. rename w0 into w4.
  unfold store_DeleteDomain. wp_step. apply wp_exec_opt; [done|by intros; apply wp_fail|].
  intros st del w5 Hdel. unfold sql_DeleteDomain in Hdel. simpl in *. rewrite Hid in *.
  assert (w_db w4 = w_db w) as Hw4 by congruence. rewrite Hw4, Hr in Hdel. injection Hdel as <- Hdb.
  apply wp_audit_Record; [done|]. intros w6 Haud w7 Hw7. apply (Ha r). split; [done|congruence|].
  rewrite Hdb, Hw7. by rewrite Hid in Haud.
Qed.
End Rules.
