(* ===== verification/DomainsSystem.v ===== *)
(** * DomainsSystem: a hostname is served only after DNS agreed

    The requests of the domains module, the invariant of its table, and its way to the
    agent: over any run of the domains and deployments modules, every hostname that
    [Deployments.SyncRoutes] hands out was verified for its service on the way, and the
    agent's router takes the list as it is. *)
From S2P Require Import Prelude.
From S2P Require Import GoStrings.
From S2P Require Import GoUrl.
From S2P Require Import Problem.
From S2P Require Import Schema.
From S2P Require Import Platform.
From S2P Require Import Authz.
From S2P Require Import DeployStore.
From S2P Require Import Deployments.
From S2P Require Import DeploySpec.
From S2P Require Import DeployHandlers.
From S2P Require Import DeployInv.
From S2P Require Import DeploySystem.
From S2P Require Import BackupSystem.
From S2P Require Import BackupProps.
From S2P Require Import Caddy.
From S2P Require Import Config.
From S2P Require Import ConfigProps.
From S2P Require Import Services.
From S2P Require Import ServicesSpec.
From S2P Require Import ServicesProps.
From S2P Require Import Domains.
From S2P Require Import DomainsProps.

(** ** Requests *)
Inductive DomainRequest :=
  | DCreate (i : CreateInput) | DVerify (id : string) | DDelete (id : string)
  | DListByService (id : string) | DListByProject (id : string) | DListByWorkspace (id : string).

(** The invariant of the table. *)
Definition domain_key (m : db_Domain) : string * string := (dm_WorkspaceID m, dm_Hostname m).
Definition domain_home (d : DB) (m : db_Domain) : Prop :=
  ∃ s, s ∈ services d ∧ sv_ID s = dm_ServiceID m ∧ sv_WorkspaceID s = dm_WorkspaceID m.
Record dwf (d : DB) : Prop := {
  dwf_ids : NoDup (map dm_ID (domains d));
  dwf_unique : NoDup (map domain_key (domains d));
  dwf_names : Forall (λ m, hostname_ok (dm_Hostname m)) (domains d);
  dwf_home : Forall (domain_home d) (domains d);
  dwf_services : NoDup (map sv_ID (services d));
}.

(** What no write changes in a row. *)
Definition dm_core (m : db_Domain) : string * string * string * string * string * string :=
  (dm_ID m, dm_ServiceID m, dm_EnvironmentID m, dm_ProjectID m, dm_WorkspaceID m, dm_Hostname m).

Lemma Forall_core {X C} (f : X → C) (P : X → Prop) (l l' : list X) :
  (∀ x y, f x = f y → P x → P y) → map f l' = map f l → Forall P l → Forall P l'.
Proof.
  intros Hf Hm HP. apply Forall_forall. intros y Hy. symmetry in Hm. destruct (elem_of_map_core _ _ _ _ Hm Hy) as (x & Hx & Heq).
  apply (Hf x); [done|]. by apply (proj1 (Forall_forall _ _) HP).
Qed.
Lemma domain_home_mono d d' m : map sv_core (services d') = map sv_core (services d) → domain_home d m → domain_home d' m.
Proof.
  intros Hs (s & Hin & H1 & H2). destruct (elem_of_map_core _ _ _ _ Hs Hin) as (s' & Hin' & Hc).
  injection Hc as Hc1 Hc2. exists s'. by rewrite Hc1, Hc2.
Qed.
(** Rows that kept their columns, under services that kept theirs. *)
Lemma dwf_core d d' :
  map dm_core (domains d') = map dm_core (domains d) → map sv_core (services d') = map sv_core (services d) → dwf d → dwf d'.
Proof.
  intros Hd Hs [D1 D2 D3 D4 D5]. split.
  - by rewrite (map_core dm_core (λ c, c.1.1.1.1.1) _ _ Hd : map dm_ID _ = map dm_ID _).
  - by rewrite (map_core dm_core (λ c, (c.1.2, c.2)) _ _ Hd : map domain_key _ = map domain_key _).
  - eapply (Forall_core dm_core); [|exact Hd|exact D3]. intros x y [= _ _ _ _ _ ->]. done.
  - eapply Forall_impl; [|intros m; apply (domain_home_mono d d' m Hs)].
    eapply (Forall_core dm_core); [|exact Hd|exact D4]. intros x y [= _ Hsv _ _ Hws _] (s & Hin & H1 & H2). exists s. by rewrite <- Hsv, <- Hws.
  - by rewrite (map_core sv_core fst _ _ Hs : map sv_ID _ = map sv_ID _).
Qed.

(** Another module's step: rows may go with their service, none is added or changed. *)
Record keeps_domains (d d' : DB) : Prop := {
  kd_rows : ∃ p, domains d' = where_ p (domains d);
  kd_home : ∀ m, m ∈ domains d' → domain_home d m → domain_home d' m;
  kd_services : NoDup (map sv_ID (services d'));
}.
Lemma kd_sub d d' m : keeps_domains d d' → m ∈ domains d' → m ∈ domains d.
Proof. intros [(p & Hp) _ _]. rewrite Hp. by intros [? _]%elem_of_where. Qed.
Lemma dwf_keeps d d' : keeps_domains d d' → dwf d → dwf d'.
Proof.
  intros K [D1 D2 D3 D4 D5]. pose proof (kd_sub d d') as Hsub. destruct K as [(p & Hp) K2 K3].
  assert (keeps_domains d d') as K by (split; [by exists p|done|done]). split; [| | | |done].
  - rewrite Hp. by apply NoDup_map_where.
  - rewrite Hp. by apply NoDup_map_where.
  - apply Forall_forall. intros m Hm. apply (proj1 (Forall_forall _ _) D3). by apply Hsub.
  - apply Forall_forall. intros m Hm. apply K2; [done|]. apply (proj1 (Forall_forall _ _) D4). by apply Hsub.
Qed.

Section System.
Context {E : Env} {A : Authorizer} {N : Addresses} {R : Resolver}.

Definition handle_domain (c : Principal) (q : DomainRequest) : M unit :=
  match q with
  | DCreate i => discard (CreateDomain c i)
  | DVerify id => discard (VerifyDomain c id)
  | DDelete id => DeleteDomain c id
  | DListByService id => discard (ListByService c id)
  | DListByProject id => discard (ListByProject c id)
  | DListByWorkspace id => discard (ListByWorkspace c id)
  end.

(** What a successful request did, and that it was allowed. *)
Definition domain_effect (c : Principal) (q : DomainRequest) (d d' : DB) : Prop :=
  match q with
  | DCreate i => ∃ row, domain_created c i row d d'
  | DVerify id => ∃ row, domain_verified c id row d d'
  | DDelete id => ∃ row, domain_deleted c id row d d'
  | _ => d' = d ∧ ∃ ws, allows c ActionDomainRead (domain_resource ws "") d
  end.

Lemma wp_handle_domain c q w :
  wp (handle_domain c q) (λ r w', match r with inl _ => w_db w' = w_db w | inr _ => domain_effect c q (w_db w) (w_db w') end) w.
Proof.
  destruct q as [i|id|id|id|id|id]; simpl; try apply wp_discard.
  - apply wp_CreateDomain; [done|]. intros row d' w' H _. by exists row.
  - apply wp_VerifyDomain; [done|]. intros row d' w' H. by exists row.
  - apply wp_DeleteDomain; [done|]. intros row w' H. by exists row.
  - unfold ListByService. do 2 wp_step; [|done]. wp_step. apply wp_ServiceRoute; [done|]. intros s w1 Hw1 Hs.
    wp_step. apply wp_Authorize; [intros; congruence|]. intros w2 Hw2 Hal. wp_step. unfold store_ListByService.
    do 2 wp_step; [congruence|]. apply wp_map_each.
    + intros x Q w3 Hx. apply wp_enrichWithService. intros. by apply Hx.
    + intros ys w3 Hw3. split; [congruence|]. exists (sr_WorkspaceID (serviceRouteFromRow s)). congruence.
  - unfold ListByProject, store_WorkspaceForProject. do 2 wp_step; [|done]. wp_step. do 2 wp_step; [done|].
    destruct (_ <$> _) as [ws|]; [|done].
    wp_step. apply wp_Authorize; [intros; congruence|]. intros w2 Hw2 Hal. wp_step. unfold store_ListByProject.
    do 2 wp_step; [congruence|]. apply wp_map_each.
    + intros x Q w3 Hx. apply wp_enrich. intros. by apply Hx.
    + intros ys w3 Hw3. split; [congruence|]. exists ws. congruence.
  - unfold ListByWorkspace. do 2 wp_step; [|done].
    wp_step. apply wp_Authorize; [intros; congruence|]. intros w2 Hw2 Hal. wp_step. unfold store_ListByWorkspace.
    do 2 wp_step; [congruence|]. apply wp_map_each.
    + intros x Q w3 Hx. apply wp_enrich. intros. by apply Hx.
    + intros ys w3 Hw3. split; [congruence|]. by exists id.
Qed.

Lemma dwf_audited a ty ti ws ac d d' : audited a ty ti ws ac d d' → dwf d → dwf d'.
Proof. intros (row & -> & _). by apply dwf_core. Qed.

Lemma dwf_effect c q d d' : domain_effect c q d d' → dwf d → dwf d'.
Proof.
  destruct q as [i|id|id|id|id|id]; simpl.
  - intros (row & [(svc & n & now & Hs & Hn & Hrow & _) [H1 H2] Haud]) [D1 D2 D3 D4 D5]. eapply dwf_audited; [exact Haud|].
    assert (domain_home d row) as Hh.
    { rewrite Hrow. apply lookup_by_Some in Hs as [Hin _]. by exists svc. }
    split; simpl; [by apply NoDup_map_snoc|by apply NoDup_map_snoc| | |done].
    + apply Forall_app. split; [done|]. constructor; [|done]. by eapply normalizeHostname_ok.
    + apply Forall_app. split; [done|]. by constructor.
  - intros (row & [_ _ (svc & st & msg & now & _ & _ & Haud)]) D. eapply dwf_audited; [exact Haud|].
    apply (dwf_core d); [|done|done]. simpl. by apply map_update_where.
  - intros (row & [_ _ Haud]) D. eapply dwf_audited; [exact Haud|]. apply (dwf_keeps d); [|done].
    split; [by eexists|done|apply D].
  - by intros [-> _].
  - by intros [-> _].
  - by intros [-> _].
Qed.

(** The domains module through any request. The invariant of its table is kept (ids
    unique, a hostname once per workspace, every hostname a valid dotted name within the
    DNS limits, every row in its service's workspace); a failed request changes nothing;
    a successful one was allowed in the workspace it touches, did exactly its one effect
    and audited it. In particular a row is created pending or blocked, and verifying one
    makes it verified only when DNS points its hostname at its service. *)
Theorem domain_requests_safe c q r w w' :
  dwf (w_db w) → handle_domain c q w = (r, w') →
  dwf (w_db w') ∧
  match r with
  | inl _ => w_db w' = w_db w
  | inr _ => domain_effect c q (w_db w) (w_db w')
  end.
Proof.
  intros W H. pose proof (wp_run _ _ _ _ _ (wp_handle_domain c q w) H) as He. simpl in He.
  destruct r as [e|[]]; [by rewrite He|]. split; [by eapply dwf_effect|done].
Qed.

(** ** Runs *)

(** One step: a request of this module, a request of the deployments module (dashboard,
    agent or system), or a step of a module that adds no domain. *)
Inductive step (w w' : World) : Prop :=
  | step_domains c q : w' = snd (handle_domain c q w) → step w w'
  | step_deployments r : w' = snd (handle r w) → step w w'
  | step_others : keeps_domains (w_db w) (w_db w') → step w w'.

(** [run w0 past w]: [w] is reached from [w0] through the databases [past], latest first. *)
Inductive run (w0 : World) : list DB → World → Prop :=
  | run_start : run w0 [] w0
  | run_step past w w' : run w0 past w → step w w' → run w0 (w_db w :: past) w'.

(** A row of a status that says it is, was or is about to be served. *)
Definition served (m : db_Domain) : Prop := dm_Status m ∈ [StatusVerified; StatusActive; StatusFailed].
(** In [d] somebody allowed to verified the hostname for the service, and DNS agreed. *)
Definition proved_in (d : DB) (service hostname : string) : Prop :=
  ∃ c m svc, m ∈ domains d ∧ dm_ServiceID m = service ∧ dm_Hostname m = hostname ∧
    lookup_by sv_ID service (services d) = Some svc ∧
    allows c ActionDomainVerify (domain_resource (dm_WorkspaceID m) (dm_ID m)) d ∧
    points hostname (serviceRouteFromRow svc).
Definition proved (past : list DB) (m : db_Domain) : Prop :=
  served m → ∃ d, d ∈ past ∧ proved_in d (dm_ServiceID m) (dm_Hostname m).

Lemma proved_more d past m : proved past m → proved (d :: past) m.
Proof. intros H (x & Hx & Hp)%H. exists x. split; [by right|done]. Qed.
Lemma proved_synced past m m' : dm_route_synced m m' → proved past m → proved past m'.
Proof. intros [->|(Hs & st & msg & now & _ & ->)] H; [done|]. intros _. by apply H. Qed.

Lemma deploy_keeps_dwf d d' : deploy_keeps d d' → dwf d → dwf d'.
Proof.
  intros (_ & _ & _ & Hs%static_core & Hd). apply dwf_core; [|done].
  induction Hd as [|m m' l l' Hm _ IH]; [done|]. simpl. rewrite IH. by destruct Hm as [->|(_ & st & msg & now & _ & ->)].
Qed.

(** The invariant of a run, through each kind of step. *)
Definition run_ok (past : list DB) (d : DB) : Prop := dwf d ∧ Forall (proved past) (domains d).

Lemma initial_unserved svc h id now : ¬ served (domain_new id (new_domain svc h) now).
Proof.
  unfold served, domain_new, new_domain, initialStatus. simpl.
  destruct (String.eqb _ "private"); [|destruct (String.eqb _ "")]; simpl; set_solver.
Qed.

Lemma run_ok_effect c q past d d' : domain_effect c q d d' → run_ok past d → run_ok (d :: past) d'.
Proof.
  intros He [D HP]. split; [by eapply dwf_effect|].
  assert (Forall (proved (d :: past)) (domains d)) as HP' by (eapply Forall_impl; [exact HP|]; intros; by apply proved_more).
  destruct q as [i|id|id|id|id|id]; simpl in He; try (by destruct He as [-> _]).
  - destruct He as (row & [(svc & n & now & _ & _ & Hrow & _) _ (au & -> & _)]). simpl. apply Forall_app. split; [done|].
    constructor; [|done]. rewrite Hrow. by intros ?%initial_unserved.
  - destruct He as (row & [Hl Hal (svc & st & msg & now & Hs & Hout & (au & -> & _))]). simpl.
    apply Forall_forall. intros m' Hm'. apply elem_of_update_where in Hm' as (m & Hm & ->).
    destruct (String.eqb_spec (dm_ID m) id) as [Hid|]; [|by apply (proj1 (Forall_forall _ _) HP')]. intros Hserved.
    pose proof (lookup_by_unique dm_ID _ _ (dwf_ids _ D) Hm) as Hlm. rewrite Hid, Hl in Hlm. injection Hlm as ->.
    destruct Hout as [->|[->|[-> Hpt]]]; [exfalso; unfold served in Hserved; simpl in Hserved; set_solver..|].
    exists d. split; [left|]. exists c, m, svc. by rewrite Hid.
  - destruct He as (row & [_ _ (au & -> & _)]). simpl. apply Forall_forall. intros m [Hm _]%elem_of_where.
    by apply (proj1 (Forall_forall _ _) HP').
Qed.

Lemma run_ok_step past w w' : step w w' → run_ok past (w_db w) → run_ok (w_db w :: past) (w_db w').
Proof.
  intros Hst H. pose proof H as [D HP].
  assert (run_ok (w_db w :: past) (w_db w)) as Hsame.
  { split; [done|]. eapply Forall_impl; [exact HP|]. intros; by apply proved_more. }
  destruct Hst as [c q ->|r ->|K].
  - pose proof (wp_handle_domain c q w) as Hq. unfold wp in Hq. destruct (handle_domain c q w) as [[e|[]] w']; simpl in *.
    + by rewrite Hq.
    + by eapply run_ok_effect.
  - pose proof (wp_deploy_keeps r w) as Hk. unfold wp in Hk. split; [by eapply deploy_keeps_dwf|].
    destruct Hk as (_ & _ & _ & _ & Hds), Hsame as [_ HP']. apply Forall_forall. intros m' Hm'.
    destruct (Forall2_elem_r _ _ _ _ Hds Hm') as (m & Hm & Hs). eapply proved_synced; [exact Hs|].
    by apply (proj1 (Forall_forall _ _) HP').
  - split; [by eapply dwf_keeps|]. destruct Hsame as [_ HP']. apply Forall_forall. intros m Hm.
    apply (proj1 (Forall_forall _ _) HP'). by eapply kd_sub.
Qed.

Lemma run_ok_run w0 past w :
  dwf (w_db w0) → Forall (λ m, ¬ served m) (domains (w_db w0)) → run w0 past w → run_ok past (w_db w).
Proof.
  intros D H0. induction 1 as [|past w w' _ IH Hst]; [|by eapply run_ok_step].
  split; [done|]. eapply Forall_impl; [exact H0|]. by intros m Hm ?%Hm.
Qed.

(** C9: A hostname reaches an agent only after DNS agreed. Over any run that starts
    without served domains, every hostname the control plane hands an agent belongs to a
    service deployed on that agent's server, and at some earlier moment of the run a
    caller allowed to verify it had DNS point it at the generated host of that very
    service. Route-sync reports, which mark domains active or failed, cannot make an
    unverified hostname served. *)
Theorem served_hostnames_proved w0 past w i out w' :
  dwf (w_db w0) → Forall (λ m, ¬ served m) (domains (w_db w0)) → run w0 past w →
  SyncRoutes i w = (inr out, w') →
  ∀ o h, o ∈ out → h ∈ ro_Hostnames o →
    (∃ srv dep, authenticated (sri_AgentID i) (sri_Credential i) srv (w_db w) ∧
       dep ∈ deployments (w_db w) ∧ dp_ServerID dep = srv ∧ dp_ServiceID dep = ro_ServiceID o) ∧
    (∃ d, d ∈ past ∧ proved_in d (ro_ServiceID o) h).
Proof.
  intros D H0 Hrun H. destruct (run_ok_run _ _ _ D H0 Hrun) as [Dw HP]. use_wp H.
  apply wp_SyncRoutes; [done|]. intros srv out' w1 _ Hauth _ Hov [= ->] o h Ho Hh.
  pose proof (proj1 (Forall_forall _ _) Hov o Ho) as ((r & Hr & Hrid & Hc) & _ & Hall).
  apply Hall in Hh as (m & Hm & Hmid & Hmh & Hst). split.
  - destruct Hc as (_ & dep & Hdep%lookup_by_Some & Hsrv & Hsid). exists srv, dep. naive_solver congruence.
  - rewrite <- Hmh, <- Hmid. apply (proj1 (Forall_forall _ _) HP m Hm). unfold served. set_solver.
Qed.

(** Two services of one server have no hostname in common. *)
Lemma override_workspace d srv routes o h :
  wf d → dwf d → override_ok d srv routes o → h ∈ ro_Hostnames o →
  ∃ m v, m ∈ domains d ∧ dm_ServiceID m = ro_ServiceID o ∧ dm_Hostname m = h ∧
    v ∈ servers d ∧ srv_ID v = srv ∧ srv_WorkspaceID v = dm_WorkspaceID m.
Proof.
  intros W D ((r & Hr & Hrid & _ & dep & [Hdep _]%lookup_by_Some & Hsrv & Hsid) & _ & Hall) (m & Hm & Hmid & Hmh & _)%Hall.
  pose proof (proj1 (Forall_forall _ _) (wf_deployments _ W) dep Hdep) as [_ [(s & Hs & Hs1 & Hs2) (v & Hv & Hv1 & Hv2)] _ _].
  destruct (proj1 (Forall_forall _ _) (dwf_home _ D) m Hm) as (s' & Hs' & Hs1' & Hs2').
  pose proof (lookup_by_unique sv_ID _ _ (dwf_services _ D) Hs) as L1. pose proof (lookup_by_unique sv_ID _ _ (dwf_services _ D) Hs') as L2.
  assert (s' = s) as -> by congruence. exists m, v. repeat (split; [congruence || done|]). congruence.
Qed.

(** What the control plane hands an agent, its router takes whole. Every list of
    hostnames passes the agent's own normalisation with nothing dropped or rewritten,
    and no two services share a hostname, so no claim of the router fails. *)
Theorem overrides_routable w i out w' :
  wf (w_db w) → dwf (w_db w) → SyncRoutes i w = (inr out, w') →
  (∀ o, o ∈ out → ∃ l, normalizeCustomHosts (ro_Hostnames o) = inr l ∧ ∀ h, h ∈ l ↔ h ∈ ro_Hostnames o) ∧
  (∀ o o' h, o ∈ out → o' ∈ out → h ∈ ro_Hostnames o → h ∈ ro_Hostnames o' → ro_ServiceID o = ro_ServiceID o').
Proof.
  intros W D H. use_wp H. apply wp_SyncRoutes; [done|]. intros srv out' w1 _ _ _ Hov [= ->].
  pose proof (proj1 (Forall_forall _ _) Hov) as Hok. split.
  - intros o Ho. apply normalizeCustomHosts_taken, Forall_forall. intros h Hh.
    destruct (override_workspace _ _ _ _ _ W D (Hok o Ho) Hh) as (m & v & Hm & _ & <- & _).
    by apply (proj1 (Forall_forall _ _) (dwf_names _ D)).
  - intros o o' h Ho Ho' Hh Hh'.
    destruct (override_workspace _ _ _ _ _ W D (Hok o Ho) Hh) as (m & v & Hm & Hs & Hn & Hv & Hi & Hw).
    destruct (override_workspace _ _ _ _ _ W D (Hok o' Ho') Hh') as (m' & v' & Hm' & Hs' & Hn' & Hv' & Hi' & Hw').
    pose proof (lookup_by_unique srv_ID _ _ (wf_server_ids _ W) Hv). pose proof (lookup_by_unique srv_ID _ _ (wf_server_ids _ W) Hv').
    assert (m = m') as <-; [|congruence]. eapply (NoDup_map_inj domain_key); [apply (dwf_unique _ D)|done|done|]. unfold domain_key. congruence.
Qed.
End System.

(** ** The requests of the services module are such steps *)
Lemma keeps_domains_same d d' :
  domains d' = domains d → map sv_core (services d') = map sv_core (services d) → NoDup (map sv_ID (services d')) → keeps_domains d d'.
Proof.
  intros Hd Hs Hn. split; [|intros m _; by apply domain_home_mono|done].
  exists (λ _, true). rewrite Hd. unfold where_. clear. induction (domains d) as [|m l IH]; [done|]. simpl. by f_equal.
Qed.
Lemma keeps_domains_more d d' row :
  domains d' = domains d → services d' = services d ++ [row] → NoDup (map sv_ID (services d')) → keeps_domains d d'.
Proof.
  intros Hd Hs Hn. destruct (keeps_domains_same d (set_domains (domains d') d)) as [Hr _ _]; [done|done| |].
  { rewrite Hs, map_app in Hn. by apply NoDup_app in Hn as [? _]. }
  split; [exact Hr| |done]. intros m _ (s & Hin & H). exists s. split; [|done]. rewrite Hs. apply elem_of_app. by left.
Qed.

Section Services.
Context {E : Env} {A : Authorizer} {G : GitHubClient} {P : SourcesPort} {N : Entropy}.

Lemma first_deployed_keeps deploy sid srv dep d d' : first_deployed deploy sid srv dep d d' →
  domains d' = domains d ∧ services d' = services d.
Proof. destruct deploy; [by intros (svc & row & _ & _ & (_ & ->) & _)|by intros [-> _]]. Qed.

Lemma service_keeps_domains c q res d d' : service_effect c q res d d' → wf d' → keeps_domains d d'.
Proof.
  intros He W. pose proof (wf_service_ids _ W) as Hn. destruct q as [i|i|i|id vis|id|id|id|id|id]; simpl in He;
    try (by destruct He as [-> _]; apply keeps_domains_same).
  - destruct He as (row & login & dep & [(rs & _ & _ & name & slug & port & v & pj & d1 & d2 & _ & _ & _ & _ & _ & (_ & _ & _ & ->) & (au & -> & _) & _ & Hdep) _]).
    apply first_deployed_keeps in Hdep as [H1 H2]. eapply keeps_domains_more; [exact H1|exact H2|exact Hn].
  - destruct He as (row & password & dep & [_ _ _ (name & slug & pj & d1 & d2 & d3 & _ & _ & _ & (_ & _ & _ & ->) & Hvars & (au & -> & _) & Hdep)]).
    apply first_deployed_keeps in Hdep as [H1 H2]. pose proof (vs_only _ _ _ _ _ Hvars) as Hd2. rewrite Hd2 in H1, H2. eapply keeps_domains_more; [exact H1|exact H2|exact Hn].
  - destruct He as (row & rs & port & now & _ & _ & _ & d1 & (_ & _ & _ & ->) & (au & -> & _)).
    apply keeps_domains_same; [done| |done]. simpl. by apply map_update_where.
  - destruct He as (row & v & now & _ & _ & d1 & (_ & _ & _ & ->) & (au & -> & _)).
    apply keeps_domains_same; [done| |done]. simpl. by apply map_update_where.
  - destruct He as (row & _ & _ & (au & -> & _)). split; [|  |done]; simpl.
    + by eexists.
    + intros m [_ Hm]%elem_of_where (s & Hs & H1 & H2). exists s. split; [|done]. simpl. apply elem_of_where. split; [done|]. by rewrite H1.
Qed.
End Services.
