(* ===== verification/Projects.v ===== *)
(** * Projects: workspaces, their members, and projects

    [internal/projects] (projects.go, service.go, store.go, postgres.go) over the
    statements of [projects.sql.go] and [membership.sql.go].  The membership rows this
    module writes are what the policy module reads. *)
From S2P Require Import Prelude.
From S2P Require Import GoStrings.
From S2P Require Import Problem.
From S2P Require Import Schema.
From S2P Require Import Platform.
From S2P Require Import Authz.
From S2P Require Import DeployNames.
From S2P Require Import DeployStore.

(** ** Data (projects.go) *)
Record Project := mk_Project {
  pr_ID : string; pr_WorkspaceID : string; pr_Name : string; pr_Slug : string; pr_CreatedAt : Z }.
Record CreateInput := mk_CreateInput { pi_WorkspaceID : string; pi_Name : string }.
Record Workspace := mk_Workspace { w_ID : string; w_Name : string; w_Slug : string; w_CreatedAt : Z }.
Record Member := mk_Member { mb_UserID : string; mb_Email : string; mb_Role : string; mb_CreatedAt : Z }.
Record InviteMemberInput := mk_InviteMemberInput { im_WorkspaceID : string; im_Email : string; im_Role : string }.
Record ChangeRoleInput := mk_ChangeRoleInput { cr_WorkspaceID : string; cr_UserID : string; cr_Role : string }.
Record RemoveMemberInput := mk_RemoveMemberInput { rm_WorkspaceID : string; rm_UserID : string }.

(** ** Slugs *)
Definition slugify (s : string) : string := Trim_dash (routeKeyNonAlnum_replace (ToLower (TrimSpace s))).

(** ** Statements *)
Definition project_new (id : string) (p : Project) (now : Z) : db_Project :=
  mk_pj id (pr_WorkspaceID p) (pr_Name p) (pr_Slug p) now.
Definition same_project_slug (p : Project) (r : db_Project) : bool :=
  String.eqb (pj_WorkspaceID r) (pr_WorkspaceID p) && String.eqb (pj_Slug r) (pr_Slug p).
Definition sql_CreateProject (p : Project) (st : Stamp) (d : DB) : go_error + (db_Project * DB) :=
  if has_key pj_ID (st_uuid st) (projects d) then inl (ErrUnique "projects_pkey")
  else if existsb (same_project_slug p) (projects d) then inl (ErrUnique "projects_workspace_id_slug_key")
  else if negb (has_key ws_ID (pr_WorkspaceID p) (workspaces d)) then inl (ErrConstraint "projects_workspace_id_fkey")
  else let r := project_new (st_uuid st) p (st_now st) in inr (r, set_projects (projects d ++ [r]) d).
Definition sql_GetProject (id : string) (d : DB) : option db_Project := lookup_by pj_ID id (projects d).
Definition sql_ListProjectsByWorkspace (workspaceID : string) (d : DB) : list db_Project :=
  newest_first pj_CreatedAt (where_ (λ r, String.eqb (pj_WorkspaceID r) workspaceID) (projects d)).

Definition sql_CreateWorkspace (name slug : string) (st : Stamp) (d : DB) : go_error + (db_Workspace * DB) :=
  if has_key ws_ID (st_uuid st) (workspaces d) then inl (ErrUnique "workspaces_pkey")
  else if has_key ws_Slug slug (workspaces d) then inl (ErrUnique "workspaces_slug_key")
  else let r := mk_ws (st_uuid st) name slug (st_now st) in inr (r, set_workspaces (workspaces d ++ [r]) d).

Definition member_of (workspaceID userID : string) (m : db_WorkspaceMember) : bool :=
  String.eqb (wm_WorkspaceID m) workspaceID && String.eqb (wm_UserID m) userID.
(** [workspace_members_role_check] (00003_role_check.sql) *)
Definition member_roles : list string := ["owner"; "admin"; "member"; "viewer"].
Definition sql_AddWorkspaceMember (workspaceID userID role : string) (st : Stamp) (d : DB) : go_error + (unit * DB) :=
  if negb (in_list member_roles role) then inl (ErrConstraint "workspace_members_role_check")
  else if existsb (member_of workspaceID userID) (workspace_members d) then inl (ErrUnique "workspace_members_pkey")
  else if negb (has_key ws_ID workspaceID (workspaces d) && has_key us_ID userID (users d))
  then inl (ErrConstraint "workspace_members_fkey")
  else inr (tt, set_workspace_members (workspace_members d ++ [mk_wm workspaceID userID role (st_now st)]) d).
Definition wm_set_role (role : string) (m : db_WorkspaceMember) : db_WorkspaceMember :=
  mk_wm (wm_WorkspaceID m) (wm_UserID m) role (wm_CreatedAt m).
Definition sql_UpdateMemberRole (workspaceID userID role : string) (st : Stamp) (d : DB) : go_error + (unit * DB) :=
  if existsb (member_of workspaceID userID) (workspace_members d) && negb (in_list member_roles role)
  then inl (ErrConstraint "workspace_members_role_check")
  else inr (tt, set_workspace_members (update_where (member_of workspaceID userID) (wm_set_role role) (workspace_members d)) d).
Definition sql_RemoveMember (workspaceID userID : string) (st : Stamp) (d : DB) : go_error + (unit * DB) :=
  inr (tt, set_workspace_members (where_ (λ m, negb (member_of workspaceID userID m)) (workspace_members d)) d).
Definition sql_ListMembers (workspaceID : string) (d : DB) : list (db_WorkspaceMember * db_User) :=
  order_by (λ r, wm_CreatedAt (fst r))
    (omap (λ m, (λ u, (m, u)) <$> lookup_by us_ID (wm_UserID m) (users d))
       (where_ (λ m, String.eqb (wm_WorkspaceID m) workspaceID) (workspace_members d))).
Definition sql_ListWorkspacesForUser (userID : string) (d : DB) : list db_Workspace :=
  order_by ws_CreatedAt
    (where_ (λ w, existsb (member_of (ws_ID w) userID) (workspace_members d)) (workspaces d)).
Definition sql_GetUserByEmail (email : string) (d : DB) : option db_User := lookup_by us_Email email (users d).

(** ** The store (postgres.go) *)
Definition projectFromRow (r : db_Project) : Project :=
  mk_Project (pj_ID r) (pj_WorkspaceID r) (pj_Name r) (pj_Slug r) (pj_CreatedAt r).
Definition workspace_of (r : db_Workspace) : Workspace := mk_Workspace (ws_ID r) (ws_Name r) (ws_Slug r) (ws_CreatedAt r).

Section Store.
Context {E : Env}.
Definition on_unique {X} (e : go_error) (m : M X) : M X := on_err (λ e0, if isUniqueViolation e0 then e else e0) m.
Definition InsertProject (p : Project) : M Project :=
  row ← on_unique (AlreadyExists "a project named %q already exists in this workspace" [AStr (pr_Name p)]) (db_exec (sql_CreateProject p));
  mret (projectFromRow row).
Definition GetProject (projectID : string) : M Project :=
  row ← ok_or_norows (db_query_row (sql_GetProject projectID));
  match row with
  | Some r => mret (projectFromRow r)
  | None => fail (NotFound "project %s not found" [AStr projectID])
  end.
Definition store_ListByWorkspace (workspaceID : string) : M (list Project) :=
  db_query (λ d, map projectFromRow (sql_ListProjectsByWorkspace workspaceID d)).
Definition InsertWorkspace (name slug : string) : M Workspace :=
  row ← on_unique (AlreadyExists "a workspace with that name already exists" []) (db_exec (sql_CreateWorkspace name slug));
  mret (workspace_of row).
Definition AddMember (workspaceID userID role : string) : M unit :=
  on_unique (AlreadyExists "already a member of this workspace" []) (db_exec (sql_AddWorkspaceMember workspaceID userID role)).
Definition MemberRole (workspaceID userID : string) : M (option string) :=
  ok_or_norows (db_query_row (GetWorkspaceMemberRole workspaceID userID)).
Definition ListWorkspacesForUser (userID : string) : M (list Workspace) :=
  db_query (λ d, map workspace_of (sql_ListWorkspacesForUser userID d)).
Definition store_ListMembers (workspaceID : string) : M (list Member) :=
  db_query (λ d, map (λ r, mk_Member (wm_UserID (fst r)) (us_Email (snd r)) (wm_Role (fst r)) (wm_CreatedAt (fst r)))
                   (sql_ListMembers workspaceID d)).
Definition UpdateMemberRole (workspaceID userID role : string) : M unit := db_exec (sql_UpdateMemberRole workspaceID userID role).
Definition store_RemoveMember (workspaceID userID : string) : M unit := db_exec (sql_RemoveMember workspaceID userID).
Definition UserIDByEmail (email : string) : M (option string) :=
  ok_or_norows (db_query_row (λ d, us_ID <$> sql_GetUserByEmail email d)).
End Store.

(** ** The service (service.go) *)
Definition project_resource (workspaceID id : string) : Resource := mk_Resource "project" workspaceID id.
Definition workspace_resource (workspaceID : string) : Resource := mk_Resource "workspace" workspaceID "".

Section Service.
Context {E : Env} {A : Authorizer}.

Definition Create (caller : Principal) (i : CreateInput) : M Project :=
  let name := TrimSpace (pi_Name i) in
  _ ← require (negb (String.eqb name "")) (InvalidInput "project name is required" []);
  _ ← require (negb (String.eqb (pi_WorkspaceID i) "")) (InvalidInput "workspace_id is required" []);
  _ ← Authorize caller ActionProjectCreate (project_resource (pi_WorkspaceID i) "");
  let slug := slugify name in
  _ ← require (negb (String.eqb slug "")) (InvalidInput "project name must contain at least one letter or number" []);
  on_err (λ e, mapErr e "create project") (within_tx
    (created ← InsertProject (mk_Project "" (pi_WorkspaceID i) name slug 0);
     _ ← audit_Record "project.create" "project" (pr_ID created) (pr_WorkspaceID created) (p_UserID caller);
     mret created)).

Definition Get (caller : Principal) (projectID : string) : M Project :=
  _ ← require (id_Parse projectID) (InvalidInput "invalid project id" []);
  proj ← GetProject projectID;
  _ ← Authorize caller ActionProjectRead (project_resource (pr_WorkspaceID proj) (pr_ID proj));
  mret proj.

Definition ListByWorkspace (caller : Principal) (workspaceID : string) : M (list Project) :=
  _ ← require (negb (String.eqb workspaceID "")) (InvalidInput "workspace_id is required" []);
  _ ← Authorize caller ActionProjectRead (project_resource workspaceID "");
  store_ListByWorkspace workspaceID.

(** [id.New().String()[:8]] *)
Definition workspaceSlug (name : string) : M string :=
  fresh ← port (λ n, inr (uuid_at n));
  let base := slugify name in
  mret ((if String.eqb base "" then "workspace" else base) +:+ "-" +:+ str_take 8 fresh).

Definition createWorkspaceTx (ownerID name actor : string) : M Workspace :=
  let name := TrimSpace name in
  _ ← require (negb (String.eqb name "")) (InvalidInput "workspace name is required" []);
  slug ← workspaceSlug name;
  ws ← InsertWorkspace name slug;
  _ ← AddMember (w_ID ws) ownerID RoleOwner;
  _ ← audit_Record "workspace.create" "workspace" (w_ID ws) (w_ID ws) actor;
  mret ws.
Definition CreateWorkspace (caller : Principal) (name : string) : M Workspace :=
  _ ← require (IsAuthenticated caller) (PermissionDenied "authentication required" []);
  _ ← require (negb (String.eqb (TrimSpace name) "")) (InvalidInput "workspace name is required" []);
  on_err (λ e, mapErr e "create workspace") (within_tx (createWorkspaceTx (p_UserID caller) name (p_UserID caller))).
(** Called by registration, inside its transaction. *)
Definition CreateInitialWorkspace (userID name actor : string) : M string :=
  ws ← createWorkspaceTx userID name actor; mret (w_ID ws).
Definition ListMyWorkspaces (userID : string) : M (list Workspace) := ListWorkspacesForUser userID.

Definition InviteMember (caller : Principal) (i : InviteMemberInput) : M unit :=
  _ ← Authorize caller ActionMemberInvite (workspace_resource (im_WorkspaceID i));
  let role := TrimSpace (im_Role i) in
  _ ← require (in_list [RoleAdmin; RoleMember; RoleViewer] role) (InvalidInput "role must be one of admin, member, viewer" []);
  let email := ToLower (TrimSpace (im_Email i)) in
  userID ← found "invite member" (UserIDByEmail email)
    (NotFound "no Plorigo account exists for %s; ask them to sign up first" [AStr email]);
  on_err (λ e, mapErr e "invite member") (within_tx
    (_ ← AddMember (im_WorkspaceID i) userID role;
     audit_Record "workspace.member.invite" "membership" userID (im_WorkspaceID i) (p_UserID caller))).

Definition ListMembers (caller : Principal) (workspaceID : string) : M (list Member) :=
  _ ← Authorize caller ActionMemberList (workspace_resource workspaceID);
  store_ListMembers workspaceID.

Definition ChangeMemberRole (caller : Principal) (i : ChangeRoleInput) : M unit :=
  _ ← Authorize caller ActionMemberRoleChange (workspace_resource (cr_WorkspaceID i));
  _ ← require (ValidRole (cr_Role i)) (InvalidInput "invalid role" []);
  role ← found "change member role" (MemberRole (cr_WorkspaceID i) (cr_UserID i))
    (NotFound "that user is not a member of this workspace" []);
  _ ← require (negb (String.eqb role RoleOwner && negb (String.eqb (cr_Role i) RoleOwner)))
    (PermissionDenied "an owner cannot be demoted; promote another owner first" []);
  on_err (λ e, mapErr e "change member role") (within_tx
    (_ ← UpdateMemberRole (cr_WorkspaceID i) (cr_UserID i) (cr_Role i);
     audit_Record "workspace.member.role.change" "membership" (cr_UserID i) (cr_WorkspaceID i) (p_UserID caller))).

Definition RemoveMember (caller : Principal) (i : RemoveMemberInput) : M unit :=
  _ ← Authorize caller ActionMemberRemove (workspace_resource (rm_WorkspaceID i));
  role ← found "remove member" (MemberRole (rm_WorkspaceID i) (rm_UserID i))
    (NotFound "that user is not a member of this workspace" []);
  _ ← require (negb (String.eqb role RoleOwner)) (PermissionDenied "an owner cannot be removed; promote another owner first" []);
  on_err (λ e, mapErr e "remove member") (within_tx
    (_ ← store_RemoveMember (rm_WorkspaceID i) (rm_UserID i);
     audit_Record "workspace.member.remove" "membership" (rm_UserID i) (rm_WorkspaceID i) (p_UserID caller))).
End Service.
