(* ===== verification/Environments.v ===== *)
(** * Environments

    [internal/environments] over the statements of [environments.sql.go]: an environment
    belongs to a project, whose workspace authorizes it. *)
From S2P Require Import Prelude.
From S2P Require Import GoStrings.
From S2P Require Import Problem.
From S2P Require Import Schema.
From S2P Require Import Platform.
From S2P Require Import Authz.
From S2P Require Import DeployStore.
From S2P Require Import Projects.

Record Environment := mk_Environment {
  e_ID : string; e_ProjectID : string; e_WorkspaceID : string; e_Name : string; e_Slug : string; e_Type : string; e_CreatedAt : Z }.
Record CreateInput := mk_CreateInput { ei_ProjectID : string; ei_Name : string; ei_Type : string }.
Definition defaultEnvType : string := "preview".
Definition env_types : list string := ["preview"; "staging"; "production"; "custom"].
Definition validEnvType (t : string) : bool := in_list env_types t.

(** ** Statements *)
Definition environment_new (id : string) (e : Environment) (now : Z) : db_Environment :=
  mk_en id (e_ProjectID e) (e_Name e) (e_Slug e) (e_Type e) now.
Definition same_environment_slug (e : Environment) (r : db_Environment) : bool :=
  String.eqb (en_ProjectID r) (e_ProjectID e) && String.eqb (en_Slug r) (e_Slug e).
Definition sql_CreateEnvironment (e : Environment) (st : Stamp) (d : DB) : go_error + (db_Environment * DB) :=
  if negb (in_list env_types (e_Type e)) then inl (ErrConstraint "environments_type_check")
  else if has_key en_ID (st_uuid st) (environments d) then inl (ErrUnique "environments_pkey")
  else if existsb (same_environment_slug e) (environments d) then inl (ErrUnique "environments_project_id_slug_key")
  else if negb (has_key pj_ID (e_ProjectID e) (projects d)) then inl (ErrConstraint "environments_project_id_fkey")
  else let r := environment_new (st_uuid st) e (st_now st) in inr (r, set_environments (environments d ++ [r]) d).
Definition sql_GetEnvironment (id : string) (d : DB) : option (db_Environment * string) :=
  e ← lookup_by en_ID id (environments d);
  p ← lookup_by pj_ID (en_ProjectID e) (projects d);
  Some (e, pj_WorkspaceID p).
Definition sql_ListEnvironmentsByProject (projectID : string) (d : DB) : list db_Environment :=
  newest_first en_CreatedAt (where_ (λ r, String.eqb (en_ProjectID r) projectID) (environments d)).

(** ** The store *)
Definition environmentFromRow (r : db_Environment) : Environment :=
  mk_Environment (en_ID r) (en_ProjectID r) "" (en_Name r) (en_Slug r) (en_Type r) (en_CreatedAt r).
Definition with_workspace (ws : string) (e : Environment) : Environment :=
  mk_Environment (e_ID e) (e_ProjectID e) ws (e_Name e) (e_Slug e) (e_Type e) (e_CreatedAt e).

Section Store.
Context {E : Env}.
Definition InsertEnvironment (e : Environment) : M Environment :=
  row ← on_unique (AlreadyExists "an environment named %q already exists in this project" [AStr (e_Name e)]) (db_exec (sql_CreateEnvironment e));
  mret (environmentFromRow row).
Definition GetEnvironment (envID : string) : M Environment :=
  row ← ok_or_norows (db_query_row (sql_GetEnvironment envID));
  match row with
  | Some (r, ws) => mret (with_workspace ws (environmentFromRow r))
  | None => fail (NotFound "environment %s not found" [AStr envID])
  end.
Definition store_ListByProject (projectID : string) : M (list Environment) :=
  db_query (λ d, map environmentFromRow (sql_ListEnvironmentsByProject projectID d)).
Definition WorkspaceIDForProject (projectID : string) : M (option string) :=
  ok_or_norows (db_query_row (sql_GetProjectWorkspaceID projectID)).
End Store.

(** ** The service *)
Definition environment_resource (workspaceID id : string) : Resource := mk_Resource "environment" workspaceID id.

Section Service.
Context {E : Env} {A : Authorizer}.

Definition Create (caller : Principal) (i : CreateInput) : M Environment :=
  let name := TrimSpace (ei_Name i) in
  _ ← require (negb (String.eqb name "")) (InvalidInput "environment name is required" []);
  _ ← require (id_Parse (ei_ProjectID i)) (InvalidInput "a valid project_id is required" []);
  let envType := if String.eqb (TrimSpace (ei_Type i)) "" then defaultEnvType else TrimSpace (ei_Type i) in
  _ ← require (validEnvType envType) (InvalidInput "type must be one of preview, staging, production, custom" []);
  workspaceID ← found "create environment" (WorkspaceIDForProject (ei_ProjectID i)) (NotFound "project %s not found" [AStr (ei_ProjectID i)]);
  _ ← Authorize caller ActionEnvironmentCreate (environment_resource workspaceID "");
  let slug := slugify name in
  _ ← require (negb (String.eqb slug "")) (InvalidInput "environment name must contain at least one letter or number" []);
  created ← on_err (λ e, mapErr e "create environment") (within_tx
    (created ← InsertEnvironment (mk_Environment "" (ei_ProjectID i) workspaceID name slug envType 0);
     _ ← audit_Record "environment.create" "environment" (e_ID created) workspaceID (p_UserID caller);
     mret created));
  mret (with_workspace workspaceID created).

Definition Get (caller : Principal) (envID : string) : M Environment :=
  _ ← require (id_Parse envID) (InvalidInput "invalid environment id" []);
  env ← GetEnvironment envID;
  _ ← Authorize caller ActionEnvironmentRead (environment_resource (e_WorkspaceID env) (e_ID env));
  mret env.

Definition ListByProject (caller : Principal) (projectID : string) : M (list Environment) :=
  _ ← require (id_Parse projectID) (InvalidInput "a valid project_id is required" []);
  workspaceID ← found "list environments" (WorkspaceIDForProject projectID) (NotFound "project %s not found" [AStr projectID]);
  _ ← Authorize caller ActionEnvironmentRead (environment_resource workspaceID "");
  store_ListByProject projectID.
End Service.
