(* ===== verification/Servers.v ===== *)
(** * Servers

    [internal/servers] over the statements of [servers.sql.go].  A delete cascades to the
    agent, its registration tokens, the management key and the setup runs with their events,
    and the deployments, teardown jobs, backups and restores placed on the server. *)
From S2P Require Import Prelude.
From S2P Require Import GoStrings.
From S2P Require Import Problem.
From S2P Require Import Schema.
From S2P Require Import Platform.
From S2P Require Import Authz.
From S2P Require Import DeployStore.
From S2P Require Import Services.
From S2P Require Import Projects.

Record Server := mk_Server { s_ID : string; s_WorkspaceID : string; s_Name : string; s_Slug : string; s_CreatedAt : Z }.
Record CreateInput := mk_CreateInput { vi_WorkspaceID : string; vi_Name : string }.

(** ** Statements *)
Definition server_new (id : string) (s : Server) (now : Z) : db_Server :=
  mk_srv id (s_WorkspaceID s) (s_Name s) (s_Slug s) now "".
Definition same_server_slug (s : Server) (r : db_Server) : bool :=
  String.eqb (srv_WorkspaceID r) (s_WorkspaceID s) && String.eqb (srv_Slug r) (s_Slug s).
Definition sql_CreateServer (s : Server) (st : Stamp) (d : DB) : go_error + (db_Server * DB) :=
  if has_key srv_ID (st_uuid st) (servers d) then inl (ErrUnique "servers_pkey")
  else if existsb (same_server_slug s) (servers d) then inl (ErrUnique "servers_workspace_id_slug_key")
  else if negb (has_key ws_ID (s_WorkspaceID s) (workspaces d)) then inl (ErrConstraint "servers_workspace_id_fkey")
  else let r := server_new (st_uuid st) s (st_now st) in inr (r, set_servers (servers d ++ [r]) d).
Definition sql_GetServer (id : string) (d : DB) : option db_Server := lookup_by srv_ID id (servers d).
Definition sql_ListServersByWorkspace (workspaceID : string) (d : DB) : list db_Server :=
  newest_first srv_CreatedAt (where_ (λ r, String.eqb (srv_WorkspaceID r) workspaceID) (servers d)).
(** The foreign keys of the migrations: ON DELETE CASCADE, and SET NULL for the reference
    of a rollback to a deployment that goes. *)
Definition delete_server_rows (id : string) (d : DB) : DB :=
  let on := λ i : string, String.eqb i id in
  let gone_dep := λ i, has_key dp_ID i (where_ (λ r, on (dp_ServerID r)) (deployments d)) in
  let gone_bk := λ i, has_key bk_ID i (where_ (λ r, on (bk_ServerID r)) (backups d)) in
  let d := set_servers (where_ (λ r, negb (on (srv_ID r))) (servers d)) d in
  let d := set_agents (where_ (λ r, negb (on (ag_ServerID r))) (agents d)) d in
  let d := set_registration_tokens (where_ (λ r, negb (on (rt_ServerID r))) (registration_tokens d)) d in
  let d := set_deployments (map (clear_rollback gone_dep) (where_ (λ r, negb (on (dp_ServerID r))) (deployments d))) d in
  let d := set_deployment_events (where_ (λ r, negb (gone_dep (ev_DeploymentID r))) (deployment_events d)) d in
  let d := set_teardown_jobs (where_ (λ r, negb (on (td_ServerID r) || gone_dep (td_DeploymentID r))) (teardown_jobs d)) d in
  let d := set_backups (where_ (λ r, negb (on (bk_ServerID r))) (backups d)) d in
  let gone_run := λ i, has_key sru_ID i (where_ (λ r, on (sru_ServerID r)) (server_setup_runs d)) in
  let d := set_ssh_management_keys (where_ (λ r, negb (on (sk_ServerID r))) (ssh_management_keys d)) d in
  let d := set_server_setup_events (where_ (λ r, negb (gone_run (se_SetupRunID r))) (server_setup_events d)) d in
  let d := set_server_setup_runs (where_ (λ r, negb (on (sru_ServerID r))) (server_setup_runs d)) d in
  set_restore_jobs (where_ (λ r, negb (on (rj_ServerID r) || gone_bk (rj_BackupID r))) (restore_jobs d)) d.
Definition sql_DeleteServer (id : string) (st : Stamp) (d : DB) : go_error + (string * DB) :=
  if has_key srv_ID id (servers d) then inr (id, delete_server_rows id d) else inl ErrNoRows.

(** ** The store *)
Definition serverFromRow (r : db_Server) : Server :=
  mk_Server (srv_ID r) (srv_WorkspaceID r) (srv_Name r) (srv_Slug r) (srv_CreatedAt r).

Section Store.
Context {E : Env}.
Definition InsertServer (s : Server) : M Server :=
  row ← on_unique (AlreadyExists "a server named %q already exists in this workspace" [AStr (s_Name s)]) (db_exec (sql_CreateServer s));
  mret (serverFromRow row).
Definition GetServer (serverID : string) : M Server :=
  row ← ok_or_norows (db_query_row (sql_GetServer serverID));
  match row with
  | Some r => mret (serverFromRow r)
  | None => fail (NotFound "server %s not found" [AStr serverID])
  end.
Definition store_ListByWorkspace (workspaceID : string) : M (list Server) :=
  db_query (λ d, map serverFromRow (sql_ListServersByWorkspace workspaceID d)).
Definition store_DeleteServer (id : string) : M bool :=
  r ← ok_or_norows (db_exec (sql_DeleteServer id));
  mret (match r with Some _ => true | None => false end).
End Store.

(** ** The service *)
Definition server_resource (workspaceID id : string) : Resource := mk_Resource "server" workspaceID id.

Section Service.
Context {E : Env} {A : Authorizer}.

Definition Create (caller : Principal) (i : CreateInput) : M Server :=
  let name := TrimSpace (vi_Name i) in
  _ ← require (negb (String.eqb name "")) (InvalidInput "server name is required" []);
  _ ← require (negb (String.eqb (vi_WorkspaceID i) "")) (InvalidInput "workspace_id is required" []);
  _ ← Authorize caller ActionServerCreate (server_resource (vi_WorkspaceID i) "");
  let slug := slugify name in
  _ ← require (negb (String.eqb slug "")) (InvalidInput "server name must contain at least one letter or number" []);
  on_err (λ e, mapErr e "create server") (within_tx
    (created ← InsertServer (mk_Server "" (vi_WorkspaceID i) name slug 0);
     _ ← audit_Record "server.create" "server" (s_ID created) (s_WorkspaceID created) (p_UserID caller);
     mret created)).

Definition Get (caller : Principal) (serverID : string) : M Server :=
  _ ← require (id_Parse serverID) (InvalidInput "invalid server id" []);
  srv ← GetServer serverID;
  _ ← Authorize caller ActionServerRead (server_resource (s_WorkspaceID srv) (s_ID srv));
  mret srv.

Definition ListByWorkspace (caller : Principal) (workspaceID : string) : M (list Server) :=
  _ ← require (negb (String.eqb workspaceID "")) (InvalidInput "workspace_id is required" []);
  _ ← Authorize caller ActionServerRead (server_resource workspaceID "");
  store_ListByWorkspace workspaceID.

Definition Delete (caller : Principal) (serverID : string) : M unit :=
  _ ← require (id_Parse serverID) (InvalidInput "invalid server id" []);
  srv ← GetServer serverID;
  _ ← Authorize caller ActionServerDelete (server_resource (s_WorkspaceID srv) (s_ID srv));
  on_err (λ e, mapErr e "delete server") (within_tx
    (deleted ← store_DeleteServer serverID;
     _ ← require deleted (NotFound "server %s not found" [AStr serverID]);
     audit_Record "server.delete" "server" (s_ID srv) (s_WorkspaceID srv) (p_UserID caller))).
End Service.
