(* ===== verification/TenancySpec.v ===== *)
(** * TenancySpec: what the requests on workspaces, projects, environments and servers do

    One rule per handler of [Projects], [Environments] and [Servers]: its effect on the
    database when it succeeds, and that it had been allowed. *)
From S2P Require Import Prelude.
From S2P Require Import GoStrings.
From S2P Require Import Problem.
From S2P Require Import Schema.
From S2P Require Import Platform.
From S2P Require Import Authz.
From S2P Require Import DeployNames.
From S2P Require Import DeployStore.
From S2P Require Import DeployHandlers.
From S2P Require Import DeploySystem.
From S2P Require Projects.
From S2P Require Environments.
From S2P Require Servers.
Import Projects (project_resource, workspace_resource, slugify, member_of, member_roles, wm_set_role,
  im_WorkspaceID, im_Email, im_Role, cr_WorkspaceID, cr_UserID, cr_Role, rm_WorkspaceID, rm_UserID,
  pi_WorkspaceID, pi_Name, on_unique).
Import Environments (environment_resource, ei_ProjectID, ei_Name, ei_Type, env_types).
Import Servers (server_resource, vi_WorkspaceID, vi_Name).

(** ** Statements *)
Lemma sql_CreateProject_inr p st d r d' : Projects.sql_CreateProject p st d = inr (r, d') →
  r = Projects.project_new (st_uuid st) p (st_now st) ∧ d' = set_projects (projects d ++ [r]) d ∧
  st_uuid st ∉ map pj_ID (projects d) ∧
  (∀ x, x ∈ projects d → (pj_WorkspaceID x, pj_Slug x) ≠ (Projects.pr_WorkspaceID p, Projects.pr_Slug p)) ∧
  has_key ws_ID (Projects.pr_WorkspaceID p) (workspaces d) = true.
Proof.
  unfold Projects.sql_CreateProject. destruct (has_key pj_ID _ _) eqn:Hk; [done|]. destruct (existsb _ _) eqn:Hx; [done|].
  destruct (has_key ws_ID _ _) eqn:Hw; [|done]. intros [= <- <-]. apply has_key_false in Hk. repeat (split; [done|]). split; [|done].
  intros x Hin [= H1 H2]. apply not_true_iff_false in Hx. apply Hx, existsb_exists. exists x.
  rewrite <- list_elem_of_In. split; [done|]. unfold Projects.same_project_slug. by rewrite H1, H2, !String.eqb_refl.
Qed.
Lemma sql_CreateEnvironment_inr e st d r d' : Environments.sql_CreateEnvironment e st d = inr (r, d') →
  r = Environments.environment_new (st_uuid st) e (st_now st) ∧ d' = set_environments (environments d ++ [r]) d ∧
  st_uuid st ∉ map en_ID (environments d) ∧
  (∀ x, x ∈ environments d → (en_ProjectID x, en_Slug x) ≠ (Environments.e_ProjectID e, Environments.e_Slug e)) ∧
  has_key pj_ID (Environments.e_ProjectID e) (projects d) = true ∧ in_list env_types (Environments.e_Type e) = true.
Proof.
  unfold Environments.sql_CreateEnvironment. destruct (in_list _ _) eqn:Ht; [|done]. destruct (has_key en_ID _ _) eqn:Hk; [done|].
  destruct (existsb _ _) eqn:Hx; [done|]. destruct (has_key pj_ID _ _) eqn:Hw; [|done]. intros [= <- <-]. apply has_key_false in Hk.
  repeat (split; [done|]). split; [|done].
  intros x Hin [= H1 H2]. apply not_true_iff_false in Hx. apply Hx, existsb_exists. exists x.
  rewrite <- list_elem_of_In. split; [done|]. unfold Environments.same_environment_slug. by rewrite H1, H2, !String.eqb_refl.
Qed.
Lemma sql_CreateServer_inr s st d r d' : Servers.sql_CreateServer s st d = inr (r, d') →
  r = Servers.server_new (st_uuid st) s (st_now st) ∧ d' = set_servers (servers d ++ [r]) d ∧
  st_uuid st ∉ map srv_ID (servers d) ∧
  (∀ x, x ∈ servers d → (srv_WorkspaceID x, srv_Slug x) ≠ (Servers.s_WorkspaceID s, Servers.s_Slug s)) ∧
  has_key ws_ID (Servers.s_WorkspaceID s) (workspaces d) = true.
Proof.
  unfold Servers.sql_CreateServer. destruct (has_key srv_ID _ _) eqn:Hk; [done|]. destruct (existsb _ _) eqn:Hx; [done|].
  destruct (has_key ws_ID _ _) eqn:Hw; [|done]. intros [= <- <-]. apply has_key_false in Hk. repeat (split; [done|]). split; [|done].
  intros x Hin [= H1 H2]. apply not_true_iff_false in Hx. apply Hx, existsb_exists. exists x.
  rewrite <- list_elem_of_In. split; [done|]. unfold Servers.same_server_slug. by rewrite H1, H2, !String.eqb_refl.
Qed.
Lemma sql_CreateWorkspace_inr name slug st d r d' : Projects.sql_CreateWorkspace name slug st d = inr (r, d') →
  r = mk_ws (st_uuid st) name slug (st_now st) ∧ d' = set_workspaces (workspaces d ++ [r]) d ∧
  st_uuid st ∉ map ws_ID (workspaces d) ∧ slug ∉ map ws_Slug (workspaces d).
Proof.
  unfold Projects.sql_CreateWorkspace. destruct (has_key ws_ID _ _) eqn:H1; [done|]. destruct (has_key ws_Slug _ _) eqn:H2; [done|].
  intros [= <- <-]. apply has_key_false in H1, H2. done.
Qed.
Lemma sql_AddWorkspaceMember_inr ws u role st d d' : Projects.sql_AddWorkspaceMember ws u role st d = inr (tt, d') →
  d' = set_workspace_members (workspace_members d ++ [mk_wm ws u role (st_now st)]) d ∧ role ∈ member_roles ∧
  (∀ m, m ∈ workspace_members d → (wm_WorkspaceID m, wm_UserID m) ≠ (ws, u)) ∧
  has_key ws_ID ws (workspaces d) = true ∧ has_key us_ID u (users d) = true.
Proof.
  unfold Projects.sql_AddWorkspaceMember. destruct (in_list _ _) eqn:Hr; [|done]. destruct (existsb _ _) eqn:Hx; [done|].
  destruct (_ && _) eqn:Hk; [|done]. intros [= <-]. apply andb_true_iff in Hk as [? ?]. apply in_list_true in Hr.
  repeat (split; [done|]). split; [|done]. intros m Hm [= H1 H2]. apply not_true_iff_false in Hx. apply Hx, existsb_exists.
  exists m. rewrite <- list_elem_of_In. split; [done|]. unfold member_of. by rewrite H1, H2, !String.eqb_refl.
Qed.

(** ** Effects *)
Definition member_role (ws u : string) (d : DB) : option string := GetWorkspaceMemberRole ws u d.

Section Effects.
Context {E : Env} {A : Authorizer}.

(** A fresh workspace, its owner, and the audit row. *)
Record workspace_created (owner name : string) (actor : string) (row : db_Workspace) (d d' : DB) : Prop := {
  wcr_row : ∃ slug now, row = mk_ws (ws_ID row) (TrimSpace name) slug now;
  wcr_named : TrimSpace name ≠ "";
  wcr_fresh : ws_ID row ∉ map ws_ID (workspaces d) ∧ ws_Slug row ∉ map ws_Slug (workspaces d);
  wcr_owner : has_key us_ID owner (users d) = true;
  wcr_written : ∃ now,
    audited "workspace.create" "workspace" (ws_ID row) (ws_ID row) actor
      (set_workspace_members (workspace_members d ++ [mk_wm (ws_ID row) owner RoleOwner now])
         (set_workspaces (workspaces d ++ [row]) d)) d';
  wcr_members : ∀ m, m ∈ workspace_members d → (wm_WorkspaceID m, wm_UserID m) ≠ (ws_ID row, owner);
}.
Record project_created (c : Principal) (i : Projects.CreateInput) (row : db_Project) (d d' : DB) : Prop := {
  pcr_row : ∃ id now, row = mk_pj id (pi_WorkspaceID i) (TrimSpace (pi_Name i)) (slugify (TrimSpace (pi_Name i))) now;
  pcr_slug : pj_Slug row ≠ "";
  pcr_allowed : allows c ActionProjectCreate (project_resource (pi_WorkspaceID i) "") d;
  pcr_fresh : pj_ID row ∉ map pj_ID (projects d) ∧ (∀ x, x ∈ projects d → (pj_WorkspaceID x, pj_Slug x) ≠ (pj_WorkspaceID row, pj_Slug row)) ∧
    has_key ws_ID (pj_WorkspaceID row) (workspaces d) = true;
  pcr_audited : audited "project.create" "project" (pj_ID row) (pj_WorkspaceID row) (p_UserID c) (set_projects (projects d ++ [row]) d) d';
}.
Record environment_created (c : Principal) (i : Environments.CreateInput) (ws : string) (row : db_Environment) (d d' : DB) : Prop := {
  ecr_row : ∃ id type now, row = mk_en id (ei_ProjectID i) (TrimSpace (ei_Name i)) (slugify (TrimSpace (ei_Name i))) type now ∧
    (type = TrimSpace (ei_Type i) ∨ TrimSpace (ei_Type i) = "" ∧ type = "preview");
  ecr_slug : en_Slug row ≠ "";
  ecr_workspace : sql_GetProjectWorkspaceID (ei_ProjectID i) d = Some ws;
  ecr_allowed : allows c ActionEnvironmentCreate (environment_resource ws "") d;
  ecr_fresh : en_ID row ∉ map en_ID (environments d) ∧ (∀ x, x ∈ environments d → (en_ProjectID x, en_Slug x) ≠ (en_ProjectID row, en_Slug row)) ∧
    has_key pj_ID (en_ProjectID row) (projects d) = true ∧ en_Type row ∈ env_types;
  ecr_audited : audited "environment.create" "environment" (en_ID row) ws (p_UserID c) (set_environments (environments d ++ [row]) d) d';
}.
Record server_created (c : Principal) (i : Servers.CreateInput) (row : db_Server) (d d' : DB) : Prop := {
  vcr_row : ∃ id now, row = mk_srv id (vi_WorkspaceID i) (TrimSpace (vi_Name i)) (slugify (TrimSpace (vi_Name i))) now "";
  vcr_slug : srv_Slug row ≠ "";
  vcr_allowed : allows c ActionServerCreate (server_resource (vi_WorkspaceID i) "") d;
  vcr_fresh : srv_ID row ∉ map srv_ID (servers d) ∧ (∀ x, x ∈ servers d → (srv_WorkspaceID x, srv_Slug x) ≠ (srv_WorkspaceID row, srv_Slug row)) ∧
    has_key ws_ID (srv_WorkspaceID row) (workspaces d) = true;
  vcr_audited : audited "server.create" "server" (srv_ID row) (srv_WorkspaceID row) (p_UserID c) (set_servers (servers d ++ [row]) d) d';
}.
Record server_deleted (c : Principal) (id : string) (row : db_Server) (d d' : DB) : Prop := {
  vdl_row : lookup_by srv_ID id (servers d) = Some row;
  vdl_allowed : allows c ActionServerDelete (server_resource (srv_WorkspaceID row) id) d;
  vdl_audited : audited "server.delete" "server" id (srv_WorkspaceID row) (p_UserID c) (Servers.delete_server_rows id d) d';
}.
Record member_invited (c : Principal) (i : Projects.InviteMemberInput) (u : db_User) (d d' : DB) : Prop := {
  miv_role : TrimSpace (im_Role i) ∈ [RoleAdmin; RoleMember; RoleViewer];
  miv_user : lookup_by us_Email (ToLower (TrimSpace (im_Email i))) (users d) = Some u;
  miv_allowed : allows c ActionMemberInvite (workspace_resource (im_WorkspaceID i)) d;
  miv_new : (∀ m, m ∈ workspace_members d → (wm_WorkspaceID m, wm_UserID m) ≠ (im_WorkspaceID i, us_ID u)) ∧
    has_key ws_ID (im_WorkspaceID i) (workspaces d) = true;
  miv_audited : ∃ now, audited "workspace.member.invite" "membership" (us_ID u) (im_WorkspaceID i) (p_UserID c)
    (set_workspace_members (workspace_members d ++ [mk_wm (im_WorkspaceID i) (us_ID u) (TrimSpace (im_Role i)) now]) d) d';
}.
Record role_changed (c : Principal) (i : Projects.ChangeRoleInput) (old : string) (d d' : DB) : Prop := {
  rch_role : cr_Role i ∈ member_roles;
  rch_old : member_role (cr_WorkspaceID i) (cr_UserID i) d = Some old;
  rch_keeps : old = RoleOwner → cr_Role i = RoleOwner;
  rch_allowed : allows c ActionMemberRoleChange (workspace_resource (cr_WorkspaceID i)) d;
  rch_audited : audited "workspace.member.role.change" "membership" (cr_UserID i) (cr_WorkspaceID i) (p_UserID c)
    (set_workspace_members (update_where (member_of (cr_WorkspaceID i) (cr_UserID i)) (wm_set_role (cr_Role i)) (workspace_members d)) d) d';
}.
Record member_removed (c : Principal) (i : Projects.RemoveMemberInput) (old : string) (d d' : DB) : Prop := {
  mrm_old : member_role (rm_WorkspaceID i) (rm_UserID i) d = Some old;
  mrm_owner : old ≠ RoleOwner;
  mrm_allowed : allows c ActionMemberRemove (workspace_resource (rm_WorkspaceID i)) d;
  mrm_audited : audited "workspace.member.remove" "membership" (rm_UserID i) (rm_WorkspaceID i) (p_UserID c)
    (set_workspace_members (where_ (λ m, negb (member_of (rm_WorkspaceID i) (rm_UserID i) m)) (workspace_members d)) d) d';
}.
End Effects.

(** ** The rules *)
Section Rules.
Context {E : Env} {A : Authorizer}.
Implicit Types (w : World).

(** A tail [Authorize; audited transaction] that inserts one row. *)
Lemma wp_on_unique {X} e (m : M X) (Q : go_error + X → World → Prop) w :
  wp m (λ r w', match r with inl e0 => Q (inl (if isUniqueViolation e0 then e else e0)) w' | inr a => Q (inr a) w' end) w →
  wp (on_unique e m) Q w.
Proof. apply wp_on_err. Qed.

Lemma wp_createWorkspaceTx owner name actor (Q : go_error + Projects.Workspace → World → Prop) w :
  (∀ e w', Q (inl e) w') →
  (∀ row w', workspace_created owner name actor row (w_db w) (w_db w') → Q (inr (Projects.workspace_of row)) w') →
  wp (Projects.createWorkspaceTx owner name actor) Q w.
Proof.
  intros He Ha. unfold Projects.createWorkspaceTx, Projects.workspaceSlug. do 2 wp_step; [|by apply He].
  apply negb_true_iff, String.eqb_neq in H.
  do 4 wp_step. wp_step. unfold Projects.InsertWorkspace. wp_step. apply wp_on_unique. wp_step; [by apply He|].
  match goal with H : Projects.sql_CreateWorkspace _ _ _ _ = _ |- _ => apply sql_CreateWorkspace_inr in H as (Hr & Hdb & Hid & Hsl) end.
  wp_step. wp_step. unfold Projects.AddMember. apply wp_on_unique. wp_step; [by apply He|]. destruct a0.
  match goal with H : Projects.sql_AddWorkspaceMember _ _ _ _ _ = _ |- _ => apply sql_AddWorkspaceMember_inr in H as (Hdb1 & _ & Hm & _ & Hu) end.
  wp_step. apply wp_audit_Record; [by intros; apply He|]. intros w5 Haud. apply wp_ret.
  rewrite H0 in Hdb, Hid, Hsl. rewrite Hdb in Hdb1, Hm, Hu. rewrite Hdb1 in Haud.
  apply Ha. split; [by rewrite Hr; eexists _, _|done|by rewrite Hr|exact Hu| |exact Hm]. eexists. exact Haud.
Qed.

Lemma wp_CreateWorkspace c name (Q : go_error + Projects.Workspace → World → Prop) w :
  (∀ e w', w_db w' = w_db w → Q (inl e) w') →
  (∀ row w', IsAuthenticated c = true → workspace_created (p_UserID c) name (p_UserID c) row (w_db w) (w_db w') →
     Q (inr (Projects.workspace_of row)) w') →
  wp (Projects.CreateWorkspace c name) Q w.
Proof.
  intros He Ha. unfold Projects.CreateWorkspace. do 2 wp_step; [|by apply He]. do 2 wp_step; [|by apply He].
  do 2 wp_step; [by apply He|]. apply wp_createWorkspaceTx; [done|]. intros row wa Hcr wb Hwb.
  apply (Ha row); [done|]. rewrite Hwb. by match goal with H : w_db _ = w_db w |- _ => rewrite <- H end.
Qed.

Lemma wp_CreateProject c i (Q : go_error + Projects.Project → World → Prop) w :
  (∀ e w', w_db w' = w_db w → Q (inl e) w') →
  (∀ row w', project_created c i row (w_db w) (w_db w') → Q (inr (Projects.projectFromRow row)) w') →
  wp (Projects.Create c i) Q w.
Proof.
  intros He Ha. unfold Projects.Create. do 2 wp_step; [|by apply He]. do 2 wp_step; [|by apply He].
  wp_step. apply wp_Authorize; [by apply He|]. intros w1 Hw1 Hal.
  do 2 wp_step; [|by apply He]. apply negb_true_iff, String.eqb_neq in H1. do 2 wp_step; [apply He; congruence|].
  wp_step. unfold Projects.InsertProject. wp_step. apply wp_on_unique. wp_step; [done|].
  match goal with H : Projects.sql_CreateProject _ _ _ = _ |- _ => apply sql_CreateProject_inr in H as (Hr & Hdb & Hid & Hsl & Hws) end.
  do 2 wp_step. apply wp_audit_Record; [done|]. intros w4 Haud. apply wp_ret. intros w5 Hw5.
  assert (w_db w0 = w_db w) as Hw0 by congruence. rewrite Hw0 in *. rewrite Hdb in Haud. rewrite Hr in *.
  eapply Ha. split; [by eexists _, _|done|done|done|]. rewrite Hw5. exact Haud.
Qed.

Lemma wp_WorkspaceIDForProject op pid e (Q : go_error + string → World → Prop) w :
  (∀ e w', w_db w' = w_db w → Q (inl e) w') →
  (∀ ws w', w_db w' = w_db w → sql_GetProjectWorkspaceID pid (w_db w) = Some ws → Q (inr ws) w') →
  wp (found op (Environments.WorkspaceIDForProject pid) e) Q w.
Proof.
  intros He Ha. unfold Environments.WorkspaceIDForProject. do 2 wp_step; [by apply He|].
  destruct (sql_GetProjectWorkspaceID pid (w_db w)) eqn:Hs; [by apply Ha|by apply He].
Qed.

Lemma wp_CreateEnvironment c i (Q : go_error + Environments.Environment → World → Prop) w :
  (∀ e w', w_db w' = w_db w → Q (inl e) w') →
  (∀ ws row w', environment_created c i ws row (w_db w) (w_db w') →
     Q (inr (Environments.with_workspace ws (Environments.environmentFromRow row))) w') →
  wp (Environments.Create c i) Q w.
Proof.
  intros He Ha. unfold Environments.Create. do 2 wp_step; [|by apply He]. do 2 wp_step; [|by apply He]. do 2 wp_step; [|by apply He].
  wp_step. apply wp_WorkspaceIDForProject; [by apply He|]. intros ws w1 Hw1 Hws.
  wp_step. apply wp_Authorize; [intros; apply He; congruence|]. intros w2 Hw2 Hal.
  do 2 wp_step; [|apply He; congruence]. apply negb_true_iff, String.eqb_neq in H2. do 3 wp_step; [apply He; congruence|].
  wp_step. unfold Environments.InsertEnvironment. wp_step. apply wp_on_unique. wp_step; [done|].
  match goal with H : Environments.sql_CreateEnvironment _ _ _ = _ |- _ => apply sql_CreateEnvironment_inr in H as (Hr & Hdb & Hid & Hsl & Hpj & Hty) end.
  do 2 wp_step. apply wp_audit_Record; [done|]. intros w4 Haud. apply wp_ret. intros w5 Hw5. apply wp_ret.
  assert (w_db w0 = w_db w) as Hw0 by congruence. rewrite Hw0 in *. rewrite Hdb in Haud. rewrite Hr in *. rewrite Hw1 in Hal.
  apply in_list_true in Hty.
  eapply Ha. split; [|done|done|done|done|].
  - eexists _, _, _. split; [done|]. destruct (String.eqb_spec (TrimSpace (ei_Type i)) ""); [by right|by left].
  - rewrite Hw5. exact Haud.
Qed.

Lemma wp_CreateServer c i (Q : go_error + Servers.Server → World → Prop) w :
  (∀ e w', w_db w' = w_db w → Q (inl e) w') →
  (∀ row w', server_created c i row (w_db w) (w_db w') → Q (inr (Servers.serverFromRow row)) w') →
  wp (Servers.Create c i) Q w.
Proof.
  intros He Ha. unfold Servers.Create. do 2 wp_step; [|by apply He]. do 2 wp_step; [|by apply He].
  wp_step. apply wp_Authorize; [by apply He|]. intros w1 Hw1 Hal.
  do 2 wp_step; [|by apply He]. apply negb_true_iff, String.eqb_neq in H1. do 2 wp_step; [apply He; congruence|].
  wp_step. unfold Servers.InsertServer. wp_step. apply wp_on_unique. wp_step; [done|].
  match goal with H : Servers.sql_CreateServer _ _ _ = _ |- _ => apply sql_CreateServer_inr in H as (Hr & Hdb & Hid & Hsl & Hws) end.
  do 2 wp_step. apply wp_audit_Record; [done|]. intros w4 Haud. apply wp_ret. intros w5 Hw5.
  assert (w_db w0 = w_db w) as Hw0 by congruence. rewrite Hw0 in *. rewrite Hdb in Haud. rewrite Hr in *.
  eapply Ha. split; [by eexists _, _|done|done|done|]. rewrite Hw5. exact Haud.
Qed.

Lemma wp_GetServer id (Q : go_error + Servers.Server → World → Prop) w :
  (∀ e w', w_db w' = w_db w → Q (inl e) w') →
  (∀ row w', w_db w' = w_db w → lookup_by srv_ID id (servers (w_db w)) = Some row → Q (inr (Servers.serverFromRow row)) w') →
  wp (Servers.GetServer id) Q w.
Proof.
  intros He Ha. unfold Servers.GetServer, Servers.sql_GetServer. do 2 wp_step; [by apply He|].
  destruct (lookup_by srv_ID id _) eqn:Hl; [by apply Ha|by apply He].
Qed.
Lemma wp_DeleteServer c id (Q : go_error + unit → World → Prop) w :
  (∀ e w', w_db w' = w_db w → Q (inl e) w') →
  (∀ row w', server_deleted c id row (w_db w) (w_db w') → Q (inr tt) w') →
  wp (Servers.Delete c id) Q w.
Proof.
  intros He Ha. unfold Servers.Delete. do 2 wp_step; [|by apply He].
  wp_step. apply wp_GetServer; [by apply He|]. intros row w1 Hw1 Hl.
  assert (srv_ID row = id) as Hid by by apply lookup_by_Some in Hl as [_ ?].
  wp_step. apply wp_Authorize; [intros; apply He; congruence|]. intros w2 Hw2 Hal. simpl in Hal.
  do 2 wp_step; [apply He; congruence|]. rename w0 into w3.
  wp_step. unfold Servers.store_DeleteServer. wp_step. apply wp_exec_opt; [done|by intros|].
  intros st del w4 Hdel. unfold Servers.sql_DeleteServer in Hdel. destruct (has_key srv_ID id (servers (w_db w3))); [|done].
  injection Hdel as <- Hdb. do 2 wp_step. wp_step; [|done]. apply wp_audit_Record; [done|]. intros w5 Haud w6 Hw6.
  apply (Ha row). split; [done|rewrite <- Hw1; by rewrite <- Hid|]. rewrite Hw6. simpl in Haud. rewrite Hid, <- Hdb in Haud.
  by replace (w_db w) with (w_db w3) by congruence.
Qed.

Lemma wp_InviteMember c i (Q : go_error + unit → World → Prop) w :
  (∀ e w', w_db w' = w_db w → Q (inl e) w') →
  (∀ u w', member_invited c i u (w_db w) (w_db w') → Q (inr tt) w') →
  wp (Projects.InviteMember c i) Q w.
Proof.
  intros He Ha. unfold Projects.InviteMember. wp_step. apply wp_Authorize; [by apply He|]. intros w1 Hw1 Hal.
  do 2 wp_step; [|by apply He]. apply in_list_true in H. wp_step. unfold Projects.UserIDByEmail. do 2 wp_step; [apply He; congruence|].
  unfold Projects.sql_GetUserByEmail. destruct (lookup_by us_Email _ _) as [u|] eqn:Hu; simpl; [|apply He; congruence].
  do 2 wp_step; [apply He; congruence|]. wp_step. unfold Projects.AddMember. apply wp_on_unique. wp_step; [done|]. destruct a.
  match goal with H : Projects.sql_AddWorkspaceMember _ _ _ _ _ = _ |- _ => apply sql_AddWorkspaceMember_inr in H as (Hdb & _ & Hm & Hws & _) end.
  apply wp_audit_Record; [done|]. intros w5 Haud w6 Hw6. assert (w_db w0 = w_db w) as Hw0 by congruence.
  rewrite Hw0 in *. rewrite Hdb in Haud. apply (Ha u). split; [done|congruence|done|done|]. rewrite Hw6. by eexists.
Qed.

Lemma wp_MemberRole op ws u e (Q : go_error + string → World → Prop) w :
  (∀ e w', w_db w' = w_db w → Q (inl e) w') →
  (∀ role w', w_db w' = w_db w → member_role ws u (w_db w) = Some role → Q (inr role) w') →
  wp (found op (Projects.MemberRole ws u) e) Q w.
Proof.
  intros He Ha. unfold Projects.MemberRole. do 2 wp_step; [by apply He|].
  destruct (GetWorkspaceMemberRole ws u (w_db w)) eqn:Hs; [by apply Ha|by apply He].
Qed.

Lemma wp_ChangeMemberRole c i (Q : go_error + unit → World → Prop) w :
  (∀ e w', w_db w' = w_db w → Q (inl e) w') →
  (∀ old w', role_changed c i old (w_db w) (w_db w') → Q (inr tt) w') →
  wp (Projects.ChangeMemberRole c i) Q w.
Proof.
  intros He Ha. unfold Projects.ChangeMemberRole. wp_step. apply wp_Authorize; [by apply He|]. intros w1 Hw1 Hal.
  do 2 wp_step; [|by apply He]. apply in_list_true in H.
  wp_step. apply wp_MemberRole; [intros; apply He; congruence|]. intros old w2 Hw2 Hold. rewrite Hw1 in Hold.
  do 2 wp_step; [|apply He; congruence]. do 2 wp_step; [apply He; congruence|]. wp_step. unfold Projects.UpdateMemberRole.
  wp_step; [done|]. destruct a.
  match goal with H : Projects.sql_UpdateMemberRole _ _ _ _ _ = _ |- _ => unfold Projects.sql_UpdateMemberRole in H; rename H into Hup end.
  case_match; [done|]. injection Hup as Hdb. apply wp_audit_Record; [done|]. intros w5 Haud w6 Hw6.
  assert (w_db w0 = w_db w) as Hw0 by congruence. rewrite Hw0 in *. apply (Ha old). split; [done|done| |done|].
  - intros ->. apply negb_true_iff, andb_false_iff in H0 as [H0|H0]; [done|]. by apply negb_false_iff, String.eqb_eq in H0.
  - by rewrite Hw6, Hdb.
Qed.

Lemma wp_RemoveMember c i (Q : go_error + unit → World → Prop) w :
  (∀ e w', w_db w' = w_db w → Q (inl e) w') →
  (∀ old w', member_removed c i old (w_db w) (w_db w') → Q (inr tt) w') →
  wp (Projects.RemoveMember c i) Q w.
Proof.
  intros He Ha. unfold Projects.RemoveMember. wp_step. apply wp_Authorize; [by apply He|]. intros w1 Hw1 Hal.
  wp_step. apply wp_MemberRole; [intros; apply He; congruence|]. intros old w2 Hw2 Hold. rewrite Hw1 in Hold.
  do 2 wp_step; [|apply He; congruence]. do 2 wp_step; [apply He; congruence|]. wp_step. unfold Projects.store_RemoveMember.
  wp_step; [done|]. destruct a.
  match goal with H : Projects.sql_RemoveMember _ _ _ _ = _ |- _ => unfold Projects.sql_RemoveMember in H; injection H as Hdb end.
  apply wp_audit_Record; [done|]. intros w5 Haud w6 Hw6.
  assert (w_db w0 = w_db w) as Hw0 by congruence. rewrite Hw0 in *. apply (Ha old). split; [done| |done|].
  - intros ->. done.
  - by rewrite Hw6, Hdb.
Qed.
End Rules.
