(* ===== verification/TenancyProps.v ===== *)
(** * TenancyProps: who owns what, through any request

    The invariant of workspaces, members, projects, environments and servers, that the
    requests on them keep it and the invariants of the modules below them, and that
    ownership only accumulates and is granted by owners alone. *)
From S2P Require Import Prelude.
From S2P Require Import GoStrings.
From S2P Require Import Problem.
From S2P Require Import Schema.
From S2P Require Import Platform.
From S2P Require Import Authz.
From S2P Require Import DeployStore.
From S2P Require Import DeployHandlers.
From S2P Require Import DeployInv.
From S2P Require Import DeploySystem.
From S2P Require Import BackupSystem.
From S2P Require Import Config.
From S2P Require Import ConfigProps.
From S2P Require Import Services.
From S2P Require Import ServicesProps.
From S2P Require Projects.
From S2P Require Environments.
From S2P Require Servers.
From S2P Require Import TenancySpec.
Import Projects (project_resource, workspace_resource, slugify, member_of, member_roles, wm_set_role,
  im_WorkspaceID, im_Email, im_Role, cr_WorkspaceID, cr_UserID, cr_Role, rm_WorkspaceID, rm_UserID).
Import Environments (environment_resource, env_types).
Import Servers (server_resource).

(** ** Requests *)
Inductive TenancyRequest :=
  | TCreateWorkspace (name : string) | TCreateProject (i : Projects.CreateInput)
  | TCreateEnvironment (i : Environments.CreateInput) | TCreateServer (i : Servers.CreateInput) | TDeleteServer (id : string)
  | TInvite (i : Projects.InviteMemberInput) | TChangeRole (i : Projects.ChangeRoleInput) | TRemove (i : Projects.RemoveMemberInput)
  | TListMembers (ws : string) | TListMyWorkspaces | TGetProject (id : string) | TListProjects (ws : string)
  | TGetEnvironment (id : string) | TListEnvironments (pj : string) | TGetServer (id : string) | TListServers (ws : string).

(** ** The invariant *)
Definition member_key (m : db_WorkspaceMember) : string * string := (wm_WorkspaceID m, wm_UserID m).
Definition member_ok (d : DB) (m : db_WorkspaceMember) : Prop :=
  wm_Role m ∈ member_roles ∧ has_key ws_ID (wm_WorkspaceID m) (workspaces d) = true ∧ has_key us_ID (wm_UserID m) (users d) = true.
(** Somebody owns the workspace. *)
Definition owned (d : DB) (w : db_Workspace) : Prop :=
  ∃ m, m ∈ workspace_members d ∧ wm_WorkspaceID m = ws_ID w ∧ wm_Role m = RoleOwner.
Definition project_key (p : db_Project) : string * string := (pj_WorkspaceID p, pj_Slug p).
Definition environment_key (e : db_Environment) : string * string := (en_ProjectID e, en_Slug e).
Definition server_key (s : db_Server) : string * string := (srv_WorkspaceID s, srv_Slug s).

Record twf (d : DB) : Prop := {
  twf_ws_ids : NoDup (map ws_ID (workspaces d));
  twf_ws_slugs : NoDup (map ws_Slug (workspaces d));
  twf_owned : Forall (owned d) (workspaces d);
  twf_member_keys : NoDup (map member_key (workspace_members d));
  twf_members : Forall (member_ok d) (workspace_members d);
  twf_pj_ids : NoDup (map pj_ID (projects d));
  twf_pj_keys : NoDup (map project_key (projects d));
  twf_projects : Forall (λ p, has_key ws_ID (pj_WorkspaceID p) (workspaces d) = true) (projects d);
  twf_en_ids : NoDup (map en_ID (environments d));
  twf_en_keys : NoDup (map environment_key (environments d));
  twf_environments : Forall (λ e, has_key pj_ID (en_ProjectID e) (projects d) = true ∧ en_Type e ∈ env_types) (environments d);
  twf_srv_ids : NoDup (map srv_ID (servers d));
  twf_srv_keys : NoDup (map server_key (servers d));
  twf_servers : Forall (λ s, has_key ws_ID (srv_WorkspaceID s) (workspaces d) = true) (servers d);
}.

(** The tables the invariant is about. *)
Definition tenancy (d : DB) := (workspaces d, workspace_members d, users d, projects d, environments d, servers d).
Lemma twf_frame d d' : tenancy d' = tenancy d → twf d → twf d'.
Proof.
  intros H [T1 T2 T3 T4 T5 T6 T7 T8 T9 T10 T11 T12 T13 T14]. injection H as H1 H2 H3 H4 H5 H6.
  split; rewrite ?H1, ?H2, ?H4, ?H5, ?H6; try done.
  - eapply Forall_impl; [exact T3|]. intros w. unfold owned. by rewrite H2.
  - eapply Forall_impl; [exact T5|]. intros m. unfold member_ok. by rewrite H1, H3.
Qed.
Lemma twf_audited a ty ti ws ac d d' : audited a ty ti ws ac d d' → twf d → twf d'.
Proof. intros (row & -> & _). by apply twf_frame. Qed.

Lemma has_key_more {X} (key : X → string) id l x : has_key key id l = true → has_key key id (l ++ [x]) = true.
Proof. rewrite !has_key_true. intros (y & Hy & He). exists y. rewrite elem_of_app. by auto. Qed.
Lemma owned_more d d' w : (∀ m, m ∈ workspace_members d → ∃ m', m' ∈ workspace_members d' ∧ wm_WorkspaceID m' = wm_WorkspaceID m ∧ (wm_Role m = RoleOwner → wm_Role m' = RoleOwner)) →
  owned d w → owned d' w.
Proof. intros H (m & Hm & H1 & H2). destruct (H m Hm) as (m' & Hm' & E1 & E2). exists m'. rewrite E1. auto. Qed.

Lemma twf_members_frame d ms :
  NoDup (map member_key ms) → Forall (member_ok d) ms → Forall (owned (set_workspace_members ms d)) (workspaces d) →
  twf d → twf (set_workspace_members ms d).
Proof. intros H1 H2 H3 [T1 T2 T3 T4 T5 T6 T7 T8 T9 T10 T11 T12 T13 T14]. by split. Qed.

Section Effects.
Context {E : Env} {A : Authorizer}.

Lemma twf_workspace_created owner name actor row d d' : workspace_created owner name actor row d d' → twf d → twf d'.
Proof.
  intros [_ _ [Hid Hsl] Hu (now & Haud) Hm] [T1 T2 T3 T4 T5 T6 T7 T8 T9 T10 T11 T12 T13 T14]. eapply twf_audited; [exact Haud|].
  assert (∀ id, has_key ws_ID id (workspaces d) = true → has_key ws_ID id (workspaces d ++ [row]) = true) as Hmore
    by (intros; by apply has_key_more).
  assert (has_key ws_ID (ws_ID row) (workspaces d ++ [row]) = true) as Hrow
    by (apply has_key_true; exists row; rewrite elem_of_app; split; [right; by left|done]).
  split; simpl; try done.
  - apply NoDup_map_snoc; [done|]. intros y Hy Heq. apply Hid. rewrite <- Heq. apply list_elem_of_fmap. by exists y.
  - apply NoDup_map_snoc; [done|]. intros y Hy Heq. apply Hsl. rewrite <- Heq. apply list_elem_of_fmap. by exists y.
  - apply Forall_app. split.
    + eapply Forall_impl; [exact T3|]. intros w. apply owned_more. intros m Hin. exists m. simpl. rewrite elem_of_app. auto.
    + constructor; [|done]. eexists. simpl. rewrite elem_of_app. split; [right; by left|done].
  - apply NoDup_map_snoc; [done|]. intros y Hy. by apply Hm.
  - apply Forall_app. split.
    + eapply Forall_impl; [exact T5|]. intros m (H1 & H2 & H3). split; [done|]. split; [by apply Hmore|done].
    + constructor; [|done]. split; [simpl; set_solver|]. done.
  - eapply Forall_impl; [exact T8|]. intros p. by apply Hmore.
  - eapply Forall_impl; [exact T14|]. intros s. by apply Hmore.
Qed.
Lemma twf_project_created c i row d d' : project_created c i row d d' → twf d → twf d'.
Proof.
  intros [_ _ _ (Hid & Hk & Hws) Haud] [T1 T2 T3 T4 T5 T6 T7 T8 T9 T10 T11 T12 T13 T14]. eapply twf_audited; [exact Haud|].
  split; simpl; try done.
  - apply NoDup_map_snoc; [done|]. intros y Hy Heq. apply Hid. rewrite <- Heq. apply list_elem_of_fmap. by exists y.
  - by apply NoDup_map_snoc.
  - apply Forall_app. by split; [|constructor].
  - eapply Forall_impl; [exact T11|]. intros e [H1 H2]. split; [by apply has_key_more|done].
Qed.
Lemma twf_environment_created c i ws row d d' : environment_created c i ws row d d' → twf d → twf d'.
Proof.
  intros [_ _ _ _ (Hid & Hk & Hpj & Hty) Haud] [T1 T2 T3 T4 T5 T6 T7 T8 T9 T10 T11 T12 T13 T14]. eapply twf_audited; [exact Haud|].
  split; simpl; try done.
  - apply NoDup_map_snoc; [done|]. intros y Hy Heq. apply Hid. rewrite <- Heq. apply list_elem_of_fmap. by exists y.
  - by apply NoDup_map_snoc.
  - apply Forall_app. by split; [|constructor].
Qed.
Lemma twf_server_created c i row d d' : server_created c i row d d' → twf d → twf d'.
Proof.
  intros [_ _ _ (Hid & Hk & Hws) Haud] [T1 T2 T3 T4 T5 T6 T7 T8 T9 T10 T11 T12 T13 T14]. eapply twf_audited; [exact Haud|].
  split; simpl; try done.
  - apply NoDup_map_snoc; [done|]. intros y Hy Heq. apply Hid. rewrite <- Heq. apply list_elem_of_fmap. by exists y.
  - by apply NoDup_map_snoc.
  - apply Forall_app. by split; [|constructor].
Qed.
Lemma twf_server_deleted c id row d d' : server_deleted c id row d d' → twf d → twf d'.
Proof.
  intros [_ _ Haud] [T1 T2 T3 T4 T5 T6 T7 T8 T9 T10 T11 T12 T13 T14]. eapply twf_audited; [exact Haud|].
  split; simpl; try done; try (by apply NoDup_map_where).
  apply Forall_forall. intros s [Hs _]%elem_of_where. by apply (proj1 (Forall_forall _ _) T14).
Qed.
Lemma twf_member_invited c i u d d' : member_invited c i u d d' → twf d → twf d'.
Proof.
  intros [Hr Hu _ (Hk & Hws) (now & Haud)] T. eapply twf_audited; [exact Haud|]. apply twf_members_frame; [| | |exact T].
  - apply NoDup_map_snoc; [apply T|]. exact Hk.
  - apply Forall_app. split; [apply T|]. constructor; [|done]. apply lookup_by_Some in Hu as [Hu _].
    split; [simpl; set_solver|]. split; [done|]. apply has_key_true. by exists u.
  - eapply Forall_impl; [apply T|]. intros w. apply owned_more. intros m Hm. exists m. simpl. rewrite elem_of_app. auto.
Qed.

(** The membership of a user is the row found for them. *)
Lemma member_role_row d ws u role m : twf d → member_role ws u d = Some role → m ∈ workspace_members d →
  member_of ws u m = true → wm_Role m = role.
Proof.
  intros T Hr Hm Hb. unfold member_role, GetWorkspaceMemberRole in Hr.
  destruct (List.find _ _) as [m'|] eqn:Hf; [|done]. injection Hr as <-.
  apply find_Some_elem in Hf as [Hm' Hb']. unfold member_of in Hb. propify.
  assert (m' = m) as ->; [|done]. apply (NoDup_map_inj member_key _ _ _ (twf_member_keys _ T)); [done|done|]. unfold member_key. congruence.
Qed.
Lemma twf_role_changed c i old d d' : role_changed c i old d d' → twf d → twf d'.
Proof.
  intros [Hr Hold Hkeep _ Haud] T. eapply twf_audited; [exact Haud|]. apply twf_members_frame; [| | |exact T].
  - rewrite map_update_where by done. apply T.
  - apply Forall_update_where; [|apply T]. by intros m (H1 & H2 & H3) _.
  - eapply Forall_impl; [apply T|]. intros w. apply owned_more. intros m Hm.
    exists (if member_of (cr_WorkspaceID i) (cr_UserID i) m then wm_set_role (cr_Role i) m else m). simpl.
    split; [apply elem_of_update_where; by exists m|]. destruct (member_of _ _ m) eqn:Hb; [|done]. split; [done|].
    intros Ho. simpl. apply Hkeep. by rewrite <- (member_role_row _ _ _ _ _ T Hold Hm Hb).
Qed.
Lemma twf_member_removed c i old d d' : member_removed c i old d d' → twf d → twf d'.
Proof.
  intros [Hold Hno _ Haud] T. eapply twf_audited; [exact Haud|]. apply twf_members_frame; [| | |exact T].
  - apply NoDup_map_where, T.
  - apply Forall_forall. intros m [Hm _]%elem_of_where. by apply (proj1 (Forall_forall _ _) (twf_members _ T)).
  - eapply Forall_impl; [apply T|]. intros w (m & Hm & Hw & Ho). exists m. simpl. rewrite elem_of_where. split; [|done].
    split; [done|]. apply negb_true_iff, not_true_iff_false. intros Hb. apply Hno.
    by rewrite <- (member_role_row _ _ _ _ _ T Hold Hm Hb).
Qed.
End Effects.

(** ** The modules below keep their invariants *)
Lemma lookup_by_app {X} (key : X → string) id l k x : lookup_by key id l = Some x → lookup_by key id (l ++ k) = Some x.
Proof.
  unfold lookup_by. induction l as [|y l IH]; [done|]. simpl. by destruct (String.eqb (key y) id).
Qed.
(** Environments and projects may be added; nothing the other modules look at changes. *)
Record grown (d d' : DB) : Prop := {
  gr_projects : ∃ ps, projects d' = projects d ++ ps;
  gr_environments : ∃ es, environments d' = environments d ++ es;
  gr_rest : services d' = services d ∧ deployments d' = deployments d ∧ deployment_events d' = deployment_events d ∧
    teardown_jobs d' = teardown_jobs d ∧ backups d' = backups d ∧ restore_jobs d' = restore_jobs d ∧
    config_entries d' = config_entries d ∧ source_connections d' = source_connections d;
  gr_servers : ∃ ss, servers d' = servers d ++ ss;
  gr_server_ids : NoDup (map srv_ID (servers d'));
}.
Lemma inv_grown d d' : grown d d' → inv d → inv d'.
Proof.
  intros [(ps & Hp) (es & He) (H1 & H2 & H3 & H4 & H5 & H6 & H7 & H8) (ss & Hs) Hn] [I1 I2 I3 [S1 S2]].
  assert (other_step d d') as O.
  { split; rewrite ?H1; try done; try apply I1.
    - intros s Hin. by exists s.
    - intros s Hin. exists s. rewrite Hs, elem_of_app. auto. }
  split; [by eapply wf_other_step|by eapply bwf_other_step|by eapply cwf_frame|]. split; rewrite H1; [|done].
  eapply Forall_impl; [exact S1|]. intros s [R1 R2 R3 R4 R5]. split; [done|done|done| |].
  - unfold in_tree, sql_GetEnvironmentWorkspaceAndProject in *. rewrite Hp, He.
    destruct (lookup_by en_ID _ (environments d)) as [e|] eqn:Hle; [|done]. rewrite (lookup_by_app _ _ _ es e Hle).
    destruct (lookup_by pj_ID _ (projects d)) as [p|] eqn:Hlp; [|done]. by rewrite (lookup_by_app _ _ _ ps p Hlp).
  - unfold connection_exists. by rewrite H8.
Qed.

(** What goes with a server. *)
Lemma gone_server_dep id d i :
  has_key dp_ID i (where_ (λ r, String.eqb (dp_ServerID r) id) (deployments d)) = true ↔
  ∃ r, r ∈ deployments d ∧ dp_ID r = i ∧ dp_ServerID r = id.
Proof.
  rewrite has_key_true. split.
  - intros (x & [Hx Hb]%elem_of_where & Hi). apply String.eqb_eq in Hb. by exists x.
  - intros (r & Hr & Hi & Hs). exists r. by rewrite elem_of_where, Hs, String.eqb_refl.
Qed.
Lemma not_eqb (a b : string) : negb (String.eqb a b) = true ↔ a ≠ b.
Proof. by rewrite negb_true_iff, String.eqb_neq. Qed.

Lemma wf_delete_server id d : wf d → wf (Servers.delete_server_rows id d).
Proof.
  intros [W1 W2 W3 W4 W5 W6 W7 W8]. unfold Servers.delete_server_rows. set (gone := λ i, has_key dp_ID i _). split; simpl.
  - done.
  - done.
  - by apply NoDup_map_where.
  - rewrite map_map. simpl. by apply NoDup_map_where.
  - apply Forall_forall. intros r' (r & [Hr Hne%not_eqb]%elem_of_where & ->)%elem_of_cleared.
    destruct (proj1 (Forall_forall _ _) W5 r Hr) as [D1 [Hsv (s & Hs & Hid & Hws)] D3 D4]. split; [done| | |done].
    + split; [exact Hsv|]. exists s. simpl. rewrite elem_of_where, not_eqb, Hid. done.
    + destruct D3 as [(P1 & P2 & P3 & P4 & P5 & P6)|D3]; [by left|right; by apply preview_cols_cleared].
  - by apply NoDup_map_where.
  - apply Forall_forall. intros t [Ht Hne]%elem_of_where. rewrite negb_orb in Hne. apply andb_true_iff in Hne as [Hne%not_eqb _].
    destruct (proj1 (Forall_forall _ _) W7 t Ht) as (r & Hr & H1 & H2 & H3 & H4 & H5 & H6).
    exists (clear_rollback gone r). split; [|split; [done|split; [by apply preview_cols_cleared|done]]].
    apply elem_of_cleared. exists r. rewrite elem_of_where, not_eqb, <- H4. done.
  - apply Forall_forall. intros e [He Hne%negb_true_iff]%elem_of_where.
    destruct (proj1 (Forall_forall _ _) W8 e He) as (r & Hr & Hid). exists (clear_rollback gone r). split; [|done].
    apply elem_of_cleared. exists r. rewrite elem_of_where, not_eqb. split; [split; [done|]|done].
    intros Hs. apply not_true_iff_false in Hne. apply Hne, gone_server_dep. by exists r.
Qed.
Lemma inv_delete_server id d : inv d → inv (Servers.delete_server_rows id d).
Proof.
  intros [I1 [B1 B2 B3 B4] I3 I4]. split; [by apply wf_delete_server| |by eapply cwf_frame; [|exact I3]|by eapply swf_frame; [..|exact I4]].
  unfold Servers.delete_server_rows. split; simpl.
  - by apply NoDup_map_where.
  - apply Forall_forall. intros b [Hb Hne%not_eqb]%elem_of_where.
    destruct (proj1 (Forall_forall _ _) B2 b Hb) as [Hsv (s & Hs & Hid & Hws)]. split; [exact Hsv|].
    exists s. simpl. rewrite elem_of_where, not_eqb, Hid. done.
  - by apply NoDup_map_where.
  - apply Forall_forall. intros r [Hr Hne]%elem_of_where. rewrite negb_orb in Hne. apply andb_true_iff in Hne as [Hne%not_eqb _].
    destruct (proj1 (Forall_forall _ _) B4 r Hr) as (b & Hb & H1 & H2 & H3 & H4). exists b. simpl.
    rewrite elem_of_where, not_eqb, H3. done.
Qed.

(** ** The system of requests *)
Section System.
Context {E : Env} {A : Authorizer}.

Definition handle_tenancy (c : Principal) (q : TenancyRequest) : M unit :=
  match q with
  | TCreateWorkspace name => discard (Projects.CreateWorkspace c name)
  | TCreateProject i => discard (Projects.Create c i)
  | TCreateEnvironment i => discard (Environments.Create c i)
  | TCreateServer i => discard (Servers.Create c i)
  | TDeleteServer id => Servers.Delete c id
  | TInvite i => Projects.InviteMember c i
  | TChangeRole i => Projects.ChangeMemberRole c i
  | TRemove i => Projects.RemoveMember c i
  | TListMembers ws => discard (Projects.ListMembers c ws)
  | TListMyWorkspaces => discard (Projects.ListMyWorkspaces (p_UserID c))
  | TGetProject id => discard (Projects.Get c id)
  | TListProjects ws => discard (Projects.ListByWorkspace c ws)
  | TGetEnvironment id => discard (Environments.Get c id)
  | TListEnvironments pj => discard (Environments.ListByProject c pj)
  | TGetServer id => discard (Servers.Get c id)
  | TListServers ws => discard (Servers.ListByWorkspace c ws)
  end.

(** What a read needs. *)
Definition tenancy_read_allowed (c : Principal) (d : DB) : Prop :=
  ∃ a res, allows c a res d ∧ a ∈ [ActionMemberList; ActionProjectRead; ActionEnvironmentRead; ActionServerRead].

Definition tenancy_effect (c : Principal) (q : TenancyRequest) (d d' : DB) : Prop :=
  match q with
  | TCreateWorkspace name => IsAuthenticated c = true ∧ ∃ row, workspace_created (p_UserID c) name (p_UserID c) row d d'
  | TCreateProject i => ∃ row, project_created c i row d d'
  | TCreateEnvironment i => ∃ ws row, environment_created c i ws row d d'
  | TCreateServer i => ∃ row, server_created c i row d d'
  | TDeleteServer id => ∃ row, server_deleted c id row d d'
  | TInvite i => ∃ u, member_invited c i u d d'
  | TChangeRole i => ∃ old, role_changed c i old d d'
  | TRemove i => ∃ old, member_removed c i old d d'
  | TListMyWorkspaces => d' = d
  | _ => d' = d ∧ tenancy_read_allowed c d
  end.

Lemma wp_handle_tenancy c q w :
  wp (handle_tenancy c q) (λ r w', match r with inl _ => w_db w' = w_db w | inr _ => tenancy_effect c q (w_db w) (w_db w') end) w.
Proof.
  assert (∀ a res (d d' : DB), a ∈ [ActionMemberList; ActionProjectRead; ActionEnvironmentRead; ActionServerRead] →
    d' = d → allows c a res d → tenancy_read_allowed c d') as Hread by (intros a res d d' Ha -> Hal; by exists a, res).
  destruct q as [name|i|i|i|id|i|i|i|ws| |id|ws|id|pj|id|ws]; simpl; try apply wp_discard.
  - apply wp_CreateWorkspace; [done|]. intros row w' Hau H. split; [done|]. by exists row.
  - apply wp_CreateProject; [done|]. intros row w' H. by exists row.
  - apply wp_CreateEnvironment; [done|]. intros ws row w' H. by exists ws, row.
  - apply wp_CreateServer; [done|]. intros row w' H. by exists row.
  - apply wp_DeleteServer; [done|]. intros row w' H. by exists row.
  - apply wp_InviteMember; [done|]. intros u w' H. by exists u.
  - apply wp_ChangeMemberRole; [done|]. intros old w' H. by exists old.
  - apply wp_RemoveMember; [done|]. intros old w' H. by exists old.
  - unfold Projects.ListMembers, Projects.store_ListMembers. wp_step. apply wp_Authorize; [done|]. intros w1 Hw1 Hal.
    wp_step; [congruence|]. split; [congruence|]. eapply Hread; [|reflexivity|exact Hal]. set_solver.
  - unfold Projects.ListMyWorkspaces, Projects.ListWorkspacesForUser. by wp_step.
  - unfold Projects.Get, Projects.GetProject, Projects.sql_GetProject. do 2 wp_step; [|done]. wp_step. do 2 wp_step; [done|].
    destruct (lookup_by _ _ _); [|by apply wp_fail]. wp_step. wp_step. apply wp_Authorize; [intros; congruence|]. intros w2 Hw2 Hal.
    apply wp_ret. split; [congruence|]. eapply Hread; [|symmetry; eassumption|exact Hal]. set_solver.
  - unfold Projects.ListByWorkspace, Projects.store_ListByWorkspace. do 2 wp_step; [|done]. wp_step. apply wp_Authorize; [done|]. intros w1 Hw1 Hal.
    wp_step; [congruence|]. split; [congruence|]. eapply Hread; [|reflexivity|exact Hal]. set_solver.
  - unfold Environments.Get, Environments.GetEnvironment. do 2 wp_step; [|done]. wp_step. do 2 wp_step; [done|].
    destruct (Environments.sql_GetEnvironment _ _) as [[? ?]|]; [|by apply wp_fail]. wp_step. wp_step. apply wp_Authorize; [intros; congruence|]. intros w2 Hw2 Hal.
    apply wp_ret. split; [congruence|]. eapply Hread; [|symmetry; eassumption|exact Hal]. set_solver.
  - unfold Environments.ListByProject, Environments.store_ListByProject. do 2 wp_step; [|done].
    wp_step. apply wp_WorkspaceIDForProject; [done|]. intros ws w1 Hw1 Hws. wp_step. apply wp_Authorize; [intros; congruence|]. intros w2 Hw2 Hal.
    wp_step; [congruence|]. split; [congruence|]. eapply Hread; [|symmetry; exact Hw1|exact Hal]. set_solver.
  - unfold Servers.Get. do 2 wp_step; [|done]. wp_step. apply wp_GetServer; [done|]. intros row w1 Hw1 Hl.
    wp_step. apply wp_Authorize; [intros; congruence|]. intros w2 Hw2 Hal.
    apply wp_ret. split; [congruence|]. eapply Hread; [|symmetry; exact Hw1|exact Hal]. set_solver.
  - unfold Servers.ListByWorkspace, Servers.store_ListByWorkspace. do 2 wp_step; [|done]. wp_step. apply wp_Authorize; [done|]. intros w1 Hw1 Hal.
    wp_step; [congruence|]. split; [congruence|]. eapply Hread; [|reflexivity|exact Hal]. set_solver.
Qed.

Lemma twf_effect c q d d' : tenancy_effect c q d d' → twf d → twf d'.
Proof.
  destruct q; simpl.
  - intros (_ & row & H). by eapply twf_workspace_created.
  - intros (row & H). by eapply twf_project_created.
  - intros (ws & row & H). by eapply twf_environment_created.
  - intros (row & H). by eapply twf_server_created.
  - intros (row & H). by eapply twf_server_deleted.
  - intros (u & H). by eapply twf_member_invited.
  - intros (old & H). by eapply twf_role_changed.
  - intros (old & H). by eapply twf_member_removed.
  - by intros [-> _].
  - by intros ->.
  - by intros [-> _].
  - by intros [-> _].
  - by intros [-> _].
  - by intros [-> _].
  - by intros [-> _].
  - by intros [-> _].
Qed.

(** A step that leaves the tables of the other modules alone. *)
Lemma grown_same d d' : services d' = services d → deployments d' = deployments d → deployment_events d' = deployment_events d →
  teardown_jobs d' = teardown_jobs d → backups d' = backups d → restore_jobs d' = restore_jobs d →
  config_entries d' = config_entries d → source_connections d' = source_connections d →
  (∃ ps, projects d' = projects d ++ ps) → (∃ es, environments d' = environments d ++ es) →
  (∃ ss, servers d' = servers d ++ ss) → NoDup (map srv_ID (servers d')) → grown d d'.
Proof. intros. split; [done|done|done|done|done]. Qed.
Lemma no_more {X} (l : list X) : ∃ k, l = l ++ k. Proof. exists []. by rewrite app_nil_r. Qed.

Lemma inv_effect c q d d' : tenancy_effect c q d d' → twf d → inv d → inv d'.
Proof.
  intros He T I. pose proof (twf_srv_ids _ T) as Hn.
  assert (∀ a ty ti ws ac d1, grown d d1 → audited a ty ti ws ac d1 d' → inv d') as Hg
    by (intros a ty ti ws ac d1 G Haud; eapply inv_audited; [exact Haud|by eapply inv_grown]).
  destruct q; simpl in He; try (by destruct He as [-> _]).
  - destruct He as (_ & row & [_ _ _ _ (now & Haud) _]). eapply Hg; [|exact Haud]. by apply grown_same; try done; apply no_more.
  - destruct He as (row & [_ _ _ _ Haud]). eapply Hg; [|exact Haud]. apply grown_same; try done; try apply no_more. by eexists.
  - destruct He as (ws & row & [_ _ _ _ _ Haud]). eapply Hg; [|exact Haud]. apply grown_same; try done; try apply no_more. by eexists.
  - destruct He as (row & [_ _ _ (Hid & _) Haud]). eapply Hg; [|exact Haud]. apply grown_same; try done; try apply no_more; [by eexists|].
    simpl. by apply NoDup_snoc_key; [|apply has_key_false].
  - destruct He as (row & [_ _ Haud]). eapply inv_audited; [exact Haud|]. by apply inv_delete_server.
  - destruct He as (u & [_ _ _ _ (now & Haud)]). eapply Hg; [|exact Haud]. by apply grown_same; try done; apply no_more.
  - destruct He as (old & [_ _ _ _ Haud]). eapply Hg; [|exact Haud]. by apply grown_same; try done; apply no_more.
  - destruct He as (old & [_ _ _ Haud]). eapply Hg; [|exact Haud]. by apply grown_same; try done; apply no_more.
Qed.

(** C32: Workspaces, members, projects, environments and servers through any request.
    The invariant is kept: ids, workspace slugs, project slugs of a workspace,
    environment slugs of a project and server slugs of a workspace are unique, nobody is
    a member twice, roles and environment types are of their vocabulary, every row's
    parent exists, and every workspace has an owner. So are the invariants of the
    deployments, backups, configuration and services modules, also when a server is
    deleted with everything on it. A failed request changes nothing; a successful one
    did exactly its one effect, was allowed and is audited. *)
Theorem tenancy_requests_safe c q r w w' :
  twf (w_db w) → handle_tenancy c q w = (r, w') →
  twf (w_db w') ∧ (inv (w_db w) → inv (w_db w')) ∧
  match r with
  | inl _ => w_db w' = w_db w
  | inr _ => tenancy_effect c q (w_db w) (w_db w')
  end.
Proof.
  intros T H. pose proof (wp_run _ _ _ _ _ (wp_handle_tenancy c q w) H) as He. simpl in He.
  destruct r as [e|[]]; [by rewrite He|]. split; [by eapply twf_effect|]. split; [by eapply inv_effect|done].
Qed.
End System.

(** ** Ownership *)
Section Ownership.
Context {E : Env}.
Implicit Types (w : World).

Definition rank (role : string) : Z :=
  if String.eqb role RoleOwner then 3 else if String.eqb role RoleAdmin then 2
  else if String.eqb role RoleMember then 1 else 0.

(** The caller holds a role that grants the action. *)
Definition holds (c : Principal) (ws : string) (a : Action) (d : DB) (role : string) : Prop :=
  member_role ws (p_UserID c) d = Some role ∧ permissions role a = true.

(** What may become of a membership, and where a new one may come from. *)
Definition granted (c : Principal) (d : DB) (m' : db_WorkspaceMember) : Prop :=
  (∃ m, m ∈ workspace_members d ∧ m' = m) ∨
  (wm_WorkspaceID m' ∉ map ws_ID (workspaces d) ∧ wm_UserID m' = p_UserID c) ∨
  (∃ role, holds c (wm_WorkspaceID m') ActionMemberInvite d role ∧ rank (wm_Role m') ≤ rank role ∧ wm_Role m' ≠ RoleOwner) ∨
  holds c (wm_WorkspaceID m') ActionMemberRoleChange d RoleOwner.

Lemma invite_rank role : permissions role ActionMemberInvite = true → 2 ≤ rank role.
Proof.
  unfold permissions, rank, RoleOwner, RoleAdmin, RoleMember, RoleViewer. repeat case_match; simpl; try done; lia.
Qed.
Lemma role_change_owner role : permissions role ActionMemberRoleChange = true → role = RoleOwner.
Proof.
  unfold permissions. destruct (String.eqb_spec role RoleOwner) as [->|]; [done|]. by repeat case_match.
Qed.
Lemma policy_holds c a res d : policy_allows c a res d → ∃ role, holds c (res_WorkspaceID res) a d role.
Proof. intros (_ & _ & role & H1 & H2). by exists role. Qed.

(** C23: Ownership only accumulates, and only from above. Whatever request a caller makes,
    a membership with the role of owner is still there afterwards. A membership that was
    not there before is of the caller, in a workspace created by that request; or was
    granted by an invitation of a member whose role allows it, at most at their own rank
    and never as owner; or is a change of role made by an owner of that very
    workspace. So no admin can make an owner, and nobody can act on a workspace they do
    not belong to. *)
Theorem ownership_accumulates (c : Principal) (q : TenancyRequest) r w w' :
  twf (w_db w) → handle_tenancy (A := policy_authorizer) c q w = (r, w') →
  (∀ m, m ∈ workspace_members (w_db w) → wm_Role m = RoleOwner → m ∈ workspace_members (w_db w')) ∧
  Forall (granted c (w_db w)) (workspace_members (w_db w')).
Proof.
  intros T H. pose proof (wp_run _ _ _ _ _ (wp_handle_tenancy c q w) H) as He. simpl in He. set (d := w_db w) in *. clearbody d.
  assert (∀ d', workspace_members d' = workspace_members d →
    (∀ m, m ∈ workspace_members d → wm_Role m = RoleOwner → m ∈ workspace_members d') ∧ Forall (granted c d) (workspace_members d')) as Hsame.
  { intros d' ->. split; [done|]. apply Forall_forall. intros m Hm. left. by exists m. }
  assert (∀ m, m ∈ workspace_members d → granted c d m) as Hold by (intros m Hm; left; by exists m).
  destruct r as [e|[]]; [apply Hsame; by rewrite He|]. set (d' := w_db w') in *. clearbody d'.
  destruct q; simpl in He; try (by apply Hsame; destruct He as [-> _]).
  - destruct He as (_ & row & [_ _ [Hid _] _ (now & au & -> & _) _]). simpl. split; [intros m Hm _; apply elem_of_app; by left|].
    apply Forall_app. split; [by apply Forall_forall|]. constructor; [|done]. right; left. done.
  - destruct He as (row & [_ _ _ _ (au & -> & _)]). by apply Hsame.
  - destruct He as (ws & row & [_ _ _ _ _ (au & -> & _)]). by apply Hsame.
  - destruct He as (row & [_ _ _ _ (au & -> & _)]). by apply Hsame.
  - destruct He as (row & [_ _ (au & -> & _)]). by apply Hsame.
  - destruct He as (u & [Hr _ Hal _ (now & au & -> & _)]). simpl. split; [intros m Hm _; apply elem_of_app; by left|].
    apply Forall_app. split; [by apply Forall_forall|]. constructor; [|done]. right; right; left.
    apply policy_holds in Hal as (role & Hh). exists role. split; [exact Hh|]. destruct Hh as [_ Hp%invite_rank].
    simpl in *. rewrite !elem_of_cons in Hr.
    destruct Hr as [->|[->|[->|Hr]]]; [split; [etransitivity; [|exact Hp]; by vm_compute|done]..|]. by apply elem_of_nil in Hr.
  - destruct He as (old & [Hr Hrold Hkeep Hal (au & -> & _)]). simpl. apply policy_holds in Hal as (role & Hh).
    assert (role = RoleOwner) as -> by by apply role_change_owner, Hh. split.
    + intros m Hm Ho. apply elem_of_update_where. exists m. split; [done|]. destruct (member_of _ _ m) eqn:Hb; [|done].
      pose proof (member_role_row _ _ _ _ _ T Hrold Hm Hb) as Heq. rewrite Ho in Heq. unfold wm_set_role.
      rewrite (Hkeep (eq_sym Heq)), <- Ho. by destruct m.
    + apply Forall_forall. intros m' (m & Hm & ->)%elem_of_update_where. destruct (member_of _ _ m) eqn:Hb; [|by apply Hold].
      right; right; right. simpl. unfold member_of in Hb. apply andb_true_iff in Hb as [Hb%String.eqb_eq _]. by rewrite Hb.
  - destruct He as (old & [Hrold Hno _ (au & -> & _)]). simpl. split.
    + intros m Hm Ho. apply elem_of_where. split; [done|]. apply negb_true_iff, not_true_iff_false. intros Hb. apply Hno.
      by rewrite <- (member_role_row _ _ _ _ _ T Hrold Hm Hb).
    + apply Forall_forall. intros m [Hm _]%elem_of_where. by apply Hold.
Qed.
End Ownership.
