(* ===== verification/Passwd.v ===== *)
(** * Passwd: password hashes

    [internal/platform/passwd]: argon2id hashes in the PHC string format.  The key
    derivation ([golang.org/x/crypto/argon2]) is the class [Argon2]; formatting, the
    scanner of [decode] and base64 are modelled, and a password verifies against the
    hash made of it. *)
From S2P Require Import Prelude.
From S2P Require Import GoStrings.
From S2P Require Import Problem.
From S2P Require Import Platform.

(** [argon2.IDKey password salt time memory threads keyLen]; [None] is a panic, which
    needs a zero cost or an empty key. *)
Class Argon2 := {
  IDKey : string → list Z → Z → Z → Z → Z → option (list Z);
  IDKey_ok : ∀ pw salt t m p n, 1 ≤ t → 1 ≤ p → 1 ≤ n →
    ∃ key, IDKey pw salt t m p n = Some key ∧ Z.of_nat (length key) = n ∧ Forall (λ b, 0 ≤ b < 256) key;
}.
Definition argon2_Version : Z := 19.

(** ** [base64.RawStdEncoding] *)
Fixpoint b64raw_encode (l : list Z) : bytes :=
  match l with
  | a :: b :: c :: l' =>
      let v := Z.lor (Z.shiftl a 16) (Z.lor (Z.shiftl b 8) c) in
      b64std_char (Z.land (Z.shiftr v 18) 63) :: b64std_char (Z.land (Z.shiftr v 12) 63) ::
      b64std_char (Z.land (Z.shiftr v 6) 63) :: b64std_char (Z.land v 63) :: b64raw_encode l'
  | [a; b] =>
      let v := Z.lor (Z.shiftl a 16) (Z.shiftl b 8) in
      [b64std_char (Z.land (Z.shiftr v 18) 63); b64std_char (Z.land (Z.shiftr v 12) 63); b64std_char (Z.land (Z.shiftr v 6) 63)]
  | [a] =>
      let v := Z.shiftl a 16 in
      [b64std_char (Z.land (Z.shiftr v 18) 63); b64std_char (Z.land (Z.shiftr v 12) 63)]
  | [] => []
  end.
Definition b64std_value (c : ascii) : option Z :=
  if is_upper c then Some (code c - 65)
  else if is_lower c then Some (code c - 71)
  else if is_digit c then Some (code c + 4)
  else if Ascii.eqb c "+" then Some 62
  else if Ascii.eqb c "/" then Some 63 else None.
(** The value of a quantum, and its bytes. *)
Definition quantum (a b c d : Z) : Z := Z.lor (Z.shiftl a 18) (Z.lor (Z.shiftl b 12) (Z.lor (Z.shiftl c 6) d)).
Definition byte_at (v n : Z) : Z := Z.land (Z.shiftr v n) 255.
Fixpoint b64raw_quanta (l : list Z) : option (list Z) :=
  match l with
  | [] => Some []
  | [_] => None
  | [a; b] => Some [byte_at (quantum a b 0 0) 16]
  | [a; b; c] => let v := quantum a b c 0 in Some [byte_at v 16; byte_at v 8]
  | a :: b :: c :: d :: l' =>
      let v := quantum a b c d in
      (λ r, byte_at v 16 :: byte_at v 8 :: byte_at v 0 :: r) <$> b64raw_quanta l'
  end.
(** Line breaks are skipped; any other byte outside the alphabet is an error. *)
Definition b64raw_decode (s : string) : option (list Z) :=
  mapM b64std_value (List.filter (λ c, negb (is_code 10 c || is_code 13 c)) (bytes_of s)) ≫= b64raw_quanta.

(** ** [fmt.Sscanf] with [%d] *)
(** White space before an operand; a line break in it is an error. *)
Definition scan_spaces (l : bytes) : option bytes :=
  let rest := drop_seqs space_seqs (length l) l in
  if existsb (is_code 10) (take (length l - length rest) l) then None else Some rest.
Fixpoint scan_digits (l : bytes) : bytes * bytes :=
  match l with
  | c :: l' => if is_digit c then (let '(a, b) := scan_digits l' in (c :: a, b)) else ([], l)
  | [] => ([], [])
  end.
Definition scan_number (l : bytes) : option (Z * bytes) :=
  let '(ds, rest) := scan_digits l in
  match ds with [] => None | _ => n ← digits_value 0 ds; Some (n, rest) end.
Definition scan_uint (bits : Z) (l : bytes) : option (Z * bytes) :=
  '(n, rest) ← scan_spaces l ≫= scan_number; if n <? 2 ^ bits then Some (n, rest) else None.
Definition scan_int (l : bytes) : option (Z * bytes) :=
  l ← scan_spaces l;
  let sign := match l with c :: _ => if Ascii.eqb c "-" then Some true else if Ascii.eqb c "+" then Some false else None | [] => None end in
  '(n, rest) ← scan_number (match sign with Some _ => tail l | None => l end);
  let n := if sign is Some true then - n else n in
  if (- 2 ^ 63 <=? n) && (n <? 2 ^ 63) then Some (n, rest) else None.
Definition scan_lit (lit : string) (l : bytes) : option bytes := strip_prefix (bytes_of lit) l.
(** ["v=%d"] into an int, ["m=%d,t=%d,p=%d"] into two uint32 and a uint8; what follows
    the last operand is not looked at. *)
Definition scan_version (s : string) : option Z := fst <$> (scan_lit "v=" (bytes_of s) ≫= scan_int).
Definition scan_params (s : string) : option (Z * Z * Z) :=
  '(m, l) ← scan_lit "m=" (bytes_of s) ≫= scan_uint 32;
  '(t, l) ← scan_lit ",t=" l ≫= scan_uint 32;
  '(p, _) ← scan_lit ",p=" l ≫= scan_uint 8;
  Some (m, t, p).

(** ** Hashing *)
Record params := mk_params { memory : Z; iterations : Z; parallelism : Z; saltLen : Z; keyLen : Z }.
Definition defaults : params := mk_params (64 * 1024) 3 2 16 32.
Definition ErrMismatch : go_error := ErrOther "password does not match".

(** The PHC string. *)
Definition encode_hash (salt key : list Z) : string :=
  "$argon2id$v=" +:+ Itoa argon2_Version +:+ "$m=" +:+ Itoa (memory defaults) +:+ ",t=" +:+ Itoa (iterations defaults) +:+
  ",p=" +:+ Itoa (parallelism defaults) +:+ "$" +:+ str_of (b64raw_encode salt) +:+ "$" +:+ str_of (b64raw_encode key).

Definition decode (encoded : string) : go_error + (params * list Z * list Z) :=
  match Split encoded "$" with
  | [_; alg; ver; ps; salt; key] =>
      if negb (String.eqb alg "argon2id") then inl (ErrOther "passwd: invalid hash format")
      else match scan_version ver with
           | None => inl (Errorf "passwd: invalid version: %w" [] None)
           | Some version =>
               if negb (version =? argon2_Version) then inl (Errorf "passwd: incompatible argon2 version %d" [AInt version] None)
               else match scan_params ps with
                    | None => inl (Errorf "passwd: invalid params: %w" [] None)
                    | Some (m, t, p) =>
                        match b64raw_decode salt with
                        | None => inl (Errorf "passwd: invalid salt: %w" [] None)
                        | Some salt =>
                            match b64raw_decode key with
                            | None => inl (Errorf "passwd: invalid key: %w" [] None)
                            | Some key => inr (mk_params m t p 0 0, salt, key)
                            end
                        end
                    end
           end
  | _ => inl (ErrOther "passwd: invalid hash format")
  end.

Section Passwd.
Context {E : Env} {N : Entropy} {K : Argon2}.

Definition panic : go_error := ErrOther "panic".
(** [Hash] *)
Definition Hash (password : string) : M string :=
  salt ← on_err (λ e, Errorf "passwd: read salt: %w" [] (Some e)) (port (λ k, rand_Read k (Z.to_nat (saltLen defaults))));
  match IDKey password salt (iterations defaults) (memory defaults) (parallelism defaults) (keyLen defaults) with
  | None => fail panic
  | Some key => mret (encode_hash salt key)
  end.
(** [Verify]: nothing on a match. *)
Definition Verify (password encoded : string) : option go_error :=
  match decode encoded with
  | inl e => Some e
  | inr (p, salt, key) =>
      match IDKey password salt (iterations p) (memory p) (parallelism p) (Z.of_nat (length key) mod 2 ^ 32) with
      | None => Some panic
      | Some other => if bool_decide (key = other) then None else Some ErrMismatch
      end
  end.
End Passwd.

(** ** Round trips *)
Lemma b64std_value_char n : 0 ≤ n < 64 → b64std_value (b64std_char n) = Some n.
Proof.
  intros Hn. assert (forallb (λ k, bool_decide (b64std_value (b64std_char (Z.of_nat k)) = Some (Z.of_nat k))) (seq 0 64) = true) as H by by vm_compute.
  rewrite <- (Z2Nat.id n) by lia. apply (bool_decide_eq_true_1 _). apply (proj1 (forallb_forall _ _) H). apply in_seq. lia.
Qed.
(** Bytes of an encoding: letters, digits, [+] and [/]. *)
Definition b64_byte (c : ascii) : bool := match b64std_value c with Some _ => true | None => false end.
Lemma b64_byte_plain c : b64_byte c = true → c ≠ "$"%char ∧ negb (is_code 10 c || is_code 13 c) = true.
Proof.
  intros H. assert (forallb (λ c, negb (b64_byte c) || (negb (Ascii.eqb c "$") && negb (is_code 10 c || is_code 13 c))) all_bytes = true) as Hall by by vm_compute.
  pose proof (byte_forall _ Hall c) as Hc. simpl in Hc. rewrite H in Hc. apply andb_true_iff in Hc as [H1 H2].
  split; [|done]. intros ->. done.
Qed.

(** Three bytes make four sextets and come back. *)
Lemma land_255 v : Z.land v 255 = v mod 256.
Proof. change 255 with (Z.ones 8). by rewrite Z.land_ones. Qed.
Lemma sextet_range v n : 0 ≤ Z.land (Z.shiftr v n) 63 < 64.
Proof. rewrite land_63. by apply Z.mod_pos_bound. Qed.
Lemma quantum_value a b c d : 0 ≤ b < 64 → 0 ≤ c < 64 → 0 ≤ d < 64 →
  quantum a b c d = a * 262144 + b * 4096 + c * 64 + d.
Proof.
  intros Hb Hc Hd. unfold quantum. rewrite (lor_shiftl_add c d 6) by (simpl; lia). change (2 ^ 6) with 64.
  rewrite (lor_shiftl_add b _ 12) by (simpl; lia). change (2 ^ 12) with 4096.
  rewrite lor_shiftl_add by (simpl; lia). change (2 ^ 18) with 262144. lia.
Qed.
Lemma sextets v : 0 ≤ v < 2 ^ 24 →
  quantum (Z.land (Z.shiftr v 18) 63) (Z.land (Z.shiftr v 12) 63) (Z.land (Z.shiftr v 6) 63) (Z.land v 63) = v.
Proof.
  intros Hv. rewrite !land_63, !Z.shiftr_div_pow2 by lia.
  rewrite quantum_value by (by apply Z.mod_pos_bound).
  change (2 ^ 18) with 262144. change (2 ^ 12) with 4096. change (2 ^ 6) with 64. change (2 ^ 24) with 16777216 in Hv.
  Z.to_euclidean_division_equations; lia.
Qed.
Lemma group_bytes a b c : 0 ≤ a < 256 → 0 ≤ b < 256 → 0 ≤ c < 256 →
  let v := a * 65536 + b * 256 + c in
  0 ≤ v < 2 ^ 24 ∧ byte_at v 16 = a ∧ byte_at v 8 = b ∧ byte_at v 0 = c.
Proof.
  intros Ha Hb Hc v. unfold byte_at. rewrite !land_255, !Z.shiftr_div_pow2 by lia.
  change (2 ^ 16) with 65536. change (2 ^ 8) with 256. change (2 ^ 0) with 1. change (2 ^ 24) with 16777216. unfold v.
  Z.to_euclidean_division_equations; lia.
Qed.

Lemma b64_byte_char n : 0 ≤ n < 64 → b64_byte (b64std_char n) = true.
Proof. intros H. unfold b64_byte. by rewrite b64std_value_char. Qed.

Definition b64raw_ok (l : list Z) : Prop :=
  Forall (λ b, 0 ≤ b < 256) l →
  mapM b64std_value (b64raw_encode l) ≫= b64raw_quanta = Some l ∧ Forall (λ c, b64_byte c = true) (b64raw_encode l).
Lemma b64raw_one a : b64raw_ok [a].
Proof.
  intros [Ha _]%Forall_cons. simpl in Ha. cbn [b64raw_encode].
  replace (Z.shiftl a 16) with (a * 65536 + 0 * 256 + 0) by (rewrite Z.shiftl_mul_pow2 by lia; lia).
  destruct (group_bytes a 0 0) as (Hv & H1 & H2 & H3); [lia..|]. set (v := a * 65536 + 0 * 256 + 0) in *.
  split; [|repeat constructor; apply b64_byte_char, sextet_range].
  cbn [mapM]. rewrite !b64std_value_char by apply sextet_range. simpl.
  pose proof (sextets v Hv) as Hq.
  assert (Z.land (Z.shiftr v 6) 63 = 0 ∧ Z.land v 63 = 0) as [E1 E2].
  { rewrite !land_63, Z.shiftr_div_pow2 by lia. change (2 ^ 6) with 64. unfold v. clear -Ha. Z.to_euclidean_division_equations; lia. }
  rewrite E1, E2 in Hq. by rewrite Hq, H1.
Qed.
Lemma b64raw_two a b : b64raw_ok [a; b].
Proof.
  intros [Ha [Hb _]%Forall_cons]%Forall_cons. simpl in Ha, Hb. cbn [b64raw_encode].
  rewrite <- (Z.lor_0_r (Z.shiftl b 8)). rewrite b64_group by lia.
  destruct (group_bytes a b 0) as (Hv & H1 & H2 & H3); [lia..|]. set (v := a * 65536 + b * 256 + 0) in *.
  split; [|repeat constructor; apply b64_byte_char, sextet_range].
  cbn [mapM]. rewrite !b64std_value_char by apply sextet_range. simpl.
  pose proof (sextets v Hv) as Hq.
  assert (Z.land v 63 = 0) as E2.
  { rewrite land_63. unfold v. clear -Ha Hb. Z.to_euclidean_division_equations; lia. }
  rewrite E2 in Hq. by rewrite Hq, H1, H2.
Qed.
Lemma b64raw_three a b c l : b64raw_ok l → b64raw_ok (a :: b :: c :: l).
Proof.
  intros IH [Ha [Hb [Hc Hl]%Forall_cons]%Forall_cons]%Forall_cons. destruct (IH Hl) as [I1 I2]. cbn [b64raw_encode].
  rewrite b64_group by done. destruct (group_bytes a b c) as (Hv & H1 & H2 & H3); [done..|]. set (v := a * 65536 + b * 256 + c) in *.
  pose proof (sextet_range v 0) as H0. rewrite Z.shiftr_0_r in H0.
  split; [|repeat (constructor; [apply b64_byte_char; first [apply sextet_range|done]|]); done].
  cbn [mapM]. rewrite !b64std_value_char by (apply sextet_range || done).
  destruct (mapM b64std_value (b64raw_encode l)) as [vs|] eqn:Hm; [|done]. simpl in *. rewrite I1. simpl.
  by rewrite (sextets v Hv), H1, H2, H3.
Qed.
Lemma b64raw_all l : b64raw_ok l ∧ (∀ a, b64raw_ok (a :: l)) ∧ ∀ a b, b64raw_ok (a :: b :: l).
Proof.
  induction l as [|x l (I1 & I2 & I3)]; [|split; [done|]; split; [done|]; intros a b; by apply b64raw_three].
  split; [by split|]. split; [apply b64raw_one|apply b64raw_two].
Qed.
Lemma b64raw_decode_encode l : Forall (λ b, 0 ≤ b < 256) l → b64raw_decode (str_of (b64raw_encode l)) = Some l.
Proof.
  intros Hl. destruct (proj1 (b64raw_all l) Hl) as [H1 H2]. unfold b64raw_decode. rewrite bytes_of_str_of.
  assert (List.filter (λ c, negb (is_code 10 c || is_code 13 c)) (b64raw_encode l) = b64raw_encode l) as ->; [|done].
  clear H1. induction H2 as [|c k Hc _ IH]; [done|]. cbn [List.filter]. destruct (b64_byte_plain c Hc) as [_ ->]. by rewrite IH.
Qed.
Lemma b64raw_no_dollar l : Forall (λ b, 0 ≤ b < 256) l → existsb (Ascii.eqb "$") (b64raw_encode l) = false.
Proof.
  intros Hl. destruct (proj1 (b64raw_all l) Hl) as [_ H2]. apply not_true_iff_false. intros (c & Hin & Hc)%existsb_exists.
  rewrite Forall_forall in H2. apply list_elem_of_In, H2, b64_byte_plain in Hin as [Hn _]. apply Ascii.eqb_eq in Hc. congruence.
Qed.

(** What is decoded from a hash made here. *)
Lemma decode_encode salt key : Forall (λ b, 0 ≤ b < 256) salt → Forall (λ b, 0 ≤ b < 256) key →
  decode (encode_hash salt key) = inr (mk_params (memory defaults) (iterations defaults) (parallelism defaults) 0 0, salt, key).
Proof.
  intros Hs Hk. unfold decode, encode_hash, Split.
  change ("$argon2id$v=" +:+ Itoa argon2_Version +:+ "$m=" +:+ Itoa (memory defaults) +:+ ",t=" +:+ Itoa (iterations defaults) +:+
    ",p=" +:+ Itoa (parallelism defaults) +:+ "$" +:+ str_of (b64raw_encode salt) +:+ "$" +:+ str_of (b64raw_encode key))
    with ("$argon2id$v=19$m=65536,t=3,p=2$" +:+ str_of (b64raw_encode salt) +:+ "$" +:+ str_of (b64raw_encode key)).
  rewrite !bytes_of_app, !bytes_of_str_of. change (bytes_of "$") with ["$"%char].
  change (bytes_of "$argon2id$v=19$m=65536,t=3,p=2$") with (bytes_of "$argon2id$v=19$m=65536,t=3,p=2" ++ ["$"%char]).
  rewrite <- !app_assoc. simpl (["$"%char] ++ _). rewrite !split_bytes_app.
  rewrite (split_bytes_plain _ (b64raw_encode salt)), (split_bytes_plain _ (b64raw_encode key)) by by apply b64raw_no_dollar.
  change (split_bytes "$" (bytes_of "$argon2id$v=19$m=65536,t=3,p=2"))
    with (map bytes_of [""; "argon2id"; "v=19"; "m=65536,t=3,p=2"]).
  cbn [map app]. rewrite !str_of_bytes_of. simpl negb.
  change (scan_version "v=19") with (Some 19). change (scan_params "m=65536,t=3,p=2") with (Some (65536, 3, 2)).
  cbn [negb]. change (negb (19 =? argon2_Version)) with false. cbv iota.
  by rewrite !b64raw_decode_encode.
Qed.

Section Verified.
Context {E : Env} {N : Entropy} {K : Argon2}.

(** A hash made of a password. *)
Definition hash_of (password hash : string) : Prop :=
  ∃ n salt key, rand_Read n 16 = inr salt ∧ IDKey password salt 3 (64 * 1024) 2 32 = Some key ∧ hash = encode_hash salt key.

Lemma wp_Hash pw (Q : go_error + string → World → Prop) w :
  (∀ e w', w_db w' = w_db w → Q (inl e) w') →
  (∀ h w', w_db w' = w_db w → hash_of pw h → Q (inr h) w') → wp (Hash pw) Q w.
Proof.
  intros He Ha. unfold Hash. do 3 wp_step. change (Z.to_nat (saltLen defaults)) with 16%nat in *.
  destruct (rand_Read n 16) as [e|salt] eqn:Hr; [by apply He|].
  destruct (IDKey _ _ _ _ _ _) as [key|] eqn:Hk; [|by apply He]. apply Ha; [done|]. by exists n, salt, key.
Qed.

(** What verifies against the hash made of a password. *)
Lemma Verify_hash_of pw hash : hash_of pw hash →
  ∃ salt key, length salt = 16%nat ∧ IDKey pw salt 3 (64 * 1024) 2 32 = Some key ∧
    ∀ q, Verify q hash = None ↔ IDKey q salt 3 (64 * 1024) 2 32 = Some key.
Proof.
  intros (n & salt & key & Hr & Hk & ->). apply rand_Read_spec in Hr as [Hlen Hsalt].
  destruct (IDKey_ok pw salt 3 (64 * 1024) 2 32) as (key' & Hk' & Hlk & Hb); [lia..|]. rewrite Hk in Hk'. injection Hk' as <-.
  exists salt, key. split; [done|]. split; [done|]. intros q.
  unfold Verify. rewrite decode_encode by done. rewrite Hlk. change (32 mod 2 ^ 32) with 32. cbn [iterations memory parallelism defaults].
  destruct (IDKey q salt 3 (64 * 1024) 2 32) as [other|]; [|done].
  destruct (bool_decide_reflect (key = other)); split; intros Heq; try done; congruence.
Qed.
Lemma hash_of_verifies pw hash : hash_of pw hash → Verify pw hash = None.
Proof. intros H. destruct (Verify_hash_of _ _ H) as (salt & key & _ & Hk & HV). by apply HV. Qed.

(** A password verifies against a hash made of it, and another one does exactly when
    it derives the same key from the salt. The hash reads back whatever the random salt
    was: the scanner, the separators and the unpadded base64 of [decode] undo [Hash]. *)
Theorem password_roundtrip pw hash :
  hash_of pw hash →
  Verify pw hash = None ∧
  ∃ salt, length salt = 16%nat ∧
    ∀ pw', Verify pw' hash = None ↔ IDKey pw' salt 3 (64 * 1024) 2 32 = IDKey pw salt 3 (64 * 1024) 2 32.
Proof.
  intros H. split; [by apply hash_of_verifies|]. destruct (Verify_hash_of _ _ H) as (salt & key & Hl & Hk & HV).
  exists salt. split; [done|]. intros q. by rewrite HV, Hk.
Qed.
End Verified.
