(* ===== verification/Auth.v ===== *)
(** * Auth: users, sessions, tokens and the gate of the API

    [internal/auth] (auth.go, tokens.go, service.go, store.go, postgres.go) over the
    statements of [auth.sql.go].  A credential is stored as the SHA-256 of its text; a
    password as an argon2id hash ([Passwd]).  Registration makes the user the owner of a
    first workspace through [Projects].  The mailer port is the class [Mailer]; its
    failures are not returned, as in the code.

    From a request's headers to a handler with a caller.  [internal/app/auth_interceptor.go] and the handlers of [internal/auth/handler.go].
    The interceptor resolves a bearer token or the session cookie, refuses cross-site
    requests outside development, and lets only the public procedures through without a
    caller.  [Header] holds the headers the code reads, the cookies as [net/http] parsed
    them; the outcome is a refusal of the interceptor or what the handler does. *)
From S2P Require Import Prelude.
From S2P Require Import GoStrings.
From S2P Require Import GoUrl.
From S2P Require Import Sha256.
From S2P Require Import Problem.
From S2P Require Import Schema.
From S2P Require Import Platform.
From S2P Require Import Authz.
From S2P Require Import DeployStore.
From S2P Require Projects.
From S2P Require Import Passwd.

(** ** Data (auth.go, store.go) *)
Record User := mk_User { u_ID : string; u_Email : string; u_EmailVerified : bool; u_CreatedAt : Z }.
Record APIToken := mk_APIToken {
  t_ID : string; t_Name : string; t_TokenPrefix : string; t_CreatedAt : Z; t_LastUsedAt : option Z; t_ExpiresAt : option Z }.
Record AuthConfig := mk_AuthConfig {
  ac_BaseURL : string; ac_SessionTTL : Z; ac_AllowOpenRegistration : bool; ac_RequireEmailVerification : bool }.
Record RegisterInput := mk_RegisterInput { ri_Email : string; ri_Password : string }.
Record LoginInput := mk_LoginInput { li_Email : string; li_Password : string; li_UserAgent : string }.
Record Authenticated := mk_Authenticated { an_User : User; an_SessionToken : string }.
Record Registered := mk_Registered { rd_EmailVerificationRequired : bool }.
Record NewAPIToken := mk_NewAPIToken { nt_Token : string; nt_Meta : APIToken }.
Record storedUser := mk_storedUser { su_User : User; su_PasswordHash : string }.
Record userToken := mk_userToken { tk_TokenID : string; tk_UserID : string }.

Definition minPasswordLen : Z := 8.
Definition purposeEmailVerify : string := "email_verify".
Definition purposePasswordReset : string := "password_reset".
Definition time_Hour : Z := 3600 * time_Second.
Definition defaultSessionTTL : Z := 720 * time_Hour.
Definition resetTTL : Z := time_Hour.
Definition verifyTTL : Z := 24 * time_Hour.
Definition MethodSession : string := "session".
Definition MethodAPIToken : string := "api_token".

(** ** Tokens (tokens.go) *)
Definition tokenBytes : nat := 32.
Definition hashToken (raw : string) : list Z := sum_string raw.
Section Tokens.
Context {E : Env} {N : Entropy}.
Definition read_random : M (list Z) :=
  on_err (λ e, Errorf "auth: read random: %w" [] (Some e)) (port (λ k, rand_Read k tokenBytes)).
Definition newOpaqueToken : M (string * list Z) :=
  b ← read_random;
  let raw := str_of (b64_encode b) in
  mret (raw, hashToken raw).
Definition newAPIToken : M (string * string * list Z) :=
  b ← read_random;
  let raw := "plk_" +:+ str_of (b64_encode b) in
  mret (raw, str_take 12 raw, hashToken raw).
End Tokens.

(** ** Statements *)
Definition sql_CreateUser (email : string) (passwordHash : option string) (st : Stamp) (d : DB) : go_error + (db_User * DB) :=
  if has_key us_ID (st_uuid st) (users d) then inl (ErrUnique "users_pkey")
  else if has_key us_Email email (users d) then inl (ErrUnique "users_email_key")
  else let r := mk_us (st_uuid st) email (st_now st) passwordHash false in inr (r, set_users (users d ++ [r]) d).
Definition sql_GetUserByEmail (email : string) (d : DB) : option db_User := lookup_by us_Email email (users d).
Definition sql_GetUserByID (id : string) (d : DB) : option db_User := lookup_by us_ID id (users d).
Definition sql_CountUsers (d : DB) : Z := Z.of_nat (length (users d)).
(** [pg_advisory_xact_lock]: transactions are atomic here, so it only may fail. *)
Definition sql_AcquireRegistrationLock (d : DB) : unit := tt.
Definition us_set_password (h : option string) (u : db_User) : db_User :=
  mk_us (us_ID u) (us_Email u) (us_CreatedAt u) h (us_EmailVerified u).
Definition us_set_verified (u : db_User) : db_User :=
  mk_us (us_ID u) (us_Email u) (us_CreatedAt u) (us_PasswordHash u) true.
Definition user_is (id : string) (u : db_User) : bool := String.eqb (us_ID u) id.
Definition sql_SetUserPassword (id : string) (h : option string) (st : Stamp) (d : DB) : go_error + (unit * DB) :=
  inr (tt, set_users (update_where (user_is id) (us_set_password h) (users d)) d).
Definition sql_SetUserEmailVerified (id : string) (st : Stamp) (d : DB) : go_error + (unit * DB) :=
  inr (tt, set_users (update_where (user_is id) us_set_verified (users d)) d).

Definition sql_CreateSession (userID : string) (tokenHash : list Z) (userAgent : string) (expiresAt : Z) (st : Stamp) (d : DB)
    : go_error + (db_Session * DB) :=
  if has_key ss_ID (st_uuid st) (sessions d) then inl (ErrUnique "sessions_pkey")
  else if has_hash ss_TokenHash tokenHash (sessions d) then inl (ErrUnique "sessions_token_hash_key")
  else if negb (has_key us_ID userID (users d)) then inl (ErrConstraint "sessions_user_id_fkey")
  else let r := mk_ss (st_uuid st) userID tokenHash userAgent (st_now st) (st_now st) expiresAt None in
       inr (r, set_sessions (sessions d ++ [r]) d).
Definition live_session (h : list Z) (now : Z) (s : db_Session) : bool :=
  bool_decide (ss_TokenHash s = h) && bool_decide (ss_RevokedAt s = None) && (now <? ss_ExpiresAt s).
Definition ss_touch (now : Z) (s : db_Session) : db_Session :=
  mk_ss (ss_ID s) (ss_UserID s) (ss_TokenHash s) (ss_UserAgent s) (ss_CreatedAt s) now (ss_ExpiresAt s) (ss_RevokedAt s).
Definition ss_revoke (now : Z) (s : db_Session) : db_Session :=
  mk_ss (ss_ID s) (ss_UserID s) (ss_TokenHash s) (ss_UserAgent s) (ss_CreatedAt s) (ss_LastUsedAt s) (ss_ExpiresAt s) (Some now).
Definition sql_UseSession (tokenHash : list Z) (st : Stamp) (d : DB) : go_error + (string * DB) :=
  match List.find (live_session tokenHash (st_now st)) (sessions d) with
  | None => inl ErrNoRows
  | Some s => inr (ss_UserID s,
                set_sessions (update_where (live_session tokenHash (st_now st)) (ss_touch (st_now st)) (sessions d)) d)
  end.
Definition unrevoked_hash (h : list Z) (s : db_Session) : bool :=
  bool_decide (ss_TokenHash s = h) && bool_decide (ss_RevokedAt s = None).
Definition unrevoked_of (userID : string) (s : db_Session) : bool :=
  String.eqb (ss_UserID s) userID && bool_decide (ss_RevokedAt s = None).
Definition sql_RevokeSessionByTokenHash (tokenHash : list Z) (st : Stamp) (d : DB) : go_error + (unit * DB) :=
  inr (tt, set_sessions (update_where (unrevoked_hash tokenHash) (ss_revoke (st_now st)) (sessions d)) d).
Definition sql_RevokeAllSessionsForUser (userID : string) (st : Stamp) (d : DB) : go_error + (unit * DB) :=
  inr (tt, set_sessions (update_where (unrevoked_of userID) (ss_revoke (st_now st)) (sessions d)) d).

Definition sql_CreateAPIToken (userID name : string) (tokenHash : list Z) (prefix : string) (expiresAt : option Z)
    (st : Stamp) (d : DB) : go_error + (db_ApiToken * DB) :=
  if has_key apt_ID (st_uuid st) (api_tokens d) then inl (ErrUnique "api_tokens_pkey")
  else if has_hash apt_TokenHash tokenHash (api_tokens d) then inl (ErrUnique "api_tokens_token_hash_key")
  else if negb (has_key us_ID userID (users d)) then inl (ErrConstraint "api_tokens_user_id_fkey")
  else let r := mk_apt (st_uuid st) userID name tokenHash prefix (st_now st) None expiresAt None in
       inr (r, set_api_tokens (api_tokens d ++ [r]) d).
Definition live_token (h : list Z) (now : Z) (t : db_ApiToken) : bool :=
  bool_decide (apt_TokenHash t = h) && bool_decide (apt_RevokedAt t = None) &&
  match apt_ExpiresAt t with None => true | Some e => now <? e end.
Definition apt_touch (now : Z) (t : db_ApiToken) : db_ApiToken :=
  mk_apt (apt_ID t) (apt_UserID t) (apt_Name t) (apt_TokenHash t) (apt_TokenPrefix t) (apt_CreatedAt t) (Some now) (apt_ExpiresAt t) (apt_RevokedAt t).
Definition apt_revoke (now : Z) (t : db_ApiToken) : db_ApiToken :=
  mk_apt (apt_ID t) (apt_UserID t) (apt_Name t) (apt_TokenHash t) (apt_TokenPrefix t) (apt_CreatedAt t) (apt_LastUsedAt t) (apt_ExpiresAt t) (Some now).
Definition sql_UseAPIToken (tokenHash : list Z) (st : Stamp) (d : DB) : go_error + (string * DB) :=
  match List.find (live_token tokenHash (st_now st)) (api_tokens d) with
  | None => inl ErrNoRows
  | Some t => inr (apt_UserID t,
                set_api_tokens (update_where (live_token tokenHash (st_now st)) (apt_touch (st_now st)) (api_tokens d)) d)
  end.
Definition sql_ListAPITokensForUser (userID : string) (d : DB) : list db_ApiToken :=
  newest_first apt_CreatedAt (where_ (λ t, String.eqb (apt_UserID t) userID && bool_decide (apt_RevokedAt t = None)) (api_tokens d)).
Definition token_of (id userID : string) (t : db_ApiToken) : bool :=
  String.eqb (apt_ID t) id && String.eqb (apt_UserID t) userID && bool_decide (apt_RevokedAt t = None).
Definition sql_RevokeAPIToken (id userID : string) (st : Stamp) (d : DB) : go_error + (unit * DB) :=
  inr (tt, set_api_tokens (update_where (token_of id userID) (apt_revoke (st_now st)) (api_tokens d)) d).

Definition sql_CreateUserToken (userID purpose : string) (tokenHash : list Z) (expiresAt : Z) (st : Stamp) (d : DB)
    : go_error + (db_UserToken * DB) :=
  if has_key ut_ID (st_uuid st) (user_tokens d) then inl (ErrUnique "user_tokens_pkey")
  else if has_hash ut_TokenHash tokenHash (user_tokens d) then inl (ErrUnique "user_tokens_token_hash_key")
  else if negb (has_key us_ID userID (users d)) then inl (ErrConstraint "user_tokens_user_id_fkey")
  else let r := mk_ut (st_uuid st) userID purpose tokenHash (st_now st) expiresAt None in
       inr (r, set_user_tokens (user_tokens d ++ [r]) d).
Definition redeemable (h : list Z) (purpose : string) (now : Z) (t : db_UserToken) : bool :=
  bool_decide (ut_TokenHash t = h) && String.eqb (ut_Purpose t) purpose && bool_decide (ut_ConsumedAt t = None) && (now <? ut_ExpiresAt t).
(** A SELECT whose condition reads now(). *)
Definition sql_GetUserTokenByHash (tokenHash : list Z) (purpose : string) (st : Stamp) (d : DB) : go_error + (db_UserToken * DB) :=
  match List.find (redeemable tokenHash purpose (st_now st)) (user_tokens d) with
  | None => inl ErrNoRows
  | Some t => inr (t, d)
  end.
Definition ut_consume (now : Z) (t : db_UserToken) : db_UserToken :=
  mk_ut (ut_ID t) (ut_UserID t) (ut_Purpose t) (ut_TokenHash t) (ut_CreatedAt t) (ut_ExpiresAt t) (Some now).
Definition sql_ConsumeUserToken (id : string) (st : Stamp) (d : DB) : go_error + (unit * DB) :=
  inr (tt, set_user_tokens (update_where (λ t, String.eqb (ut_ID t) id) (ut_consume (st_now st)) (user_tokens d)) d).

(** ** The store (postgres.go) *)
Definition user_of (r : db_User) : User := mk_User (us_ID r) (us_Email r) (us_EmailVerified r) (us_CreatedAt r).
Definition derefStr (p : option string) : string := default "" p.
Definition stored_of (r : db_User) : storedUser := mk_storedUser (user_of r) (derefStr (us_PasswordHash r)).
Definition apiTokenFromRow (r : db_ApiToken) : APIToken :=
  mk_APIToken (apt_ID r) (apt_Name r) (apt_TokenPrefix r) (apt_CreatedAt r) (apt_LastUsedAt r) (apt_ExpiresAt r).

Section Store.
Context {E : Env}.
Definition CreateUser (email passwordHash : string) : M User :=
  row ← Projects.on_unique (AlreadyExists "an account with that email already exists" []) (db_exec (sql_CreateUser email (Some passwordHash)));
  mret (user_of row).
(** [None] is the sentinel of the store: errNoUser, errNoSession, errNoAPIToken, errNoToken. *)
Definition GetUserByEmail (email : string) : M (option storedUser) :=
  r ← ok_or_norows (db_query_row (sql_GetUserByEmail email)); mret (stored_of <$> r).
Definition GetUserByID (userID : string) : M (option User) :=
  r ← ok_or_norows (db_query_row (sql_GetUserByID userID)); mret (user_of <$> r).
Definition AcquireRegistrationLock : M unit := db_query sql_AcquireRegistrationLock.
Definition CountUsersTx : M Z := db_query sql_CountUsers.
Definition SetPassword (userID passwordHash : string) : M unit := db_exec (sql_SetUserPassword userID (Some passwordHash)).
Definition SetEmailVerified (userID : string) : M unit := db_exec (sql_SetUserEmailVerified userID).
Definition CreateSession (userID : string) (tokenHash : list Z) (userAgent : string) (expiresAt : Z) : M unit :=
  _ ← db_exec (sql_CreateSession userID tokenHash userAgent expiresAt); mret tt.
Definition SessionUser (tokenHash : list Z) : M (option string) := ok_or_norows (autocommit (db_exec (sql_UseSession tokenHash))).
Definition RevokeSession (tokenHash : list Z) : M unit := db_exec (sql_RevokeSessionByTokenHash tokenHash).
Definition RevokeAllSessions (userID : string) : M unit := db_exec (sql_RevokeAllSessionsForUser userID).
Definition store_CreateAPIToken (userID name : string) (tokenHash : list Z) (prefix : string) (expiresAt : option Z) : M APIToken :=
  row ← db_exec (sql_CreateAPIToken userID name tokenHash prefix expiresAt); mret (apiTokenFromRow row).
Definition APITokenUser (tokenHash : list Z) : M (option string) := ok_or_norows (autocommit (db_exec (sql_UseAPIToken tokenHash))).
Definition store_ListAPITokens (userID : string) : M (list APIToken) :=
  db_query (λ d, map apiTokenFromRow (sql_ListAPITokensForUser userID d)).
Definition store_RevokeAPIToken (userID tokenID : string) : M unit := db_exec (sql_RevokeAPIToken tokenID userID).
Definition CreateUserToken (userID purpose : string) (tokenHash : list Z) (expiresAt : Z) : M unit :=
  _ ← db_exec (sql_CreateUserToken userID purpose tokenHash expiresAt); mret tt.
Definition GetUserToken (tokenHash : list Z) (purpose : string) : M (option userToken) :=
  r ← ok_or_norows (autocommit (db_exec (sql_GetUserTokenByHash tokenHash purpose)));
  mret ((λ t, mk_userToken (ut_ID t) (ut_UserID t)) <$> r).
Definition ConsumeUserToken (tokenID : string) : M unit := db_exec (sql_ConsumeUserToken tokenID).
End Store.

(** ** Mail *)
Record Mail := mk_Mail { ml_to : string; ml_subject : string; ml_body : string }.
(** The port [Mailer]: the n-th interaction delivers, or not. *)
Class Mailer := { Send : nat → Mail → go_error + unit }.
Definition nl : string := str_of [chr 10].

Section Links.
Variable cfg : AuthConfig.
Definition appURL (path : string) : string :=
  str_of (rev (drop_while (Ascii.eqb "/") (rev (bytes_of (ac_BaseURL cfg))))) +:+ path.
Definition link (path token : string) : string := appURL path +:+ "?token=" +:+ QueryEscape token.
Definition already_registered_mail (email : string) : Mail :=
  mk_Mail email "You already have a Plorigo account"
    ("Someone just tried to create a Plorigo account with this email, but you already have one." +:+ nl +:+ nl +:+
     "If this was you, log in:" +:+ nl +:+ appURL "/login" +:+ nl +:+ nl +:+ "Forgot your password?" +:+ nl +:+ appURL "/forgot").
Definition reset_mail (email raw : string) : Mail :=
  mk_Mail email "Reset your Plorigo password"
    ("Reset your Plorigo password:" +:+ nl +:+ nl +:+ link "/reset" raw +:+ nl +:+ nl +:+
     "This link expires in 1 hour. If you didn't request this, ignore this email.").
Definition verification_mail (email raw : string) : Mail :=
  mk_Mail email "Verify your Plorigo email"
    ("Verify your Plorigo email:" +:+ nl +:+ nl +:+ link "/verify" raw +:+ nl +:+ nl +:+ "This link expires in 24 hours.").
End Links.

(** ** The service (service.go) *)
Definition errEmailTaken : go_error := ErrOther "auth: email already registered".
Definition is_email_taken (e : go_error) : bool := match e with ErrOther s => String.eqb s "auth: email already registered" | _ => false end.
Definition is_already_exists (e : go_error) : bool :=
  match as_problem e with Some (KindAlreadyExists, _, _) => true | _ => false end.
Definition errInvalidCredentials : go_error := InvalidInput "invalid email or password" [].
Definition password_too_short : go_error := InvalidInput "password must be at least %d characters" [AInt minPasswordLen].

Definition at_count (s : string) : nat := length (List.filter (Ascii.eqb "@") (bytes_of s)).
Definition normalizeEmail (s : string) : go_error + string :=
  let e := ToLower (TrimSpace s) in
  if String.eqb e "" || ContainsAny e (str_of [chr 32; chr 9]) || negb (at_count e =? 1)%nat
  then inl (InvalidInput "a valid email is required" []) else inr e.
Definition workspaceNameForEmail (email : string) : string :=
  let name := match cut_bytes "@" (bytes_of email) with
              | Some (c :: local, _) => str_of (c :: local)
              | _ => email
              end in
  name +:+ "'s workspace".

Section Service.
Context {E : Env} {N : Entropy} {K : Argon2} {P : Mailer}.
Variable cfg : AuthConfig.

(** Best effort: the error of the port is logged only. *)
Definition sendEmail (m : Mail) : M unit := _ ← try (port (λ n, Send n m)); mret tt.

Definition sessionExpiry : M Z :=
  now ← time_now;
  mret (now + (if ac_SessionTTL cfg <=? 0 then defaultSessionTTL else ac_SessionTTL cfg)).

(** The token is stored; the mail with its link is returned to be sent. *)
Definition verification_request (u : User) : M Mail :=
  '(raw, hash) ← wrap "generate verification token" newOpaqueToken;
  _ ← within_tx (now ← time_now; CreateUserToken (u_ID u) purposeEmailVerify hash (now + verifyTTL));
  mret (verification_mail cfg (u_Email u) raw).
Definition issueVerification (u : User) : M unit := m ← verification_request u; sendEmail m.
Definition maybeSendVerification (u : User) : M unit :=
  if negb (ac_RequireEmailVerification cfg) || u_EmailVerified u then mret tt
  else _ ← try (issueVerification u); mret tt.

(** The gate of a closed registration, inside the transaction. *)
Definition registration_gate : M unit :=
  if ac_AllowOpenRegistration cfg then mret tt
  else _ ← AcquireRegistrationLock; n ← CountUsersTx;
       require (negb (0 <? n)) (PermissionDenied "registration is closed" []).
Definition register_tx (email hash : string) : M User :=
  within_tx
    (_ ← registration_gate;
     user ← on_err (λ e, if is_already_exists e then errEmailTaken else e) (CreateUser email hash);
     _ ← Projects.CreateInitialWorkspace (u_ID user) (workspaceNameForEmail email) (u_ID user);
     _ ← audit_Record "user.register" "user" (u_ID user) "" (u_ID user);
     mret user).
Definition Register (i : RegisterInput) : M Registered :=
  email ← of_sum (normalizeEmail (ri_Email i));
  _ ← require (minPasswordLen <=? len (ri_Password i)) password_too_short;
  hash ← wrap "hash password" (Hash (ri_Password i));
  r ← try (register_tx email hash);
  match r with
  | inl e =>
      if is_email_taken e
      then _ ← sendEmail (already_registered_mail cfg email); mret (mk_Registered (ac_RequireEmailVerification cfg))
      else fail (mapErr e "register")
  | inr created => _ ← maybeSendVerification created; mret (mk_Registered (ac_RequireEmailVerification cfg))
  end.

Definition verified_user (u : User) : User := mk_User (u_ID u) (u_Email u) true (u_CreatedAt u).
(** For local development; not on the RPC surface. *)
Definition SeedUser (email password : string) : M User :=
  email ← of_sum (normalizeEmail email);
  _ ← require (minPasswordLen <=? len password) password_too_short;
  hash ← wrap "hash password" (Hash password);
  existing ← on_err (λ e, mapErr e "seed user") (GetUserByEmail email);
  match existing with
  | Some ex =>
      let u := su_User ex in
      _ ← on_err (λ e, mapErr e "seed user") (within_tx
        (_ ← SetPassword (u_ID u) hash;
         _ ← (if u_EmailVerified u then mret tt else SetEmailVerified (u_ID u));
         audit_Record "user.seed" "user" (u_ID u) "" (u_ID u)));
      mret (verified_user u)
  | None =>
      created ← on_err (λ e, mapErr e "seed user") (within_tx
        (user ← CreateUser email hash;
         _ ← Projects.CreateInitialWorkspace (u_ID user) (workspaceNameForEmail email) (u_ID user);
         _ ← SetEmailVerified (u_ID user);
         _ ← audit_Record "user.seed" "user" (u_ID user) "" (u_ID user);
         mret user));
      mret (verified_user created)
  end.

(** [su.PasswordHash == "" || passwd.Verify(..) != nil] *)
Definition password_matches (password : string) (su : storedUser) : bool :=
  negb (String.eqb (su_PasswordHash su) "") && match Verify password (su_PasswordHash su) with None => true | Some _ => false end.
Definition Login (i : LoginInput) : M Authenticated :=
  let email := ToLower (TrimSpace (li_Email i)) in
  r ← wrap "login" (GetUserByEmail email);
  match r with
  | None => _ ← try (Hash (li_Password i)); fail errInvalidCredentials
  | Some su =>
      _ ← require (password_matches (li_Password i) su) errInvalidCredentials;
      _ ← require (negb (ac_RequireEmailVerification cfg && negb (u_EmailVerified (su_User su))))
            (PermissionDenied "please verify your email before signing in" []);
      '(rawSession, sessionHash) ← wrap "generate session" newOpaqueToken;
      _ ← on_err (λ e, mapErr e "login") (within_tx
        (exp ← sessionExpiry;
         _ ← CreateSession (u_ID (su_User su)) sessionHash (li_UserAgent i) exp;
         audit_Record "user.login" "user" (u_ID (su_User su)) "" (u_ID (su_User su))));
      mret (mk_Authenticated (su_User su) rawSession)
  end.

Definition Logout (caller : Principal) (sessionToken : string) : M unit :=
  if String.eqb sessionToken "" then mret tt
  else on_err (λ e, mapErr e "logout") (within_tx
    (_ ← RevokeSession (hashToken sessionToken);
     audit_Record "user.logout" "user" (p_UserID caller) "" (p_UserID caller))).

Definition CurrentUser (userID : string) : M User :=
  found "current user" (GetUserByID userID) (NotFound "user not found" []).

(** Nothing is mailed to an address without an account. *)
Definition password_reset_request (email : string) : M (option Mail) :=
  r ← wrap "request password reset" (GetUserByEmail (ToLower (TrimSpace email)));
  match r with
  | None => mret None
  | Some su =>
      let u := su_User su in
      '(raw, hash) ← wrap "generate reset token" newOpaqueToken;
      _ ← on_err (λ e, mapErr e "request password reset") (within_tx
        (now ← time_now;
         _ ← CreateUserToken (u_ID u) purposePasswordReset hash (now + resetTTL);
         audit_Record "user.password_reset_requested" "user" (u_ID u) "" (u_ID u)));
      mret (Some (reset_mail cfg (u_Email u) raw))
  end.
Definition RequestPasswordReset (email : string) : M unit :=
  m ← password_reset_request email; match m with None => mret tt | Some m => sendEmail m end.

(** The two phases: the link is checked, then acted on. *)
Definition check_reset_link (token newPassword : string) : M (userToken * string) :=
  _ ← require (minPasswordLen <=? len newPassword) password_too_short;
  ut ← found "reset password" (GetUserToken (hashToken token) purposePasswordReset)
         (InvalidInput "this reset link is invalid or has expired" []);
  hash ← wrap "hash password" (Hash newPassword);
  mret (ut, hash).
Definition apply_reset (ut : userToken) (hash : string) : M unit :=
  on_err (λ e, mapErr e "reset password") (within_tx
    (_ ← SetPassword (tk_UserID ut) hash;
     _ ← ConsumeUserToken (tk_TokenID ut);
     _ ← RevokeAllSessions (tk_UserID ut);
     audit_Record "user.password_reset" "user" (tk_UserID ut) "" (tk_UserID ut))).
Definition ResetPassword (token newPassword : string) : M unit :=
  '(ut, hash) ← check_reset_link token newPassword; apply_reset ut hash.

Definition RequestEmailVerification (userID : string) : M unit :=
  r ← on_err (λ e, mapErr e "request email verification") (GetUserByID userID);
  match r with
  | None => fail (mapErr (ErrOther "auth: user not found") "request email verification")
  | Some u =>
      if u_EmailVerified u then mret tt
      else on_err (λ e, mapErr e "request email verification") (issueVerification u)
  end.

Definition VerifyEmail (token : string) : M unit :=
  ut ← found "verify email" (GetUserToken (hashToken token) purposeEmailVerify)
         (InvalidInput "this verification link is invalid or has expired" []);
  on_err (λ e, mapErr e "verify email") (within_tx
    (_ ← SetEmailVerified (tk_UserID ut);
     _ ← ConsumeUserToken (tk_TokenID ut);
     audit_Record "user.email_verified" "user" (tk_UserID ut) "" (tk_UserID ut))).

Definition CreateAPIToken (userID name : string) : M NewAPIToken :=
  let name := TrimSpace name in
  _ ← require (negb (String.eqb name "")) (InvalidInput "a token name is required" []);
  '(raw, prefix, hash) ← wrap "generate api token" newAPIToken;
  meta ← on_err (λ e, mapErr e "create api token") (within_tx
    (meta ← store_CreateAPIToken userID name hash prefix None;
     _ ← audit_Record "apitoken.create" "api_token" (t_ID meta) "" userID;
     mret meta));
  mret (mk_NewAPIToken raw meta).
Definition ListAPITokens (userID : string) : M (list APIToken) := store_ListAPITokens userID.
Definition RevokeAPIToken (userID tokenID : string) : M unit :=
  _ ← require (id_Parse tokenID) (InvalidInput "invalid token id" []);
  on_err (λ e, mapErr e "revoke api token") (within_tx
    (_ ← store_RevokeAPIToken userID tokenID;
     audit_Record "apitoken.revoke" "api_token" tokenID "" userID)).

Definition anonymous : Principal := mk_Principal "" "".
Definition ResolveSession (sessionToken : string) : M Principal :=
  if String.eqb sessionToken "" then mret anonymous
  else r ← SessionUser (hashToken sessionToken);
       mret (match r with Some u => mk_Principal u MethodSession | None => anonymous end).
Definition ResolveAPIToken (bearer : string) : M Principal :=
  if String.eqb bearer "" then mret anonymous
  else r ← APITokenUser (hashToken bearer);
       mret (match r with Some u => mk_Principal u MethodAPIToken | None => anonymous end).
End Service.

Record Header := mk_Header {
  hd_Authorization : string; hd_Cookies : list (string * string); hd_SecFetchSite : string;
  hd_ConnectProtocolVersion : string; hd_UserAgent : string }.
Definition sessionCookieName : string := "plorigo_session".
(** [Request.Cookie]: the first cookie of the name. *)
Definition Cookie (h : Header) (name : string) : option string :=
  snd <$> List.find (λ c, String.eqb (fst c) name) (hd_Cookies h).
Definition cookieValue (h : Header) (name : string) : string := default "" (Cookie h name).

Definition publicProcedures : list string :=
  ["/controlplane.v1.AuthService/Register"; "/controlplane.v1.AuthService/Login";
   "/controlplane.v1.AuthService/RequestPasswordReset"; "/controlplane.v1.AuthService/ResetPassword";
   "/controlplane.v1.AuthService/VerifyEmail";
   "/agent.v1.AgentService/Register"; "/agent.v1.AgentService/Heartbeat";
   "/agent.v1.DeployService/PollDeployment"; "/agent.v1.DeployService/ReportDeployment";
   "/agent.v1.DeployService/SyncRoutes"; "/agent.v1.DeployService/ReportRouteSync";
   "/agent.v1.BackupService/PollBackupJob"; "/agent.v1.BackupService/ReportBackupJob";
   "/agent.v1.BackupService/PollRestoreJob"; "/agent.v1.BackupService/ReportRestoreJob";
   "/agent.v1.TeardownService/PollTeardownJob"; "/agent.v1.TeardownService/ReportTeardownJob"].

(** What the interceptor answers itself ([connect.NewError]). *)
Inductive Refusal := Unauthenticated (msg : string) | Forbidden (msg : string).

Section Gate.
Context {E : Env}.

Definition resolvePrincipal (h : Header) : M (Principal * bool) :=
  if HasPrefix (hd_Authorization h) "Bearer " then
    p ← ResolveAPIToken (TrimSpace (TrimPrefix (hd_Authorization h) "Bearer ")); mret (p, false)
  else match Cookie h sessionCookieName with
       | Some v => if String.eqb v "" then mret (anonymous, false) else p ← ResolveSession v; mret (p, true)
       | None => mret (anonymous, false)
       end.

Definition cross_site (h : Header) : bool :=
  let site := hd_SecFetchSite h in
  negb (String.eqb site "") && negb (String.eqb site "same-origin") && negb (String.eqb site "same-site") && negb (String.eqb site "none").
(** The checks between the resolver and the handler. *)
Definition admit_caller (dev : bool) (h : Header) (procedure : string) (p : Principal) (viaCookie : bool) : option Refusal :=
  if negb dev && cross_site h then Some (Forbidden "cross-site request blocked")
  else if negb dev && (viaCookie && IsAuthenticated p && String.eqb (hd_ConnectProtocolVersion h) "")
  then Some (Forbidden "missing Connect-Protocol-Version")
  else if negb (IsAuthenticated p) && negb (in_list publicProcedures procedure) then Some (Unauthenticated "authentication required")
  else None.
Definition authInterceptor {X} (dev : bool) (h : Header) (procedure : string) (next : Principal → M X) : M (Refusal + X) :=
  r ← try (resolvePrincipal h);
  match r with
  | inl _ => mret (inl (Unauthenticated "could not verify credentials"))
  | inr (p, viaCookie) =>
      match admit_caller dev h procedure p viaCookie with
      | Some e => mret (inl e)
      | None => x ← next p; mret (inr x)
      end
  end.
End Gate.

(** ** The handlers of AuthService (handler.go) *)
Inductive AuthRequest :=
  | QRegister (email password : string) | QLogin (email password : string) | QLogout
  | QRequestPasswordReset (email : string) | QResetPassword (token newPassword : string)
  | QRequestEmailVerification | QVerifyEmail (token : string) | QCurrentUser
  | QCreateAPIToken (name : string) | QListAPITokens | QRevokeAPIToken (id : string).
Definition auth_procedure (r : AuthRequest) : string :=
  "/controlplane.v1.AuthService/" +:+
  match r with
  | QRegister _ _ => "Register" | QLogin _ _ => "Login" | QLogout => "Logout"
  | QRequestPasswordReset _ => "RequestPasswordReset" | QResetPassword _ _ => "ResetPassword"
  | QRequestEmailVerification => "RequestEmailVerification" | QVerifyEmail _ => "VerifyEmail"
  | QCurrentUser => "CurrentUser" | QCreateAPIToken _ => "CreateAPIToken"
  | QListAPITokens => "ListAPITokens" | QRevokeAPIToken _ => "RevokeAPIToken"
  end.
(** What the client gets: the message, and the session cookie set or cleared. *)
Inductive AuthResponse :=
  | RRegistered (verification_required : bool) | RLoggedIn (u : User) (set_cookie : string) | RLoggedOut
  | RUser (u : User) | RToken (t : NewAPIToken) | RTokens (ts : list APIToken) | REmpty.
(** The handlers' own check answers with connect's unauthenticated code. *)
Definition unauthenticated : go_error := ErrOther "authentication required".

Section Handlers.
Context {E : Env} {N : Entropy} {K : Argon2} {P : Mailer}.
Variable cfg : AuthConfig.

Definition handle_auth (h : Header) (p : Principal) (r : AuthRequest) : M AuthResponse :=
  match r with
  | QRegister e pw => x ← Register cfg (mk_RegisterInput e pw); mret (RRegistered (rd_EmailVerificationRequired x))
  | QLogin e pw => x ← Login cfg (mk_LoginInput e pw (hd_UserAgent h)); mret (RLoggedIn (an_User x) (an_SessionToken x))
  | QLogout => _ ← Logout p (cookieValue h sessionCookieName); mret RLoggedOut
  | QRequestPasswordReset e => _ ← RequestPasswordReset cfg e; mret REmpty
  | QResetPassword t pw => _ ← ResetPassword t pw; mret REmpty
  | QRequestEmailVerification =>
      _ ← require (IsAuthenticated p) unauthenticated; _ ← RequestEmailVerification cfg (p_UserID p); mret REmpty
  | QVerifyEmail t => _ ← VerifyEmail t; mret REmpty
  | QCurrentUser => _ ← require (IsAuthenticated p) unauthenticated; u ← CurrentUser (p_UserID p); mret (RUser u)
  | QCreateAPIToken n => _ ← require (IsAuthenticated p) unauthenticated; t ← CreateAPIToken (p_UserID p) n; mret (RToken t)
  | QListAPITokens => _ ← require (IsAuthenticated p) unauthenticated; ts ← ListAPITokens (p_UserID p); mret (RTokens ts)
  | QRevokeAPIToken id => _ ← require (IsAuthenticated p) unauthenticated; _ ← RevokeAPIToken (p_UserID p) id; mret REmpty
  end.
Definition serve_auth (dev : bool) (h : Header) (r : AuthRequest) : M (Refusal + AuthResponse) :=
  authInterceptor dev h (auth_procedure r) (λ p, handle_auth h p r).
End Handlers.
