(* ===== verification/AuthSpec.v ===== *)
(** * AuthSpec: what the authentication requests do

    One rule per operation of [Auth]: what its success did to the database and what it
    had checked; a failure leaves the database as it was. *)
From S2P Require Import Prelude.
From S2P Require Import GoStrings.
From S2P Require Import Sha256.
From S2P Require Import Problem.
From S2P Require Import Schema.
From S2P Require Import Platform.
From S2P Require Import Authz.
From S2P Require Import DeployStore.
From S2P Require Projects.
From S2P Require Import TenancySpec.
From S2P Require Import Passwd.
From S2P Require Import Auth.

(** ** Effects *)
Definition touch_row (h : list Z) (now : Z) (d : DB) : DB :=
  set_sessions (update_where (live_session h now) (ss_touch now) (sessions d)) d.
Definition touch_token (h : list Z) (now : Z) (d : DB) : DB :=
  set_api_tokens (update_where (live_token h now) (apt_touch now) (api_tokens d)) d.

Section Effects.
Context {E : Env} {N : Entropy} {K : Argon2}.

(** 32 random bytes in base64url. *)
Definition opaque (raw : string) : Prop := ∃ k l, rand_Read k tokenBytes = inr l ∧ raw = str_of (b64_encode l).

Definition user_added (row : db_User) (d d' : DB) : Prop :=
  us_ID row ∉ map us_ID (users d) ∧ us_Email row ∉ map us_Email (users d) ∧ d' = set_users (users d ++ [row]) d.
(** A new account: the user, the first workspace that it owns, the audit row. *)
Record account_created (action email password : string) (verify : bool) (row : db_User) (d d' : DB) : Prop := {
  acc_row : us_Email row = email ∧ us_EmailVerified row = false ∧ ∃ h, us_PasswordHash row = Some h ∧ hash_of password h;
  acc_written : ∃ d1 d2 ws, user_added row d d1 ∧
    workspace_created (us_ID row) (workspaceNameForEmail email) (us_ID row) ws d1 d2 ∧
    audited action "user" (us_ID row) "" (us_ID row)
      (if verify then set_users (update_where (user_is (us_ID row)) us_set_verified (users d2)) d2 else d2) d';
}.
Definition link_added (purpose : string) (u : db_User) (raw : string) (row : db_UserToken) (d d' : DB) : Prop :=
  ut_UserID row = us_ID u ∧ ut_Purpose row = purpose ∧ ut_TokenHash row = hashToken raw ∧ ut_ConsumedAt row = None ∧
  ut_ID row ∉ map ut_ID (user_tokens d) ∧ (∀ x, x ∈ user_tokens d → ut_TokenHash x ≠ ut_TokenHash row) ∧
  has_key us_ID (us_ID u) (users d) = true ∧ d' = set_user_tokens (user_tokens d ++ [row]) d.
Record signed_in (cfg : AuthConfig) (i : LoginInput) (u : db_User) (raw : string) (row : db_Session) (d d' : DB) : Prop := {
  sgn_user : lookup_by us_Email (ToLower (TrimSpace (li_Email i))) (users d) = Some u;
  sgn_password : ∃ h, us_PasswordHash u = Some h ∧ Verify (li_Password i) h = None;
  sgn_verified : ac_RequireEmailVerification cfg = true → us_EmailVerified u = true;
  sgn_token : opaque raw;
  sgn_row : ss_UserID row = us_ID u ∧ ss_TokenHash row = hashToken raw ∧ ss_RevokedAt row = None ∧ ss_UserAgent row = li_UserAgent i ∧
    ∃ n, ss_ExpiresAt row = now_at n + (if ac_SessionTTL cfg <=? 0 then defaultSessionTTL else ac_SessionTTL cfg);
  sgn_fresh : ss_ID row ∉ map ss_ID (sessions d) ∧ ∀ x, x ∈ sessions d → ss_TokenHash x ≠ ss_TokenHash row;
  sgn_written : audited "user.login" "user" (us_ID u) "" (us_ID u) (set_sessions (sessions d ++ [row]) d) d';
}.
Definition signed_out (c : Principal) (tok : string) (d d' : DB) : Prop :=
  ∃ now, audited "user.logout" "user" (p_UserID c) "" (p_UserID c)
    (set_sessions (update_where (unrevoked_hash (hashToken tok)) (ss_revoke now) (sessions d)) d) d'.
(** The account is reset through the link [t]. *)
Definition reset_rows (t : string) (uid hash : string) (n1 n2 : Z) (d : DB) : DB :=
  set_sessions (update_where (unrevoked_of uid) (ss_revoke n2) (sessions d))
    (set_user_tokens (update_where (λ x, String.eqb (ut_ID x) t) (ut_consume n1) (user_tokens d))
      (set_users (update_where (user_is uid) (us_set_password (Some hash)) (users d)) d)).
Definition link_live (token purpose : string) (t : db_UserToken) (d : DB) : Prop :=
  t ∈ user_tokens d ∧ ut_TokenHash t = hashToken token ∧ ut_Purpose t = purpose ∧ ut_ConsumedAt t = None ∧ ∃ n, now_at n < ut_ExpiresAt t.
Definition reset_applied (tid uid hash : string) (d d' : DB) : Prop :=
  ∃ n1 n2, audited "user.password_reset" "user" uid "" uid (reset_rows tid uid hash n1 n2 d) d'.
Definition password_was_reset (token password : string) (t : db_UserToken) (hash : string) (d d' : DB) : Prop :=
  minPasswordLen ≤ len password ∧ link_live token purposePasswordReset t d ∧ hash_of password hash ∧
  reset_applied (ut_ID t) (ut_UserID t) hash d d'.
Definition email_was_verified (token : string) (t : db_UserToken) (d d' : DB) : Prop :=
  link_live token purposeEmailVerify t d ∧
  ∃ now, audited "user.email_verified" "user" (ut_UserID t) "" (ut_UserID t)
    (set_user_tokens (update_where (λ x, String.eqb (ut_ID x) (ut_ID t)) (ut_consume now) (user_tokens d))
      (set_users (update_where (user_is (ut_UserID t)) us_set_verified (users d)) d)) d'.
Definition api_token_created (uid name raw : string) (row : db_ApiToken) (d d' : DB) : Prop :=
  TrimSpace name ≠ "" ∧ apt_UserID row = uid ∧ apt_Name row = TrimSpace name ∧ apt_TokenHash row = hashToken raw ∧
  apt_RevokedAt row = None ∧ apt_ExpiresAt row = None ∧
  (∃ rest, opaque rest ∧ raw = "plk_" +:+ rest) ∧
  apt_ID row ∉ map apt_ID (api_tokens d) ∧ (∀ x, x ∈ api_tokens d → apt_TokenHash x ≠ apt_TokenHash row) ∧
  has_key us_ID uid (users d) = true ∧
  audited "apitoken.create" "api_token" (apt_ID row) "" uid (set_api_tokens (api_tokens d ++ [row]) d) d'.
Definition api_token_revoked (uid id : string) (d d' : DB) : Prop :=
  ∃ now, audited "apitoken.revoke" "api_token" id "" uid
    (set_api_tokens (update_where (token_of id uid) (apt_revoke now) (api_tokens d)) d) d'.
End Effects.

(** ** Statements *)
Lemma sql_CreateUser_inr email h st d r d' : sql_CreateUser email h st d = inr (r, d') →
  us_Email r = email ∧ us_EmailVerified r = false ∧ us_PasswordHash r = h ∧ user_added r d d'.
Proof.
  unfold sql_CreateUser. destruct (has_key us_ID _ _) eqn:H1; [done|]. destruct (has_key us_Email _ _) eqn:H2; [done|].
  intros [= <- <-]. apply has_key_false in H1, H2. repeat (split; [done|]). done.
Qed.
Lemma sql_CreateSession_inr uid h ua exp st d r d' : sql_CreateSession uid h ua exp st d = inr (r, d') →
  r = mk_ss (st_uuid st) uid h ua (st_now st) (st_now st) exp None ∧ d' = set_sessions (sessions d ++ [r]) d ∧
  ss_ID r ∉ map ss_ID (sessions d) ∧ (∀ x, x ∈ sessions d → ss_TokenHash x ≠ h) ∧ has_key us_ID uid (users d) = true.
Proof.
  unfold sql_CreateSession. destruct (has_key ss_ID _ _) eqn:H1; [done|]. destruct (has_hash _ _ _) eqn:H2; [done|].
  destruct (has_key us_ID _ _) eqn:H3; [|done]. intros [= <- <-]. apply has_key_false in H1.
  repeat (split; [done|]). split; [|done]. by apply has_hash_false.
Qed.
Lemma sql_CreateUserToken_inr uid p h exp st d r d' : sql_CreateUserToken uid p h exp st d = inr (r, d') →
  r = mk_ut (st_uuid st) uid p h (st_now st) exp None ∧ d' = set_user_tokens (user_tokens d ++ [r]) d ∧
  ut_ID r ∉ map ut_ID (user_tokens d) ∧ (∀ x, x ∈ user_tokens d → ut_TokenHash x ≠ h) ∧ has_key us_ID uid (users d) = true.
Proof.
  unfold sql_CreateUserToken. destruct (has_key ut_ID _ _) eqn:H1; [done|]. destruct (has_hash _ _ _) eqn:H2; [done|].
  destruct (has_key us_ID _ _) eqn:H3; [|done]. intros [= <- <-]. apply has_key_false in H1.
  repeat (split; [done|]). split; [|done]. by apply has_hash_false.
Qed.
Lemma sql_CreateAPIToken_inr uid n h p exp st d r d' : sql_CreateAPIToken uid n h p exp st d = inr (r, d') →
  r = mk_apt (st_uuid st) uid n h p (st_now st) None exp None ∧ d' = set_api_tokens (api_tokens d ++ [r]) d ∧
  apt_ID r ∉ map apt_ID (api_tokens d) ∧ (∀ x, x ∈ api_tokens d → apt_TokenHash x ≠ h) ∧ has_key us_ID uid (users d) = true.
Proof.
  unfold sql_CreateAPIToken. destruct (has_key apt_ID _ _) eqn:H1; [done|]. destruct (has_hash _ _ _) eqn:H2; [done|].
  destruct (has_key us_ID _ _) eqn:H3; [|done]. intros [= <- <-]. apply has_key_false in H1.
  repeat (split; [done|]). split; [|done]. by apply has_hash_false.
Qed.

(** ** The rules *)
Section Rules.
Context {E : Env} {N : Entropy} {K : Argon2} {P : Mailer}.
Implicit Types (w : World).

Lemma wp_read_random (Q : go_error + list Z → World → Prop) w :
  (∀ e w', w_db w' = w_db w → Q (inl e) w') →
  (∀ k l w', w_db w' = w_db w → rand_Read k tokenBytes = inr l → Q (inr l) w') → wp read_random Q w.
Proof.
  intros He Ha. unfold read_random. do 2 wp_step. destruct (rand_Read n tokenBytes) as [e|l] eqn:Hr; [by apply He|]. by eapply Ha.
Qed.
Lemma wp_newOpaqueToken (Q : go_error + string * list Z → World → Prop) w :
  (∀ e w', w_db w' = w_db w → Q (inl e) w') →
  (∀ raw w', w_db w' = w_db w → opaque raw → Q (inr (raw, hashToken raw)) w') → wp newOpaqueToken Q w.
Proof.
  intros He Ha. unfold newOpaqueToken. wp_step. apply wp_read_random; [done|]. intros k l w' Hw Hr. wp_step.
  apply Ha; [done|]. by exists k, l.
Qed.

Lemma opaque_nonempty raw : opaque raw → raw ≠ "".
Proof.
  intros (k & l & Hr & ->). apply rand_Read_spec in Hr as [Hl _].
  destruct l as [|a [|b [|c l]]]; try done.
Qed.

(** A port that changes nothing. *)
Lemma wp_sendEmail m (Q : go_error + unit → World → Prop) w :
  (∀ w', w_db w' = w_db w → Q (inr tt) w') → wp (sendEmail m) Q w.
Proof. intros Ha. unfold sendEmail. do 3 wp_step. by apply wp_ret, Ha. Qed.

Lemma wp_store_GetUserByEmail email (Q : go_error + option storedUser → World → Prop) w :
  (∀ e w', w_db w' = w_db w → Q (inl e) w') →
  (∀ w', w_db w' = w_db w → Q (inr (stored_of <$> lookup_by us_Email email (users (w_db w)))) w') →
  wp (GetUserByEmail email) Q w.
Proof. intros He Ha. unfold GetUserByEmail. wp_step. wp_step; [by apply He|]. by apply wp_ret, Ha. Qed.
Lemma wp_store_GetUserByID uid (Q : go_error + option User → World → Prop) w :
  (∀ e w', w_db w' = w_db w → Q (inl e) w') →
  (∀ w', w_db w' = w_db w → Q (inr (user_of <$> lookup_by us_ID uid (users (w_db w)))) w') →
  wp (GetUserByID uid) Q w.
Proof. intros He Ha. unfold GetUserByID. wp_step. wp_step; [by apply He|]. by apply wp_ret, Ha. Qed.

Lemma wp_CreateUser email password hash (Q : go_error + User → World → Prop) w :
  hash_of password hash →
  (∀ e w', w_db w' = w_db w → Q (inl e) w') →
  (∀ row w', us_Email row = email → us_EmailVerified row = false → us_PasswordHash row = Some hash →
     user_added row (w_db w) (w_db w') → Q (inr (user_of row)) w') →
  wp (CreateUser email hash) Q w.
Proof.
  intros Hh He Ha. unfold CreateUser. wp_step. apply wp_on_unique. wp_step; [by apply He|].
  match goal with H : sql_CreateUser _ _ _ _ = _ |- _ => apply sql_CreateUser_inr in H as (H1 & H2 & H3 & H4) end.
  by apply wp_ret, Ha.
Qed.

Lemma wp_CreateUserToken uid purpose raw exp (u : db_User) (Q : go_error + unit → World → Prop) w :
  us_ID u = uid → (∀ e w', Q (inl e) w') →
  (∀ row w', link_added purpose u raw row (w_db w) (w_db w') → ut_ExpiresAt row = exp → Q (inr tt) w') →
  wp (CreateUserToken uid purpose (hashToken raw) exp) Q w.
Proof.
  intros <- He Ha. unfold CreateUserToken. wp_step. wp_step; [by apply He|].
  match goal with H : sql_CreateUserToken _ _ _ _ _ _ = _ |- _ => apply sql_CreateUserToken_inr in H as (Hr & H2 & H3 & H4 & H5) end.
  apply wp_ret. subst. eapply Ha; [split; [|split; [|split; [|split; [|split; [exact H3|split; [exact H4|split; [exact H5|exact H2]]]]]]]|]; done.
Qed.

Lemma wp_verification_request cfg (u : db_User) (Q : go_error + Mail → World → Prop) w :
  (∀ e w', w_db w' = w_db w → Q (inl e) w') →
  (∀ raw row w', opaque raw → link_added purposeEmailVerify u raw row (w_db w) (w_db w') →
     (∃ n, ut_ExpiresAt row = now_at n + verifyTTL) → Q (inr (verification_mail cfg (us_Email u) raw)) w') →
  wp (verification_request cfg (user_of u)) Q w.
Proof.
  intros He Ha. unfold verification_request. do 2 wp_step. apply wp_newOpaqueToken; [by intros; apply He|]. intros raw w1 Hw1 Hop.
  wp_step. wp_step; [apply He; congruence|]. wp_step. apply wp_time_now_at. intros n w2 Hw2.
  eapply wp_CreateUserToken; [done|done|]. intros row w3 Hl Hexp w4 Hw4. apply wp_ret. eapply Ha; [done| |by exists n].
  rewrite Hw4. by rewrite <- Hw1, <- H, <- Hw2.
Qed.
Lemma wp_issueVerification cfg (u : db_User) (Q : go_error + unit → World → Prop) w :
  (∀ e w', w_db w' = w_db w → Q (inl e) w') →
  (∀ raw row w', opaque raw → link_added purposeEmailVerify u raw row (w_db w) (w_db w') → Q (inr tt) w') →
  wp (issueVerification cfg (user_of u)) Q w.
Proof.
  intros He Ha. unfold issueVerification. wp_step. apply wp_verification_request; [by intros; apply He|]. intros raw row w1 Hop Hl _.
  apply wp_sendEmail. intros w2 Hw2. eapply Ha; [done|]. by rewrite Hw2.
Qed.
Lemma wp_maybeSendVerification cfg (u : db_User) (Q : go_error + unit → World → Prop) w :
  (∀ w', w_db w' = w_db w → Q (inr tt) w') →
  (∀ raw row w', opaque raw → link_added purposeEmailVerify u raw row (w_db w) (w_db w') → Q (inr tt) w') →
  wp (maybeSendVerification cfg (user_of u)) Q w.
Proof.
  intros He Ha. unfold maybeSendVerification. wp_step; [by apply wp_ret, He|]. do 2 wp_step.
  apply wp_issueVerification; [by intros; apply wp_ret, He|]. intros raw row w' Ho Hl. apply wp_ret. by eapply Ha.
Qed.

Lemma wp_registration_gate cfg (Q : go_error + unit → World → Prop) w :
  (∀ e w', e ≠ errEmailTaken → w_db w' = w_db w → Q (inl e) w') →
  (∀ w', w_db w' = w_db w → (ac_AllowOpenRegistration cfg = false → users (w_db w) = []) → Q (inr tt) w') →
  wp (registration_gate cfg) Q w.
Proof.
  intros He Ha. unfold registration_gate. wp_step; [by apply wp_ret, Ha|]. wp_step.
  unfold AcquireRegistrationLock, wp, db_query. simpl. destruct (fault (w_tick w)); [by apply He|].
  simpl. unfold CountUsersTx, mbind, M_bind, db_query. simpl. destruct (fault (S (w_tick w))); [by apply He|].
  unfold sql_CountUsers, require. destruct (0 <? _) eqn:Hn; simpl; [by apply He|]. apply Ha; [done|]. intros _.
  destruct (users (w_db w)); [done|]. apply Z.ltb_ge in Hn; simpl in Hn; lia.
Qed.

Lemma wp_register_tx cfg email password hash (Q : go_error + User → World → Prop) w :
  hash_of password hash →
  (∀ e w', w_db w' = w_db w → Q (inl e) w') →
  (∀ row w', (ac_AllowOpenRegistration cfg = false → users (w_db w) = []) →
     account_created "user.register" email password false row (w_db w) (w_db w') → Q (inr (user_of row)) w') →
  wp (register_tx cfg email hash) Q w.
Proof.
  intros Hh He Ha. unfold register_tx. apply wp_within_tx; [done|]. intros w0 Hw0.
  wp_step. apply wp_registration_gate; [done|]. intros w1 Hw1 Hgate. wp_step. wp_step.
  eapply wp_CreateUser; [exact Hh|done|]. intros row w2 R1 R2 R3 Hadd. wp_step.
  unfold Projects.CreateInitialWorkspace. wp_step. apply wp_createWorkspaceTx; [done|]. intros ws w3 Hws. wp_step.
  wp_step. apply wp_audit_Record; [done|]. intros w4 Haud. apply wp_ret. intros w5 Hw5.
  rewrite Hw0 in Hgate. apply Ha; [done|]. split; [split; [done|split; [done|]]; by exists hash|].
  exists (w_db w2), (w_db w3), ws. rewrite Hw5. rewrite Hw1, Hw0 in Hadd. done.
Qed.

Lemma normalizeEmail_inr s e : normalizeEmail s = inr e → e = ToLower (TrimSpace s) ∧ e ≠ "" ∧ at_count e = 1%nat.
Proof.
  unfold normalizeEmail. case_match eqn:H; [done|]. intros [= <-]. rewrite !orb_false_iff in H. destruct H as [[H _] Hc].
  apply String.eqb_neq in H. apply negb_false_iff, Nat.eqb_eq in Hc. done.
Qed.

(** Nothing, or a new account and perhaps its verification link. *)
Definition registered_effect (cfg : AuthConfig) (i : RegisterInput) (d d' : DB) : Prop :=
  d' = d ∨
  ∃ email row d1, normalizeEmail (ri_Email i) = inr email ∧ minPasswordLen ≤ len (ri_Password i) ∧
    (ac_AllowOpenRegistration cfg = false → users d = []) ∧
    account_created "user.register" email (ri_Password i) false row d d1 ∧
    (d' = d1 ∨ ∃ raw t, opaque raw ∧ link_added purposeEmailVerify row raw t d1 d').
Lemma wp_Register_account cfg i (Q : go_error + Registered → World → Prop) w :
  (∀ e w', w_db w' = w_db w → Q (inl e) w') →
  (∀ w', registered_effect cfg i (w_db w) (w_db w') → Q (inr (mk_Registered (ac_RequireEmailVerification cfg))) w') →
  wp (Register cfg i) Q w.
Proof.
  intros He Ha. unfold Register. do 2 wp_step. destruct (normalizeEmail (ri_Email i)) as [e|email] eqn:Hn; [by apply He|].
  do 2 wp_step; [|by apply He]. apply Z.leb_le in H. do 2 wp_step. apply wp_Hash; [by intros; apply He|]. intros hash w1 Hw1 Hh.
  do 2 wp_step. eapply wp_register_tx; [exact Hh| |].
  - intros e w2 Hw2. destruct (is_email_taken e); [|apply wp_fail, He; congruence].
    wp_step. apply wp_sendEmail. intros w3 Hw3. apply wp_ret, Ha. left. congruence.
  - intros row w2 Hgate Hacc. rewrite Hw1 in *. wp_step. apply wp_maybeSendVerification.
    + intros w3 Hw3. apply wp_ret, Ha. right. exists email, row, (w_db w2). rewrite Hw3. auto 10.
    + intros raw t w3 Hop Hl. apply wp_ret, Ha. right. exists email, row, (w_db w2). eauto 12.
Qed.

Lemma wp_Login cfg i (Q : go_error + Authenticated → World → Prop) w :
  (∀ e w', w_db w' = w_db w → Q (inl e) w') →
  (∀ u raw row w', signed_in cfg i u raw row (w_db w) (w_db w') → Q (inr (mk_Authenticated (user_of u) raw)) w') →
  wp (Login cfg i) Q w.
Proof.
  intros He Ha. unfold Login. do 2 wp_step. apply wp_store_GetUserByEmail; [by intros; apply He|]. intros w1 Hw1.
  destruct (lookup_by us_Email _ (users (w_db w))) as [u|] eqn:Hu; cbn [fmap option_fmap option_map].
  2: { do 2 wp_step. apply wp_Hash; [intros; apply wp_fail, He; congruence|]. intros; apply wp_fail, He; congruence. }
  do 2 wp_step; [|apply He; congruence]. do 2 wp_step; [|apply He; congruence].
  do 2 wp_step. apply wp_newOpaqueToken; [intros; apply He; congruence|]. intros raw w2 Hw2 Hop.
  do 2 wp_step. wp_step; [apply He; congruence|]. wp_step. unfold sessionExpiry. wp_step. apply wp_time_now_at. intros n w3 Hw3.
  wp_step. wp_step. unfold CreateSession. wp_step. wp_step; [done|].
  match goal with H : sql_CreateSession _ _ _ _ _ _ = _ |- _ => apply sql_CreateSession_inr in H as (Hr & Hd & Hid & Hh & _) end.
  wp_step. apply wp_audit_Record; [done|]. intros w5 Haud w6 Hw6. apply wp_ret.
  assert (w_db w3 = w_db w) as Hw by congruence. rewrite Hw in *. rewrite Hd in Haud.
  unfold password_matches in H. apply andb_true_iff in H as [Hne Hv]. cbn [stored_of su_User su_PasswordHash user_of u_ID u_EmailVerified] in *.
  destruct (us_PasswordHash u) as [h|] eqn:Hph; [|done]. simpl in Hv. destruct (Verify (li_Password i) h) eqn:Hver; [done|].
  eapply (Ha u raw). split; [exact Hu|by exists h| |done| | |rewrite Hw6; exact Haud].
  - intros Hreq. rewrite Hreq in H0. simpl in H0. by rewrite negb_involutive in H0.
  - subst. split; [done|]. split; [done|]. split; [done|]. split; [done|]. by exists n.
  - split; [exact Hid|]. subst. exact Hh.
Qed.

Lemma wp_Logout c tok (Q : go_error + unit → World → Prop) w :
  (∀ e w', w_db w' = w_db w → Q (inl e) w') →
  (∀ w', tok = "" ∧ w_db w' = w_db w ∨ tok ≠ "" ∧ signed_out c tok (w_db w) (w_db w') → Q (inr tt) w') →
  wp (Logout c tok) Q w.
Proof.
  intros He Ha. unfold Logout. destruct (String.eqb_spec tok "") as [Ht|Ht]; [by apply wp_ret, Ha; left|].
  do 2 wp_step; [by apply He|]. wp_step. unfold RevokeSession. wp_step; [done|]. destruct a.
  match goal with H : sql_RevokeSessionByTokenHash _ _ _ = _ |- _ => unfold sql_RevokeSessionByTokenHash in H; injection H as Hdb end.
  apply wp_audit_Record; [done|]. intros w3 Haud w4 Hw4. apply Ha. right. split; [done|]. eexists.
  rewrite Hw4. assert (w_db w0 = w_db w) as Hw0 by congruence. rewrite <- Hw0, Hdb. exact Haud.
Qed.

Lemma wp_GetUserToken h purpose (Q : go_error + option userToken → World → Prop) w :
  (∀ e w', w_db w' = w_db w → Q (inl e) w') →
  (∀ w', w_db w' = w_db w → Q (inr None) w') →
  (∀ t w', w_db w' = w_db w → t ∈ user_tokens (w_db w) → ut_TokenHash t = h → ut_Purpose t = purpose → ut_ConsumedAt t = None →
     (∃ n, now_at n < ut_ExpiresAt t) → Q (inr (Some (mk_userToken (ut_ID t) (ut_UserID t)))) w') →
  wp (GetUserToken h purpose) Q w.
Proof.
  intros He Hn Ha. unfold GetUserToken. wp_step. unfold wp, ok_or_norows, autocommit, db_exec. simpl.
  destruct (fault (w_tick w)); [by apply He|]. unfold sql_GetUserTokenByHash. simpl.
  destruct (List.find _ _) as [t|] eqn:Hf; simpl; [|by apply Hn].
  apply find_Some_elem in Hf as [Hin Hr]. unfold redeemable in Hr. rewrite !andb_true_iff in Hr. destruct Hr as [[[H1 H2] H3] H4].
  apply bool_decide_eq_true in H1, H3. apply String.eqb_eq in H2. apply Z.ltb_lt in H4.
  apply Ha; try done. by exists (w_tick w).
Qed.

Lemma wp_check_reset_link token pw (Q : go_error + userToken * string → World → Prop) w :
  (∀ e w', w_db w' = w_db w → Q (inl e) w') →
  (∀ t hash w', w_db w' = w_db w → minPasswordLen ≤ len pw → link_live token purposePasswordReset t (w_db w) → hash_of pw hash →
     Q (inr (mk_userToken (ut_ID t) (ut_UserID t), hash)) w') →
  wp (check_reset_link token pw) Q w.
Proof.
  intros He Ha. unfold check_reset_link. do 2 wp_step; [|by apply He]. apply Z.leb_le in H.
  do 2 wp_step. apply wp_GetUserToken; [by intros; apply He|by intros; apply He|]. intros t w1 Hw1 T1 T2 T3 T4 T5.
  do 2 wp_step. apply wp_Hash; [intros; apply He; congruence|]. intros hash w2 Hw2 Hh. apply wp_ret, Ha; [congruence|done| |done].
  split; [done|]. by repeat (split; [done|]).
Qed.
Lemma wp_apply_reset tid uid hash (Q : go_error + unit → World → Prop) w :
  (∀ e w', w_db w' = w_db w → Q (inl e) w') →
  (∀ w', reset_applied tid uid hash (w_db w) (w_db w') → Q (inr tt) w') →
  wp (apply_reset (mk_userToken tid uid) hash) Q w.
Proof.
  intros He Ha. unfold apply_reset, SetPassword, ConsumeUserToken, RevokeAllSessions. simpl. do 2 wp_step; [by apply He|].
  do 2 wp_step; [done|]. do 2 wp_step; [done|]. do 2 wp_step; [done|].
  repeat match goal with H : _ = inr _ |- _ => unfold sql_SetUserPassword, sql_ConsumeUserToken, sql_RevokeAllSessionsForUser in H; injection H as ? ? end.
  apply wp_audit_Record; [done|]. intros w5 Haud w6 Hw6. apply Ha. eexists _, _. unfold reset_rows.
  assert (w_db w0 = w_db w) as Hw0 by congruence. rewrite <- Hw0.
  repeat match goal with H : _ = w_db _ |- _ => rewrite <- H in Haud end. exact Haud.
Qed.
Lemma wp_ResetPassword token pw (Q : go_error + unit → World → Prop) w :
  (∀ e w', w_db w' = w_db w → Q (inl e) w') →
  (∀ t hash w', password_was_reset token pw t hash (w_db w) (w_db w') → Q (inr tt) w') →
  wp (ResetPassword token pw) Q w.
Proof.
  intros He Ha. unfold ResetPassword. wp_step. apply wp_check_reset_link; [done|]. intros t hash w1 Hw1 Hl Ht Hh.
  apply wp_apply_reset; [intros; apply He; congruence|]. intros w2 Hr. eapply (Ha t hash). rewrite Hw1 in Hr. done.
Qed.

Lemma wp_VerifyEmail token (Q : go_error + unit → World → Prop) w :
  (∀ e w', w_db w' = w_db w → Q (inl e) w') →
  (∀ t w', email_was_verified token t (w_db w) (w_db w') → Q (inr tt) w') →
  wp (VerifyEmail token) Q w.
Proof.
  intros He Ha. unfold VerifyEmail. do 2 wp_step. apply wp_GetUserToken; [by intros; apply He|by intros; apply He|].
  intros t w1 Hw1 T1 T2 T3 T4 T5. do 2 wp_step; [apply He; congruence|]. unfold SetEmailVerified, ConsumeUserToken. simpl.
  do 2 wp_step; [done|]. do 2 wp_step; [done|].
  repeat match goal with H : _ = inr _ |- _ => unfold sql_SetUserEmailVerified, sql_ConsumeUserToken in H; injection H as ? ? end.
  apply wp_audit_Record; [done|]. intros w5 Haud w6 Hw6. apply (Ha t). split; [split; [done|]; by repeat (split; [done|])|].
  eexists. assert (w_db w0 = w_db w) as Hw0 by congruence. rewrite <- Hw0.
  repeat match goal with H : _ = w_db _ |- _ => rewrite <- H in Haud end. exact Haud.
Qed.

Lemma wp_password_reset_request cfg email (Q : go_error + option Mail → World → Prop) w :
  (∀ e w', w_db w' = w_db w → Q (inl e) w') →
  (∀ w', w_db w' = w_db w → lookup_by us_Email (ToLower (TrimSpace email)) (users (w_db w)) = None → Q (inr None) w') →
  (∀ u raw row d1 w', lookup_by us_Email (ToLower (TrimSpace email)) (users (w_db w)) = Some u → opaque raw →
     link_added purposePasswordReset u raw row (w_db w) d1 → (∃ n, ut_ExpiresAt row = now_at n + resetTTL) →
     audited "user.password_reset_requested" "user" (us_ID u) "" (us_ID u) d1 (w_db w') →
     Q (inr (Some (reset_mail cfg (us_Email u) raw))) w') →
  wp (password_reset_request cfg email) Q w.
Proof.
  intros He Hn Ha. unfold password_reset_request. do 2 wp_step. apply wp_store_GetUserByEmail; [by intros; apply He|]. intros w1 Hw1.
  destruct (lookup_by us_Email _ (users (w_db w))) as [u|] eqn:Hu; cbn [fmap option_fmap option_map]; [|by apply wp_ret, Hn].
  cbv zeta. cbn [stored_of su_User user_of u_ID u_Email].
  do 2 wp_step. apply wp_newOpaqueToken; [intros; apply He; congruence|]. intros raw w2 Hw2 Hop.
  do 2 wp_step. wp_step; [apply He; congruence|]. wp_step. apply wp_time_now_at. intros n w3 Hw3. wp_step.
  eapply wp_CreateUserToken; [done|done|]. intros row w4 Hl Hexp. apply wp_audit_Record; [done|]. intros w5 Haud w6 Hw6. apply wp_ret.
  assert (w_db w3 = w_db w) as Hw by congruence. rewrite Hw in Hl.
  eapply (Ha u raw row (w_db w4)); [done|done|done|by exists n|]. by rewrite Hw6.
Qed.

Lemma wp_CreateAPIToken uid name (Q : go_error + NewAPIToken → World → Prop) w :
  (∀ e w', w_db w' = w_db w → Q (inl e) w') →
  (∀ raw row w', api_token_created uid name raw row (w_db w) (w_db w') → Q (inr (mk_NewAPIToken raw (apiTokenFromRow row))) w') →
  wp (CreateAPIToken uid name) Q w.
Proof.
  intros He Ha. unfold CreateAPIToken. do 2 wp_step; [|by apply He]. apply negb_true_iff, String.eqb_neq in H.
  do 2 wp_step. unfold newAPIToken. wp_step. apply wp_read_random; [by intros; apply He|]. intros k l w1 Hw1 Hr. wp_step.
  do 2 wp_step. wp_step; [apply He; congruence|]. wp_step. unfold store_CreateAPIToken. wp_step. wp_step; [done|].
  match goal with H : sql_CreateAPIToken _ _ _ _ _ _ _ = _ |- _ => apply sql_CreateAPIToken_inr in H as (Hrow & Hd & Hid & Hh & Hus) end.
  wp_step. wp_step. apply wp_audit_Record; [done|]. intros w3 Haud. apply wp_ret. intros w4 Hw4. apply wp_ret.
  assert (w_db w0 = w_db w) as Hw by congruence. rewrite Hw in *. rewrite Hd in Haud.
  eapply Ha. split; [done|]. subst. split; [done|]. split; [done|]. split; [done|]. split; [done|]. split; [done|].
  split; [eexists; split; [by exists k, l|done]|]. split; [exact Hid|]. split; [exact Hh|]. split; [exact Hus|]. rewrite Hw4. exact Haud.
Qed.

Lemma wp_RevokeAPIToken uid id (Q : go_error + unit → World → Prop) w :
  (∀ e w', w_db w' = w_db w → Q (inl e) w') →
  (∀ w', api_token_revoked uid id (w_db w) (w_db w') → Q (inr tt) w') →
  wp (RevokeAPIToken uid id) Q w.
Proof.
  intros He Ha. unfold RevokeAPIToken. do 2 wp_step; [|by apply He]. do 2 wp_step; [by apply He|]. wp_step. unfold store_RevokeAPIToken.
  wp_step; [done|]. destruct a. match goal with H : sql_RevokeAPIToken _ _ _ _ = _ |- _ => unfold sql_RevokeAPIToken in H; injection H as Hdb end.
  apply wp_audit_Record; [done|]. intros w3 Haud w4 Hw4. apply Ha. eexists. rewrite Hw4.
  assert (w_db w0 = w_db w) as Hw0 by congruence. rewrite <- Hw0, Hdb. exact Haud.
Qed.
End Rules.
