(* ===== verification/AuthProps.v ===== *)
(** * AuthProps: what a credential is worth

    The invariant of users, sessions, tokens and links, that every request through the
    interceptor keeps it together with the invariants of the modules below, and the
    theorems: where a caller comes from, what a sign-in and a reset do, that a dead
    credential stays dead, and that answers do not tell which
    addresses have accounts. *)
From S2P Require Import Prelude.
From S2P Require Import GoStrings.
From S2P Require Import Sha256.
From S2P Require Import Problem.
From S2P Require Import Schema.
From S2P Require Import Platform.
From S2P Require Import Authz.
From S2P Require Import DeployStore.
From S2P Require Import DeployInv.
From S2P Require Import DeploySystem.
From S2P Require Import BackupSystem.
From S2P Require Import ServicesProps.
From S2P Require Projects.
From S2P Require Import TenancySpec.
From S2P Require Import TenancyProps.
From S2P Require Import Passwd.
From S2P Require Import Auth.
From S2P Require Import AuthSpec.

(** ** The invariant *)
Definition owner_exists (d : DB) (uid : string) : Prop := has_key us_ID uid (users d) = true.
Record auwf (d : DB) : Prop := {
  auw_ids : NoDup (map us_ID (users d));
  auw_emails : NoDup (map us_Email (users d));
  auw_ss_ids : NoDup (map ss_ID (sessions d));
  auw_ss_hashes : NoDup (map ss_TokenHash (sessions d));
  auw_ss : Forall (λ s, owner_exists d (ss_UserID s)) (sessions d);
  auw_apt_ids : NoDup (map apt_ID (api_tokens d));
  auw_apt_hashes : NoDup (map apt_TokenHash (api_tokens d));
  auw_apt : Forall (λ t, owner_exists d (apt_UserID t)) (api_tokens d);
  auw_ut_ids : NoDup (map ut_ID (user_tokens d));
  auw_ut_hashes : NoDup (map ut_TokenHash (user_tokens d));
  auw_ut : Forall (λ t, owner_exists d (ut_UserID t)) (user_tokens d);
}.
Definition identity (d : DB) := (users d, sessions d, api_tokens d, user_tokens d).
Lemma auwf_frame d d' : identity d' = identity d → auwf d → auwf d'.
Proof.
  intros H [A1 A2 A3 A4 A5 A6 A7 A8 A9 A10 A11]. injection H as H1 H2 H3 H4. unfold owner_exists in *.
  split; unfold owner_exists; rewrite ?H1, ?H2, ?H3, ?H4; done.
Qed.
Lemma auwf_audited a ty ti ws ac d d' : audited a ty ti ws ac d d' → auwf d → auwf d'.
Proof. intros (row & -> & _). by apply auwf_frame. Qed.
Lemma auwf_workspace owner name ac ws d d' : workspace_created owner name ac ws d d' → auwf d → auwf d'.
Proof. intros [_ _ _ _ (now & row & -> & _) _]. by apply auwf_frame. Qed.

(** The primitive changes of the identity tables. *)
Lemma auwf_users us d : map us_ID us = map us_ID (users d) → map us_Email us = map us_Email (users d) → auwf d → auwf (set_users us d).
Proof.
  intros H1 H2 [A1 A2 A3 A4 A5 A6 A7 A8 A9 A10 A11].
  assert (∀ id, has_key us_ID id us = has_key us_ID id (users d)) as Hk.
  { intros id. apply eq_true_iff_eq. rewrite <- !not_false_iff_true, !has_key_false. by rewrite H1. }
  unfold owner_exists in *. split; unfold owner_exists; simpl; rewrite ?H1, ?H2; try done;
    eapply Forall_impl; [exact A5|intros ?; by rewrite Hk|exact A8|intros ?; by rewrite Hk|exact A11|intros ?; by rewrite Hk].
Qed.
Lemma auwf_set_password uid h d : auwf d → auwf (set_users (update_where (user_is uid) (us_set_password h) (users d)) d).
Proof. apply auwf_users; by apply map_update_where. Qed.
Lemma auwf_set_verified uid d : auwf d → auwf (set_users (update_where (user_is uid) us_set_verified (users d)) d).
Proof. apply auwf_users; by apply map_update_where. Qed.
Lemma auwf_user_added row d d' : user_added row d d' → auwf d → auwf d'.
Proof.
  intros (Hid & Hem & ->) [A1 A2 A3 A4 A5 A6 A7 A8 A9 A10 A11]. unfold owner_exists in *.
  assert (∀ id, has_key us_ID id (users d) = true → has_key us_ID id (users d ++ [row]) = true) as Hmore by (intros; by apply has_key_more).
  split; unfold owner_exists; simpl; try done.
  - apply NoDup_map_snoc; [done|]. intros y Hy Heq. apply Hid. rewrite <- Heq. apply list_elem_of_fmap. by exists y.
  - apply NoDup_map_snoc; [done|]. intros y Hy Heq. apply Hem. rewrite <- Heq. apply list_elem_of_fmap. by exists y.
  - eapply Forall_impl; [exact A5|]. intros s. apply Hmore.
  - eapply Forall_impl; [exact A8|]. intros s. apply Hmore.
  - eapply Forall_impl; [exact A11|]. intros s. apply Hmore.
Qed.
(** A rewrite of session rows that keeps id, owner and hash. *)
Lemma auwf_sessions p f d : (∀ s, ss_ID (f s) = ss_ID s ∧ ss_UserID (f s) = ss_UserID s ∧ ss_TokenHash (f s) = ss_TokenHash s) →
  auwf d → auwf (set_sessions (update_where p f (sessions d)) d).
Proof.
  intros Hf [A1 A2 A3 A4 A5 A6 A7 A8 A9 A10 A11]. split; simpl; try done.
  - rewrite map_update_where; [done|intros s _; apply (Hf s)].
  - rewrite map_update_where; [done|intros s _; apply (Hf s)].
  - apply Forall_update_where; [|exact A5]. intros s Hs _. unfold owner_exists in *. by rewrite (proj1 (proj2 (Hf s))).
Qed.
Lemma auwf_api_tokens p f d : (∀ s, apt_ID (f s) = apt_ID s ∧ apt_UserID (f s) = apt_UserID s ∧ apt_TokenHash (f s) = apt_TokenHash s) →
  auwf d → auwf (set_api_tokens (update_where p f (api_tokens d)) d).
Proof.
  intros Hf [A1 A2 A3 A4 A5 A6 A7 A8 A9 A10 A11]. split; simpl; try done.
  - rewrite map_update_where; [done|intros s _; apply (Hf s)].
  - rewrite map_update_where; [done|intros s _; apply (Hf s)].
  - apply Forall_update_where; [|exact A8]. intros s Hs _. unfold owner_exists in *. by rewrite (proj1 (proj2 (Hf s))).
Qed.
Lemma auwf_user_tokens p f d : (∀ s, ut_ID (f s) = ut_ID s ∧ ut_UserID (f s) = ut_UserID s ∧ ut_TokenHash (f s) = ut_TokenHash s) →
  auwf d → auwf (set_user_tokens (update_where p f (user_tokens d)) d).
Proof.
  intros Hf [A1 A2 A3 A4 A5 A6 A7 A8 A9 A10 A11]. split; simpl; try done.
  - rewrite map_update_where; [done|intros s _; apply (Hf s)].
  - rewrite map_update_where; [done|intros s _; apply (Hf s)].
  - apply Forall_update_where; [|exact A11]. intros s Hs _. unfold owner_exists in *. by rewrite (proj1 (proj2 (Hf s))).
Qed.
Lemma auwf_link_added p (u : db_User) raw row d d' : link_added p u raw row d d' → auwf d → auwf d'.
Proof.
  intros (H1 & _ & _ & _ & Hid & Hh & Hu & ->) [A1 A2 A3 A4 A5 A6 A7 A8 A9 A10 A11]. split; simpl; try done.
  - apply NoDup_map_snoc; [done|]. intros y Hy Heq. apply Hid. rewrite <- Heq. apply list_elem_of_fmap. by exists y.
  - by apply NoDup_map_snoc.
  - apply Forall_app. split; [done|]. constructor; [|done]. unfold owner_exists. simpl. by rewrite H1.
Qed.

(** The modules below: identity tables are not theirs, and users are only added. *)
Lemma twf_users us d : (∀ id, has_key us_ID id (users d) = true → has_key us_ID id us = true) → twf d → twf (set_users us d).
Proof.
  intros Hk [T1 T2 T3 T4 T5 T6 T7 T8 T9 T10 T11 T12 T13 T14]. split; simpl; try done.
  eapply Forall_impl; [exact T5|]. intros m (H1 & H2 & H3). split; [done|]. split; [done|]. by apply Hk.
Qed.
Lemma twf_user_added row d d' : user_added row d d' → twf d → twf d'.
Proof. intros (_ & _ & ->). apply twf_users. intros id. by apply has_key_more. Qed.
Lemma has_key_update id p f us : (∀ u, us_ID (f u) = us_ID u) → has_key us_ID id us = true → has_key us_ID id (update_where p f us) = true.
Proof.
  intros Hf. rewrite !has_key_true. intros (u & Hu & <-). exists (if p u then f u else u).
  split; [apply elem_of_update_where; by exists u|]. case_match; [apply Hf|done].
Qed.
Lemma inv_same d d' : projects d' = projects d → environments d' = environments d → servers d' = servers d →
  services d' = services d → deployments d' = deployments d → deployment_events d' = deployment_events d →
  teardown_jobs d' = teardown_jobs d → backups d' = backups d → restore_jobs d' = restore_jobs d →
  config_entries d' = config_entries d → source_connections d' = source_connections d →
  NoDup (map srv_ID (servers d)) → inv d → inv d'.
Proof.
  intros Hp He Hs H1 H2 H3 H4 H5 H6 H7 H8 Hn. apply inv_grown, grown_same; try done.
  - rewrite Hp. apply no_more. - rewrite He. apply no_more. - rewrite Hs. apply no_more. - by rewrite Hs.
Qed.

(** ** Where a caller comes from *)
(** The session or API token behind the credential of the headers. *)
Inductive credential (h : Header) (now : Z) (d : DB) : Principal → bool → DB → Prop :=
  | by_token t :
      HasPrefix (hd_Authorization h) "Bearer " = true →
      let tok := TrimSpace (TrimPrefix (hd_Authorization h) "Bearer ") in
      tok ≠ "" → t ∈ api_tokens d → live_token (hashToken tok) now t = true →
      credential h now d (mk_Principal (apt_UserID t) MethodAPIToken) false (touch_token (hashToken tok) now d)
  | by_cookie tok s :
      HasPrefix (hd_Authorization h) "Bearer " = false →
      Cookie h sessionCookieName = Some tok → tok ≠ "" → s ∈ sessions d → live_session (hashToken tok) now s = true →
      credential h now d (mk_Principal (ss_UserID s) MethodSession) true (touch_row (hashToken tok) now d).
Definition resolved {E : Env} (h : Header) (p : Principal) (via : bool) (d d' : DB) : Prop :=
  p = anonymous ∧ d' = d ∨ ∃ n, credential h (now_at n) d p via d'.

Section Gate.
Context {E : Env}.
Implicit Types (w : World).

Lemma wp_resolvePrincipal h (Q : go_error + Principal * bool → World → Prop) w :
  (∀ e w', w_db w' = w_db w → Q (inl e) w') →
  (∀ p via w', resolved h p via (w_db w) (w_db w') → Q (inr (p, via)) w') →
  wp (resolvePrincipal h) Q w.
Proof.
  intros He Ha. unfold resolvePrincipal. destruct (HasPrefix _ _) eqn:Hb.
  - wp_step. unfold ResolveAPIToken. destruct (String.eqb_spec (TrimSpace (TrimPrefix (hd_Authorization h) "Bearer ")) "") as [Ht|Ht].
    { apply wp_ret, wp_ret, Ha. by left. }
    wp_step. unfold APITokenUser, wp, ok_or_norows, autocommit, db_exec. simpl. destruct (fault (w_tick w)); [by apply He|].
    unfold sql_UseAPIToken. simpl. destruct (List.find _ _) as [t|] eqn:Hf; simpl; [|by apply Ha; left].
    apply find_Some_elem in Hf as [Hin Hl]. apply Ha. right. exists (w_tick w). by apply by_token.
  - destruct (Cookie h sessionCookieName) as [tok|] eqn:Hc; [|by apply wp_ret, Ha; left].
    destruct (String.eqb_spec tok "") as [Ht|Ht]; [by apply wp_ret, Ha; left|].
    wp_step. unfold ResolveSession. rewrite (proj2 (String.eqb_neq tok "") Ht).
    wp_step. unfold SessionUser, wp, ok_or_norows, autocommit, db_exec. simpl. destruct (fault (w_tick w)); [by apply He|].
    unfold sql_UseSession. simpl. destruct (List.find _ _) as [s|] eqn:Hf; simpl; [|by apply Ha; left].
    apply find_Some_elem in Hf as [Hin Hl]. apply Ha. right. exists (w_tick w). by apply by_cookie.
Qed.

(** Whoever got past the interceptor. *)
Definition admitted (dev : bool) (h : Header) (procedure : string) (p : Principal) (d d1 : DB) : Prop :=
  ∃ via, resolved h p via d d1 ∧ admit_caller dev h procedure p via = None.
Lemma wp_authInterceptor {X} dev h procedure (next : Principal → M X) (Q : go_error + (Refusal + X) → World → Prop) w :
  (∀ e p via w', w_db w' = w_db w ∨ resolved h p via (w_db w) (w_db w') → Q (inr (inl e)) w') →
  (∀ p w', admitted dev h procedure p (w_db w) (w_db w') →
     wp (next p) (λ r w'', Q (match r with inl e => inl e | inr x => inr (inr x) end) w'') w') →
  wp (authInterceptor dev h procedure next) Q w.
Proof.
  intros He Ha. unfold authInterceptor. do 2 wp_step. apply wp_resolvePrincipal.
  - intros e w' Hw. apply wp_ret, (He _ anonymous false). by left.
  - intros p via w' Hr. destruct (admit_caller dev h procedure p via) as [e|] eqn:Hadm.
    + apply wp_ret, (He e p via). by right.
    + wp_step. eapply wp_mono; [|apply Ha; by exists via]. intros [e|x] w'' H; exact H.
Qed.
End Gate.

Definition touched {E : Env} (h : Header) (d d' : DB) : Prop := d' = d ∨ ∃ p via, resolved h p via d d'.
Lemma credential_frame h now d p via d' : credential h now d p via d' →
  d' = set_sessions (sessions d') (set_api_tokens (api_tokens d') d) ∧ users d' = users d.
Proof. intros []; by destruct d. Qed.
Lemma auwf_credential h now d p via d' : credential h now d p via d' → auwf d → auwf d'.
Proof. intros []; [by apply auwf_api_tokens|by apply auwf_sessions]. Qed.
Lemma auwf_resolved {E : Env} h p via d d' : resolved h p via d d' → auwf d → auwf d'.
Proof. intros [[_ ->]|[n H]]; [done|by eapply auwf_credential]. Qed.
Lemma twf_resolved {E : Env} h p via d d' : resolved h p via d d' → twf d → twf d'.
Proof. intros [[_ ->]|[n H]]; [done|]. apply credential_frame in H as [-> _]. by apply twf_frame. Qed.
Lemma inv_resolved {E : Env} h p via d d' : resolved h p via d d' → twf d → inv d → inv d'.
Proof.
  intros [[_ ->]|[n H]] T; [done|]. apply credential_frame in H as [-> _]. by apply inv_same; try done; apply T.
Qed.

(** ** The system of requests *)
Section System.
Context {E : Env} {N : Entropy} {K : Argon2} {P : Mailer}.
Variable cfg : AuthConfig.
Implicit Types (w : World).

Definition auth_effect (h : Header) (p : Principal) (q : AuthRequest) (r : AuthResponse) (d d' : DB) : Prop :=
  match q with
  | QRegister e pw => r = RRegistered (ac_RequireEmailVerification cfg) ∧ registered_effect cfg (mk_RegisterInput e pw) d d'
  | QLogin e pw => ∃ u raw row, r = RLoggedIn (user_of u) raw ∧ signed_in cfg (mk_LoginInput e pw (hd_UserAgent h)) u raw row d d'
  | QLogout => r = RLoggedOut ∧ (cookieValue h sessionCookieName = "" ∧ d' = d ∨ signed_out p (cookieValue h sessionCookieName) d d')
  | QRequestPasswordReset e => r = REmpty ∧
      (lookup_by us_Email (ToLower (TrimSpace e)) (users d) = None ∧ d' = d ∨
       ∃ u raw row d1, lookup_by us_Email (ToLower (TrimSpace e)) (users d) = Some u ∧ opaque raw ∧
         link_added purposePasswordReset u raw row d d1 ∧ audited "user.password_reset_requested" "user" (us_ID u) "" (us_ID u) d1 d')
  | QResetPassword t pw => r = REmpty ∧ ∃ row hash, password_was_reset t pw row hash d d'
  | QRequestEmailVerification => r = REmpty ∧ IsAuthenticated p = true ∧
      (d' = d ∨ ∃ u raw row, lookup_by us_ID (p_UserID p) (users d) = Some u ∧ us_EmailVerified u = false ∧
         opaque raw ∧ link_added purposeEmailVerify u raw row d d')
  | QVerifyEmail t => r = REmpty ∧ ∃ row, email_was_verified t row d d'
  | QCurrentUser => IsAuthenticated p = true ∧ d' = d ∧ ∃ u, lookup_by us_ID (p_UserID p) (users d) = Some u ∧ r = RUser (user_of u)
  | QCreateAPIToken n => IsAuthenticated p = true ∧ ∃ raw row,
      r = RToken (mk_NewAPIToken raw (apiTokenFromRow row)) ∧ api_token_created (p_UserID p) n raw row d d'
  | QListAPITokens => IsAuthenticated p = true ∧ d' = d ∧
      r = RTokens (map apiTokenFromRow (sql_ListAPITokensForUser (p_UserID p) d))
  | QRevokeAPIToken id => r = REmpty ∧ IsAuthenticated p = true ∧ api_token_revoked (p_UserID p) id d d'
  end.

Lemma wp_handle_auth h p q w :
  wp (handle_auth cfg h p q) (λ r w', match r with inl _ => w_db w' = w_db w | inr x => auth_effect h p q x (w_db w) (w_db w') end) w.
Proof.
  destruct q as [e pw|e pw| |e|t pw| |t| |n| |id]; simpl; wp_step.
  - apply wp_Register_account; [done|]. intros w' H. by apply wp_ret.
  - apply wp_Login; [done|]. intros u raw row w' H. apply wp_ret. by exists u, raw, row.
  - apply wp_Logout; [done|]. intros w' H. apply wp_ret. split; [done|]. tauto.
  - unfold RequestPasswordReset. wp_step. apply wp_password_reset_request; [done| |].
    + intros w' Hw Hl. apply wp_ret, wp_ret. split; [done|]. by left.
    + intros u raw row d1 w' Hu Ho Hl _ Haud. apply wp_sendEmail. intros w2 Hw2. apply wp_ret. rewrite Hw2. split; [done|].
      right. by exists u, raw, row, d1.
  - apply wp_ResetPassword; [done|]. intros row hash w' H. apply wp_ret. split; [done|]. by exists row, hash.
  - wp_step; [|done]. wp_step. unfold RequestEmailVerification. do 2 wp_step. apply wp_store_GetUserByID; [done|]. intros w1 Hw1.
    destruct (lookup_by us_ID _ _) as [u|] eqn:Hu; cbn [fmap option_fmap option_map]; [|by apply wp_fail].
    cbn [user_of u_EmailVerified]. wp_step; [apply wp_ret, wp_ret; auto|]. wp_step.
    apply wp_issueVerification; [intros; congruence|]. intros raw row w2 Ho Hl. apply wp_ret. split; [done|]. split; [done|].
    right. exists u, raw, row. by rewrite <- Hw1.
  - apply wp_VerifyEmail; [done|]. intros row w' H. apply wp_ret. split; [done|]. by exists row.
  - wp_step; [|done]. wp_step. unfold CurrentUser. wp_step. apply wp_store_GetUserByID; [done|]. intros w1 Hw1.
    destruct (lookup_by us_ID _ _) as [u|] eqn:Hu; cbn [fmap option_fmap option_map]; [|done].
    apply wp_ret. split; [done|]. split; [done|]. by exists u.
  - wp_step; [|done]. wp_step. apply wp_CreateAPIToken; [done|]. intros raw row w' H1. apply wp_ret. split; [done|]. by exists raw, row.
  - wp_step; [|done]. wp_step. unfold ListAPITokens, store_ListAPITokens. wp_step; [done|]. by apply wp_ret.
  - wp_step; [|done]. wp_step. apply wp_RevokeAPIToken; [done|]. intros w' H1. by apply wp_ret.
Qed.

(** What the effects keep. *)
Lemma account_created_keeps ac e pw v row d d' : account_created ac e pw v row d d' →
  (auwf d → auwf d') ∧ (twf d → twf d') ∧ (twf d → inv d → inv d').
Proof.
  intros [_ (d1 & d2 & ws & Hu & Hw & Haud)].
  set (f := us_set_verified). set (d3 := if v then set_users (update_where (user_is (us_ID row)) f (users d2)) d2 else d2) in *.
  assert (twf d → twf d2) as T2 by (intros T; eapply twf_workspace_created; [exact Hw|]; by eapply twf_user_added).
  split; [|split].
  - intros A. eapply auwf_audited; [exact Haud|]. assert (auwf d2) as A2 by (eapply auwf_workspace; [exact Hw|]; by eapply auwf_user_added).
    subst d3. destruct v; [|done]. by apply auwf_set_verified.
  - intros T. eapply twf_audited; [exact Haud|]. subst d3. destruct v; [|by apply T2].
    apply twf_users; [|by apply T2]. intros id. by apply has_key_update.
  - intros T I. eapply inv_audited; [exact Haud|]. destruct Hw as [_ _ _ _ (now & row2 & -> & _) _]. destruct Hu as (_ & _ & ->).
    subst d3. destruct v; (eapply inv_same; [..|exact I]; [done..|apply T]).
Qed.
Lemma link_added_keeps p u raw row d d' : link_added p u raw row d d' →
  (auwf d → auwf d') ∧ (twf d → twf d') ∧ (twf d → inv d → inv d').
Proof.
  intros H. split; [by eapply auwf_link_added|]. destruct H as (_ & _ & _ & _ & _ & _ & _ & ->).
  split; [by apply twf_frame|]. intros T. by apply inv_same; try done; apply T.
Qed.
Definition keeps_all (d d' : DB) : Prop := (auwf d → auwf d') ∧ (twf d → twf d') ∧ (twf d → inv d → inv d').
Lemma keeps_all_refl d : keeps_all d d. Proof. by split; [|split]. Qed.
Lemma keeps_all_trans d1 d2 d3 : keeps_all d1 d2 → keeps_all d2 d3 → keeps_all d1 d3.
Proof. intros (A1 & B1 & C1) (A2 & B2 & C2). split; [auto|]. split; auto. Qed.
Lemma keeps_all_audited a ty ti ws ac d d' : audited a ty ti ws ac d d' → keeps_all d d'.
Proof.
  intros H. split; [by eapply auwf_audited|]. split; [by eapply twf_audited|]. intros _. by eapply inv_audited.
Qed.
(** A change of identity tables that adds no user and removes none. *)
Lemma keeps_all_identity d d' : d' = set_users (users d') (set_sessions (sessions d') (set_api_tokens (api_tokens d') (set_user_tokens (user_tokens d') d))) →
  (∀ id, has_key us_ID id (users d) = true → has_key us_ID id (users d') = true) → (auwf d → auwf d') → keeps_all d d'.
Proof.
  intros -> Hk A. split; [exact A|]. split.
  - intros T. apply twf_users; [exact Hk|]. by eapply twf_frame; [|exact T].
  - intros T. by apply inv_same; try done; apply T.
Qed.

Lemma auth_effect_keeps h p q r d d' : auth_effect h p q r d d' → keeps_all d d'.
Proof.
  destruct q as [e pw|e pw| |e|t pw| |t| |n| |id]; simpl.
  - intros [_ [->|(em & row & d1 & _ & _ & _ & Hacc & Hd)]]; [apply keeps_all_refl|].
    apply account_created_keeps in Hacc. destruct Hd as [->|(raw & t & _ & Hl)]; [exact Hacc|].
    eapply keeps_all_trans; [exact Hacc|]. by eapply link_added_keeps.
  - intros (u & raw & row & _ & [Hu _ _ _ (H1 & _) [Hid Hh] Haud]).
    eapply keeps_all_trans; [|by eapply keeps_all_audited]. apply keeps_all_identity; [by destruct d|done|].
    intros [A1 A2 A3 A4 A5 A6 A7 A8 A9 A10 A11]. split; simpl; try done.
    + apply NoDup_map_snoc; [done|]. intros y Hy Heq. apply Hid. rewrite <- Heq. apply list_elem_of_fmap. by exists y.
    + by apply NoDup_map_snoc.
    + apply Forall_app. split; [exact A5|]. constructor; [|done]. rewrite H1. apply lookup_by_Some in Hu as [Hu _].
      apply has_key_true. by exists u.
  - intros [_ [[_ ->]|(now & Haud)]]; [apply keeps_all_refl|]. eapply keeps_all_trans; [|by eapply keeps_all_audited].
    apply keeps_all_identity; [by destruct d|done|]. by apply auwf_sessions.
  - intros [_ [[_ ->]|(u & raw & row & d1 & _ & _ & Hl & Haud)]]; [apply keeps_all_refl|].
    eapply keeps_all_trans; [by eapply link_added_keeps|by eapply keeps_all_audited].
  - intros [_ (row & hash & _ & _ & _ & n1 & n2 & Haud)]. eapply keeps_all_trans; [|by eapply keeps_all_audited].
    apply keeps_all_identity; [by destruct d|intros id; by apply has_key_update|].
    intros A. apply (auwf_sessions _ _ (set_user_tokens _ (set_users _ d))); [done|].
    apply (auwf_user_tokens _ _ (set_users _ d)); [done|]. by apply auwf_set_password.
  - intros (_ & _ & [->|(u & raw & row & _ & _ & _ & Hl)]); [apply keeps_all_refl|]. by eapply link_added_keeps.
  - intros [_ (row & _ & now & Haud)]. eapply keeps_all_trans; [|by eapply keeps_all_audited].
    apply keeps_all_identity; [by destruct d|intros id; by apply has_key_update|].
    intros A. apply (auwf_user_tokens _ _ (set_users _ d)); [done|]. by apply auwf_set_verified.
  - intros (_ & -> & _). apply keeps_all_refl.
  - intros (_ & raw & row & _ & _ & H1 & _ & _ & _ & _ & _ & Hid & Hh & Hu & Haud). eapply keeps_all_trans; [|by eapply keeps_all_audited].
    apply keeps_all_identity; [by destruct d|done|].
    intros [A1 A2 A3 A4 A5 A6 A7 A8 A9 A10 A11]. split; simpl; try done.
    + apply NoDup_map_snoc; [done|]. intros y Hy Heq. apply Hid. rewrite <- Heq. apply list_elem_of_fmap. by exists y.
    + by apply NoDup_map_snoc.
    + apply Forall_app. split; [exact A8|]. constructor; [|done]. by rewrite H1.
  - intros (_ & -> & _). apply keeps_all_refl.
  - intros (_ & _ & now & Haud). eapply keeps_all_trans; [|by eapply keeps_all_audited].
    apply keeps_all_identity; [by destruct d|done|]. by apply auwf_api_tokens.
Qed.

Lemma wp_serve_auth dev h q w :
  wp (serve_auth cfg dev h q) (λ r w',
    match r with
    | inr (inr x) => ∃ p d1, admitted dev h (auth_procedure q) p (w_db w) d1 ∧ auth_effect h p q x d1 (w_db w')
    | _ => touched h (w_db w) (w_db w')
    end) w.
Proof.
  apply wp_authInterceptor.
  - intros e p via w' [Hw|Hr]; [by left|right; by exists p, via].
  - intros p w1 Hadm. eapply wp_mono; [|apply wp_handle_auth]. intros [e|x] w' H; simpl in H.
    + destruct Hadm as (via & Hr & _). right. exists p, via. by rewrite H.
    + by exists p, (w_db w1).
Qed.

Lemma auth_requests_keep dev h q r w w' : serve_auth cfg dev h q w = (r, w') → keeps_all (w_db w) (w_db w').
Proof.
  intros H. pose proof (wp_run _ _ _ _ _ (wp_serve_auth dev h q w) H) as He. simpl in He.
  assert (∀ p via d1, resolved h p via (w_db w) d1 → keeps_all (w_db w) d1) as Hr.
  { intros p via d1 Hr. split; [by eapply auwf_resolved|]. split; [by eapply twf_resolved|by eapply inv_resolved]. }
  destruct r as [e|[e|x]].
  - destruct He as [->|(p & via & He)]; [apply keeps_all_refl|by eapply Hr].
  - destruct He as [->|(p & via & He)]; [apply keeps_all_refl|by eapply Hr].
  - destruct He as (p & d1 & (via & Hres & _) & He). eapply keeps_all_trans; [by eapply Hr|by eapply auth_effect_keeps].
Qed.

(** C34: The tables of users, sessions, API tokens and links through any request, with
    any headers. The invariant is kept: ids, addresses and token hashes are unique, and
    every session, token and link belongs to a user; and so are the invariants of
    workspaces and members and of the deployments, backups, configuration and services
    modules. A request that is refused or fails changes nothing but when its credential
    was last used; one that succeeds was let through by the interceptor and did exactly
    the effect of its operation. *)
Theorem auth_requests_safe dev h q r w w' :
  auwf (w_db w) → serve_auth cfg dev h q w = (r, w') →
  auwf (w_db w') ∧ (twf (w_db w) → twf (w_db w') ∧ (inv (w_db w) → inv (w_db w'))) ∧
  match r with
  | inr (inr x) => ∃ p d1, admitted dev h (auth_procedure q) p (w_db w) d1 ∧ auth_effect h p q x d1 (w_db w')
  | _ => touched h (w_db w) (w_db w')
  end.
Proof.
  intros A H. destruct (auth_requests_keep _ _ _ _ _ _ H) as (KA & KT & KI).
  pose proof (wp_run _ _ _ _ _ (wp_serve_auth dev h q w) H) as He.
  split; [by apply KA|]. split; [|exact He]. intros T. split; [by apply KT|by apply KI].
Qed.
End System.
