(* ===== verification/AuthSafety.v ===== *)
(** * AuthSafety: credentials over runs of requests

    The control plane as the clients of the dashboard see it: requests on identity and
    on workspaces, each through the interceptor with the headers it came with.  Where a
    session comes from, what becomes of a credential, and whose requests change what. *)
From S2P Require Import Prelude.
From S2P Require Import GoStrings.
From S2P Require Import GoUrl.
From S2P Require Import Sha256.
From S2P Require Import Problem.
From S2P Require Import Schema.
From S2P Require Import Platform.
From S2P Require Import Authz.
From S2P Require Import DeployStore.
From S2P Require Projects.
From S2P Require Environments.
From S2P Require Servers.
From S2P Require Import TenancySpec.
From S2P Require Import TenancyProps.
From S2P Require Import Passwd.
From S2P Require Import Auth.
From S2P Require Import AuthSpec.
From S2P Require Import AuthProps.

(** ** What becomes of a row *)
Definition later_session (s s' : db_Session) : Prop :=
  ss_ID s' = ss_ID s ∧ ss_UserID s' = ss_UserID s ∧ ss_TokenHash s' = ss_TokenHash s ∧ ss_ExpiresAt s' = ss_ExpiresAt s ∧
  (ss_RevokedAt s ≠ None → ss_RevokedAt s' ≠ None).
Definition later_token (t t' : db_ApiToken) : Prop :=
  apt_ID t' = apt_ID t ∧ apt_UserID t' = apt_UserID t ∧ apt_TokenHash t' = apt_TokenHash t ∧ apt_ExpiresAt t' = apt_ExpiresAt t ∧
  (apt_RevokedAt t ≠ None → apt_RevokedAt t' ≠ None).
Definition later_link (t t' : db_UserToken) : Prop :=
  ut_ID t' = ut_ID t ∧ ut_UserID t' = ut_UserID t ∧ ut_TokenHash t' = ut_TokenHash t ∧ ut_Purpose t' = ut_Purpose t ∧
  ut_ExpiresAt t' = ut_ExpiresAt t ∧ (ut_ConsumedAt t ≠ None → ut_ConsumedAt t' ≠ None).
Definition later_user (u u' : db_User) : Prop :=
  us_ID u' = us_ID u ∧ us_Email u' = us_Email u ∧ us_CreatedAt u' = us_CreatedAt u ∧ (us_EmailVerified u = true → us_EmailVerified u' = true).
(** Every row of [l] is still there, changed only as [R] says. *)
Definition kept {X} (R : X → X → Prop) (l l' : list X) : Prop := ∀ x, x ∈ l → ∃ x', x' ∈ l' ∧ R x x'.
Record fate (d d' : DB) : Prop := {
  ft_users : kept later_user (users d) (users d');
  ft_sessions : kept later_session (sessions d) (sessions d');
  ft_tokens : kept later_token (api_tokens d) (api_tokens d');
  ft_links : kept later_link (user_tokens d) (user_tokens d');
}.

Lemma kept_refl {X} (R : X → X → Prop) l : (∀ x, R x x) → kept R l l.
Proof. intros HR x Hx. by exists x. Qed.
Lemma kept_more {X} (R : X → X → Prop) l x : (∀ x, R x x) → kept R l (l ++ [x]).
Proof. intros HR y Hy. exists y. rewrite elem_of_app. auto. Qed.
Lemma kept_update {X} (R : X → X → Prop) p f l : (∀ x, R x x) → (∀ x, R x (f x)) → kept R l (update_where p f l).
Proof. intros HR Hf y Hy. exists (if p y then f y else y). split; [apply elem_of_update_where; by exists y|]. by case_match. Qed.
Lemma kept_trans {X} (R : X → X → Prop) l1 l2 l3 : (∀ x y z, R x y → R y z → R x z) → kept R l1 l2 → kept R l2 l3 → kept R l1 l3.
Proof. intros HR H1 H2 x Hx. destruct (H1 x Hx) as (y & Hy & Rxy). destruct (H2 y Hy) as (z & Hz & Ryz). exists z. eauto. Qed.
Ltac later := intros; unfold later_user, later_session, later_token, later_link in *; simpl; intuition congruence.
Lemma fate_refl d : fate d d.
Proof. split; apply kept_refl; later. Qed.
#[export] Instance fate_trans : Transitive fate.
Proof. intros d1 d2 d3 [A1 A2 A3 A4] [B1 B2 B3 B4]. split; eapply kept_trans; try eassumption; later. Qed.
(** The tables one by one. *)
Lemma fate_users us d : kept later_user (users d) us → fate d (set_users us d).
Proof. intros H. split; [exact H|apply kept_refl; later..]. Qed.
Lemma fate_sessions ss d : kept later_session (sessions d) ss → fate d (set_sessions ss d).
Proof. intros H. split; [apply kept_refl; later|exact H|apply kept_refl; later..]. Qed.
Lemma fate_tokens ts d : kept later_token (api_tokens d) ts → fate d (set_api_tokens ts d).
Proof. intros H. split; [apply kept_refl; later|apply kept_refl; later|exact H|apply kept_refl; later]. Qed.
Lemma fate_links ts d : kept later_link (user_tokens d) ts → fate d (set_user_tokens ts d).
Proof. intros H. split; [apply kept_refl; later..|exact H]. Qed.
Lemma fate_same d d' : identity d' = identity d → fate d d'.
Proof. intros H. injection H as H1 H2 H3 H4. split; rewrite ?H1, ?H2, ?H3, ?H4; apply kept_refl; later. Qed.
Lemma fate_audited a ty ti ws ac d d' : audited a ty ti ws ac d d' → fate d d'.
Proof. intros (row & -> & _). by apply fate_same. Qed.
(** On top of earlier changes. *)
Lemma fate_sessions_on d d0 ss : fate d d0 → kept later_session (sessions d0) ss → fate d (set_sessions ss d0).
Proof. intros H H1. etrans; [exact H|by apply fate_sessions]. Qed.
Lemma fate_links_on d d0 ts : fate d d0 → kept later_link (user_tokens d0) ts → fate d (set_user_tokens ts d0).
Proof. intros H H1. etrans; [exact H|by apply fate_links]. Qed.
Ltac fated := simpl; solve [apply kept_update; later | apply kept_more; later].

Section Steps.
Context {E : Env} {N : Entropy} {K : Argon2} {P : Mailer}.
Variable cfg : AuthConfig.

Lemma fate_resolved h p via d d' : resolved h p via d d' → fate d d'.
Proof. intros [[_ ->]|[n []]]; [apply fate_refl|apply fate_tokens; fated|apply fate_sessions; fated]. Qed.
Lemma fate_link_added p u raw row d d' : link_added p u raw row d d' → fate d d'.
Proof. intros (_ & _ & _ & _ & _ & _ & _ & ->). apply fate_links; fated. Qed.
Lemma fate_account ac e pw row d d' : account_created ac e pw false row d d' → fate d d'.
Proof.
  intros [_ (d1 & d2 & ws & (_ & _ & ->) & [_ _ _ _ (now & r & -> & _) _] & Haud)]. etrans; [|by eapply fate_audited].
  etrans; [eapply (fate_users (users d ++ [row])); fated|]. by apply fate_same.
Qed.
Lemma fate_auth_effect h p q r d d' : auth_effect cfg h p q r d d' → fate d d'.
Proof.
  destruct q as [e pw|e pw| |e|t pw| |t| |n| |id]; simpl.
  - intros [_ [->|(em & row & d1 & _ & _ & _ & Hacc & Hd)]]; [apply fate_refl|].
    apply fate_account in Hacc. destruct Hd as [->|(raw & t & _ & Hl)]; [exact Hacc|]. etrans; [exact Hacc|by eapply fate_link_added].
  - intros (u & raw & row & _ & [_ _ _ _ _ _ Haud]). etrans; [|by eapply fate_audited]. apply fate_sessions; fated.
  - intros [_ [[_ ->]|(now & Haud)]]; [apply fate_refl|]. etrans; [|by eapply fate_audited]. apply fate_sessions; fated.
  - intros [_ [[_ ->]|(u & raw & row & d1 & _ & _ & Hl & Haud)]]; [apply fate_refl|].
    etrans; [by eapply fate_link_added|by eapply fate_audited].
  - intros [_ (row & hash & _ & _ & _ & n1 & n2 & Haud)]. etrans; [|by eapply fate_audited]. unfold reset_rows.
    apply fate_sessions_on; [|fated]. apply fate_links_on; [|fated]. apply fate_users; fated.
  - intros (_ & _ & [->|(u & raw & row & _ & _ & _ & Hl)]); [apply fate_refl|]. by eapply fate_link_added.
  - intros [_ (row & _ & now & Haud)]. etrans; [|by eapply fate_audited].
    apply fate_links_on; [|fated]. apply fate_users; fated.
  - intros (_ & -> & _). apply fate_refl.
  - intros (_ & raw & row & _ & _ & _ & _ & _ & _ & _ & _ & _ & _ & _ & Haud). etrans; [|by eapply fate_audited]. apply fate_tokens; fated.
  - intros (_ & -> & _). apply fate_refl.
  - intros (_ & _ & now & Haud). etrans; [|by eapply fate_audited]. apply fate_tokens; fated.
Qed.
End Steps.

(** Rows outside the key that is rewritten. *)
Lemma elem_of_update_where_other {X K} (key : X → K) k p f (l : list X) x :
  (∀ y, p y = true → key y = k) → key x ≠ k → (∀ y, key (f y) = key y) →
  x ∈ update_where p f l ↔ x ∈ l.
Proof.
  intros Hp Hx Hf. rewrite elem_of_update_where. split.
  - intros (y & Hy & ->). destruct (p y) eqn:Hb; [|done]. rewrite Hf in Hx. by destruct (Hx (Hp y Hb)).
  - intros Hin. exists x. split; [done|]. destruct (p x) eqn:Hb; [|done]. by destruct (Hx (Hp x Hb)).
Qed.

(** ** Requests with their headers *)
Definition tenancy_procedure (q : TenancyRequest) : string :=
  "/controlplane.v1." +:+
  match q with
  | TCreateWorkspace _ => "WorkspaceService/CreateWorkspace" | TListMyWorkspaces => "WorkspaceService/ListMyWorkspaces"
  | TInvite _ => "WorkspaceService/InviteMember" | TListMembers _ => "WorkspaceService/ListMembers"
  | TChangeRole _ => "WorkspaceService/ChangeMemberRole" | TRemove _ => "WorkspaceService/RemoveMember"
  | TCreateProject _ => "ProjectService/CreateProject" | TGetProject _ => "ProjectService/GetProject"
  | TListProjects _ => "ProjectService/ListProjectsByWorkspace"
  | TCreateEnvironment _ => "EnvironmentService/CreateEnvironment" | TGetEnvironment _ => "EnvironmentService/GetEnvironment"
  | TListEnvironments _ => "EnvironmentService/ListEnvironmentsByProject"
  | TCreateServer _ => "ServerService/CreateServer" | TGetServer _ => "ServerService/GetServer"
  | TListServers _ => "ServerService/ListServersByWorkspace" | TDeleteServer _ => "ServerService/DeleteServer"
  end.

Section Serve.
Context {E : Env} {N : Entropy} {K : Argon2} {P : Mailer}.
Variable cfg : AuthConfig.
Variable dev : bool.
Implicit Types (w : World).

Definition serve_tenancy (h : Header) (q : TenancyRequest) : M (Refusal + unit) :=
  authInterceptor dev h (tenancy_procedure q) (λ p, handle_tenancy p q).
(** One request after the other. *)
Definition Request : Type := Header * (AuthRequest + TenancyRequest).
Definition serve (r : Request) (w : World) : World :=
  match snd r with
  | inl q => snd (serve_auth cfg dev (fst r) q w)
  | inr q => snd (serve_tenancy (fst r) q w)
  end.
Definition serve_all (l : list Request) (w : World) : World := fold_left (λ w r, serve r w) l w.

Lemma tenancy_identity c q d d' : tenancy_effect c q d d' → identity d' = identity d.
Proof.
  destruct q; simpl.
  - by intros (_ & row & [_ _ _ _ (now & r & -> & _) _]).
  - by intros (row & [_ _ _ _ (r & -> & _)]).
  - by intros (ws & row & [_ _ _ _ _ (r & -> & _)]).
  - by intros (row & [_ _ _ _ (r & -> & _)]).
  - by intros (row & [_ _ (r & -> & _)]).
  - by intros (u & [_ _ _ _ (now & r & -> & _)]).
  - by intros (old & [_ _ _ _ (r & -> & _)]).
  - by intros (old & [_ _ _ (r & -> & _)]).
  - by intros [-> _]. - by intros ->. - by intros [-> _]. - by intros [-> _]. - by intros [-> _]. - by intros [-> _].
  - by intros [-> _]. - by intros [-> _].
Qed.

Lemma wp_serve_tenancy h q w :
  wp (serve_tenancy h q) (λ r w',
    match r with
    | inr (inr _) => ∃ p d1, admitted dev h (tenancy_procedure q) p (w_db w) d1 ∧ tenancy_effect p q d1 (w_db w')
    | _ => touched h (w_db w) (w_db w')
    end) w.
Proof.
  apply wp_authInterceptor.
  - intros e p via w' [Hw|Hr]; [by left|right; by exists p, via].
  - intros p w1 Hadm. eapply wp_mono; [|apply wp_handle_tenancy]. intros [e|x] w' H; simpl in H.
    + destruct Hadm as (via & Hr & _). right. exists p, via. by rewrite H.
    + by exists p, (w_db w1).
Qed.

(** What a served request did. *)
Definition served (r : Request) (d d' : DB) : Prop :=
  touched (fst r) d d' ∨
  match snd r with
  | inl q => ∃ p x d1, admitted dev (fst r) (auth_procedure q) p d d1 ∧ auth_effect cfg (fst r) p q x d1 d'
  | inr q => ∃ p d1, admitted dev (fst r) (tenancy_procedure q) p d d1 ∧ tenancy_effect p q d1 d'
  end.
Lemma serve_served r w : served r (w_db w) (w_db (serve r w)).
Proof.
  unfold serve, served. destruct r as [h [q|q]]; simpl.
  - pose proof (wp_serve_auth cfg dev h q w) as H. unfold wp in H.
    destruct (serve_auth cfg dev h q w) as [[e|[e|x]] w']; simpl in *; [by left|by left|right].
    destruct H as (p & d1 & H). by exists p, x, d1.
  - pose proof (wp_serve_tenancy h q w) as H. unfold wp in H.
    destruct (serve_tenancy h q w) as [[e|[e|[]]] w']; simpl in *; [by left|by left|right; exact H].
Qed.

Lemma auwf_touched h d d' : touched h d d' → auwf d → auwf d'.
Proof. intros [->|(p & via & H)]; [done|by eapply auwf_resolved]. Qed.
Lemma fate_touched h d d' : touched h d d' → fate d d'.
Proof. intros [->|(p & via & H)]; [apply fate_refl|by eapply fate_resolved]. Qed.
Lemma served_keeps r d d' : served r d d' → (auwf d → auwf d') ∧ fate d d'.
Proof.
  intros [H|H]; [split; [by eapply auwf_touched|by eapply fate_touched]|]. destruct r as [h [q|q]]; simpl in H.
  - destruct H as (p & x & d1 & (via & Hr & _) & He). pose proof (auth_effect_keeps cfg _ _ _ _ _ _ He) as [KA _].
    split; [intros A; by apply KA; eapply auwf_resolved|].
    etrans; [by eapply fate_resolved|by eapply fate_auth_effect].
  - destruct H as (p & d1 & (via & Hr & _) & He). apply tenancy_identity in He.
    split; [intros A; eapply auwf_frame; [exact He|by eapply auwf_resolved]|].
    etrans; [by eapply fate_resolved|by apply fate_same].
Qed.
Lemma serve_all_keeps l w : (auwf (w_db w) → auwf (w_db (serve_all l w))) ∧ fate (w_db w) (w_db (serve_all l w)).
Proof.
  revert w. induction l as [|r l IH]; intros w; simpl; [split; [done|apply fate_refl]|].
  destruct (served_keeps _ _ _ (serve_served r w)) as [A1 F1]. destruct (IH (serve r w)) as [A2 F2].
  split; [auto|]. by etrans.
Qed.

(** ** Dead credentials *)
Definition dead_session (tok : string) (d : DB) : Prop := ∃ s, s ∈ sessions d ∧ ss_TokenHash s = hashToken tok ∧ ss_RevokedAt s ≠ None.
Definition dead_token (tok : string) (d : DB) : Prop := ∃ t, t ∈ api_tokens d ∧ apt_TokenHash t = hashToken tok ∧ apt_RevokedAt t ≠ None.
Definition dead_link (tok : string) (d : DB) : Prop := ∃ t, t ∈ user_tokens d ∧ ut_TokenHash t = hashToken tok ∧ ut_ConsumedAt t ≠ None.
Lemma dead_session_later tok d d' : fate d d' → dead_session tok d → dead_session tok d'.
Proof. intros F (s & Hs & Hh & Hr). destruct (ft_sessions _ _ F s Hs) as (s' & Hs' & _ & _ & H1 & _ & H2). exists s'. rewrite H1. auto. Qed.
Lemma dead_token_later tok d d' : fate d d' → dead_token tok d → dead_token tok d'.
Proof. intros F (s & Hs & Hh & Hr). destruct (ft_tokens _ _ F s Hs) as (s' & Hs' & _ & _ & H1 & _ & H2). exists s'. rewrite H1. auto. Qed.
Lemma dead_link_later tok d d' : fate d d' → dead_link tok d → dead_link tok d'.
Proof. intros F (s & Hs & Hh & Hr). destruct (ft_links _ _ F s Hs) as (s' & Hs' & _ & _ & H1 & _ & _ & H2). exists s'. rewrite H1. auto. Qed.

Lemma resolve_dead_session tok w : auwf (w_db w) → dead_session tok (w_db w) →
  wp (ResolveSession tok) (λ r _, ∀ p, r = inr p → p = anonymous) w.
Proof.
  intros A (s & Hs & Hh & Hr). unfold ResolveSession. wp_step; [by apply wp_ret; intros p [= <-]|].
  wp_step. unfold SessionUser, wp, ok_or_norows, autocommit, db_exec. simpl. destruct (fault (w_tick w)); [done|].
  unfold sql_UseSession. simpl. destruct (List.find _ _) as [s'|] eqn:Hf; simpl; [|by intros p [= <-]].
  apply find_Some_elem in Hf as [Hin Hl]. unfold live_session in Hl. rewrite !andb_true_iff, !bool_decide_eq_true in Hl.
  destruct Hl as [[H1 H2] _]. assert (s' = s) as ->; [|done]. apply (NoDup_map_inj ss_TokenHash _ _ _ (auw_ss_hashes _ A)); [done|done|congruence].
Qed.
Lemma resolve_dead_token tok w : auwf (w_db w) → dead_token tok (w_db w) →
  wp (ResolveAPIToken tok) (λ r _, ∀ p, r = inr p → p = anonymous) w.
Proof.
  intros A (s & Hs & Hh & Hr). unfold ResolveAPIToken. wp_step; [by apply wp_ret; intros p [= <-]|].
  wp_step. unfold APITokenUser, wp, ok_or_norows, autocommit, db_exec. simpl. destruct (fault (w_tick w)); [done|].
  unfold sql_UseAPIToken. simpl. destruct (List.find _ _) as [s'|] eqn:Hf; simpl; [|by intros p [= <-]].
  apply find_Some_elem in Hf as [Hin Hl]. unfold live_token in Hl. rewrite !andb_true_iff, !bool_decide_eq_true in Hl.
  destruct Hl as [[H1 H2] _]. assert (s' = s) as ->; [|done]. apply (NoDup_map_inj apt_TokenHash _ _ _ (auw_apt_hashes _ A)); [done|done|congruence].
Qed.
Lemma dead_link_not_live tok purpose t d : auwf d → dead_link tok d → link_live tok purpose t d → False.
Proof.
  intros A (s & Hs & Hh & Hr) (Ht & H1 & _ & H2 & _). assert (t = s) as ->; [|done].
  apply (NoDup_map_inj ut_TokenHash _ _ _ (auw_ut_hashes _ A)); [done|done|congruence].
Qed.

(** C8: A credential that is dead stays dead. Whatever requests follow, with whatever
    headers, a revoked session or API token identifies nobody again, and a consumed
    link neither resets a password nor verifies an address. A hash is never reissued,
    for the dead row keeps it. *)
Theorem dead_credentials_stay_dead l w tok :
  auwf (w_db w) →
  (dead_session tok (w_db w) → ∀ p w', ResolveSession tok (serve_all l w) = (inr p, w') → p = anonymous) ∧
  (dead_token tok (w_db w) → ∀ p w', ResolveAPIToken tok (serve_all l w) = (inr p, w') → p = anonymous) ∧
  (dead_link tok (w_db w) → ∀ pw r w', ResetPassword tok pw (serve_all l w) = (r, w') ∨ VerifyEmail tok (serve_all l w) = (r, w') →
     (∃ e, r = inl e) ∧ w_db w' = w_db (serve_all l w)).
Proof.
  intros A. destruct (serve_all_keeps l w) as [KA F]. specialize (KA A). split; [|split].
  - intros D p w' H. pose proof (resolve_dead_session tok _ KA (dead_session_later _ _ _ F D)) as Hr.
    eapply (wp_run _ _ _ _ _ Hr H). done.
  - intros D p w' H. pose proof (resolve_dead_token tok _ KA (dead_token_later _ _ _ F D)) as Hr.
    eapply (wp_run _ _ _ _ _ Hr H). done.
  - intros D pw r w' H. pose proof (dead_link_later _ _ _ F D) as D'. destruct H as [H|H]; use_wp H.
    + apply wp_ResetPassword; [by eauto|]. intros t hash w2 (_ & Hl & _). by destruct (dead_link_not_live _ _ _ _ KA D' Hl).
    + apply wp_VerifyEmail; [by eauto|]. intros t w2 (Hl & _). by destruct (dead_link_not_live _ _ _ _ KA D' Hl).
Qed.

(** ** Where a session comes from *)
Definition session_ids (d : DB) : list string := map ss_ID (sessions d).
(** The request [r], served at [w], signed the owner of [s] in. *)
Definition signed_in_by (r : Request) (w : World) (s : db_Session) : Prop :=
  ∃ email pw u h, snd r = inl (QLogin email pw) ∧ u ∈ users (w_db w) ∧ us_ID u = ss_UserID s ∧
    us_Email u = ToLower (TrimSpace email) ∧ us_PasswordHash u = Some h ∧ Verify pw h = None ∧
    (ac_RequireEmailVerification cfg = true → us_EmailVerified u = true).
Lemma sessions_after p f (l : list db_Session) s' : s' ∈ update_where p f l → (∀ s, ss_ID (f s) = ss_ID s) →
  ss_ID s' ∈ map ss_ID l.
Proof.
  intros (s & Hs & ->)%elem_of_update_where Hf. apply list_elem_of_fmap. exists s. split; [|done]. case_match; [by rewrite Hf|done].
Qed.
Lemma resolved_sessions h p via d d' : resolved h p via d d' → session_ids d' = session_ids d ∧ users d' = users d.
Proof. intros [[_ ->]|[n []]]; [done|done|]. split; [|done]. unfold session_ids. simpl. by apply map_update_where. Qed.
Lemma account_sessions ac e pw v row d d' : account_created ac e pw v row d d' → sessions d' = sessions d.
Proof.
  intros [_ (d1 & d2 & ws & (_ & _ & ->) & [_ _ _ _ (now & r & -> & _) _] & (r' & -> & _))]. by destruct v.
Qed.
Lemma auth_effect_sessions h p q x d d' : auth_effect cfg h p q x d d' →
  session_ids d' = session_ids d ∨
  ∃ e pw u raw row, q = QLogin e pw ∧ signed_in cfg (mk_LoginInput e pw (hd_UserAgent h)) u raw row d d' ∧
    sessions d' = sessions d ++ [row].
Proof.
  destruct q as [e pw|e pw| |e|t pw| |t| |n| |id]; simpl.
  - intros [_ [->|(em & row & d1 & _ & _ & _ & Hacc & Hd)]]; [by left|]. left. unfold session_ids. apply account_sessions in Hacc as <-.
    destruct Hd as [->|(raw & t & _ & (_ & _ & _ & _ & _ & _ & _ & ->))]; done.
  - intros (u & raw & row & _ & Hs). right. exists e, pw, u, raw, row. split; [done|]. split; [done|].
    by destruct Hs as [_ _ _ _ _ _ (r & -> & _)].
  - intros [_ [[_ ->]|(now & r & -> & _)]]; left; [done|]. unfold session_ids. simpl. by apply map_update_where.
  - intros [_ [[_ ->]|(u & raw & row & d1 & _ & _ & (_ & _ & _ & _ & _ & _ & _ & ->) & (r & -> & _))]]; by left.
  - intros [_ (row & hash & _ & _ & _ & n1 & n2 & r & -> & _)]. left. unfold session_ids. simpl. by apply map_update_where.
  - intros (_ & _ & [->|(u & raw & row & _ & _ & _ & (_ & _ & _ & _ & _ & _ & _ & ->))]); by left.
  - intros [_ (row & _ & now & r & -> & _)]. by left.
  - intros (_ & -> & _). by left.
  - intros (_ & raw & row & _ & _ & _ & _ & _ & _ & _ & _ & _ & _ & _ & (r & -> & _)). by left.
  - intros (_ & -> & _). by left.
  - intros (_ & _ & now & r & -> & _). by left.
Qed.
Lemma served_sessions r w s' : s' ∈ sessions (w_db (serve r w)) → ss_ID s' ∈ session_ids (w_db w) ∨ signed_in_by r w s'.
Proof.
  intros Hs. assert (ss_ID s' ∈ session_ids (w_db (serve r w))) as Hid by (apply list_elem_of_fmap; by exists s').
  destruct (serve_served r w) as [[Hd|(p & via & H)]|H].
  - left. by rewrite <- Hd.
  - left. by rewrite <- (proj1 (resolved_sessions _ _ _ _ _ H)).
  - destruct r as [h [q|q]]; simpl in H.
    + destruct H as (p & x & d1 & (via & Hr & _) & He). destruct (resolved_sessions _ _ _ _ _ Hr) as [R1 R2].
      destruct (auth_effect_sessions _ _ _ _ _ _ He) as [Heq|(e & pw & u & raw & row & -> & Hsi & Happ)].
      { left. by rewrite <- R1, <- Heq. }
      rewrite Happ in Hs. apply elem_of_app in Hs as [Hs|Hs%list_elem_of_singleton].
      { left. rewrite <- R1. apply list_elem_of_fmap. by exists s'. }
      subst s'. right. destruct Hsi as [Hu (hh & Hh & Hv) Hver _ (H1 & _) _ _]. rewrite R2 in Hu. apply lookup_by_Some in Hu as [Hin Hem].
      exists e, pw, u, hh. simpl in *. repeat (split; [done|]). done.
    + destruct H as (p & d1 & (via & Hr & _) & He). left. rewrite <- (proj1 (resolved_sessions _ _ _ _ _ Hr)).
      apply tenancy_identity in He. injection He as _ He _ _. unfold session_ids in *. by rewrite <- He.
Qed.
Lemma later_session_owner l w s s' : auwf (w_db w) → s ∈ sessions (w_db w) → s' ∈ sessions (w_db (serve_all l w)) →
  ss_ID s' = ss_ID s → ss_UserID s' = ss_UserID s.
Proof.
  intros A Hs Hs' Heq. destruct (serve_all_keeps l w) as [KA F]. destruct (ft_sessions _ _ F s Hs) as (s2 & Hs2 & I1 & I2 & _).
  assert (s' = s2) as ->; [|done]. apply (NoDup_map_inj ss_ID _ _ _ (auw_ss_ids _ (KA A))); [done|done|congruence].
Qed.

(** C6: Every session comes from a password. A session present after any run of requests
    and not before it belongs to a user who was signed in by one of them: a Login whose
    password verified against the hash the account had at that moment, of a verified
    address where the deployment asks for that. *)
Theorem sessions_come_from_passwords l w s' :
  auwf (w_db w) → s' ∈ sessions (w_db (serve_all l w)) → ss_ID s' ∉ session_ids (w_db w) →
  ∃ before r after, l = before ++ r :: after ∧ signed_in_by r (serve_all before w) s'.
Proof.
  revert w. induction l as [|r l IH]; intros w A Hs Hn; simpl in Hs.
  { exfalso. apply Hn, list_elem_of_fmap. by exists s'. }
  destruct (decide (ss_ID s' ∈ session_ids (w_db (serve r w)))) as [Hin|Hin].
  - exists [], r, l. split; [done|]. simpl.
    apply list_elem_of_fmap in Hin as (s & Heq & Hs1). destruct (served_sessions r w s Hs1) as [Hold|Hby].
    { exfalso. apply Hn. by rewrite Heq. }
    assert (auwf (w_db (serve r w))) as A1 by (by apply (proj1 (served_keeps _ _ _ (serve_served r w)))).
    pose proof (later_session_owner l _ s s' A1 Hs1 Hs Heq) as Ho. unfold signed_in_by in *. by rewrite Ho.
  - assert (auwf (w_db (serve r w))) as A1 by (by apply (proj1 (served_keeps _ _ _ (serve_served r w)))).
    destruct (IH _ A1 Hs Hin) as (before & r' & after & -> & H). exists (r :: before), r', after. by split.
Qed.

(** ** Sign in, then ask *)
(** A sign-in can be used. The token that Login hands out identifies its user to every
    later request that carries it as the session cookie, until it is revoked or expires:
    the interceptor calls the handler with that user as the caller, and records the use. *)
Theorem login_then_request h email pw u tok w w1 :
  auwf (w_db w) → u_ID u ≠ "" →
  serve_auth cfg dev h (QLogin email pw) w = (inr (inr (RLoggedIn u tok)), w1) →
  ∃ row, row ∈ sessions (w_db w1) ∧ ss_UserID row = u_ID u ∧ ss_TokenHash row = hashToken tok ∧
  ∀ l w2 now row' X (next : Principal → M X) h2 procedure,
    w_db w2 = w_db (serve_all l w1) → row' ∈ sessions (w_db w2) → ss_ID row' = ss_ID row →
    ss_RevokedAt row' = None → now = now_at (w_tick w2) → now < ss_ExpiresAt row' → fault (w_tick w2) = false →
    HasPrefix (hd_Authorization h2) "Bearer " = false → Cookie h2 sessionCookieName = Some tok →
    cross_site h2 = false → hd_ConnectProtocolVersion h2 ≠ "" →
    authInterceptor dev h2 procedure next w2 =
      (x ← next (mk_Principal (u_ID u) MethodSession); mret (inr x))
        (mk_World (touch_row (hashToken tok) now (w_db w2)) (S (w_tick w2)) now).
Proof.
  intros A Hu H. pose proof (wp_run _ _ _ _ _ (wp_serve_auth cfg dev h (QLogin email pw) w) H) as (p & d1 & (via & Hr & _) & u' & raw & row & [= -> ->] & Hs).
  assert (auwf (w_db w1)) as A1 by (by apply (proj1 (auth_requests_keep cfg dev _ _ _ _ _ H))).
  destruct Hs as [_ _ _ Ht%opaque_nonempty (S1 & S2 & _) _ (rr & Hd & _)].
  exists row. split; [rewrite Hd; simpl; apply elem_of_app; right; by left|]. split; [done|]. split; [done|].
  intros l w2 now row' X next h2 proc Hw2 Hin Hid Hrev -> Hexp Hf Hb Hc Hx Hv.
  destruct (serve_all_keeps l w1) as [KA F]. specialize (KA A1).
  assert (row ∈ sessions (w_db w1)) as Hrow by (rewrite Hd; simpl; apply elem_of_app; right; by left).
  destruct (ft_sessions _ _ F row Hrow) as (row2 & Hin2 & L1 & L2 & L3 & _). rewrite <- Hw2 in *.
  assert (row' = row2) as -> by (apply (NoDup_map_inj ss_ID _ _ _ (auw_ss_ids _ KA)); [done|done|congruence]).
  assert (live_session (hashToken raw) (now_at (w_tick w2)) row2 = true) as Hl.
  { unfold live_session. rewrite !andb_true_iff, !bool_decide_eq_true. split; [split; [congruence|done]|by apply Z.ltb_lt]. }
  unfold authInterceptor, resolvePrincipal. rewrite Hb, Hc. rewrite (proj2 (String.eqb_neq raw "") Ht).
  unfold ResolveSession. rewrite (proj2 (String.eqb_neq raw "") Ht).
  unfold SessionUser, try, mbind, M_bind, ok_or_norows, autocommit, db_exec. cbn [w_tick w_db w_txnow]. rewrite Hf.
  unfold sql_UseSession. cbn [st_now].
  destruct (List.find _ _) as [s|] eqn:Hfind.
  2: { eapply find_none in Hfind; [|by apply list_elem_of_In]. by rewrite Hl in Hfind. }
  apply find_Some_elem in Hfind as [Hins Hls].
  assert (s = row2) as ->.
  { unfold live_session in Hls. rewrite !andb_true_iff, !bool_decide_eq_true in Hls. destruct Hls as [[E1 _] _].
    apply (NoDup_map_inj ss_TokenHash _ _ _ (auw_ss_hashes _ KA)); [done|done|congruence]. }
  rewrite L2, S1. cbn [mret M_ret]. unfold admit_caller, IsAuthenticated. cbn [p_UserID user_of u_ID] in *. rewrite Hx.
  rewrite (proj2 (String.eqb_neq _ "") Hu), (proj2 (String.eqb_neq _ "") Hv). by destruct dev.
Qed.


(** ** A password reset *)
(** C24: What a reset does. When ResetPassword succeeds the link was unconsumed, unexpired
    and one of the account's; afterwards the account's new password is in force, the link
    is consumed, every session of the account is revoked, and nobody else's user, session
    or link row changed. *)
Theorem reset_password_effect token pw w w' :
  auwf (w_db w) → ResetPassword token pw w = (inr tt, w') →
  ∃ t hash, link_live token purposePasswordReset t (w_db w) ∧ minPasswordLen ≤ len pw ∧
    Verify pw hash = None ∧
    (∃ u, u ∈ users (w_db w') ∧ us_ID u = ut_UserID t ∧ us_PasswordHash u = Some hash) ∧
    dead_link token (w_db w') ∧
    (∀ s, s ∈ sessions (w_db w') → ss_UserID s = ut_UserID t → ss_RevokedAt s ≠ None) ∧
    (∀ u, us_ID u ≠ ut_UserID t → (u ∈ users (w_db w') ↔ u ∈ users (w_db w))) ∧
    (∀ s, ss_UserID s ≠ ut_UserID t → (s ∈ sessions (w_db w') ↔ s ∈ sessions (w_db w))) ∧
    (∀ x, ut_ID x ≠ ut_ID t → (x ∈ user_tokens (w_db w') ↔ x ∈ user_tokens (w_db w))).
Proof.
  intros A H. use_wp H. apply wp_ResetPassword; [done|]. intros t hash w1 (Hlen & Hl & Hh & n1 & n2 & r & Hd & _) _.
  exists t, hash. split; [done|]. split; [done|]. split; [by apply hash_of_verifies|]. rewrite Hd. unfold reset_rows. simpl.
  pose proof Hl as (Ht & Hth & _).
  assert (∃ u, u ∈ users (w_db w) ∧ us_ID u = ut_UserID t) as (u & Hu & Hid).
  { pose proof (proj1 (Forall_forall _ _) (auw_ut _ A) t Ht) as Ho. by apply has_key_true in Ho. }
  split; [|split; [|split; [|split; [|split]]]].
  - exists (us_set_password (Some hash) u). split; [|done]. apply elem_of_update_where. exists u. split; [done|]. unfold user_is. by rewrite Hid, String.eqb_refl.
  - exists (ut_consume n1 t). split; [|done]. apply elem_of_update_where. exists t. by rewrite String.eqb_refl.
  - intros s (s0 & Hs0 & ->)%elem_of_update_where. destruct (unrevoked_of (ut_UserID t) s0) eqn:Hb; [done|].
    intros Ho Hr. unfold unrevoked_of in Hb. by rewrite Ho, String.eqb_refl, Hr in Hb.
  - intros x Hx. apply (elem_of_update_where_other us_ID (ut_UserID t)); [intros y; unfold user_is; by rewrite String.eqb_eq|done|by intros y].
  - intros x Hx. apply (elem_of_update_where_other ss_UserID (ut_UserID t)); [intros y; unfold unrevoked_of; by rewrite andb_true_iff, String.eqb_eq; intros [? _]|done|by intros y].
  - intros x Hx. apply (elem_of_update_where_other ut_ID (ut_ID t)); [intros y; by rewrite String.eqb_eq|done|by intros y].
Qed.

(** ** What an answer tells *)
(** Answers do not tell which addresses have accounts. A Login with an unknown
    address and one with a wrong password get the same error, and an account without a
    password the same again; every successful Register gets the same response, whether
    it made the account or met an existing one. *)
Theorem answers_do_not_tell i w :
  (fault (w_tick w) = false →
   (∀ u h, lookup_by us_Email (ToLower (TrimSpace (li_Email i))) (users (w_db w)) = Some u →
      us_PasswordHash u = Some h → Verify (li_Password i) h ≠ None) →
   fst (Login cfg i w) = inl errInvalidCredentials) ∧
  (∀ j r w', Register cfg j w = (inr r, w') → r = mk_Registered (ac_RequireEmailVerification cfg)).
Proof.
  split.
  - intros Hf Hno. unfold Login, GetUserByEmail, mbind, M_bind, wrap, on_err, ok_or_norows, db_query_row. rewrite Hf.
    unfold sql_GetUserByEmail. destruct (lookup_by us_Email _ _) as [u|]; simpl.
    + unfold require, password_matches. cbn [stored_of su_PasswordHash].
      destruct (us_PasswordHash u) as [h|] eqn:Hph; [|done]. simpl. specialize (Hno u h eq_refl Hph).
      destruct (Verify _ _); [|done]. by rewrite andb_false_r.
    + unfold try. by destruct (Hash _ _) as [[e|x] w'].
  - intros j r w' H. use_wp H. apply wp_Register_account; [done|]. intros w1 _ [= <-]. done.
Qed.

(** ** The mailed link *)
Lemma query_plain c : is_unreserved c = true → query_byte c = [c].
Proof. intros H. unfold query_byte. by rewrite H. Qed.
Lemma QueryEscape_opaque raw : opaque raw → QueryEscape raw = raw.
Proof.
  intros (k & l & _ & ->). unfold QueryEscape. rewrite bytes_of_str_of. f_equal. pose proof (proj1 (b64_plain l)) as H.
  induction H as [|c cs Hc _ IH]; [done|]. cbn [map concat]. by rewrite (query_plain c Hc), IH.
Qed.

(** The mailed link works. When a password reset is requested for an address with an
    account, the mail goes to that account's address, its link ends in the raw token, of
    which the database has only the hash, and until the hour is over or the link was
    used, a request with that token and a long enough password is accepted for that
    account. *)
Theorem mailed_reset_link_works email m w w1 :
  auwf (w_db w) → password_reset_request cfg email w = (inr (Some m), w1) →
  ∃ u raw row, lookup_by us_Email (ToLower (TrimSpace email)) (users (w_db w)) = Some u ∧
    m = mk_Mail (us_Email u) "Reset your Plorigo password"
          ("Reset your Plorigo password:" +:+ nl +:+ nl +:+ (appURL cfg "/reset" +:+ "?token=" +:+ raw) +:+ nl +:+ nl +:+
           "This link expires in 1 hour. If you didn't request this, ignore this email.") ∧
    row ∈ user_tokens (w_db w1) ∧ ut_UserID row = us_ID u ∧ (∃ n, ut_ExpiresAt row = now_at n + 3600 * time_Second) ∧
  ∀ l w2 row', w_db w2 = w_db (serve_all l w1) → row' ∈ user_tokens (w_db w2) → ut_ID row' = ut_ID row →
    ut_ConsumedAt row' = None → now_at (w_tick w2) < ut_ExpiresAt row → fault (w_tick w2) = false →
    fst (GetUserToken (hashToken raw) purposePasswordReset w2) = inr (Some (mk_userToken (ut_ID row) (us_ID u))).
Proof.
  intros A H. use_wp H. apply wp_password_reset_request; [done|done|].
  intros u raw row d1 w2 Hu Ho Hl Hexp Haud [= <-]. exists u, raw, row. split; [done|].
  split; [unfold reset_mail, link; by rewrite QueryEscape_opaque|].
  assert (auwf (w_db w2)) as A2 by (eapply auwf_audited; [exact Haud|]; by eapply auwf_link_added).
  assert (row ∈ user_tokens (w_db w2)) as Hrow.
  { destruct Haud as (r & -> & _). destruct Hl as (_ & _ & _ & _ & _ & _ & _ & ->). simpl. apply elem_of_app. right. by left. }
  destruct Hl as (L1 & L2 & L3 & _). split; [done|]. split; [done|]. split; [exact Hexp|].
  intros l w3 row' Hw3 Hin Hid Hcons Hnow Hf.
  destruct (serve_all_keeps l w2) as [KA F]. specialize (KA A2). rewrite <- Hw3 in *.
  destruct (ft_links _ _ F row Hrow) as (row2 & Hin2 & M1 & M2 & M3 & M4 & M5 & _).
  assert (row' = row2) as -> by (apply (NoDup_map_inj ut_ID _ _ _ (auw_ut_ids _ KA)); [done|done|congruence]).
  unfold GetUserToken, mbind, M_bind, ok_or_norows, autocommit, db_exec. cbn [w_tick w_db w_txnow]. rewrite Hf.
  unfold sql_GetUserTokenByHash. cbn [st_now].
  assert (redeemable (hashToken raw) purposePasswordReset (now_at (w_tick w3)) row2 = true) as Hr.
  { unfold redeemable. rewrite !andb_true_iff, !bool_decide_eq_true, String.eqb_eq, Z.ltb_lt. repeat split; congruence. }
  destruct (List.find _ _) as [t|] eqn:Hfind.
  2: { eapply find_none in Hfind; [|by apply list_elem_of_In]. by rewrite Hr in Hfind. }
  apply find_Some_elem in Hfind as [Hint Ht]. unfold redeemable in Ht. rewrite !andb_true_iff, !bool_decide_eq_true in Ht. destruct Ht as [[[E1 _] _] _].
  assert (t = row2) as -> by (apply (NoDup_map_inj ut_TokenHash _ _ _ (auw_ut_hashes _ KA)); [done|done|congruence]).
  simpl. congruence.
Qed.
End Serve.
