(* ===== verification/AgentRegistry.v ===== *)
(** * AgentRegistry: registration and liveness of the agents

    [internal/agents]: agents.go, tokens.go, service.go and postgres.go over the
    statements of [internal/platform/database/db/agents.sql.go], and the conversions
    of handler.go that bound what an agent reports.  A dashboard user mints a one-time
    token for a server; an agent exchanges it for a durable credential, of which only
    the hash is stored; heartbeats record liveness and facts. *)
From S2P Require Import Prelude.
From S2P Require Import GoStrings.
From S2P Require Import Sha256.
From S2P Require Import Problem.
From S2P Require Import Schema.
From S2P Require Import Platform.
From S2P Require Import Authz.
From S2P Require Import DeployStore.
From S2P Require Import Deployments.

(** ** Vocabulary (agents.go) *)
Definition onlineWindow : Z := 90 * time_Second.
Definition registrationTokenTTL : Z := 3600 * time_Second.
Definition heartbeatInterval : Z := 30 * time_Second.
Definition StatusAwaiting : string := "awaiting".
Definition StatusOnline : string := "online".
Definition StatusOffline : string := "offline".
Definition ReadinessReady : string := "ready".
Definition ReadinessDegraded : string := "degraded".
Definition ReadinessBlocked : string := "blocked".
Definition ReadinessUnknown : string := "unknown".
Definition diskCriticalFreeBytes : Z := Z.shiftl 1 30.
Definition diskLowFreeBytes : Z := 5 * Z.shiftl 1 30.
Definition memLowAvailableBytes : Z := Z.shiftl 256 20.
Definition minSupportedDockerMajor : Z := 20.

Record Agent := mk_Agent {
  a_ID : string; a_ServerID : string; a_WorkspaceID : string; a_AgentVersion : string;
  a_DockerAvailable : option bool; a_DockerVersion : string; a_OS : string; a_Arch : string;
  a_CaddyAvailable : option bool; a_CaddyRunning : bool; a_CaddyVersion : string;
  a_DiskTotalBytes : Z; a_DiskFreeBytes : Z; a_MemTotalBytes : Z; a_MemAvailableBytes : Z; a_CPUCount : Z;
  a_LastSeenAt : option Z; a_CreatedAt : Z;
}.
Record RegistrationToken := mk_RegistrationToken { tok_Raw : string; tok_ServerID : string; tok_ExpiresAt : Z }.
Record RegisterInput := mk_RegisterInput { rg_RegistrationToken : string; rg_PublicKey : list Z; rg_AgentVersion : string }.
Record Registered := mk_Registered { rd_AgentID : string; rd_Credential : string }.
Record HeartbeatInput := mk_HeartbeatInput {
  hb_AgentID : string; hb_Credential : string; hb_AgentVersion : string;
  hb_DockerAvailable : option bool; hb_DockerVersion : string; hb_OS : string; hb_Arch : string;
  hb_CaddyAvailable : option bool; hb_CaddyRunning : bool; hb_CaddyVersion : string;
  hb_DiskTotalBytes : Z; hb_DiskFreeBytes : Z; hb_MemTotalBytes : Z; hb_MemAvailableBytes : Z; hb_CPUCount : Z;
}.
(** [HeartbeatFacts] is the input without the identity. *)
Definition HeartbeatFacts := HeartbeatInput.
Record HeartbeatResult := mk_HeartbeatResult { hr_NextInterval : Z }.

(** *** Liveness and readiness, derived *)
Definition Status (a : Agent) (now : Z) : string :=
  match a_LastSeenAt a with
  | None => StatusAwaiting
  | Some t => if now - t <=? onlineWindow then StatusOnline else StatusOffline
  end.

Definition dockerMajor (v : string) : Z :=
  default 0 (Atoi (hd "" (Split (TrimSpace v) "."))).

(** A reason is a format and its arguments; sizes are left as their byte counts, which
    [humanBytes] prints. *)
Definition reason : Type := string * list fmt_arg.

Definition Readiness (a : Agent) (now : Z) (allowNonLinuxHost : bool) : string * reason :=
  if String.eqb (Status a now) StatusAwaiting then
    (ReadinessUnknown, ("Waiting for the agent to connect. Run the install command on the server.", []))
  else if String.eqb (Status a now) StatusOffline then
    (ReadinessUnknown, ("Agent offline — no heartbeat in over 90 seconds. Check the machine is on and the plorigo-agent service is running.", []))
  else if negb allowNonLinuxHost && negb (String.eqb (a_OS a) "") && negb (String.eqb (a_OS a) "linux") then
    (ReadinessBlocked, ("Unsupported host OS %q — Plorigo deploys to Linux servers.", [AStr (a_OS a)]))
  else if bool_decide (a_DockerAvailable a = Some false) then
    (ReadinessBlocked, ("Docker isn't reachable on this server. Install or start Docker; the agent recovers automatically once it's running.", []))
  else if (0 <? a_CPUCount a) && bool_decide (a_CaddyAvailable a = Some false) then
    (ReadinessBlocked, ("Caddy isn't installed, so the server can't route traffic to your apps. Re-run setup to install it.", []))
  else if (0 <? a_CPUCount a) && (bool_decide (a_CaddyAvailable a = Some true) && negb (a_CaddyRunning a)) then
    (ReadinessBlocked, ("Caddy isn't running — it may be stopped or unable to bind ports 80/443 (often another process is using them). The agent recovers it automatically; free the ports and it returns.", []))
  else if (0 <? a_CPUCount a) && ((0 <? a_DiskTotalBytes a) && (a_DiskFreeBytes a <? diskCriticalFreeBytes)) then
    (ReadinessBlocked, ("Almost no disk space left (%s free). Free space before deploying.", [AInt (a_DiskFreeBytes a)]))
  else if bool_decide (a_DockerAvailable a = None) then
    (ReadinessDegraded, ("Compatibility checks pending — update the agent to the latest version so it reports Docker and host readiness.", []))
  else if (0 <? dockerMajor (a_DockerVersion a)) && (dockerMajor (a_DockerVersion a) <? minSupportedDockerMajor) then
    (ReadinessDegraded, ("Docker %s is old; update it for reliable BuildKit builds.", [AStr (a_DockerVersion a)]))
  else if (0 <? a_CPUCount a) && ((0 <? a_DiskTotalBytes a) && (a_DiskFreeBytes a <? diskLowFreeBytes)) then
    (ReadinessDegraded, ("Low disk space (%s free). Deployments may fail once it runs out.", [AInt (a_DiskFreeBytes a)]))
  else if (0 <? a_CPUCount a) && ((0 <? a_MemTotalBytes a) && (a_MemAvailableBytes a <? memLowAvailableBytes)) then
    (ReadinessDegraded, ("Low free memory (%s available). Builds or containers may be killed under load.", [AInt (a_MemAvailableBytes a)]))
  else (ReadinessReady, ("", [])).

(** *** The agent's message (handler.go) *)
Record HeartbeatRequest := mk_HeartbeatRequest {
  hm_AgentId : string; hm_Credential : string; hm_AgentVersion : string;
  hm_DockerAvailable : bool; hm_DockerVersion : string; hm_Os : string; hm_Arch : string;
  hm_CaddyAvailable : bool; hm_CaddyRunning : bool; hm_CaddyVersion : string;
  hm_DiskTotalBytes : Z; hm_DiskFreeBytes : Z; hm_MemTotalBytes : Z; hm_MemAvailableBytes : Z;   (* int64 *)
  hm_CpuCount : Z;                                                                              (* uint32 *)
}.
Definition maxFactLen : Z := 64.
Definition clampFact (s : string) : string :=
  if len s <=? maxFactLen then s
  else str_of (concat (take 64 (runes (length (bytes_of s)) (bytes_of s)))).
Definition reportedDockerAvailable (m : HeartbeatRequest) : option bool :=
  if String.eqb (hm_Os m) "" then None else Some (hm_DockerAvailable m).
Definition reportedCaddyAvailable (m : HeartbeatRequest) : option bool :=
  if hm_CpuCount m =? 0 then None else Some (hm_CaddyAvailable m).
Definition clampCPUCount (n : Z) : Z := if 4096 <? n then 4096 else n.
Definition clampBytes (n : Z) : Z := if n <? 0 then 0 else n.
Definition heartbeat_input (m : HeartbeatRequest) : HeartbeatInput := {|
  hb_AgentID := hm_AgentId m; hb_Credential := hm_Credential m; hb_AgentVersion := hm_AgentVersion m;
  hb_DockerAvailable := reportedDockerAvailable m; hb_DockerVersion := clampFact (hm_DockerVersion m);
  hb_OS := clampFact (hm_Os m); hb_Arch := clampFact (hm_Arch m);
  hb_CaddyAvailable := reportedCaddyAvailable m; hb_CaddyRunning := hm_CaddyRunning m;
  hb_CaddyVersion := clampFact (hm_CaddyVersion m);
  hb_DiskTotalBytes := clampBytes (hm_DiskTotalBytes m); hb_DiskFreeBytes := clampBytes (hm_DiskFreeBytes m);
  hb_MemTotalBytes := clampBytes (hm_MemTotalBytes m); hb_MemAvailableBytes := clampBytes (hm_MemAvailableBytes m);
  hb_CPUCount := clampCPUCount (hm_CpuCount m);
|}.

(** ** Tokens (tokens.go) *)
Definition tokenBytes : nat := 32.
Definition hashToken (raw : string) : list Z := sum_string raw.
Section Tokens.
Context {E : Env} {N : Entropy}.
Definition newPrefixedToken (prefix : string) : M (string * list Z) :=
  b ← on_err (λ e, Errorf "agents: read random: %w" [] (Some e)) (port (λ k, rand_Read k tokenBytes));
  let raw := prefix +:+ str_of (b64_encode b) in
  mret (raw, hashToken raw).
Definition newRegistrationToken : M (string * list Z) := newPrefixedToken "plrt_".
Definition newAgentCredential : M (string * list Z) := newPrefixedToken "plag_".
End Tokens.

(** ** Statements *)

Definition sql_CreateAgentRegistrationToken (serverID workspaceID : string) (tokenHash : list Z) (createdBy : string)
    (expiresAt : Z) (st : Stamp) (d : DB) : go_error + (unit * DB) :=
  if has_hash rt_TokenHash tokenHash (registration_tokens d) || has_key rt_ID (st_uuid st) (registration_tokens d)
  then inl (ErrUnique "agent_registration_tokens_token_hash_key")
  else if negb (has_key srv_ID serverID (servers d) && has_key ws_ID workspaceID (workspaces d) && has_key us_ID createdBy (users d))
  then inl (ErrConstraint "agent_registration_tokens_fkey")
  else inr (tt, set_registration_tokens (registration_tokens d ++
         [mk_rt (st_uuid st) serverID workspaceID tokenHash createdBy (st_now st) expiresAt None]) d).

(** [UPDATE ... WHERE token_hash = $1 AND consumed_at IS NULL AND expires_at > now()] *)
Definition redeemable (h : list Z) (now : Z) (t : db_AgentRegistrationToken) : bool :=
  bool_decide (rt_TokenHash t = h) && bool_decide (rt_ConsumedAt t = None) && (now <? rt_ExpiresAt t).
Definition rt_consume (now : Z) (t : db_AgentRegistrationToken) : db_AgentRegistrationToken :=
  mk_rt (rt_ID t) (rt_ServerID t) (rt_WorkspaceID t) (rt_TokenHash t) (rt_CreatedBy t) (rt_CreatedAt t) (rt_ExpiresAt t) (Some now).
Definition sql_ConsumeAgentRegistrationToken (tokenHash : list Z) (st : Stamp) (d : DB) : go_error + (string * string * DB) :=
  match List.find (redeemable tokenHash (st_now st)) (registration_tokens d) with
  | None => inl ErrNoRows
  | Some t => inr (rt_ServerID t, rt_WorkspaceID t,
                set_registration_tokens (update_where (redeemable tokenHash (st_now st)) (rt_consume (st_now st)) (registration_tokens d)) d)
  end.

(** [INSERT INTO agents ... ON CONFLICT (server_id) DO UPDATE]: the row of the server
    gets the new key and hash and loses the facts of 00010, no others. *)
Definition ag_reregister (publicKey credentialHash : list Z) (version : string) (a : db_Agent) : db_Agent :=
  mk_ag (ag_ID a) (ag_ServerID a) (ag_WorkspaceID a) publicKey credentialHash version None (ag_CreatedAt a)
    None "" "" "" (ag_CaddyAvailable a) (ag_CaddyRunning a) (ag_CaddyVersion a)
    (ag_DiskTotalBytes a) (ag_DiskFreeBytes a) (ag_MemTotalBytes a) (ag_MemAvailableBytes a) (ag_CpuCount a).
Definition new_agent (id serverID workspaceID : string) (publicKey credentialHash : list Z) (version : string) (now : Z) : db_Agent :=
  mk_ag id serverID workspaceID publicKey credentialHash version None now
    None "" "" "" None false "" 0 0 0 0 0.
Definition sql_UpsertAgent (serverID workspaceID : string) (publicKey credentialHash : list Z) (version : string)
    (st : Stamp) (d : DB) : go_error + (db_Agent * DB) :=
  match lookup_by ag_ServerID serverID (agents d) with
  | Some a =>
      if has_hash ag_CredentialHash credentialHash (where_ (λ x, negb (String.eqb (ag_ServerID x) serverID)) (agents d))
      then inl (ErrUnique "agents_credential_hash_key")
      else let f := ag_reregister publicKey credentialHash version in
           inr (f a, set_agents (update_where (λ x, String.eqb (ag_ServerID x) serverID) f (agents d)) d)
  | None =>
      if has_hash ag_CredentialHash credentialHash (agents d) || has_key ag_ID (st_uuid st) (agents d)
      then inl (ErrUnique "agents_credential_hash_key")
      else if negb (has_key srv_ID serverID (servers d) && has_key ws_ID workspaceID (workspaces d))
      then inl (ErrConstraint "agents_fkey")
      else let a := new_agent (st_uuid st) serverID workspaceID publicKey credentialHash version (st_now st) in
           inr (a, set_agents (agents d ++ [a]) d)
  end.

Definition ag_beat (f : HeartbeatFacts) (now : Z) (a : db_Agent) : db_Agent :=
  mk_ag (ag_ID a) (ag_ServerID a) (ag_WorkspaceID a) (ag_PublicKey a) (ag_CredentialHash a) (hb_AgentVersion f)
    (Some now) (ag_CreatedAt a) (hb_DockerAvailable f) (hb_DockerVersion f) (hb_OS f) (hb_Arch f)
    (hb_CaddyAvailable f) (hb_CaddyRunning f) (hb_CaddyVersion f)
    (hb_DiskTotalBytes f) (hb_DiskFreeBytes f) (hb_MemTotalBytes f) (hb_MemAvailableBytes f) (hb_CPUCount f).
Definition has_credential (h : list Z) (a : db_Agent) : bool := bool_decide (ag_CredentialHash a = h).
Definition sql_HeartbeatAgent (credentialHash : list Z) (f : HeartbeatFacts) (st : Stamp) (d : DB) : go_error + (db_Agent * DB) :=
  match List.find (has_credential credentialHash) (agents d) with
  | None => inl ErrNoRows
  | Some a => inr (ag_beat f (st_now st) a,
                set_agents (update_where (has_credential credentialHash) (ag_beat f (st_now st)) (agents d)) d)
  end.
Definition sql_ListAgentsByWorkspace (workspaceID : string) (d : DB) : list db_Agent :=
  newest_first ag_CreatedAt (where_ (λ a, String.eqb (ag_WorkspaceID a) workspaceID) (agents d)).

(** ** The store (postgres.go) *)
Definition agentFromRow (r : db_Agent) : Agent :=
  mk_Agent (ag_ID r) (ag_ServerID r) (ag_WorkspaceID r) (ag_AgentVersion r) (ag_DockerAvailable r) (ag_DockerVersion r)
    (ag_Os r) (ag_Arch r) (ag_CaddyAvailable r) (ag_CaddyRunning r) (ag_CaddyVersion r) (ag_DiskTotalBytes r)
    (ag_DiskFreeBytes r) (ag_MemTotalBytes r) (ag_MemAvailableBytes r) (ag_CpuCount r) (ag_LastSeenAt r) (ag_CreatedAt r).
(** [UpsertAgent] returns the first columns only. *)
Definition registeredFromRow (r : db_Agent) : Agent :=
  mk_Agent (ag_ID r) (ag_ServerID r) (ag_WorkspaceID r) (ag_AgentVersion r) (ag_DockerAvailable r) (ag_DockerVersion r)
    (ag_Os r) (ag_Arch r) None false "" 0 0 0 0 0 (ag_LastSeenAt r) (ag_CreatedAt r).

Section Store.
Context {E : Env}.
Definition InsertRegistrationToken (serverID workspaceID : string) (tokenHash : list Z) (createdBy : string) (expiresAt : Z) : M unit :=
  db_exec (sql_CreateAgentRegistrationToken serverID workspaceID tokenHash createdBy expiresAt).
Definition ConsumeRegistrationToken (tokenHash : list Z) : M (option (string * string)) :=
  ok_or_norows (db_exec (sql_ConsumeAgentRegistrationToken tokenHash)).
Definition UpsertAgent (serverID workspaceID : string) (publicKey credentialHash : list Z) (version : string) : M Agent :=
  row ← db_exec (sql_UpsertAgent serverID workspaceID publicKey credentialHash version); mret (registeredFromRow row).
Definition store_Heartbeat (credentialHash : list Z) (f : HeartbeatFacts) : M (option Agent) :=
  r ← ok_or_norows (autocommit (db_exec (sql_HeartbeatAgent credentialHash f))); mret (agentFromRow <$> r).
Definition store_ListByWorkspace (workspaceID : string) : M (list Agent) :=
  db_query (λ d, map agentFromRow (sql_ListAgentsByWorkspace workspaceID d)).
End Store.

(** ** The service (service.go) *)
Definition agent_resource (workspaceID id : string) : Resource := mk_Resource "agent" workspaceID id.

Section Service.
Context {E : Env} {A : Authorizer} {N : Entropy}.

Definition CreateRegistrationToken (caller : Principal) (serverID : string) : M RegistrationToken :=
  _ ← require (id_Parse serverID) (InvalidInput "a valid server_id is required" []);
  workspaceID ← found "create registration token" (WorkspaceForServer serverID)
                  (NotFound "server %s not found" [AStr serverID]);
  _ ← Authorize caller ActionAgentCreate (agent_resource workspaceID serverID);
  t ← wrap "create registration token" newRegistrationToken;
  let '(raw, hash) := t in
  now ← time_now;
  let expiresAt := now + registrationTokenTTL in
  _ ← wrap "create registration token" (within_tx
        (_ ← InsertRegistrationToken serverID workspaceID hash (p_UserID caller) expiresAt;
         audit_Record "agent.registration_token.create" "server" serverID workspaceID (p_UserID caller)));
  mret (mk_RegistrationToken raw serverID expiresAt).

Definition ListByWorkspace (caller : Principal) (workspaceID : string) : M (list Agent) :=
  _ ← require (negb (String.eqb workspaceID "")) (InvalidInput "workspace_id is required" []);
  _ ← Authorize caller ActionAgentRead (agent_resource workspaceID "");
  store_ListByWorkspace workspaceID.

Definition Register (i : RegisterInput) : M Registered :=
  _ ← require (negb (String.eqb (rg_RegistrationToken i) "")) (InvalidInput "a registration token is required" []);
  _ ← require (Nat.eqb (length (rg_PublicKey i)) 32) (InvalidInput "a valid ed25519 public key is required" []);
  c ← wrap "register agent" newAgentCredential;
  let '(credential, credHash) := c in
  agent ← on_err (λ e, mapErr e "register agent") (within_tx
    (consumed ← ConsumeRegistrationToken (hashToken (rg_RegistrationToken i));
     match consumed with
     | None => fail (PermissionDenied "registration token is invalid or expired" [])
     | Some (serverID, workspaceID) =>
         agent ← UpsertAgent serverID workspaceID (rg_PublicKey i) credHash (rg_AgentVersion i);
         _ ← audit_Record "agent.register" "agent" (a_ID agent) (a_WorkspaceID agent) ("agent:" +:+ a_ID agent);
         mret agent
     end));
  mret (mk_Registered (a_ID agent) credential).

Definition Heartbeat (i : HeartbeatInput) : M HeartbeatResult :=
  _ ← require (negb (String.eqb (hb_Credential i) "")) (InvalidInput "a credential is required" []);
  _ ← found "heartbeat" (store_Heartbeat (hashToken (hb_Credential i)) i)
        (PermissionDenied "unknown agent credential" []);
  mret (mk_HeartbeatResult heartbeatInterval).
End Service.
