(* ===== verification/AgentRegistryProps.v ===== *)
(** * AgentRegistryProps: who an agent is

    The invariant of the agents and token tables, one rule per handler of
    [AgentRegistry], and the theorems: what a token admits, what a credential proves to
    the other modules, what readiness means, and the bounds of what an agent reports. *)
From S2P Require Import Prelude.
From S2P Require Import GoStrings.
From S2P Require Import Sha256.
From S2P Require Import Problem.
From S2P Require Import Schema.
From S2P Require Import Platform.
From S2P Require Import Authz.
From S2P Require Import DeployStore.
From S2P Require Import Deployments.
From S2P Require Import DeploySpec.
From S2P Require Import DeployHandlers.
From S2P Require Import DeploySystem.
From S2P Require Import AgentRegistry.

(** ** The invariant *)
Definition server_of (d : DB) (serverID workspaceID : string) : Prop :=
  ∃ s, s ∈ servers d ∧ srv_ID s = serverID ∧ srv_WorkspaceID s = workspaceID.
Record agwf (d : DB) : Prop := {
  agwf_ids : NoDup (map ag_ID (agents d));
  agwf_servers : NoDup (map ag_ServerID (agents d));
  agwf_hashes : NoDup (map ag_CredentialHash (agents d));
  agwf_home : Forall (λ a, server_of d (ag_ServerID a) (ag_WorkspaceID a)) (agents d);
  agwf_tokens : NoDup (map rt_TokenHash (registration_tokens d));
  agwf_token_home : Forall (λ t, server_of d (rt_ServerID t) (rt_WorkspaceID t)) (registration_tokens d);
}.

(** ** The statements *)
Definition token_minted (t : db_AgentRegistrationToken) (d d' : DB) : Prop :=
  (∀ x, x ∈ registration_tokens d → rt_TokenHash x ≠ rt_TokenHash t) ∧ rt_ConsumedAt t = None ∧
  d' = set_registration_tokens (registration_tokens d ++ [t]) d.

(** The token [t] is consumed at [now]. *)
Definition token_consumed (t : db_AgentRegistrationToken) (now : Z) (d d' : DB) : Prop :=
  t ∈ registration_tokens d ∧ rt_ConsumedAt t = None ∧ now < rt_ExpiresAt t ∧
  d' = set_registration_tokens (update_where (redeemable (rt_TokenHash t) now) (rt_consume now) (registration_tokens d)) d.

(** The agent of the server is [a] now: its previous row rewritten, or a new one. *)
Definition agent_registered (srv : string) (hash : list Z) (a : db_Agent) (d d' : DB) : Prop :=
  ag_ServerID a = srv ∧ ag_CredentialHash a = hash ∧ ag_LastSeenAt a = None ∧
  (∀ x, x ∈ agents d → ag_ServerID x ≠ srv → ag_CredentialHash x ≠ hash) ∧
  ((∃ old, lookup_by ag_ServerID srv (agents d) = Some old ∧ ag_ID a = ag_ID old ∧ ag_WorkspaceID a = ag_WorkspaceID old ∧
      d' = set_agents (update_where (λ x, String.eqb (ag_ServerID x) srv) (λ _, a) (agents d)) d) ∨
   ((∀ x, x ∈ agents d → ag_ServerID x ≠ srv ∧ ag_ID x ≠ ag_ID a) ∧ d' = set_agents (agents d ++ [a]) d)).

Lemma create_token_spec srv ws h by_ exp st d u d' :
  sql_CreateAgentRegistrationToken srv ws h by_ exp st d = inr (u, d') →
  ∃ t, rt_ServerID t = srv ∧ rt_WorkspaceID t = ws ∧ rt_TokenHash t = h ∧ rt_ExpiresAt t = exp ∧ rt_CreatedBy t = by_ ∧ token_minted t d d'.
Proof.
  unfold sql_CreateAgentRegistrationToken. destruct (has_hash rt_TokenHash h _) eqn:Hh; [done|]. simpl.
  destruct (has_key rt_ID _ _); [done|]. destruct (negb _); [done|]. intros [= <- <-].
  exists (mk_rt (st_uuid st) srv ws h by_ (st_now st) exp None). do 5 (split; [done|]).
  split; [|done]. simpl. by apply has_hash_false.
Qed.

Lemma consume_token_spec h st d r d' :
  sql_ConsumeAgentRegistrationToken h st d = inr (r, d') →
  ∃ t, rt_TokenHash t = h ∧ r = (rt_ServerID t, rt_WorkspaceID t) ∧ token_consumed t (st_now st) d d'.
Proof.
  unfold sql_ConsumeAgentRegistrationToken. destruct (List.find _ _) as [t|] eqn:Hf; [|done]. intros [= <- <-].
  apply find_Some_elem in Hf as [Hin Hr]. unfold redeemable in Hr. propify. subst h. exists t.
  split; [done|]. split; [done|]. split; [done|]. split; [done|]. by split.
Qed.

Lemma upsert_agent_spec srv ws pub h ver st d a d' : NoDup (map ag_ServerID (agents d)) →
  sql_UpsertAgent srv ws pub h ver st d = inr (a, d') →
  agent_registered srv h a d d' ∧ ((∃ old, old ∈ agents d ∧ ag_ServerID old = srv ∧ ag_WorkspaceID a = ag_WorkspaceID old) ∨ ag_WorkspaceID a = ws).
Proof.
  intros Hnd. unfold sql_UpsertAgent. destruct (lookup_by ag_ServerID srv (agents d)) as [old|] eqn:Hl.
  - destruct (has_hash _ _ _) eqn:Hh; [done|]. intros [= <- <-].
    pose proof (proj1 (has_hash_false _ _ _) Hh) as Hh'. pose proof Hl as [Hin Hs]%lookup_by_Some.
    split; [|left; by exists old]. split; [done|]. split; [done|]. split; [done|]. split.
    + intros x Hx Hne. apply Hh'. apply elem_of_where. by split; [|apply negb_true_iff, String.eqb_neq].
    + left. exists old. split; [done|]. split; [done|]. split; [done|]. f_equal. apply update_where_ext.
      intros x Hx Hb. apply String.eqb_eq in Hb. f_equal. apply (NoDup_map_inj ag_ServerID (agents d)); [done|done|done|congruence].
  - destruct (has_hash _ _ _ || _) eqn:Hh; [done|]. destruct (negb _); [done|]. intros [= <- <-].
    apply orb_false_iff in Hh as [Hh Hid]. pose proof (proj1 (has_hash_false _ _ _) Hh) as Hh'.
    split; [|by right]. split; [done|]. split; [done|]. split; [done|]. split; [intros x Hx _; by apply Hh'|].
    right. split; [|done]. intros x Hx. split; [by eapply lookup_by_None|]. intros Heq.
    apply not_true_iff_false in Hid. apply Hid, has_key_true. by exists x.
Qed.

Lemma heartbeat_spec h f st d a d' : sql_HeartbeatAgent h f st d = inr (a, d') →
  ∃ old, old ∈ agents d ∧ ag_CredentialHash old = h ∧ a = ag_beat f (st_now st) old ∧
    d' = set_agents (update_where (has_credential h) (ag_beat f (st_now st)) (agents d)) d.
Proof.
  unfold sql_HeartbeatAgent. destruct (List.find _ _) as [old|] eqn:Hf; [|done]. intros [= <- <-].
  apply find_Some_elem in Hf as [Hin Hr]. unfold has_credential in Hr. propify. by exists old.
Qed.

(** ** The handlers *)
Section Rules.
Context {E : Env} {A : Authorizer} {N : Entropy}.
Implicit Types (w : World).

(** A token or credential text: the prefix and 32 random bytes. *)
Definition fresh_text (prefix raw : string) : Prop :=
  ∃ k l, rand_Read k tokenBytes = inr l ∧ raw = prefix +:+ str_of (b64_encode l).

Lemma wp_newPrefixedToken prefix (Q : go_error + string * list Z → World → Prop) w :
  (∀ e w', w_db w' = w_db w → Q (inl e) w') →
  (∀ raw w', w_db w' = w_db w → fresh_text prefix raw → Q (inr (raw, hashToken raw)) w') →
  wp (newPrefixedToken prefix) Q w.
Proof.
  intros He Ha. unfold newPrefixedToken. do 3 wp_step. destruct (rand_Read n tokenBytes) as [e|l] eqn:Hr; [by apply He|].
  wp_step. apply Ha; [done|]. by exists n, l.
Qed.

Definition token_created (c : Principal) (srv : string) (tok : RegistrationToken) (d d' : DB) : Prop :=
  ∃ t ws d1, sql_GetServerWorkspace srv d = Some ws ∧ allows c ActionAgentCreate (agent_resource ws srv) d ∧
    fresh_text "plrt_" (tok_Raw tok) ∧ rt_ServerID t = srv ∧ rt_WorkspaceID t = ws ∧
    rt_TokenHash t = hashToken (tok_Raw tok) ∧ rt_ExpiresAt t = tok_ExpiresAt tok ∧ rt_CreatedBy t = p_UserID c ∧
    token_minted t d d1 ∧ audited "agent.registration_token.create" "server" srv ws (p_UserID c) d1 d'.

Lemma wp_CreateRegistrationToken c srv (Q : go_error + RegistrationToken → World → Prop) w :
  (∀ e w', w_db w' = w_db w → Q (inl e) w') →
  (∀ tok w', token_created c srv tok (w_db w) (w_db w') → tok_ServerID tok = srv →
     (∃ n, tok_ExpiresAt tok = now_at n + registrationTokenTTL) → Q (inr tok) w') →
  wp (CreateRegistrationToken c srv) Q w.
Proof.
  intros He Ha. unfold CreateRegistrationToken. wp_step. wp_step; [|by apply He].
  wp_step. wp_step. unfold WorkspaceForServer. wp_step; [by apply He|].
  destruct (sql_GetServerWorkspace srv (w_db w)) as [ws|] eqn:Hws; [|by apply He].
  wp_step. apply wp_Authorize; [intros; apply He; congruence|]. intros w2 Hw2 Hal. world_eq.
  wp_step. wp_step. apply wp_newPrefixedToken; [intros; apply He; congruence|]. intros raw w3 Hw3 Hraw.
  wp_step. apply wp_time_now_at. intros n w4 Hw4. cbv zeta.
  wp_step. wp_step. wp_step; [apply He; congruence|]. wp_step. unfold InsertRegistrationToken. apply wp_exec; [done|].
  intros st [] w6 Hins. apply create_token_spec in Hins as (t & T1 & T2 & T3 & T4 & T5 & T6).
  apply wp_audit_Record; [done|]. intros w7 Haud w8 Hw8. wp_step.
  world_eq. apply Ha; [|done|by exists n]. exists t, ws, (w_db w6). do 3 (split; [done|]).
  do 5 (split; [done|]). split; [exact T6|]. by rewrite Hw8.
Qed.

Definition registered (i : RegisterInput) (r : Registered) (t : db_AgentRegistrationToken) (a : db_Agent) (d d' : DB) : Prop :=
  rg_RegistrationToken i ≠ "" ∧ length (rg_PublicKey i) = 32%nat ∧ fresh_text "plag_" (rd_Credential r) ∧
  rt_TokenHash t = hashToken (rg_RegistrationToken i) ∧ rd_AgentID r = ag_ID a ∧
  ∃ n d1 d2, token_consumed t (now_at n) d d1 ∧
    agent_registered (rt_ServerID t) (hashToken (rd_Credential r)) a d1 d2 ∧
    ((∃ old, old ∈ agents d ∧ ag_ServerID old = rt_ServerID t ∧ ag_WorkspaceID a = ag_WorkspaceID old) ∨ ag_WorkspaceID a = rt_WorkspaceID t) ∧
    audited "agent.register" "agent" (ag_ID a) (ag_WorkspaceID a) ("agent:" +:+ ag_ID a) d2 d'.

Lemma wp_within_tx_at {X} (body : M X) (Q : go_error + X → World → Prop) w :
  (∀ e w', w_db w' = w_db w → Q (inl e) w') →
  (∀ n, wp body (λ r w1, match r with
                      | inl _ => True
                      | inr a => ∀ w', w_db w' = w_db w1 → Q (inr a) w'
                      end) (mk_World (w_db w) n (now_at (pred n)))) →
  wp (within_tx body) Q w.
Proof.
  intros He Hb. unfold wp, within_tx. destruct (fault _); [by apply He|].
  specialize (Hb (S (w_tick w))). simpl in Hb.
  unfold wp in Hb. destruct (body _) as [[e|a] w1]; simpl in *; [by apply He|].
  case_match; [by apply He|]. by apply Hb.
Qed.

Lemma wp_exec_now {X} (f : Stamp → DB → go_error + (X * DB)) (Q : go_error + option X → World → Prop) w :
  (∀ e w', w_db w' = w_db w → Q (inl e) w') →
  (∀ w', w_db w' = w_db w → Q (inr None) w') →
  (∀ st a w', st_now st = w_txnow w → w_txnow w' = w_txnow w → f st (w_db w) = inr (a, w_db w') → Q (inr (Some a)) w') →
  wp (ok_or_norows (db_exec f)) Q w.
Proof.
  intros He Hn Ha. unfold wp, ok_or_norows, db_exec. destruct (fault _); [by apply He|].
  destruct (f _ _) as [e|[a d]] eqn:Hf; [|eapply (Ha (mk_Stamp (w_txnow w) (uuid_at (w_tick w)) (Z.of_nat (w_tick w)))); done].
  destruct e; simpl; try (by apply He); by apply Hn.
Qed.

Lemma wp_Register i (Q : go_error + Registered → World → Prop) w :
  NoDup (map ag_ServerID (agents (w_db w))) →
  (∀ e w', w_db w' = w_db w → Q (inl e) w') →
  (∀ r t a w', registered i r t a (w_db w) (w_db w') → Q (inr r) w') →
  wp (Register i) Q w.
Proof.
  intros Hnd He Ha. unfold Register. wp_step. wp_step; [|by apply He]. wp_step. wp_step; [|by apply He].
  wp_step. wp_step. apply wp_newPrefixedToken; [by intros; apply He|]. intros raw w1 Hw1 Hraw.
  wp_step. wp_step. apply wp_within_tx_at; [intros; apply He; congruence|]. intros n.
  wp_step. apply wp_exec_now; [done|by intros; apply wp_fail|]. intros st [srv ws] w3 Hst _ Hcons. simpl in Hst, Hcons.
  apply consume_token_spec in Hcons as (t & T1 & [= -> ->] & T2). rewrite Hst in T2.
  wp_step. unfold UpsertAgent. wp_step. apply wp_exec; [done|]. intros st2 a w4 Hup.
  apply upsert_agent_spec in Hup as [Hreg Hws]; [|destruct T2 as (_ & _ & _ & ->); simpl; by rewrite Hw1].
  wp_step. wp_step. apply wp_audit_Record; [done|]. intros w5 Haud. wp_step. intros w6 Hw6. wp_step.
  propify. apply Nat.eqb_eq in H0. apply (Ha _ t a). split; [done|]. split; [done|]. split; [done|]. split; [done|]. split; [done|].
  exists (pred n), (w_db w3), (w_db w4). rewrite Hw6, <- Hw1. split; [done|]. split; [done|]. split; [|done].
  destruct Hws as [(old & Hin & Hx)|Hws]; [left; exists old; split; [|done]|by right].
  destruct T2 as (_ & _ & _ & Hd). by rewrite Hd in Hin.
Qed.

Definition beaten (i : HeartbeatInput) (d d' : DB) : Prop :=
  ∃ old now, old ∈ agents d ∧ ag_CredentialHash old = hashToken (hb_Credential i) ∧
    d' = set_agents (update_where (has_credential (hashToken (hb_Credential i))) (ag_beat i now) (agents d)) d.
Lemma wp_Heartbeat i (Q : go_error + HeartbeatResult → World → Prop) w :
  (∀ e w', w_db w' = w_db w → Q (inl e) w') →
  (∀ w', beaten i (w_db w) (w_db w') → Q (inr (mk_HeartbeatResult heartbeatInterval)) w') →
  wp (Heartbeat i) Q w.
Proof.
  intros He Ha. unfold Heartbeat. wp_step. wp_step; [|by apply He]. wp_step. wp_step. unfold store_Heartbeat. wp_step.
  unfold wp, ok_or_norows, autocommit, db_exec. simpl. destruct (fault _); [by apply He|].
  destruct (sql_HeartbeatAgent _ _ _ _) as [e|[a d]] eqn:Hh; [destruct e; simpl; by apply He|].
  apply heartbeat_spec in Hh as (old & H1 & H2 & _ & ->). simpl. apply Ha. exists old. eexists. by split; [|split].
Qed.

Lemma wp_ListAgents c ws (Q : go_error + list Agent → World → Prop) w :
  (∀ e w', w_db w' = w_db w → Q (inl e) w') →
  (∀ w', w_db w' = w_db w → allows c ActionAgentRead (agent_resource ws "") (w_db w) →
     Q (inr (map agentFromRow (sql_ListAgentsByWorkspace ws (w_db w)))) w') →
  wp (ListByWorkspace c ws) Q w.
Proof.
  intros He Ha. unfold ListByWorkspace. wp_step. wp_step; [|by apply He]. wp_step. apply wp_Authorize; [done|].
  intros w1 Hw1 Hal. unfold store_ListByWorkspace. wp_step; [apply He; congruence|]. world_eq. by apply Ha.
Qed.
End Rules.

(** ** Requests *)
Inductive RegistryRequest :=
  | GCreateToken (c : Principal) (serverID : string) | GRegister (i : RegisterInput)
  | GHeartbeat (m : HeartbeatRequest) | GList (c : Principal) (workspaceID : string).

(** Nothing but agents, tokens and the audit log changed. *)
Definition registry_only (d d' : DB) : Prop :=
  d' = set_audit_events (audit_events d') (set_registration_tokens (registration_tokens d') (set_agents (agents d') d)).
Lemma registry_only_trans d d1 d2 : registry_only d d1 → registry_only d1 d2 → registry_only d d2.
Proof. unfold registry_only. intros H1 H2. rewrite H1 in H2. exact H2. Qed.
Lemma registry_only_audited a ty ti ws ac d d' : audited a ty ti ws ac d d' → registry_only d d'.
Proof. by intros (row & -> & _); destruct d. Qed.

Lemma agwf_audited a ty ti ws ac d d' : audited a ty ti ws ac d d' → agwf d → agwf d'.
Proof. by intros (row & -> & _) []; split. Qed.

Lemma server_of_frame d d' srv ws : servers d' = servers d → server_of d srv ws → server_of d' srv ws.
Proof. unfold server_of. by intros ->. Qed.

Lemma workspace_server_of srv ws d : sql_GetServerWorkspace srv d = Some ws → server_of d srv ws.
Proof.
  unfold sql_GetServerWorkspace. destruct (lookup_by srv_ID srv (servers d)) as [s|] eqn:Hl; [|done]. intros [= <-].
  apply lookup_by_Some in Hl as [Hin Hid]. by exists s.
Qed.

Lemma agwf_minted t d d' : token_minted t d d' → server_of d (rt_ServerID t) (rt_WorkspaceID t) → agwf d → agwf d'.
Proof.
  intros (Hf & _ & ->) Hs [G1 G2 G3 G4 G5 G6]. split; simpl; [done|done|done|exact G4| |].
  - by apply NoDup_map_snoc.
  - apply Forall_app. split; [exact G6|]. by constructor.
Qed.

Lemma agwf_consumed t now d d' : token_consumed t now d d' → agwf d → agwf d'.
Proof.
  intros (Hin & _ & _ & ->) [G1 G2 G3 G4 G5 G6]. split; simpl; [done|done|done|exact G4| |].
  - by rewrite map_update_where.
  - apply Forall_update_where; [by intros|exact G6].
Qed.

Lemma agwf_registered srv h a d d' : agent_registered srv h a d d' → server_of d srv (ag_WorkspaceID a) → agwf d → agwf d'.
Proof.
  intros (Hs & Hh & _ & Hapart & Hd) Hhome [G1 G2 G3 G4 G5 G6].
  destruct Hd as [(old & Hl & Hid & Hws & ->)|(Hnew & ->)].
  - apply lookup_by_Some in Hl as [Hin Hsold].
    assert (∀ x, x ∈ agents d → String.eqb (ag_ServerID x) srv = true → x = old) as Hone.
    { intros x Hx Hb. propify. apply (NoDup_map_inj ag_ServerID (agents d)); [done|done|done|congruence]. }
    assert (∀ {X} (g : db_Agent → X), g a = g old →
      map g (update_where (λ x, String.eqb (ag_ServerID x) srv) (λ _, a) (agents d)) = map g (agents d)) as Hmap.
    { intros X g Hg. unfold update_where. rewrite map_map. apply map_ext_in. intros x Hx%list_elem_of_In.
      destruct (String.eqb (ag_ServerID x) srv) eqn:Hb; [|done]. by rewrite (Hone x Hx Hb). }
    split; simpl; [by rewrite Hmap|by rewrite Hmap by congruence| | |done|exact G6].
    + apply NoDup_map_update; [done|intros x y Hx Hy Hpx Hpy; by rewrite (Hone x), (Hone y)|].
      intros x y Hx Hy Hpx Hpy. rewrite Hh. intros Heq. apply (Hapart y); [done|by apply String.eqb_neq|done].
    + apply Forall_update_where; [intros x _ _; rewrite Hs; exact Hhome|exact G4].
  - split; simpl; [by apply NoDup_map_snoc; [|intros y Hy; apply Hnew]| | | |done|exact G6].
    + apply NoDup_map_snoc; [done|]. intros y Hy. rewrite Hs. by apply Hnew.
    + apply NoDup_map_snoc; [done|]. intros y Hy. rewrite Hh. apply Hapart; [done|by apply Hnew].
    + apply Forall_app. split; [exact G4|]. constructor; [by rewrite Hs|done].
Qed.

Lemma agwf_beaten i d d' : beaten i d d' → agwf d → agwf d'.
Proof.
  intros (old & now & _ & _ & ->) [G1 G2 G3 G4 G5 G6]. split; simpl; rewrite ?map_update_where by done; try done.
  apply Forall_update_where; [by intros|exact G4].
Qed.

Lemma registered_only srv h a d d' : agent_registered srv h a d d' → registry_only d d'.
Proof. by intros (_ & _ & _ & _ & [(old & _ & _ & _ & ->)|(_ & ->)]); destruct d. Qed.

Section Theorems.
Context {E : Env} {A : Authorizer} {N : Entropy}.

Definition handle_registry (q : RegistryRequest) : M unit :=
  match q with
  | GCreateToken c srv => discard (CreateRegistrationToken c srv)
  | GRegister i => discard (Register i)
  | GHeartbeat m => discard (Heartbeat (heartbeat_input m))
  | GList c ws => discard (AgentRegistry.ListByWorkspace c ws)
  end.
Definition registry_effect (q : RegistryRequest) (d d' : DB) : Prop :=
  match q with
  | GCreateToken c srv => ∃ tok, token_created c srv tok d d'
  | GRegister i => ∃ r t a, registered i r t a d d'
  | GHeartbeat m => beaten (heartbeat_input m) d d'
  | GList c ws => d' = d ∧ allows c ActionAgentRead (agent_resource ws "") d
  end.

Lemma registry_effect_safe q d d' : registry_effect q d d' → agwf d → agwf d' ∧ registry_only d d'.
Proof.
  intros He G. destruct q as [c srv|i|m|c ws]; simpl in He.
  - destruct He as (tok & t & ws & d1 & Hws & _ & _ & H1 & H2 & _ & _ & _ & Hm & Haud). split.
    + eapply agwf_audited; [exact Haud|]. eapply agwf_minted; [exact Hm| |done]. rewrite H1, H2. by apply workspace_server_of.
    + eapply registry_only_trans; [|by eapply registry_only_audited]. destruct Hm as (_ & _ & ->). by destruct d.
  - destruct He as (r & t & a & _ & _ & _ & _ & _ & n & d1 & d2 & Hc & Hr & Hws & Haud).
    pose proof (agwf_consumed _ _ _ _ Hc G) as G1.
    assert (t ∈ registration_tokens d ∧ agents d1 = agents d ∧ servers d1 = servers d) as (Hin & Ha & Hs)
      by (destruct Hc as (Hin & _ & _ & ->); done).
    assert (server_of d (rt_ServerID t) (ag_WorkspaceID a)) as Hhome.
    { destruct Hws as [(old & Ho & Hos & ->)| ->].
      - rewrite <- Hos. by apply (proj1 (Forall_forall _ _) (agwf_home _ G) old).
      - by apply (proj1 (Forall_forall _ _) (agwf_token_home _ G) t). }
    split.
    + eapply agwf_audited; [exact Haud|]. eapply agwf_registered; [exact Hr|by eapply server_of_frame|done].
    + eapply registry_only_trans; [|by eapply registry_only_audited].
      eapply registry_only_trans; [|by eapply registered_only]. destruct Hc as (_ & _ & _ & ->). by destruct d.
  - split; [by eapply agwf_beaten|]. destruct He as (old & now & _ & _ & ->). by destruct d.
  - destruct He as [-> _]. split; [done|]. by destruct d.
Qed.

(** The agent registry through any request.  Its invariant (one agent per server,
    one agent per credential hash, no two tokens with one hash, every agent and token in
    the workspace of its server) is kept; a failed request changes nothing, so a failed
    registration leaves its token unspent; a successful one did what its specification
    says and touched no table but agents, tokens and the audit log. *)
Theorem registry_requests_safe q r w w' :
  agwf (w_db w) → handle_registry q w = (r, w') →
  agwf (w_db w') ∧ registry_only (w_db w) (w_db w') ∧
  match r with
  | inl _ => w_db w' = w_db w
  | inr _ => registry_effect q (w_db w) (w_db w')
  end.
Proof.
  intros G H. use_wp H.
  assert (wp (handle_registry q) (λ r w', match r with inl _ => w_db w' = w_db w | inr _ => registry_effect q (w_db w) (w_db w') end) w) as Hw.
  { destruct q as [c srv|i|m|c ws]; simpl; apply wp_discard.
    - apply wp_CreateRegistrationToken; [done|]. intros tok w1 Ht _ _. by exists tok.
    - apply wp_Register; [apply G|done|]. intros x t a w1 Hr. by exists x, t, a.
    - by apply wp_Heartbeat.
    - apply wp_ListAgents; [done|]. by intros w1 -> Hal. }
  eapply wp_mono; [|exact Hw]. intros r1 w1 Hres <-. destruct r1 as [e|[]].
  - rewrite Hres. split; [done|]. split; [by destruct (w_db w)|done].
  - destruct (registry_effect_safe _ _ _ Hres G). by split; [|split].
Qed.

(** ** What a registration proves to the other modules *)
Lemma find_hash_unique h l a : NoDup (map ag_CredentialHash l) → a ∈ l → ag_CredentialHash a = h →
  List.find (λ a, bool_decide (ag_CredentialHash a = h)) l = Some a.
Proof.
  intros Hnd Ha Hh. destruct (List.find _ l) as [x|] eqn:Hf.
  - apply find_Some_elem in Hf as [Hx Hb]. propify. f_equal. apply (NoDup_map_inj ag_CredentialHash l); [done|done|done|congruence].
  - apply (find_None_elem _ _ a) in Hf; [|done]. apply bool_decide_eq_false in Hf. done.
Qed.
Lemma credential_lookup d h aid srv : agwf d →
  sql_GetAgentServerByCredential h d = Some (aid, srv) ↔
  ∃ a, a ∈ agents d ∧ ag_CredentialHash a = h ∧ ag_ID a = aid ∧ ag_ServerID a = srv.
Proof.
  intros G. unfold sql_GetAgentServerByCredential. split.
  - destruct (List.find _ _) as [a|] eqn:Hf; [|done]. intros [= <- <-]. apply find_Some_elem in Hf as [Ha Hb]. propify. by exists a.
  - intros (a & Ha & Hh & <- & <-). rewrite (find_hash_unique h _ a); [done|apply G|done|done].
Qed.

Lemma registered_agents srv h a d d' x : agwf d → agent_registered srv h a d d' →
  x ∈ agents d' ↔ x = a ∨ x ∈ agents d ∧ ag_ServerID x ≠ srv.
Proof.
  intros G (Hs & _ & _ & _ & [(old & Hl & _ & _ & ->)|(Hnew & ->)]); simpl.
  - rewrite elem_of_update_where. apply lookup_by_Some in Hl as [Hin Hold]. split.
    + intros (y & Hy & ->). destruct (String.eqb_spec (ag_ServerID y) srv); [by left|by right].
    + intros [->|[Hx Hne]]; [exists old; by rewrite Hold, String.eqb_refl|]. exists x. by apply String.eqb_neq in Hne as ->.
  - rewrite elem_of_app, list_elem_of_singleton. split; [intros [Hx|Hx]; auto|intros [->|[Hx _]]; auto].
    right. split; [done|]. by apply Hnew.
Qed.

(** C35: What a registration means to the rest of the control plane.  The token was
    minted for one server, unspent and unexpired.  Afterwards the returned credential,
    and it alone, identifies the returned agent of exactly that server to the modules
    that serve agents; the credentials of the other servers' agents identify whom they
    did before; and the token is spent: no second registration with it succeeds. *)
Theorem Register_identifies i r w w' :
  agwf (w_db w) → Register i w = (inr r, w') →
  ∃ t, t ∈ registration_tokens (w_db w) ∧ rt_TokenHash t = hashToken (rg_RegistrationToken i) ∧
    rt_ConsumedAt t = None ∧ (∃ n, now_at n < rt_ExpiresAt t) ∧
    (∀ h aid, sql_GetAgentServerByCredential h (w_db w') = Some (aid, rt_ServerID t) ↔
       h = hashToken (rd_Credential r) ∧ aid = rd_AgentID r) ∧
    (∀ h aid srv, srv ≠ rt_ServerID t →
       sql_GetAgentServerByCredential h (w_db w') = Some (aid, srv) ↔
       sql_GetAgentServerByCredential h (w_db w) = Some (aid, srv)) ∧
    (∀ j w2, rg_RegistrationToken j = rg_RegistrationToken i → w_db w2 = w_db w' → ∃ e, fst (Register j w2) = inl e).
Proof.
  intros G H. use_wp H. apply wp_Register; [apply G|by intros ? ? _ [=]|].
  intros x t a w1 Hr [= <-]. assert (agwf (w_db w1)) as G1.
  { apply (registry_effect_safe (GRegister i) (w_db w)); [by exists x, t, a|done]. }
  destruct Hr as (_ & _ & _ & Ht & Hid & n & d1 & d2 & Hc & Hreg & _ & Haud).
  pose proof (agwf_consumed _ _ _ _ Hc G) as Gc.
  assert (agents (w_db w1) = agents d2 ∧ registration_tokens (w_db w1) = registration_tokens d1) as [Hag Htk].
  { destruct Haud as (row & -> & _). split; [done|]. destruct Hreg as (_ & _ & _ & _ & [(old & _ & _ & _ & ->)|(_ & ->)]); done. }
  assert (∀ y, y ∈ agents (w_db w1) ↔ y = a ∨ y ∈ agents (w_db w) ∧ ag_ServerID y ≠ rt_ServerID t) as Hmem.
  { intros y. rewrite Hag, (registered_agents _ _ _ _ _ _ Gc Hreg). destruct Hc as (_ & _ & _ & ->). done. }
  destruct Hreg as (Hs & Hh & _). destruct Hc as (Hin & Hnone & Hlt & Hd1).
  exists t. do 3 (split; [done|]). split; [by exists n|]. split; [|split].
  - intros h aid. rewrite credential_lookup by done. split.
    + intros (y & Hy & <- & <- & Hys). apply Hmem in Hy as [->|[_ Hne]]; [|done]. by rewrite Hh, Hid.
    + intros [-> ->]. exists a. rewrite Hmem. split; [by left|done].
  - intros h aid srv Hne. rewrite !credential_lookup by done. setoid_rewrite Hmem. split.
    + intros (y & [->|[Hy _]] & H1 & H2 & H3); [congruence|by exists y].
    + intros (y & Hy & H1 & H2 & H3). exists y. split; [right; split; [done|congruence]|done].
  - intros j w2 Hj Hw2. assert (wp (Register j) (λ res _, ∃ e, res = inl e) w2) as Hwp; [|exact Hwp].
    apply wp_Register; [rewrite Hw2; apply G1|by eauto|]. intros x' t' a' w3 Hr'. exfalso.
    destruct Hr' as (_ & _ & _ & Ht' & _ & n' & d3 & d4 & Hc' & _). destruct Hc' as (Hin' & Hnone' & _).
    rewrite Hw2, Htk, Hd1 in Hin'. simpl in Hin'. apply elem_of_update_where in Hin' as (y & Hy & ->).
    assert (rt_TokenHash (if redeemable (rt_TokenHash t) (now_at n) y then rt_consume (now_at n) y else y) = rt_TokenHash y) as Hsame
      by by case_match.
    rewrite Hsame, Hj in Ht'. assert (y = t) as ->.
    { apply (NoDup_map_inj rt_TokenHash (registration_tokens (w_db w))); [apply G|done|done|congruence]. }
    unfold redeemable in Hnone'. rewrite !bool_decide_eq_true_2 in Hnone' by done.
    rewrite (proj2 (Z.ltb_lt _ _) Hlt) in Hnone'. done.
Qed.
End Theorems.

(** ** Readiness *)
(** A deployment can succeed and serve traffic. *)
Definition hard_ok (a : Agent) (allowNonLinuxHost : bool) : Prop :=
  (allowNonLinuxHost = true ∨ a_OS a = "" ∨ a_OS a = "linux") ∧ a_DockerAvailable a ≠ Some false ∧
  (0 < a_CPUCount a → a_CaddyAvailable a ≠ Some false ∧ (a_CaddyAvailable a = Some true → a_CaddyRunning a = true) ∧
     (0 < a_DiskTotalBytes a → diskCriticalFreeBytes ≤ a_DiskFreeBytes a)).
(** Nothing to warn about. *)
Definition soft_ok (a : Agent) : Prop :=
  a_DockerAvailable a ≠ None ∧
  (0 < dockerMajor (a_DockerVersion a) → minSupportedDockerMajor ≤ dockerMajor (a_DockerVersion a)) ∧
  (0 < a_CPUCount a → (0 < a_DiskTotalBytes a → diskLowFreeBytes ≤ a_DiskFreeBytes a) ∧
     (0 < a_MemTotalBytes a → memLowAvailableBytes ≤ a_MemAvailableBytes a)).

Lemma Status_cases a now : Status a now = StatusAwaiting ∨ Status a now = StatusOffline ∨ Status a now = StatusOnline.
Proof. unfold Status. destruct (a_LastSeenAt a); [case_match|]; auto. Qed.

(** The state as a decision, in the order of the checks. *)
Lemma Readiness_state a now allow :
  (Status a now ≠ StatusOnline ∧ fst (Readiness a now allow) = ReadinessUnknown) ∨
  (Status a now = StatusOnline ∧ ¬ hard_ok a allow ∧ fst (Readiness a now allow) = ReadinessBlocked) ∨
  (Status a now = StatusOnline ∧ hard_ok a allow ∧ ¬ soft_ok a ∧ fst (Readiness a now allow) = ReadinessDegraded) ∨
  (Status a now = StatusOnline ∧ hard_ok a allow ∧ soft_ok a ∧ Readiness a now allow = (ReadinessReady, ("", []))).
Proof.
  unfold Readiness. destruct (Status_cases a now) as [Hs|[Hs|Hs]]; rewrite Hs; [by left|by left|].
  right. change (String.eqb StatusOnline StatusAwaiting) with false. change (String.eqb StatusOnline StatusOffline) with false. cbv iota.
  destruct (negb allow && negb (String.eqb (a_OS a) "") && negb (String.eqb (a_OS a) "linux")) eqn:H1.
  { left. split; [done|]. split; [|done]. intros ([H|[H|H]] & _); rewrite H in H1; [done|by destruct allow|by destruct allow]. }
  destruct (bool_decide (a_DockerAvailable a = Some false)) eqn:H2.
  { left. split; [done|]. split; [|done]. propify. by intros (_ & H & _). }
  destruct ((0 <? a_CPUCount a) && bool_decide (a_CaddyAvailable a = Some false)) eqn:H3.
  { left. split; [done|]. split; [|done]. apply andb_true_iff in H3 as [Hcpu%Z.ltb_lt Hca%bool_decide_eq_true].
    intros (_ & _ & Hc). by apply (proj1 (Hc Hcpu)). }
  destruct ((0 <? a_CPUCount a) && (bool_decide (a_CaddyAvailable a = Some true) && negb (a_CaddyRunning a))) eqn:H4.
  { left. split; [done|]. split; [|done]. apply andb_true_iff in H4 as [Hcpu%Z.ltb_lt [Hca%bool_decide_eq_true Hrun%negb_true_iff]%andb_true_iff].
    intros (_ & _ & Hc). destruct (Hc Hcpu) as (_ & Hr & _). by rewrite Hr in Hrun. }
  destruct ((0 <? a_CPUCount a) && ((0 <? a_DiskTotalBytes a) && (a_DiskFreeBytes a <? diskCriticalFreeBytes))) eqn:H5.
  { left. split; [done|]. split; [|done]. apply andb_true_iff in H5 as [Hcpu%Z.ltb_lt [Hdt%Z.ltb_lt Hdf%Z.ltb_lt]%andb_true_iff].
    intros (_ & _ & Hc). destruct (Hc Hcpu) as (_ & _ & Hr). apply Hr in Hdt. lia. }
  assert (hard_ok a allow) as Hhard.
  { split; [|split; [by apply bool_decide_eq_false in H2|]].
    - rewrite !andb_false_iff, !negb_false_iff, !String.eqb_eq in H1. tauto.
    - intros Hcpu. apply Z.ltb_lt in Hcpu. rewrite Hcpu in H3, H4, H5. simpl in H3, H4, H5. split; [by apply bool_decide_eq_false in H3|]. split.
      + intros Hca. rewrite Hca in H4. simpl in H4. by apply negb_false_iff in H4.
      + intros Hd. apply Z.ltb_lt in Hd. rewrite Hd in H5. simpl in H5. by apply Z.ltb_ge in H5. }
  right. destruct (bool_decide (a_DockerAvailable a = None)) eqn:H6.
  { left. split; [done|]. split; [done|]. split; [|done]. apply bool_decide_eq_true in H6. by intros (H & _). }
  destruct ((0 <? dockerMajor (a_DockerVersion a)) && (dockerMajor (a_DockerVersion a) <? minSupportedDockerMajor)) eqn:H7.
  { left. split; [done|]. split; [done|]. split; [|done]. apply andb_true_iff in H7 as [Hv1%Z.ltb_lt Hv2%Z.ltb_lt]. intros (_ & Hv & _). apply Hv in Hv1. lia. }
  destruct ((0 <? a_CPUCount a) && ((0 <? a_DiskTotalBytes a) && (a_DiskFreeBytes a <? diskLowFreeBytes))) eqn:H8.
  { left. split; [done|]. split; [done|]. split; [|done]. apply andb_true_iff in H8 as [Hcpu%Z.ltb_lt [Hdt%Z.ltb_lt Hdf%Z.ltb_lt]%andb_true_iff].
    intros (_ & _ & Hc). apply (proj1 (Hc Hcpu)) in Hdt. lia. }
  destruct ((0 <? a_CPUCount a) && ((0 <? a_MemTotalBytes a) && (a_MemAvailableBytes a <? memLowAvailableBytes))) eqn:H9.
  { left. split; [done|]. split; [done|]. split; [|done]. apply andb_true_iff in H9 as [Hcpu%Z.ltb_lt [Hdt%Z.ltb_lt Hdf%Z.ltb_lt]%andb_true_iff].
    intros (_ & _ & Hc). apply (proj2 (Hc Hcpu)) in Hdt. lia. }
  right. split; [done|]. split; [done|]. split; [|done]. split; [by apply bool_decide_eq_false in H6|].
  rewrite !andb_false_iff, !Z.ltb_ge in H7, H8, H9. split; [lia|]. intros Hcpu. split; intros Ht; lia.
Qed.

(** Readiness says what it promises.  A server is reported "unknown" exactly while
    its agent is not online; "blocked" exactly when it is online and some prerequisite
    of a deployment fails; "degraded" when the prerequisites hold and a warning applies;
    "ready" exactly when it is online, every prerequisite holds and no warning applies,
    and then the reason is empty. *)
Theorem Readiness_exact a now allow :
  (fst (Readiness a now allow) = ReadinessUnknown ↔ Status a now ≠ StatusOnline) ∧
  (fst (Readiness a now allow) = ReadinessBlocked ↔ Status a now = StatusOnline ∧ ¬ hard_ok a allow) ∧
  (fst (Readiness a now allow) = ReadinessDegraded ↔ Status a now = StatusOnline ∧ hard_ok a allow ∧ ¬ soft_ok a) ∧
  (Readiness a now allow = (ReadinessReady, ("", [])) ↔ Status a now = StatusOnline ∧ hard_ok a allow ∧ soft_ok a).
Proof.
  destruct (Readiness_state a now allow) as [(H1 & H)|[(H1 & H2 & H)|[(H1 & H2 & H3 & H)|(H1 & H2 & H3 & H)]]]; rewrite ?H.
  - split; [done|]. split; [by split; [|intros []]|]. split; [by split; [|intros []]|].
    split; [intros Hr; by rewrite Hr in H|by intros []].
  - split; [by split|]. split; [done|]. split; [split; [done|by intros (_ & ? & _)]|].
    split; [intros Hr; by rewrite Hr in H|by intros (_ & ? & _)].
  - split; [by split|]. split; [split; [done|by intros []]|]. split; [done|].
    split; [intros Hr; by rewrite Hr in H|by intros (_ & _ & ?)].
  - simpl. split; [by split|]. split; [split; [done|by intros []]|]. split; [|done]. split; [done|by intros (_ & _ & [])].
Qed.

(** ** The bounds of what an agent reports *)
Lemma length_replacement : length replacement = 3%nat.
Proof. done. Qed.
Lemma rune_width_le l : (rune_width l ≤ 4)%nat.
Proof.
  unfold rune_width. destruct l as [|c l]; [lia|]. unfold rune_shape. repeat case_match; simplify_eq; lia.
Qed.
Lemma runes_bound n l : Forall (λ r, (length r ≤ 4)%nat) (runes n l).
Proof.
  revert l. induction n as [|n IH]; intros [|c l]; try constructor; [|apply IH].
  case_match; [rewrite length_replacement; lia|]. rewrite length_take. pose proof (rune_width_le (c :: l)). lia.
Qed.
Lemma length_concat_bound (ls : list bytes) k : Forall (λ r, (length r ≤ k)%nat) ls → (length (concat ls) ≤ k * length ls)%nat.
Proof. induction 1 as [|r ls Hr _ IH]; simpl; [lia|]. rewrite length_app. lia. Qed.

Lemma clampFact_bound s : len (clampFact s) ≤ 256.
Proof.
  unfold clampFact, maxFactLen. destruct (len s <=? 64) eqn:Hl; [propify; lia|].
  rewrite len_length, bytes_of_str_of.
  pose proof (length_concat_bound _ 4 (Forall_take _ 64 _ (runes_bound (length (bytes_of s)) (bytes_of s)))) as H.
  rewrite length_take in H. lia.
Qed.

(** The compatibility facts of a stored agent are within bounds.  The version is not one of
    them: it is stored as reported, of any length. *)
Definition facts_bounded (a : db_Agent) : Prop :=
  len (ag_DockerVersion a) ≤ 256 ∧ len (ag_Os a) ≤ 256 ∧ len (ag_Arch a) ≤ 256 ∧ len (ag_CaddyVersion a) ≤ 256 ∧
  0 ≤ ag_CpuCount a ≤ 4096 ∧
  Forall (λ n, 0 ≤ n < 2 ^ 63) [ag_DiskTotalBytes a; ag_DiskFreeBytes a; ag_MemTotalBytes a; ag_MemAvailableBytes a].

(** A message as the transport delivers it: int64 byte counts and a uint32 CPU count. *)
Definition message_typed (m : HeartbeatRequest) : Prop :=
  0 ≤ hm_CpuCount m < 2 ^ 32 ∧
  Forall (λ n, - 2 ^ 63 ≤ n < 2 ^ 63) [hm_DiskTotalBytes m; hm_DiskFreeBytes m; hm_MemTotalBytes m; hm_MemAvailableBytes m].

(** Facts that need no clamping. *)
Definition facts_reasonable (m : HeartbeatRequest) : Prop :=
  len (hm_DockerVersion m) ≤ 64 ∧ len (hm_Os m) ≤ 64 ∧ len (hm_Arch m) ≤ 64 ∧ len (hm_CaddyVersion m) ≤ 64 ∧
  hm_CpuCount m ≤ 4096 ∧
  Forall (λ n, 0 ≤ n) [hm_DiskTotalBytes m; hm_DiskFreeBytes m; hm_MemTotalBytes m; hm_MemAvailableBytes m].
(** The facts of the row are those of the message. *)
Definition facts_as_sent (m : HeartbeatRequest) (a : db_Agent) : Prop :=
  ag_DockerVersion a = hm_DockerVersion m ∧ ag_Os a = hm_Os m ∧ ag_Arch a = hm_Arch m ∧
  ag_CaddyVersion a = hm_CaddyVersion m ∧ ag_CpuCount a = hm_CpuCount m ∧
  ag_DiskTotalBytes a = hm_DiskTotalBytes m ∧ ag_DiskFreeBytes a = hm_DiskFreeBytes m ∧
  ag_MemTotalBytes a = hm_MemTotalBytes m ∧ ag_MemAvailableBytes a = hm_MemAvailableBytes m.

Lemma clampFact_id s : len s ≤ 64 → clampFact s = s.
Proof. intros H. unfold clampFact, maxFactLen. by apply Z.leb_le in H as ->. Qed.
Lemma clampCPUCount_id n : n ≤ 4096 → clampCPUCount n = n.
Proof. intros H. unfold clampCPUCount. case_match; [propify; lia|done]. Qed.
Lemma clampBytes_id n : 0 ≤ n → clampBytes n = n.
Proof. intros H. unfold clampBytes. case_match; [propify; lia|done]. Qed.

Lemma beat_as_sent m now a : facts_reasonable m → facts_as_sent m (ag_beat (heartbeat_input m) now a).
Proof.
  intros (H1 & H2 & H3 & H4 & H5 & Hm). rewrite !Forall_cons in Hm. destruct Hm as (M1 & M2 & M3 & M4 & _).
  unfold facts_as_sent. simpl.
  by rewrite !clampFact_id, clampCPUCount_id, !clampBytes_id.
Qed.
Lemma beat_bounded m now a : message_typed m → facts_bounded (ag_beat (heartbeat_input m) now a).
Proof.
  intros [Hcpu Hm]. rewrite !Forall_cons in Hm. destruct Hm as (M1 & M2 & M3 & M4 & _). unfold facts_bounded. simpl.
  do 4 (split; [apply clampFact_bound|]). split; [unfold clampCPUCount; case_match; lia|].
  unfold clampBytes. repeat constructor; case_match; lia.
Qed.

(** C38: An agent cannot write outrageous compatibility facts.  Whatever message an agent
    sends, the heartbeat leaves the compatibility facts of every agent bounded: the
    Docker, OS, architecture and Caddy texts of at most 256 bytes (64 runes), a CPU count
    of at most 4096 that fits the int32 column, byte counts that are not negative.  Facts
    within the limits are stored exactly as sent, and an old agent's absent facts as
    unknown, so they never block its server.  The version of the agent is not a bounded
    fact: it is stored as sent, whatever its length.  Only the row with the agent's
    credential changes, and it keeps its id and its server. *)
Theorem heartbeat_facts_bounded {E : Env} m r w w' :
  message_typed m → Forall facts_bounded (agents (w_db w)) → Heartbeat (heartbeat_input m) w = (inr r, w') →
  Forall facts_bounded (agents (w_db w')) ∧
  (∀ x, x ∈ agents (w_db w) → ag_CredentialHash x ≠ hashToken (hm_Credential m) → x ∈ agents (w_db w')) ∧
  ∃ old a, old ∈ agents (w_db w) ∧ a ∈ agents (w_db w') ∧
    ag_CredentialHash old = hashToken (hm_Credential m) ∧ ag_CredentialHash a = ag_CredentialHash old ∧
    ag_ID a = ag_ID old ∧ ag_ServerID a = ag_ServerID old ∧
    ag_AgentVersion a = hm_AgentVersion m ∧ (facts_reasonable m → facts_as_sent m a) ∧
    (hm_Os m = "" → ag_DockerAvailable a = None) ∧ (hm_CpuCount m = 0 → ag_CaddyAvailable a = None).
Proof.
  intros Hm Hall H. use_wp H. apply wp_Heartbeat; [by intros ? ? _ [=]|].
  intros w1 (old & now & Hin & Hh & ->) _. simpl. split; [|split].
  - apply Forall_update_where; [|done]. intros a Ha _. by apply beat_bounded.
  - intros x Hx Hne. apply elem_of_update_where. exists x. split; [done|]. unfold has_credential. by rewrite bool_decide_eq_false_2.
  - exists old, (ag_beat (heartbeat_input m) now old). split; [done|]. split.
    { apply elem_of_update_where. exists old. split; [done|]. unfold has_credential. by rewrite bool_decide_eq_true_2. }
    do 5 (split; [done|]). split; [by apply beat_as_sent|].
    simpl. unfold reportedDockerAvailable, reportedCaddyAvailable. split; [by intros ->|by intros ->].
Qed.
