(* ===== verification/Readiness.v ===== *)
(** * Readiness: the Production Readiness Doctor

    [internal/readiness] (readiness.go, service.go, store.go): the checks of a service, the
    verdict, the summary of an environment.  What it reads of the other modules is the
    class [ReadinessPorts], whose laws say that a read changes nothing and answers a
    function of the database; [ReadinessProps] implements it.  A detail keeps its format and
    arguments unformatted. *)
From S2P Require Import Prelude.
From S2P Require Import GoStrings.
From S2P Require Import Problem.
From S2P Require Import Schema.
From S2P Require Import Platform.
From S2P Require Import Authz.

(** ** Data *)
Inductive Severity := SeverityCritical | SeverityWarning | SeverityInfo.
Inductive State := StatePass | StateWarn | StateFail | StateUnknown.
Inductive Level := LevelReady | LevelAlmostReady | LevelNotReady.
#[global] Instance Severity_eq_dec : EqDecision Severity.
Proof. solve_decision. Defined.
#[global] Instance State_eq_dec : EqDecision State.
Proof. solve_decision. Defined.
#[global] Instance Level_eq_dec : EqDecision Level.
Proof. solve_decision. Defined.

Definition CategoryDeployment : string := "deployment".
Definition CategoryConfig : string := "config".
Definition CategoryDomain : string := "domain".
Definition CategoryServer : string := "server".
Definition CategoryBackup : string := "backup".
Definition CategoryService : string := "service".

(** A format and its arguments. *)
Definition text : Type := string * list fmt_arg.
Definition plain (s : string) : text := (s, []).

Record Check := mk_Check {
  ck_Category : string;
  ck_Severity : Severity;
  ck_State : State;
  ck_Title : string;
  ck_Detail : text;
  ck_Remediation : string;
}.
Record Checklist := mk_Checklist { cl_OverallLevel : Level; cl_Checks : list Check }.

(** *** What it reads (store.go) *)
Record ServiceFacts := mk_ServiceFacts {
  sf_ID : string; sf_Name : string; sf_WorkspaceID : string; sf_EnvironmentID : string;
  sf_SourceKind : string; sf_Visibility : string; sf_RouteURL : string; sf_ContainerPort : Z;
}.
Record ConfigEntry := mk_ConfigEntry { ce_Key : string; ce_Secret : bool; ce_Value : string }.
Record DomainFact := mk_DomainFact { df_Hostname : string; df_Status : string }.
Record DeploymentFact := mk_DeploymentFact { dpf_Status : string; dpf_ServerID : string }.
Record ServerReadiness := mk_ServerReadiness { sr_HasServer : bool; sr_State : string; sr_Reason : text }.

Class ReadinessPorts {E : Env} := {
  port_GetService : Principal → string → M ServiceFacts;
  port_ListByEnvironment : Principal → string → M (list ServiceFacts);
  port_ListConfig : Principal → string → M (list ConfigEntry);
  port_ListDomains : Principal → string → M (list DomainFact);
  port_LatestDeployment : Principal → string → M (option DeploymentFact);
  port_WorkspaceReadiness : Principal → string → M ServerReadiness;
  (** nil when no backups module is wired. *)
  port_HasBackup : option (Principal → string → M bool);

  facts_of : string → DB → option ServiceFacts;
  environment_of : string → DB → list ServiceFacts;
  config_of : string → DB → list ConfigEntry;
  domains_of : string → DB → list DomainFact;
  latest_of : string → DB → option DeploymentFact;
  servers_of : string → DB → ServerReadiness → Prop;
  has_backup_of : string → DB → bool;

  wp_GetService : ∀ c i (Q : go_error + ServiceFacts → World → Prop) w,
    (∀ e w', w_db w' = w_db w → Q (inl e) w') →
    (∀ f w', w_db w' = w_db w → facts_of i (w_db w) = Some f → Q (inr f) w') → wp (port_GetService c i) Q w;
  wp_ListByEnvironment : ∀ c i (Q : go_error + list ServiceFacts → World → Prop) w,
    (∀ e w', w_db w' = w_db w → Q (inl e) w') →
    (∀ w', w_db w' = w_db w → Q (inr (environment_of i (w_db w))) w') → wp (port_ListByEnvironment c i) Q w;
  wp_ListConfig : ∀ c i (Q : go_error + list ConfigEntry → World → Prop) w,
    (∀ e w', w_db w' = w_db w → Q (inl e) w') →
    (∀ w', w_db w' = w_db w → Q (inr (config_of i (w_db w))) w') → wp (port_ListConfig c i) Q w;
  wp_ListDomains : ∀ c i (Q : go_error + list DomainFact → World → Prop) w,
    (∀ e w', w_db w' = w_db w → Q (inl e) w') →
    (∀ w', w_db w' = w_db w → Q (inr (domains_of i (w_db w))) w') → wp (port_ListDomains c i) Q w;
  wp_LatestDeployment : ∀ c i (Q : go_error + option DeploymentFact → World → Prop) w,
    (∀ e w', w_db w' = w_db w → Q (inl e) w') →
    (∀ w', w_db w' = w_db w → Q (inr (latest_of i (w_db w))) w') → wp (port_LatestDeployment c i) Q w;
  wp_WorkspaceReadiness : ∀ c i (Q : go_error + ServerReadiness → World → Prop) w,
    (∀ e w', w_db w' = w_db w → Q (inl e) w') →
    (∀ s w', w_db w' = w_db w → servers_of i (w_db w) s → Q (inr s) w') → wp (port_WorkspaceReadiness c i) Q w;
  wp_HasBackup : ∀ f c i (Q : go_error + bool → World → Prop) w, port_HasBackup = Some f →
    (∀ e w', w_db w' = w_db w → Q (inl e) w') →
    (∀ w', w_db w' = w_db w → Q (inr (has_backup_of i (w_db w))) w') → wp (f c i) Q w;
  (** The id of the facts is the one asked for. *)
  facts_id : ∀ i d f, facts_of i d = Some f → sf_ID f = i;
}.

(** ** The verdict (readiness.go) *)
Definition is_critical_fail (c : Check) : bool :=
  bool_decide (ck_Severity c = SeverityCritical) && bool_decide (ck_State c = StateFail).
Definition is_warn (c : Check) : bool := bool_decide (ck_State c = StateWarn).
Definition is_fail (c : Check) : bool := bool_decide (ck_State c = StateFail).
Definition deriveLevel (checks : list Check) : Level :=
  if existsb is_critical_fail checks then LevelNotReady
  else if existsb is_warn checks then LevelAlmostReady else LevelReady.

(** ** The checks (service.go) *)
Definition deploymentCheck (d : option DeploymentFact) : Check :=
  let c := λ sev st detail fix_, mk_Check CategoryDeployment sev st "Latest deployment" (plain detail) fix_ in
  match d with
  | None => c SeverityWarning StateWarn "This service hasn't been deployed yet."
              "Deploy it to a connected server and watch the health check pass."
  | Some d =>
      if String.eqb (dpf_Status d) "running" then
        c SeverityInfo StatePass "The latest deployment is running and passed its health check." ""
      else if String.eqb (dpf_Status d) "failed" then
        c SeverityCritical StateFail "The latest deployment failed."
          "Open the deployment logs to see why, then redeploy. Any previous running release keeps serving."
      else if String.eqb (dpf_Status d) "superseded" then
        c SeverityInfo StatePass "The latest deployment was replaced by a newer running release." ""
      else c SeverityInfo StateUnknown "A deployment is in progress." "Wait for it to finish, then re-check readiness."
  end.

Definition placeholderHints : list string :=
  ["changeme"; "change-me"; "your-"; "your_"; "example.com"; "todo"; "replace-me"; "xxxxx"; "<your"; "placeholder"].
Definition looksLikePlaceholder (value : string) : bool :=
  let v := ToLower (TrimSpace value) in
  String.eqb v "" || existsb (Contains v) placeholderHints.

Definition variables (entries : list ConfigEntry) : list ConfigEntry := List.filter (λ e, negb (ce_Secret e)) entries.
Definition offenders (entries : list ConfigEntry) : list string :=
  isort String.leb (map ce_Key (List.filter (λ e, looksLikePlaceholder (ce_Value e)) (variables entries))).
Definition configCheck (entries : list ConfigEntry) : Check :=
  let c := λ sev st detail fix_, mk_Check CategoryConfig sev st "Environment variables" detail fix_ in
  let n := Z.of_nat (length (variables entries)) in
  match offenders entries with
  | (_ :: _) as l =>
      c SeverityWarning StateWarn ("%d variable(s) still look like placeholders: %s.", [AInt (Z.of_nat (length l)); AStr (Join l ", ")])
        "Set real values before launching to production."
  | [] =>
      if n =? 0 then c SeverityInfo StatePass (plain "No environment variables are configured for this service.") ""
      else c SeverityInfo StatePass ("All %d configured variable(s) have real values.", [AInt n]) ""
  end.

Definition with_status (l : list string) (domains : list DomainFact) : list string :=
  map df_Hostname (List.filter (λ d, existsb (String.eqb (df_Status d)) l) domains).
Definition domain_active (domains : list DomainFact) : bool :=
  existsb (λ d, existsb (String.eqb (df_Status d)) ["active"; "verified"]) domains.
Definition domainCheck (facts : ServiceFacts) (domains : list DomainFact) : Check :=
  let c := λ sev st detail fix_, mk_Check CategoryDomain sev st "Domain & SSL" detail fix_ in
  if negb (String.eqb (sf_Visibility facts) "public") then
    c SeverityInfo StatePass (plain "Private service — reachable only by sibling services, so no public domain is needed.") ""
  else
    let pending := with_status ["pending_dns"; "blocked"] domains in
    let failed := with_status ["failed"] domains in
    match failed, pending with
    | _ :: _, _ =>
        c SeverityWarning StateWarn ("A custom domain failed verification: %s.", [AStr (Join failed ", ")])
          "Re-check the DNS record on the service page, then verify again."
    | [], _ =>
        if negb (bool_decide (pending = [])) && negb (domain_active domains) then
          c SeverityWarning StateWarn ("A custom domain isn't verified yet: %s.", [AStr (Join pending ", ")])
            "Add the DNS record shown on the service page, then verify it."
        else if domain_active domains then c SeverityInfo StatePass (plain "A custom domain is active over HTTPS.") ""
        else if negb (String.eqb (sf_RouteURL facts) "") then
          c SeverityInfo StatePass (plain "Served over HTTPS on its generated domain.") ""
        else c SeverityWarning StateWarn (plain "This public service has no live URL yet.")
               "Deploy the service to get its generated HTTPS domain."
    end.

(** [reasoned]; a reason is blank exactly when its format is. *)
Definition reasoned (base : string) (reason : text) : text :=
  if String.eqb (TrimSpace (fst reason)) "" then plain base else (base +:+ " " +:+ fst reason, snd reason).

Definition serverCheck (r : ServerReadiness) : Check :=
  let c := λ sev st detail fix_, mk_Check CategoryServer sev st "Connected server" detail fix_ in
  if negb (sr_HasServer r) then
    c SeverityCritical StateFail (plain "No server is connected to this workspace.") "Connect a server from the Servers page before deploying."
  else if String.eqb (sr_State r) "blocked" then
    c SeverityCritical StateFail (reasoned "The connected server isn't ready to deploy." (sr_Reason r)) "Resolve the server issue on the Servers page."
  else if String.eqb (sr_State r) "degraded" then
    c SeverityWarning StateWarn (reasoned "The connected server has a warning." (sr_Reason r)) "Review the server's health on the Servers page."
  else if String.eqb (sr_State r) "ready" then
    c SeverityInfo StatePass (plain "A connected server is ready to deploy onto.") ""
  else c SeverityWarning StateWarn (plain "No server is currently online.") "Bring a connected server online before deploying.".

(** ** The environment's rows *)
Definition count_state (st : State) (l : list Check) : Z := Z.of_nat (length (List.filter (λ c, bool_decide (ck_State c = st)) l)).
Definition summarizeService (name : string) (list_ : Checklist) : Check :=
  let '(sev, st) := match cl_OverallLevel list_ with
                    | LevelNotReady => (SeverityCritical, StateFail)
                    | LevelAlmostReady => (SeverityWarning, StateWarn)
                    | LevelReady => (SeverityInfo, StatePass)
                    end in
  mk_Check CategoryService sev st name
    ("%d passing, %d warning, %d critical.",
     [AInt (count_state StatePass (cl_Checks list_)); AInt (count_state StateWarn (cl_Checks list_)); AInt (count_state StateFail (cl_Checks list_))])
    (if bool_decide (cl_OverallLevel list_ = LevelReady) then "" else "Open the service to see what to fix.").
Definition worstLevel (checks : list Check) : Level :=
  if existsb is_fail checks then LevelNotReady
  else if existsb is_warn checks then LevelAlmostReady else LevelReady.

Definition no_services : Checklist :=
  mk_Checklist LevelReady [mk_Check CategoryService SeverityInfo StatePass "No services yet" (plain "This environment has no services to check.") ""].

(** ** The service *)
Definition readiness_resource (workspaceID id : string) : Resource := mk_Resource "readiness" workspaceID id.

Section Service.
Context {E : Env} {A : Authorizer} {P : ReadinessPorts}.

Definition backup_check (st : Severity * State) (detail fix_ : string) : Check :=
  mk_Check CategoryBackup (fst st) (snd st) "Database backup" (plain detail) fix_.
Definition backupCheck (caller : Principal) (serviceID : string) : M Check :=
  match port_HasBackup with
  | None => mret (backup_check (SeverityInfo, StateUnknown) "Database backups aren't available yet."
                    "Backups for managed databases are coming in a later release.")
  | Some has =>
      r ← try (has caller serviceID);
      mret (match r with
            | inl _ => backup_check (SeverityInfo, StateUnknown) "Couldn't determine backup status." ""
            | inr true => backup_check (SeverityInfo, StatePass) "A backup exists for this database." ""
            | inr false => backup_check (SeverityWarning, StateWarn) "No backup has been taken for this database."
                             "Create a backup before trusting it with production data."
            end)
  end.

Definition checklistForService (caller : Principal) (facts : ServiceFacts) : M Checklist :=
  deployFact ← port_LatestDeployment caller (sf_ID facts);
  entries ← port_ListConfig caller (sf_ID facts);
  domainFacts ← port_ListDomains caller (sf_ID facts);
  serverReadiness ← port_WorkspaceReadiness caller (sf_WorkspaceID facts);
  let checks := [deploymentCheck deployFact; configCheck entries; domainCheck facts domainFacts; serverCheck serverReadiness] in
  checks ← (if String.eqb (sf_SourceKind facts) "template"
            then c ← backupCheck caller (sf_ID facts); mret (checks ++ [c])
            else mret checks);
  mret (mk_Checklist (deriveLevel checks) checks).

Definition ServiceReadiness (caller : Principal) (serviceID : string) : M Checklist :=
  _ ← require (id_Parse serviceID) (InvalidInput "a valid service_id is required" []);
  facts ← port_GetService caller serviceID;
  _ ← Authorize caller ActionReadinessRead (readiness_resource (sf_WorkspaceID facts) (sf_ID facts));
  checklistForService caller facts.

(** One iteration over the services of an environment. *)
Definition environment_row (caller : Principal) (checks : list Check) (svc : ServiceFacts) : M (list Check) :=
  l ← ServiceReadiness caller (sf_ID svc);
  mret (checks ++ [summarizeService (sf_Name svc) l]).

Definition EnvironmentReadiness (caller : Principal) (environmentID : string) : M Checklist :=
  _ ← require (id_Parse environmentID) (InvalidInput "a valid environment_id is required" []);
  svcs ← port_ListByEnvironment caller environmentID;
  match svcs with
  | [] => mret no_services
  | _ =>
      checks ← fold_each svcs (environment_row caller) [];
      mret (mk_Checklist (worstLevel checks) checks)
  end.
End Service.
