(* ===== verification/ReadinessProps.v ===== *)
(** * ReadinessProps: the readiness of the application and its theorems

    [internal/app/readiness_adapter.go]: the services, configuration, domains, deployments
    and agents modules as the ports of [Readiness].  The wiring passes no backups reader
    ([Backups: nil] in modules.go).

    What a verdict means.  Each check as a condition on the facts, the verdict of a service as a condition on the
    database, the verdict of an environment as the worst of its services'.  Asking changes
    nothing. *)
From S2P Require Import Prelude.
From S2P Require Import GoStrings.
From S2P Require Import GoUrl.
From S2P Require Import Problem.
From S2P Require Import Schema.
From S2P Require Import Platform.
From S2P Require Import Authz.
From S2P Require Import DeployStore.
From S2P Require Deployments.
From S2P Require Config.
From S2P Require Services.
From S2P Require ServicesSpec.
From S2P Require Domains.
From S2P Require DomainsProps.
From S2P Require AgentRegistry.
From S2P Require Import Readiness.

(** ** The mappings *)
Definition serviceFacts (s : Services.Service) : ServiceFacts :=
  mk_ServiceFacts (Services.s_ID s) (Services.s_Name s) (Services.s_WorkspaceID s) (Services.s_EnvironmentID s)
    (Services.s_SourceKind s) (Services.s_Visibility s) (Services.s_RouteURL s) (Services.s_ContainerPort s).
Definition configFact (e : Config.Entry) : ConfigEntry :=
  mk_ConfigEntry (Config.ent_Key e) (String.eqb (Config.ent_Type e) "secret") (Config.ent_Value e).
Definition domainFact (d : Domains.Domain) : DomainFact := mk_DomainFact (Domains.dom_Hostname d) (Domains.dom_Status d).
Definition deploymentFact (d : Deployment) : DeploymentFact := mk_DeploymentFact (d_Status d) (d_ServerID d).

Definition readinessRank (state : string) : Z :=
  if String.eqb state AgentRegistry.ReadinessReady then 3
  else if String.eqb state AgentRegistry.ReadinessDegraded then 2
  else if String.eqb state AgentRegistry.ReadinessBlocked then 1 else 0.

(** The loop over the agents: the first of the highest rank. *)
Definition best_step (now : Z) (dev : bool) (acc : ServerReadiness * Z) (a : AgentRegistry.Agent) : ServerReadiness * Z :=
  let '(best, bestRank) := acc in
  let '(state, reason) := AgentRegistry.Readiness a now dev in
  if bestRank <? readinessRank state then (mk_ServerReadiness true state reason, readinessRank state) else acc.
Definition best_server (now : Z) (dev : bool) (l : list AgentRegistry.Agent) : ServerReadiness :=
  match l with
  | [] => mk_ServerReadiness false "" ("", [])
  | _ => fst (foldl (best_step now dev) (mk_ServerReadiness true AgentRegistry.ReadinessUnknown ("", []), -1) l)
  end.

Section App.
Context {E : Env} {A : Authorizer} {S : Sealer} {N : Addresses} {R : Domains.Resolver} {G : GitHubClient}
  {SP : Services.SourcesPort} {T : Entropy} (dev : bool).

(** ** The readers *)
Definition reader_Get (c : Principal) (serviceID : string) : M ServiceFacts :=
  s ← Services.GetService c serviceID; mret (serviceFacts s).
Definition reader_ListByEnvironment (c : Principal) (environmentID : string) : M (list ServiceFacts) :=
  l ← Services.ListByEnvironment c environmentID; mret (map serviceFacts l).
Definition reader_ListForService (c : Principal) (serviceID : string) : M (list ConfigEntry) :=
  l ← Config.ListForService c serviceID; mret (map configFact l).
Definition reader_ListByService (c : Principal) (serviceID : string) : M (list DomainFact) :=
  l ← Domains.ListByService c serviceID; mret (map domainFact l).
(** The newest of all the service's deployments. *)
Definition LatestForService (c : Principal) (serviceID : string) : M (option DeploymentFact) :=
  l ← Deployments.ListByService c serviceID;
  mret (match l with [] => None | d :: _ => Some (deploymentFact d) end).
Definition WorkspaceReadiness (c : Principal) (workspaceID : string) : M ServerReadiness :=
  l ← AgentRegistry.ListByWorkspace c workspaceID;
  match l with
  | [] => mret (best_server 0 dev [])
  | _ => now ← time_now; mret (best_server now dev l)
  end.

(** ** What they read *)
Definition db_facts (i : string) (d : DB) : option ServiceFacts :=
  (λ r, serviceFacts (Services.serviceFromRow r)) <$> lookup_by sv_ID i (services d).
Definition db_environment (i : string) (d : DB) : list ServiceFacts :=
  map (λ r, serviceFacts (Services.serviceFromRow r)) (Services.sql_ListServicesByEnvironment i d).
Definition db_config (i : string) (d : DB) : list ConfigEntry :=
  map (λ r, configFact (Config.entryFromRow r)) (sql_ListConfigForService i d).
Definition db_domains (i : string) (d : DB) : list DomainFact :=
  map (λ r, mk_DomainFact (dm_Hostname r) (dm_Status r)) (Domains.sql_ListDomainsByService i d).
Definition db_latest (i : string) (d : DB) : option DeploymentFact :=
  match sql_ListDeploymentsByService i d with
  | [] => None
  | r :: _ => Some (mk_DeploymentFact (dp_Status r) (dp_ServerID r))
  end.
Definition db_servers (ws : string) (d : DB) (s : ServerReadiness) : Prop :=
  ∃ now, s = best_server now dev (map AgentRegistry.agentFromRow (AgentRegistry.sql_ListAgentsByWorkspace ws d)).

(** ** The laws *)
Lemma wp_reader_Get c i (Q : go_error + ServiceFacts → World → Prop) w :
  (∀ e w', w_db w' = w_db w → Q (inl e) w') →
  (∀ f w', w_db w' = w_db w → db_facts i (w_db w) = Some f → Q (inr f) w') → wp (reader_Get c i) Q w.
Proof.
  intros He Ha. unfold reader_Get, db_facts in *. wp_step. apply ServicesSpec.wp_GetService; [done|].
  intros row w' Hw Hl _. apply wp_ret, Ha; [done|]. by rewrite Hl.
Qed.
Lemma wp_reader_Environment c i (Q : go_error + list ServiceFacts → World → Prop) w :
  (∀ e w', w_db w' = w_db w → Q (inl e) w') →
  (∀ w', w_db w' = w_db w → Q (inr (db_environment i (w_db w))) w') → wp (reader_ListByEnvironment c i) Q w.
Proof.
  intros He Ha. unfold reader_ListByEnvironment, db_environment in *. wp_step.
  apply ServicesSpec.wp_ListByEnvironment; [done|]. intros ws pj w' Hw _ _. apply wp_ret. rewrite map_map. by apply Ha.
Qed.
Lemma wp_reader_Config c i (Q : go_error + list ConfigEntry → World → Prop) w :
  (∀ e w', w_db w' = w_db w → Q (inl e) w') →
  (∀ w', w_db w' = w_db w → Q (inr (db_config i (w_db w))) w') → wp (reader_ListForService c i) Q w.
Proof.
  intros He Ha. unfold reader_ListForService, Config.ListForService, Config.WorkspaceIDForService, Config.store_ListForService, db_config in *.
  do 3 wp_step; [|by apply He]. do 3 wp_step; [by apply He|].
  destruct (Config.sql_GetServiceWorkspaceID i (w_db w)); [|by apply He].
  wp_step. apply wp_Authorize; [intros; apply He; congruence|]. intros w1 Hw1 _.
  do 2 wp_step; [apply He; congruence|]. do 2 wp_step. rewrite !map_map.
  replace (w_db w1) with (w_db w) by congruence. simpl. apply Ha. congruence.
Qed.
Lemma wp_reader_Domains c i (Q : go_error + list DomainFact → World → Prop) w :
  (∀ e w', w_db w' = w_db w → Q (inl e) w') →
  (∀ w', w_db w' = w_db w → Q (inr (db_domains i (w_db w))) w') → wp (reader_ListByService c i) Q w.
Proof.
  intros He Ha. unfold reader_ListByService, Domains.ListByService, Domains.store_ListByService, db_domains in *.
  do 3 wp_step; [|by apply He]. wp_step. apply DomainsProps.wp_ServiceRoute; [done|]. intros s w1 Hw1 _.
  wp_step. apply wp_Authorize; [intros; apply He; congruence|]. intros w2 Hw2 _.
  do 3 wp_step; [apply He; congruence|].
  apply (DomainsProps.wp_map_each_with _ (λ x y, domainFact y = domainFact x)).
  - intros x Q' w4 Hx. apply DomainsProps.wp_enrichWithService. intros d' w5 Hw5 (t & v & ->). by apply Hx.
  - intros ys w5 Hw5 Hall. apply wp_ret.
    assert (map domainFact ys = map (λ r, mk_DomainFact (dm_Hostname r) (dm_Status r)) (Domains.sql_ListDomainsByService i (w_db w))) as ->.
    { replace (w_db w2) with (w_db w) in Hall by congruence. clear -Hall. remember (Domains.sql_ListDomainsByService i (w_db w)) as l eqn:Hl. clear Hl.
      revert ys Hall. induction l as [|r l IH]; intros ys Hall; inversion Hall as [|? y ? l' Hy Hall']; subst; [done|].
      simpl. by rewrite Hy, (IH l' Hall'). }
    apply Ha. congruence.
Qed.
Lemma wp_reader_Latest c i (Q : go_error + option DeploymentFact → World → Prop) w :
  (∀ e w', w_db w' = w_db w → Q (inl e) w') →
  (∀ w', w_db w' = w_db w → Q (inr (db_latest i (w_db w))) w') → wp (LatestForService c i) Q w.
Proof.
  intros He Ha. unfold LatestForService, Deployments.ListByService, WorkspaceAndProjectForService, store_ListByService, db_latest in *.
  do 3 wp_step; [|by apply He]. do 3 wp_step; [by apply He|].
  destruct (sql_GetServiceWorkspaceAndProject i (w_db w)); [|by apply He].
  wp_step. apply wp_Authorize; [intros; apply He; congruence|]. intros w1 Hw1 _.
  wp_step; [apply He; congruence|]. wp_step. replace (w_db w1) with (w_db w) by congruence.
  specialize (Ha w'0 ltac:(congruence)). by destruct (sql_ListDeploymentsByService i (w_db w)).
Qed.
Lemma wp_reader_Servers c i (Q : go_error + ServerReadiness → World → Prop) w :
  (∀ e w', w_db w' = w_db w → Q (inl e) w') →
  (∀ s w', w_db w' = w_db w → db_servers i (w_db w) s → Q (inr s) w') → wp (WorkspaceReadiness c i) Q w.
Proof.
  intros He Ha. unfold WorkspaceReadiness, AgentRegistry.ListByWorkspace, AgentRegistry.store_ListByWorkspace, db_servers in *.
  do 3 wp_step; [|by apply He]. wp_step. apply wp_Authorize; [done|]. intros w1 Hw1 _.
  wp_step; [apply He; congruence|]. replace (w_db w1) with (w_db w) by congruence.
  destruct (map _ _) as [|a l] eqn:Hl; [apply wp_ret, Ha; [congruence|by exists 0]|].
  do 3 wp_step. apply Ha; [congruence|by exists t].
Qed.

#[export] Instance app_readers : ReadinessPorts.
Proof.
  refine {|
    port_GetService := reader_Get; port_ListByEnvironment := reader_ListByEnvironment;
    port_ListConfig := reader_ListForService; port_ListDomains := reader_ListByService;
    port_LatestDeployment := LatestForService; port_WorkspaceReadiness := WorkspaceReadiness; port_HasBackup := None;
    facts_of := db_facts; environment_of := db_environment; config_of := db_config; domains_of := db_domains;
    latest_of := db_latest; servers_of := db_servers; has_backup_of := λ _ _, false;
    wp_GetService := wp_reader_Get; wp_ListByEnvironment := wp_reader_Environment; wp_ListConfig := wp_reader_Config;
    wp_ListDomains := wp_reader_Domains; wp_LatestDeployment := wp_reader_Latest; wp_WorkspaceReadiness := wp_reader_Servers;
  |}.
  - done.
  - intros i d f. unfold db_facts. destruct (lookup_by sv_ID i (services d)) as [r|] eqn:Hl; [|done].
    intros [= <-]. by apply lookup_by_Some in Hl as [_ <-].
Defined.
End App.

(** ** The checks *)
Definition deployment_failed (d : option DeploymentFact) : Prop := ∃ x, d = Some x ∧ dpf_Status x = "failed".
Definition has_placeholder (l : list ConfigEntry) : Prop :=
  ∃ e, e ∈ l ∧ ce_Secret e = false ∧ looksLikePlaceholder (ce_Value e) = true.
Definition has_domain (l : list string) (ds : list DomainFact) : Prop := ∃ d, d ∈ ds ∧ df_Status d ∈ l.
(** A public service is reachable: no domain failed, those that wait are covered by one
    that serves, and there is a domain or a generated address. *)
Definition reachable_over_https (f : ServiceFacts) (ds : list DomainFact) : Prop :=
  sf_Visibility f = "public" →
  ¬ has_domain ["failed"] ds ∧
  (has_domain ["active"; "verified"] ds ∨ ¬ has_domain ["pending_dns"; "blocked"] ds ∧ sf_RouteURL f ≠ "").
Definition no_server (s : ServerReadiness) : Prop := sr_HasServer s = false ∨ sr_State s = "blocked".

(** A check of a category fails critically, warns, or neither. *)
Definition judged (c : Check) (fails warns : Prop) : Prop :=
  (is_critical_fail c = true ↔ fails) ∧ (is_warn c = true ↔ warns).

Lemma deploymentCheck_judged d : judged (deploymentCheck d) (deployment_failed d) (d = None).
Proof.
  unfold judged, deploymentCheck, deployment_failed. destruct d as [d|]; [|split; split; [done|naive_solver|done|done]].
  destruct (String.eqb_spec (dpf_Status d) "running") as [Hr|]; [split; split; [done|intros (x & [= <-] & H); congruence|done|done]|].
  destruct (String.eqb_spec (dpf_Status d) "failed"); [split; split; [by intros _; exists d|done|done|done]|].
  destruct (String.eqb_spec (dpf_Status d) "superseded"); split; split; try done; by intros (x & [= <-] & H).
Qed.

Lemma offenders_nonempty l : offenders l ≠ [] ↔ has_placeholder l.
Proof.
  unfold offenders, variables, has_placeholder.
  assert (∀ m : list string, isort String.leb m ≠ [] ↔ m ≠ []) as ->.
  { intros m. split; intros H He; apply H; [by rewrite He|]. apply Permutation_nil_r. by rewrite <- He, isort_perm. }
  split.
  - intros H. destruct (List.filter _ (List.filter _ l)) as [|e k] eqn:Hf; [done|].
    assert (In e (e :: k)) as Hin by (by left). rewrite <- Hf in Hin. apply filter_In in Hin as [Hin Hp].
    apply filter_In in Hin as [Hin Hs]. exists e. split; [by apply list_elem_of_In|]. split; [by apply negb_true_iff|done].
  - intros (e & Hin & Hs & Hp) Hm. apply map_eq_nil in Hm.
    assert (In e (List.filter (λ e, looksLikePlaceholder (ce_Value e)) (List.filter (λ e, negb (ce_Secret e)) l))) as Hf.
    { apply filter_In. split; [|done]. apply filter_In. split; [by apply list_elem_of_In|by rewrite Hs]. }
    by rewrite Hm in Hf.
Qed.
Lemma configCheck_judged l : judged (configCheck l) False (has_placeholder l).
Proof.
  unfold judged, configCheck. rewrite <- offenders_nonempty. destruct (offenders l); [|by split; split].
  case_match; by split; split.
Qed.

Lemma with_status_nonempty l ds : with_status l ds ≠ [] ↔ has_domain l ds.
Proof.
  unfold with_status, has_domain. split.
  - intros H. destruct (List.filter _ ds) as [|d k] eqn:Hf; [done|].
    assert (In d (d :: k)) as Hin by (by left). rewrite <- Hf in Hin. apply filter_In in Hin as [Hin Hp].
    exists d. split; [by apply list_elem_of_In|]. by apply in_list_true.
  - intros (d & Hin & Hp) Hm. apply map_eq_nil in Hm. apply in_list_true in Hp.
    assert (In d (List.filter (λ d, existsb (String.eqb (df_Status d)) l) ds)) as Hf by (apply filter_In; split; [by apply list_elem_of_In|done]).
    by rewrite Hm in Hf.
Qed.
Lemma domain_active_spec ds : domain_active ds = true ↔ has_domain ["active"; "verified"] ds.
Proof.
  unfold domain_active, has_domain. rewrite existsb_exists. setoid_rewrite <- list_elem_of_In.
  split; intros (d & H & Hp); exists d; (split; [done|]);
    [exact (proj1 (in_list_true _ _) Hp)|exact (proj2 (in_list_true _ _) Hp)].
Qed.
Lemma domainCheck_judged f ds : judged (domainCheck f ds) False (¬ reachable_over_https f ds).
Proof.
  unfold judged, domainCheck, reachable_over_https. rewrite <- domain_active_spec, <- !with_status_nonempty.
  destruct (String.eqb_spec (sf_Visibility f) "public") as [Hv|Hv]; simpl; [|split; split; [done|done|done|]; intros H; exfalso; by apply H].
  destruct (with_status ["failed"] ds) as [|x l]; [|split; split; [done|done| |done]; intros _ H; by destruct (H Hv) as [[] _]].
  destruct (domain_active ds) eqn:Ha; simpl.
  - rewrite andb_false_r. simpl. split; split; [done|done|done|]. intros H. exfalso. apply H. intros _. split; [by intros []|by left].
  - rewrite andb_true_r. destruct (with_status ["pending_dns"; "blocked"] ds) as [|x l]; simpl.
    + destruct (String.eqb_spec (sf_RouteURL f) "") as [->|Hr]; simpl; (split; split; [done|done| |]).
      * intros _ H. destruct (H Hv) as [_ [?|[_ ?]]]; done.
      * done.
      * done.
      * intros H. exfalso. apply H. intros _. split; [by intros []|]. right. split; [by intros []|done].
    + split; split; [done|done| |done]. intros _ H. destruct (H Hv) as [_ [?|[H' _]]]; [done|by apply H'].
Qed.

#[local] Instance has_domain_dec l ds : Decision (has_domain l ds).
Proof.
  destruct (decide (with_status l ds = [])) as [H|H]; [right|left; by apply with_status_nonempty].
  intros Hd. by apply with_status_nonempty in Hd.
Defined.
#[local] Instance reachable_dec f ds : Decision (reachable_over_https f ds).
Proof. unfold reachable_over_https. apply _. Defined.

Lemma serverCheck_judged s : judged (serverCheck s) (no_server s) (sr_HasServer s = true ∧ sr_State s ∉ ["blocked"; "ready"]).
Proof.
  unfold judged, serverCheck, no_server.
  destruct (sr_HasServer s); simpl; [|split; split; [by left|done|done|by intros [? _]]].
  destruct (String.eqb_spec (sr_State s) "blocked") as [Hb|Hb].
  { split; split; [by right|done|done|]. intros [_ H]. destruct H. rewrite Hb. left. }
  assert (¬ (false = true ∨ sr_State s = "blocked")) as Hno by naive_solver.
  destruct (String.eqb_spec (sr_State s) "degraded") as [Hd|Hd].
  { split; split; [done|naive_solver| |done]. intros _. split; [done|]. rewrite Hd. by apply (bool_decide_unpack _). }
  destruct (String.eqb_spec (sr_State s) "ready") as [Hr|Hr].
  { split; split; [done|naive_solver|done|]. intros [_ H]. destruct H. rewrite Hr. right; left. }
  split; split; [done|naive_solver| |done]. intros _. split; [done|]. intros H.
  apply elem_of_cons in H as [H|H]; [done|]. by apply list_elem_of_singleton in H.
Qed.

(** ** The verdict *)
Lemma judged_level checks (fs ws : list Prop) :
  Forall2 (λ c p, judged c (fst p) (snd p)) checks (zip fs ws) → length fs = length ws →
  (deriveLevel checks = LevelNotReady ↔ Exists (λ p, p) fs) ∧
  (deriveLevel checks = LevelReady ↔ ¬ Exists (λ p, p) fs ∧ ¬ Exists (λ p, p) ws).
Proof.
  intros Hall Hlen.
  assert ((existsb is_critical_fail checks = true ↔ Exists (λ p, p) fs) ∧ (existsb is_warn checks = true ↔ Exists (λ p, p) ws)) as [Hf Hw].
  { revert ws Hlen Hall. generalize checks. clear checks.
    induction fs as [|f fs IH]; intros checks [|x ws] Hlen Hall; try done; simpl in *; inversion Hall as [|c p l l' [H1 H2] H3]; subst; simpl.
    - split; split; try done; intros H; by inversion H.
    - destruct (IH l ws ltac:(lia) H3) as [I1 I2]. simpl in *. rewrite !orb_true_iff, !Exists_cons, I1, I2, H1, H2. done. }
  unfold deriveLevel. rewrite <- Hf, <- Hw.
  destruct (existsb is_critical_fail checks), (existsb is_warn checks); split; split; try done; naive_solver.
Qed.

Section Verdict.
Context {E : Env} {A : Authorizer} {P : ReadinessPorts}.
Implicit Types (w : World).

Definition backup_missing (f : ServiceFacts) (d : DB) : Prop :=
  sf_SourceKind f = "template" ∧ port_HasBackup ≠ None ∧ has_backup_of (sf_ID f) d = false.

(** A checklist of a service is one its facts give: the backup check of a database is the
    one the backups module answers, or unknown. *)
Definition checklist_of (f : ServiceFacts) (d : DB) (s : ServerReadiness) (l : Checklist) : Prop :=
  ∃ backup, (∀ b, backup = Some b → sf_SourceKind f = "template" ∧ ∃ p : Prop, (p → backup_missing f d) ∧ judged b False p) ∧
    (backup = None → sf_SourceKind f ≠ "template") ∧
    l = let checks := [deploymentCheck (latest_of (sf_ID f) d); configCheck (config_of (sf_ID f) d);
                       domainCheck f (domains_of (sf_ID f) d); serverCheck s] ++ option_list backup in
        mk_Checklist (deriveLevel checks) checks.

Lemma backup_check_judged st detail fix_ : judged (backup_check st detail fix_) (st = (SeverityCritical, StateFail)) (snd st = StateWarn).
Proof.
  unfold judged, is_critical_fail, is_warn. simpl. rewrite andb_true_iff, !bool_decide_eq_true. destruct st; simpl. naive_solver.
Qed.
Lemma wp_backupCheck c i (Q : go_error + Check → World → Prop) w :
  (∀ b p w', w_db w' = w_db w → (p → port_HasBackup ≠ None ∧ has_backup_of i (w_db w) = false) → judged b False p → Q (inr b) w') →
  wp (backupCheck c i) Q w.
Proof.
  intros Ha.
  assert (∀ st detail fix_ w', w_db w' = w_db w → fst st ≠ SeverityCritical →
    (snd st = StateWarn → port_HasBackup ≠ None ∧ has_backup_of i (w_db w) = false) → Q (inr (backup_check st detail fix_)) w') as Hb.
  { intros st detail fix_ w' Hw Hst Hp. apply (Ha _ (snd st = StateWarn)); [done|done|].
    destruct (backup_check_judged st detail fix_) as [H1 H2]. split; [|exact H2]. rewrite H1. split; [by intros ->|done]. }
  unfold backupCheck. destruct port_HasBackup as [f|] eqn:Hp; [|by apply wp_ret, Hb].
  do 2 wp_step. apply (wp_HasBackup f); [done| |].
  - intros e w' Hw. by apply wp_ret, Hb.
  - intros w' Hw. destruct (has_backup_of i (w_db w)) eqn:Hh; apply wp_ret, Hb; try done.
Qed.

Lemma wp_ServiceReadiness c i (Q : go_error + Checklist → World → Prop) w :
  (∀ e w', w_db w' = w_db w → Q (inl e) w') →
  (∀ f s l w', w_db w' = w_db w → facts_of i (w_db w) = Some f →
     allows c ActionReadinessRead (readiness_resource (sf_WorkspaceID f) i) (w_db w) →
     servers_of (sf_WorkspaceID f) (w_db w) s → checklist_of f (w_db w) s l → Q (inr l) w') →
  wp (ServiceReadiness c i) Q w.
Proof.
  intros He Ha. unfold ServiceReadiness, checklistForService. do 2 wp_step; [|by apply He].
  wp_step. apply wp_GetService; [done|]. intros f w1 Hw1 Hf. pose proof (facts_id _ _ _ Hf) as Hid.
  wp_step. apply wp_Authorize; [intros; apply He; congruence|]. intros w2 Hw2 Hal.
  wp_step. apply wp_LatestDeployment; [intros; apply He; congruence|]. intros w3 Hw3.
  wp_step. apply wp_ListConfig; [intros; apply He; congruence|]. intros w4 Hw4.
  wp_step. apply wp_ListDomains; [intros; apply He; congruence|]. intros w5 Hw5.
  wp_step. apply wp_WorkspaceReadiness; [intros; apply He; congruence|]. intros s w6 Hw6 Hs.
  assert (w_db w5 = w_db w ∧ w_db w4 = w_db w ∧ w_db w3 = w_db w ∧ w_db w2 = w_db w) as (E5 & E4 & E3 & E2) by (split_and!; congruence).
  rewrite E5, E4, E3, E2, Hw1, Hid in *. simpl.
  set (checks := [_; _; _; _]).
  wp_step. destruct (String.eqb_spec (sf_SourceKind f) "template") as [Ht|Ht].
  - wp_step. apply wp_backupCheck. intros b p w7 Hw7 Hp Hb. do 2 wp_step.
    apply (Ha f s); [congruence|done|done|done|]. exists (Some b). split; [|split; [done|by rewrite Hid]].
    intros b' [= <-]. split; [done|]. exists p. split; [|done]. intros Hpp. destruct (Hp Hpp) as [H1 H2].
    split; [done|]. split; [done|]. rewrite Hid. congruence.
  - do 2 wp_step. apply (Ha f s); [congruence|done|done|done|]. exists None. split; [done|]. split; [done|]. by rewrite Hid.
Qed.

Lemma checklist_level f d s l : checklist_of f d s l →
  (cl_OverallLevel l = LevelNotReady ↔ deployment_failed (latest_of (sf_ID f) d) ∨ no_server s) ∧
  (cl_OverallLevel l = LevelReady →
     ∃ x, latest_of (sf_ID f) d = Some x ∧ dpf_Status x ≠ "failed" ∧ ¬ has_placeholder (config_of (sf_ID f) d) ∧
     reachable_over_https f (domains_of (sf_ID f) d) ∧ sr_HasServer s = true ∧ sr_State s = "ready") ∧
  ((∃ x, latest_of (sf_ID f) d = Some x ∧ dpf_Status x ≠ "failed") → ¬ has_placeholder (config_of (sf_ID f) d) →
     reachable_over_https f (domains_of (sf_ID f) d) → sr_HasServer s = true → sr_State s = "ready" → ¬ backup_missing f d →
     cl_OverallLevel l = LevelReady).
Proof.
  intros (backup & Hb & _ & ->). cbn [cl_OverallLevel].
  pose proof (deploymentCheck_judged (latest_of (sf_ID f) d)) as J1. pose proof (configCheck_judged (config_of (sf_ID f) d)) as J2.
  pose proof (domainCheck_judged f (domains_of (sf_ID f) d)) as J3. pose proof (serverCheck_judged s) as J4.
  set (dep := latest_of (sf_ID f) d) in *. set (cfg := config_of (sf_ID f) d) in *. set (ds := domains_of (sf_ID f) d) in *.
  assert (∃ p : Prop, (p → backup_missing f d) ∧
    (deriveLevel ([deploymentCheck dep; configCheck cfg; domainCheck f ds; serverCheck s] ++ option_list backup) = LevelNotReady ↔
      deployment_failed dep ∨ no_server s) ∧
    (deriveLevel ([deploymentCheck dep; configCheck cfg; domainCheck f ds; serverCheck s] ++ option_list backup) = LevelReady ↔
      ¬ (deployment_failed dep ∨ no_server s) ∧
      ¬ (dep = None ∨ has_placeholder cfg ∨ ¬ reachable_over_https f ds ∨ (sr_HasServer s = true ∧ sr_State s ∉ ["blocked"; "ready"]) ∨ p)))
    as (p & Hp & Hn & Hr).
  { destruct backup as [b|].
    - destruct (Hb b eq_refl) as (_ & p & Hp & J5). exists p. split; [done|].
      destruct (judged_level [deploymentCheck dep; configCheck cfg; domainCheck f ds; serverCheck s; b]
        [deployment_failed dep; False; False; no_server s; False]
        [dep = None; has_placeholder cfg; ¬ reachable_over_https f ds; sr_HasServer s = true ∧ sr_State s ∉ ["blocked"; "ready"]; p])
        as [H1 H2]; [repeat (apply Forall2_cons; split; [assumption|]); apply Forall2_nil; exact I|done|]. simpl. rewrite H1, H2, !Exists_cons, !Exists_nil. tauto.
    - exists False. split; [done|]. rewrite app_nil_r.
      destruct (judged_level [deploymentCheck dep; configCheck cfg; domainCheck f ds; serverCheck s]
        [deployment_failed dep; False; False; no_server s]
        [dep = None; has_placeholder cfg; ¬ reachable_over_https f ds; sr_HasServer s = true ∧ sr_State s ∉ ["blocked"; "ready"]])
        as [H1 H2]; [repeat (apply Forall2_cons; split; [assumption|]); apply Forall2_nil; exact I|done|]. simpl. rewrite H1, H2, !Exists_cons, !Exists_nil. tauto. }
  split; [exact Hn|]. split.
  - intros Hl. apply Hr in Hl as [H1 H2]. unfold no_server in H1. clearbody dep.
    destruct dep as [x|]; [|tauto]. exists x. split; [done|]. split; [intros He; apply H1; left; by exists x|].
    split; [tauto|]. split; [destruct (decide (reachable_over_https f ds)); tauto|].
    destruct (sr_HasServer s); [|tauto]. split; [done|].
    destruct (decide (sr_State s = "ready")) as [|Hne]; [done|exfalso]. destruct (decide (sr_State s = "blocked")); [tauto|].
    apply H2. do 3 right. left. split; [done|]. rewrite !not_elem_of_cons. split_and!; try done. apply not_elem_of_nil.
  - intros (x & Hx & Hf) Hc Hd Hs1 Hs2 Hbk. apply Hr. split.
    + intros [(y & Hy & Hfy)|[H|H]]; [|congruence|congruence]. rewrite Hx in Hy. injection Hy as <-. done.
    + intros [H|[H|[H|[[_ H]|H]]]]; [congruence|done|done| |by apply Hbk, Hp].
      apply H. rewrite Hs2. right; left.
Qed.
End Verdict.

(** ** The best server *)
Definition rank_of (now : Z) (dev : bool) (a : AgentRegistry.Agent) : Z := readinessRank (fst (AgentRegistry.Readiness a now dev)).

Lemma readiness_states a now dev :
  fst (AgentRegistry.Readiness a now dev) ∈ [AgentRegistry.ReadinessReady; AgentRegistry.ReadinessDegraded; AgentRegistry.ReadinessBlocked; AgentRegistry.ReadinessUnknown].
Proof. unfold AgentRegistry.Readiness. repeat case_match; apply (bool_decide_unpack _); vm_compute; exact I. Qed.

Lemma best_fold now dev l : ∀ best k, k = -1 ∨ k = readinessRank (sr_State best) → sr_HasServer best = true →
  let '(s, n) := foldl (best_step now dev) (best, k) l in
  sr_HasServer s = true ∧ k ≤ n ∧ (n = -1 ∨ n = readinessRank (sr_State s)) ∧
  (s = best ∧ n = k ∨ ∃ a, a ∈ l ∧ (sr_State s, sr_Reason s) = AgentRegistry.Readiness a now dev ∧ n = rank_of now dev a) ∧
  ∀ a, a ∈ l → rank_of now dev a ≤ n.
Proof.
  induction l as [|a l IH]; intros best k Hk Hb; simpl.
  - split; [done|]. split; [lia|]. split; [done|]. split; [by left|]. intros a Ha. by apply elem_of_nil in Ha.
  - unfold rank_of in *. destruct (AgentRegistry.Readiness a now dev) as [st reason] eqn:Hr.
    destruct (Z.ltb_spec k (readinessRank st)) as [Hlt|Hge].
    + specialize (IH (mk_ServerReadiness true st reason) (readinessRank st) (or_intror eq_refl) eq_refl).
      destruct (foldl _ _ l) as [s n]. destruct IH as (H1 & H2 & H3 & H4 & H5).
      split; [done|]. split; [lia|]. split; [done|]. split.
      * right. destruct H4 as [[Es En]|(b & Hin & Hs & Hn)]; [exists a; rewrite Hr, Es, En; split; [by apply elem_of_cons; left|done]|].
        exists b. split; [by right|done].
      * intros b Hin. apply elem_of_cons in Hin as [->|Hin]; [by rewrite Hr|by apply H5].
    + specialize (IH best k Hk Hb). destruct (foldl _ _ l) as [s n]. destruct IH as (H1 & H2 & H3 & H4 & H5).
      split; [done|]. split; [done|]. split; [done|]. split.
      * destruct H4 as [?|(b & Hin & H)]; [by left|]. right. exists b. split; [by right|done].
      * intros b Hin. apply elem_of_cons in Hin as [->|Hin]; [rewrite Hr; simpl; lia|by apply H5].
Qed.

(** The state reported is one of the workspace's agents', and none ranks higher. *)
Lemma best_server_spec now dev l :
  (sr_HasServer (best_server now dev l) = false ↔ l = []) ∧
  (l ≠ [] → ∃ a, a ∈ l ∧ (sr_State (best_server now dev l), sr_Reason (best_server now dev l)) = AgentRegistry.Readiness a now dev ∧
     ∀ b, b ∈ l → rank_of now dev b ≤ rank_of now dev a).
Proof.
  destruct l as [|a l]; [by split|]. unfold best_server.
  pose proof (best_fold now dev (a :: l) (mk_ServerReadiness true AgentRegistry.ReadinessUnknown ("", [])) (-1) (or_introl eq_refl) eq_refl) as H.
  destruct (foldl _ _ (a :: l)) as [s n]. destruct H as (H1 & H2 & H3 & H4 & H5). simpl fst. rewrite H1. split; [done|].
  intros _. destruct H4 as [[-> ->]|(b & Hin & Hs & Hn)].
  - specialize (H5 a ltac:(by left)). unfold rank_of, readinessRank in H5. repeat case_match; lia.
  - exists b. split; [done|]. split; [done|]. intros x Hx. rewrite <- Hn. by apply H5.
Qed.

Lemma rank_ready now dev a : rank_of now dev a = 3 ↔ fst (AgentRegistry.Readiness a now dev) = AgentRegistry.ReadinessReady.
Proof.
  unfold rank_of. pose proof (readiness_states a now dev) as H. set (st := fst _) in *. clearbody st.
  repeat (apply elem_of_cons in H as [->|H]; [by vm_compute|]). by apply elem_of_nil in H.
Qed.
Lemma rank_blocked now dev a : rank_of now dev a = 1 ↔ fst (AgentRegistry.Readiness a now dev) = AgentRegistry.ReadinessBlocked.
Proof.
  unfold rank_of. pose proof (readiness_states a now dev) as H. set (st := fst _) in *. clearbody st.
  repeat (apply elem_of_cons in H as [->|H]; [by vm_compute|]). by apply elem_of_nil in H.
Qed.
Lemma rank_bounds now dev a : 0 ≤ rank_of now dev a ≤ 3.
Proof. unfold rank_of, readinessRank. repeat case_match; lia. Qed.

(** ** Theorems *)
Section Service.
Context {E : Env} {A : Authorizer} {S : Sealer} {N : Addresses} {R : Domains.Resolver} {G : GitHubClient}
  {SP : Services.SourcesPort} {T : Entropy} (dev : bool).
#[local] Existing Instance app_readers.

(** The agents of a workspace, as the registry derives them. *)
Definition agents_of (ws : string) (d : DB) : list AgentRegistry.Agent :=
  map AgentRegistry.agentFromRow (AgentRegistry.sql_ListAgentsByWorkspace ws d).
Definition agent_state (now : Z) (a : AgentRegistry.Agent) : string := fst (AgentRegistry.Readiness a now dev).

(** C18: The verdict on a service, as a condition on the database.  Asking changes nothing.  A
    verdict is given only to someone the policy lets read readiness in the service's
    workspace.  It is "not ready" exactly when the newest deployment of the service failed
    or the workspace has no server, or servers of which none is ready or degraded and one
    is blocked; it is "ready" exactly when the newest deployment did not fail, no variable
    looks like a placeholder, a public service is reachable over HTTPS, and some server is
    ready. *)
Theorem service_verdict c i w r w' :
  ServiceReadiness (P := app_readers dev) c i w = (r, w') →
  w_db w' = w_db w ∧
  ∀ l, r = inr l → ∃ svc now,
    lookup_by sv_ID i (services (w_db w)) = Some svc ∧
    allows c ActionReadinessRead (readiness_resource (sv_WorkspaceID svc) i) (w_db w) ∧
    let ags := agents_of (sv_WorkspaceID svc) (w_db w) in
    let newest := head (sql_ListDeploymentsByService i (w_db w)) in
    (cl_OverallLevel l = LevelNotReady ↔
       (∃ x, newest = Some x ∧ dp_Status x = "failed") ∨ ags = [] ∨
       (∃ a, a ∈ ags ∧ agent_state now a = AgentRegistry.ReadinessBlocked ∧ ∀ b, b ∈ ags → rank_of now dev b ≤ 1)) ∧
    (cl_OverallLevel l = LevelReady ↔
       (∃ x, newest = Some x ∧ dp_Status x ≠ "failed") ∧ ¬ has_placeholder (db_config i (w_db w)) ∧
       reachable_over_https (serviceFacts (Services.serviceFromRow svc)) (db_domains i (w_db w)) ∧
       (∃ a, a ∈ ags ∧ agent_state now a = AgentRegistry.ReadinessReady)).
Proof.
  intros Hrun. use_wp Hrun. apply wp_ServiceReadiness; [by intros e w1 Hw1 <-|].
  intros f s l w1 Hw1 Hf Hal Hs Hl <-. split; [done|]. intros l' [= <-].
  simpl in Hf, Hs. unfold db_facts in Hf. destruct (lookup_by sv_ID i (services (w_db w))) as [svc|] eqn:Hlk; [|done].
  injection Hf as <-. destruct Hs as (now & ->). simpl in Hal. exists svc, now. split; [done|]. split; [done|].
  apply lookup_by_Some in Hlk as [_ Hid].
  destruct (checklist_level _ _ _ _ Hl) as (Hn & Hr1 & Hr2).
  change (sf_ID (serviceFacts (Services.serviceFromRow svc))) with (sv_ID svc) in *. rewrite Hid in *.
  cbn [latest_of config_of domains_of servers_of app_readers] in *.
  assert (∀ P : string → Prop, (∃ x, db_latest i (w_db w) = Some x ∧ P (dpf_Status x)) ↔
    ∃ x, head (sql_ListDeploymentsByService i (w_db w)) = Some x ∧ P (dp_Status x)) as Hlatest.
  { intros P. unfold db_latest. destruct (sql_ListDeploymentsByService i (w_db w)) as [|r0 rs]; simpl; split; intros (x & Hx & Hp);
      try done; injection Hx as <-; eauto. }
  change (sf_WorkspaceID (serviceFacts (Services.serviceFromRow svc))) with (sv_WorkspaceID svc) in *.
  cbv zeta. unfold agents_of, agent_state in *. set (ags := map AgentRegistry.agentFromRow _) in *.
  destruct (best_server_spec now dev ags) as [Hb1 Hb2].
  assert ((sr_HasServer (best_server now dev ags) = true ∧ sr_State (best_server now dev ags) = "ready") ↔
    ∃ a, a ∈ ags ∧ fst (AgentRegistry.Readiness a now dev) = AgentRegistry.ReadinessReady) as Hready.
  { split.
    - intros [H1 H2]. destruct Hb2 as (a & Hin & Ha & _); [by intros He; apply Hb1 in He; congruence|].
      exists a. split; [done|]. by rewrite <- Ha.
    - intros (a & Hin & Ha). destruct Hb2 as (b & Hin' & Hb & Hmax); [intros He; rewrite He in Hin; by apply elem_of_nil in Hin|].
      split; [apply not_false_is_true; intros Hh; apply Hb1 in Hh; rewrite Hh in Hin; by apply elem_of_nil in Hin|].
      apply rank_ready in Ha. specialize (Hmax a Hin). pose proof (rank_bounds now dev b).
      assert (rank_of now dev b = 3) as Hb3 by lia. apply rank_ready in Hb3. rewrite <- Hb in Hb3. exact Hb3. }
  assert (no_server (best_server now dev ags) ↔ ags = [] ∨
    ∃ a, a ∈ ags ∧ fst (AgentRegistry.Readiness a now dev) = AgentRegistry.ReadinessBlocked ∧ ∀ b, b ∈ ags → rank_of now dev b ≤ 1) as Hblocked.
  { unfold no_server. rewrite Hb1. split.
    - intros [H|H]; [by left|]. destruct (decide (ags = [])) as [|Hne]; [by left|right].
      destruct (Hb2 Hne) as (a & Hin & Ha & Hmax). exists a. split; [done|].
      assert (fst (AgentRegistry.Readiness a now dev) = AgentRegistry.ReadinessBlocked) as Hba by by rewrite <- Ha.
      split; [done|]. apply rank_blocked in Hba. intros b Hbin. specialize (Hmax b Hbin). lia.
    - intros [H|(a & Hin & Ha & Hmax)]; [by left|right]. destruct Hb2 as (b & Hin' & Hb & Hm); [intros He; rewrite He in Hin; by apply elem_of_nil in Hin|].
      apply rank_blocked in Ha. specialize (Hm a Hin). specialize (Hmax b Hin'). assert (rank_of now dev b = 1) as Hb1' by lia.
      apply rank_blocked in Hb1'. rewrite <- Hb in Hb1'. exact Hb1'. }
  split.
  - rewrite Hn, Hblocked. unfold deployment_failed. by rewrite (Hlatest (λ st, st = "failed")).
  - split.
    + intros H. destruct (Hr1 H) as (x & Hx & Hxf & Hc & Hd & Hs1 & Hs2).
      split; [apply (Hlatest (λ st, st ≠ "failed")); eauto|]. split; [done|]. split; [done|]. by apply Hready.
    + intros (Hx & Hc & Hd & Hs). apply Hready in Hs as [Hs1 Hs2]. apply (Hlatest (λ st, st ≠ "failed")) in Hx.
      apply Hr2; try done. by intros (_ & [] & _).
Qed.
End Service.

Section Environment.
Context {E : Env} {A : Authorizer} {P : ReadinessPorts}.

(** The order of the verdicts. *)
Definition worse (a b : Level) : Level :=
  match a, b with
  | LevelNotReady, _ | _, LevelNotReady => LevelNotReady
  | LevelAlmostReady, _ | _, LevelAlmostReady => LevelAlmostReady
  | LevelReady, LevelReady => LevelReady
  end.
Definition worst (l : list Level) : Level := foldr worse LevelReady l.

Lemma row_fail n l : is_fail (summarizeService n l) = match cl_OverallLevel l with LevelNotReady => true | _ => false end.
Proof. unfold summarizeService. by destruct (cl_OverallLevel l). Qed.
Lemma row_warn n l : is_warn (summarizeService n l) = match cl_OverallLevel l with LevelAlmostReady => true | _ => false end.
Proof. unfold summarizeService. by destruct (cl_OverallLevel l). Qed.

Lemma worstLevel_rows rows :
  worstLevel (map (λ p : string * Checklist, summarizeService (fst p) (snd p)) rows) = worst (map (λ p, cl_OverallLevel (snd p)) rows).
Proof.
  unfold worstLevel. induction rows as [|[n l] rows IH]; [done|]. cbn [map existsb worst foldr snd fst].
  fold (worst (map (λ p : string * Checklist, cl_OverallLevel (snd p)) rows)). rewrite <- IH, row_fail, row_warn.
  set (m := map _ rows). by destruct (cl_OverallLevel l), (existsb is_fail m), (existsb is_warn m).
Qed.

(** The verdict on an environment is the worst verdict on its services, each judged from
    the same database, one row per service in the environment's order; an environment
    without services is ready.  Asking changes nothing. *)
Theorem environment_verdict c i w r w' :
  EnvironmentReadiness c i w = (r, w') →
  w_db w' = w_db w ∧
  ∀ l, r = inr l → ∃ lists,
    Forall2 (λ svc l', ∃ f s, facts_of (sf_ID svc) (w_db w) = Some f ∧ servers_of (sf_WorkspaceID f) (w_db w) s ∧
      allows c ActionReadinessRead (readiness_resource (sf_WorkspaceID f) (sf_ID svc)) (w_db w) ∧ checklist_of f (w_db w) s l')
      (environment_of i (w_db w)) lists ∧
    cl_OverallLevel l = worst (map cl_OverallLevel lists) ∧
    (lists ≠ [] → map ck_Title (cl_Checks l) = map sf_Name (environment_of i (w_db w))).
Proof.
  intros Hrun. use_wp Hrun. unfold EnvironmentReadiness. do 2 wp_step; [|by intros <-].
  wp_step. apply wp_ListByEnvironment; [by intros e w1 Hw1 <-|]. intros w1 Hw1.
  set (svcs := environment_of i (w_db w)).
  set (Rel := λ (svc : ServiceFacts) (l' : Checklist), ∃ f s, facts_of (sf_ID svc) (w_db w) = Some f ∧ servers_of (sf_WorkspaceID f) (w_db w) s ∧
      allows c ActionReadinessRead (readiness_resource (sf_WorkspaceID f) (sf_ID svc)) (w_db w) ∧ checklist_of f (w_db w) s l').
  assert (∀ Q, (∀ e w', w_db w' = w_db w → Q (inl e) w') →
    (∀ rows lists w', w_db w' = w_db w → Forall2 Rel svcs lists → rows = zip (map sf_Name svcs) lists →
       Q (inr (map (λ p : string * Checklist, summarizeService (fst p) (snd p)) rows)) w') →
    wp (fold_each svcs (environment_row c) []) Q w1) as Hfold.
  { intros Q He Ha.
    apply (wp_fold_each svcs (environment_row c) [] (λ rest checks w', w_db w' = w_db w ∧ ∃ done_ lists, svcs = done_ ++ rest ∧ Forall2 Rel done_ lists ∧
      checks = map (λ p : string * Checklist, summarizeService (fst p) (snd p)) (zip (map sf_Name done_) lists))).
    - split; [done|]. by exists [], [].
    - intros svc rest checks w2 (Hw2 & don & lists & Heq & Hall & ->). unfold environment_row. wp_step.
      apply wp_ServiceReadiness; [intros; apply He; congruence|]. intros f s l w3 Hw3 Hf Hal Hs Hl.
      apply wp_ret. rewrite Hw2 in *. split; [done|]. exists (don ++ [svc]), (lists ++ [l]). split; [by rewrite <- app_assoc|].
      split; [apply Forall2_app; [done|apply Forall2_cons; split; [by exists f, s|by apply Forall2_nil]]|].
      assert (length (map sf_Name don) = length lists) as Hlen by (rewrite length_map; by eapply Forall2_length).
      rewrite map_app, zip_with_app by done. by rewrite map_app.
    - intros checks w2 (Hw2 & don & lists & Heq & Hall & ->). rewrite app_nil_r in Heq. subst don. by eapply Ha. }
  destruct svcs as [|svc rest] eqn:Hsv.
  - wp_step. intros <-. split; [done|]. intros l [= <-]. exists []. split; [by apply Forall2_nil|]. split; [done|by intros []].
  - remember (map sf_Name (svc :: rest)) as names eqn:Hnames.
    wp_step. apply Hfold; [by intros e w2 Hw2 <-|]. intros rows lists w2 Hw2 Hall ->. wp_step. intros <-. split; [done|].
    intros l [= <-]. exists lists. split; [done|]. cbn [cl_OverallLevel cl_Checks].
    assert (length names = length lists) as Hlen by (rewrite Hnames, length_map; by eapply Forall2_length).
    split.
    + rewrite worstLevel_rows. f_equal. rewrite <- (map_map snd cl_OverallLevel). f_equal. apply snd_zip. lia.
    + intros _. rewrite map_map. etrans; [|apply (fst_zip names lists); lia].
      apply map_ext. intros [n l]. unfold summarizeService. simpl. by destruct (cl_OverallLevel l).
Qed.
End Environment.
