(* ===== verification/ServerSetup.v ===== *)
(** * ServerSetup: the management key of a server and the record of its setup runs

    [internal/serversetup]: the life of the SSH key the control plane manages a server with
    (provisioned, rotated, revoked, used), the runs of a dashboard-managed setup and their
    events, with the statements of [serversetup.sql.go].  The key pair comes from the class
    [KeyGenerator]; the private half is sealed before a statement sees it.  What a run does
    on the server is [SetupRunner]. *)
From S2P Require Import Prelude.
From S2P Require Import GoStrings.
From S2P Require Import Problem.
From S2P Require Import Schema.
From S2P Require Import Platform.
From S2P Require Import Authz.
From S2P Require Import DeployNames.
From S2P Require Import DeployStore.

(** ** Data (serversetup.go, store.go) *)
Record Credential := mk_Credential {
  c_ID : string; c_ServerID : string; c_WorkspaceID : string; c_Fingerprint : string; c_PublicKey : string;
  c_RotationState : string; c_LastUsedAt : option Z; c_RotatedAt : option Z; c_RevokedAt : option Z;
  c_CreatedBy : option string; c_CreatedAt : Z; c_UpdatedAt : Z;
}.
Definition Revoked (c : Credential) : bool := bool_decide (c_RevokedAt c ≠ None).
Definition in_workspace (ws : string) (c : Credential) : Credential :=
  mk_Credential (c_ID c) (c_ServerID c) ws (c_Fingerprint c) (c_PublicKey c) (c_RotationState c) (c_LastUsedAt c)
    (c_RotatedAt c) (c_RevokedAt c) (c_CreatedBy c) (c_CreatedAt c) (c_UpdatedAt c).

Record BootstrapAuth := mk_BootstrapAuth { ba_Password : string; ba_PrivateKey : string; ba_PrivateKeyPassphrase : string }.
Record StartSetupInput := mk_StartSetupInput {
  ss_ServerID : string; ss_Host : string; ss_Port : Z; ss_Username : string; ss_Auth : BootstrapAuth;
}.
Record SetupRun := mk_SetupRun {
  r_ID : string; r_ServerID : string; r_WorkspaceID : string; r_Status : string; r_FailureReason : string;
  r_StartedBy : option string; r_CreatedAt : Z; r_UpdatedAt : Z; r_FinishedAt : option Z;
}.
Record SetupEvent := mk_SetupEvent {
  e_Seq : Z; e_Step : string; e_Kind : string; e_Status : string; e_Message : string; e_CreatedAt : Z;
}.
Record UpsertParams := mk_UpsertParams {
  up_ServerID : string; up_Fingerprint : string; up_PublicKey : string; up_SealedPrivateKey : list Z; up_CreatedBy : option string;
}.
Record RotateParams := mk_RotateParams {
  rp_ServerID : string; rp_Fingerprint : string; rp_PublicKey : string; rp_SealedPrivateKey : list Z;
}.
Record NewSetupEvent := mk_NewSetupEvent {
  ne_SetupRunID : string; ne_Step : string; ne_Kind : string; ne_Status : string; ne_Message : string;
}.
(** [sshkeys.KeyPair] *)
Record KeyPair := mk_KeyPair { kp_PrivatePEM : string; kp_AuthorizedKey : string; kp_Fingerprint : string }.
Class KeyGenerator := { Generate : nat → go_error + KeyPair }.

(** ** The statements *)
Definition user_or_null (u : option string) (d : DB) : bool :=
  match u with None => true | Some u => has_key us_ID u (users d) end.
Definition key_checks (sealed : list Z) : bool := Z.of_nat (length sealed) <=? 4096.

Definition key_new (p : UpsertParams) (st : Stamp) : db_SshManagementKey :=
  mk_smk (st_uuid st) (up_ServerID p) (up_Fingerprint p) (up_PublicKey p) (up_SealedPrivateKey p) "active"
    None None None (up_CreatedBy p) (st_now st) (st_now st).
(** ON CONFLICT (server_id) DO UPDATE: the last use and the creation stay. *)
Definition key_replace (p : UpsertParams) (st : Stamp) (r : db_SshManagementKey) : db_SshManagementKey :=
  mk_smk (sk_ID r) (sk_ServerID r) (up_Fingerprint p) (up_PublicKey p) (up_SealedPrivateKey p) "active"
    (sk_LastUsedAt r) None None (up_CreatedBy p) (sk_CreatedAt r) (st_now st).
Definition of_server (serverID : string) (r : db_SshManagementKey) : bool := String.eqb (sk_ServerID r) serverID.
Definition active_key (serverID : string) (r : db_SshManagementKey) : bool :=
  of_server serverID r && bool_decide (sk_RevokedAt r = None).

Definition sql_UpsertSSHManagementKey (p : UpsertParams) (st : Stamp) (d : DB) : go_error + (db_SshManagementKey * DB) :=
  if negb (key_checks (up_SealedPrivateKey p) && user_or_null (up_CreatedBy p) d && has_key srv_ID (up_ServerID p) (servers d))
  then inl (ErrConstraint "ssh_management_keys")
  else
    match List.find (of_server (up_ServerID p)) (ssh_management_keys d) with
    | Some r => inr (key_replace p st r, set_ssh_management_keys
                       (update_where (of_server (up_ServerID p)) (key_replace p st) (ssh_management_keys d)) d)
    | None =>
        if has_key sk_ID (st_uuid st) (ssh_management_keys d) then inl (ErrUnique "ssh_management_keys_pkey")
        else inr (key_new p st, set_ssh_management_keys (ssh_management_keys d ++ [key_new p st]) d)
    end.

(** UPDATE ... WHERE server_id = $1 AND revoked_at IS NULL RETURNING *)
Definition update_active {X} (serverID : string) (f : db_SshManagementKey → db_SshManagementKey) (ret : db_SshManagementKey → X) (d : DB)
    : go_error + (X * DB) :=
  match List.find (active_key serverID) (ssh_management_keys d) with
  | None => inl ErrNoRows
  | Some r => inr (ret (f r), set_ssh_management_keys (update_where (active_key serverID) f (ssh_management_keys d)) d)
  end.
Definition key_rotate (p : RotateParams) (st : Stamp) (r : db_SshManagementKey) : db_SshManagementKey :=
  mk_smk (sk_ID r) (sk_ServerID r) (rp_Fingerprint p) (rp_PublicKey p) (rp_SealedPrivateKey p) "active"
    (sk_LastUsedAt r) (Some (st_now st)) (sk_RevokedAt r) (sk_CreatedBy r) (sk_CreatedAt r) (st_now st).
Definition key_revoke (st : Stamp) (r : db_SshManagementKey) : db_SshManagementKey :=
  mk_smk (sk_ID r) (sk_ServerID r) (sk_Fingerprint r) (sk_PublicKey r) (sk_SealedPrivateKey r) (sk_RotationState r)
    (sk_LastUsedAt r) (sk_RotatedAt r) (Some (st_now st)) (sk_CreatedBy r) (sk_CreatedAt r) (st_now st).
Definition key_used (st : Stamp) (r : db_SshManagementKey) : db_SshManagementKey :=
  mk_smk (sk_ID r) (sk_ServerID r) (sk_Fingerprint r) (sk_PublicKey r) (sk_SealedPrivateKey r) (sk_RotationState r)
    (Some (st_now st)) (sk_RotatedAt r) (sk_RevokedAt r) (sk_CreatedBy r) (sk_CreatedAt r) (st_now st).

Definition sql_RotateSSHManagementKey (p : RotateParams) (st : Stamp) (d : DB) : go_error + (db_SshManagementKey * DB) :=
  if negb (key_checks (rp_SealedPrivateKey p)) && existsb (active_key (rp_ServerID p)) (ssh_management_keys d)
  then inl (ErrConstraint "ssh_management_keys_sealed_private_key_check")
  else update_active (rp_ServerID p) (key_rotate p st) id d.
Definition sql_RevokeSSHManagementKey (serverID : string) (st : Stamp) (d : DB) : go_error + (string * DB) :=
  update_active serverID (key_revoke st) sk_ID d.
Definition sql_MarkSSHManagementKeyUsed (serverID : string) (st : Stamp) (d : DB) : go_error + (string * DB) :=
  update_active serverID (key_used st) sk_ID d.
Definition sql_GetSSHManagementKey (serverID : string) (d : DB) : option db_SshManagementKey :=
  List.find (of_server serverID) (ssh_management_keys d).
Definition sql_GetSealedSSHManagementKey (serverID : string) (d : DB) : option (list Z) :=
  sk_SealedPrivateKey <$> List.find (active_key serverID) (ssh_management_keys d).

Definition run_new (serverID workspaceID : string) (startedBy : option string) (st : Stamp) : db_ServerSetupRun :=
  mk_ssr (st_uuid st) serverID workspaceID "queued" "" startedBy (st_now st) (st_now st) None.
Definition sql_InsertServerSetupRun (serverID workspaceID : string) (startedBy : option string) (st : Stamp) (d : DB)
    : go_error + (db_ServerSetupRun * DB) :=
  if has_key sru_ID (st_uuid st) (server_setup_runs d) then inl (ErrUnique "server_setup_runs_pkey")
  else if negb (has_key srv_ID serverID (servers d) && has_key ws_ID workspaceID (workspaces d) && user_or_null startedBy d)
  then inl (ErrConstraint "server_setup_runs")
  else let r := run_new serverID workspaceID startedBy st in
       inr (r, set_server_setup_runs (server_setup_runs d ++ [r]) d).
Definition sql_CountServerSetupRunsForServer (serverID : string) (d : DB) : Z :=
  Z.of_nat (length (where_ (λ r, String.eqb (sru_ServerID r) serverID) (server_setup_runs d))).
Definition is_terminal (status : string) : bool := String.eqb status "succeeded" || String.eqb status "failed".
Definition run_status (status reason : string) (st : Stamp) (r : db_ServerSetupRun) : db_ServerSetupRun :=
  mk_ssr (sru_ID r) (sru_ServerID r) (sru_WorkspaceID r) status reason (sru_StartedBy r) (sru_CreatedAt r) (st_now st)
    (if is_terminal status then Some (st_now st) else sru_FinishedAt r).
Definition sql_SetServerSetupRunStatus (id status reason : string) (st : Stamp) (d : DB) : go_error + (db_ServerSetupRun * DB) :=
  match lookup_by sru_ID id (server_setup_runs d) with
  | None => inl ErrNoRows
  | Some r =>
      if existsb (String.eqb status) ["queued"; "running"; "succeeded"; "failed"]
      then inr (run_status status reason st r, set_server_setup_runs
                  (update_where (λ r, String.eqb (sru_ID r) id) (run_status status reason st) (server_setup_runs d)) d)
      else inl (ErrConstraint "server_setup_runs_status_check")
  end.
Definition sql_GetServerSetupRun (id : string) (d : DB) : option db_ServerSetupRun := lookup_by sru_ID id (server_setup_runs d).
Definition event_row (e : NewSetupEvent) (st : Stamp) : db_ServerSetupEvent :=
  mk_sse (st_uuid st) (ne_SetupRunID e) (st_seq st) (ne_Step e) (ne_Kind e) (ne_Status e) (ne_Message e) (st_now st).
Definition sql_AppendServerSetupEvent (e : NewSetupEvent) (st : Stamp) (d : DB) : go_error + (db_ServerSetupEvent * DB) :=
  if has_key se_ID (st_uuid st) (server_setup_events d) then inl (ErrUnique "server_setup_events_pkey")
  else if negb (has_key sru_ID (ne_SetupRunID e) (server_setup_runs d) && existsb (String.eqb (ne_Kind e)) ["status"; "log"])
  then inl (ErrConstraint "server_setup_events")
  else inr (event_row e st, set_server_setup_events (server_setup_events d ++ [event_row e st]) d).
Definition sql_ListServerSetupEvents (runID : string) (seq : Z) (d : DB) : list db_ServerSetupEvent :=
  order_by se_Seq (where_ (λ r, String.eqb (se_SetupRunID r) runID && (seq <? se_Seq r)) (server_setup_events d)).
Definition sql_GetServerHostKeyFingerprint (id : string) (d : DB) : option string :=
  srv_HostKeyFingerprint <$> lookup_by srv_ID id (servers d).
Definition with_host_key (fp : string) (r : db_Server) : db_Server :=
  mk_srv (srv_ID r) (srv_WorkspaceID r) (srv_Name r) (srv_Slug r) (srv_CreatedAt r) fp.
Definition sql_SetServerHostKeyFingerprint (id fp : string) (st : Stamp) (d : DB) : go_error + (unit * DB) :=
  inr (tt, set_servers (update_where (λ r, String.eqb (srv_ID r) id) (with_host_key fp) (servers d)) d).

(** ** The store (postgres.go) *)
Definition toCredential (r : db_SshManagementKey) : Credential :=
  mk_Credential (sk_ID r) (sk_ServerID r) "" (sk_Fingerprint r) (sk_PublicKey r) (sk_RotationState r) (sk_LastUsedAt r)
    (sk_RotatedAt r) (sk_RevokedAt r) (sk_CreatedBy r) (sk_CreatedAt r) (sk_UpdatedAt r).
Definition toSetupRun (r : db_ServerSetupRun) : SetupRun :=
  mk_SetupRun (sru_ID r) (sru_ServerID r) (sru_WorkspaceID r) (sru_Status r) (sru_FailureReason r) (sru_StartedBy r)
    (sru_CreatedAt r) (sru_UpdatedAt r) (sru_FinishedAt r).
Definition toSetupEvent (r : db_ServerSetupEvent) : SetupEvent :=
  mk_SetupEvent (se_Seq r) (se_Step r) (se_Kind r) (se_Status r) (se_Message r) (se_CreatedAt r).

Section Store.
Context {E : Env}.
Definition Upsert (p : UpsertParams) : M Credential := r ← db_exec (sql_UpsertSSHManagementKey p); mret (toCredential r).
Definition store_Rotate (p : RotateParams) : M (option Credential) :=
  r ← ok_or_norows (db_exec (sql_RotateSSHManagementKey p)); mret (toCredential <$> r).
Definition store_Revoke (serverID : string) : M (option string) := ok_or_norows (db_exec (sql_RevokeSSHManagementKey serverID)).
Definition store_MarkUsed (serverID : string) : M (option string) := ok_or_norows (db_exec (sql_MarkSSHManagementKeyUsed serverID)).
Definition store_Get (serverID : string) : M (option Credential) :=
  r ← ok_or_norows (db_query_row (sql_GetSSHManagementKey serverID)); mret (toCredential <$> r).
Definition GetSealed (serverID : string) : M (option (list Z)) :=
  ok_or_norows (db_query_row (sql_GetSealedSSHManagementKey serverID)).
Definition WorkspaceIDForServer (serverID : string) : M (option string) := WorkspaceForServer serverID.
Definition InsertSetupRun (serverID workspaceID : string) (startedBy : option string) : M SetupRun :=
  r ← db_exec (sql_InsertServerSetupRun serverID workspaceID startedBy); mret (toSetupRun r).
Definition CountSetupRuns (serverID : string) : M Z := db_query (sql_CountServerSetupRunsForServer serverID).
Definition SetSetupRunStatus (id status reason : string) : M (option SetupRun) :=
  r ← ok_or_norows (autocommit (db_exec (sql_SetServerSetupRunStatus id status reason))); mret (toSetupRun <$> r).
Definition store_GetSetupRun (id : string) : M (option SetupRun) :=
  r ← ok_or_norows (db_query_row (sql_GetServerSetupRun id)); mret (toSetupRun <$> r).
Definition AppendSetupEvent (e : NewSetupEvent) : M SetupEvent :=
  r ← autocommit (db_exec (sql_AppendServerSetupEvent e)); mret (toSetupEvent r).
Definition store_ListSetupEvents (runID : string) (seq : Z) : M (list SetupEvent) :=
  db_query (λ d, map toSetupEvent (sql_ListServerSetupEvents runID seq d)).
Definition HostKeyFingerprint (serverID : string) : M (option string) :=
  ok_or_norows (db_query_row (sql_GetServerHostKeyFingerprint serverID)).
Definition SetHostKeyFingerprint (serverID fp : string) : M unit :=
  autocommit (db_exec (sql_SetServerHostKeyFingerprint serverID fp)).
End Store.

(** ** The service *)
Definition key_resource (workspaceID : string) : Resource := mk_Resource "ssh_management_key" workspaceID "".
Definition run_resource (workspaceID : string) : Resource := mk_Resource "server_setup_run" workspaceID "".
Definition nilIfEmpty (s : string) : option string := if String.eqb s "" then None else Some s.

Section Service.
Context {E : Env} {A : Authorizer} {S : Sealer} {K : KeyGenerator}.

Definition authorizeServer (caller : Principal) (serverID : string) (action : Action) : M string :=
  _ ← require (id_Parse serverID) (InvalidInput "a valid server_id is required" []);
  workspaceID ← found "resolve server workspace" (WorkspaceIDForServer serverID)
                  (NotFound "server %s not found" [AStr serverID]);
  _ ← Authorize caller action (key_resource workspaceID);
  mret workspaceID.

(** A fresh pair and the sealed private half. *)
Definition new_key : M (KeyPair * list Z) :=
  kp ← wrap "generate management key" (port Generate);
  sealed ← wrap "seal management key" (port (λ k, seal k (kp_PrivatePEM kp)));
  mret (kp, sealed).

Definition Provision (caller : Principal) (serverID : string) : M Credential :=
  workspaceID ← authorizeServer caller serverID ActionServerSetupRun;
  k ← new_key;
  saved ← on_err (λ e, mapErr e "provision management key") (within_tx
    (saved ← Upsert (mk_UpsertParams serverID (kp_Fingerprint (fst k)) (kp_AuthorizedKey (fst k)) (snd k) (nilIfEmpty (p_UserID caller)));
     _ ← audit_Record "server_setup.key.provision" "ssh_management_key" (c_ID saved) workspaceID (p_UserID caller);
     mret saved));
  mret (in_workspace workspaceID saved).

Definition Rotate (caller : Principal) (serverID : string) : M Credential :=
  workspaceID ← authorizeServer caller serverID ActionServerSetupKeyRotate;
  k ← new_key;
  saved ← on_err (λ e, mapErr e "rotate management key") (within_tx
    (cred ← store_Rotate (mk_RotateParams serverID (kp_Fingerprint (fst k)) (kp_AuthorizedKey (fst k)) (snd k));
     match cred with
     | None => fail (NotFound "server %s has no active management credential to rotate" [AStr serverID])
     | Some saved =>
         _ ← audit_Record "server_setup.key.rotate" "ssh_management_key" (c_ID saved) workspaceID (p_UserID caller);
         mret saved
     end));
  mret (in_workspace workspaceID saved).

Definition Revoke (caller : Principal) (serverID : string) : M unit :=
  workspaceID ← authorizeServer caller serverID ActionServerSetupKeyRevoke;
  on_err (λ e, mapErr e "revoke management key") (within_tx
    (revoked ← store_Revoke serverID;
     match revoked with
     | None => fail (NotFound "server %s has no active management credential to revoke" [AStr serverID])
     | Some revokedID => audit_Record "server_setup.key.revoke" "ssh_management_key" revokedID workspaceID (p_UserID caller)
     end)).

Definition Get (caller : Principal) (serverID : string) : M Credential :=
  workspaceID ← authorizeServer caller serverID ActionServerSetupKeyRead;
  cred ← found "get management key" (store_Get serverID) (NotFound "server %s has no management credential" [AStr serverID]);
  mret (in_workspace workspaceID cred).

Definition MarkUsed (caller : Principal) (serverID : string) : M unit :=
  workspaceID ← authorizeServer caller serverID ActionServerSetupRun;
  on_err (λ e, mapErr e "mark management key used") (within_tx
    (used ← store_MarkUsed serverID;
     match used with
     | None => fail (NotFound "server %s has no active management credential" [AStr serverID])
     | Some usedID => audit_Record "server_setup.key.use" "ssh_management_key" usedID workspaceID (p_UserID caller)
     end)).

Definition recordAudit (action targetType targetID workspaceID actor : string) : M unit :=
  within_tx (audit_Record action targetType targetID workspaceID actor).

(** The reason only reaches the log. *)
Definition RecordFailedAuth (caller : Principal) (serverID : string) : M unit :=
  workspaceID ← authorizeServer caller serverID ActionServerSetupRun;
  on_err (λ e, mapErr e "record failed auth")
    (recordAudit "server_setup.failed_auth" "server" serverID workspaceID (p_UserID caller)).

Definition OpenPrivateKey (caller : Principal) (serverID : string) : M string :=
  _ ← authorizeServer caller serverID ActionServerSetupRun;
  sealed ← found "open management key" (GetSealed serverID)
             (NotFound "server %s has no active management credential" [AStr serverID]);
  wrap "open management key" (of_sum (box_Open sealed)).

(** [StartSetup] up to the dispatch of the run, which [SetupRunner] models. *)
Definition StartSetup (caller : Principal) (i : StartSetupInput) : M SetupRun :=
  _ ← require (negb (String.eqb (TrimSpace (ss_Host i)) "")) (InvalidInput "a host is required" []);
  _ ← require (negb (String.eqb (TrimSpace (ss_Username i)) "")) (InvalidInput "a username is required" []);
  _ ← require (negb (String.eqb (ba_Password (ss_Auth i)) "" && String.eqb (ba_PrivateKey (ss_Auth i)) ""))
        (InvalidInput "a bootstrap password or private key is required" []);
  workspaceID ← authorizeServer caller (ss_ServerID i) ActionServerSetupRun;
  priorRuns ← wrap "start setup" (CountSetupRuns (ss_ServerID i));
  let action := if 0 <? priorRuns then "server_setup.run.retry" else "server_setup.run.start" in
  run ← on_err (λ e, mapErr e "start setup") (within_tx
    (run ← InsertSetupRun (ss_ServerID i) workspaceID (nilIfEmpty (p_UserID caller));
     _ ← audit_Record action "server_setup_run" (r_ID run) workspaceID (p_UserID caller);
     mret run));
  mret (mk_SetupRun (r_ID run) (r_ServerID run) workspaceID (r_Status run) (r_FailureReason run) (r_StartedBy run)
          (r_CreatedAt run) (r_UpdatedAt run) (r_FinishedAt run)).

(** The run a reader asks for, authorized in the run's workspace. *)
Definition readable_run (op : string) (caller : Principal) (id : string) : M SetupRun :=
  _ ← require (id_Parse id) (InvalidInput "a valid setup_run_id is required" []);
  run ← found op (store_GetSetupRun id) (NotFound "setup run %s not found" [AStr id]);
  _ ← Authorize caller ActionServerSetupKeyRead (run_resource (r_WorkspaceID run));
  mret run.
Definition GetSetupRun (caller : Principal) (id : string) : M SetupRun := readable_run "get setup run" caller id.
Definition ListSetupEvents (caller : Principal) (id : string) (afterSeq : Z) : M (list SetupEvent) :=
  _ ← readable_run "list setup events" caller id;
  store_ListSetupEvents id (Z.max 0 afterSeq).
End Service.
