(* ===== verification/ServerSetupProps.v ===== *)
(** * ServerSetupProps: the management key over time

    The invariant [kwf] of the keys' table, one rule per operation, the requests
    [KeyRequest] and their histories, and the theorems: what each request does, that the
    key opened is the one last stored, that a revoked one stays unusable until the server
    is provisioned again. *)
From S2P Require Import Prelude.
From S2P Require Import GoStrings.
From S2P Require Import Problem.
From S2P Require Import Schema.
From S2P Require Import Platform.
From S2P Require Import Authz.
From S2P Require Import DeployStore.
From S2P Require Import ServerSetup.

(** ** The table *)
Definition active (srv : string) (d : DB) : option db_SshManagementKey := List.find (active_key srv) (ssh_management_keys d).
Definition kwf (d : DB) : Prop :=
  NoDup (map sk_ServerID (ssh_management_keys d)) ∧
  Forall (λ k, has_key srv_ID (sk_ServerID k) (servers d) = true ∧ key_checks (sk_SealedPrivateKey k) = true ∧
               sk_RotationState k = "active") (ssh_management_keys d).
Definition other (srv : string) (r : db_SshManagementKey) : bool := negb (of_server srv r).
(** Only the key of one server changed, and this is its active key now. *)
Record key_changed (srv : string) (res : option db_SshManagementKey) (d d' : DB) : Prop := {
  kc_only : d' = set_ssh_management_keys (ssh_management_keys d') d;
  kc_others : where_ (other srv) (ssh_management_keys d') = where_ (other srv) (ssh_management_keys d);
  kc_active : active srv d' = res;
  kc_wf : kwf d → kwf d';
}.

Lemma of_server_spec srv r : of_server srv r = true ↔ sk_ServerID r = srv.
Proof. unfold of_server. apply String.eqb_eq. Qed.
Lemma active_key_spec srv r : active_key srv r = true ↔ sk_ServerID r = srv ∧ sk_RevokedAt r = None.
Proof. unfold active_key. by rewrite andb_true_iff, of_server_spec, bool_decide_eq_true. Qed.

Lemma find_update_all {X} (p q : X → bool) f l :
  (∀ y, p (if q y then f y else y) = q y) → List.find p (update_where q f l) = f <$> List.find q l.
Proof.
  intros H. induction l as [|x l IH]; [done|]. simpl. specialize (H x). destruct (q x); simpl in *; by rewrite H.
Qed.
Lemma find_update_gone {X} (p : X → bool) f l : (∀ y, p y = true → p (f y) = false) → List.find p (update_where p f l) = None.
Proof.
  intros H. induction l as [|x l IH]; [done|]. simpl. destruct (p x) eqn:Hp; [by rewrite H|by rewrite Hp].
Qed.

(** A rewrite of rows of one server that keeps the server, within the limits. *)
Lemma updated_changed srv (p : db_SshManagementKey → bool) f d res :
  (∀ r, p r = true → sk_ServerID r = srv) → (∀ r, sk_ServerID (f r) = sk_ServerID r) →
  (∀ r, r ∈ ssh_management_keys d → key_checks (sk_SealedPrivateKey r) = true ∧ sk_RotationState r = "active" →
     key_checks (sk_SealedPrivateKey (f r)) = true ∧ sk_RotationState (f r) = "active") →
  List.find (active_key srv) (update_where p f (ssh_management_keys d)) = res →
  key_changed srv res d (set_ssh_management_keys (update_where p f (ssh_management_keys d)) d).
Proof.
  intros Hp Hf Hc Hres. split; [done| |done|].
  - simpl. apply where_update_disjoint. intros r _ Hr%Hp. unfold other.
    split; apply negb_false_iff, of_server_spec; [done|by rewrite Hf].
  - intros [H1 H2]. split; simpl.
    + by rewrite map_update_where.
    + apply Forall_forall. intros r Hr. apply elem_of_update_where in Hr as (y & Hy & ->).
      rewrite Forall_forall in H2. destruct (H2 y Hy) as (K1 & K2). destruct (p y); [|done]. rewrite Hf. split; [done|]. by apply Hc.
Qed.

(** ** The statements *)
Definition stored (kp : KeyPair) (sealed : list Z) (row : db_SshManagementKey) : Prop :=
  sk_Fingerprint row = kp_Fingerprint kp ∧ sk_PublicKey row = kp_AuthorizedKey kp ∧ sk_SealedPrivateKey row = sealed.

Lemma upsert_spec p st d row d' :
  sql_UpsertSSHManagementKey p st d = inr (row, d') →
  key_changed (up_ServerID p) (Some row) d d' ∧ sk_ServerID row = up_ServerID p ∧ sk_Fingerprint row = up_Fingerprint p ∧
  sk_PublicKey row = up_PublicKey p ∧ sk_SealedPrivateKey row = up_SealedPrivateKey p.
Proof.
  unfold sql_UpsertSSHManagementKey. destruct (negb _) eqn:Hc; [done|].
  apply negb_false_iff, andb_true_iff in Hc as [[Hc Hu]%andb_true_iff Hs].
  destruct (List.find _ _) as [r|] eqn:Hf.
  - apply find_Some_elem in Hf as HH. destruct HH as [_ Hr%of_server_spec]. intros [= <- <-]. split; [|by rewrite <- Hr].
    apply updated_changed.
    + intros x. apply of_server_spec.
    + done.
    + intros x _ _. split; [exact Hc|reflexivity].
    + rewrite (find_update_all _ _ _ _); [by rewrite Hf|]. intros y. unfold active_key, of_server.
      destruct (String.eqb_spec (sk_ServerID y) (up_ServerID p)) as [He|He]; simpl; [by rewrite He, String.eqb_refl|].
      by apply String.eqb_neq in He as ->.
  - destruct (has_key sk_ID _ _); [intros [=]|]. intros [= <- <-]. split; [|done]. split; [done| | |].
    + simpl. unfold where_. rewrite List.filter_app. simpl. unfold other, of_server. simpl. rewrite String.eqb_refl. simpl. by rewrite app_nil_r.
    + unfold active. simpl. rewrite find_app_list. destruct (List.find (active_key (up_ServerID p)) (ssh_management_keys d)) as [x|] eqn:Hx.
      * apply find_Some_elem in Hx as [Hin [Hs1 _]%active_key_spec]. apply (find_None_elem _ _ _ Hf) in Hin.
        apply of_server_spec in Hs1. congruence.
      * simpl. by rewrite (proj2 (active_key_spec _ _)).
    + intros [H1 H2]. split; simpl.
      * apply NoDup_map_snoc; [done|]. intros y Hy He. simpl in He. apply (find_None_elem _ _ _ Hf) in Hy. rewrite (proj2 (of_server_spec _ _) He) in Hy. done.
      * apply Forall_app. split; [done|]. by apply Forall_singleton.
Qed.

Lemma update_active_spec {X} srv f (ret : _ → X) d x d' :
  (∀ r, sk_ServerID (f r) = sk_ServerID r) →
  (∀ r, sk_SealedPrivateKey r = sk_SealedPrivateKey (f r) ∨ key_checks (sk_SealedPrivateKey (f r)) = true) →
  (∀ r, sk_RotationState r = "active" → sk_RotationState (f r) = "active") →
  update_active srv f ret d = inr (x, d') →
  ∃ r, active srv d = Some r ∧ x = ret (f r) ∧
    ((∀ r, sk_RevokedAt (f r) = sk_RevokedAt r) → key_changed srv (Some (f r)) d d') ∧
    ((∀ r, sk_RevokedAt (f r) ≠ None) → key_changed srv None d d').
Proof.
  intros H1 H2 H3. unfold update_active. fold (active srv d). destruct (active srv d) as [r|] eqn:Hr; [|done]. intros [= <- <-].
  exists r. split; [done|]. split; [done|].
  assert (∀ res, List.find (active_key srv) (update_where (active_key srv) f (ssh_management_keys d)) = res →
    key_changed srv res d (set_ssh_management_keys (update_where (active_key srv) f (ssh_management_keys d)) d)) as H.
  { intros res. apply updated_changed; [by intros y [? _]%active_key_spec|done|].
    intros y _ (K1 & K2). split; [|by apply H3]. destruct (H2 y) as [<-|]; done. }
  split; intros Hrev; apply H.
  - rewrite find_update_all; [by fold (active srv d); rewrite Hr|]. intros y.
    destruct (active_key srv y) eqn:Hy; [|done]. apply active_key_spec in Hy as [Hy1 Hy2]. apply active_key_spec. by rewrite H1, Hrev.
  - apply find_update_gone. intros y _. apply not_true_iff_false. intros [_ Hn]%active_key_spec. by apply (Hrev y).
Qed.
Lemma rotate_spec p st d row d' :
  sql_RotateSSHManagementKey p st d = inr (row, d') →
  key_changed (rp_ServerID p) (Some row) d d' ∧ active (rp_ServerID p) d ≠ None ∧ sk_ServerID row = rp_ServerID p ∧
  sk_Fingerprint row = rp_Fingerprint p ∧ sk_PublicKey row = rp_PublicKey p ∧ sk_SealedPrivateKey row = rp_SealedPrivateKey p.
Proof.
  unfold sql_RotateSSHManagementKey. destruct (_ && _) eqn:Hc; [done|]. intros H.
  assert (key_checks (rp_SealedPrivateKey p) = true) as Hk.
  { destruct (key_checks _); [done|]. simpl in Hc. unfold update_active in H. destruct (List.find _ _) as [r|] eqn:Hf; [|done].
    apply find_Some_elem in Hf as [Hin Ha]. rewrite <- not_true_iff_false in Hc. destruct Hc. apply existsb_exists.
    exists r. by rewrite <- list_elem_of_In. }
  apply update_active_spec in H as (r & Hr & -> & Hkc & _); [|done|by right|done].
  apply find_Some_elem in Hr as HH. destruct HH as [_ [Hs _]%active_key_spec]. rewrite Hr. split; [by apply Hkc|]. done.
Qed.
Lemma revoke_spec srv st d i d' :
  sql_RevokeSSHManagementKey srv st d = inr (i, d') → key_changed srv None d d' ∧ ∃ r, active srv d = Some r ∧ i = sk_ID r.
Proof.
  intros H. apply update_active_spec in H as (r & Hr & -> & _ & Hkc); [|done|by left|done].
  split; [by apply Hkc|]. by exists r.
Qed.
Lemma used_spec srv st d i d' :
  sql_MarkSSHManagementKeyUsed srv st d = inr (i, d') →
  ∃ r, active srv d = Some r ∧ i = sk_ID r ∧ key_changed srv (Some (key_used st r)) d d'.
Proof.
  intros H. apply update_active_spec in H as (r & Hr & -> & Hkc & _); [|done|by left|done].
  exists r. split; [done|]. split; [done|]. by apply Hkc.
Qed.

(** ** The operations *)
Section Operations.
Context {E : Env} {A : Authorizer} {S : Sealer} {K : KeyGenerator}.

Lemma wp_authorizeServer c srv a (Q : go_error + string → World → Prop) w :
  (∀ e w', w_db w' = w_db w → Q (inl e) w') →
  (∀ ws w', w_db w' = w_db w → sql_GetServerWorkspace srv (w_db w) = Some ws → allows c a (key_resource ws) (w_db w) → Q (inr ws) w') →
  wp (authorizeServer c srv a) Q w.
Proof.
  intros He Ha. unfold authorizeServer, WorkspaceIDForServer, WorkspaceForServer. do 2 wp_step; [|by apply He].
  do 3 wp_step; [by apply He|]. destruct (sql_GetServerWorkspace srv (w_db w)) as [ws|] eqn:Hws; [|by apply He].
  wp_step. apply wp_Authorize; [intros; apply He; congruence|]. intros w2 Hw2 Hal.
  wp_step. apply Ha; congruence.
Qed.

(** A pair of the generator, and a sealed text of its private half. *)
Definition generated (kp : KeyPair) (sealed : list Z) : Prop :=
  (∃ n, Generate n = inr kp) ∧ ∃ n, seal n (kp_PrivatePEM kp) = inr sealed.

Lemma wp_new_key (Q : go_error + KeyPair * list Z → World → Prop) w :
  (∀ e w', w_db w' = w_db w → Q (inl e) w') →
  (∀ kp sealed w', w_db w' = w_db w → generated kp sealed → Q (inr (kp, sealed)) w') → wp new_key Q w.
Proof.
  intros He Ha. unfold new_key. do 2 wp_step. apply wp_port. intros n w1 Hw1. destruct (Generate n) as [e|kp] eqn:Hg; [by apply He|].
  do 2 wp_step. apply wp_port. intros n' w2 Hw2. destruct (seal n' _) as [e|sealed] eqn:Hs; [apply He; congruence|].
  wp_step. apply Ha; [congruence|]. split; [by exists n|by exists n'].
Qed.

(** The effect of storing a new pair for a server. *)
Definition key_stored (action : string) (c : Principal) (srv : string) (cred : Credential) (kp : KeyPair) (row : db_SshManagementKey) (d d' : DB) : Prop :=
  ∃ ws sealed d1, sql_GetServerWorkspace srv d = Some ws ∧ generated kp sealed ∧ stored kp sealed row ∧ sk_ServerID row = srv ∧
    cred = in_workspace ws (toCredential row) ∧ key_changed srv (Some row) d d1 ∧
    audited action "ssh_management_key" (sk_ID row) ws (p_UserID c) d1 d'.

Lemma wp_Provision c srv (Q : go_error + Credential → World → Prop) w :
  (∀ e w', w_db w' = w_db w → Q (inl e) w') →
  (∀ cred kp row ws w', sql_GetServerWorkspace srv (w_db w) = Some ws → allows c ActionServerSetupRun (key_resource ws) (w_db w) →
     key_stored "server_setup.key.provision" c srv cred kp row (w_db w) (w_db w') → Q (inr cred) w') →
  wp (Provision c srv) Q w.
Proof.
  intros He Ha. unfold Provision. wp_step. apply wp_authorizeServer; [done|]. intros ws w1 Hw1 Hws Hal.
  wp_step. apply wp_new_key; [intros; apply He; congruence|]. intros kp sealed w2 Hw2 Hgen. cbn [fst snd].
  do 2 wp_step. apply wp_within_tx; [intros; apply He; congruence|]. intros w3 Hw3. wp_step. unfold Upsert. wp_step. apply wp_exec; [done|].
  intros st row w4 (Hk & H1 & H2 & H3 & H4)%upsert_spec. do 2 wp_step. apply wp_audit_Record; [done|]. intros w5 Haud.
  wp_step. intros w6 Hw6. wp_step. replace (w_db w3) with (w_db w) in Hk by congruence.
  apply (Ha _ kp row ws); [done|done|]. exists ws, sealed, (w_db w4). rewrite Hw6. done.
Qed.

Lemma wp_Rotate c srv (Q : go_error + Credential → World → Prop) w :
  (∀ e w', w_db w' = w_db w → Q (inl e) w') →
  (∀ cred kp row ws w', sql_GetServerWorkspace srv (w_db w) = Some ws → allows c ActionServerSetupKeyRotate (key_resource ws) (w_db w) →
     active srv (w_db w) ≠ None → key_stored "server_setup.key.rotate" c srv cred kp row (w_db w) (w_db w') → Q (inr cred) w') →
  wp (Rotate c srv) Q w.
Proof.
  intros He Ha. unfold Rotate. wp_step. apply wp_authorizeServer; [done|]. intros ws w1 Hw1 Hws Hal.
  wp_step. apply wp_new_key; [intros; apply He; congruence|]. intros kp sealed w2 Hw2 Hgen. cbn [fst snd].
  do 2 wp_step. apply wp_within_tx; [intros; apply He; congruence|]. intros w3 Hw3. wp_step. unfold store_Rotate. wp_step.
  apply wp_exec_opt; [done|done|]. intros st row w4 (Hk & Hact & H1 & H2 & H3 & H4)%rotate_spec. wp_step. simpl. wp_step.
  apply wp_audit_Record; [done|]. intros w5 Haud. wp_step. intros w6 Hw6. wp_step.
  replace (w_db w3) with (w_db w) in * by congruence.
  apply (Ha _ kp row ws); [done|done|done|]. exists ws, sealed, (w_db w4). rewrite Hw6. done.
Qed.

(** Revoking and marking the active key. *)
Definition key_touched (action : string) (c : Principal) (srv : string) (res : db_SshManagementKey → option db_SshManagementKey) (d d' : DB) : Prop :=
  ∃ ws r d1, sql_GetServerWorkspace srv d = Some ws ∧ active srv d = Some r ∧ key_changed srv (res r) d d1 ∧
    audited action "ssh_management_key" (sk_ID r) ws (p_UserID c) d1 d'.
Lemma wp_Revoke c srv (Q : go_error + unit → World → Prop) w :
  (∀ e w', w_db w' = w_db w → Q (inl e) w') →
  (∀ ws w', sql_GetServerWorkspace srv (w_db w) = Some ws → allows c ActionServerSetupKeyRevoke (key_resource ws) (w_db w) →
     key_touched "server_setup.key.revoke" c srv (λ _, None) (w_db w) (w_db w') → Q (inr tt) w') →
  wp (Revoke c srv) Q w.
Proof.
  intros He Ha. unfold Revoke. wp_step. apply wp_authorizeServer; [done|]. intros ws w1 Hw1 Hws Hal.
  wp_step. apply wp_within_tx; [intros; apply He; congruence|]. intros w3 Hw3. wp_step. unfold store_Revoke.
  apply wp_exec_opt; [done|done|]. intros st i w4 (Hk & r & Hr & ->)%revoke_spec.
  apply wp_audit_Record; [done|]. intros w5 Haud w6 Hw6. replace (w_db w3) with (w_db w) in * by congruence.
  apply (Ha ws); [done|done|]. exists ws, r, (w_db w4). rewrite Hw6. done.
Qed.
Lemma wp_MarkUsed c srv (Q : go_error + unit → World → Prop) w :
  (∀ e w', w_db w' = w_db w → Q (inl e) w') →
  (∀ ws now w', sql_GetServerWorkspace srv (w_db w) = Some ws → allows c ActionServerSetupRun (key_resource ws) (w_db w) →
     key_touched "server_setup.key.use" c srv (λ r, Some (key_used now r)) (w_db w) (w_db w') → Q (inr tt) w') →
  wp (MarkUsed c srv) Q w.
Proof.
  intros He Ha. unfold MarkUsed. wp_step. apply wp_authorizeServer; [done|]. intros ws w1 Hw1 Hws Hal.
  wp_step. apply wp_within_tx; [intros; apply He; congruence|]. intros w3 Hw3. wp_step. unfold store_MarkUsed.
  apply wp_exec_opt; [done|done|]. intros st i w4 (r & Hr & -> & Hk)%used_spec.
  apply wp_audit_Record; [done|]. intros w5 Haud w6 Hw6. replace (w_db w3) with (w_db w) in * by congruence.
  apply (Ha ws st); [done|done|]. exists ws, r, (w_db w4). rewrite Hw6. done.
Qed.

Lemma wp_recordAudit a tt_ ti ws actor (Q : go_error + unit → World → Prop) w :
  (∀ e w', w_db w' = w_db w → Q (inl e) w') →
  (∀ w', audited a tt_ ti ws actor (w_db w) (w_db w') → Q (inr tt) w') →
  wp (recordAudit a tt_ ti ws actor) Q w.
Proof.
  intros He Ha. unfold recordAudit. apply wp_within_tx; [done|]. intros w0 Hw0. apply wp_audit_Record; [done|].
  intros w1 Haud w2 Hw2. apply Ha. by rewrite Hw2, <- Hw0.
Qed.
Lemma wp_RecordFailedAuth c srv (Q : go_error + unit → World → Prop) w :
  (∀ e w', w_db w' = w_db w → Q (inl e) w') →
  (∀ ws w', sql_GetServerWorkspace srv (w_db w) = Some ws → allows c ActionServerSetupRun (key_resource ws) (w_db w) →
     audited "server_setup.failed_auth" "server" srv ws (p_UserID c) (w_db w) (w_db w') → Q (inr tt) w') →
  wp (RecordFailedAuth c srv) Q w.
Proof.
  intros He Ha. unfold RecordFailedAuth. wp_step. apply wp_authorizeServer; [done|]. intros ws w1 Hw1 Hws Hal.
  wp_step. apply wp_recordAudit; [intros; apply He; congruence|]. intros w2 Haud. apply (Ha ws); [done|done|]. by rewrite <- Hw1.
Qed.
Lemma wp_Get c srv (Q : go_error + Credential → World → Prop) w :
  (∀ e w', w_db w' = w_db w → Q (inl e) w') →
  (∀ ws r w', w_db w' = w_db w → allows c ActionServerSetupKeyRead (key_resource ws) (w_db w) → sql_GetServerWorkspace srv (w_db w) = Some ws →
     sql_GetSSHManagementKey srv (w_db w) = Some r → Q (inr (in_workspace ws (toCredential r))) w') →
  wp (Get c srv) Q w.
Proof.
  intros He Ha. unfold Get. wp_step. apply wp_authorizeServer; [done|]. intros ws w1 Hw1 Hws Hal.
  wp_step. apply wp_found. unfold store_Get. do 2 wp_step; [apply He; congruence|]. wp_step. rewrite Hw1.
  destruct (sql_GetSSHManagementKey srv (w_db w)) as [r|] eqn:Hr; simpl; [|apply He; congruence]. wp_step. apply Ha; [congruence|done|done|done].
Qed.
Lemma wp_OpenPrivateKey c srv (Q : go_error + string → World → Prop) w :
  (∀ e w', w_db w' = w_db w → Q (inl e) w') →
  (∀ ws r plain w', w_db w' = w_db w → allows c ActionServerSetupRun (key_resource ws) (w_db w) → sql_GetServerWorkspace srv (w_db w) = Some ws →
     active srv (w_db w) = Some r → box_Open (sk_SealedPrivateKey r) = inr plain → Q (inr plain) w') →
  wp (OpenPrivateKey c srv) Q w.
Proof.
  intros He Ha. unfold OpenPrivateKey. wp_step. apply wp_authorizeServer; [done|]. intros ws w1 Hw1 Hws Hal.
  wp_step. apply wp_found. unfold GetSealed, sql_GetSealedSSHManagementKey. wp_step; [apply He; congruence|]. rewrite Hw1.
  fold (active srv (w_db w)). destruct (active srv (w_db w)) as [r|] eqn:Hr; simpl; [|apply He; congruence].
  do 2 wp_step. destruct (box_Open _) as [e|plain] eqn:Ho; [apply He; congruence|]. by eapply Ha; [congruence|..].
Qed.
End Operations.

(** ** Requests *)
Inductive KeyRequest :=
  | KProvision (srv : string) | KRotate (srv : string) | KRevoke (srv : string) | KGet (srv : string)
  | KMarkUsed (srv : string) | KFailedAuth (srv : string) | KOpen (srv : string).
#[global] Instance KeyRequest_eq_dec : EqDecision KeyRequest.
Proof. solve_decision. Defined.
Definition key_server (q : KeyRequest) : string :=
  match q with KProvision s | KRotate s | KRevoke s | KGet s | KMarkUsed s | KFailedAuth s | KOpen s => s end.
Definition key_action (q : KeyRequest) : Action :=
  match q with
  | KRotate _ => ActionServerSetupKeyRotate
  | KRevoke _ => ActionServerSetupKeyRevoke
  | KGet _ => ActionServerSetupKeyRead
  | _ => ActionServerSetupRun
  end.

Lemma find_where {X} (p q : X → bool) l : (∀ x, p x = true → q x = true) → List.find p (where_ q l) = List.find p l.
Proof.
  intros H. induction l as [|x l IH]; [done|]. simpl. destruct (q x) eqn:Hq; simpl; [by rewrite IH|].
  destruct (p x) eqn:Hp; [|done]. apply H in Hp. congruence.
Qed.
Lemma changed_other srv srv' res d d' : key_changed srv' res d d' → srv ≠ srv' → active srv d' = active srv d.
Proof.
  intros [_ H _ _] Hne. unfold active. rewrite <- (find_where _ (other srv') (ssh_management_keys d')), H, find_where; [done|..];
    intros x [Hx _]%active_key_spec; apply negb_true_iff, not_true_iff_false; rewrite of_server_spec; congruence.
Qed.
Lemma audited_keys a tt_ ti ws actor d d' : audited a tt_ ti ws actor d d' →
  ssh_management_keys d' = ssh_management_keys d ∧ servers d' = servers d.
Proof. by intros (row & -> & _). Qed.
Lemma active_keys srv d d' : ssh_management_keys d' = ssh_management_keys d → active srv d' = active srv d.
Proof. unfold active. by intros ->. Qed.
Lemma kwf_keys d d' : ssh_management_keys d' = ssh_management_keys d → servers d' = servers d → kwf d → kwf d'.
Proof. unfold kwf. by intros -> ->. Qed.

Section Requests.
Context {E : Env} {A : Authorizer} {S : Sealer} {K : KeyGenerator}.

Definition handle_key (c : Principal) (q : KeyRequest) : M unit :=
  match q with
  | KProvision s => _ ← Provision c s; mret tt
  | KRotate s => _ ← Rotate c s; mret tt
  | KRevoke s => Revoke c s
  | KGet s => _ ← Get c s; mret tt
  | KMarkUsed s => MarkUsed c s
  | KFailedAuth s => RecordFailedAuth c s
  | KOpen s => _ ← OpenPrivateKey c s; mret tt
  end.
Definition key_effect (c : Principal) (q : KeyRequest) (d d' : DB) : Prop :=
  match q with
  | KProvision s => ∃ cred kp row, key_stored "server_setup.key.provision" c s cred kp row d d'
  | KRotate s => active s d ≠ None ∧ ∃ cred kp row, key_stored "server_setup.key.rotate" c s cred kp row d d'
  | KRevoke s => key_touched "server_setup.key.revoke" c s (λ _, None) d d'
  | KMarkUsed s => ∃ now, key_touched "server_setup.key.use" c s (λ r, Some (key_used now r)) d d'
  | KFailedAuth s => ∃ ws, audited "server_setup.failed_auth" "server" s ws (p_UserID c) d d'
  | KGet s => d' = d ∧ ∃ r, sql_GetSSHManagementKey s d = Some r
  | KOpen s => d' = d ∧ ∃ r plain, active s d = Some r ∧ box_Open (sk_SealedPrivateKey r) = inr plain
  end.

Lemma wp_handle_key c q (Q : go_error + unit → World → Prop) w :
  (∀ e w', w_db w' = w_db w → Q (inl e) w') →
  (∀ ws w', sql_GetServerWorkspace (key_server q) (w_db w) = Some ws → allows c (key_action q) (key_resource ws) (w_db w) →
     key_effect c q (w_db w) (w_db w') → Q (inr tt) w') →
  wp (handle_key c q) Q w.
Proof.
  intros He Ha. destruct q as [s|s|s|s|s|s|s]; simpl in *.
  - wp_step. apply wp_Provision; [done|]. intros cred kp row ws w' H1 H2 H3. wp_step. apply (Ha ws); [done|done|]. by exists cred, kp, row.
  - wp_step. apply wp_Rotate; [done|]. intros cred kp row ws w' H1 H2 H3 H4. wp_step. apply (Ha ws); [done|done|].
    split; [done|]. by exists cred, kp, row.
  - apply wp_Revoke; [done|]. intros ws w' H1 H2 H3. by apply (Ha ws).
  - wp_step. apply wp_Get; [done|]. intros ws r w' H1 H2 H3 H4. wp_step. apply (Ha ws); [done|done|]. split; [done|]. by exists r.
  - apply wp_MarkUsed; [done|]. intros ws now w' H1 H2 H3. apply (Ha ws); [done|done|]. by exists now.
  - apply wp_RecordFailedAuth; [done|]. intros ws w' H1 H2 H3. apply (Ha ws); [done|done|]. by exists ws.
  - wp_step. apply wp_OpenPrivateKey; [done|]. intros ws r plain w' H1 H2 H3 H4 H5. wp_step. apply (Ha ws); [done|done|].
    split; [done|]. by exists r, plain.
Qed.

(** What a request leaves active. *)
Lemma effect_active c q srv d d' : key_effect c q d d' → q ≠ KProvision srv → q ≠ KRotate srv → q ≠ KRevoke srv →
  active srv d' = active srv d ∨ ∃ r now, active srv d = Some r ∧ active srv d' = Some (key_used now r).
Proof.
  assert (∀ s res d1 a ti ws, key_changed s res d d1 → audited a "ssh_management_key" ti ws (p_UserID c) d1 d' → srv ≠ s →
    active srv d' = active srv d) as Hother.
  { intros s res d1 a ti ws Hk Haud Hne. apply audited_keys in Haud as [Haud _]. rewrite (active_keys _ _ _ Haud). by eapply changed_other. }
  intros H N1 N2 N3. destruct q as [s|s|s|s|s|s|s]; simpl in H.
  - destruct H as (cred & kp & row & ws & sealed & d1 & _ & _ & _ & _ & _ & Hk & Haud). left. eapply Hother; [done..|congruence].
  - destruct H as (_ & cred & kp & row & ws & sealed & d1 & _ & _ & _ & _ & _ & Hk & Haud). left. eapply Hother; [done..|congruence].
  - destruct H as (ws & r & d1 & _ & _ & Hk & Haud). left. eapply Hother; [done..|congruence].
  - destruct H as [-> _]. by left.
  - destruct H as (now & ws & r & d1 & _ & Hr & Hk & Haud). destruct (decide (srv = s)) as [->|Hne]; [|left; by eapply Hother].
    right. exists r, now. split; [done|]. apply audited_keys in Haud as [Haud _]. rewrite (active_keys _ _ _ Haud). apply Hk.
  - destruct H as (ws & Haud). left. apply audited_keys in Haud as [Haud _]. by apply active_keys.
  - destruct H as [-> _]. by left.
Qed.
Lemma effect_kwf c q d d' : key_effect c q d d' → kwf d → kwf d'.
Proof.
  intros H Hd. destruct q as [s|s|s|s|s|s|s]; simpl in H.
  - destruct H as (cred & kp & row & ws & sealed & d1 & _ & _ & _ & _ & _ & Hk & Haud). apply audited_keys in Haud as [H1 H2].
    eapply kwf_keys; [done|done|]. by eapply kc_wf.
  - destruct H as (_ & cred & kp & row & ws & sealed & d1 & _ & _ & _ & _ & _ & Hk & Haud). apply audited_keys in Haud as [H1 H2].
    eapply kwf_keys; [done|done|]. by eapply kc_wf.
  - destruct H as (ws & r & d1 & _ & _ & Hk & Haud). apply audited_keys in Haud as [H1 H2]. eapply kwf_keys; [done|done|]. by eapply kc_wf.
  - by destruct H as [-> _].
  - destruct H as (now & ws & r & d1 & _ & Hr & Hk & Haud). apply audited_keys in Haud as [H1 H2]. eapply kwf_keys; [done|done|]. by eapply kc_wf.
  - destruct H as (ws & Haud). apply audited_keys in Haud as [H1 H2]. by eapply kwf_keys.
  - by destruct H as [-> _].
Qed.

(** A history of requests on keys. *)
Definition key_history (hs : list (Principal * KeyRequest)) (w : World) : World :=
  foldl (λ w x, snd (handle_key (fst x) (snd x) w)) w hs.
Lemma history_step c q w : w_db (snd (handle_key c q w)) = w_db w ∨ key_effect c q (w_db w) (w_db (snd (handle_key c q w))).
Proof.
  assert (wp (handle_key c q) (λ _ w', w_db w' = w_db w ∨ key_effect c q (w_db w) (w_db w')) w) as H; [|exact H].
  apply wp_handle_key; [by left|]. intros ws w' _ _ He. by right.
Qed.
Lemma history_inv (I : DB → Prop) (P : KeyRequest → Prop) hs w :
  (∀ c q d d', P q → I d → key_effect c q d d' → I d') → Forall (λ x, P (snd x)) hs → I (w_db w) → I (w_db (key_history hs w)).
Proof.
  intros Hstep. revert w. induction hs as [|[c q] hs IH]; intros w HP HI; [done|]. apply Forall_cons in HP as [Hq HP]. simpl.
  apply IH; [done|]. destruct (history_step c q w) as [->|He]; [done|]. by eapply Hstep.
Qed.
End Requests.

(** ** Theorems *)
Section Theorems.
Context {E : Env} {A : Authorizer} {S : Sealer} {K : KeyGenerator}.

(** C16: Every request on a management key keeps the table's invariant (one key per server, of a
    server that exists, within the size limit), changes nothing when it fails, and when it
    succeeds was allowed by the policy in the workspace of the server and did exactly its
    effect on the key of that server, with its one audit row. *)
Theorem key_requests_safe c q w r w' :
  handle_key c q w = (r, w') → kwf (w_db w) →
  kwf (w_db w') ∧ (∀ e, r = inl e → w_db w' = w_db w) ∧
  (r = inr tt → ∃ ws, sql_GetServerWorkspace (key_server q) (w_db w) = Some ws ∧
     allows c (key_action q) (key_resource ws) (w_db w) ∧ key_effect c q (w_db w) (w_db w')).
Proof.
  intros Hrun Hwf. use_wp Hrun. apply wp_handle_key.
  - intros e w1 Hw1 <-. rewrite Hw1. split; [done|]. by split.
  - intros ws w1 Hws Hal He <-. split; [by eapply effect_kwf|]. split; [done|]. intros _. by exists ws.
Qed.

(** Requests that leave the pair of a server in place. *)
Definition keeps_pair (srv : string) (q : KeyRequest) : Prop := q ≠ KProvision srv ∧ q ≠ KRotate srv ∧ q ≠ KRevoke srv.
Definition pair_active (srv : string) (sealed : list Z) (public : string) (d : DB) : Prop :=
  ∃ row, active srv d = Some row ∧ sk_SealedPrivateKey row = sealed ∧ sk_PublicKey row = public.

Lemma pair_stays srv sealed public hs w :
  Forall (λ x, keeps_pair srv (snd x)) hs → pair_active srv sealed public (w_db w) → pair_active srv sealed public (w_db (key_history hs w)).
Proof.
  apply history_inv. intros c q d d' (N1 & N2 & N3) (row & Hrow & Hs & Hp) He.
  destruct (effect_active _ _ srv _ _ He N1 N2 N3) as [Ha|(r & now & Hr & Ha)]; [exists row; by rewrite Ha|].
  exists (key_used now r). split; [done|]. rewrite Hrow in Hr. injection Hr as <-. done.
Qed.

(** Opening the key, once the caller is authorized and the read does not fail. *)
Lemma open_active c srv w ws w1 row plain :
  authorizeServer c srv ActionServerSetupRun w = (inr ws, w1) → w_db w1 = w_db w → fault (w_tick w1) = false →
  active srv (w_db w) = Some row → open_sealed (sk_SealedPrivateKey row) = Some plain →
  fst (OpenPrivateKey c srv w) = inr plain.
Proof.
  intros Ha Hw Hf Hr Ho. unfold OpenPrivateKey, mbind, M_bind. rewrite Ha. unfold found, wrap, on_err, mbind, M_bind, GetSealed, ok_or_norows, db_query_row.
  rewrite Hf, Hw. unfold sql_GetSealedSSHManagementKey. fold (active srv (w_db w)). rewrite Hr. simpl. unfold of_sum, box_Open. by rewrite Ho.
Qed.

(** C14: The key opened later is the private half of the pair whose public line was returned:
    after a provision or a rotation, through any requests that neither replace nor revoke
    the pair, an authorized caller whose read does not fail opens exactly that key. *)
Theorem stored_key_opens c srv (rotate : bool) w cred w' hs :
  opens_sealed → (if rotate then Rotate c srv else Provision c srv) w = (inr cred, w') →
  Forall (λ x, keeps_pair srv (snd x)) hs →
  ∃ n kp, Generate n = inr kp ∧ c_PublicKey cred = kp_AuthorizedKey kp ∧ c_Fingerprint cred = kp_Fingerprint kp ∧
    c_RevokedAt cred = None ∧
    ∀ c2 ws w1, authorizeServer c2 srv ActionServerSetupRun (key_history hs w') = (inr ws, w1) → fault (w_tick w1) = false →
      fst (OpenPrivateKey c2 srv (key_history hs w')) = inr (kp_PrivatePEM kp).
Proof.
  intros Hop Hrun Hhs.
  assert (∃ a kp row, key_stored a c srv cred kp row (w_db w) (w_db w')) as (a & kp & row & ws & sealed & d1 & Hws & (Hg & n' & Hs) & (S1 & S2 & S3) & Hsrv & -> & Hk & Haud).
  { destruct rotate; use_wp Hrun; [apply wp_Rotate|apply wp_Provision]; try (by intros e w1 _ [=]).
    - intros cr kp row ws w1 _ _ _ H [= <-]. eauto.
    - intros cr kp row ws w1 _ _ H [= <-]. eauto. }
  destruct Hg as [n Hg]. exists n, kp. split; [done|]. simpl. split; [done|]. split; [done|].
  apply audited_keys in Haud as [Hkeys _].
  assert (active srv (w_db w') = Some row) as Hact by (rewrite (active_keys _ _ _ Hkeys); apply Hk).
  split; [by apply find_Some_elem in Hact as [_ [_ ?]%active_key_spec]|].
  intros c2 ws2 w1 Hauth Hf.
  destruct (pair_stays srv sealed (kp_AuthorizedKey kp) hs w' Hhs) as (row2 & Hr2 & He & _); [by exists row|].
  assert (w_db w1 = w_db (key_history hs w')) as Hw1.
  { use_wp Hauth. apply wp_authorizeServer; [by intros e w2 _ [=]|]. by intros ws3 w2 Hw2 _ _ _. }
  eapply open_active; [done..|]. rewrite He. by eapply Hop.
Qed.

(** Requests that use the key of a server. *)
Definition uses_key (srv : string) (q : KeyRequest) : Prop := q = KRotate srv ∨ q = KRevoke srv ∨ q = KMarkUsed srv ∨ q = KOpen srv.

(** C15: A revoked key stays unusable: after a revocation, through any requests but a new
    provision of the server, nobody can open, use, rotate or revoke the key, and trying
    changes nothing. *)
Theorem revoked_key_unusable c srv w w' hs :
  Revoke c srv w = (inr tt, w') → Forall (λ x, snd x ≠ KProvision srv) hs →
  ∀ c2 q r w3, uses_key srv q → handle_key c2 q (key_history hs w') = (r, w3) →
    (∃ e, r = inl e) ∧ w_db w3 = w_db (key_history hs w').
Proof.
  intros Hrun Hhs.
  assert (active srv (w_db w') = None) as Hnone.
  { use_wp Hrun. apply wp_Revoke; [by intros e w1 _ [=]|]. intros ws w1 _ _ (ws' & r & d1 & _ & _ & Hk & Haud) _.
    apply audited_keys in Haud as [Hkeys _]. rewrite (active_keys _ _ _ Hkeys). apply Hk. }
  assert (active srv (w_db (key_history hs w')) = None) as Hlater.
  { revert Hhs Hnone. apply (history_inv (λ d, active srv d = None) (λ q, q ≠ KProvision srv)). intros c' q d d' Hq Hd He.
    destruct (decide (q = KRotate srv)) as [->|N2]; [by destruct He as [[] _]|].
    destruct (decide (q = KRevoke srv)) as [->|N3]; [destruct He as (ws & r & d1 & _ & Hr & _); congruence|].
    destruct (effect_active _ _ srv _ _ He Hq N2 N3) as [Ha|(r & now & Hr & _)]; congruence. }
  intros c2 q r w3 Hq Hh. use_wp Hh. apply wp_handle_key; [intros e w1 Hw1 <-; split; [by exists e|done]|].
  intros ws w1 _ _ He _. exfalso.
  destruct Hq as [->|[->|[->| ->]]]; simpl in He.
  - by destruct He as [[] _].
  - destruct He as (ws' & r' & d1 & _ & Hr & _). congruence.
  - destruct He as (now & ws' & r' & d1 & _ & Hr & _). congruence.
  - destruct He as [_ (r' & plain & Hr & _)]. congruence.
Qed.
End Theorems.
