(* ===== verification/SetupRunner.v ===== *)
(** * SetupRunner: the setup of a server over SSH

    bootstrap.go, dialer.go and the asynchronous half of service.go in
    [internal/serversetup], with [internal/app/serversetup_adapter.go].  A run is a
    computation over a [Session]: the control plane's [World] and the trace of what the run
    did.  golang.org/x/crypto/ssh and the network are the class [SSHLibrary], the timeout of
    the run is [RunContext], what the run needs of the agents module is
    [AgentProvisioner]. *)
From S2P Require Import Prelude.
From S2P Require Import GoStrings.
From S2P Require Import Problem.
From S2P Require Import Schema.
From S2P Require Import Platform.
From S2P Require Import Authz.
From S2P Require AgentRegistry.
From S2P Require AgentRegistryProps.
From S2P Require Import ServerSetup.
From S2P Require Import DeployStore.

(** ** Data *)
Record ExecResult := mk_ExecResult { x_Stdout : string; x_Stderr : string; x_ExitCode : Z }.
Record DialTarget := mk_DialTarget {
  dt_Host : string; dt_Port : Z; dt_Username : string; dt_Password : string; dt_PrivateKey : string;
  dt_PrivateKeyPassphrase : string; dt_PinnedHostKeyFingerprint : string;
}.
(** The errors of a dial, up to [errors.Is]. *)
Inductive DialError := ErrHostKeyMismatch | ErrAuth | ErrDial (text : string).

(** What a run does, in order. *)
Inductive Ev :=
  | EvDial (target : DialTarget)
  | EvRun (command : string) (result : go_error + ExecResult)
  | EvEmit (step kind status message : string)
  | EvAudit (action : string)
  | EvSleep (d : Z).
Record Session := mk_Session { s_world : World; s_trace : list Ev }.
Definition R (X : Type) : Type := Session → X * Session.
#[global] Instance R_ret : MRet R := λ X x s, (x, s).
#[global] Instance R_bind : MBind R := λ X Y k m s, let '(x, s') := m s in k x s'.

Definition note (e : Ev) : R unit := λ s, (tt, mk_Session (s_world s) (s_trace s ++ [e])).
(** A call of the control plane; its error is a value. *)
Definition lift {X} (m : M X) : R (go_error + X) := λ s,
  let '(r, w) := m (s_world s) in (r, mk_Session w (s_trace s)).
(** An answer of the outside. *)
Definition outside {X} (f : nat → X) : R X := λ s,
  (f (w_tick (s_world s)), mk_Session (tick (s_world s)) (s_trace s)).

(** ** Dialing (dialer.go) *)
Inductive AuthMethod := PublicKeys (pem : string) (passphrase : option string) | Password (p : string).
Inductive SessionResult :=
  | Finished (stdout stderr : string)
  | Exited (stdout stderr : string) (status : Z)
  | Broken (e : go_error)
  | ContextDone (e : go_error).

(** The library: whether a private key parses, the connection, the fingerprint the host
    presents, the authentication, and a session on an established connection. *)
Class SSHLibrary := {
  ParsePrivateKey : string → option string → bool;
  net_Dial : nat → string → option string;
  presented_key : nat → string → option string;
  authenticate : nat → string → AuthMethod → option string;
  NewSession : nat → option go_error;
  session_Run : nat → string → SessionResult;
}.
Class RunContext := { ctx_Err : nat → bool }.

(** [net.JoinHostPort] *)
Definition JoinHostPort (host port : string) : string :=
  if has_byte ":" host then "[" +:+ host +:+ "]:" +:+ port else host +:+ ":" +:+ port.
Definition isAuthError (text : string) : bool := Contains text "unable to authenticate".
(** The [HostKeyCallback]: trust on first use. *)
Definition host_key_accepted (pinned fingerprint : string) : bool :=
  String.eqb pinned "" || String.eqb fingerprint pinned.

Section Dialer.
Context {L : SSHLibrary}.

Definition authMethods (t : DialTarget) : DialError + AuthMethod :=
  if negb (String.eqb (dt_PrivateKey t) "") then
    let passphrase := if String.eqb (dt_PrivateKeyPassphrase t) "" then None else Some (dt_PrivateKeyPassphrase t) in
    if ParsePrivateKey (dt_PrivateKey t) passphrase then inr (PublicKeys (dt_PrivateKey t) passphrase) else inl ErrAuth
  else if negb (String.eqb (dt_Password t) "") then inr (Password (dt_Password t))
  else inl ErrAuth.

Definition Dial (n : nat) (t : DialTarget) : DialError + string :=
  match authMethods t with
  | inl e => inl e
  | inr auth =>
      let port := if dt_Port t =? 0 then 22 else dt_Port t in
      let addr := JoinHostPort (dt_Host t) (Itoa port) in
      match net_Dial n addr with
      | Some text => inl (ErrDial text)
      | None =>
          match presented_key n addr with
          | None => inl (ErrDial "ssh: handshake failed")
          | Some fingerprint =>
              if negb (host_key_accepted (dt_PinnedHostKeyFingerprint t) fingerprint) then inl ErrHostKeyMismatch
              else match authenticate n (dt_Username t) auth with
                   | Some text => if isAuthError text then inl ErrAuth else inl (ErrDial text)
                   | None => inr fingerprint
                   end
          end
      end
  end.

(** [sshSession.Run]: a non-zero exit is a result, anything else an error. *)
Definition ssh_Run (n : nat) (cmd : string) : go_error + ExecResult :=
  match NewSession n with
  | Some e => inl e
  | None =>
      match session_Run n cmd with
      | Finished out err => inr (mk_ExecResult out err 0)
      | Exited out err status => inr (mk_ExecResult out err status)
      | Broken e | ContextDone e => inl e
      end
  end.
End Dialer.

(** ** The agents module (serversetup_adapter.go) *)

(** What minting wrote: one token of the server and one audit row. *)
Definition token_rows (srv : string) (d d' : DB) : Prop :=
  ∃ t au, rt_ServerID t = srv ∧
    d' = set_audit_events (audit_events d ++ [au]) (set_registration_tokens (registration_tokens d ++ [t]) d).
Class AgentProvisioner {E : Env} := {
  agents_RegistrationToken : Principal → string → M string;
  agents_AgentOnline : Principal → string → string → M bool;
  (** When an agent of a server counts as online. *)
  agent_online : string → string → DB → Prop;
  wp_RegistrationToken : ∀ c srv (Q : go_error + string → World → Prop) w,
    (∀ e w', w_db w' = w_db w → Q (inl e) w') →
    (∀ t w', token_rows srv (w_db w) (w_db w') → Q (inr t) w') → wp (agents_RegistrationToken c srv) Q w;
  wp_AgentOnline : ∀ c ws srv (Q : go_error + bool → World → Prop) w,
    (∀ e w', w_db w' = w_db w → Q (inl e) w') →
    (∀ b w', w_db w' = w_db w → (b = true → agent_online ws srv (w_db w)) → Q (inr b) w') →
    wp (agents_AgentOnline c ws srv) Q w;
}.

(** ** The steps (bootstrap.go) *)
Definition installerURL : string := "https://raw.githubusercontent.com/Plorigo/plorigo/main/scripts/install-agent.sh".
Definition newline : string := String "010" "".
Definition plorigoSudoers : string :=
  "plorigo ALL=(root) NOPASSWD: " +:+
  "/usr/bin/systemctl restart plorigo-agent.service, " +:+
  "/usr/bin/systemctl start plorigo-agent.service, " +:+
  "/usr/bin/systemctl stop plorigo-agent.service, " +:+
  "/usr/bin/systemctl status plorigo-agent.service, " +:+
  "/usr/bin/systemctl restart docker.service, " +:+
  "/usr/bin/systemctl status docker.service" +:+ newline.

(** [shellQuote]: an apostrophe closes the quotes, is escaped, and opens them again. *)
Definition apostrophe : ascii := "'".
Definition quote_byte (c : ascii) : bytes :=
  if Ascii.eqb c apostrophe then [apostrophe; chr 92; apostrophe; apostrophe] else [c].
Definition shellQuote (s : string) : string :=
  str_of ([apostrophe] ++ flat_map quote_byte (bytes_of s) ++ [apostrophe]).

Definition is_quote (c : ascii) : bool := is_code 34 c || is_code 39 c.
Definition unquote (s : string) : string := str_of (trim_bytes is_quote (bytes_of s)).
Fixpoint release_field (key : string) (lines : list string) : string :=
  match lines with
  | [] => ""
  | ln :: rest =>
      let ln := TrimSpace ln in
      if HasPrefix ln (key +:+ "=") then unquote (TrimPrefix ln (key +:+ "=")) else release_field key rest
  end.
Definition osReleaseField (content key : string) : string := release_field key (Split content "010").
Definition setup_dockerMajor (v : string) : Z := default 0 (Atoi (TrimSpace (hd "" (Split v ".")))).

(** The last 80 lines that are not blank. *)
Definition TrimRight_cr (s : string) : string := str_of (rev (drop_while (is_code 13) (rev (bytes_of s)))).
Definition output_lines (output : string) : list string :=
  let lines := List.filter (λ ln, negb (String.eqb (TrimSpace ln) "")) (map TrimRight_cr (Split output "010")) in
  skipn (length lines - 80) lines.

(** *** The commands *)
Definition cmd_os_release : string := "cat /etc/os-release".
Definition cmd_uid : string := "id -u".
Definition cmd_sudo : string := "sudo -n true".
Definition cmd_lock : string :=
  "if sudo fuser /var/lib/dpkg/lock-frontend /var/lib/dpkg/lock /var/lib/apt/lists/lock >/dev/null 2>&1; then echo LOCKED; else echo FREE; fi".
Definition cmd_ports : string := "ss -ltnH 2>/dev/null | awk '{print $4}' | grep -E '(:80|:443)$' || true".
Definition cmd_docker : string := "docker version --format '{{.Server.Version}}' 2>/dev/null || true".
Definition cmd_ufw : string := "sudo ufw status 2>/dev/null | head -1".
Definition cmd_ufw_allow : string :=
  "sudo ufw allow OpenSSH >/dev/null 2>&1; sudo ufw allow 80/tcp >/dev/null 2>&1; sudo ufw allow 443/tcp >/dev/null 2>&1; true".
Definition cmd_install (controlPlaneURL token : string) : string :=
  "curl -fsSL " +:+ installerURL +:+ " | sudo sh -s -- --control-plane " +:+ shellQuote controlPlaneURL +:+
  " --token " +:+ shellQuote token.
Definition cmd_useradd : string :=
  "id -u plorigo >/dev/null 2>&1 || sudo useradd --create-home --shell /bin/bash --comment 'Plorigo management' plorigo".
Definition cmd_ssh_dir : string := "sudo install -d -m 700 -o plorigo -g plorigo /home/plorigo/.ssh".
Definition cmd_install_key (pub : string) : string :=
  "printf '%s\n' " +:+ shellQuote pub +:+
  " | sudo tee /home/plorigo/.ssh/authorized_keys >/dev/null && sudo chmod 600 /home/plorigo/.ssh/authorized_keys && sudo chown plorigo:plorigo /home/plorigo/.ssh/authorized_keys".
Definition cmd_sudoers : string :=
  "printf '%s' " +:+ shellQuote plorigoSudoers +:+
  " | sudo tee /etc/sudoers.d/plorigo >/dev/null && sudo chmod 440 /etc/sudoers.d/plorigo && sudo visudo -cf /etc/sudoers.d/plorigo".
Definition cmd_sudoers_remove : string := "sudo rm -f /etc/sudoers.d/plorigo".

(** *** The runner *)
Record Runner := mk_Runner {
  rn_caller : Principal; rn_setupRunID : string; rn_workspaceID : string; rn_serverID : string;
  rn_controlPlaneURL : string; rn_heartbeatAttempts : nat; rn_heartbeatDelay : Z;
}.
Definition lost : string := "lost the SSH connection to the server while preparing it.".
Definition canceled : string := "setup was canceled".

Section Run.
Context {E : Env} {A : Authorizer} {B : Sealer} {K : KeyGenerator} {L : SSHLibrary} {C : RunContext} {P : AgentProvisioner}.
Context (r : Runner).

(** A failed append is logged and forgotten. *)
Definition emit (step kind status message : string) : R unit :=
  _ ← note (EvEmit step kind status message);
  _ ← lift (AppendSetupEvent (mk_NewSetupEvent (rn_setupRunID r) step kind status message));
  mret tt.
Definition log (step message : string) : R unit := emit step "log" "" message.
Definition audit (action : string) : R unit :=
  _ ← note (EvAudit action);
  _ ← lift (recordAudit action "server_setup_run" (rn_setupRunID r) (rn_workspaceID r) (p_UserID (rn_caller r)));
  mret tt.

(** [cmd] *)
Definition exec (c : string) : R (option ExecResult) :=
  res ← outside (λ n, ssh_Run n c);
  _ ← note (EvRun c res);
  mret (match res with inl _ => None | inr x => Some x end).
(** A command whose loss ends the step. *)
Definition with_result (c : string) (k : ExecResult → R string) : R string :=
  res ← exec c;
  match res with None => mret lost | Some x => k x end.
(** A command whose loss is ignored. *)
Definition best_effort (c : string) : R ExecResult :=
  res ← exec c; mret (default (mk_ExecResult "" "" 0) res).
(** A part of a step: the rest runs when it gave no reason to stop. *)
Definition and_then (m k : R string) : R string :=
  reason ← m; if String.eqb reason "" then k else mret reason.
Definition must (c failMsg : string) : R string :=
  with_result c (λ res, mret (if x_ExitCode res =? 0 then "" else failMsg)).

Fixpoint emit_lines (step : string) (lines : list string) : R unit :=
  match lines with
  | [] => mret tt
  | ln :: rest => _ ← log step ln; emit_lines step rest
  end.
Definition emitOutput (step output : string) : R unit := emit_lines step (output_lines output).

Definition detectOS : R string :=
  with_result cmd_os_release (λ res,
    if negb (x_ExitCode res =? 0) then mret "could not read /etc/os-release on the server; is this a Linux host?"
    else
      let id := osReleaseField (x_Stdout res) "ID" in
      let ver := osReleaseField (x_Stdout res) "VERSION_ID" in
      if negb (String.eqb id "ubuntu") || negb (String.eqb ver "22.04") && negb (String.eqb ver "24.04") then
        let pretty := osReleaseField (x_Stdout res) "PRETTY_NAME" in
        let pretty := if String.eqb pretty "" then TrimSpace (id +:+ " " +:+ ver) else pretty in
        mret ("unsupported operating system: " +:+ pretty +:+ ". Plorigo supports Ubuntu 22.04 and 24.04 LTS.")
      else
        _ ← log "detect_os" ("Detected Ubuntu " +:+ ver +:+ " LTS.");
        mret "").

Definition checkPrivilege : R string :=
  with_result cmd_uid (λ res,
    if String.eqb (TrimSpace (x_Stdout res)) "0" then
      _ ← log "check_privilege" "Connected as root."; mret ""
    else
      with_result cmd_sudo (λ res2,
        if negb (x_ExitCode res2 =? 0) then
          mret "the bootstrap user must be root or have passwordless sudo. Reconnect as root, or grant the user NOPASSWD sudo, and retry."
        else _ ← log "check_privilege" "Passwordless sudo confirmed."; mret "")).

Definition docker_message (v : string) : string :=
  if String.eqb v "" then "Docker is not installed; the installer will add it."
  else if (0 <? setup_dockerMajor v) && (setup_dockerMajor v <? 20)
  then "Docker " +:+ v +:+ " is old; the installer will upgrade it."
  else "Docker " +:+ v +:+ " is already installed.".
(** The firewall, last; what the allows answer is ignored. *)
Definition check_ufw : R string :=
  ufw ← best_effort cmd_ufw;
  if Contains (x_Stdout ufw) "Status: active" then
    _ ← log "preflight" "UFW firewall is active; allowing SSH, 80, and 443.";
    _ ← best_effort cmd_ufw_allow;
    mret ""
  else mret "".
Definition preflight : R string :=
  with_result cmd_lock (λ res,
    if Contains (x_Stdout res) "LOCKED" then
      mret "another process holds the apt/dpkg lock (often unattended-upgrades). Wait for it to finish and retry."
    else
      with_result cmd_ports (λ res,
        if negb (String.eqb (TrimSpace (x_Stdout res)) "") then
          mret "ports 80 and/or 443 are already in use. Plorigo's reverse proxy needs them free — stop the process using them and retry."
        else
          docker ← best_effort cmd_docker;
          _ ← log "preflight" (docker_message (TrimSpace (x_Stdout docker)));
          check_ufw)).

Definition installPrereqs : R string :=
  token ← lift (agents_RegistrationToken (rn_caller r) (rn_serverID r));
  match token with
  | inl _ => mret "could not mint an agent registration token."
  | inr token =>
      _ ← log "install_prereqs" "Installing prerequisites (Docker, Caddy) and the Plorigo agent…";
      with_result (cmd_install (rn_controlPlaneURL r) token) (λ res,
        _ ← emitOutput "install_prereqs" (x_Stdout res);
        if negb (x_ExitCode res =? 0) then
          _ ← emitOutput "install_prereqs" (x_Stderr res);
          mret "the installer failed to prepare the server. See the log lines above for the failing step."
        else
          _ ← audit "server_setup.prereq_change";
          _ ← log "install_prereqs" "Prerequisites installed and the agent service started.";
          mret "")
  end.

Definition provisionUser : R string :=
  cred ← lift (Provision (rn_caller r) (rn_serverID r));
  match cred with
  | inl _ => mret "could not provision the management credential."
  | inr cred =>
      and_then (must cmd_useradd "could not create the plorigo management user.")
      (and_then (must cmd_ssh_dir "could not prepare the plorigo SSH directory.")
      (and_then (must (cmd_install_key (c_PublicKey cred)) "could not install the management public key.")
      (with_result cmd_sudoers (λ res,
         if negb (x_ExitCode res =? 0) then
           _ ← best_effort cmd_sudoers_remove;
           mret "failed to install a valid scoped sudo policy for the plorigo user."
         else
           _ ← log "provision_user" "Management user 'plorigo' created with a key-only login and scoped sudo.";
           mret ""))))
  end.

Fixpoint await_loop (turns : nat) : R string :=
  match turns with
  | 0%nat => mret "the agent did not connect in time. Check the server can reach the control plane and that plorigo-agent.service is running, then retry."
  | S turns =>
      stopped ← outside ctx_Err;
      if stopped : bool then mret "setup was canceled while waiting for the agent."
      else
        online ← lift (agents_AgentOnline (rn_caller r) (rn_workspaceID r) (rn_serverID r));
        match online with
        | inr true => _ ← log "await_agent" "The agent connected and is online."; mret ""
        | _ =>
            _ ← match turns with 0%nat => mret tt | S _ => note (EvSleep (rn_heartbeatDelay r)) end;
            await_loop turns
        end
  end.
Definition awaitAgent : R string := await_loop (rn_heartbeatAttempts r).

Definition steps : list (string * R string) :=
  [("detect_os", detectOS); ("check_privilege", checkPrivilege); ("preflight", preflight);
   ("install_prereqs", installPrereqs); ("provision_user", provisionUser); ("await_agent", awaitAgent)].
Fixpoint run_steps (l : list (string * R string)) : R string :=
  match l with
  | [] => mret ""
  | (name, fn) :: rest =>
      stopped ← outside ctx_Err;
      if stopped : bool then _ ← emit name "status" "failed" canceled; mret canceled
      else
        _ ← emit name "status" "started" "";
        reason ← fn;
        if negb (String.eqb reason "") then _ ← emit name "status" "failed" reason; mret reason
        else _ ← emit name "status" "ok" ""; run_steps rest
  end.
Definition Run : R string := run_steps steps.

(** ** The run (service.go) *)
Definition connectReason (e : DialError) : string :=
  match e with
  | ErrHostKeyMismatch =>
      "the server's host key changed since it was first pinned — refusing to connect. If you rebuilt the server, revoke its access and retry to re-pin."
  | ErrAuth => "authentication failed. Check the username and the password or private key, then retry."
  | ErrDial _ => "could not connect to the server over SSH. Check the host, port, and that the machine is reachable, then retry."
  end.

Definition finishRun (status reason : string) : R unit :=
  _ ← lift (SetSetupRunStatus (rn_setupRunID r) status reason);
  audit (if String.eqb status "failed" then "server_setup.run.failed" else "server_setup.run.succeeded").

Definition dial_target (i : StartSetupInput) (pinned : string) : DialTarget :=
  mk_DialTarget (ss_Host i) (ss_Port i) (ss_Username i) (ba_Password (ss_Auth i)) (ba_PrivateKey (ss_Auth i))
    (ba_PrivateKeyPassphrase (ss_Auth i)) pinned.

(** [runSetup]; a failed read of the pin is an empty pin. *)
Definition runSetup (i : StartSetupInput) : R unit :=
  _ ← lift (SetSetupRunStatus (rn_setupRunID r) "running" "");
  _ ← emit "connect" "status" "started" "Connecting to the server over SSH…";
  pin ← lift (HostKeyFingerprint (rn_serverID r));
  let pinned := match pin with inr (Some fp) => fp | _ => "" end in
  _ ← note (EvDial (dial_target i pinned));
  conn ← outside (λ n, Dial n (dial_target i pinned));
  match conn with
  | inl e =>
      let reason := connectReason e in
      _ ← match e with
          | ErrAuth =>
              _ ← note (EvAudit "server_setup.failed_auth");
              _ ← lift (recordAudit "server_setup.failed_auth" "server" (rn_serverID r) (rn_workspaceID r) (p_UserID (rn_caller r)));
              mret tt
          | _ => mret tt
          end;
      _ ← emit "connect" "status" "failed" reason;
      finishRun "failed" reason
  | inr fingerprint =>
      _ ← (if String.eqb pinned "" then
             _ ← lift (SetHostKeyFingerprint (rn_serverID r) fingerprint);
             log "connect" ("Pinned the server's host key: " +:+ fingerprint)
           else mret tt);
      _ ← emit "connect" "status" "ok" ("Connected. Host key " +:+ fingerprint +:+ ".");
      reason ← Run;
      if negb (String.eqb reason "") then finishRun "failed" reason else finishRun "succeeded" ""
  end.
End Run.

(** The defaults of [newService]. *)
Definition default_attempts : nat := 40.
Definition default_delay : Z := 3 * time_Second.
Definition runner_of (caller : Principal) (controlPlaneURL : string) (run : SetupRun) (i : StartSetupInput) : Runner :=
  mk_Runner caller (r_ID run) (r_WorkspaceID run) (ss_ServerID i) controlPlaneURL default_attempts default_delay.

(** [StartSetup] with the run it dispatches, the run taken after the answer. *)
Definition start_and_run {E : Env} {A : Authorizer} {B : Sealer} {K : KeyGenerator} {L : SSHLibrary} {C : RunContext} {P : AgentProvisioner}
    (caller : Principal) (controlPlaneURL : string) (i : StartSetupInput) : R (go_error + SetupRun) :=
  run ← lift (StartSetup caller i);
  match run with
  | inl e => mret (inl e)
  | inr run => _ ← runSetup (runner_of caller controlPlaneURL run i) i; mret (inr run)
  end.

(** ** The adapter over the agents module *)
Section Adapter.
Context {E : Env} {A : Authorizer} {N : Entropy}.

Definition adapter_RegistrationToken (caller : Principal) (serverID : string) : M string :=
  tok ← AgentRegistry.CreateRegistrationToken caller serverID;
  mret (AgentRegistry.tok_Raw tok).
(** The first agent of the server decides. *)
Definition adapter_AgentOnline (caller : Principal) (workspaceID serverID : string) : M bool :=
  l ← AgentRegistry.ListByWorkspace caller workspaceID;
  now ← time_now;
  mret (match List.find (λ a, String.eqb (AgentRegistry.a_ServerID a) serverID) l with
        | Some a => String.eqb (AgentRegistry.Status a now) AgentRegistry.StatusOnline
        | None => false
        end).
End Adapter.

(** An agent of the server was heard from within the online window. *)
Definition online_agent {E : Env} (ws srv : string) (d : DB) : Prop :=
  ∃ row seen n, row ∈ AgentRegistry.sql_ListAgentsByWorkspace ws d ∧ ag_ServerID row = srv ∧ ag_LastSeenAt row = Some seen ∧
    now_at n - seen ≤ AgentRegistry.onlineWindow.

Section Instance_.
Context {E : Env} {A : Authorizer} {N : Entropy}.

Lemma wp_adapter_Token c srv (Q : go_error + string → World → Prop) w :
  (∀ e w', w_db w' = w_db w → Q (inl e) w') →
  (∀ t w', token_rows srv (w_db w) (w_db w') → Q (inr t) w') → wp (adapter_RegistrationToken c srv) Q w.
Proof.
  intros He Ha. unfold adapter_RegistrationToken. wp_step. apply AgentRegistryProps.wp_CreateRegistrationToken; [done|].
  intros tok w' (t & ws & d1 & _ & _ & _ & Ht & _ & _ & _ & _ & (_ & _ & ->) & (au & Hd & _)) _ _. apply wp_ret, Ha. exists t, au. by rewrite Hd.
Qed.
Lemma wp_adapter_Online c ws srv (Q : go_error + bool → World → Prop) w :
  (∀ e w', w_db w' = w_db w → Q (inl e) w') →
  (∀ b w', w_db w' = w_db w → (b = true → online_agent ws srv (w_db w)) → Q (inr b) w') →
  wp (adapter_AgentOnline c ws srv) Q w.
Proof.
  intros He Ha. unfold adapter_AgentOnline, AgentRegistry.ListByWorkspace, AgentRegistry.store_ListByWorkspace.
  do 3 wp_step; [|by apply He]. wp_step. apply wp_Authorize; [done|]. intros w1 Hw1 _.
  wp_step; [apply He; congruence|]. wp_step. apply wp_time_now_at. intros n w3 Hw3. apply wp_ret, Ha; [congruence|].
  destruct (List.find _ _) as [a|] eqn:Hf; [|done]. intros Hon. apply find_Some_elem in Hf as [Hin Hs%String.eqb_eq].
  apply list_elem_of_fmap in Hin as (row & -> & Hin). rewrite Hw1 in Hin. unfold AgentRegistry.Status in Hon. simpl in Hon, Hs.
  destruct (ag_LastSeenAt row) as [seen|] eqn:Hseen; [|by vm_compute in Hon].
  destruct (now_at n - seen <=? AgentRegistry.onlineWindow) eqn:Hw; [|by vm_compute in Hon].
  exists row, seen, n. split; [done|]. split; [done|]. split; [done|]. lia.
Qed.
#[export] Instance registry_provisioner : AgentProvisioner := {|
  agents_RegistrationToken := adapter_RegistrationToken;
  agents_AgentOnline := adapter_AgentOnline;
  agent_online := online_agent;
  wp_RegistrationToken := wp_adapter_Token;
  wp_AgentOnline := wp_adapter_Online;
|}.
End Instance_.
