(* ===== verification/SetupProps.v ===== *)
(** * SetupProps: what a setup run does to a server and to the database

    The rules of the run's monad, the frame of a run ([touched]), the texts it publishes
    ([public]), what a run that reports success did ([set_up]), and the host key. *)
From S2P Require Import Prelude.
From S2P Require Import GoStrings.
From S2P Require Import Problem.
From S2P Require Import Schema.
From S2P Require Import Platform.
From S2P Require Import Authz.
From S2P Require Import DeployStore.
From S2P Require Import ServerSetup.
From S2P Require Import ServerSetupProps.
From S2P Require Import SetupRunner.

(** ** Rules *)
Definition rp {X} (m : R X) (Q : X → Session → Prop) (s : Session) : Prop := Q (fst (m s)) (snd (m s)).

Lemma rp_ret {X} (x : X) (Q : X → Session → Prop) s : Q x s → rp (mret x) Q s.
Proof. done. Qed.
Lemma rp_bind {X Y} (m : R X) (k : X → R Y) Q s : rp m (λ x s', rp (k x) Q s') s → rp (m ≫= k) Q s.
Proof. unfold rp, mbind, R_bind. by destruct (m s). Qed.
Lemma rp_mono {X} (m : R X) (Q Q' : X → Session → Prop) s : (∀ x s', Q x s' → Q' x s') → rp m Q s → rp m Q' s.
Proof. unfold rp. auto. Qed.
Lemma rp_run {X} (m : R X) Q s x s' : rp m Q s → m s = (x, s') → Q x s'.
Proof. unfold rp. intros H Hm. by rewrite Hm in H. Qed.
Lemma rp_note e Q s : Q tt (mk_Session (s_world s) (s_trace s ++ [e])) → rp (note e) Q s.
Proof. done. Qed.
Lemma rp_lift {X} (m : M X) Q s : wp m (λ r w', Q r (mk_Session w' (s_trace s))) (s_world s) → rp (lift m) Q s.
Proof. unfold rp, lift, wp. by destruct (m (s_world s)). Qed.
Lemma rp_outside {X} (f : nat → X) Q s :
  (∀ n w', w_db w' = w_db (s_world s) → Q (f n) (mk_Session w' (s_trace s))) → rp (outside f) Q s.
Proof. intros H. by apply H. Qed.

(** ** The frame *)
Definition unpinned (r : db_Server) : db_Server := with_host_key "" r.
Definition elsewhere (srv : string) (l : list db_Server) : list db_Server := where_ (λ r, negb (String.eqb (srv_ID r) srv)) l.
(** The rows a run may write: the key of its server, the host key of its server, tokens of
    its server, its own row, its own events, audit rows. *)
Record touched (srv run : string) (d d' : DB) : Prop := {
  to_only : d' = set_servers (servers d') (set_ssh_management_keys (ssh_management_keys d') (set_registration_tokens (registration_tokens d')
    (set_server_setup_runs (server_setup_runs d') (set_server_setup_events (server_setup_events d') (set_audit_events (audit_events d') d)))));
  to_servers : map unpinned (servers d') = map unpinned (servers d) ∧ elsewhere srv (servers d') = elsewhere srv (servers d);
  to_keys : where_ (other srv) (ssh_management_keys d') = where_ (other srv) (ssh_management_keys d);
  to_tokens : ∃ l, registration_tokens d' = registration_tokens d ++ l ∧ Forall (λ t, rt_ServerID t = srv) l;
  to_runs : where_ (λ r, negb (String.eqb (sru_ID r) run)) (server_setup_runs d') = where_ (λ r, negb (String.eqb (sru_ID r) run)) (server_setup_runs d) ∧
            map sru_ID (server_setup_runs d') = map sru_ID (server_setup_runs d);
  to_events : ∃ l, server_setup_events d' = server_setup_events d ++ l ∧ Forall (λ e, se_SetupRunID e = run) l;
  to_audit : ∃ l, audit_events d' = audit_events d ++ l;
  to_wf : kwf d → kwf d';
}.
Ltac framed := split; simpl; try done; try (by exists []; rewrite app_nil_r); try (by match goal with d : DB |- _ => destruct d end).
#[global] Instance touched_refl srv run : Reflexive (touched srv run).
Proof.
  intros d. framed.
Qed.
#[global] Instance touched_trans srv run : Transitive (touched srv run).
Proof.
  intros d1 d2 d3 [A1 [A2 A2'] A3 (A4 & E4 & F4) [A5 A5'] (A6 & E6 & F6) (A7 & E7) A8] [B1 [B2 B2'] B3 (B4 & G4 & H4) [B5 B5'] (B6 & G6 & H6) (B7 & G7) B8].
  split.
  - rewrite B1 at 1. rewrite A1 at 1. done.
  - split; congruence.
  - congruence.
  - exists (A4 ++ B4). rewrite G4, E4. split; [by rewrite app_assoc|by apply Forall_app].
  - split; congruence.
  - exists (A6 ++ B6). rewrite G6, E6. split; [by rewrite app_assoc|by apply Forall_app].
  - exists (A7 ++ B7). rewrite G7, E7. by rewrite app_assoc.
  - auto.
Qed.

Lemma touched_audited srv run a tt_ ti ws actor d d' : audited a tt_ ti ws actor d d' → touched srv run d d'.
Proof. intros (row & -> & _). framed. by exists [row]. Qed.
Lemma touched_key srv run res d d' : key_changed srv res d d' → touched srv run d d'.
Proof. intros [H1 H2 _ H4]. rewrite H1 in *. simpl in *. framed. Qed.
Lemma touched_token srv run d d' : token_rows srv d d' → touched srv run d d'.
Proof.
  intros (t & au & Ht & ->). framed.
  - exists [t]. split; [done|by apply Forall_singleton].
  - by exists [au].
Qed.

Lemma touched_status srv run status reason st d row d' :
  sql_SetServerSetupRunStatus run status reason st d = inr (row, d') → touched srv run d d'.
Proof.
  unfold sql_SetServerSetupRunStatus. destruct (lookup_by _ _ _); [|done]. destruct (existsb _ _); [|done]. intros [= _ <-]. framed. split.
  - apply where_update_disjoint. intros r _ Hr. simpl. by rewrite Hr.
  - by apply map_update_where.
Qed.
Lemma touched_event srv run step kind status m st d row d' :
  sql_AppendServerSetupEvent (mk_NewSetupEvent run step kind status m) st d = inr (row, d') →
  touched srv run d d' ∧ d' = set_server_setup_events (server_setup_events d ++ [row]) d ∧
  se_Step row = step ∧ se_Kind row = kind ∧ se_Status row = status ∧ se_Message row = m.
Proof.
  unfold sql_AppendServerSetupEvent. destruct (has_key se_ID _ _); [intros [=]|]. destruct (negb _); [intros [=]|]. intros [= <- <-].
  split; [|done]. framed. exists [event_row (mk_NewSetupEvent run step kind status m) st]. split; [done|by apply Forall_singleton].
Qed.
Lemma touched_pin srv run fp st d u d' : sql_SetServerHostKeyFingerprint srv fp st d = inr (u, d') → touched srv run d d'.
Proof.
  intros [= _ <-]. framed.
  - split; [by apply map_update_where|]. apply where_update_disjoint. intros r _ Hr. simpl. by rewrite Hr.
  - intros [H1 H2]. split; [done|]. eapply Forall_impl; [exact H2|]. intros k (Hk & H). split; [|done]. simpl.
    apply has_key_true in Hk as (r & Hr & Hid). apply has_key_true. exists (if String.eqb (srv_ID r) srv then with_host_key fp r else r).
    split; [apply elem_of_update_where; by exists r|]. by destruct (String.eqb _ _).
Qed.

(** ** What a run may publish *)
Section Texts.
Context {L : SSHLibrary}.

(** The fixed texts. *)
Definition messages : list string :=
  [""; lost; canceled;
   "Connecting to the server over SSH…";
   "could not read /etc/os-release on the server; is this a Linux host?";
   "Connected as root.";
   "the bootstrap user must be root or have passwordless sudo. Reconnect as root, or grant the user NOPASSWD sudo, and retry.";
   "Passwordless sudo confirmed.";
   "another process holds the apt/dpkg lock (often unattended-upgrades). Wait for it to finish and retry.";
   "ports 80 and/or 443 are already in use. Plorigo's reverse proxy needs them free — stop the process using them and retry.";
   "Docker is not installed; the installer will add it.";
   "UFW firewall is active; allowing SSH, 80, and 443.";
   "could not mint an agent registration token.";
   "Installing prerequisites (Docker, Caddy) and the Plorigo agent…";
   "the installer failed to prepare the server. See the log lines above for the failing step.";
   "Prerequisites installed and the agent service started.";
   "could not provision the management credential.";
   "could not create the plorigo management user.";
   "could not prepare the plorigo SSH directory.";
   "could not install the management public key.";
   "failed to install a valid scoped sudo policy for the plorigo user.";
   "Management user 'plorigo' created with a key-only login and scoped sudo.";
   "setup was canceled while waiting for the agent.";
   "The agent connected and is online.";
   "the agent did not connect in time. Check the server can reach the control plane and that plorigo-agent.service is running, then retry.";
   "the server's host key changed since it was first pinned — refusing to connect. If you rebuilt the server, revoke its access and retry to re-pin.";
   "authentication failed. Check the username and the password or private key, then retry.";
   "could not connect to the server over SSH. Check the host, port, and that the machine is reachable, then retry."].
(** A text made of what a command printed. *)
Definition printed (x : ExecResult) (m : string) : Prop :=
  m ∈ output_lines (x_Stdout x) ∨ m ∈ output_lines (x_Stderr x) ∨ m = docker_message (TrimSpace (x_Stdout x)) ∨
  m = "Detected Ubuntu " +:+ osReleaseField (x_Stdout x) "VERSION_ID" +:+ " LTS." ∨
  m = "unsupported operating system: " +:+ osReleaseField (x_Stdout x) "PRETTY_NAME" +:+ ". Plorigo supports Ubuntu 22.04 and 24.04 LTS." ∨
  m = "unsupported operating system: " +:+ TrimSpace (osReleaseField (x_Stdout x) "ID" +:+ " " +:+ osReleaseField (x_Stdout x) "VERSION_ID") +:+
      ". Plorigo supports Ubuntu 22.04 and 24.04 LTS.".
Definition about_host (m : string) : Prop :=
  ∃ n addr fp, presented_key n addr = Some fp ∧
    (m = "Pinned the server's host key: " +:+ fp ∨ m = "Connected. Host key " +:+ fp +:+ ".").
Definition public (t : list Ev) (m : string) : Prop :=
  m ∈ messages ∨ (∃ c x, EvRun c (inr x) ∈ t ∧ printed x m) ∨ about_host m.
Definition all_public (t : list Ev) : Prop := ∀ step kind status m, EvEmit step kind status m ∈ t → public t m.

Lemma public_app t l m : public t m → public (t ++ l) m.
Proof.
  intros [H|[(c & x & Hin & H)|H]]; [by left| |by right; right].
  right; left. exists c, x. split; [|done]. apply elem_of_app. by left.
Qed.

(** One run of a part of the setup. *)
Record goes (srv run : string) (s s' : Session) : Prop := {
  go_db : touched srv run (w_db (s_world s)) (w_db (s_world s'));
  go_servers : servers (w_db (s_world s')) = servers (w_db (s_world s));
  go_runs : server_setup_runs (w_db (s_world s')) = server_setup_runs (w_db (s_world s));
  go_trace : ∃ l, s_trace s' = s_trace s ++ l;
  go_public : all_public (s_trace s) → all_public (s_trace s');
  go_rows : ∀ row, row ∈ server_setup_events (w_db (s_world s')) → row ∈ server_setup_events (w_db (s_world s)) ∨
              EvEmit (se_Step row) (se_Kind row) (se_Status row) (se_Message row) ∈ s_trace s';
}.
#[global] Instance goes_refl srv run : Reflexive (goes srv run).
Proof. intros s. split; [done|done|done|exists []; by rewrite app_nil_r|done|by left]. Qed.
#[global] Instance goes_trans srv run : Transitive (goes srv run).
Proof.
  intros s1 s2 s3 [A1 A2 A2' (l & A3) A4 A5] [B1 B2 B2' (k & B3) B4 B5]. split.
  - by etrans.
  - congruence.
  - congruence.
  - exists (l ++ k). by rewrite B3, A3, app_assoc.
  - auto.
  - intros row [Hr|Hr]%B5; [|by right]. apply A5 in Hr as [Hr|Hr]; [by left|right]. rewrite B3. apply elem_of_app. by left.
Qed.
(** The same, with the keys as they were. *)
Definition calmly (srv run : string) (s s' : Session) : Prop :=
  goes srv run s s' ∧ ssh_management_keys (w_db (s_world s')) = ssh_management_keys (w_db (s_world s)).
#[global] Instance calmly_refl srv run : Reflexive (calmly srv run).
Proof. intros s. by split. Qed.
#[global] Instance calmly_trans srv run : Transitive (calmly srv run).
Proof. intros s1 s2 s3 [A1 A2] [B1 B2]. split; [by etrans|congruence]. Qed.

(** A step that appended [l] to the trace and left the events, servers and keys alone. *)
Lemma calmly_note srv run s w' l :
  touched srv run (w_db (s_world s)) (w_db w') → servers (w_db w') = servers (w_db (s_world s)) →
  ssh_management_keys (w_db w') = ssh_management_keys (w_db (s_world s)) →
  server_setup_events (w_db w') = server_setup_events (w_db (s_world s)) →
  server_setup_runs (w_db w') = server_setup_runs (w_db (s_world s)) →
  (∀ step kind status m, EvEmit step kind status m ∉ l) → calmly srv run s (mk_Session w' (s_trace s ++ l)).
Proof.
  intros H1 H2 H3 H4 H5 Hl. split; [|done]. split; simpl; [done|done|done|by exists l| |].
  - intros Ht step kind status m [Hin|Hin]%elem_of_app; [apply public_app; by eapply Ht|by apply Hl in Hin].
  - intros row. rewrite H4. by left.
Qed.
(** No command was run in between. *)
Definition silent (s s' : Session) : Prop := ∃ l, s_trace s' = s_trace s ++ l ∧ ∀ c res, EvRun c res ∉ l.
#[global] Instance silent_refl : Reflexive silent.
Proof. intros s. exists []. rewrite app_nil_r. split; [done|]. intros. apply not_elem_of_nil. Qed.
#[global] Instance silent_trans : Transitive silent.
Proof.
  intros s1 s2 s3 (l & H1 & N1) (k & H2 & N2). exists (l ++ k). rewrite H2, H1, app_assoc. split; [done|].
  intros c res [H|H]%elem_of_app; [by eapply N1|by eapply N2].
Qed.
Definition ran (s s' : Session) (c : string) (x : ExecResult) : Prop := ∃ l k, s_trace s' = s_trace s ++ l ++ EvRun c (inr x) :: k.
Lemma ran_later srv run s s1 s' c x : ran s s1 c x → goes srv run s1 s' → ran s s' c x.
Proof. intros (l & k & H) [_ _ _ (m & Hm) _ _]. exists l, (k ++ m). rewrite Hm, H, <- !app_assoc. simpl. done. Qed.
Lemma ran_earlier srv run s s1 s' c x : goes srv run s s1 → ran s1 s' c x → ran s s' c x.
Proof. intros [_ _ _ (m & Hm) _ _] (l & k & H). exists (m ++ l), k. by rewrite H, Hm, <- !app_assoc. Qed.
Lemma ran_public s s' c x m : ran s s' c x → printed x m → public (s_trace s') m.
Proof.
  intros (l & k & H) Hp. right; left. exists c, x. split; [|done]. rewrite H, !elem_of_app, elem_of_cons. tauto.
Qed.
End Texts.

(** ** Rules of the runner *)
Section Runner.
Context {E : Env} {A : Authorizer} {B : Sealer} {K : KeyGenerator} {L : SSHLibrary} {C : RunContext} {P : AgentProvisioner}.
Context (r : Runner).
Notation srv := (rn_serverID r).
Notation run := (rn_setupRunID r).
Notation calm := (calmly srv run).

Lemma rp_emit_silent step kind status m (Q : unit → Session → Prop) s :
  public (s_trace s) m → (∀ s', calm s s' → silent s s' → Q tt s') → rp (emit r step kind status m) Q s.
Proof.
  intros Hm HQ. unfold emit. apply rp_bind, rp_note, rp_bind, rp_lift. unfold AppendSetupEvent.
  assert (∀ w', touched srv run (w_db (s_world s)) (w_db w') → servers (w_db w') = servers (w_db (s_world s)) →
    ssh_management_keys (w_db w') = ssh_management_keys (w_db (s_world s)) → server_setup_runs (w_db w') = server_setup_runs (w_db (s_world s)) →
    (∀ row, row ∈ server_setup_events (w_db w') → row ∈ server_setup_events (w_db (s_world s)) ∨
       se_Step row = step ∧ se_Kind row = kind ∧ se_Status row = status ∧ se_Message row = m) →
    Q tt (mk_Session w' (s_trace s ++ [EvEmit step kind status m]))) as Hend.
  { intros w' H1 H2 H3 H5 H4. apply HQ; [|exists [EvEmit step kind status m]; split; [done|]; intros c res; by rewrite list_elem_of_singleton].
    split; [|done]. split; simpl; [done|done|done|by eexists| |].
    - intros Ht st k x m' [Hin|Hin]%elem_of_app; [apply public_app; by eapply Ht|].
      apply list_elem_of_singleton in Hin as [= -> -> -> ->]. by apply public_app.
    - intros row [Hr|(<- & <- & <- & <-)]%H4; [by left|right]. apply elem_of_app. right. by apply list_elem_of_singleton. }
  wp_step. apply wp_autocommit. intros w1 Hw1. simpl in Hw1. wp_step.
  - apply rp_ret, Hend; simpl; try by replace (w_db w') with (w_db (s_world s)) by congruence.
    intros row. replace (w_db w') with (w_db (s_world s)) by congruence. by left.
  - match goal with H : sql_AppendServerSetupEvent _ _ _ = _ |- _ => apply (touched_event srv) in H as (T1 & T2 & T3) end.
    apply wp_ret, rp_ret. rewrite Hw1 in T1, T2. apply Hend; [done|by rewrite T2|by rewrite T2|by rewrite T2|].
    intros row. rewrite T2. simpl. intros [Hr|Hr]%elem_of_app; [by left|right]. apply list_elem_of_singleton in Hr as ->. done.
Qed.
Lemma rp_emit step kind status m (Q : unit → Session → Prop) s :
  public (s_trace s) m → (∀ s', calm s s' → Q tt s') → rp (emit r step kind status m) Q s.
Proof. intros Hm HQ. apply rp_emit_silent; auto. Qed.
Lemma rp_log step m (Q : unit → Session → Prop) s :
  public (s_trace s) m → (∀ s', calm s s' → Q tt s') → rp (log r step m) Q s.
Proof. apply rp_emit. Qed.

Lemma rp_emit_lines step lines (Q : unit → Session → Prop) s :
  (∀ m, m ∈ lines → public (s_trace s) m) → (∀ s', calm s s' → Q tt s') → rp (emit_lines r step lines) Q s.
Proof.
  revert s. induction lines as [|m lines IH]; intros s Hm HQ; simpl; [by apply rp_ret, HQ|].
  apply rp_bind, rp_log; [apply Hm; by left|]. intros s1 H1. apply IH.
  - intros m' Hin. destruct H1 as [[_ _ _ (l & ->) _ _] _]. apply public_app, Hm. by right.
  - intros s2 H2. apply HQ. by etrans.
Qed.

(** Recording an audit row, noted in the trace. *)
Lemma rp_record action target ti (Q : unit → Session → Prop) s :
  (∀ s', calm s s' → silent s s' → Q tt s') →
  rp (note (EvAudit action) ≫= λ _, lift (recordAudit action target ti (rn_workspaceID r) (p_UserID (rn_caller r))) ≫= λ _, mret tt) Q s.
Proof.
  intros HQ. apply rp_bind, rp_note, rp_bind, rp_lift. simpl.
  assert (∀ w', calm s (mk_Session w' (s_trace s ++ [EvAudit action])) → Q tt (mk_Session w' (s_trace s ++ [EvAudit action]))) as Hend.
  { intros w' H. apply HQ; [done|]. exists [EvAudit action]. split; [done|]. intros c res. by rewrite list_elem_of_singleton. }
  apply wp_recordAudit.
  - intros e w' Hw. apply rp_ret, Hend, calmly_note; rewrite ?Hw; try done. intros. by rewrite list_elem_of_singleton.
  - intros w' Haud. pose proof (touched_audited srv run _ _ _ _ _ _ _ Haud) as Ht. destruct Haud as (row & Hd & _).
    apply rp_ret, Hend, calmly_note; try done; try (by rewrite Hd). intros. by rewrite list_elem_of_singleton.
Qed.
Lemma rp_audit action (Q : unit → Session → Prop) s : (∀ s', calm s s' → Q tt s') → rp (audit r action) Q s.
Proof. intros HQ. apply rp_record. auto. Qed.

Lemma rp_exec c (Q : option ExecResult → Session → Prop) s :
  (∀ s', calm s s' → Q None s') → (∀ x s', calm s s' → ran s s' c x → Q (Some x) s') → rp (exec c) Q s.
Proof.
  intros Hn Hs. unfold exec. apply rp_bind, rp_outside. intros n w' Hw. apply rp_bind, rp_note, rp_ret. simpl.
  assert (∀ res, calm s (mk_Session w' (s_trace s ++ [EvRun c res]))) as Hcalm.
  { intros res. apply calmly_note; rewrite ?Hw; try done. intros. by rewrite list_elem_of_singleton. }
  destruct (ssh_Run n c) as [e|x]; [by apply Hn|]. apply Hs; [done|]. by exists [], [].
Qed.
Lemma rp_with_result c k (Q : string → Session → Prop) s :
  (∀ s', calm s s' → Q lost s') → (∀ x s', calm s s' → ran s s' c x → rp (k x) Q s') → rp (with_result c k) Q s.
Proof. intros Hn Hs. unfold with_result. apply rp_bind, rp_exec; [intros s' H; by apply rp_ret, Hn|exact Hs]. Qed.
Lemma rp_best_effort c (Q : ExecResult → Session → Prop) s :
  (∀ s', calm s s' → Q (mk_ExecResult "" "" 0) s') → (∀ x s', calm s s' → ran s s' c x → Q x s') → rp (best_effort c) Q s.
Proof. intros Hn Hs. unfold best_effort. apply rp_bind, rp_exec; [intros s' H; by apply rp_ret, Hn|intros x s' H H'; by apply rp_ret, Hs]. Qed.
Lemma rp_must c m (Q : string → Session → Prop) s :
  (∀ s', calm s s' → Q lost s') → (∀ s', calm s s' → Q m s') →
  (∀ x s', calm s s' → ran s s' c x → x_ExitCode x = 0 → Q "" s') → rp (must c m) Q s.
Proof.
  intros Hl Hm Hs. unfold must. apply rp_with_result; [done|]. intros x s' H Hr. apply rp_ret.
  destruct (Z.eqb_spec (x_ExitCode x) 0); [by eapply Hs|by apply Hm].
Qed.
Lemma rp_and_then m k (Q : string → Session → Prop) s :
  rp m (λ reason s', (reason = "" → rp k Q s') ∧ (reason ≠ "" → Q reason s')) s → rp (and_then m k) Q s.
Proof.
  intros H. unfold and_then. apply rp_bind. eapply rp_mono; [|exact H]. intros reason s' [H1 H2]. simpl.
  destruct (String.eqb_spec reason "") as [->|Hne]; [by apply H1|by apply rp_ret, H2].
Qed.

(** ** The steps *)

(** A part of a run that leaves the keys alone: what it publishes is public, and when it
    gives no reason to stop its fact holds. *)
Definition part (m : R string) (fact : Session → Session → Prop) : Prop := ∀ s,
  rp m (λ reason s', calm s s' ∧ public (s_trace s') reason ∧ (reason = "" → fact s s')) s.
Lemma fixed m t : bool_decide (m ∈ messages) = true → public t m.
Proof. intros H%bool_decide_eq_true. by left. Qed.
Ltac is_fixed := apply fixed; vm_compute; reflexivity.
(** The end of a part, from what each of its pieces did. *)
Ltac stops := split; [repeat (etrans; [eassumption|]); reflexivity|split; [try is_fixed|try done]].

Definition supported (x : ExecResult) : Prop :=
  osReleaseField (x_Stdout x) "ID" = "ubuntu" ∧
  (osReleaseField (x_Stdout x) "VERSION_ID" = "22.04" ∨ osReleaseField (x_Stdout x) "VERSION_ID" = "24.04").
Definition detected (s s' : Session) : Prop :=
  ∃ x, ran s s' cmd_os_release x ∧ x_ExitCode x = 0 ∧ supported x.
Lemma detectOS_part : part (detectOS r) detected.
Proof.
  intros s. unfold detectOS. apply rp_with_result; [intros s' H; stops|]. intros x s1 H1 R1.
  destruct (Z.eqb_spec (x_ExitCode x) 0) as [H0|H0]; [|apply rp_ret; stops]. cbn [negb].
  destruct (negb _ || _) eqn:Hsup.
  - apply rp_ret. split; [done|]. split; [|by intros ?%(f_equal String.length)].
    eapply ran_public; [exact R1|]. destruct (String.eqb_spec (osReleaseField (x_Stdout x) "PRETTY_NAME") ""); [do 5 right|do 4 right; left]; done.
  - apply rp_bind, rp_log; [eapply ran_public; [exact R1|do 3 right; by left]|]. intros s2 H2. apply rp_ret. stops. intros _.
    exists x. split; [eapply ran_later; [done|apply H2]|]. split; [done|]. apply orb_false_iff in Hsup as [Hid Hver]. split.
    + by apply negb_false_iff, String.eqb_eq in Hid.
    + apply andb_false_iff in Hver as [Hv|Hv]; apply negb_false_iff, String.eqb_eq in Hv; tauto.
Qed.

Definition privileged (s s' : Session) : Prop :=
  (∃ x, ran s s' cmd_uid x ∧ TrimSpace (x_Stdout x) = "0") ∨ (∃ x, ran s s' cmd_sudo x ∧ x_ExitCode x = 0).
Lemma checkPrivilege_part : part (checkPrivilege r) privileged.
Proof.
  intros s. unfold checkPrivilege. apply rp_with_result; [intros s' H; stops|]. intros x s1 H1 R1.
  destruct (String.eqb_spec (TrimSpace (x_Stdout x)) "0") as [H0|_].
  - apply rp_bind, rp_log; [is_fixed|]. intros s2 H2. apply rp_ret. stops. intros _. left. exists x. split; [eapply ran_later; [done|apply H2]|done].
  - apply rp_with_result; [intros s' H; stops|]. intros y s2 H2 R2.
    destruct (Z.eqb_spec (x_ExitCode y) 0) as [H0|H0]; [|apply rp_ret; stops]. cbn [negb].
    apply rp_bind, rp_log; [is_fixed|]. intros s3 H3. apply rp_ret. stops. intros _. right. exists y.
    split; [eapply ran_earlier; [apply H1|]; eapply ran_later; [done|apply H3]|done].
Qed.

Definition unobstructed (s s' : Session) : Prop :=
  (∃ x, ran s s' cmd_lock x ∧ Contains (x_Stdout x) "LOCKED" = false) ∧ ∃ x, ran s s' cmd_ports x ∧ TrimSpace (x_Stdout x) = "".
Lemma check_ufw_part : part (check_ufw r) (λ _ _, True).
Proof.
  intros s. unfold check_ufw. apply rp_bind.
  assert (∀ u s1, calm s s1 → rp (if Contains (x_Stdout u) "Status: active"
      then log r "preflight" "UFW firewall is active; allowing SSH, 80, and 443." ≫= λ _, best_effort cmd_ufw_allow ≫= λ _, mret ""
      else mret "") (λ reason s', calm s s' ∧ public (s_trace s') reason ∧ (reason = "" → True)) s1) as H.
  { intros u s1 H1. destruct (Contains (x_Stdout u) _); [|apply rp_ret; stops].
    apply rp_bind, rp_log; [is_fixed|]. intros s2 H2. apply rp_bind, rp_best_effort; intros; apply rp_ret; stops. }
  apply rp_best_effort; intros; by apply H.
Qed.
Lemma preflight_part : part (preflight r) unobstructed.
Proof.
  intros s. unfold preflight. apply rp_with_result; [intros s' H; stops|]. intros x s1 H1 R1.
  destruct (Contains (x_Stdout x) "LOCKED") eqn:Hlock; [apply rp_ret; stops|].
  apply rp_with_result; [intros s' H; stops|]. intros y s2 H2 R2.
  destruct (String.eqb_spec (TrimSpace (x_Stdout y)) "") as [Hports|]; [|apply rp_ret; stops]. cbn [negb].
  assert (∀ s', calm s2 s' → calm s s' ∧ unobstructed s s') as Hdone.
  { intros s' H. split; [repeat (etrans; [eassumption|]); done|]. split; [exists x|exists y].
    - split; [eapply ran_later; [done|]; etrans; [apply H2|apply H]|done].
    - split; [eapply ran_earlier; [apply H1|]; eapply ran_later; [done|apply H]|done]. }
  apply rp_bind.
  assert (∀ m s3, calm s2 s3 → public (s_trace s3) m →
    rp (log r "preflight" m ≫= λ _, check_ufw r) (λ reason s', calm s s' ∧ public (s_trace s') reason ∧ (reason = "" → unobstructed s s')) s3) as Hrest.
  { intros m s3 H3 Hp. apply rp_bind, rp_log; [done|]. intros s4 H4. eapply rp_mono; [|apply check_ufw_part].
    intros reason s5 (H5 & Hr & _). destruct (Hdone s5) as [? ?]; [by etrans; [|etrans]|done]. }
  apply rp_best_effort.
  - intros s3 H3. apply Hrest; [done|]. is_fixed.
  - intros d s3 H3 R3. apply Hrest; [done|]. eapply ran_public; [exact R3|]. right; right; by left.
Qed.

(** A statement of the control plane that leaves servers, keys and events alone. *)
Lemma calm_world s w' :
  touched srv run (w_db (s_world s)) (w_db w') → servers (w_db w') = servers (w_db (s_world s)) →
  ssh_management_keys (w_db w') = ssh_management_keys (w_db (s_world s)) →
  server_setup_events (w_db w') = server_setup_events (w_db (s_world s)) →
  server_setup_runs (w_db w') = server_setup_runs (w_db (s_world s)) → calm s (mk_Session w' (s_trace s)).
Proof.
  intros H1 H2 H3 H4 H5. rewrite <- (app_nil_r (s_trace s)). apply calmly_note; try done. intros step kind status m. apply not_elem_of_nil.
Qed.
Lemma calm_same s w' : w_db w' = w_db (s_world s) → calm s (mk_Session w' (s_trace s)).
Proof. intros H. by apply calm_world; rewrite H. Qed.

Definition installed (s s' : Session) : Prop :=
  ∃ token x, ran s s' (cmd_install (rn_controlPlaneURL r) token) x ∧ x_ExitCode x = 0.
Lemma installPrereqs_part : part (installPrereqs r) installed.
Proof.
  intros s. unfold installPrereqs. apply rp_bind, rp_lift, wp_RegistrationToken.
  { intros e w' Hw. apply rp_ret. pose proof (calm_same _ _ Hw). stops. }
  intros token w' Hrows. pose proof (touched_token srv run _ _ Hrows) as Ht. destruct Hrows as (t & au & _ & Hd).
  assert (calm s (mk_Session w' (s_trace s))) as H0 by (apply calm_world; [done|by rewrite Hd..]).
  apply rp_bind, rp_log; [is_fixed|]. intros s1 H1. apply rp_with_result; [intros s' H; stops|]. intros x s2 H2 R2.
  apply rp_bind, rp_emit_lines; [intros m Hm; eapply ran_public; [exact R2|by left]|]. intros s3 H3.
  destruct (Z.eqb_spec (x_ExitCode x) 0) as [Hx|Hx]; cbn [negb].
  - apply rp_bind, rp_audit. intros s4 H4. apply rp_bind, rp_log; [is_fixed|]. intros s5 H5. apply rp_ret. stops. intros _.
    exists token, x. split; [|done]. eapply ran_earlier; [etrans; [apply H0|apply H1]|].
    eapply ran_later; [done|]. etrans; [apply H3|]. etrans; [apply H4|apply H5].
  - assert (ran s1 s3 (cmd_install (rn_controlPlaneURL r) token) x) as R3 by (eapply ran_later; [done|apply H3]).
    apply rp_bind, rp_emit_lines; [intros m Hm; eapply ran_public; [exact R3|by right; left]|]. intros s4 H4. apply rp_ret. stops.
Qed.

(** The management user, with the public line of the key the database holds sealed. *)
Definition user_ready (s s' : Session) : Prop :=
  ∃ row kp sealed, active srv (w_db (s_world s')) = Some row ∧ generated kp sealed ∧ stored kp sealed row ∧
    ∃ x1 x2 x3 x4, ran s s' cmd_useradd x1 ∧ ran s s' cmd_ssh_dir x2 ∧ ran s s' (cmd_install_key (sk_PublicKey row)) x3 ∧
      ran s s' cmd_sudoers x4 ∧ x_ExitCode x1 = 0 ∧ x_ExitCode x2 = 0 ∧ x_ExitCode x3 = 0 ∧ x_ExitCode x4 = 0.

Lemma goes_provisioned s w' cred kp row :
  key_stored "server_setup.key.provision" (rn_caller r) srv cred kp row (w_db (s_world s)) (w_db w') →
  goes srv run s (mk_Session w' (s_trace s)) ∧ active srv (w_db w') = Some row ∧ c_PublicKey cred = sk_PublicKey row ∧
  ∃ sealed, generated kp sealed ∧ stored kp sealed row.
Proof.
  intros (ws & sealed & d1 & _ & Hg & Hst & _ & -> & Hk & Haud).
  pose proof (audited_keys _ _ _ _ _ _ _ Haud) as [Hkeys Hsrv].
  assert (servers d1 = servers (w_db (s_world s)) ∧ server_setup_events d1 = server_setup_events (w_db (s_world s)) ∧
    server_setup_runs d1 = server_setup_runs (w_db (s_world s))) as (Hs1 & He1 & Hr1)
    by (destruct Hk as [-> _ _ _]; done).
  split; [|split; [rewrite (active_keys _ _ _ Hkeys); apply Hk|split; [done|by exists sealed]]].
  split; simpl; [|congruence| |exists []; by rewrite app_nil_r|done|].
  - etrans; [by eapply touched_key|by eapply touched_audited].
  - by destruct Haud as (au & -> & _).
  - destruct Haud as (au & -> & _). simpl. rewrite He1. by left.
Qed.

Definition succeeded (c : string) (s s' : Session) : Prop := ∃ x, ran s s' c x ∧ x_ExitCode x = 0.
Lemma must_part c m : bool_decide (m ∈ messages ∧ m ≠ "") = true → part (must c m) (succeeded c).
Proof.
  intros [Hm Hne]%bool_decide_eq_true s. apply rp_must; [intros s' H; stops|intros s' H|].
  - split; [done|]. split; [by left|done].
  - intros x s' H R E0. split; [done|]. split; [is_fixed|]. intros _. by exists x.
Qed.
Lemma and_then_part m k f g : part m f → part k g →
  part (and_then m k) (λ s s', ∃ s1, calm s s1 ∧ calm s1 s' ∧ f s s1 ∧ g s1 s').
Proof.
  intros Hm Hk s. apply rp_and_then. eapply rp_mono; [|apply Hm]. intros reason s1 (H1 & P1 & F1). split.
  - intros ->. eapply rp_mono; [|apply Hk]. intros reason s2 (H2 & P2 & F2). split; [by etrans|]. split; [done|].
    intros ->. exists s1. auto.
  - intros Hne. split; [done|]. split; [done|]. by intros ->.
Qed.
Lemma succeeded_widen c s0 s1 s2 s3 : goes srv run s0 s1 → goes srv run s2 s3 → succeeded c s1 s2 → succeeded c s0 s3.
Proof. intros H0 H3 (x & Hr & Hx). exists x. split; [|done]. eapply ran_earlier; [done|]. by eapply ran_later. Qed.

Lemma sudoers_part : part (with_result cmd_sudoers (λ res,
    if negb (x_ExitCode res =? 0) then
      _ ← best_effort cmd_sudoers_remove; mret "failed to install a valid scoped sudo policy for the plorigo user."
    else _ ← log r "provision_user" "Management user 'plorigo' created with a key-only login and scoped sudo."; mret "")) (succeeded cmd_sudoers).
Proof.
  intros s. apply rp_with_result; [intros s' H; stops|]. intros x s1 H1 R1. destruct (Z.eqb_spec (x_ExitCode x) 0) as [E1|E1]; cbn [negb].
  - apply rp_bind, rp_log; [is_fixed|]. intros s2 H2. apply rp_ret. stops. intros _. exists x.
    split; [eapply ran_later; [done|apply H2]|done].
  - apply rp_bind, rp_best_effort; intros; apply rp_ret; stops.
Qed.

Lemma provisionUser_part s :
  rp (provisionUser r) (λ reason s', goes srv run s s' ∧ public (s_trace s') reason ∧ (reason = "" → user_ready s s')) s.
Proof.
  unfold provisionUser. apply rp_bind, rp_lift, wp_Provision.
  { intros e w' Hw. apply rp_ret. split; [apply (calm_same _ _ Hw)|]. split; [is_fixed|done]. }
  intros cred kp row ws w' _ _ (H0 & Hact & Hpub & sealed & Hg & Hst)%goes_provisioned. rewrite Hpub.
  eapply rp_mono; [|apply and_then_part; [by apply must_part|apply and_then_part; [by apply must_part|
    apply and_then_part; [by apply must_part|apply sudoers_part]]]].
  intros reason s' (Hc & Hp & HF). split; [etrans; [apply H0|apply Hc]|]. split; [done|]. intros Hr.
  destruct (HF Hr) as (s1 & A1 & A1' & F1 & s2 & A2 & A2' & F2 & s3 & A3 & A3' & F3 & F4).
  exists row, kp, sealed. split; [rewrite (active_keys _ _ _ (proj2 Hc)); done|]. split; [done|]. split; [done|].
  assert (∀ s4, calm (mk_Session w' (s_trace s)) s4 → goes srv run s s4) as Hgo by (intros s4 [? _]; by etrans).
  destruct (succeeded_widen _ s _ _ s' H0 (proj1 A1') F1) as (x1 & R1 & E1).
  destruct (succeeded_widen _ s _ _ s' (Hgo s1 A1) (proj1 A2') F2) as (x2 & R2 & E2).
  assert (calm (mk_Session w' (s_trace s)) s2) as B2 by by etrans.
  destruct (succeeded_widen _ s _ _ s' (Hgo s2 B2) (proj1 A3') F3) as (x3 & R3 & E3).
  assert (calm (mk_Session w' (s_trace s)) s3) as B3 by by etrans.
  destruct (succeeded_widen _ s _ _ s' (Hgo s3 B3) ltac:(reflexivity) F4) as (x4 & R4 & E4).
  exists x1, x2, x3, x4. done.
Qed.

(** The agent was online when it was last asked for. *)
Definition came_online (s s' : Session) : Prop := ∃ d, agent_online (rn_workspaceID r) srv d ∧ touched srv run d (w_db (s_world s')).
Lemma await_loop_part n : part (await_loop r n) came_online.
Proof.
  induction n as [|n IH]; intros s; simpl; [apply rp_ret; stops|].
  apply rp_bind, rp_outside. intros k w1 Hw1. pose proof (calm_same _ _ Hw1) as H1. destruct (ctx_Err k); [apply rp_ret; stops|].
  assert (∀ s2, calm s s2 → rp (match n with 0%nat => mret tt | S _ => note (EvSleep (rn_heartbeatDelay r)) end ≫= λ _, await_loop r n)
    (λ reason s', calm s s' ∧ public (s_trace s') reason ∧ (reason = "" → came_online s s')) s2) as Hagain.
  { intros s2 H2. apply rp_bind. destruct n as [|n'].
    - apply rp_ret. eapply rp_mono; [|apply IH]. intros reason s' (H & Hp & HF). split; [by etrans|]. by split.
    - apply rp_note. eapply rp_mono; [|apply IH]. intros reason s' (H & Hp & HF). split; [|by split].
      etrans; [exact H2|]. etrans; [|exact H]. apply calmly_note; try done. intros. by rewrite list_elem_of_singleton. }
  apply rp_bind, rp_lift, wp_AgentOnline.
  - intros e w2 Hw2. apply Hagain. etrans; [exact H1|]. by apply calm_same.
  - intros b w2 Hw2 Hon. destruct b; [|apply Hagain; etrans; [exact H1|]; by apply calm_same].
    apply rp_bind, rp_log; [is_fixed|]. intros s3 H3. apply rp_ret.
    assert (calm s (mk_Session w2 (s_trace (mk_Session w1 (s_trace s))))) as H2 by (etrans; [exact H1|]; by apply calm_same).
    stops. intros _. eexists. split; [by apply Hon|]. simpl in *. rewrite <- Hw2. apply H3.
Qed.

(** ** The whole run *)

(** The server was set up between two points of the run: its system was a supported one, the
    bootstrap user was privileged, nothing held the package manager or the ports, the
    installer ran, the management user has the key the database holds, and the agent came
    online; each after the other. *)
Definition set_up (s s' : Session) : Prop :=
  ∃ s1 s2 s3 s4 s5, goes srv run s s1 ∧ goes srv run s1 s2 ∧ goes srv run s2 s3 ∧ goes srv run s3 s4 ∧ goes srv run s4 s5 ∧
    goes srv run s5 s' ∧ detected s s1 ∧ privileged s1 s2 ∧ unobstructed s2 s3 ∧ installed s3 s4 ∧ user_ready s4 s5 ∧
    came_online s5 s' ∧ ssh_management_keys (w_db (s_world s')) = ssh_management_keys (w_db (s_world s5)).

(** One step of [Run]: its own start and end are published, then the next ones run. *)
Lemma rp_step name fn rest fact (Q : string → Session → Prop) s :
  (∀ s1, rp fn (λ reason s2, goes srv run s1 s2 ∧ public (s_trace s2) reason ∧ (reason = "" → fact s1 s2)) s1) →
  (∀ reason s', goes srv run s s' → public (s_trace s') reason → reason ≠ "" → Q reason s') →
  (∀ s1 s2 s3, calm s s1 → goes srv run s1 s2 → calm s2 s3 → fact s1 s2 → rp (run_steps r rest) Q s3) →
  rp (run_steps r ((name, fn) :: rest)) Q s.
Proof.
  intros Hfn Hstop Hnext. simpl. apply rp_bind, rp_outside. intros n w1 Hw1. pose proof (calm_same _ _ Hw1) as H1. destruct (ctx_Err n).
  - apply rp_bind, rp_emit; [is_fixed|]. intros s2 H2. apply rp_ret, Hstop; [|is_fixed|done]. etrans; [apply H1|apply H2].
  - apply rp_bind, rp_emit; [is_fixed|]. intros s2 H2. apply rp_bind. eapply rp_mono; [|apply Hfn]. intros reason s3 (H3 & Hp & Hf).
    destruct (String.eqb_spec reason "") as [->|Hne]; cbn [negb].
    + apply rp_bind, rp_emit; [is_fixed|]. intros s4 H4. eapply Hnext; [|exact H3|exact H4|by apply Hf]. by etrans.
    + apply rp_bind, rp_emit; [done|]. intros s4 H4. apply rp_ret, Hstop; [|destruct H4 as [[_ _ _ (l & ->) _ _] _]; by apply public_app|done].
      etrans; [apply H1|]. etrans; [apply H2|]. etrans; [exact H3|apply H4].
Qed.
Lemma part_goes m fact : part m fact → ∀ s, rp m (λ reason s', goes srv run s s' ∧ public (s_trace s') reason ∧ (reason = "" → fact s s')) s.
Proof. intros H s. eapply rp_mono; [|apply H]. intros reason s' ([? _] & ? & ?). done. Qed.

Lemma ran_widen s0 s1 s2 s3 c x : goes srv run s0 s1 → goes srv run s2 s3 → ran s1 s2 c x → ran s0 s3 c x.
Proof. intros H0 H3 Hr. eapply ran_earlier; [done|]. by eapply ran_later. Qed.

(** Facts of a part hold of any stretch around it. *)
Lemma detected_widen s0 s1 s2 s3 : goes srv run s0 s1 → goes srv run s2 s3 → detected s1 s2 → detected s0 s3.
Proof. intros H0 H3 (x & Hr & H). exists x. split; [by eapply ran_widen|done]. Qed.
Lemma privileged_widen s0 s1 s2 s3 : goes srv run s0 s1 → goes srv run s2 s3 → privileged s1 s2 → privileged s0 s3.
Proof. intros H0 H3 [(x & Hr & H)|(x & Hr & H)]; [left|right]; exists x; (split; [by eapply ran_widen|done]). Qed.
Lemma unobstructed_widen s0 s1 s2 s3 : goes srv run s0 s1 → goes srv run s2 s3 → unobstructed s1 s2 → unobstructed s0 s3.
Proof. intros H0 H3 [(x & Hr & H) (y & Hs & H')]. split; [exists x|exists y]; (split; [by eapply ran_widen|done]). Qed.
Lemma installed_widen s0 s1 s2 s3 : goes srv run s0 s1 → goes srv run s2 s3 → installed s1 s2 → installed s0 s3.
Proof. intros H0 H3 (t & x & Hr & H). exists t, x. split; [by eapply ran_widen|done]. Qed.
Lemma user_ready_widen s0 s1 s2 s3 : goes srv run s0 s1 → calm s2 s3 → user_ready s1 s2 → user_ready s0 s3.
Proof.
  intros H0 [H3 Hk] (row & kp & sealed & Ha & Hg & Hs & x1 & x2 & x3 & x4 & R1 & R2 & R3 & R4 & H).
  exists row, kp, sealed. split; [by rewrite (active_keys _ _ _ Hk)|]. split; [done|]. split; [done|].
  exists x1, x2, x3, x4. split_and!; try (by eapply ran_widen); apply H.
Qed.

Lemma Run_spec s :
  rp (Run r) (λ reason s', goes srv run s s' ∧ public (s_trace s') reason ∧ (reason = "" → set_up s s')) s.
Proof.
  unfold Run, steps.
  apply (rp_step _ _ _ detected); [apply part_goes, detectOS_part|by intros reason s' H Hp Hne|]. intros a1 a2 s1 C1 G1 D1 F1.
  assert (goes srv run s s1) as W1 by (etrans; [apply C1|]; etrans; [exact G1|apply D1]).
  apply (rp_step _ _ _ privileged); [apply part_goes, checkPrivilege_part|intros reason s' H Hp Hne; split; [by etrans|done]|].
  intros b1 b2 s2 C2 G2 D2 F2. assert (goes srv run s1 s2) as W2 by (etrans; [apply C2|]; etrans; [exact G2|apply D2]).
  apply (rp_step _ _ _ unobstructed); [apply part_goes, preflight_part|intros reason s' H Hp Hne; split; [by repeat (etrans; [eassumption|])|done]|].
  intros c1 c2 s3 C3 G3 D3 F3. assert (goes srv run s2 s3) as W3 by (etrans; [apply C3|]; etrans; [exact G3|apply D3]).
  apply (rp_step _ _ _ installed); [apply part_goes, installPrereqs_part|intros reason s' H Hp Hne; split; [by repeat (etrans; [eassumption|])|done]|].
  intros d1 d2 s4 C4 G4 D4 F4. assert (goes srv run s3 s4) as W4 by (etrans; [apply C4|]; etrans; [exact G4|apply D4]).
  apply (rp_step _ _ _ user_ready); [apply provisionUser_part|intros reason s' H Hp Hne; split; [by repeat (etrans; [eassumption|])|done]|].
  intros e1 e2 s5 C5 G5 D5 F5. assert (goes srv run s4 s5) as W5 by (etrans; [apply C5|]; etrans; [exact G5|apply D5]).
  assert (goes srv run s s5) as W05 by (do 4 (etrans; [eassumption|]); done).
  apply (rp_step _ _ _ (λ s s', came_online s s' ∧ ssh_management_keys (w_db (s_world s')) = ssh_management_keys (w_db (s_world s)))).
  - intros s6. eapply rp_mono; [|apply await_loop_part]. intros reason s7 (Hc & Hp & Hf). split; [apply Hc|]. split; [done|].
    intros Hr. split; [by apply Hf|apply Hc].
  - intros reason s' H Hp Hne. split; [by etrans|done].
  - intros f1 f2 s6 C6 G6 D6 [(d & Hon & Ht) Hk]. assert (goes srv run s5 s6) as W6 by (etrans; [apply C6|]; etrans; [exact G6|apply D6]).
    apply rp_ret. split; [by etrans|]. split; [is_fixed|]. intros _. exists s1, s2, s3, s4, s5.
    do 6 (split; [assumption|]).
    split; [by eapply detected_widen; [apply C1|apply D1|]|]. split; [by eapply privileged_widen; [apply C2|apply D2|]|].
    split; [by eapply unobstructed_widen; [apply C3|apply D3|]|]. split; [by eapply installed_widen; [apply C4|apply D4|]|].
    split; [by eapply user_ready_widen; [apply C5|exact D5|]|].
    split; [exists d; split; [done|]; etrans; [exact Ht|apply D6]|]. rewrite (proj2 D6), Hk. apply C6.
Qed.

(** ** From the dial to the outcome *)

(** What any stretch of a run does; [goes] without the host key and the run's own row. *)
Record moves (s s' : Session) : Prop := {
  mv_db : touched srv run (w_db (s_world s)) (w_db (s_world s'));
  mv_trace : ∃ l, s_trace s' = s_trace s ++ l;
  mv_public : all_public (s_trace s) → all_public (s_trace s');
  mv_rows : ∀ row, row ∈ server_setup_events (w_db (s_world s')) → row ∈ server_setup_events (w_db (s_world s)) ∨
              EvEmit (se_Step row) (se_Kind row) (se_Status row) (se_Message row) ∈ s_trace s';
}.
#[local] Instance moves_trans : Transitive moves.
Proof.
  intros s1 s2 s3 [A1 (l & A3) A4 A5] [B1 (k & B3) B4 B5]. split.
  - by etrans.
  - exists (l ++ k). by rewrite B3, A3, app_assoc.
  - auto.
  - intros row [Hr|Hr]%B5; [|by right]. apply A5 in Hr as [Hr|Hr]; [by left|right]. rewrite B3. apply elem_of_app. by left.
Qed.
Lemma goes_moves s s' : goes srv run s s' → moves s s'.
Proof. by intros []. Qed.
Lemma moves_world s w' : touched srv run (w_db (s_world s)) (w_db w') → server_setup_events (w_db w') = server_setup_events (w_db (s_world s)) →
  moves s (mk_Session w' (s_trace s)).
Proof. intros H1 H2. split; simpl; [done|exists []; by rewrite app_nil_r|done|]. rewrite H2. by left. Qed.

(** A statement that may fail, with what a failure means. *)
Lemma wp_exec_or_fault {X} (f : Stamp → DB → go_error + (X * DB)) (Q : go_error + X → World → Prop) w :
  (∀ e w', w_db w' = w_db w → (∃ n, fault n = true) ∨ (∃ st, f st (w_db w) = inl e) → Q (inl e) w') →
  (∀ st x w', f st (w_db w) = inr (x, w_db w') → Q (inr x) w') → wp (db_exec f) Q w.
Proof.
  intros He Ha. unfold wp, db_exec. destruct (fault (w_tick w)) eqn:Hf; [apply He; [done|]; left; eauto|].
  destruct (f _ _) as [e|[x d]] eqn:Hx; [apply He; [done|]; right; eauto|]. by eapply Ha.
Qed.

(** The run's row after a status was written, or an attempt failed. *)
Definition status_set (status reason : string) (l l' : list db_ServerSetupRun) : Prop :=
  (l' = l ∧ ((∃ n, fault n = true) ∨ has_key sru_ID run l = false)) ∨
  ∃ st, l' = update_where (λ x, String.eqb (sru_ID x) run) (run_status status reason st) l.

Lemma rp_set_status status reason (Q : go_error + option SetupRun → Session → Prop) s :
  existsb (String.eqb status) ["queued"; "running"; "succeeded"; "failed"] = true →
  (∀ x s', moves s s' → s_trace s' = s_trace s → servers (w_db (s_world s')) = servers (w_db (s_world s)) →
     ssh_management_keys (w_db (s_world s')) = ssh_management_keys (w_db (s_world s)) →
     status_set status reason (server_setup_runs (w_db (s_world s))) (server_setup_runs (w_db (s_world s'))) → Q x s') →
  rp (lift (SetSetupRunStatus run status reason)) Q s.
Proof.
  intros Hst HQ. apply rp_lift. unfold SetSetupRunStatus. apply wp_bind.
  assert (∀ w', w_db w' = w_db (s_world s) → (∃ n, fault n = true) ∨ has_key sru_ID run (server_setup_runs (w_db (s_world s))) = false →
    ∀ x, Q x (mk_Session w' (s_trace s))) as Hno.
  { intros w' Hw Hwhy x. apply HQ; simpl; rewrite ?Hw; try done.
    - apply moves_world; by rewrite Hw.
    - by left. }
  assert (wp (autocommit (db_exec (sql_SetServerSetupRunStatus run status reason))) (λ x w', match x with
    | inl e => w_db w' = w_db (s_world s) ∧ ((∃ n, fault n = true) ∨ has_key sru_ID run (server_setup_runs (w_db (s_world s))) = false)
    | inr _ => ∀ y, Q y (mk_Session w' (s_trace s)) end) (s_world s)) as H.
  { apply wp_autocommit. intros w1 Hw1. apply wp_exec_or_fault.
    - intros e w' Hw [Hf|(st & Hs)]; (split; [congruence|]); [by left|right]. rewrite Hw1 in Hs. revert Hs. unfold sql_SetServerSetupRunStatus.
      destruct (lookup_by _ _ _) eqn:Hl; [by rewrite Hst|]. intros _. apply has_key_false. intros Hin.
      apply list_elem_of_fmap in Hin as (x & Hx & Hin). by eapply lookup_by_None.
    - intros st x w' Hs y. rewrite Hw1 in Hs. pose proof (touched_status srv _ _ _ _ _ _ _ Hs) as Ht. revert Hs.
      unfold sql_SetServerSetupRunStatus. destruct (lookup_by _ _ _); [|done]. rewrite Hst. intros [= _ Hd].
      apply HQ; simpl.
      + apply moves_world; [done|by rewrite <- Hd].
      + done.
      + by rewrite <- Hd.
      + by rewrite <- Hd.
      + right. exists st. by rewrite <- Hd. }
  unfold wp, ok_or_norows in *. destruct (autocommit _ _) as [[e|x] w']; simpl in *.
  - destruct H as [Hw Hwhy]. destruct e; apply Hno; done.
  - apply H.
Qed.

Lemma rp_finishRun status reason (Q : unit → Session → Prop) s :
  is_terminal status = true →
  (∀ s', moves s s' → silent s s' → servers (w_db (s_world s')) = servers (w_db (s_world s)) →
     ssh_management_keys (w_db (s_world s')) = ssh_management_keys (w_db (s_world s)) →
     status_set status reason (server_setup_runs (w_db (s_world s))) (server_setup_runs (w_db (s_world s'))) → Q tt s') →
  rp (finishRun r status reason) Q s.
Proof.
  intros Ht HQ. unfold finishRun. apply rp_bind, rp_set_status.
  { unfold is_terminal in Ht. simpl. destruct (String.eqb status "succeeded"), (String.eqb status "failed"); simpl in *; rewrite ?orb_true_r; done. }
  intros x s1 M1 T1 S1 K1 R1. apply rp_record. intros s2 [G2 K2] Q2. apply HQ.
  - etrans; [exact M1|]. by apply goes_moves.
  - destruct Q2 as (l & Hl & N). exists l. by rewrite Hl, T1.
  - rewrite (go_servers _ _ _ _ G2). done.
  - congruence.
  - rewrite (go_runs _ _ _ _ G2). done.
Qed.

(** ** The dial, the pin and the outcome *)
Definition dial_addr (t : DialTarget) : string := JoinHostPort (dt_Host t) (Itoa (if dt_Port t =? 0 then 22 else dt_Port t)).
Lemma Dial_ok n t fp :
  Dial n t = inr fp → presented_key n (dial_addr t) = Some fp ∧ host_key_accepted (dt_PinnedHostKeyFingerprint t) fp = true.
Proof.
  unfold Dial. destruct (authMethods t); [done|]. cbv zeta. change (JoinHostPort _ _) with (dial_addr t). destruct (net_Dial _ _); [done|].
  destruct (presented_key n _) as [fp'|] eqn:Hp; [|done]. destruct (host_key_accepted _ fp') eqn:Hk; [|done]. cbn [negb].
  destruct (authenticate _ _ _) as [text|]; [by destruct (isAuthError text)|]. by intros [= <-].
Qed.

(** The pin the run dials with: the stored one, or none when the read failed. *)
Definition read_pin (pinned : string) (d : DB) : Prop :=
  pinned = default "" (sql_GetServerHostKeyFingerprint srv d) ∨ (pinned = "" ∧ ∃ n, fault n = true).
Definition pin_of (x : go_error + option string) : string := match x with inr (Some fp) => fp | _ => "" end.
Lemma rp_pin (Q : go_error + option string → Session → Prop) s :
  (∀ x s', calm s s' → silent s s' → read_pin (pin_of x) (w_db (s_world s)) → Q x s') → rp (lift (HostKeyFingerprint srv)) Q s.
Proof.
  intros HQ. apply rp_lift. unfold HostKeyFingerprint, wp, ok_or_norows, db_query_row.
  assert (∀ x, read_pin (pin_of x) (w_db (s_world s)) → Q x (mk_Session (tick (s_world s)) (s_trace s))) as Hend.
  { intros x Hx. apply HQ; [by apply calm_same| |done]. exists []. rewrite app_nil_r. split; [done|]. intros. apply not_elem_of_nil. }
  destruct (fault (w_tick (s_world s))) eqn:Hf; simpl; [apply Hend; right; eauto|].
  destruct (sql_GetServerHostKeyFingerprint srv (w_db (s_world s))) as [fp|] eqn:Hp; simpl; apply Hend; left; by rewrite Hp.
Qed.

(** What a dial that succeeded did to the servers. *)
Definition repinned (pinned fp : string) (l l' : list db_Server) : Prop :=
  l' = l ∨ (pinned = "" ∧ l' = update_where (λ x, String.eqb (srv_ID x) srv) (with_host_key fp) l).
Lemma rp_repin fp (Q : go_error + unit → Session → Prop) s :
  (∀ x s', moves s s' → silent s s' → server_setup_runs (w_db (s_world s')) = server_setup_runs (w_db (s_world s)) →
     ssh_management_keys (w_db (s_world s')) = ssh_management_keys (w_db (s_world s)) →
     repinned "" fp (servers (w_db (s_world s))) (servers (w_db (s_world s'))) → Q x s') →
  rp (lift (SetHostKeyFingerprint srv fp)) Q s.
Proof.
  intros HQ. apply rp_lift. unfold SetHostKeyFingerprint. apply wp_autocommit. intros w1 Hw1.
  assert (∀ w', silent s (mk_Session w' (s_trace s))) as Hsil
    by (intros w'; exists []; rewrite app_nil_r; split; [done|]; intros; apply not_elem_of_nil).
  apply wp_exec.
  - intros e w' Hw. apply HQ; simpl; [apply moves_world; by rewrite Hw, Hw1|apply Hsil|congruence|congruence|]. left. congruence.
  - intros st x w' Hs. rewrite Hw1 in Hs. pose proof (touched_pin srv run _ _ _ _ _ Hs) as Ht. injection Hs as _ Hd.
    apply HQ; simpl; [apply moves_world; [done|by rewrite <- Hd]|apply Hsil|by rewrite <- Hd|by rewrite <- Hd|].
    right. split; [done|]. by rewrite <- Hd.
Qed.

Definition ended (status reason : string) (s s' : Session) : Prop :=
  ∃ l, status_set "running" "" (server_setup_runs (w_db (s_world s))) l ∧
       status_set status reason l (server_setup_runs (w_db (s_world s'))).
(** A dial with that outcome, made with the pin the run read. *)
Definition dialled (i : StartSetupInput) (pinned : string) (res : DialError + string) (s : Session) : Prop :=
  read_pin pinned (w_db (s_world s)) ∧ ∃ n, Dial n (dial_target i pinned) = res.
(** The two ways a run goes: the dial failed, or the steps were run. *)
Inductive went (i : StartSetupInput) (s s' : Session) : Prop :=
  | went_refused pinned e :
      dialled i pinned (inl e) s → silent s s' → servers (w_db (s_world s')) = servers (w_db (s_world s)) →
      ssh_management_keys (w_db (s_world s')) = ssh_management_keys (w_db (s_world s)) → ended "failed" (connectReason e) s s' → went i s s'
  | went_on pinned fp reason s1 s2 :
      dialled i pinned (inr fp) s → moves s s1 → silent s s1 →
      repinned pinned fp (servers (w_db (s_world s))) (servers (w_db (s_world s1))) →
      goes srv run s1 s2 → (reason = "" → set_up s1 s2) → public (s_trace s') reason →
      moves s2 s' → silent s2 s' → servers (w_db (s_world s')) = servers (w_db (s_world s2)) →
      ssh_management_keys (w_db (s_world s')) = ssh_management_keys (w_db (s_world s2)) →
      ended (if String.eqb reason "" then "succeeded" else "failed") reason s s' → went i s s'.

Lemma connectReason_public e t : public t (connectReason e).
Proof. destruct e; is_fixed. Qed.
Lemma connectReason_some e : connectReason e ≠ "".
Proof. by destruct e. Qed.

(** The tail of a run whose dial failed. *)
Lemma rp_refused e (Q : unit → Session → Prop) s :
  (∀ s', moves s s' → silent s s' → servers (w_db (s_world s')) = servers (w_db (s_world s)) →
     ssh_management_keys (w_db (s_world s')) = ssh_management_keys (w_db (s_world s)) →
     status_set "failed" (connectReason e) (server_setup_runs (w_db (s_world s))) (server_setup_runs (w_db (s_world s'))) → Q tt s') →
  rp (match e with
      | ErrAuth =>
          _ ← note (EvAudit "server_setup.failed_auth");
          _ ← lift (recordAudit "server_setup.failed_auth" "server" srv (rn_workspaceID r) (p_UserID (rn_caller r)));
          mret tt
      | _ => mret tt
      end ≫= λ _, emit r "connect" "status" "failed" (connectReason e) ≫= λ _, finishRun r "failed" (connectReason e)) Q s.
Proof.
  intros HQ. apply rp_bind.
  assert (∀ s1, calm s s1 → silent s s1 →
    rp (emit r "connect" "status" "failed" (connectReason e) ≫= λ _, finishRun r "failed" (connectReason e)) Q s1) as Hrest.
  { intros s1 [G1 K1] N1. apply rp_bind, rp_emit_silent; [apply connectReason_public|]. intros s2 [G2 K2] N2.
    apply rp_finishRun; [done|]. intros s3 M3 N3 S3 K3 R3. apply HQ.
    - etrans; [by apply goes_moves|]. etrans; [by apply goes_moves|done].
    - by repeat (etrans; [eassumption|]).
    - by rewrite S3, (go_servers _ _ _ _ G2), (go_servers _ _ _ _ G1).
    - congruence.
    - by rewrite <- (go_runs _ _ _ _ G1), <- (go_runs _ _ _ _ G2). }
  destruct e; [by apply rp_ret, Hrest| |by apply rp_ret, Hrest]. by apply rp_record.
Qed.

(** The pinning after a dial that was accepted. *)
Lemma rp_accepted i pinned fp (k : R unit) (Q : unit → Session → Prop) s :
  (∃ n, Dial n (dial_target i pinned) = inr fp) →
  (∀ s', moves s s' → silent s s' → server_setup_runs (w_db (s_world s')) = server_setup_runs (w_db (s_world s)) →
     repinned pinned fp (servers (w_db (s_world s))) (servers (w_db (s_world s'))) → rp k Q s') →
  rp ((if String.eqb pinned "" then
         _ ← lift (SetHostKeyFingerprint srv fp); log r "connect" ("Pinned the server's host key: " +:+ fp)
       else mret tt) ≫= λ _, emit r "connect" "status" "ok" ("Connected. Host key " +:+ fp +:+ ".") ≫= λ _, k) Q s.
Proof.
  intros [n Hn] HQ. destruct (Dial_ok _ _ _ Hn) as [Hp _]. set (addr := dial_addr _) in Hp.
  assert (∀ s1, moves s s1 → silent s s1 → server_setup_runs (w_db (s_world s1)) = server_setup_runs (w_db (s_world s)) →
     repinned pinned fp (servers (w_db (s_world s))) (servers (w_db (s_world s1))) →
     rp (emit r "connect" "status" "ok" ("Connected. Host key " +:+ fp +:+ ".") ≫= λ _, k) Q s1) as Hrest.
  { intros s1 M1 N1 R1 P1. apply rp_bind, rp_emit_silent; [right; right; exists n, addr, fp; auto|]. intros s2 [G2 K2] N2. apply HQ.
    - etrans; [done|by apply goes_moves].
    - by etrans.
    - by rewrite (go_runs _ _ _ _ G2).
    - by rewrite (go_servers _ _ _ _ G2). }
  apply rp_bind. destruct (String.eqb_spec pinned "") as [->|_].
  - apply rp_bind, rp_repin. intros x s1 M1 N1 R1 _ P1. apply rp_emit_silent; [right; right; exists n, addr, fp; auto|].
    intros s2 [G2 K2] N2. apply Hrest.
    + etrans; [done|by apply goes_moves].
    + by etrans.
    + by rewrite (go_runs _ _ _ _ G2).
    + by rewrite (go_servers _ _ _ _ G2).
  - apply rp_ret, Hrest; [by apply goes_moves|done|done|by left].
Qed.

Lemma rp_runSetup i s : rp (runSetup r i) (λ _ s', moves s s' ∧ went i s s') s.
Proof.
  unfold runSetup. apply rp_bind, rp_set_status; [done|]. intros x0 s1 M1 T1 S1 K1 R1.
  assert (silent s s1) as N1 by (exists []; rewrite app_nil_r; split; [done|]; intros; apply not_elem_of_nil).
  apply rp_bind, rp_emit_silent; [is_fixed|]. intros s2 [G2 K2] N2. apply rp_bind, rp_pin. intros x s3 [G3 K3] N3 Hpin.
  change (match x with inr (Some fp) => fp | _ => "" end) with (pin_of x) in *.
  apply rp_bind, rp_note. simpl. apply rp_bind, rp_outside. intros n w4 Hw4. simpl in *.
  set (s4 := mk_Session w4 _). set (pinned := pin_of x) in *.
  assert (calm s3 s4) as [G4 K4]. { apply calmly_note; rewrite ?Hw4; try done. intros. by rewrite list_elem_of_singleton. }
  assert (silent s3 s4) as N4. { eexists. split; [done|]. intros. by rewrite list_elem_of_singleton. }
  assert (goes srv run s1 s4) as G by (etrans; [exact G2|]; by etrans).
  assert (moves s s4) as M by (etrans; [exact M1|by apply goes_moves]).
  assert (silent s s4) as N by by repeat (etrans; [eassumption|]).
  assert (∀ res, Dial n (dial_target i pinned) = res → dialled i pinned res s) as Hdial.
  { intros res Hres. split; [|by exists n]. unfold read_pin, sql_GetServerHostKeyFingerprint in *.
    by rewrite (go_servers _ _ _ _ G2), S1 in Hpin. }
  destruct (Dial n _) as [e|fp] eqn:Hd.
  - apply rp_refused. intros s5 M5 N5 S5 K5 R5. split; [by etrans|]. eapply went_refused; [by apply Hdial|by etrans| | |].
    + by rewrite S5, (go_servers _ _ _ _ G).
    + congruence.
    + eexists. split; [exact R1|]. by rewrite <- (go_runs _ _ _ _ G).
  - apply (rp_accepted i); [by exists n|]. intros s5 M5 N5 R5 P5. apply rp_bind. eapply rp_mono; [|apply Run_spec].
    intros reason s6 (G6 & Hp & Hset).
    assert (∀ status s7, moves s6 s7 → silent s6 s7 → servers (w_db (s_world s7)) = servers (w_db (s_world s6)) →
      ssh_management_keys (w_db (s_world s7)) = ssh_management_keys (w_db (s_world s6)) →
      status_set status reason (server_setup_runs (w_db (s_world s6))) (server_setup_runs (w_db (s_world s7))) →
      status = (if String.eqb reason "" then "succeeded" else "failed") → moves s s7 ∧ went i s s7) as Hend.
    { intros status s7 M7 N7 S7 K7 R7 ->. split; [etrans; [exact M|]; etrans; [exact M5|]; etrans; [by apply goes_moves|done]|].
      eapply (went_on i s s7 pinned fp reason s5 s6); [by apply Hdial|by etrans|by etrans| |done|done| |done|done|done|done|].
      - by rewrite (go_servers _ _ _ _ G), S1 in P5.
      - destruct N7 as (l & -> & _). by apply public_app.
      - eexists. split; [exact R1|]. by rewrite (go_runs _ _ _ _ G6), R5, (go_runs _ _ _ _ G) in R7. }
    destruct (String.eqb_spec reason "") as [->|Hne]; cbn [negb]; apply rp_finishRun; try done; intros; by eapply Hend.
Qed.

(** A row of the run after a status was written. *)
Lemma status_set_row status reason l l' row :
  status_set status reason l l' → row ∈ l' → sru_ID row = run →
  (row ∈ l ∧ ∃ n, fault n = true) ∨
  (sru_Status row = status ∧ sru_FailureReason row = reason ∧ (is_terminal status = true → sru_FinishedAt row ≠ None)).
Proof.
  intros [[-> [Hf|Hno]]|[st ->]] Hin Hid; [by left| |].
  - exfalso. apply has_key_false in Hno. apply Hno. rewrite <- Hid. by apply list_elem_of_fmap_2.
  - right. apply elem_of_update_where in Hin as (y & _ & ->). destruct (String.eqb_spec (sru_ID y) run) as [_|Hne]; [|done].
    simpl. split_and!; [done..|]. by intros ->.
Qed.
Lemma ended_row status reason s s' row :
  ended status reason s s' → row ∈ server_setup_runs (w_db (s_world s')) → sru_ID row = run →
  (row ∈ server_setup_runs (w_db (s_world s)) ∧ ∃ n, fault n = true) ∨ (sru_Status row = "running" ∧ ∃ n, fault n = true) ∨
  (sru_Status row = status ∧ sru_FailureReason row = reason ∧ (is_terminal status = true → sru_FinishedAt row ≠ None)).
Proof.
  intros (l & H1 & H2) Hin Hid. destruct (status_set_row _ _ _ _ _ H2 Hin Hid) as [[Hl Hf]|H]; [|tauto].
  destruct (status_set_row _ _ _ _ _ H1 Hl Hid) as [H|H]; tauto.
Qed.

(** The run's verdict on its own row. *)
Definition finished (t : list Ev) (row : db_ServerSetupRun) : Prop :=
  sru_FinishedAt row ≠ None ∧
  (sru_Status row = "succeeded" ∨ (sru_Status row = "failed" ∧ sru_FailureReason row ≠ "" ∧ public t (sru_FailureReason row))).

(** C10: A setup run reports "succeeded" only when, between two points of it, every step did
    what it is there for: a supported Ubuntu was read, the bootstrap user was shown to be
    root or to have passwordless sudo, the package manager and the ports were free, the
    installer exited with 0, the management user got the very public line of the active key
    whose private half is stored sealed, and the agent was seen online; and nothing was run
    on the server outside these steps.  When no statement faults, the run always ends in
    "succeeded" or in "failed" with a public, non-empty reason, and with its end time. *)
Theorem setup_outcome i s s' row :
  runSetup r i s = (tt, s') → row ∈ server_setup_runs (w_db (s_world s')) → sru_ID row = run →
  (sru_Status row = "succeeded" → row ∈ server_setup_runs (w_db (s_world s)) ∨
     ∃ s1 s2, silent s s1 ∧ set_up s1 s2 ∧ silent s2 s' ∧
       ssh_management_keys (w_db (s_world s')) = ssh_management_keys (w_db (s_world s2))) ∧
  ((∀ n, fault n = false) → finished (s_trace s') row).
Proof.
  intros Hrun Hin Hid. apply (rp_run _ _ _ _ _ (rp_runSetup i s)) in Hrun as [_ Hw].
  assert ((∀ n, fault n = false) → ¬ ∃ n, fault n = true) as Hcalm by (intros H [n Hn]; congruence).
  destruct Hw as [pinned e _ _ _ _ He|pinned fp reason s1 s2 _ _ N1 _ _ Hset Hp _ N2 _ K2 He];
    destruct (ended_row _ _ _ _ _ He Hin Hid) as [[Hl Hf]|[[Hr Hf]|(H1 & H2 & H3)]].
  1, 2, 4, 5: split; [intros Hs; first [by left|congruence]|by intros H%Hcalm].
  - split; [congruence|]. intros _. split; [by apply H3|]. right. rewrite H2.
    split; [done|]. split; [apply connectReason_some|apply connectReason_public].
  - destruct (String.eqb_spec reason "") as [->|Hne].
    + split; [|intros _; split; [by apply H3|by left]]. intros _. right. exists s1, s2. by split_and!; try apply Hset.
    + split; [congruence|]. intros _. split; [by apply H3|]. right. by rewrite H2.
Qed.

(** C17: Whatever happens on the way, a run writes only the management key, the host key and
    registration tokens of its own server, its own row, its own events and audit rows; every
    event it leaves behind is one it published, and carries a fixed text, a text made of what
    a command printed, or the fingerprint the host presented: never a credential it was
    given. *)
Theorem setup_confined i s s' :
  runSetup r i s = (tt, s') → s_trace s = [] →
  touched srv run (w_db (s_world s)) (w_db (s_world s')) ∧
  ∀ row, row ∈ server_setup_events (w_db (s_world s')) → row ∈ server_setup_events (w_db (s_world s)) ∨
    public (s_trace s') (se_Message row).
Proof.
  intros Hrun Ht. apply (rp_run _ _ _ _ _ (rp_runSetup i s)) in Hrun as [[M1 _ M3 M4] _]. split; [done|].
  intros row [Hr|Hr]%M4; [by left|right]. eapply M3, Hr. rewrite Ht. intros step kind status m H. by apply not_elem_of_nil in H.
Qed.

(** C11: Commands are run only on a host whose presented key is the one the run dialled with,
    or on any host when it dialled with none; the stored fingerprint is replaced only in
    the second case.  So when no statement faults, a server that has a fingerprint on
    record keeps it, and commands are run only if the address presented that fingerprint. *)
Theorem host_key_trust i s s' :
  runSetup r i s = (tt, s') →
  (∃ pinned, read_pin pinned (w_db (s_world s)) ∧
     ((silent s s' ∧ servers (w_db (s_world s')) = servers (w_db (s_world s))) ∨
      ∃ n fp, presented_key n (dial_addr (dial_target i pinned)) = Some fp ∧ (pinned = "" ∨ fp = pinned) ∧
        repinned pinned fp (servers (w_db (s_world s))) (servers (w_db (s_world s'))))) ∧
  ∀ fp, (∀ n, fault n = false) → sql_GetServerHostKeyFingerprint srv (w_db (s_world s)) = Some fp → fp ≠ "" →
    servers (w_db (s_world s')) = servers (w_db (s_world s)) ∧
    (silent s s' ∨ ∃ n, presented_key n (dial_addr (dial_target i fp)) = Some fp).
Proof.
  intros Hrun. apply (rp_run _ _ _ _ _ (rp_runSetup i s)) in Hrun as [_ Hw].
  assert (∃ pinned, read_pin pinned (w_db (s_world s)) ∧
     ((silent s s' ∧ servers (w_db (s_world s')) = servers (w_db (s_world s))) ∨
      ∃ n fp, presented_key n (dial_addr (dial_target i pinned)) = Some fp ∧ (pinned = "" ∨ fp = pinned) ∧
        repinned pinned fp (servers (w_db (s_world s))) (servers (w_db (s_world s'))))) as H.
  { destruct Hw as [pinned e [Hp _] N S _ _|pinned fp reason s1 s2 [Hp [n Hd]] _ _ Hre G _ _ _ _ S2 _ _]; exists pinned; (split; [done|]).
    - by left.
    - right. exists n, fp. destruct (Dial_ok _ _ _ Hd) as [Hk Ha]. split; [done|]. split; [|by rewrite S2, (go_servers _ _ _ _ G)].
      apply orb_true_iff in Ha as [Ha|Ha]; apply String.eqb_eq in Ha; [by left|by right]. }
  split; [done|]. intros fp Hcalm Hfp Hne. destruct H as (pinned & [Hp|[_ [n Hn]]] & H); [|by rewrite Hcalm in Hn].
  rewrite Hfp in Hp. simpl in Hp. subst pinned. destruct H as [[N S]|(n & fp' & Hk & Hfp' & Hre)]; [by split; [|left]|].
  destruct Hfp' as [?| ->]; [done|]. destruct Hre as [Hre|[? _]]; [|done]. split; [done|]. right. by exists n.
Qed.
End Runner.
