(* ===== verification/ShellWords.v ===== *)
(** * ShellWords: the words a shell reads in the commands of a setup run

    A reader of POSIX shell words ([sh_words]) and the theorem that [shellQuote] carries a
    value through it. *)
From S2P Require Import Prelude.
From S2P Require Import GoStrings.
From S2P Require Import SetupRunner.

(** ** The words of a command *)

(** The words and operators a POSIX shell reads in a command of blanks, single quotes,
    backslashes and plain bytes; [None] where the shell would do more than read words. *)
Inductive Token := Word (w : string) | Op (c : ascii).
Definition word_of (cur : option bytes) (l : list Token) : list Token :=
  match cur with None => l | Some w => Word (str_of (rev w)) :: l end.
Definition is_op (c : ascii) : bool := bool_decide (c ∈ ["|"; "&"; ">"; "<"; ";"]%char).
Definition is_special (c : ascii) : bool :=
  bool_decide (c ∈ ["$"; "`"; "*"; "?"; "["; "#"; "~"; "("; ")"; "{"; "!"; "="; chr 34; chr 10]%char).
Fixpoint sh_read (l : bytes) (quoted : bool) (cur : option bytes) : option (list Token) :=
  match l with
  | [] => if quoted then None else Some (word_of cur [])
  | c :: rest =>
      if quoted then
        if Ascii.eqb c apostrophe then sh_read rest false cur else sh_read rest true (Some (c :: default [] cur))
      else if Ascii.eqb c apostrophe then sh_read rest true (Some (default [] cur))
      else if is_code 92 c then
        match rest with
        | [] => None
        | d :: rest => if is_code 10 d then None else sh_read rest false (Some (d :: default [] cur))
        end
      else if is_code 32 c then word_of cur <$> sh_read rest false None
      else if is_op c then (word_of cur ∘ cons (Op c)) <$> sh_read rest false None
      else if is_special c then None
      else sh_read rest false (Some (c :: default [] cur))
  end.
Definition sh_words (cmd : string) : option (list Token) := sh_read (bytes_of cmd) false None.

Lemma read_quoted s rest cur :
  sh_read (flat_map quote_byte s ++ apostrophe :: rest) true (Some cur) = sh_read rest false (Some (rev s ++ cur)).
Proof.
  revert cur. induction s as [|c s IH]; intros cur; [done|]. simpl flat_map. unfold quote_byte at 1.
  destruct (Ascii.eqb_spec c apostrophe) as [->|Hne].
  - simpl. rewrite IH. by rewrite <- app_assoc.
  - rewrite <- app_assoc. simpl. destruct (Ascii.eqb_spec c apostrophe); [done|]. rewrite IH. by rewrite <- app_assoc.
Qed.
Lemma read_shellQuote s rest :
  sh_read (bytes_of (shellQuote s +:+ rest)) false None = sh_read (bytes_of rest) false (Some (rev (bytes_of s))).
Proof.
  rewrite bytes_of_app. unfold shellQuote. rewrite bytes_of_str_of, <- !app_assoc. simpl.
  rewrite read_quoted. by rewrite app_nil_r.
Qed.

(** A command read up to a blank, then the rest. *)
Lemma word_of_app cur l k : word_of cur l ++ k = word_of cur (l ++ k).
Proof. by destruct cur. Qed.
Lemma read_app rest n : ∀ p quoted cur toks, (length p ≤ n)%nat →
  sh_read p quoted cur = Some toks → sh_read (p ++ " "%char :: rest) quoted cur = (λ l, toks ++ l) <$> sh_read rest false None.
Proof.
  induction n as [|n IH]; intros [|c p] quoted cur toks Hn; simpl in Hn; try lia; simpl.
  1, 2: destruct quoted; [done|]; intros [= <-]; simpl; destruct (sh_read rest false None); [|done]; simpl; by rewrite word_of_app.
  destruct quoted; [destruct (Ascii.eqb c apostrophe); apply IH; lia|].
  destruct (Ascii.eqb c apostrophe); [apply IH; lia|]. destruct (is_code 92 c).
  { destruct p as [|d p]; [done|]. simpl in *. destruct (is_code 10 d); [done|]. apply IH. lia. }
  destruct (is_code 32 c).
  { destruct (sh_read p false None) as [t|] eqn:Hp; [|done]. intros [= <-]. rewrite (IH p false None t); [|lia|done].
    destruct (sh_read rest false None); [|done]. simpl. by rewrite word_of_app. }
  destruct (is_op c).
  { destruct (sh_read p false None) as [t|] eqn:Hp; [|done]. intros [= <-]. rewrite (IH p false None t); [|lia|done].
    destruct (sh_read rest false None); [|done]. simpl. by rewrite word_of_app. }
  destruct (is_special c); [done|]. apply IH. lia.
Qed.
Lemma words_app cmd toks rest : sh_words cmd = Some toks → sh_words (cmd +:+ " " +:+ rest) = (λ l, toks ++ l) <$> sh_words rest.
Proof. intros H. unfold sh_words. rewrite !bytes_of_app. by eapply read_app. Qed.
Lemma words_value s rest : sh_words (shellQuote s +:+ " " +:+ rest) = cons (Word s) <$> sh_words rest.
Proof.
  unfold sh_words. rewrite read_shellQuote, bytes_of_app. simpl.
  destruct (sh_read (bytes_of rest) false None); [|done]. simpl. by rewrite rev_involutive, str_of_bytes_of.
Qed.
Lemma words_last_value s : sh_words (shellQuote s) = Some [Word s].
Proof.
  unfold sh_words. rewrite <- (app_nil_r (bytes_of (shellQuote s))). change (@nil ascii) with (bytes_of "") at 1. rewrite <- bytes_of_app, read_shellQuote.
  simpl. by rewrite rev_involutive, str_of_bytes_of.
Qed.

(** C20: A shell reads the control plane's address, the registration token and the management
    public key back as single words, whatever bytes they are made of: the installer's
    command line is exactly its flags with these two words, and what is written to
    authorized_keys is the public line. *)
Theorem commands_carry_words url token pub :
  sh_words (cmd_install url token) =
    Some [Word "curl"; Word "-fsSL"; Word installerURL; Op "|"; Word "sudo"; Word "sh"; Word "-s"; Word "--";
          Word "--control-plane"; Word url; Word "--token"; Word token] ∧
  ∃ rest, sh_words (cmd_install_key pub) =
    Some (Word "printf" :: Word "%s\n" :: Word pub :: Op "|" :: Word "sudo" :: Word "tee" ::
          Word "/home/plorigo/.ssh/authorized_keys" :: Op ">" :: Word "/dev/null" :: rest).
Proof.
  split.
  - transitivity (sh_words (("curl -fsSL " +:+ installerURL +:+ " | sudo sh -s -- --control-plane") +:+ " " +:+
      (shellQuote url +:+ " " +:+ ("--token" +:+ " " +:+ shellQuote token)))).
    { unfold cmd_install. by rewrite !String_append_assoc. }
    erewrite words_app by (vm_compute; reflexivity). rewrite words_value.
    erewrite words_app by (vm_compute; reflexivity). rewrite words_last_value. done.
  - eexists. transitivity (sh_words ("printf '%s\n'" +:+ " " +:+ (shellQuote pub +:+ " " +:+
      "| sudo tee /home/plorigo/.ssh/authorized_keys >/dev/null && sudo chmod 600 /home/plorigo/.ssh/authorized_keys && sudo chown plorigo:plorigo /home/plorigo/.ssh/authorized_keys"))); [done|].
    erewrite words_app by (vm_compute; reflexivity). rewrite words_value. vm_compute. reflexivity.
Qed.
