(* ===== verification/AgentIdentity.v ===== *)
(** * AgentIdentity: the agent joins the control plane and stays in touch

    [internal/agentcore]: the start of [Run], [register], [heartbeatLoop] and the state
    file of agentcore.go, the facts of a heartbeat of health.go and the parsing of
    sysinfo.go.  The control plane is behind the class [AgentClient], the machine behind
    [Machine]; the process is its state file, its identity and the trace of what it did. *)
From S2P Require Import Prelude.
From S2P Require Import GoStrings.
From S2P Require Import Json.
From S2P Require Import Problem.
From S2P Require Import Platform.
From S2P Require Import Caddy.
From S2P Require Import Agent.
From S2P Require Import AgentRegistry.

(** ** Data *)
Definition Version : string := "dev".
Definition defaultHeartbeat : Z := 30 * time_Second.
Definition defaultPoll : Z := 4 * time_Second.
Definition defaultCaddyBin : string := "caddy".
Definition defaultCaddyAdmin : string := "localhost:2019".

(** [Options]; the Caddy fields are those of [Caddy.Options]. *)
Record AgentOptions := mk_AgentOptions {
  op_ControlPlaneURL : string; op_RegistrationToken : string; op_DataDir : string;
  op_HeartbeatInterval : Z; op_PollInterval : Z; op_CaddyBin : string; op_Caddy : Caddy.Options;
}.
Record state := mk_state { st_AgentID : string; st_Credential : string; st_PrivateKeyB64 : string }.

Record RegisterRequest := mk_RegisterRequest { rq_RegistrationToken : string; rq_PublicKey : list Z; rq_AgentVersion : string }.
Record RegisterResponse := mk_RegisterResponse { rp_AgentId : string; rp_Credential : string }.
Record HeartbeatResponse := mk_HeartbeatResponse { rp_NextIntervalSeconds : Z }.
(** An error of a call; a transport error has none of the codes of [connect_code]. *)
Record ClientError := mk_ClientError { ce_Code : option connect_code; ce_Text : string }.

(** ** Facts (health.go, sysinfo.go) *)
Record hostResources := mk_hostResources { diskTotalBytes : Z; diskFreeBytes : Z; memTotalBytes : Z; memAvailableBytes : Z }.
Record healthFacts := mk_healthFacts {
  hf_DockerAvailable : bool; hf_DockerVersion : string; hf_OS : string; hf_Arch : string;
  hf_CaddyAvailable : bool; hf_CaddyRunning : bool; hf_CaddyVersion : string;
  hf_resources : hostResources; hf_CPUCount : Z;
}.
Definition parseCaddyVersion (out : string) : string :=
  match Fields out with [] => "" | f :: _ => TrimPrefix f "v" end.

Definition meminfoKB (v : string) : Z :=
  match Fields v with
  | [] => 0
  | f :: _ => match Atoi f with Some n => int64_wrap (n * 1024) | None => 0 end
  end.
(** The lines a [bufio.Scanner] yields: without their ending, up to the first one that
    does not fit its 64 KiB buffer. *)
Definition chomp (l : bytes) : bytes :=
  match rev l with c :: r => if Ascii.eqb c (chr 13) then rev r else l | [] => [] end.
Fixpoint scan_lines (lines : list bytes) : list bytes :=
  match lines with
  | [] => []
  | l :: ls => if 65535 <? Z.of_nat (length l) then []
               else match l, ls with [], [] => [] | _, _ => chomp l :: scan_lines ls end
  end.
Definition meminfo_line (acc : Z * Z) (line : bytes) : Z * Z :=
  match cut_bytes ":" line with
  | None => acc
  | Some (key, val) =>
      if bool_decide (str_of key = "MemTotal") then (meminfoKB (str_of val), snd acc)
      else if bool_decide (str_of key = "MemAvailable") then (fst acc, meminfoKB (str_of val)) else acc
  end.
Definition parseMeminfo (text : string) : Z * Z :=
  foldl meminfo_line (0, 0) (scan_lines (split_bytes (chr 10) (bytes_of text))).

(** ** The machine and the control plane *)
Inductive write_outcome := Written | WriteFailed (e : go_error) (kept : option nat).   (* what is left of the data *)
Class Machine := {
  m_ctx_done : nat → bool;                                   (* the context has ended *)
  m_ctx_done_mono : ∀ n k, (n ≤ k)%nat → m_ctx_done n = true → m_ctx_done k = true;
  m_read_fault : nat → error;                                (* os.ReadFile, but not ErrNotExist *)
  m_mkdir : nat → string → error;                            (* os.MkdirAll *)
  m_write : nat → write_outcome;                             (* os.WriteFile *)
  m_GenerateKey : nat → go_error + (list Z * list Z);        (* ed25519: public, private *)
  m_GenerateKey_spec : ∀ n pub priv, m_GenerateKey n = inr (pub, priv) → length pub = 32%nat;
  m_userConfigDir : string;                                  (* empty when it fails *)
  m_GOOS : string; m_GOARCH : string; m_NumCPU : Z;
  m_serverVersion : nat → go_error + string;                 (* Docker *)
  m_caddyVersion : nat → string → go_error + string;         (* caddy version *)
  m_caddyAdmin : nat → string → bool;                        (* GET http://ADDR/config/ answers *)
  m_statfs : nat → string → option (Z * Z * Z);              (* blocks, available, block size *)
  m_meminfo : nat → option string;                           (* /proc/meminfo *)
}.
Class AgentClient (C : Type) := {
  client_Register : nat → RegisterRequest → C → (ClientError + RegisterResponse) * C;
  client_Heartbeat : nat → HeartbeatRequest → C → (ClientError + HeartbeatResponse) * C;
}.

(** What the process does, in order. *)
Inductive IdEvent :=
  | EvGenerateKey | EvRegister (token : string) | EvHeartbeat (m : HeartbeatRequest)
  | EvReadState | EvWriteState (st : state) | EvMkdir
  | EvProbe (what : string) | EvSleep (d : Z) | EvPrint (format : string) (args : list fmt_arg).

Record Proc (C : Type) := mk_Proc { pr_file : option bytes; pr_ident : state; pr_trace : list IdEvent; pr_ctl : C }.
Arguments mk_Proc {C} _ _ _ _.
Arguments pr_file {C} _.
Arguments pr_ident {C} _.
Arguments pr_trace {C} _.
Arguments pr_ctl {C} _.
Definition IM (C A : Type) : Type := Proc C → A * Proc C.
#[global] Instance IM_ret {C} : MRet (IM C) := λ A a p, (a, p).
#[global] Instance IM_bind {C} : MBind (IM C) := λ A B k m p, let '(a, p') := m p in k a p'.

Section Process.
Context {H : Machine} {C : Type} {K : AgentClient C}.

(** One event and its answer, given the number of events before it. *)
Definition event {A} (e : IdEvent) (answer : nat → A) : IM C A := λ p,
  (answer (length (pr_trace p)), mk_Proc (pr_file p) (pr_ident p) (pr_trace p ++ [e]) (pr_ctl p)).
Definition call {A} (e : IdEvent) (f : nat → C → A * C) : IM C A := λ p,
  let '(a, c) := f (length (pr_trace p)) (pr_ctl p) in
  (a, mk_Proc (pr_file p) (pr_ident p) (pr_trace p ++ [e]) c).
Definition print (format : string) (args : list fmt_arg) : IM C unit := event (EvPrint format args) (λ _, tt).
Definition ident_get : IM C state := λ p, (pr_ident p, p).
Definition ident_set (st : state) : IM C unit := λ p, (tt, mk_Proc (pr_file p) st (pr_trace p) (pr_ctl p)).
(** ctx.Err() != nil *)
Definition ctx_ended : IM C bool := λ p, (m_ctx_done (length (pr_trace p)), p).
Definition sleep (d : Z) : IM C bool := event (EvSleep d) (λ n, negb (m_ctx_done n)).

(** *** The state file *)
Definition marshal_state (st : state) : bytes :=
  marshal_struct_indent [("agent_id", json_string (bytes_of (st_AgentID st)));
                         ("credential", json_string (bytes_of (st_Credential st)));
                         ("private_key", json_string (bytes_of (st_PrivateKeyB64 st)))].
Definition unmarshal_state (data : bytes) : option state :=
  ms ← unmarshal_struct data;
  id ← assign_field string_value "" "agent_id" ms;
  cred ← assign_field string_value "" "credential" ms;
  key ← assign_field string_value "" "private_key" ms;
  Some (mk_state id cred key).

Definition loadState : IM C (go_error + option state) := λ p,
  let '(err, p') := event EvReadState m_read_fault p in
  (match err, pr_file p with
   | Some e, _ => inl e
   | None, None => inr None
   | None, Some data =>
       match unmarshal_state data with
       | None => inl (ErrOther "json")
       | Some st => if String.eqb (st_AgentID st) "" || String.eqb (st_Credential st) "" then inr None else inr (Some st)
       end
   end, p').

(** A failed write leaves the file as it was or with a part of the data. *)
Definition write_file (st : state) : IM C error := λ p,
  let data := marshal_state st in
  let '(out, p') := event (EvWriteState st) m_write p in
  match out with
  | Written => (None, mk_Proc (Some data) (pr_ident p') (pr_trace p') (pr_ctl p'))
  | WriteFailed e kept =>
      (Some e, mk_Proc (match kept with Some k => Some (take k data) | None => pr_file p' end)
                 (pr_ident p') (pr_trace p') (pr_ctl p'))
  end.
Definition saveState (dir : string) (st : state) : IM C error :=
  err ← event EvMkdir (λ n, m_mkdir n dir);
  match err with
  | Some e => mret (Some e)
  | None => write_file st
  end.
Definition defaultDataDir : string :=
  if String.eqb m_userConfigDir "" then ".plorigo-agent"
  else filepath_Join [m_userConfigDir; "plorigo"; "agent"].

(** *** register *)
Definition register (opts : AgentOptions) : IM C (go_error + state) :=
  if String.eqb (op_RegistrationToken opts) ""
  then mret (inl (Errorf "no stored identity and no registration token (set --token or PLORIGO_AGENT_TOKEN)" [] None))
  else
    k ← event EvGenerateKey m_GenerateKey;
    match k with
    | inl e => mret (inl (Errorf "generate keypair: %w" [] (Some e)))
    | inr (pub, priv) =>
        resp ← call (EvRegister (op_RegistrationToken opts))
                 (λ n, client_Register n (mk_RegisterRequest (op_RegistrationToken opts) pub Version));
        match resp with
        | inl e => mret (inl (Errorf "register: %w" [] (Some (ErrOther (ce_Text e)))))
        | inr r => mret (inr (mk_state (rp_AgentId r) (rp_Credential r) (str_of (b64std_encode priv))))
        end
    end.

(** *** collectHealth *)
Definition diskUsage (path : string) : IM C (Z * Z) :=
  let path := if String.eqb path "" then "/" else path in
  s ← event (EvProbe "statfs") (λ n, m_statfs n path);
  mret (match s with
        | None => (0, 0)
        | Some (blocks, bavail, bsize) => (int64_wrap (int64_wrap blocks * bsize), int64_wrap (int64_wrap bavail * bsize))
        end).
Definition memInfo : IM C (Z * Z) :=
  s ← event (EvProbe "meminfo") m_meminfo; mret (match s with None => (0, 0) | Some t => parseMeminfo t end).
Definition collectHostResources (dataDir : string) : IM C hostResources :=
  d ← diskUsage dataDir; m ← memInfo; mret (mk_hostResources (fst d) (snd d) (fst m) (snd m)).
Definition probeCaddy (opts : AgentOptions) : IM C (bool * string * bool) :=
  let bin := TrimSpace (op_CaddyBin opts) in
  let bin := if String.eqb bin "" then defaultCaddyBin else bin in
  out ← event (EvProbe "caddy version") (λ n, m_caddyVersion n bin);
  let admin := TrimSpace (o_CaddyAdmin (op_Caddy opts)) in
  let admin := if String.eqb admin "" then defaultCaddyAdmin else admin in
  running ← event (EvProbe "caddy admin") (λ n, m_caddyAdmin n admin);
  mret (match out with
        | inr v => (true, parseCaddyVersion v, running)
        | inl _ => (false, "", running)
        end).
(** Without a client Docker counts as unavailable. *)
Definition probeDocker (hasProber : bool) : IM C (go_error + string) :=
  if hasProber then event (EvProbe "docker") m_serverVersion else mret (inl (ErrOther "no prober")).
Definition collectHealth (hasProber : bool) (opts : AgentOptions) : IM C healthFacts :=
  res ← collectHostResources (op_DataDir opts);
  docker ← probeDocker hasProber;
  c ← probeCaddy opts;
  let '(available, version, running) := c in
  mret (mk_healthFacts (match docker with inr _ => true | inl _ => false end) (match docker with inr v => v | inl _ => "" end)
          m_GOOS m_GOARCH available running version res m_NumCPU).

(** *** heartbeatLoop *)
Definition heartbeat_request (st : state) (f : healthFacts) : HeartbeatRequest := {|
  hm_AgentId := st_AgentID st; hm_Credential := st_Credential st; hm_AgentVersion := Version;
  hm_DockerAvailable := hf_DockerAvailable f; hm_DockerVersion := hf_DockerVersion f;
  hm_Os := hf_OS f; hm_Arch := hf_Arch f;
  hm_CaddyAvailable := hf_CaddyAvailable f; hm_CaddyRunning := hf_CaddyRunning f; hm_CaddyVersion := hf_CaddyVersion f;
  hm_DiskTotalBytes := diskTotalBytes (hf_resources f); hm_DiskFreeBytes := diskFreeBytes (hf_resources f);
  hm_MemTotalBytes := memTotalBytes (hf_resources f); hm_MemAvailableBytes := memAvailableBytes (hf_resources f);
  hm_CpuCount := hf_CPUCount f mod 2 ^ 32;
|}.

(** The variables of the loop. *)
Record LoopVars := mk_LoopVars { lv_backoff : Z; lv_reregisterTried : bool }.

Definition rejected (e : ClientError) : bool :=
  match ce_Code e with Some CodePermissionDenied => true | _ => false end.

(** The end of a failed iteration: wait, then back off; nothing when the context ended. *)
Definition retry_later (v : LoopVars) (e : ClientError) : IM C (option LoopVars) :=
  _ ← print "heartbeat failed (retrying in %s): %v" [AInt (lv_backoff v); AStr (ce_Text e)];
  ok ← sleep (lv_backoff v);
  mret (if ok : bool then Some (mk_LoopVars (nextBackoff (lv_backoff v)) (lv_reregisterTried v)) else None).

Definition reregister (opts : AgentOptions) (v : LoopVars) (e : ClientError) : IM C (option LoopVars) :=
  let v := mk_LoopVars (lv_backoff v) true in
  _ ← print "stored credential rejected by the control plane; re-registering with the provided token" [];
  newSt ← register opts;
  match newSt with
  | inr st =>
      serr ← saveState (op_DataDir opts) st;
      _ ← (match serr with
           | Some _ => print "warning: could not persist the new identity: %v" []
           | None => mret tt
           end);
      _ ← ident_set st;
      _ ← print "re-registered as agent %s" [AStr (st_AgentID st)];
      mret (Some (mk_LoopVars time_Second true))
  | inl _ =>
      ended ← ctx_ended;
      if (ended : bool) then mret None
      else _ ← print "re-registration failed: %v (mint a fresh install command from the server card in the dashboard)" [];
           retry_later v e
  end.

(** One iteration: the variables of the next one, or nothing when the loop returns. *)
Definition beat (hasProber : bool) (opts : AgentOptions) (v : LoopVars) : IM C (option LoopVars) :=
  st ← ident_get;
  facts ← collectHealth hasProber opts;
  let m := heartbeat_request st facts in
  resp ← call (EvHeartbeat m) (λ n, client_Heartbeat n m);
  match resp with
  | inl e =>
      ended ← ctx_ended;
      if (ended : bool) then mret None
      else if rejected e && negb (String.eqb (op_RegistrationToken opts) "") && negb (lv_reregisterTried v)
      then reregister opts v e
      else retry_later v e
  | inr r =>
      let next := if 0 <? rp_NextIntervalSeconds r then int64_wrap (rp_NextIntervalSeconds r * time_Second)
                  else op_HeartbeatInterval opts in
      ok ← sleep next;
      mret (if ok : bool then Some (mk_LoopVars time_Second (lv_reregisterTried v)) else None)
  end.

(** The loop for as many iterations as there is fuel; [None] when it still runs. *)
Fixpoint loop (fuel : nat) (hasProber : bool) (opts : AgentOptions) (v : LoopVars) : IM C (option unit) :=
  match fuel with
  | O => mret None
  | S fuel =>
      r ← beat hasProber opts v;
      match r with
      | None => mret (Some tt)
      | Some v => loop fuel hasProber opts v
      end
  end.
Definition heartbeatLoop (fuel : nat) (hasProber : bool) (opts : AgentOptions) : IM C (option unit) :=
  loop fuel hasProber opts (mk_LoopVars time_Second false).

(** *** Run, up to the start of the loops *)
Definition with_defaults (opts : AgentOptions) : AgentOptions :=
  mk_AgentOptions (op_ControlPlaneURL opts) (op_RegistrationToken opts)
    (if String.eqb (op_DataDir opts) "" then defaultDataDir else op_DataDir opts)
    (if op_HeartbeatInterval opts <=? 0 then defaultHeartbeat else op_HeartbeatInterval opts)
    (if op_PollInterval opts <=? 0 then defaultPoll else op_PollInterval opts)
    (op_CaddyBin opts) (op_Caddy opts).
Definition Run_start (opts : AgentOptions) : IM C (go_error + (AgentOptions * caddyManager)) :=
  if String.eqb (op_ControlPlaneURL opts) ""
  then mret (inl (Errorf "control plane URL is required (set --control-plane or PLORIGO_CONTROL_PLANE)" [] None))
  else
    let opts := with_defaults opts in
    match newCaddyManager (op_Caddy opts) (filepath_Join [op_DataDir opts; "Caddyfile"]) with
    | inl e => mret (inl (Errorf "configure Caddy routing: %w" [] (Some e)))
    | inr router =>
        loaded ← loadState;
        match loaded with
        | inl e => mret (inl (Errorf "load agent state: %w" [] (Some e)))
        | inr None =>
            _ ← print "plorigo agent %s: registering with %s" [AStr Version; AStr (op_ControlPlaneURL opts)];
            fresh ← register opts;
            match fresh with
            | inl e => mret (inl e)
            | inr st =>
                serr ← saveState (op_DataDir opts) st;
                match serr with
                | Some e => mret (inl (Errorf "save agent state: %w" [] (Some e)))
                | None =>
                    _ ← print "registered as agent %s (identity: %s)" [AStr (st_AgentID st); AStr (filepath_Join [op_DataDir opts; "agent.json"])];
                    _ ← ident_set st;
                    mret (inr (opts, router))
                end
            end
        | inr (Some st) =>
            _ ← print "plorigo agent %s: resuming as agent %s (identity: %s)" [AStr Version; AStr (st_AgentID st); AStr (filepath_Join [op_DataDir opts; "agent.json"])];
            _ ← (if negb (String.eqb (op_RegistrationToken opts) "")
                 then print "a registration token was provided; it will be used to re-register if the control plane rejects the stored credential" []
                 else mret tt);
            _ ← ident_set st;
            mret (inr (opts, router))
        end
    end.
End Process.
