(* ===== verification/AgentIdentityProps.v ===== *)
(** * AgentIdentityProps: one identity at a time, and a loop that ends

    The heartbeat loop of [AgentIdentity] returns once its context has ended, uses the
    registration token at most once and never mixes identities; an identity that was
    saved is the one the next process resumes with; and an agent whose credential the
    registry of [AgentRegistry] no longer knows heals itself with a fresh token. *)
From S2P Require Import Prelude.
From S2P Require Import GoStrings.
From S2P Require Import Json.
From S2P Require Import JsonProps.
From S2P Require Import Sha256.
From S2P Require Import Problem.
From S2P Require Import Schema.
From S2P Require Import Platform.
From S2P Require Import Authz.
From S2P Require Import DeployStore.
From S2P Require Import DeploySpec.
From S2P Require Import DeployJobs.
From S2P Require Import Gateway.
From S2P Require Import Caddy.
From S2P Require Import Agent.
From S2P Require Import AgentRegistry.
From S2P Require Import AgentRegistryProps.
From S2P Require Import AgentIdentity.

(** ** Reasoning about the process *)
Definition iwp {C A} (m : IM C A) (Q : A → Proc C → Prop) (p : Proc C) : Prop := Q (fst (m p)) (snd (m p)).

Section Rules.
Context {H : Machine} {C : Type} {K : AgentClient C}.
Implicit Types (p : Proc C).

Lemma iwp_ret {A} (a : A) Q p : Q a p → iwp (mret a : IM C A) Q p.
Proof. done. Qed.
Lemma iwp_bind {A B} (m : IM C A) (k : A → IM C B) Q p : iwp m (λ a p1, iwp (k a) Q p1) p → iwp (m ≫= k) Q p.
Proof. unfold iwp, mbind, IM_bind. by destruct (m p) as [a p1]. Qed.
Lemma iwp_mono {A} (m : IM C A) (Q Q' : A → Proc C → Prop) p : (∀ a p', Q a p' → Q' a p') → iwp m Q p → iwp m Q' p.
Proof. unfold iwp. auto. Qed.
Lemma iwp_event {A} (e : IdEvent) (f : nat → A) Q p :
  Q (f (length (pr_trace p))) (mk_Proc (pr_file p) (pr_ident p) (pr_trace p ++ [e]) (pr_ctl p)) → iwp (event e f) Q p.
Proof. done. Qed.
Lemma iwp_call {A} (e : IdEvent) (f : nat → C → A * C) Q p :
  (∀ a c, f (length (pr_trace p)) (pr_ctl p) = (a, c) → Q a (mk_Proc (pr_file p) (pr_ident p) (pr_trace p ++ [e]) c)) →
  iwp (call e f) Q p.
Proof. intros Hq. unfold iwp, call. destruct (f _ _) as [a c] eqn:Hf. by apply Hq. Qed.

(** Only probes, waiting and output: nothing of the process but its trace changes. *)
Definition quiet_event (e : IdEvent) : Prop :=
  match e with EvProbe _ | EvSleep _ | EvPrint _ _ => True | _ => False end.
Definition quiet (p p' : Proc C) : Prop :=
  ∃ ext, Forall quiet_event ext ∧ p' = mk_Proc (pr_file p) (pr_ident p) (pr_trace p ++ ext) (pr_ctl p).
Lemma quiet_refl p : quiet p p.
Proof. exists []. rewrite app_nil_r. by destruct p. Qed.
Lemma quiet_trans p p1 p2 : quiet p p1 → quiet p1 p2 → quiet p p2.
Proof.
  intros (e1 & H1 & ->) (e2 & H2 & ->). exists (e1 ++ e2). simpl. rewrite app_assoc. split; [by apply Forall_app|done].
Qed.
Definition hushed {A} (m : IM C A) : Prop := ∀ p, quiet p (snd (m p)).
Lemma hushed_ret {A} (a : A) : hushed (mret a).
Proof. intros p. apply quiet_refl. Qed.
Lemma hushed_bind {A B} (m : IM C A) (k : A → IM C B) : hushed m → (∀ a, hushed (k a)) → hushed (m ≫= k).
Proof.
  intros Hm Hk p. specialize (Hm p). unfold mbind, IM_bind. destruct (m p) as [a p1]. eapply quiet_trans; [exact Hm|apply Hk].
Qed.
Lemma hushed_event {A} (e : IdEvent) (f : nat → A) : quiet_event e → hushed (event e f).
Proof. intros He p. exists [e]. split; [by constructor|done]. Qed.
Lemma iwp_hushed {A} (m : IM C A) (Q : A → Proc C → Prop) p : hushed m → (∀ a p', quiet p p' → Q a p') → iwp m Q p.
Proof. intros Hm HQ. apply HQ, Hm. Qed.

Lemma hushed_collectHealth hasProber opts : hushed (collectHealth hasProber opts).
Proof.
  unfold collectHealth, collectHostResources, diskUsage, memInfo, probeCaddy, probeDocker.
  repeat first [apply hushed_bind; [|intros ?]|apply hushed_event; exact I|apply hushed_ret|case_match].
Qed.
Lemma hushed_print format args : hushed (print format args).
Proof. by apply hushed_event. Qed.

(** ** The two ways through an iteration *)
Definition not_register (e : IdEvent) : Prop := match e with EvRegister _ => False | _ => True end.
(** Every heartbeat carries the credential and nothing registers. *)
Definition sends (cred : string) (ext : list IdEvent) : Prop :=
  Forall (λ e, not_register e ∧ match e with EvHeartbeat m => hm_Credential m = cred | _ => True end) ext.
Definition beats (ext : list IdEvent) : nat := length (List.filter (λ e, match e with EvHeartbeat _ => true | _ => false end) ext).

(** The process kept its identity and file; it sent the events of [ext]. *)
Definition stays (ext : list IdEvent) (p p' : Proc C) : Prop :=
  sends (st_Credential (pr_ident p)) ext ∧ pr_trace p' = pr_trace p ++ ext ∧
  pr_ident p' = pr_ident p ∧ pr_file p' = pr_file p.
(** What a save of [st] can leave in the file. *)
Definition saved (st : state) (f f' : option bytes) : Prop :=
  f' = f ∨ f' = Some (marshal_state st) ∨ ∃ k, f' = Some (take k (marshal_state st)).
(** It registered once: the old identity before, after it the old one or the new one. *)
Definition switches (opts : AgentOptions) (ext : list IdEvent) (p p' : Proc C) : Prop :=
  ∃ e1 e2, ext = e1 ++ EvRegister (op_RegistrationToken opts) :: e2 ∧ op_RegistrationToken opts ≠ "" ∧
    (0 < beats e1)%nat ∧ sends (st_Credential (pr_ident p)) e1 ∧ sends (st_Credential (pr_ident p')) e2 ∧
    pr_trace p' = pr_trace p ++ ext ∧
    (pr_ident p' = pr_ident p ∧ pr_file p' = pr_file p ∨ saved (pr_ident p') (pr_file p) (pr_file p')).

Lemma sends_app cred e1 e2 : sends cred (e1 ++ e2) ↔ sends cred e1 ∧ sends cred e2.
Proof. apply Forall_app. Qed.
Lemma sends_quiet cred ext : Forall quiet_event ext → sends cred ext.
Proof. intros He. eapply Forall_impl; [exact He|]. by intros []. Qed.
Lemma quiet_stays p p' : quiet p p' → ∃ ext, stays ext p p' ∧ beats ext = 0%nat.
Proof.
  intros (ext & He & ->). exists ext. split; [by repeat split; try apply sends_quiet|].
  unfold beats. induction He as [|e ext He _ IH]; [done|]. simpl. by destruct e.
Qed.
Lemma beats_app e1 e2 : beats (e1 ++ e2) = (beats e1 + beats e2)%nat.
Proof. unfold beats. by rewrite List.filter_app, length_app. Qed.
Lemma stays_trans e1 e2 p p1 p2 : stays e1 p p1 → stays e2 p1 p2 → stays (e1 ++ e2) p p2.
Proof.
  intros (H1 & T1 & I1 & F1) (H2 & T2 & I2 & F2). split; [rewrite I1 in H2; by apply sends_app|].
  rewrite T2, T1, app_assoc. split; [done|]. split; congruence.
Qed.
Lemma stays_switches opts e1 e2 p p1 p2 : stays e1 p p1 → switches opts e2 p1 p2 → switches opts (e1 ++ e2) p p2.
Proof.
  intros (H1 & T1 & I1 & F1) (a & b & -> & Ht & Hb & Ha & Hsb & T2 & Hid). rewrite I1 in Ha, Hid. rewrite F1 in Hid. exists (e1 ++ a), b. rewrite <- app_assoc.
  split; [done|]. split; [done|]. rewrite beats_app. split; [lia|].
  split; [by apply sends_app|]. split; [done|]. split; [by rewrite T2, T1, <- !app_assoc|done].
Qed.
Lemma switches_stays opts e1 e2 p p1 p2 : switches opts e1 p p1 → stays e2 p1 p2 → switches opts (e1 ++ e2) p p2.
Proof.
  intros (a & b & -> & Ht & Hb & Ha & Hsb & T1 & Hid) (H2 & T2 & I2 & F2). exists a, (b ++ e2). rewrite <- app_assoc.
  split; [done|]. do 3 (split; [done|]). rewrite I2, F2. split; [by apply sends_app|].
  split; [by rewrite T2, T1, <- !app_assoc|done].
Qed.

(** *** The pieces of an iteration *)
(** What a failed iteration leads to when it does not register. *)
Definition waited (v : LoopVars) (p p' : Proc C) (r : option LoopVars) : Prop :=
  (0 < length (pr_trace p'))%nat ∧
  (∃ ext, stays ext p p') ∧
  (r = None ∨ m_ctx_done (pred (length (pr_trace p'))) = false ∧ ∃ v', r = Some v' ∧ lv_reregisterTried v' = lv_reregisterTried v).

Lemma iwp_sleep d (Q : bool → Proc C → Prop) p :
  (∀ p', (0 < length (pr_trace p'))%nat → quiet p p' → Q (negb (m_ctx_done (pred (length (pr_trace p'))))) p') → iwp (sleep d) Q p.
Proof.
  intros HQ. apply iwp_event. specialize (HQ (mk_Proc (pr_file p) (pr_ident p) (pr_trace p ++ [EvSleep d]) (pr_ctl p))).
  cbn [pr_trace] in HQ. rewrite length_app in HQ. simpl in HQ. replace (pred (length (pr_trace p) + 1)) with (length (pr_trace p)) in HQ by lia.
  apply HQ; [lia|]. exists [EvSleep d]. split; [by repeat constructor|done].
Qed.

Lemma iwp_retry_later v e (Q : option LoopVars → Proc C → Prop) p :
  (∀ r p', waited v p p' r → Q r p') → iwp (retry_later v e) Q p.
Proof.
  intros HQ. unfold retry_later. apply iwp_bind, iwp_hushed; [apply hushed_print|]. intros _ p1 H1.
  apply iwp_bind, iwp_sleep. intros p2 H0 H2. apply iwp_ret, HQ. split; [done|]. split.
  - destruct (quiet_stays _ _ (quiet_trans _ _ _ H1 H2)) as (ext & He & _). by exists ext.
  - destruct (m_ctx_done (pred (length (pr_trace p2)))) eqn:Hc; [by left|right]. by split; [|eexists].
Qed.

Lemma iwp_saveState dir st (Q : error → Proc C → Prop) p :
  (∀ err p' ext, sends (st_Credential st) ext → beats ext = 0%nat → pr_trace p' = pr_trace p ++ ext → pr_ident p' = pr_ident p →
     pr_ctl p' = pr_ctl p → saved st (pr_file p) (pr_file p') → (err = None → pr_file p' = Some (marshal_state st)) → Q err p') →
  iwp (saveState dir st) Q p.
Proof.
  intros HQ. unfold saveState. apply iwp_bind, iwp_event. case_match.
  { apply iwp_ret, (HQ _ _ [EvMkdir]); simpl; try done; [by repeat constructor|by left]. }
  unfold iwp, write_file, event. cbn -[marshal_state]. destruct (m_write _) as [|e kept].
  - apply (HQ _ _ ([EvMkdir] ++ [EvWriteState st])); cbn [pr_trace pr_ident pr_ctl pr_file fst snd];
      [by repeat constructor|done|by rewrite app_assoc|done|done|right; by left|done].
  - apply (HQ _ _ ([EvMkdir] ++ [EvWriteState st])); cbn [pr_trace pr_ident pr_ctl pr_file fst snd];
      [by repeat constructor|done|by rewrite app_assoc|done|done| |done].
    destruct kept as [k|]; [right; right; by exists k|by left].
Qed.

(** A registration: refused, or answered with an identity. *)
Lemma iwp_register opts (Q : go_error + state → Proc C → Prop) p : op_RegistrationToken opts ≠ "" →
  (∀ e p' ext, sends (st_Credential (pr_ident p)) ext → beats ext = 0%nat →
     pr_trace p' = pr_trace p ++ ext → pr_ident p' = pr_ident p → pr_file p' = pr_file p → Q (inl e) p') →
  (∀ e p', pr_trace p' = pr_trace p ++ [EvGenerateKey; EvRegister (op_RegistrationToken opts)] →
     pr_ident p' = pr_ident p → pr_file p' = pr_file p → Q e p') →
  iwp (register opts) Q p.
Proof.
  intros Ht He Ha. unfold register. apply String.eqb_neq in Ht as ->. apply iwp_bind, iwp_event.
  destruct (m_GenerateKey _) as [e|[pub priv]].
  { apply iwp_ret, (He _ _ [EvGenerateKey]); try done. by repeat constructor. }
  apply iwp_bind, iwp_call. intros resp c Hc. destruct resp as [e|r]; apply iwp_ret, Ha; simpl; try done; by rewrite <- app_assoc.
Qed.

(** An iteration keeps the identity, or registers: only once, and only with a token. *)
Definition beat_result (opts : AgentOptions) (v : LoopVars) (p p' : Proc C) (r : option LoopVars) : Prop :=
  (length (pr_trace p) < length (pr_trace p'))%nat ∧
  ((∃ ext, stays ext p p') ∧
   (r = None ∨ m_ctx_done (pred (length (pr_trace p'))) = false ∧ ∃ v', r = Some v' ∧ lv_reregisterTried v' = lv_reregisterTried v) ∨
   lv_reregisterTried v = false ∧ (∀ v', r = Some v' → lv_reregisterTried v' = true) ∧
   ((∃ ext, switches opts ext p p') ∨ ∃ ext, stays ext p p')).

Lemma stays_length ext p p' : stays ext p p' → length (pr_trace p') = (length (pr_trace p) + length ext)%nat.
Proof. intros (_ & -> & _). apply length_app. Qed.

Lemma iwp_ctx_ended (Q : bool → Proc C → Prop) p : Q (m_ctx_done (length (pr_trace p))) p → iwp ctx_ended Q p.
Proof. done. Qed.

(** After a refused registration the process only waits. *)
Lemma iwp_refused v e (Q : option LoopVars → Proc C → Prop) p :
  (∀ r p' ext, stays ext p p' → (∀ v', r = Some v' → lv_reregisterTried v' = lv_reregisterTried v) → Q r p') →
  iwp (ended ← ctx_ended;
       if (ended : bool) then mret None
       else _ ← print "re-registration failed: %v (mint a fresh install command from the server card in the dashboard)" [];
            retry_later v e)%stdpp Q p.
Proof.
  intros HQ. apply iwp_bind, iwp_ctx_ended. destruct (m_ctx_done _).
  - apply iwp_ret. destruct (quiet_stays p p (quiet_refl p)) as (x & S & _). by eapply HQ.
  - apply iwp_bind, iwp_hushed; [apply hushed_print|]. intros _ p1 Hq1. destruct (quiet_stays _ _ Hq1) as (x1 & S1 & _).
    apply iwp_retry_later. intros r p2 (_ & (x2 & S2) & Hr). eapply HQ; [by eapply stays_trans|].
    intros v' ->. destruct Hr as [|(_ & v2 & [= <-] & Hv)]; done.
Qed.

(** After an accepted one it saves and adopts the new identity. *)
Lemma iwp_adopted dir st (Q : option LoopVars → Proc C → Prop) p :
  (∀ p' ext, sends (st_Credential st) ext → pr_trace p' = pr_trace p ++ ext → pr_ident p' = st →
     saved st (pr_file p) (pr_file p') → Q (Some (mk_LoopVars time_Second true)) p') →
  iwp (serr ← saveState dir st;
       _ ← (match serr with Some _ => print "warning: could not persist the new identity: %v" [] | None => mret tt end);
       _ ← ident_set st;
       _ ← print "re-registered as agent %s" [AStr (st_AgentID st)];
       mret (Some (mk_LoopVars time_Second true)))%stdpp Q p.
Proof.
  intros HQ. apply iwp_bind, iwp_saveState. intros serr p1 x1 X1 _ X3 _ _ X6 _.
  apply iwp_bind, iwp_hushed; [destruct serr; [apply hushed_print|apply hushed_ret]|]. intros _ p2 (x2 & Hx2 & ->).
  apply iwp_bind. unfold iwp at 1, ident_set. cbn [fst snd pr_file pr_trace pr_ctl]. apply iwp_bind, iwp_event, iwp_ret.
  apply (HQ _ (x1 ++ x2 ++ [EvPrint "re-registered as agent %s" [AStr (st_AgentID st)]])); cbn [pr_trace pr_file pr_ident].
  - apply sends_app. split; [done|]. apply sends_app. split; [by apply sends_quiet|by repeat constructor].
  - by rewrite X3, <- !app_assoc.
  - done.
  - exact X6.
Qed.

(** A switch: the call at [p1], and what followed it. *)
Lemma switch_after opts e0 x3 p0 p1 p2 p3 : op_RegistrationToken opts ≠ "" → stays e0 p0 p1 → (0 < beats e0)%nat →
  pr_trace p2 = pr_trace p1 ++ [EvGenerateKey; EvRegister (op_RegistrationToken opts)] →
  pr_ident p2 = pr_ident p1 → pr_file p2 = pr_file p1 → pr_trace p3 = pr_trace p2 ++ x3 → sends (st_Credential (pr_ident p3)) x3 →
  (pr_ident p3 = pr_ident p2 ∧ pr_file p3 = pr_file p2 ∨ saved (pr_ident p3) (pr_file p2) (pr_file p3)) →
  ∃ ext, switches opts ext p0 p3.
Proof.
  intros Ht (Y1 & Y2 & Y3 & Y4) Hb T2 I2 F2 T3 Hx3 Hid.
  exists ((e0 ++ [EvGenerateKey]) ++ EvRegister (op_RegistrationToken opts) :: x3), (e0 ++ [EvGenerateKey]), x3.
  do 2 (split; [done|]). split; [rewrite beats_app; lia|].
  split; [apply sends_app; split; [done|by repeat constructor]|]. split; [done|].
  split; [by rewrite T3, T2, Y2, <- !app_assoc|]. by rewrite <- Y3, <- Y4, <- I2, <- F2.
Qed.

Lemma iwp_reregister opts v e (Q : option LoopVars → Proc C → Prop) p : op_RegistrationToken opts ≠ "" →
  (∀ r p', (∀ v', r = Some v' → lv_reregisterTried v' = true) →
     (∀ e0 p0, stays e0 p0 p → (0 < beats e0)%nat → (∃ ext, switches opts ext p0 p') ∨ ∃ ext, stays ext p0 p') →
     (length (pr_trace p) ≤ length (pr_trace p'))%nat → Q r p') →
  iwp (reregister opts v e) Q p.
Proof.
  intros Ht HQ. unfold reregister. apply iwp_bind, iwp_hushed; [apply hushed_print|]. intros _ p1 Hq1.
  destruct (quiet_stays _ _ Hq1) as (x1 & S1 & _). pose proof (stays_length _ _ _ S1) as L1.
  apply iwp_bind, (iwp_register _ _ _ Ht).
  - intros err p2 x2 X1 _ X3 X4 X5. assert (stays x2 p1 p2) as S2 by (by split).
    apply (iwp_refused (mk_LoopVars (lv_backoff v) true)). intros r p3 x3 S3 Hr.
    pose proof (stays_trans _ _ _ _ _ S1 (stays_trans _ _ _ _ _ S2 S3)) as S13.
    apply HQ; [exact Hr| |apply stays_length in S13; lia]. intros e0 p0 S0 _. right. eexists. by eapply stays_trans.
  - intros [err|st] p2 T2 I2 F2.
    + apply (iwp_refused (mk_LoopVars (lv_backoff v) true)). intros r p3 x3 S3 Hr.
      apply HQ; [exact Hr| |apply stays_length in S3; rewrite S3, T2, length_app; lia].
      intros e0 p0 S0 Hb. left. destruct S3 as (Z1 & Z2 & Z3 & Z4).
      eapply (switch_after opts (e0 ++ x1) x3 p0 p1 p2 p3); [done|by eapply stays_trans|rewrite beats_app; lia|done..|by rewrite Z3|by left].
    + apply iwp_adopted. intros p3 x3 X1 X2 X3 X4.
      apply HQ; [by intros v' [= <-]| |rewrite X2, T2, !length_app; lia].
      intros e0 p0 S0 Hb. left.
      eapply (switch_after opts (e0 ++ x1) x3 p0 p1 p2 p3); [done|by eapply stays_trans|rewrite beats_app; lia|done..|by rewrite X3|right].
      by rewrite X3.
Qed.

Lemma iwp_beat hasProber opts v (Q : option LoopVars → Proc C → Prop) p :
  (∀ r p', beat_result opts v p p' r → Q r p') → iwp (beat hasProber opts v) Q p.
Proof.
  intros HQ. unfold beat. apply iwp_bind. unfold iwp at 1, ident_get. cbn [fst snd].
  apply iwp_bind, iwp_hushed; [apply hushed_collectHealth|]. intros facts p1 Hq1.
  destruct (quiet_stays _ _ Hq1) as (x1 & S1 & _). set (m := heartbeat_request (pr_ident p) facts).
  apply iwp_bind, iwp_call. intros resp c _. set (p2 := mk_Proc _ _ _ c).
  assert (stays (x1 ++ [EvHeartbeat m]) p p2) as S2.
  { destruct S1 as (Y1 & Y2 & Y3 & Y4). split; [apply sends_app; split; [done|by repeat constructor]|].
    split; [unfold p2; simpl; by rewrite Y2, <- app_assoc|by split]. }
  assert (length (pr_trace p) < length (pr_trace p2))%nat as L2.
  { apply stays_length in S2. rewrite length_app in S2. change (length [EvHeartbeat m]) with 1%nat in S2. lia. }
  destruct resp as [e|r].
  - apply iwp_bind, iwp_ctx_ended. destruct (m_ctx_done _).
    { apply iwp_ret, HQ. split; [done|]. left. split; [by eexists|by left]. }
    destruct (rejected e && negb (String.eqb (op_RegistrationToken opts) "") && negb (lv_reregisterTried v)) eqn:Hre.
    + apply andb_true_iff in Hre as [[_ Ht%negb_true_iff%String.eqb_neq]%andb_true_iff Htr%negb_true_iff].
      apply (iwp_reregister opts v e); [done|]. intros r p3 Hr Hsw L3. apply HQ. split; [lia|]. right.
      split; [done|]. split; [done|]. apply (Hsw _ _ S2). rewrite beats_app. simpl. unfold beats at 2. simpl. lia.
    + apply iwp_retry_later. intros r p3 (_ & (x3 & S3) & Hr). apply HQ.
      split; [apply stays_length in S3; lia|]. left. split; [eexists; by eapply stays_trans|done].
  - apply iwp_bind, iwp_sleep. intros p3 _ Hq3. destruct (quiet_stays _ _ Hq3) as (x3 & S3 & _). apply iwp_ret, HQ.
    split; [apply stays_length in S3; lia|]. left. split; [eexists; by eapply stays_trans|].
    destruct (m_ctx_done (pred _)) eqn:Hc; [by left|right]. by split; [|eexists].
Qed.

(** ** The loop *)
Lemma loop_ends n fuel hasProber opts v p : m_ctx_done n = true →
  (n - length (pr_trace p) + (if lv_reregisterTried v then 1 else 2) ≤ fuel)%nat →
  fst (loop fuel hasProber opts v p) = Some tt.
Proof.
  intros Hn. revert v p. induction fuel as [|fuel IH]; intros v p Hf; [destruct (lv_reregisterTried v); lia|].
  cbn [loop]. change (iwp (r ← beat hasProber opts v; match r with None => mret (Some tt) | Some v => loop fuel hasProber opts v end)%stdpp
                        (λ r _, r = Some tt) p).
  apply iwp_bind, iwp_beat. intros r p1 (Hl & Hr). destruct r as [v1|]; [|by apply iwp_ret]. apply (IH v1 p1).
  destruct Hr as [(_ & [|(Hc & v2 & [= <-] & ->)])|(Ht & Hv & _)]; [done| |rewrite Ht in Hf; rewrite (Hv v1 eq_refl); lia].
  assert (¬ (n ≤ pred (length (pr_trace p1)))%nat) as Hlt by (intros Hle; rewrite (m_ctx_done_mono n _ Hle Hn) in Hc; done).
  destruct (lv_reregisterTried v); lia.
Qed.

(** C37: The heartbeat loop ends with its context.  Whatever the control plane and the
    machine answer, once the context has ended at the n-th event of the process the loop
    returns: n + 2 iterations are enough from any start, and the loop of a process that is
    past that event makes at most two more. *)
Theorem heartbeatLoop_ends n hasProber opts p :
  m_ctx_done n = true →
  (∀ fuel, (n + 2 ≤ fuel)%nat → fst (heartbeatLoop fuel hasProber opts p) = Some tt) ∧
  ((n ≤ length (pr_trace p))%nat → fst (heartbeatLoop 2 hasProber opts p) = Some tt).
Proof.
  intros Hn. split; [intros fuel Hf|intros Hl]; apply (loop_ends n); simpl; (done || lia).
Qed.

Lemma loop_steps fuel hasProber opts v p r p' : loop fuel hasProber opts v p = (r, p') →
  if lv_reregisterTried v then ∃ ext, stays ext p p'
  else (∃ ext, stays ext p p') ∨ ∃ ext, switches opts ext p p'.
Proof.
  revert v p r p'. induction fuel as [|fuel IH]; intros v p r p' Hrun.
  - injection Hrun as _ <-. destruct (quiet_stays p p (quiet_refl p)) as (x & S & _). destruct (lv_reregisterTried v); eauto.
  - cbn [loop] in Hrun. unfold mbind, IM_bind in Hrun.
    destruct (beat hasProber opts v p) as [r1 p1] eqn:Hbeat.
    assert (beat_result opts v p p1 r1) as (_ & Hr).
    { pose proof (iwp_beat hasProber opts v (λ r p', beat_result opts v p p' r) p ltac:(done)) as Hw. unfold iwp in Hw. by rewrite Hbeat in Hw. }
    destruct Hr as [((x & S) & Hr)|(Ht & Hv & Hsw)].
    + destruct r1 as [v1|]; [|injection Hrun as _ <-; destruct (lv_reregisterTried v); eauto].
      destruct Hr as [|(_ & v2 & [= <-] & Hv)]; [done|]. pose proof (IH _ _ _ _ Hrun) as Hn. rewrite Hv in Hn.
      destruct (lv_reregisterTried v); [destruct Hn as (y & Hy)|destruct Hn as [(y & Hy)|(y & Hy)]].
      * eexists. by eapply stays_trans.
      * left. eexists. by eapply stays_trans.
      * right. eexists. by eapply stays_switches.
    + rewrite Ht. assert (∃ ext, stays ext p1 p') as (y & Hy).
      { destruct r1 as [v1|]; [|injection Hrun as _ <-; destruct (quiet_stays p1 p1 (quiet_refl p1)) as (y & S & _); by exists y].
        pose proof (IH _ _ _ _ Hrun) as Hn. by rewrite (Hv v1 eq_refl) in Hn. }
      destruct Hsw as [(x & S)|(x & S)]; [right; eexists; by eapply switches_stays|left; eexists; by eapply stays_trans].
Qed.

(** An agent has one identity at a time.  However long the heartbeat loop runs, either
    it never registers, every heartbeat carries the credential it started with and its
    identity and file stay; or it registers once, with the token it was given and after a
    heartbeat, every heartbeat before carries the old credential and every one after the
    credential of the identity it holds at the end; and if that is a new identity, the
    file is the old one, the new one or a cut-off prefix of it. *)
Theorem heartbeatLoop_one_identity fuel hasProber opts p r p' :
  heartbeatLoop fuel hasProber opts p = (r, p') →
  (∃ ext, stays ext p p') ∨ (∃ ext, switches opts ext p p').
Proof. intros Hrun. exact (loop_steps _ _ _ (mk_LoopVars time_Second false) _ _ _ Hrun). Qed.

(** ** The state file *)
Lemma b64_char_ascii n : 0 ≤ n < 64 → code (b64std_char n) < 128.
Proof.
  intros Hn. assert (Forall (λ n, code (b64std_char n) < 128) (map Z.of_nat (seq 0 64))) as Hall
    by (apply (bool_decide_unpack _); vm_compute; exact I).
  rewrite Forall_forall in Hall. apply Hall, list_elem_of_In, in_map_iff. exists (Z.to_nat n).
  split; [lia|]. apply in_seq. lia.
Qed.
Lemma land_sextet z : 0 ≤ Z.land z 63 < 64.
Proof. change 63 with (Z.ones 6). rewrite Z.land_ones by lia. apply Z.mod_pos_bound. lia. Qed.
Lemma b64std_ascii l : Forall (λ c, code c < 128) (b64std_encode l).
Proof.
  cut (Forall (λ c, code c < 128) (b64std_encode l) ∧ ∀ a b, Forall (λ c, code c < 128) (b64std_encode (a :: l)) ∧
    Forall (λ c, code c < 128) (b64std_encode (a :: b :: l))); [by intros []|].
  induction l as [|x l (IH1 & IH2)].
  - split; [constructor|]. intros a b. split; repeat constructor; (apply b64_char_ascii, land_sextet || done).
  - split; [apply (IH2 x x)|]. intros a b. split; [apply (IH2 a x)|].
    cbn [b64std_encode]. repeat (constructor; [apply b64_char_ascii, land_sextet|]). exact IH1.
Qed.

Definition identity_ok (st : state) : Prop :=
  utf8 (bytes_of (st_AgentID st)) ∧ utf8 (bytes_of (st_Credential st)) ∧ st_AgentID st ≠ "" ∧ st_Credential st ≠ "".
Lemma state_fields (a b c : json) :
  let ms := [(bytes_of "agent_id", a); (bytes_of "credential", b); (bytes_of "private_key", c)] in
  field_values "agent_id" ms = [a] ∧ field_values "credential" ms = [b] ∧ field_values "private_key" ms = [c].
Proof. repeat split. Qed.
Lemma state_roundtrip st : utf8 (bytes_of (st_AgentID st)) → utf8 (bytes_of (st_Credential st)) →
  utf8 (bytes_of (st_PrivateKeyB64 st)) → unmarshal_state (marshal_state st) = Some st.
Proof.
  intros H1 H2 H3. unfold unmarshal_state, marshal_state.
  rewrite (unmarshal_marshal_indent _ [(bytes_of "agent_id", JString (bytes_of (st_AgentID st)));
     (bytes_of "credential", JString (bytes_of (st_Credential st))); (bytes_of "private_key", JString (bytes_of (st_PrivateKeyB64 st)))]).
  - cbv [mbind option_bind assign_field]. destruct (state_fields (JString (bytes_of (st_AgentID st)))
      (JString (bytes_of (st_Credential st))) (JString (bytes_of (st_PrivateKeyB64 st)))) as (-> & -> & ->).
    cbn [foldl string_value]. rewrite !str_of_bytes_of. by destruct st.
  - done.
  - repeat constructor; simpl; try done; try (apply utf8_all_ascii; repeat constructor; done).
Qed.

(** The key an agent generates is text, so its state can be read back when its ids can. *)
Lemma iwp_register_state opts (Q : go_error + state → Proc C → Prop) p :
  (∀ res p', (∀ st, res = inr st → utf8 (bytes_of (st_PrivateKeyB64 st))) → Q res p') → iwp (register opts) Q p.
Proof.
  intros HQ. unfold register. case_match; [by apply iwp_ret, HQ|]. apply iwp_bind, iwp_event.
  destruct (m_GenerateKey _) as [e|[pub priv]]; [by apply iwp_ret, HQ|].
  apply iwp_bind, iwp_call. intros [e|r] c _; apply iwp_ret, HQ; [done|]. intros st [= <-].
  simpl. rewrite bytes_of_str_of. apply utf8_all_ascii, b64std_ascii.
Qed.

(** What a start leaves behind: the state in the file is the identity of the process. *)
Definition persisted (p : Proc C) : Prop := ∃ data, pr_file p = Some data ∧ unmarshal_state data = Some (pr_ident p).

Lemma iwp_loadState (Q : go_error + option state → Proc C → Prop) p :
  (∀ res p', quiet (mk_Proc (pr_file p) (pr_ident p) (pr_trace p ++ [EvReadState]) (pr_ctl p)) p' →
     (∀ st, res = inr (Some st) → ∃ data, pr_file p = Some data ∧ unmarshal_state data = Some st) → Q res p') →
  iwp loadState Q p.
Proof.
  intros HQ. unfold iwp, loadState, event. cbn [fst snd]. apply HQ; [apply quiet_refl|]. intros st.
  destruct (m_read_fault _); [done|]. destruct (pr_file p) as [data|]; [|done]. destruct (unmarshal_state data) as [s|] eqn:Hs; [|done].
  destruct (String.eqb _ _ || _); [done|]. intros [= <-]. by exists data.
Qed.

Lemma iwp_Run_start opts (Q : go_error + (AgentOptions * caddyManager) → Proc C → Prop) p :
  (∀ res p', (∀ o router, res = inr (o, router) → o = with_defaults opts ∧ op_ControlPlaneURL opts ≠ "" ∧
      newCaddyManager (op_Caddy (with_defaults opts)) (filepath_Join [op_DataDir (with_defaults opts); "Caddyfile"]) = inr router ∧
      (identity_ok (pr_ident p') → persisted p')) → Q res p') →
  iwp (Run_start opts) Q p.
Proof.
  intros HQ. unfold Run_start. destruct (String.eqb_spec (op_ControlPlaneURL opts) "") as [_|Hurl]; [by apply iwp_ret, HQ|].
  destruct (newCaddyManager _ _) as [e|router] eqn:Hr; [by apply iwp_ret, HQ|].
  apply iwp_bind, iwp_loadState. intros loaded p1 (x1 & _ & ->) Hload. destruct loaded as [e|[st|]]; [by apply iwp_ret, HQ| |].
  - destruct (Hload st eq_refl) as (data & Hf & Hu).
    apply iwp_bind, iwp_hushed; [apply hushed_print|]. intros _ p2 (x2 & _ & ->).
    apply iwp_bind, iwp_hushed; [case_match; [apply hushed_print|apply hushed_ret]|]. intros _ p3 (x3 & _ & ->).
    apply iwp_bind. unfold iwp at 1, ident_set. cbn [fst snd]. apply iwp_ret, HQ. intros o r [= <- <-].
    do 3 (split; [done|]). intros _. by exists data.
  - apply iwp_bind, iwp_hushed; [apply hushed_print|]. intros _ p2 _.
    apply iwp_bind, iwp_register_state. intros [e|st] p3 Hkey; [by apply iwp_ret, HQ|].
    apply iwp_bind, iwp_saveState. intros [e|] p4 x4 _ _ _ _ _ _ Hfile; [by apply iwp_ret, HQ|].
    apply iwp_bind, iwp_hushed; [apply hushed_print|]. intros _ p5 (x5 & _ & ->).
    apply iwp_bind. unfold iwp at 1, ident_set. cbn [fst snd]. apply iwp_ret, HQ. intros o r [= <- <-].
    do 3 (split; [done|]). intros (H1 & H2 & _ & _). exists (marshal_state st). split; [by apply Hfile|].
    apply state_roundtrip; [done|done|by apply Hkey].
Qed.

(** An agent that started resumes as itself.  After a start that succeeded, with the
    ids of its identity non-empty UTF-8, any later process on the same state file that can
    read it starts with the same identity, options and router, without calling the control
    plane or touching the file; whether the first one registered or resumed itself. *)
Theorem restart_resumes opts p o router p1 p2 :
  Run_start opts p = (inr (o, router), p1) → identity_ok (pr_ident p1) →
  pr_file p2 = pr_file p1 → (∀ n, m_read_fault n = None) →
  ∃ p3, Run_start opts p2 = (inr (o, router), p3) ∧ pr_ident p3 = pr_ident p1 ∧
    pr_file p3 = pr_file p2 ∧ pr_ctl p3 = pr_ctl p2 ∧
    ∃ ext, pr_trace p3 = pr_trace p2 ++ ext ∧ Forall (λ e, quiet_event e ∨ e = EvReadState) ext.
Proof.
  intros Hrun Hok Hf Hread.
  assert (persisted p1 ∧ o = with_defaults opts ∧ op_ControlPlaneURL opts ≠ "" ∧
    newCaddyManager (op_Caddy (with_defaults opts)) (filepath_Join [op_DataDir (with_defaults opts); "Caddyfile"]) = inr router)
    as ((data & Hfile & Hu) & -> & Hurl & Hr).
  { pose proof (iwp_Run_start opts _ p (λ _ _ Hx, Hx)) as Hw. unfold iwp in Hw. rewrite Hrun in Hw.
    destruct (Hw o router eq_refl) as (-> & Hurl & Hr & Hp). by split; [apply Hp|]. }
  unfold Run_start. apply String.eqb_neq in Hurl as ->. rewrite Hr. unfold mbind, IM_bind, loadState, event. rewrite Hread, Hf, Hfile, Hu.
  destruct Hok as (_ & _ & Hid%String.eqb_neq & Hcred%String.eqb_neq). rewrite Hid, Hcred. cbn -[with_defaults filepath_Join].
  set (x := [EvReadState; EvPrint "plorigo agent %s: resuming as agent %s (identity: %s)"
    [AStr Version; AStr (st_AgentID (pr_ident p1)); AStr (filepath_Join [op_DataDir (with_defaults opts); "agent.json"])]]).
  destruct (negb _); unfold print, event; cbn -[with_defaults filepath_Join]; eexists; (split; [reflexivity|]); cbn [pr_ident pr_file pr_ctl pr_trace].
  - split; [done|]. split; [congruence|]. split; [done|]. eexists (x ++ [_]). split; [unfold x; simpl; by rewrite <- !app_assoc|].
    repeat constructor; by (left + right).
  - split; [done|]. split; [congruence|]. split; [done|]. exists x. split; [unfold x; simpl; by rewrite <- !app_assoc|].
    repeat constructor; by (left + right).
Qed.
End Rules.
