(* ===== verification/AgentHealing.v ===== *)
(** * AgentHealing: the heartbeat loop against the registry

    The calls of [AgentIdentity] answered by the handlers of [AgentRegistry], as
    [internal/agents/handler.go] does it; and what the loop of an agent achieves whose
    credential the control plane no longer knows. *)
From S2P Require Import Prelude.
From S2P Require Import GoStrings.
From S2P Require Import Sha256.
From S2P Require Import Problem.
From S2P Require Import Schema.
From S2P Require Import Platform.
From S2P Require Import Authz.
From S2P Require Import DeployStore.
From S2P Require Import DeploySpec.
From S2P Require Import DeployJobs.
From S2P Require Import Gateway.
From S2P Require Import Caddy.
From S2P Require Import Agent.
From S2P Require Import AgentRegistry.
From S2P Require Import AgentRegistryProps.
From S2P Require Import AgentIdentity.
From S2P Require Import AgentIdentityProps.

(** ** The gateway (handler.go) *)
Section Gateway.
Context {E : Env} {N : Entropy}.
Implicit Types (w : World).

(** The error of a handler as the client sees it; the text is its format. *)
Definition client_error (e : go_error) : ClientError :=
  let '(code, (format, _)) := ToConnect e in mk_ClientError (Some code) format.
Definition gateway_Register (rq : RegisterRequest) (w : World) : (ClientError + RegisterResponse) * World :=
  let '(r, w') := Register (mk_RegisterInput (rq_RegistrationToken rq) (rq_PublicKey rq) (rq_AgentVersion rq)) w in
  (match r with
   | inl e => inl (client_error e)
   | inr reg => inr (mk_RegisterResponse (rd_AgentID reg) (rd_Credential reg))
   end, w').
Definition gateway_Heartbeat (m : HeartbeatRequest) (w : World) : (ClientError + HeartbeatResponse) * World :=
  let '(r, w') := Heartbeat (heartbeat_input m) w in
  (match r with
   | inl e => inl (client_error e)
   | inr res => inr (mk_HeartbeatResponse (hr_NextInterval res / time_Second))
   end, w').
#[export] Instance gateway_client : AgentClient World := {|
  client_Register := λ _, gateway_Register;
  client_Heartbeat := λ _, gateway_Heartbeat;
|}.

(** ** What the handlers do when nothing fails *)
Context (Hnf : no_fault).

Lemma Heartbeat_unknown i w : hb_Credential i ≠ "" →
  (∀ a, a ∈ agents (w_db w) → ag_CredentialHash a ≠ hashToken (hb_Credential i)) →
  ∃ w', Heartbeat i w = (inl (PermissionDenied "unknown agent credential" []), w') ∧ w_db w' = w_db w.
Proof.
  intros Hc Hu. unfold Heartbeat. apply String.eqb_neq in Hc. rewrite Hc. eexists.
  cbv [mbind M_bind mret M_ret require found wrap on_err store_Heartbeat ok_or_norows autocommit db_exec negb w_tick w_db w_txnow fail].
  rewrite Hnf. unfold sql_HeartbeatAgent. simpl.
  destruct (List.find _ _) as [a|] eqn:Hf; [|by split].
  apply find_Some_elem in Hf as [Ha Hh]. unfold has_credential in Hh. apply bool_decide_eq_true in Hh. by apply Hu in Ha.
Qed.

Lemma Heartbeat_known i a w : hb_Credential i ≠ "" → a ∈ agents (w_db w) → ag_CredentialHash a = hashToken (hb_Credential i) →
  NoDup (map ag_CredentialHash (agents (w_db w))) →
  ∃ w', Heartbeat i w = (inr (mk_HeartbeatResult heartbeatInterval), w') ∧
    (∃ n, ag_beat i (now_at n) a ∈ agents (w_db w')) ∧
    (∀ x, x ∈ agents (w_db w) → x ≠ a → x ∈ agents (w_db w')).
Proof.
  intros Hc Ha Hh Hnd. unfold Heartbeat. apply String.eqb_neq in Hc. rewrite Hc. eexists.
  cbv [mbind M_bind mret M_ret require found wrap on_err store_Heartbeat ok_or_norows autocommit db_exec negb w_tick w_db w_txnow fail].
  rewrite Hnf. unfold sql_HeartbeatAgent. simpl. unfold has_credential.
  rewrite (find_hash_unique _ _ a) by done. split; [reflexivity|]. cbn [w_db agents set_agents]. split.
  - exists (w_tick w). apply elem_of_update_where. exists a. split; [done|]. by rewrite bool_decide_eq_true_2.
  - intros x Hx Hne. apply elem_of_update_where. exists x. split; [done|]. rewrite bool_decide_eq_false_2; [done|].
    intros Hxh. apply Hne. apply (NoDup_map_inj ag_CredentialHash (agents (w_db w))); [done|done|done|congruence].
Qed.

(** A token that can be exchanged, and ids and random bytes that are new. *)
Definition redeemable_token (tok srv : string) (d : DB) : Prop :=
  tok ≠ "" ∧ ∃ t, t ∈ registration_tokens d ∧ rt_TokenHash t = hashToken tok ∧ rt_ServerID t = srv ∧
    rt_ConsumedAt t = None ∧ (∀ n, now_at n < rt_ExpiresAt t) ∧ has_key ws_ID (rt_WorkspaceID t) (workspaces d) = true.
Definition fresh_registration (d : DB) : Prop :=
  (∀ n, uuid_at n ∉ map ag_ID (agents d) ∧ uuid_at n ∉ map au_ID (audit_events d)) ∧
  (∀ k, ∃ l, rand_Read k tokenBytes = inr l ∧
     ∀ a, a ∈ agents d → ag_CredentialHash a ≠ hashToken ("plag_" +:+ str_of (b64_encode l))).

Lemma upsert_succeeds srv ws pub h ver st d : server_of d srv ws → has_key ws_ID ws (workspaces d) = true →
  (∀ a, a ∈ agents d → ag_CredentialHash a ≠ h) → st_uuid st ∉ map ag_ID (agents d) →
  ∃ a d', sql_UpsertAgent srv ws pub h ver st d = inr (a, d').
Proof.
  intros (s & Hs & Hsid & _) Hws Hh Hid. unfold sql_UpsertAgent. destruct (lookup_by ag_ServerID srv (agents d)) as [old|].
  - rewrite (proj2 (has_hash_false ag_CredentialHash h _)); [eauto|]. intros x [Hx _]%elem_of_where. by apply Hh.
  - rewrite (proj2 (has_hash_false ag_CredentialHash h _)) by done.
    rewrite (proj2 (has_key_false ag_ID _ _) Hid).
    assert (has_key srv_ID srv (servers d) = true) as -> by (apply has_key_true; by exists s).
    rewrite Hws. simpl. eauto.
Qed.

Lemma runs_audit a ty ti ws ac (Q : unit → World → Prop) w :
  uuid_at (w_tick w) ∉ map au_ID (audit_events (w_db w)) → (∀ w', Q tt w') → runs (audit_Record a ty ti ws ac) Q w.
Proof.
  intros Hid HQ. unfold audit_Record. eapply (runs_exec Hnf); [|apply HQ]. unfold audit_insert. simpl.
  by rewrite (proj2 (has_key_false au_ID _ _) Hid).
Qed.

Lemma runs_on_err {X} f (m : M X) Q w : runs m Q w → runs (on_err f m) Q w.
Proof. intros (a & w1 & Hm & HQ). exists a, w1. unfold on_err. by rewrite Hm. Qed.

(** The only row the token selects is its own. *)
Lemma redeemable_found h t now d : NoDup (map rt_TokenHash (registration_tokens d)) → t ∈ registration_tokens d →
  rt_TokenHash t = h → rt_ConsumedAt t = None → now < rt_ExpiresAt t →
  List.find (redeemable h now) (registration_tokens d) = Some t.
Proof.
  intros Hnd Hin Hh Hnone Hexp. destruct (List.find _ _) as [t'|] eqn:Hf.
  - apply find_Some_elem in Hf as [Hin' Hr]. unfold redeemable in Hr.
    apply andb_true_iff in Hr as [[Hr%bool_decide_eq_true _]%andb_true_iff _]. f_equal.
    apply (NoDup_map_inj rt_TokenHash (registration_tokens d)); [done|done|done|congruence].
  - exfalso. eapply find_None_elem in Hf; [|exact Hin]. unfold redeemable in Hf. rewrite !bool_decide_eq_true_2 in Hf by done.
    simpl in Hf. apply Z.ltb_ge in Hf. lia.
Qed.

Lemma runs_newPrefixedToken prefix (Q : string * list Z → World → Prop) w :
  (∃ l, rand_Read (w_tick w) tokenBytes = inr l ∧
     let raw := prefix +:+ str_of (b64_encode l) in Q (raw, hashToken raw) (tick w)) → runs (newPrefixedToken prefix) Q w.
Proof.
  intros (l & Hl & HQ). unfold newPrefixedToken. apply runs_bind, runs_on_err. exists l, (tick w). split; [|by apply runs_ret].
  unfold port. by rewrite Hl.
Qed.

Lemma runs_register_tx i srv h w : agwf (w_db w) → redeemable_token (rg_RegistrationToken i) srv (w_db w) →
  fresh_registration (w_db w) → (∀ a, a ∈ agents (w_db w) → ag_CredentialHash a ≠ h) →
  runs (within_tx
    (consumed ← ConsumeRegistrationToken (hashToken (rg_RegistrationToken i));
     match consumed with
     | None => fail (PermissionDenied "registration token is invalid or expired" [])
     | Some (serverID, workspaceID) =>
         agent ← UpsertAgent serverID workspaceID (rg_PublicKey i) h (rg_AgentVersion i);
         _ ← audit_Record "agent.register" "agent" (a_ID agent) (a_WorkspaceID agent) ("agent:" +:+ a_ID agent);
         mret agent
     end)%stdpp) (λ _ _, True) w.
Proof.
  intros G (Htok & t & Hin & Hh & Hs & Hnone & Hexp & Hws) (Hids & _) Hnew.
  apply (runs_within_tx Hnf), runs_bind. unfold ConsumeRegistrationToken. set (w1 := mk_World _ _ (now_at _)).
  eexists (Some (rt_ServerID t, rt_WorkspaceID t)), _. split.
  { unfold ok_or_norows, db_exec. rewrite Hnf. unfold sql_ConsumeAgentRegistrationToken. cbn [st_now].
    rewrite (redeemable_found _ t); [reflexivity|apply G|done|done|done|apply Hexp]. }
  cbv iota beta. set (w2 := mk_World _ _ _). apply runs_bind. unfold UpsertAgent. apply runs_bind.
  destruct (upsert_succeeds (rt_ServerID t) (rt_WorkspaceID t) (rg_PublicKey i) h (rg_AgentVersion i)
    (mk_Stamp (w_txnow w2) (uuid_at (w_tick w2)) (Z.of_nat (w_tick w2))) (w_db w2)) as (a & d & Hup).
  - by apply (proj1 (Forall_forall _ _) (agwf_token_home _ G) t).
  - exact Hws.
  - exact Hnew.
  - apply Hids.
  - eapply (runs_exec Hnf); [exact Hup|]. apply runs_ret, runs_bind, runs_audit; [|intros; by apply runs_ret].
    apply upsert_agent_spec in Hup as [(_ & _ & _ & _ & [(old & _ & _ & _ & ->)|(_ & ->)]) _]; [apply Hids|apply Hids|].
    apply (agwf_servers _ G).
Qed.

Lemma runs_Register i srv w : agwf (w_db w) → redeemable_token (rg_RegistrationToken i) srv (w_db w) →
  fresh_registration (w_db w) → length (rg_PublicKey i) = 32%nat →
  runs (Register i) (λ r w', True ∧ ∃ t a, registered i r t a (w_db w) (w_db w')) w.
Proof.
  intros G Htok Hfresh Hkey. apply runs_wp.
  - unfold Register. apply runs_bind, runs_require; [apply negb_true_iff, String.eqb_neq, Htok|].
    apply runs_bind, runs_require; [by apply Nat.eqb_eq|]. apply runs_bind, runs_wrap, runs_newPrefixedToken.
    destruct (proj2 Hfresh (w_tick w)) as (l & Hl & Hnew). exists l. split; [done|]. cbv zeta iota beta.
    apply runs_bind, runs_on_err. eapply runs_mono; [|by eapply (runs_register_tx i srv)]. intros; by apply runs_ret.
  - apply wp_Register; [apply G|done|]. intros r t' a w' Hr. by exists t', a.
Qed.

(** Who is known after a registration. *)
Lemma registered_members i r t a d d' : agwf d → registered i r t a d d' →
  agwf d' ∧ ag_ServerID a = rt_ServerID t ∧ ag_ID a = rd_AgentID r ∧ ag_CredentialHash a = hashToken (rd_Credential r) ∧
  rd_Credential r ≠ "" ∧ t ∈ registration_tokens d ∧ rt_TokenHash t = hashToken (rg_RegistrationToken i) ∧
  (∀ y, y ∈ agents d' ↔ y = a ∨ y ∈ agents d ∧ ag_ServerID y ≠ rt_ServerID t).
Proof.
  intros G Hr. assert (agwf d') as G' by (apply (registry_effect_safe (GRegister i) d); [by exists r, t, a|done]).
  destruct Hr as (_ & _ & (k & l & _ & Hraw) & Ht & Hid & n & d1 & d2 & Hc & Hreg & _ & Haud).
  pose proof (agwf_consumed _ _ _ _ Hc G) as G1.
  assert (agents d' = agents d2) as Hag by (by destruct Haud as (row & -> & _)).
  split; [done|]. split; [apply Hreg|]. split; [done|]. split; [apply Hreg|]. split; [by rewrite Hraw|].
  split; [apply Hc|]. split; [done|].
  intros y. rewrite Hag, (registered_agents _ _ _ _ _ _ G1 Hreg). by destruct Hc as (_ & _ & _ & ->).
Qed.
End Gateway.

(** ** Healing *)
Section Healing.
Context {E : Env} {N : Entropy} {H : Machine} (Hnf : no_fault) (Hctx : ∀ n, m_ctx_done n = false)
  (Hkeys : ∀ n, ∃ pub priv, m_GenerateKey n = inr (pub, priv)).
Implicit Types (p : Proc World).

Lemma iwp_register_ok opts srv (Q : go_error + state → Proc World → Prop) p :
  agwf (w_db (pr_ctl p)) → redeemable_token (op_RegistrationToken opts) srv (w_db (pr_ctl p)) →
  fresh_registration (w_db (pr_ctl p)) →
  (∀ st p' i r t a, rg_RegistrationToken i = op_RegistrationToken opts → registered i r t a (w_db (pr_ctl p)) (w_db (pr_ctl p')) →
     st_AgentID st = rd_AgentID r → st_Credential st = rd_Credential r → Q (inr st) p') →
  iwp (register opts) Q p.
Proof.
  intros G Htok Hf HQ. unfold register. rewrite (proj2 (String.eqb_neq _ _) (proj1 Htok)). apply iwp_bind, iwp_event.
  destruct (Hkeys (length (pr_trace p))) as (pub & priv & Hk). rewrite Hk. apply iwp_bind, iwp_call. cbn [pr_ctl pr_file].
  intros resp c Hcall. simpl in Hcall. unfold gateway_Register in Hcall.
  destruct (runs_Register Hnf (mk_RegisterInput (op_RegistrationToken opts) pub Version) srv (pr_ctl p) G Htok Hf)
    as (rd & w1 & Hrun & _ & t & a & Hreg); [by eapply m_GenerateKey_spec|].
  cbn [rq_RegistrationToken rq_PublicKey rq_AgentVersion] in Hcall. rewrite Hrun in Hcall. injection Hcall as <- <-.
  apply iwp_ret. eapply HQ; [|exact Hreg| |]; done.
Qed.

Lemma iwp_saveState_ok dir st (Q : error → Proc World → Prop) p :
  (∀ err p', pr_ctl p' = pr_ctl p →
     ((∀ k, m_mkdir k dir = None) → (∀ k, m_write k = Written) → pr_file p' = Some (marshal_state st)) → Q err p') →
  iwp (saveState dir st) Q p.
Proof.
  intros HQ. unfold saveState. apply iwp_bind, iwp_event. cbn -[marshal_state iwp]. destruct (m_mkdir _ dir) eqn:Hm.
  { apply iwp_ret, HQ; [done|]. intros Hk _. by rewrite Hk in Hm. }
  unfold iwp, write_file, event. cbn -[marshal_state]. destruct (m_write _) as [|e kept] eqn:Hw; apply HQ; try done.
  intros _ Hk. by rewrite Hk in Hw.
Qed.

(** The first heartbeat is rejected; what the loop does about it. *)
Lemma iwp_beat_rejected hasProber opts srv v (Q : option LoopVars → Proc World → Prop) p :
  agwf (w_db (pr_ctl p)) → redeemable_token (op_RegistrationToken opts) srv (w_db (pr_ctl p)) →
  fresh_registration (w_db (pr_ctl p)) → lv_reregisterTried v = false → st_Credential (pr_ident p) ≠ "" →
  (∀ a, a ∈ agents (w_db (pr_ctl p)) → ag_CredentialHash a ≠ hashToken (st_Credential (pr_ident p))) →
  (∀ p' i r t a, rg_RegistrationToken i = op_RegistrationToken opts → registered i r t a (w_db (pr_ctl p)) (w_db (pr_ctl p')) →
     st_AgentID (pr_ident p') = rd_AgentID r → st_Credential (pr_ident p') = rd_Credential r →
     ((∀ k, m_mkdir k (op_DataDir opts) = None) → (∀ k, m_write k = Written) → pr_file p' = Some (marshal_state (pr_ident p'))) →
     Q (Some (mk_LoopVars time_Second true)) p') →
  iwp (beat hasProber opts v) Q p.
Proof.
  intros G Htok Hf Hv Hcred Hun HQ. unfold beat. apply iwp_bind. unfold iwp at 1, ident_get. cbn [fst snd].
  apply iwp_bind, iwp_hushed; [apply hushed_collectHealth|]. intros facts p1 (x1 & _ & ->).
  apply iwp_bind, iwp_call. cbn [pr_ctl]. intros resp c Hcall. simpl in Hcall. unfold gateway_Heartbeat in Hcall.
  destruct (Heartbeat_unknown Hnf (heartbeat_input (heartbeat_request (pr_ident p) facts)) (pr_ctl p) Hcred Hun) as (w1 & Hrun & Hw1).
  rewrite Hrun in Hcall. injection Hcall as <- <-. apply iwp_bind, iwp_ctx_ended. rewrite Hctx. cbv iota.
  rewrite Hv, (proj2 (String.eqb_neq _ _) (proj1 Htok)). cbn -[iwp reregister]. rewrite <- Hw1 in *.
  unfold reregister. apply iwp_bind, iwp_hushed; [apply hushed_print|]. intros _ p2 (x2 & _ & ->).
  apply iwp_bind, (iwp_register_ok _ srv); cbn [pr_ctl]; [done|done|done|]. intros st p3 i r t a Hi Hreg Hid Hc.
  apply iwp_bind, iwp_saveState_ok. intros serr p4 Hctl Hfile.
  apply iwp_bind, iwp_hushed; [destruct serr; [apply hushed_print|apply hushed_ret]|]. intros _ p5 (x5 & _ & ->).
  apply iwp_bind. unfold iwp at 1, ident_set. cbn [fst snd]. apply iwp_bind, iwp_event, iwp_ret.
  eapply HQ; cbn [pr_ctl pr_ident pr_file]; [exact Hi|by rewrite Hctl|done|done|exact Hfile].
Qed.

(** A heartbeat with a known credential is taken. *)
Lemma iwp_beat_accepted hasProber opts v a (Q : option LoopVars → Proc World → Prop) p :
  agwf (w_db (pr_ctl p)) → st_Credential (pr_ident p) ≠ "" → a ∈ agents (w_db (pr_ctl p)) →
  ag_CredentialHash a = hashToken (st_Credential (pr_ident p)) →
  (∀ p' m n, pr_ident p' = pr_ident p → pr_file p' = pr_file p → ag_beat m (now_at n) a ∈ agents (w_db (pr_ctl p')) →
     (∀ x, x ∈ agents (w_db (pr_ctl p)) → x ≠ a → x ∈ agents (w_db (pr_ctl p'))) →
     Q (Some (mk_LoopVars time_Second (lv_reregisterTried v))) p') →
  iwp (beat hasProber opts v) Q p.
Proof.
  intros G Hcred Ha Hh HQ. unfold beat. apply iwp_bind. unfold iwp at 1, ident_get. cbn [fst snd].
  apply iwp_bind, iwp_hushed; [apply hushed_collectHealth|]. intros facts p1 (x1 & _ & ->).
  apply iwp_bind, iwp_call. cbn [pr_ctl]. intros resp c Hcall. simpl in Hcall. unfold gateway_Heartbeat in Hcall.
  destruct (Heartbeat_known Hnf (heartbeat_input (heartbeat_request (pr_ident p) facts)) a (pr_ctl p) Hcred Ha Hh (agwf_hashes _ G))
    as (w1 & Hrun & (n & Hrow) & Hothers).
  rewrite Hrun in Hcall. injection Hcall as <- <-. apply iwp_bind, iwp_sleep. intros p2 _ (x2 & _ & ->). rewrite Hctx.
  apply iwp_ret. by eapply HQ.
Qed.

Lemma Status_online a m t now : now - t ≤ onlineWindow → Status (agentFromRow (ag_beat m t a)) now = StatusOnline.
Proof. intros Hn. unfold Status. simpl. apply Z.leb_le in Hn. by rewrite Hn. Qed.

(** C36: An agent whose credential is no longer known heals itself.  When the registry
    rejects the stored credential and the agent was started with a token that can still be
    exchanged, two iterations of its loop are enough, if nothing fails: it has registered,
    the credential it holds is that of the token's server, the server is shown online, the
    agents of the other servers are untouched, and, unless the file could not be written,
    the new identity is on the disk.  The loop then goes on. *)
Theorem agent_heals hasProber opts srv p :
  agwf (w_db (pr_ctl p)) → redeemable_token (op_RegistrationToken opts) srv (w_db (pr_ctl p)) →
  fresh_registration (w_db (pr_ctl p)) → st_Credential (pr_ident p) ≠ "" →
  (∀ a, a ∈ agents (w_db (pr_ctl p)) → ag_CredentialHash a ≠ hashToken (st_Credential (pr_ident p))) →
  ∃ p' row n, heartbeatLoop 2 hasProber opts p = (None, p') ∧
    row ∈ agents (w_db (pr_ctl p')) ∧ ag_ServerID row = srv ∧ ag_ID row = st_AgentID (pr_ident p') ∧
    ag_CredentialHash row = hashToken (st_Credential (pr_ident p')) ∧
    (∀ now, now - now_at n ≤ onlineWindow → Status (agentFromRow row) now = StatusOnline) ∧
    (∀ x, x ∈ agents (w_db (pr_ctl p)) → ag_ServerID x ≠ srv → x ∈ agents (w_db (pr_ctl p'))) ∧
    ((∀ k, m_mkdir k (op_DataDir opts) = None) → (∀ k, m_write k = Written) → pr_file p' = Some (marshal_state (pr_ident p'))).
Proof.
  intros G Htok Hf Hcred Hun.
  cut (iwp (heartbeatLoop 2 hasProber opts) (λ r p', r = None ∧ ∃ row n,
    row ∈ agents (w_db (pr_ctl p')) ∧ ag_ServerID row = srv ∧ ag_ID row = st_AgentID (pr_ident p') ∧
    ag_CredentialHash row = hashToken (st_Credential (pr_ident p')) ∧
    (∀ now, now - now_at n ≤ onlineWindow → Status (agentFromRow row) now = StatusOnline) ∧
    (∀ x, x ∈ agents (w_db (pr_ctl p)) → ag_ServerID x ≠ srv → x ∈ agents (w_db (pr_ctl p'))) ∧
    ((∀ k, m_mkdir k (op_DataDir opts) = None) → (∀ k, m_write k = Written) → pr_file p' = Some (marshal_state (pr_ident p')))) p).
  { unfold iwp. destruct (heartbeatLoop 2 hasProber opts p) as [r p']. cbn [fst snd]. intros (-> & row & n & Hall). by exists p', row, n. }
  unfold heartbeatLoop. cbn [loop]. apply iwp_bind, (iwp_beat_rejected _ _ srv); [done..|].
  intros p1 i r t a Hi Hreg Hid Hc Hfile.
  destruct (registered_members _ _ _ _ _ _ G Hreg) as (G1 & Has & Haid & Hah & Hne & Hin & Hth & Hmem).
  assert (rt_ServerID t = srv) as Hs.
  { destruct Htok as (_ & t' & Hin' & Hh' & Hs' & _). rewrite <- Hs'. f_equal. rewrite Hi in Hth.
    apply (NoDup_map_inj rt_TokenHash (registration_tokens (w_db (pr_ctl p)))); [apply G|done|done|congruence]. }
  apply iwp_bind, (iwp_beat_accepted _ _ _ a); [done|by rewrite Hc|apply Hmem; by left|by rewrite Hc|].
  intros p2 m n I2 F2 Hrow Hothers. apply iwp_ret. split; [done|]. exists (ag_beat m (now_at n) a), n.
  split; [done|]. split; [simpl; congruence|]. split; [simpl; congruence|]. split; [simpl; congruence|].
  split; [intros now; apply Status_online|]. split; [|by rewrite F2, I2].
  intros x Hx Hxs. apply Hothers; [apply Hmem; right; split; [done|congruence]|]. intros ->. by rewrite Has, Hs in Hxs.
Qed.
End Healing.
