(* ===== verification/Scenario.v ===== *)
(** * Scenario: one concrete installation

    A workspace with an owner and a viewer, an image service and a git service, one
    server with its agent, a production release that runs and one that is queued, a
    preview of a pull request and the teardown job that removes it.  The theorems of the
    development are applied to it, each at an input where its hypotheses hold. *)
From S2P Require Import Prelude.
From S2P Require Import GoStrings.
From S2P Require Import Sha256.
From S2P Require Import Problem.
From S2P Require Import Schema.
From S2P Require Import Platform.
From S2P Require Import Authz.
From S2P Require Import DeployNames.
From S2P Require Import DeployStore.
From S2P Require Import Deployments.
From S2P Require Import DeploySpec.
From S2P Require Import DeployHandlers.
From S2P Require Import DeployInv.
From S2P Require Import DeploySystem.
From S2P Require Import DeploySafety.
From S2P Require Import DeployJobs.
From S2P Require Import DeployProps.
From S2P Require Import Caddy.
From S2P Require Import CaddyProps.
From S2P Require Import Agent.
From S2P Require Import AgentProps.
From S2P Require Import Gateway.

(** ** The environment: nothing fails, the clock and the ids count *)
#[export] Instance calm : Env.
Proof.
  refine {|
    fault := λ _, false;
    now_at := λ n, Z.of_nat n + 1000;
    uuid_at := λ n, str_of (repeat "u"%char (S n));
    uuid_parse_ok := λ s, negb (String.eqb s "");
    bcrypt_hash := λ _ p, Some ("$2a$10$" +:+ p);
    open_sealed := λ l, match l with [] => None | _ => Some "opened" end;
    get_pull_request := λ _ _ _ _, inr (mk_PullRequest "feature/a" "https://example.test/pull/5");
    installation_token := λ _ _, inr (Some "token");
    range_order := λ _ l, l;
    range_order_perm := λ _ l, reflexivity l;
  |}.
Defined.

Lemma calm_no_fault : no_fault.
Proof. done. Qed.
Lemma uuid_at_inj : Inj (=) (=) uuid_at.
Proof.
  intros m n Hmn. assert (length (bytes_of (uuid_at m)) = length (bytes_of (uuid_at n))) as Hl by by rewrite Hmn.
  unfold uuid_at in Hl. simpl in Hl. rewrite !bytes_of_str_of in Hl. simpl in Hl. rewrite !repeat_length in Hl. lia.
Qed.

(** ** The installation *)
Definition the_ws : string := "ws-1".
Definition alice : Principal := mk_Principal "alice" "session".
Definition vera : Principal := mk_Principal "vera" "session".
Definition svc_image : string := "11111111-1111-4111-8111-111111111111".
Definition svc_git : string := "22222222-2222-4222-8222-222222222222".
Definition the_server : string := "srv-1".
Definition the_agent : string := "agent-1".
Definition the_secret : string := "agent-secret".
Definition preview_key : string := previewRouteKey svc_git 5 "feature/a".

Definition service_row_of (id slug kind image : string) : db_Service :=
  {| sv_ID := id; sv_EnvironmentID := "env-1"; sv_ProjectID := "prj-1"; sv_WorkspaceID := the_ws;
     sv_Name := slug; sv_Slug := slug; sv_SourceKind := kind; sv_ImageRef := image; sv_TemplateID := "";
     sv_ConnectionID := None; sv_Provider := "github"; sv_Owner := "acme"; sv_Repo := slug;
     sv_FullName := "acme/" +:+ slug; sv_Branch := "main"; sv_DefaultBranch := "main"; sv_IsPrivate := false;
     sv_HtmlUrl := ""; sv_SourceAccess := "public"; sv_ContainerPort := 8080; sv_Visibility := "public";
     sv_RouteUrl := ""; sv_CreatedAt := 1; sv_UpdatedAt := 1 |}.

Definition deployment_row_of (id svc status kind key source image ref : string) (pr created hostPort : Z) : db_Deployment :=
  {| dp_ID := id; dp_EnvironmentID := "env-1"; dp_ProjectID := "prj-1"; dp_WorkspaceID := the_ws;
     dp_ServerID := the_server; dp_ImageRef := image; dp_ContainerPort := 8080; dp_HostPort := hostPort;
     dp_ContainerID := ""; dp_Status := status; dp_Message := ""; dp_CreatedAt := created; dp_UpdatedAt := created;
     dp_SourceKind := source; dp_SourceAccess := "public"; dp_CloneUrl := ""; dp_GitRef := ref; dp_CommitSha := "";
     dp_BuiltImageRef := ""; dp_RouteUrl := ""; dp_ServiceID := svc; dp_RolledBackFrom := None; dp_Kind := kind;
     dp_RouteKey := key; dp_PrNumber := pr; dp_PrUrl := ""; dp_PreviewAuthUser := ""; dp_PreviewAuthHash := "" |}.

Definition dep_running : db_Deployment :=
  deployment_row_of "dep-1" svc_image "running" "production" svc_image "image" "nginx:1" "" 0 10 32768.
Definition dep_queued : db_Deployment :=
  deployment_row_of "dep-2" svc_image "queued" "production" svc_image "image" "nginx:2" "" 0 20 0.
Definition dep_preview : db_Deployment :=
  deployment_row_of "dep-3" svc_git "running" "preview" preview_key "git" "" "feature/a" 5 15 32769.

Definition the_teardown : db_TeardownJob :=
  {| td_ID := "td-1"; td_DeploymentID := "dep-3"; td_ServiceID := svc_git; td_RouteKey := preview_key;
     td_EnvironmentID := "env-1"; td_ProjectID := "prj-1"; td_WorkspaceID := the_ws; td_ServerID := the_server;
     td_Status := "removing"; td_Message := ""; td_Error := ""; td_CreatedAt := 30; td_UpdatedAt := 30 |}.

Definition agent_row : db_Agent :=
  {| ag_ID := the_agent; ag_ServerID := the_server; ag_WorkspaceID := the_ws; ag_PublicKey := [];
     ag_CredentialHash := hashToken the_secret; ag_AgentVersion := "1"; ag_LastSeenAt := None; ag_CreatedAt := 1;
     ag_DockerAvailable := Some true; ag_DockerVersion := ""; ag_Os := ""; ag_Arch := "";
     ag_CaddyAvailable := Some true; ag_CaddyRunning := true; ag_CaddyVersion := ""; ag_DiskTotalBytes := 0;
     ag_DiskFreeBytes := 0; ag_MemTotalBytes := 0; ag_MemAvailableBytes := 0; ag_CpuCount := 1 |}.

Definition the_user (id : string) : db_User := mk_us id (id +:+ "@example.com") 1 None true.

Definition db0 : DB :=
  {| workspaces := [mk_ws the_ws "shop" "shop-1" 1];
     workspace_members := [mk_wm the_ws "alice" RoleOwner 1; mk_wm the_ws "vera" RoleViewer 1];
     projects := [mk_pj "prj-1" the_ws "shop" "shop" 1];
     environments := [mk_en "env-1" "prj-1" "production" "production" "production" 1];
     services := [service_row_of svc_image "web" "image" "nginx:1"; service_row_of svc_git "api" "git" ""];
     servers := [mk_srv the_server the_ws "box" "box" 1 ""];
     agents := [agent_row];
     config_entries := [mk_ce "cfg-1" "variable" "service" (Some svc_image) None "MODE" (Some "fast") [] 1 1];
     domains := [mk_dm "dom-1" svc_image "env-1" "prj-1" the_ws "shop.example.com" "verified" "" None 1 1];
     deployments := [dep_running; dep_queued; dep_preview];
     deployment_events := []; teardown_jobs := [the_teardown]; backups := []; restore_jobs := []; audit_events := []; users := [the_user "alice"; the_user "vera"]; source_connections := []; registration_tokens := []; sessions := []; api_tokens := []; user_tokens := [];
  github_app_config := []; ssh_management_keys := []; server_setup_runs := []; server_setup_events := [] |}.
Definition w0 : World := mk_World db0 0 0.

(** ** It satisfies the invariant *)
Ltac decided := apply (bool_decide_unpack _); vm_compute; exact I.

Lemma svc_image_uuid : canonical_uuid svc_image.
Proof. split; [reflexivity|repeat constructor|done|done]. Qed.
Lemma svc_git_uuid : canonical_uuid svc_git.
Proof. split; [reflexivity|repeat constructor|done|done]. Qed.

Lemma db0_placed id svc status kind key source image ref pr created hostPort :
  svc = svc_image ∨ svc = svc_git →
  placed db0 (deployment_row_of id svc status kind key source image ref pr created hostPort).
Proof.
  intros Hs. split.
  - destruct Hs as [->| ->].
    + exists (service_row_of svc_image "web" "image" "nginx:1"). repeat split. left.
    + exists (service_row_of svc_git "api" "git" ""). repeat split. right. left.
  - exists (mk_srv the_server the_ws "box" "box" 1 ""). repeat split. left.
Qed.

Lemma wf_db0 : wf db0.
Proof.
  split; try decided.
  - apply Forall_cons_2; [exact svc_image_uuid|]. apply Forall_cons_2; [exact svc_git_uuid|apply Forall_nil_2].
  - repeat apply Forall_cons_2; try apply Forall_nil_2; repeat split.
    all: try decided. all: try (apply db0_placed; auto). all: try (simpl; lia).
    all: first [left; repeat split; reflexivity|right; repeat split; reflexivity].
  - apply Forall_cons_2; [|apply Forall_nil_2]. exists dep_preview. repeat split; try reflexivity. right. right. left.
  - constructor.
Qed.

Lemma fresh_w0 : fresh_ids w0.
Proof. split; [exact uuid_at_inj|]. intros n _ Hn. by apply elem_of_nil in Hn. Qed.

(** A host on which everything works. *)
#[export] Instance healthy_host : Host := {|
  err_text := λ _, "error";
  h_mkdirTemp := λ _, None;
  h_clone := λ _ _, ([], inr "c0ffee");
  h_build := λ _ _, ([], None);
  h_detectPort := λ _ _, inr 8080;
  h_pull := λ _ _, (["pulled"], None);
  h_run := λ _ _, ("container-9", 32770, None);
  h_recentLogs := λ _ _, ["listening"];
  h_health := λ _ _, None;
  h_listRoutes := λ _, inr [];
  h_apply := λ _ _, ([], None);
  h_replace := λ _ _ _, None;
  h_removeContainer := λ _ _, None;
  h_sync := λ _ _, inr [];
  h_removeByService := λ _ _, inr 1;
  h_removeNetwork := λ _ _, None;
  h_listRunning := λ _, inr [];
  h_nowCursor := λ _, "now";
  h_logsSince := λ _ _ _, inr ([], "next");
  h_env_order := λ env, map_to_list env;
|}.

Definition poll : PollInput := mk_PollInput the_agent the_secret.
Definition caddy_options : Options := mk_Options "example.com" 0 "" "/etc/plorigo/Caddyfile".

(** Evaluate a run that the goal claims to succeed. *)
Ltac run_ok Hrun :=
  lazymatch goal with
  | |- runs ?m ?Q ?w =>
      unfold runs; destruct (m w) as [[?e|?a] ?w'] eqn:Hrun;
      [exfalso; vm_compute in Hrun; discriminate Hrun|eexists _, _; split; [reflexivity|]]
  end.
Ltac field_of Hrun := vm_compute in Hrun; injection Hrun; intros; subst; try reflexivity.

(** ** Applications *)

Lemma deployment_completes_applied :
  runs (PollDeployment poll) (λ out w1, cl_HasWork out = true ∧
    ∃ ext w2 row', snd (executeDeployment true (Some (mk_caddyManager "" "example.com" 80 "")) (job_message out) []) = ext ∧
      deliver the_agent the_secret (reports_of ext) w1 = (inr tt, w2) ∧
      lookup_by dp_ID "dep-2" (deployments (w_db w2)) = Some row' ∧
      (dp_Status row' = StatusRunning ∨ dp_Status row' = StatusFailed)) w0.
Proof.
  run_ok Hrun. assert (cl_HasWork a = true ∧ cl_DeploymentID a = "dep-2") as [Hw Hid] by (split; field_of Hrun).
  assert (fresh_ids w') as Hf.
  { split; [exact uuid_at_inj|]. assert (w_tick w' = 7%nat ∧ map ev_ID (deployment_events (w_db w')) = [uuid_at 3]) as [Ht He]
      by (split; field_of Hrun).
    rewrite He, Ht. intros n Hn Hin%list_elem_of_singleton. apply uuid_at_inj in Hin. lia. }
  split; [exact Hw|].
  destruct (deployment_completes poll w0 a w' true (Some (mk_caddyManager "" "example.com" 80 "")) [])
    as (ext & w2 & row & row' & Hx & Hd & _ & _ & Hl & _ & _ & Hs); try assumption.
  - exact calm_no_fault.
  - exact wf_db0.
  - decided.
  - by rewrite Hid.
  - exists ext, w2, row'. rewrite Hid in Hl. exact (conj Hx (conj Hd (conj Hl Hs))).
Defined.

Lemma claimed_job_routable_applied :
  runs (PollDeployment poll) (λ out _, cl_HasWork out = true ∧
    ∃ m url, newCaddyManager caddy_options "" = inr m ∧ routeURL m (cl_AppLabel out) = inr url ∧
      ∀ port, 0 < port ≤ 65535 →
        ∃ text, render m (λ l, l) (routesForDeployment [] (job_route (job_message out) "c" port)) = inr text) w0.
Proof.
  run_ok Hrun. assert (cl_HasWork a = true ∧ cl_RouteHost a = "") as [Hw Hh] by (split; field_of Hrun).
  split; [exact Hw|]. destruct (newCaddyManager caddy_options "") as [e|m] eqn:Hm; [exfalso; vm_compute in Hm; discriminate Hm|].
  destruct (claimed_job_routable poll w0 a w' caddy_options "" m) as [(url & Hu) Hr]; try assumption; [exact wf_db0|].
  exists m, url. split; [reflexivity|]. split; [simpl in Hu; by rewrite Hh in Hu|].
  intros port Hp. apply (Hr (λ l, l)); [done|done|by apply Forall_nil_2].
Defined.

Definition create_web : CreateForServiceInput := mk_CreateForServiceInput svc_image the_server 9090 "".
Definition preview_7 : CreatePreviewInput := mk_CreatePreviewInput svc_git the_server "" 7 0 "" "".
Definition report_of (id status : string) (hostPort : Z) : ReportInput :=
  mk_ReportInput the_agent the_secret id status hostPort "container-9" ["listening"; " "] "runtime" "up" "" "" "http://web.example.com".
Definition healthy_report : ReportInput := report_of "dep-2" "running" 32770.
Definition teardown_done : ReportTeardownInput := mk_ReportTeardownInput the_agent the_secret "td-1" "succeeded" "gone" "".

(** The stream of a report is not validated: one the table's check refuses fails the whole
    report, with its status, as an internal error. *)
Example unknown_stream_refused :
  let report stream := mk_ReportInput the_agent the_secret "dep-2" "running" 0 "" ["listening"] stream "" "" "" "" in
  let after stream := ReportDeployment (report stream) w0 in
  (∃ e, fst (after "stdout") = inl e) ∧ w_db (snd (after "stdout")) = db0 ∧ fst (after "runtime") = inr tt.
Proof. vm_compute. split; [eexists; reflexivity|split; reflexivity]. Qed.

Lemma dashboard_authorized_applied :
  runs (handle_dashboard alice (RCreateForService create_web)) (λ _ w',
    ∃ ws id rows, allows alice ActionDeploymentCreate (deployment_resource ws id) db0 ∧
      deployments (w_db w') = deployments db0 ++ rows ∧ Forall (λ x, dp_WorkspaceID x = ws) rows) w0.
Proof.
  run_ok Hrun. assert (a = tt) as -> by (by destruct a).
  destruct (dashboard_authorized alice (RCreateForService create_web) w0 _ _ Hrun (or_introl eq_refl))
    as (ws & id & rows & jobs & Ha & Hd & _ & Hr & _). exists ws, id, rows. exact (conj Ha (conj Hd Hr)).
Defined.

(** The teardown of a deployment that is not a preview is refused. *)
Lemma error_leaves_database_applied :
  ∃ e w', handle (Dashboard alice (RTeardownPreview "dep-1")) w0 = (inl e, w') ∧ w_db w' = w_db w0.
Proof.
  destruct (handle (Dashboard alice (RTeardownPreview "dep-1")) w0) as [[e|a] w'] eqn:Hrun;
    [|exfalso; vm_compute in Hrun; discriminate Hrun].
  exists e, w'. split; [reflexivity|].
  destruct (error_leaves_database _ _ _ _ Hrun) as [Hd|(i & srv & row & rest & now & Hr & _)]; [exact Hd|discriminate Hr].
Defined.

Lemma dashboard_write_audited_applied :
  runs (handle_dashboard alice (RCreatePreview preview_7)) (λ _ w', ∃ row,
    audit_events (w_db w') = audit_events db0 ++ [row] ∧ au_Actor row = "alice") w0.
Proof.
  run_ok Hrun.
  destruct (dashboard_write_audited alice (RCreatePreview preview_7) w0 _ _ eq_refl Hrun) as (ws & id & row & _ & Ha & Hc & _).
  exists row. exact (conj Ha Hc).
Defined.

Lemma viewer_cannot_write_applied :
  w_db (snd (handle_dashboard (A := policy_authorizer) vera (RRollback "dep-1") w0)) = db0.
Proof.
  destruct (handle_dashboard (A := policy_authorizer) vera (RRollback "dep-1") w0) as [r w'] eqn:Hrun.
  refine (viewer_cannot_write vera (RRollback "dep-1") w0 r w' _ Hrun).
  intros ws role (m & Hm & ->)%fmap_Some. apply find_some in Hm as [Hin Hb].
  destruct Hin as [<-|[<-|[]]]; [|reflexivity]. simpl in Hb. by rewrite andb_false_r in Hb.
Defined.

Lemma agent_isolation_applied :
  runs (handle_agent (RReport healthy_report)) (λ _ w', w_db w' = db0 ∨
    ∃ srv, authenticated the_agent the_secret srv db0 ∧ agent_frame srv db0 (w_db w')) w0.
Proof. run_ok Hrun. exact (agent_isolation (RReport healthy_report) w0 _ _ wf_db0 Hrun). Defined.

Lemma previews_keep_production_applied :
  runs (handle (Dashboard alice (RCreatePreview preview_7))) (λ _ w', production_kept db0 (w_db w')) w0.
Proof. run_ok Hrun. exact (previews_keep_production (Dashboard alice (RCreatePreview preview_7)) w0 _ _ wf_db0 I Hrun). Defined.

Lemma production_report_keeps_previews_applied :
  runs (ReportDeployment healthy_report) (λ _ w',
    where_ is_preview (deployments (w_db w')) = where_ is_preview (deployments db0)) w0.
Proof.
  run_ok Hrun. exact (production_report_keeps_previews healthy_report dep_queued w0 _ _ wf_db0 eq_refl eq_refl Hrun).
Defined.

Definition after_report : World := snd (handle (FromAgent (RReport healthy_report)) w0).
Lemma reachable_isolation_applied :
  reachable w0 after_report ∧ ∀ r, r ∈ deployments (w_db after_report) → label_ok (dp_RouteKey r).
Proof.
  assert (reachable w0 after_report) as Hr by exact (reach_request w0 w0 (FromAgent (RReport healthy_report)) (reach_start w0) I).
  split; [exact Hr|]. intros r Hin. exact (proj2 (proj1 (reachable_isolation w0 _ wf_db0 Hr) r Hin)).
Defined.

Lemma poll_claims_oldest_applied :
  runs (PollDeployment poll) (λ out w', w_db w' = db0 ∨ ∃ srv row rest,
    deployment_queue srv db0 = row :: rest ∧ deployment_queue srv (w_db w') = rest) w0.
Proof.
  run_ok Hrun. destruct (poll_claims_oldest poll w0 _ _ wf_db0 Hrun) as [Hd|(srv & row & rest & _ & H1 & _ & H2 & _)].
  - left. exact Hd.
  - right. exists srv, row, rest. exact (conj H1 H2).
Defined.

Lemma claims_drain_queue_applied :
  runs (claim_n the_server 1) (λ ds w', map d_ID ds = ["dep-2"] ∧ deployment_queue the_server (w_db w') = []) w0.
Proof.
  destruct (claims_drain_queue the_server 1 w0 calm_no_fault fresh_w0 wf_db0) as (ds & w' & Hrun & Hd & Hq).
  exists ds, w'. split; [exact Hrun|]. split; [rewrite Hd; reflexivity|rewrite Hq; reflexivity].
Defined.

Lemma poll_returns_job_applied :
  runs (PollDeployment poll) (λ out w', ∃ row, job_matches row db0 out) w0.
Proof.
  run_ok Hrun. assert (cl_HasWork a = true) as Hw by field_of Hrun.
  destruct (poll_returns_job poll w0 a w' wf_db0 Hrun Hw) as (srv & row & rest & now & _ & _ & Hj). exists row. exact Hj.
Defined.

Lemma poll_serves_queue_applied :
  runs (PollDeployment poll) (λ out _, cl_HasWork out = true ∧ cl_DeploymentID out = "dep-2") w0.
Proof.
  destruct (poll_serves_queue poll w0 the_server dep_queued [] calm_no_fault fresh_w0 wf_db0) as (out & w' & Hrun & Hw & Hid);
    [discriminate|vm_compute; reflexivity|reflexivity|reflexivity| |exists out, w'; exact (conj Hrun (conj Hw Hid))].
  intros e [->|He%elem_of_nil]%elem_of_cons; [discriminate|done].
Defined.

Lemma validateImageRef_normal_applied :
  validateImageRef " nginx " = inr "nginx:latest" ∧ tagged "nginx:latest" = true ∧ validateImageRef "nginx:latest" = inr "nginx:latest".
Proof.
  split; [vm_compute; reflexivity|].
  destruct (validateImageRef_normal " nginx " "nginx:latest" eq_refl) as (_ & _ & _ & Ht & _ & Hn).
  split; [exact Ht|]. apply Hn. vm_compute. discriminate.
Defined.

Lemma previewRouteKey_separates_applied :
  previewRouteKey svc_git 5 "feature/a" = previewRouteKey svc_git 5 "feature/b" ∧ (0 < 5 → 0 < 5 → 5 = 5).
Proof.
  split; [vm_compute; reflexivity|].
  refine (proj2 (previewRouteKey_separates svc_git svc_git 5 5 "feature/a" "feature/b" svc_git_uuid svc_git_uuid _ _ _));
    [lia|lia|vm_compute; reflexivity].
Defined.

Lemma CreateForService_queues_applied :
  runs (CreateForService alice create_web) (λ dep w', ∃ ws svc row,
    production_row svc_image the_server svc 9090 "" row ∧ dep = deploymentFromRow row ∧
    created_audited row "deployment.create" ws "alice" db0 (w_db w')) w0.
Proof.
  run_ok Hrun. destruct (CreateForService_queues alice create_web w0 a w' Hrun) as (ws & svc & row & _ & _ & Hp & Hd & Hc & _).
  exists ws, svc, row. exact (conj Hp (conj Hd Hc)).
Defined.

Lemma CreatePreview_queues_applied :
  runs (CreatePreview alice preview_7) (λ dep w', ∃ ws row,
    dp_RouteKey row ≠ dp_ServiceID row ∧ dep = deploymentFromRow row ∧
    created_audited row "deployment.preview" ws "alice" db0 (w_db w')) w0.
Proof.
  run_ok Hrun. destruct (CreatePreview_queues alice preview_7 w0 a w' wf_db0 Hrun)
    as (ws & svc & row & _ & _ & _ & _ & _ & Hd & Hk & Hc & _).
  exists ws, row. exact (conj Hk (conj Hd Hc)).
Defined.

Lemma Rollback_reproduces_applied :
  runs (RollbackToDeployment alice "dep-1") (λ dep _, ∃ target row,
    lookup_by dp_ID "dep-1" (deployments db0) = Some target ∧ rollback_row target row ∧ dep = deploymentFromRow row) w0.
Proof.
  run_ok Hrun. destruct (Rollback_reproduces alice "dep-1" w0 a w' Hrun) as (target & row & Hl & _ & Hr & Hd & _).
  exists target, row. exact (conj Hl (conj Hr Hd)).
Defined.

Lemma ReportDeployment_records_applied :
  runs (ReportDeployment healthy_report) (λ _ w', ∃ row',
    lookup_by dp_ID "dep-2" (deployments (w_db w')) = Some row' ∧ dp_Status row' = "running" ∧ dp_HostPort row' = 32770) w0.
Proof.
  run_ok Hrun. assert (a = tt) as -> by (by destruct a).
  destruct (ReportDeployment_records healthy_report w0 w' wf_db0 Hrun)
    as (srv & row & row' & evs & _ & _ & _ & _ & Hl & Hs & Hp & _).
  exists row'. split; [exact Hl|]. split; [exact Hs|]. rewrite Hp. reflexivity.
Defined.

Lemma switch_leaves_one_running_applied :
  runs (ReportDeployment healthy_report) (λ _ w',
    (∃ r, r ∈ deployments (w_db w') ∧ dp_ID r = "dep-2" ∧ dp_Status r = StatusRunning) ∧
    (∃ r, r ∈ deployments (w_db w') ∧ dp_ID r = "dep-1" ∧ dp_Status r = StatusSuperseded)) w0.
Proof.
  run_ok Hrun. assert (a = tt) as -> by (by destruct a).
  destruct (switch_leaves_one_running healthy_report w0 w' the_server dep_queued wf_db0 Hrun eq_refl eq_refl eq_refl) as (H1 & _ & H3).
  split; [exact H1|]. refine (H3 dep_running _ eq_refl eq_refl eq_refl _); [left|discriminate].
Defined.

Definition sync_web : SyncRoutesInput := mk_SyncRoutesInput the_agent the_secret [mk_ManagedRoute svc_image "dep-1" 32768].
Lemma SyncRoutes_verified_applied :
  runs (SyncRoutes sync_web) (λ out w', out = [mk_RouteOverride svc_image ["shop.example.com"]] ∧ w_db w' = db0 ∧
    NoDup (map ro_ServiceID out)) w0.
Proof.
  run_ok Hrun. split; [clear -Hrun; field_of Hrun|].
  destruct (SyncRoutes_verified sync_web w0 a w' Hrun) as (Hd & srv & _ & Hn & _). exact (conj Hd Hn).
Defined.

Lemma ExpirePreviews_counts_applied :
  runs (ExpirePreviews 100) (λ n w', n = 1 ∧ ∃ now, swept (expired (now - 100) db0) n db0 (w_db w')) w0.
Proof.
  run_ok Hrun. split; [clear -Hrun; field_of Hrun|]. exact (ExpirePreviews_counts 100 w0 a w' Hrun).
Defined.

Lemma teardown_retires_preview_applied :
  runs (ReportTeardownJob teardown_done) (λ _ w',
    ∀ r, r ∈ deployments (w_db w') → dp_RouteKey r = preview_key → dp_ServerID r = the_server →
      dp_Status r ∈ [StatusFailed; StatusSuperseded; StatusTornDown]) w0.
Proof.
  run_ok Hrun. assert (a = tt) as -> by (by destruct a).
  destruct (teardown_retires_preview teardown_done w0 w' wf_db0 Hrun eq_refl) as (t & Ht & Hr & _).
  injection Ht as <-. exact Hr.
Defined.

(** Two releases of one service and one of another, the latter with a custom host. *)
Definition some_routes : list managedRoute :=
  [mk_managedRoute "web" "dep-1" "c1" 32768 [] "" "" "";
   mk_managedRoute "api" "dep-3" "c3" 32770 ["Shop.Example.com."] "" "" "api-pr-5";
   mk_managedRoute "web" "dep-2" "c2" 32769 [] "" "" ""].
Definition the_caddy : caddyManager := mk_caddyManager "/etc/plorigo/Caddyfile" "example.com" 80 "localhost:2019".

(** Everything works but the reload, and Caddy cannot be started either. *)
Definition dead_caddy : ApplyWorld :=
  {| aw_order := λ l, l; aw_read := None; aw_mkdir := None; aw_temp := None;
     aw_validate := λ _, ("", None); aw_rename := None; aw_reload := λ _, ("refused", Some (ErrOther "exit 1"));
     aw_start := λ _, ("", Some (ErrOther "exit 1")); aw_restore := None; aw_not_found := λ _, false |}.

Lemma normalizeRoutes_correct_applied :
  ∃ out, normalizeRoutes (λ l, l) some_routes = inr out ∧ map r_DeploymentID out = ["dep-3"; "dep-2"] ∧
    NoDup (map r_ServiceID out) ∧ hosts_disjoint out.
Proof.
  destruct (normalizeRoutes (λ l, l) some_routes) as [e|out] eqn:Hn; [exfalso; vm_compute in Hn; discriminate Hn|].
  exists out. split; [reflexivity|].
  split; [clear -Hn; field_of Hn|].
  destruct (normalizeRoutes_correct (λ l, l) some_routes out (λ l, reflexivity l) Hn) as (_ & Hnd & Hd & _). exact (conj Hnd Hd).
Defined.

Lemma normalizeRoutes_deterministic_applied :
  match normalizeRoutes (λ l, l) some_routes, normalizeRoutes (@rev _) some_routes with
  | inr out, inr out' => out = out'
  | inl _, inl _ => True
  | _, _ => False
  end.
Proof.
  refine (normalizeRoutes_deterministic (λ l, l) (@rev _) some_routes (λ l, reflexivity l) (λ l, _)).
  apply (Permutation_sym (Permutation_rev l)).
Defined.

Lemma render_accepts_labels_applied :
  ∃ text, render the_caddy (λ l, l) [mk_managedRoute "web" "dep-1" "c1" 32768 [] "" "" ""] = inr text.
Proof.
  destruct (render_accepts_labels the_caddy (λ l, l) [mk_managedRoute "web" "dep-1" "c1" 32768 [] "" "" ""] (λ l, reflexivity l))
    as (text & Ht & _); [vm_compute; reflexivity| |exists text; exact Ht].
  apply Forall_cons_2; [|apply Forall_nil_2]. split; [|split; [left; reflexivity|split; [simpl; lia|reflexivity]]].
  apply (validateDNSLabel_ok "x"). vm_compute. reflexivity.
Defined.

(** A reload that fails for good puts the previous file back. *)
Lemma apply_all_or_nothing_applied :
  snd (apply the_caddy dead_caddy some_routes None) = None ∧ snd (fst (apply the_caddy dead_caddy some_routes None)) ≠ None.
Proof.
  destruct (apply the_caddy dead_caddy some_routes None) as [[logs err] file'] eqn:Ha.
  assert (err ≠ None) as He by (clear -Ha; vm_compute in Ha; injection Ha; intros; subst; discriminate).
  destruct (apply_all_or_nothing the_caddy dead_caddy some_routes None logs err file' Ha) as [Hr _].
  destruct err as [e|]; [|by destruct He]. split; [|exact He]. destruct Hr as [Hr|Hr]; [exact Hr|by destruct Hr].
Defined.

Lemma policy_Authorize_exact_applied :
  runs (policy_Authorize alice ActionDeploymentCreate (deployment_resource the_ws "")) (λ _ w',
    policy_allows alice ActionDeploymentCreate (deployment_resource the_ws "") db0) w0.
Proof. run_ok Hrun. exact (proj2 (policy_Authorize_exact alice ActionDeploymentCreate _ w0 _ _ Hrun)). Defined.

(** The rollback of the running preview. *)
Lemma rollback_of_preview_applied :
  runs (RollbackToDeployment alice "dep-3") (λ dep _, d_Kind dep = KindProduction ∧ d_RouteKey dep = svc_git) w0.
Proof.
  run_ok Hrun. assert (preview_cols dep_preview) as Hp by (repeat split; reflexivity).
  destruct (rollback_of_preview alice "dep-3" w0 a w' dep_preview Hrun eq_refl Hp) as (Hk & Hr & _). exact (conj Hk Hr).
Defined.

(** A release that reports no host port, beside the one that runs. *)
Lemma private_release_keeps_previous_applied :
  runs (ReportDeployment (report_of "dep-2" "running" 0)) (λ _ w',
    dep_running ∈ deployments (w_db w') ∧ dp_Status dep_running = StatusRunning ∧
    ∃ row', row' ∈ deployments (w_db w') ∧ dp_ID row' = "dep-2" ∧ dp_Status row' = StatusRunning ∧
            dp_RouteKey row' = dp_RouteKey dep_running) w0.
Proof.
  run_ok Hrun. assert (a = tt) as -> by (by destruct a).
  destruct (private_release_keeps_previous (report_of "dep-2" "running" 0) w0 w' dep_queued dep_running Hrun eq_refl eq_refl eq_refl)
    as (Ho & row' & Hrow); [left|discriminate|]. split; [exact Ho|]. split; [reflexivity|]. exists row'. exact Hrow.
Defined.
