(* ===== verification/BackupScenario.v ===== *)
(** * BackupScenario: a managed database and its backups

    The installation of [Scenario] with a managed Postgres service that runs on the
    server, one succeeded backup of it and one that is queued, and a host on which Docker
    and the file system work.  The theorems about backups are applied to it. *)
From S2P Require Import Prelude.
From S2P Require Import DeploySpec.
From S2P Require Import GoStrings.
From S2P Require Import Sha256.
From S2P Require Import Problem.
From S2P Require Import Schema.
From S2P Require Import Platform.
From S2P Require Import Authz.
From S2P Require Import DeployNames.
From S2P Require Import DeployInv.
From S2P Require Import DeployStore.
From S2P Require Import Deployments.
From S2P Require Import DeploySystem.
From S2P Require Import DeployJobs.
From S2P Require Import Gateway.
From S2P Require Import Config.
From S2P Require Import Scenario.
From S2P Require Import BackupStore.
From S2P Require Import Backups.
From S2P Require Import BackupSpec.
From S2P Require Import BackupSystem.
From S2P Require Import BackupProps.
From S2P Require Import BackupAgent.
From S2P Require Import BackupAgentProps.
From S2P Require Import BackupGateway.

(** ** The installation *)
Definition svc_pg : string := "33333333-3333-4333-8333-333333333333".
Definition service_pg : db_Service :=
  {| sv_ID := svc_pg; sv_EnvironmentID := "env-1"; sv_ProjectID := "prj-1"; sv_WorkspaceID := the_ws;
     sv_Name := "db"; sv_Slug := "db"; sv_SourceKind := "template"; sv_ImageRef := "postgres:16"; sv_TemplateID := "postgres";
     sv_ConnectionID := None; sv_Provider := ""; sv_Owner := ""; sv_Repo := "";
     sv_FullName := ""; sv_Branch := ""; sv_DefaultBranch := ""; sv_IsPrivate := false;
     sv_HtmlUrl := ""; sv_SourceAccess := "public"; sv_ContainerPort := 5432; sv_Visibility := "private";
     sv_RouteUrl := ""; sv_CreatedAt := 1; sv_UpdatedAt := 1 |}.
Definition dep_pg : db_Deployment :=
  deployment_row_of "dep-9" svc_pg "running" "production" svc_pg "image" "postgres:16" "" 0 12 0.
Definition variable_pg (key value : string) : db_ConfigEntry :=
  mk_ce ("cfg-" +:+ key) "variable" "service" (Some svc_pg) None key (Some value) [] 1 1.
Definition backup_row_of (id status artifact : string) (created : Z) : db_Backup :=
  {| bk_ID := id; bk_ServiceID := svc_pg; bk_EnvironmentID := "env-1"; bk_ProjectID := "prj-1";
     bk_WorkspaceID := the_ws; bk_ServerID := the_server; bk_Destination := "local"; bk_ArtifactUri := artifact;
     bk_SizeBytes := 0; bk_Checksum := ""; bk_Status := status; bk_Message := ""; bk_Error := "";
     bk_CreatedAt := created; bk_UpdatedAt := created; bk_Label := "nightly"; bk_TriggerSource := "manual" |}.
Definition bk_old : db_Backup := backup_row_of "bk-1" "succeeded" "/var/lib/plorigo/backups/x/bk-1.sql" 40.
Definition bk_new : db_Backup := backup_row_of "bk-2" "queued" "" 50.

Definition db1 : DB :=
  {| workspaces := workspaces db0; workspace_members := workspace_members db0; projects := projects db0;
     environments := environments db0; services := services db0 ++ [service_pg]; servers := servers db0;
     agents := agents db0;
     config_entries := [variable_pg "POSTGRES_USER" "app"; variable_pg "POSTGRES_PASSWORD" "s3cret"; variable_pg "POSTGRES_DB" "shop"];
     domains := domains db0; deployments := deployments db0 ++ [dep_pg]; deployment_events := [];
     teardown_jobs := teardown_jobs db0; backups := [bk_old; bk_new]; restore_jobs := []; audit_events := []; users := users db0; source_connections := []; registration_tokens := []; sessions := []; api_tokens := []; user_tokens := [];
  github_app_config := []; ssh_management_keys := []; server_setup_runs := []; server_setup_events := [] |}.
Definition b0 : World := mk_World db1 0 0.

Lemma db1_placed id svc status kind key source image ref pr created hostPort :
  svc = svc_image ∨ svc = svc_git ∨ svc = svc_pg →
  placed db1 (deployment_row_of id svc status kind key source image ref pr created hostPort).
Proof.
  intros Hs. split.
  - destruct Hs as [->|[->| ->]].
    + exists (service_row_of svc_image "web" "image" "nginx:1"). repeat split. left.
    + exists (service_row_of svc_git "api" "git" ""). repeat split. right. left.
    + exists service_pg. repeat split. right. right. left.
  - exists (mk_srv the_server the_ws "box" "box" 1 ""). repeat split. left.
Qed.

Lemma wf_db1 : wf db1.
Proof.
  split; try decided.
  - repeat apply Forall_cons_2; [exact svc_image_uuid|exact svc_git_uuid| |apply Forall_nil_2].
    split; [reflexivity|repeat constructor|done|done].
  - repeat apply Forall_cons_2; try apply Forall_nil_2; repeat split.
    all: try decided. all: try (apply db1_placed; auto). all: try (simpl; lia).
    all: first [left; repeat split; reflexivity|right; repeat split; reflexivity].
  - apply Forall_cons_2; [|apply Forall_nil_2]. exists dep_preview. repeat split; try reflexivity. right. right. left.
  - constructor.
Qed.

Lemma bwf_db1 : bwf db1.
Proof.
  split; try decided; [|constructor].
  repeat apply Forall_cons_2; try apply Forall_nil_2;
    (split; [exists service_pg; repeat split; right; right; left|exists (mk_srv the_server the_ws "box" "box" 1 ""); repeat split; left]).
Qed.

(** A host on which everything works: two chunks of a dump, and psql that takes them. *)
#[export] Instance working_host : BackupHost.
Proof.
  refine {|
    berr_text := λ _, "error";
    bh_pollBackup := λ _, inr (mk_BackupMsg false "" "" "" "" "");
    bh_pollRestore := λ _, inr (mk_RestoreMsg false "" "" "" "" "" "");
    bh_containers := λ _ _, inr ["container-pg"];
    bh_execCreate := λ _ _ _ _, inr "exec-1";
    bh_execAttach := λ _ _, None;
    bh_stream := λ _ _, ([bytes_of "CREATE TABLE t();"; bytes_of "-- done"], "", Some io_EOF);
    bh_feed := λ _ _ _, (None, "", None);
    bh_execInspect := λ _ _, inr 0;
    bh_mkdirAll := λ _ _, None;
    bh_openFile := λ _ _, None;
    bh_write := λ _ _ _, None;
    bh_close := λ _ _, None;
    bh_remove := λ _ _, None;
    bh_stat := λ _ _, None;
    bh_openRead := λ _ _, None;
  |}.
  done.
Defined.
Definition data_dir : string := "/var/lib/plorigo".
Definition poll_job : PollInput := mk_PollInput the_agent the_secret.

(** ** A backup and its restore, run to the end *)
Definition outcome {X} (d : X) (r : (go_error + X) * World) : X := match fst r with inr a => a | inl _ => d end.
Definition job_1 : Claimed := outcome no_backup (PollBackupJob poll_job b0).
Definition after_poll : World := snd (PollBackupJob poll_job b0).
Definition server_1 : BState := snd (executeBackup true data_dir (backup_job_message job_1) (mk_BState ∅ [])).
Definition after_reports : World := snd (deliver_backup the_agent the_secret (backup_reports (bs_trace server_1)) after_poll).
Definition restore_1 : RestoreJob := outcome (mk_RestoreJob "" "" "" "" "" "" "" "" "" "" "" 0 0) (RestoreBackup alice "bk-2" after_reports).
Definition after_restore : World := snd (RestoreBackup alice "bk-2" after_reports).
Definition job_2 : ClaimedRestore := outcome no_restore (PollRestoreJob poll_job after_restore).
Definition after_poll_2 : World := snd (PollRestoreJob poll_job after_restore).
Definition server_2 : BState := snd (executeRestore true (restore_job_message job_2) (mk_BState (bs_disk server_1) [])).

Lemma job_1_ok : PollBackupJob poll_job b0 = (inr job_1, after_poll) ∧ cb_HasWork job_1 = true ∧ cb_BackupID job_1 = "bk-2".
Proof. vm_compute. repeat split. Qed.
Lemma agents_db1 : NoDup (map ag_CredentialHash (agents db1)).
Proof. decided. Qed.

(** ** Applications *)
Lemma backup_completes_applied :
  ∃ w2 row', deliver_backup the_agent the_secret (backup_reports (bs_trace server_1)) after_poll = (inr tt, w2) ∧
    lookup_by bk_ID "bk-2" (backups (w_db w2)) = Some row' ∧
    (bk_Status row' = StatusFailed ∨ bk_Status row' = StatusSucceeded).
Proof.
  destruct job_1_ok as (Hrun & Hw & Hid).
  destruct (backup_completes poll_job b0 job_1 after_poll true data_dir ∅ [] calm_no_fault bwf_db1 agents_db1 Hrun Hw)
    as (ext & w2 & row & row' & Hx & Hd & _ & _ & Hl & _ & Hs); [rewrite Hid; reflexivity..|].
  exists w2, row'. rewrite Hid in Hl.
  change (bs_trace server_1 = ext) in Hx. rewrite Hx. split; [exact Hd|]. split; [exact Hl|].
  destruct Hs as [Hs|[Hs _]]; [left|right]; exact Hs.
Defined.

Lemma backup_roundtrip_applied :
  ∃ data, dumped (backup_job_message job_1) data ∧ fed (bs_trace server_2) = [data].
Proof.
  destruct job_1_ok as (Hrun & Hw & Hid).
  destruct (backup_roundtrip poll_job b0 job_1 after_poll true data_dir ∅ [] (bs_trace server_1) after_reports
    (default bk_new (lookup_by bk_ID "bk-2" (backups (w_db after_reports)))) alice after_reports restore_1 after_restore
    poll_job after_restore job_2 after_poll_2 [] []) as (data & ext3 & Hd & Hx & _ & Hs).
  - exact calm_no_fault.
  - exact bwf_db1.
  - exact agents_db1.
  - exact Hrun.
  - exact Hw.
  - rewrite Hid. reflexivity.
  - rewrite Hid. reflexivity.
  - reflexivity.
  - vm_compute. reflexivity.
  - vm_compute. reflexivity.
  - vm_compute. reflexivity.
  - vm_compute. reflexivity.
  - vm_compute. reflexivity.
  - decided.
  - eexists. split; vm_compute; reflexivity.
  - vm_compute. reflexivity.
  - vm_compute. reflexivity.
  - vm_compute. reflexivity.
  - apply Forall_nil_2.
  - exists data. split; [exact Hd|]. change (bs_trace server_2 = ext3) in Hx. rewrite Hx. apply Hs.
    rewrite <- Hx. vm_compute. reflexivity.
Defined.

Lemma backups_stay_in_workspace_applied :
  platform_reachable b0 after_restore ∧ ∀ r, r ∈ restore_jobs (w_db after_restore) → ∃ b, b ∈ backups (w_db after_restore) ∧
    bk_ID b = rj_BackupID r ∧ bk_ServerID b = rj_ServerID r.
Proof.
  assert (platform_reachable b0 (snd (handle_backup (BRestore alice "bk-1") b0))) as Hr
    by exact (pr_backup b0 b0 (BRestore alice "bk-1") (pr_start b0)).
  assert (platform_reachable b0 after_poll) as H1 by exact (pr_backup b0 b0 (BPoll poll_job) (pr_start b0)).
  assert (after_reports = fold_left (λ w r, snd (handle_backup (BReport (backup_report_input the_agent the_secret r)) w))
    (backup_reports (bs_trace server_1)) after_poll) as He by (vm_compute; reflexivity).
  assert (platform_reachable b0 after_reports) as H2.
  { rewrite He. clear He. revert H1. generalize after_poll. induction (backup_reports (bs_trace server_1)) as [|r l IH]; intros w Hw; [exact Hw|].
    apply IH. exact (pr_backup b0 w _ Hw). }
  assert (platform_reachable b0 (snd (handle_backup (BRestore alice "bk-2") after_reports))) as H3 by exact (pr_backup b0 _ _ H2).
  assert (snd (handle_backup (BRestore alice "bk-2") after_reports) = after_restore) as He3 by (vm_compute; reflexivity).
  rewrite He3 in H3. split; [exact H3|].
  destruct (backups_stay_in_workspace b0 after_restore wf_db1 bwf_db1 H3) as (_ & Hb & _).
  intros r Hin. destruct (Hb r Hin) as (b & B1 & B2 & _ & B3 & _). exists b. exact (conj B1 (conj B2 B3)).
Defined.

Definition report_bk2 : ReportInput :=
  mk_ReportInput the_agent the_secret "bk-2" "dumping" "" 0 "" "running pg_dump" "".

Lemma backup_request_safe_applied :
  runs (handle_backup (BRestore alice "bk-1")) (λ _ w', backup_allowed (BRestore alice "bk-1") db1) b0.
Proof.
  run_ok Hrun. assert (a = tt) as -> by (by destruct a).
  exact (proj1 (proj2 (backup_request_safe _ b0 _ _ Hrun)) eq_refl).
Defined.

Lemma backup_agent_isolation_applied :
  runs (handle_backup (BReport report_bk2)) (λ _ w', w_db w' = db1 ∨
    ∃ srv, authenticated the_agent the_secret srv db1 ∧ backup_frame srv db1 (w_db w')) b0.
Proof. run_ok Hrun. exact (backup_agent_isolation (BReport report_bk2) the_agent the_secret b0 _ _ bwf_db1 eq_refl Hrun). Defined.

Lemma backup_polls_fifo_applied :
  runs (handle_backup (BPoll poll_job)) (λ _ w', w_db w' = db1 ∨
    claims_oldest the_server (backups db1) (backups (w_db w')) ∨ claims_oldest the_server (restore_jobs db1) (restore_jobs (w_db w'))) b0.
Proof.
  run_ok Hrun. destruct (backup_polls_fifo (BPoll poll_job) b0 _ _ bwf_db1 eq_refl Hrun) as [Hd|(aid & cred & srv & Ha & Hau & Hc)];
    [left; exact Hd|right].
  injection Ha as <- <-. assert (srv = the_server) as ->.
  { clear -Hau. destruct Hau as (ag & Hin & _ & <- & _). apply list_elem_of_singleton in Hin as ->. reflexivity. }
  destruct Hc as [[Hc _]|[Hc _]]; [left|right]; exact Hc.
Defined.

Lemma CreateBackup_queues_applied :
  runs (CreateBackup alice svc_pg " weekly ") (λ b w', ∃ s srv row,
    backup_row s srv "weekly" row ∧ b = backupFromRow row ∧ backup_created alice row db1 (w_db w')) b0.
Proof.
  run_ok Hrun. destruct (CreateBackup_queues alice svc_pg " weekly " b0 a w' Hrun) as (s & srv & row & _ & _ & _ & _ & _ & Hr & Hb & Hc).
  exists s, srv, row. exact (conj Hr (conj Hb Hc)).
Defined.

Lemma RestoreBackup_queues_applied :
  runs (RestoreBackup alice "bk-1") (λ r w', ∃ b row,
    bk_Status b = StatusSucceeded ∧ restore_row b row ∧ restore_created alice row db1 (w_db w')) b0.
Proof.
  run_ok Hrun. destruct (RestoreBackup_queues alice "bk-1" b0 a w' Hrun) as (b & row & _ & Hs & _ & _ & Hr & _ & Hc).
  exists b, row. exact (conj Hs (conj Hr Hc)).
Defined.

Lemma backup_job_credentials_applied :
  ∃ env : gmap string string,
    config_env true (map configFromRow (sql_ListConfigForService svc_pg db1)) = inr env ∧
    [cb_PgUser job_1; cb_PgPassword job_1; cb_PgDatabase job_1] = map (λ k, default "" (env !! k)) credential_keys.
Proof.
  destruct job_1_ok as (Hrun & Hw & _).
  destruct (config_env true (map configFromRow (sql_ListConfigForService svc_pg db1))) as [e|env] eqn:He;
    [exfalso; vm_compute in He; discriminate He|].
  exists env. split; [reflexivity|].
  assert (cb_ServiceID job_1 = svc_pg) as Hs by (vm_compute; reflexivity).
  refine (proj2 (backup_job_credentials poll_job b0 job_1 after_poll env Hrun Hw _ _ _)).
  - repeat apply Forall_cons_2; try apply Forall_nil_2; (split; [right; repeat split|left; split; [reflexivity|intros Hv; discriminate Hv]]).
  - rewrite Hs. exact He.
  - rewrite Hs. intros e Hin _ Ht.
    assert (Forall (λ e, ce_Type e = "variable") (sql_ListConfigForService svc_pg db1)) as Hall by decided.
    rewrite (proj1 (Forall_forall _ _) Hall e Hin) in Ht. discriminate Ht.
Defined.
