(* ===== verification/ServicesScenario.v ===== *)
(** * ServicesScenario: creating, configuring and deleting services

    The installation of [Scenario] with a second workspace and two GitHub connections,
    an App installation and an OAuth account, on which the theorems about configuration,
    services and sources are applied. *)
From S2P Require Import Prelude.
From S2P Require Import GoStrings.
From S2P Require Import Json.
From S2P Require Import Problem.
From S2P Require Import Schema.
From S2P Require Import Platform.
From S2P Require Import Authz.
From S2P Require Import DeployNames.
From S2P Require Import DeployStore.
From S2P Require Import Deployments.
From S2P Require Import DeploySpec.
From S2P Require Import DeployHandlers.
From S2P Require Import DeployInv.
From S2P Require Import DeploySystem.
From S2P Require Import Gateway.
From S2P Require Import Config.
From S2P Require Import ConfigProps.
From S2P Require Import Sources.
From S2P Require Import SourcesSpec.
From S2P Require Import Services.
From S2P Require Import ServicesPure.
From S2P Require Import ServicesSpec.
From S2P Require Import BackupStore.
From S2P Require Import BackupSpec.
From S2P Require Import BackupSystem.
From S2P Require Import ServicesProps.
From S2P Require Import Builder.
From S2P Require Import SourcesProps.
From S2P Require Import Scenario.

(** ** The environment: canonical ids, and a sealer that marks its output *)
Definition uuid_prefix : string := "aaaaaaaa-bbbb-4ccc-8ddd-00000000000".
Definition uuids_10 : list string := map (λ d, uuid_prefix +:+ d) ["0"; "1"; "2"; "3"; "4"; "5"; "6"; "7"; "8"; "9"].
Definition uuid_of (n : nat) : string := nth (n mod 10) uuids_10 (uuid_prefix +:+ "f").
Lemma uuid_of_canonical n : canonical_uuid (uuid_of n).
Proof.
  assert (Forall canonical_uuid uuids_10) as Hall
    by (unfold uuids_10; simpl; repeat apply Forall_cons_2; try apply Forall_nil_2; (split; [reflexivity|repeat constructor|done|done])).
  unfold uuid_of. destruct (nth_in_or_default (n mod 10) uuids_10 (uuid_prefix +:+ "f")) as [Hin| ->].
  - rewrite Forall_forall in Hall. by apply Hall, list_elem_of_In.
  - split; [reflexivity|repeat constructor|done|done].
Qed.

Definition seal_bytes (plain : string) : list Z := 7 :: map (λ c, Z.of_N (N_of_ascii c)) (bytes_of plain).
Definition open_bytes (l : list Z) : option string :=
  match l with _ :: xs => Some (str_of (map (λ z, ascii_of_N (Z.to_N z)) xs)) | [] => None end.
Lemma open_seal plain : open_bytes (seal_bytes plain) = Some plain.
Proof.
  unfold open_bytes, seal_bytes. rewrite map_map. f_equal. rewrite <- (str_of_bytes_of plain) at 2. f_equal.
  rewrite <- (map_id (bytes_of plain)) at 2. apply map_ext. intros c. by rewrite N2Z.id, ascii_N_embedding.
Qed.

#[local] Instance serene : Env.
Proof.
  refine {|
    fault := λ _, false;
    now_at := λ n, Z.of_nat n + 1000;
    uuid_at := uuid_of;
    uuid_parse_ok := λ s, negb (String.eqb s "");
    bcrypt_hash := λ _ p, Some ("$2a$10$" +:+ p);
    open_sealed := open_bytes;
    get_pull_request := λ _ _ _ _, inr (mk_PullRequest "feature/a" "https://example.test/pull/5");
    installation_token := λ _ _, inr (Some "token");
    range_order := λ _ l, l;
    range_order_perm := λ _ l, reflexivity l;
  |}.
Defined.
#[local] Instance marked : Sealer := {| seal := λ _ p, inr (seal_bytes p) |}.
#[local] Instance zeros : Entropy.
Proof.
  refine {| rand_Read := λ _ n, inr (repeat 0 n) |}.
  intros _ n l [= <-]. split; [apply repeat_length|]. apply Forall_forall. intros x Hx%list_elem_of_In%repeat_spec. lia.
Defined.
#[local] Instance github : GitHubClient := {|
  gh_ExchangeCode := λ _ _ _ _ _, inr (mk_Token "gho_token" "repo");
  gh_GetAuthenticatedUser := λ _ _, inr ("acme-dev", 7);
  gh_RevokeToken := λ _ _ _ _, inr tt;
  gh_GetInstallation := λ _ _, inr ("acme", 42);
  gh_InstallationToken := λ _ _, inr "ghs_token";
  gh_ListBranches := λ _ _ _ _, inr ["main"];
  gh_GetRepository := λ _ _ o r, inr (mk_RepoInfo o r (o +:+ "/" +:+ r) "main" "https://github.com/acme/api" "" true);
  gh_GetBranch := λ _ _ _ _ _, inr tt;
  gh_AppConfigured := λ _, true;
|}.
Definition oauth_config : OAuthConfig := mk_OAuthConfig "client" "secret" "repo" "https://plorigo.test/callback".
#[local] Instance github_only : Registry := {| registered := [GitHub oauth_config] |}.

(** ** The installation *)
Definition bob : Principal := mk_Principal "bob" "session".
Definition app_row : db_SourceConnection :=
  mk_sc "con-app" the_ws "github" "acme" (Some 42) [] "" (Some "alice") 1 1 (Some "9001") "app".
Definition oauth_row : db_SourceConnection :=
  mk_sc "con-oauth" the_ws "github" "acme-dev" (Some 7) [7; 103] "repo" (Some "alice") 1 1 None "oauth".
Definition svc_connected : string := "44444444-4444-4444-8444-444444444444".
Definition connected_row : db_Service :=
  {| sv_ID := svc_connected; sv_EnvironmentID := "env-1"; sv_ProjectID := "prj-1"; sv_WorkspaceID := the_ws;
     sv_Name := "app"; sv_Slug := "app"; sv_SourceKind := "git"; sv_ImageRef := ""; sv_TemplateID := "";
     sv_ConnectionID := Some "con-app"; sv_Provider := "github"; sv_Owner := "acme"; sv_Repo := "app";
     sv_FullName := "acme/app"; sv_Branch := "main"; sv_DefaultBranch := "main"; sv_IsPrivate := true;
     sv_HtmlUrl := ""; sv_SourceAccess := "app"; sv_ContainerPort := 8080; sv_Visibility := "public";
     sv_RouteUrl := ""; sv_CreatedAt := 1; sv_UpdatedAt := 1 |}.

Definition db2 : DB :=
  {| workspaces := [mk_ws the_ws "shop" "shop-1" 1; mk_ws "ws-2" "two" "two-2" 1];
     workspace_members := workspace_members db0 ++ [mk_wm "ws-2" "bob" RoleOwner 1]; projects := projects db0;
     environments := environments db0; services := services db0 ++ [connected_row]; servers := servers db0;
     agents := agents db0; config_entries := config_entries db0; domains := domains db0; deployments := deployments db0;
     deployment_events := []; teardown_jobs := teardown_jobs db0; backups := []; restore_jobs := [];
     audit_events := []; users := [the_user "alice"; the_user "vera"; the_user "bob"]; source_connections := [app_row; oauth_row];
     registration_tokens := []; sessions := []; api_tokens := []; user_tokens := [];
  github_app_config := []; ssh_management_keys := []; server_setup_runs := []; server_setup_events := [] |}.
Definition s0 : World := mk_World db2 0 0.

Lemma db2_placed id svc status kind key source image ref pr created hostPort :
  svc = svc_image ∨ svc = svc_git →
  placed db2 (deployment_row_of id svc status kind key source image ref pr created hostPort).
Proof.
  intros Hs. split.
  - destruct Hs as [->| ->].
    + exists (service_row_of svc_image "web" "image" "nginx:1"). repeat split. left.
    + exists (service_row_of svc_git "api" "git" ""). repeat split. right. left.
  - exists (mk_srv the_server the_ws "box" "box" 1 ""). repeat split. left.
Qed.
Lemma wf_db2 : wf db2.
Proof.
  split; try decided.
  - repeat apply Forall_cons_2; [exact svc_image_uuid|exact svc_git_uuid| |apply Forall_nil_2].
    split; [reflexivity|repeat constructor|done|done].
  - repeat apply Forall_cons_2; try apply Forall_nil_2; repeat split.
    all: try decided. all: try (apply db2_placed; auto). all: try (simpl; lia).
    all: first [left; repeat split; reflexivity|right; repeat split; reflexivity].
  - apply Forall_cons_2; [|apply Forall_nil_2]. exists dep_preview. repeat split; try reflexivity. right. right. left.
  - constructor.
Qed.
Lemma cwf_db2 : cwf db2.
Proof.
  split; [|decided]. apply Forall_cons_2; [|apply Forall_nil_2]. split; [right; by repeat split|left; by split].
Qed.
Lemma inv_db2 : inv db2.
Proof.
  split; [exact wf_db2|split; try decided; constructor|exact cwf_db2|].
  split; [|decided]. repeat apply Forall_cons_2; try apply Forall_nil_2.
  all: split; [reflexivity| |split; [simpl; lia|intros _; simpl; lia]|reflexivity|reflexivity].
  all: split; [split; [done|repeat constructor|done|done]|done].
Qed.
Lemma scwf_db2 : scwf db2.
Proof.
  split; [repeat constructor|decided|]. intros x y Hx Hy.
  apply elem_of_cons in Hx as [->|Hx%list_elem_of_singleton]; apply elem_of_cons in Hy as [->|Hy%list_elem_of_singleton]; by subst.
Qed.
Lemma homed_db2 : homed db2.
Proof.
  intros s Hs. repeat (apply elem_of_cons in Hs as [->|Hs]; [try exact I|]); [|by apply elem_of_nil in Hs].
  exists app_row. by split.
Qed.

(** ** Configuration *)
Definition set_mode : SetInput := mk_SetInput "secret" "service" svc_image "" "MODE" "slow".
Lemma config_set_deployed_applied :
  runs (Set_ alice set_mode) (λ _ w', ∃ env', service_env svc_image (w_db w') = inr env' ∧ env' !! "MODE" = Some "slow") s0.
Proof.
  run_ok Hrun.
  destruct (config_set_deployed alice set_mode a s0 w' cwf_db2) as (key & Hk & Hall); [|exact Hrun|].
  - intros n p ct [= <-]. apply open_seal.
  - vm_compute in Hk. injection Hk as <-.
    destruct (service_env svc_image db2) as [e|env] eqn:Henv; [exfalso; vm_compute in Henv; discriminate Henv|].
    destruct (Hall svc_image env Henv) as (env' & Henv' & Hlk). exists env'. split; [exact Henv'|]. exact (Hlk "MODE").
Defined.

Lemma config_requests_safe_applied :
  runs (run_config alice (RqSet set_mode)) (λ _ w', cwf (w_db w') ∧ config_effect alice (RqSet set_mode) db2 (w_db w')) s0.
Proof. run_ok Hrun. exact (config_requests_safe alice (RqSet set_mode) _ s0 w' cwf_db2 Hrun). Defined.

Lemma validated_config_accepted_applied :
  (1 ≤ len "MODE" ≤ 128 ∧ validateKey "MODE" = inr "MODE") ∧
  ∃ row d', sql_UpsertServiceConfig "secret" svc_git "MODE" None (seal_bytes "x") (mk_Stamp 5 "cfg-9" 0) db2 = inr (row, d').
Proof.
  destruct (validated_config_accepted " MODE " "MODE" "secret" "x" (None, seal_bytes "x") svc_git (mk_Stamp 5 "cfg-9" 0) db2)
    as ((H1 & H2 & _) & H3).
  - reflexivity.
  - reflexivity.
  - vm_compute. intros Hc. discriminate Hc.
  - split; [reflexivity|]. exists 0%nat. reflexivity.
  - intros _. split; [intros Hc; discriminate Hc|]. vm_compute. intros Hc. discriminate Hc.
  - reflexivity.
  - reflexivity.
  - exact (conj (conj H1 H2) H3).
Defined.

(** ** Services *)
Lemma generated_password_ok_applied :
  len (str_of (b64_encode (repeat 255 24))) = 32 ∧ dbPasswordRe_MatchString (str_of (b64_encode (repeat 255 24))) = true.
Proof.
  destruct (generated_password_ok (repeat 255 24)) as (H1 & H2 & _); [reflexivity| |exact (conj H1 H2)].
  apply Forall_forall. intros x Hx%list_elem_of_In%repeat_spec. lia.
Defined.

Lemma slug_ok_shop : slug_ok "shop-db".
Proof. split; [done|repeat constructor|done|done]. Qed.
Lemma connectionURI_roundtrip_applied :
  read_uri "postgresql" (connectionURI postgresTemplate "shop-db" "app" "p@ss:w/rd?" "orders")
  = Some (mk_uri_parts "app" "p@ss:w/rd?" "shop-db" "5432" "orders").
Proof. exact (connectionURI_roundtrip "shop-db" "app" "p@ss:w/rd?" "orders" slug_ok_shop eq_refl eq_refl). Defined.

Definition database_input : DatabaseInput := mk_DatabaseInput "env-1" "Shop DB" "postgres" "" "app" "" the_server true.
Lemma service_requests_safe_applied :
  runs (handle_service alice (SCreateDatabase database_input))
    (λ res w', inv (w_db w') ∧ service_effect alice (SCreateDatabase database_input) res db2 (w_db w')) s0 ∧
  runs (handle_service alice (SListByEnvironment "env-1"))
    (λ res w', w_db w' = db2 ∧ res = map serviceFromRow (sql_ListServicesByEnvironment "env-1" db2) ∧
       Forall (λ s, s_WorkspaceID s = the_ws) res) s0.
Proof.
  split.
  - run_ok Hrun.
    destruct (service_requests_safe (E := serene) alice (SCreateDatabase database_input) _ s0 w' uuid_of_canonical inv_db2 Hrun) as (Hi & He & _).
    exact (conj Hi He).
  - run_ok Hrun.
    destruct (service_requests_safe (E := serene) alice (SListByEnvironment "env-1") _ s0 w' uuid_of_canonical inv_db2 Hrun) as (_ & [Hd _] & Hs).
    destruct (Hs the_ws "" (sql_ListServicesByEnvironment "env-1" db2)) as (_ & Hr & Hf); [|exact (conj Hd (conj Hr Hf))].
    split; [|by split]. exists "prj-1". vm_compute. reflexivity.
Defined.

Lemma CreateDatabase_ready_applied :
  runs (CreateDatabase alice database_input) (λ r w', ∃ row password, dr_Service r = serviceFromRow row ∧
    service_credentials (sv_ID row) (w_db w') = mk_DBCredentials "app" password "app" ∧
    ∃ dep, dr_DeploymentID r = dp_ID dep ∧ database_deployment (sv_ID row) the_server dep (w_db w')) s0.
Proof.
  run_ok Hrun.
  destruct (CreateDatabase_ready alice database_input s0 a w' cwf_db2 wf_db2 Hrun)
    as (row & password & _ & Hs & _ & _ & _ & Hc & _ & Hd).
  exists row, password. split; [exact Hs|]. split; [exact Hc|]. exact (Hd eq_refl).
Defined.

Lemma DeleteService_forgets_applied :
  runs (DeleteService alice svc_image) (λ _ w', forgotten svc_image db2 (w_db w') ∧ others_kept svc_image db2 (w_db w')) s0.
Proof.
  run_ok Hrun. assert (a = tt) as -> by (by destruct a).
  destruct (DeleteService_forgets alice svc_image s0 w' Hrun) as (row & d1 & _ & _ & _ & Hf & Hk). exact (conj Hf Hk).
Defined.

(** ** Sources *)
Definition connect_state (workspaceID userID : string) : connectState := mk_connectState workspaceID userID "github" "nonce" 5000.
Definition install_again : SourceRequest :=
  QCompleteAppInstall (inr (connect_state "ws-2" "bob")) (mk_CompleteAppInput "github" "9001" "nonce").
Lemma source_requests_safe_applied :
  runs (handle_source bob install_again) (λ _ w', inv (w_db w') ∧ scwf (w_db w') ∧
    source_effect bob install_again db2 (w_db w')) s0.
Proof. run_ok Hrun. exact (source_requests_safe bob install_again _ s0 w' inv_db2 scwf_db2 Hrun). Defined.

Definition create_from (connection : string) : CreateInput :=
  mk_CreateInput "env-1" "New" "git" "" "" "" connection "acme" "new" "" 8080 "" the_server true.
Lemma connected_sources_stay_home_applied :
  homed (w_db (snd (handle_service alice (SCreate (create_from "con-app")) s0))) ∧
  homed (w_db (snd (handle_source alice (QDisconnect "con-oauth") s0))).
Proof.
  destruct (connected_sources_stay_home alice s0 inv_db2 scwf_db2 homed_db2) as [H1 H2].
  split; [apply H1|]. apply H2. exact I.
Defined.

Lemma connected_source_deploys_applied :
  runs (CreateService alice (create_from "con-oauth")) (λ r w', res_DeploymentID r = "") s0.
Proof.
  run_ok Hrun.
  exact (proj2 (connected_source_deploys oauth_config alice (create_from "con-oauth") oauth_row s0 a w' Hrun eq_refl eq_refl eq_refl eq_refl)).
Defined.

(** An installation connected to one workspace is taken over by a member of another who
    knows its number; the first workspace's service keeps the connection's id. *)
Example installation_moves_away :
  homed db2 ∧ runs (handle_source bob install_again) (λ _ w', ¬ homed (w_db w')) s0.
Proof.
  split; [exact homed_db2|]. run_ok Hrun. intros H. specialize (H connected_row).
  assert (connected_row ∈ services (w_db w')) as Hin by (field_of Hrun; right; right; left).
  specialize (H Hin). unfold at_home in H. simpl in H. destruct H as (row & Hl & Hws).
  assert (lookup_by sc_ID "con-app" (source_connections (w_db w')) ≫= (λ r, Some (sc_WorkspaceID r)) = Some "ws-2") as Hl2 by field_of Hrun.
  rewrite Hl in Hl2. simpl in Hl2. rewrite Hws in Hl2. discriminate Hl2.
Qed.

(** The App was uninstalled and installed again on the same account: GitHub gives a new
    installation number, the row of the old one still holds the account, and the
    connect fails on the other unique index. *)
Example reinstall_fails :
  ∃ e, fst (handle_source alice
    (QCompleteAppInstall (inr (connect_state the_ws "alice")) (mk_CompleteAppInput "github" "9002" "nonce")) s0) = inl e.
Proof. vm_compute. eexists. reflexivity. Qed.

(** ** Previews of builds *)
Definition quoted_text (s : string) : bytes := json_string (bytes_of s).
Definition vite_package : bytes :=
  marshal_struct
    [("scripts", marshal_struct [("build", quoted_text "vite build")]);
     ("devDependencies", marshal_struct [("vite", quoted_text "^5.0.0")]);
     ("engines", marshal_struct [("node", quoted_text ">=20")])].
(** A Vite application locked with yarn. *)
Definition vite_files (p : string) : option bytes :=
  if String.eqb p "package.json" then Some vite_package else if String.eqb p "yarn.lock" then Some [] else None.
Definition public_github : GitHubClient := {|
  gh_ExchangeCode := λ _ _ _ _ _, inl github_ErrNotFound; gh_GetAuthenticatedUser := λ _ _, inl github_ErrNotFound;
  gh_RevokeToken := λ _ _ _ _, inr tt; gh_GetInstallation := λ _ _, inl github_ErrNotFound;
  gh_InstallationToken := λ _ _, inl github_ErrNotFound; gh_ListBranches := λ _ _ _ _, inr ["main"];
  gh_GetRepository := λ _ _ o r, inr (mk_RepoInfo o r (o +:+ "/" +:+ r) "main" "https://github.com/acme/shop" "" false);
  gh_GetBranch := λ _ _ _ _ _, inr tt; gh_AppConfigured := λ _, false;
|}.
Definition vite_contents : RepoContents := {| gh_GetFileContent := λ _ _ _ _ _ p, inr (vite_files p) |}.
Definition clone_dir : list bytes := [bytes_of "tmp"; bytes_of "build-1"].
Definition clone_root : string := str_of (join_segments clone_dir).
Definition vite_clone : BuildHost := {|
  bh_Stat := false; bh_ReadFile := λ path, inr (vite_files (after_last "/" path)); bh_WriteFile := None;
  bh_DockerBuild := λ _ _, ([bytes_of "step 1"; Json.newline :: bytes_of "step"; bytes_of " 2"], None);
|}.
Definition vite_input : DetectInput := mk_DetectInput "https://github.com/acme/shop" "".
Definition vite_detection : Detection :=
  match fst (DetectFramework (G := public_github) (RC := vite_contents) vite_input w0) with
  | inr d => d | inl _ => detection_of (without_build StatusUnsupported "") end.
Lemma vite_runs : DetectFramework (G := public_github) (RC := vite_contents) vite_input w0 =
  (inr vite_detection, snd (DetectFramework (G := public_github) (RC := vite_contents) vite_input w0)).
Proof. vm_compute. reflexivity. Qed.
Example vite_shown : dt_Runtime vite_detection = "vite" ∧ dt_PackageManager vite_detection = "yarn" ∧ dt_NodeVersion vite_detection = "20" ∧
  emitted_lines [bytes_of "step 1"; Json.newline :: bytes_of "step"; bytes_of " 2"] = ["step 1"; "step 2"].
Proof. split_and!; vm_compute; reflexivity. Qed.

Lemma preview_is_build_applied : ∃ shown,
  build (H := vite_clone) clone_root "shop" =
    (ActWritten generated (dt_Dockerfile vite_detection) :: map ActEmitted shown ++ fst (docker_run (H := vite_clone) "shop" generated),
     snd (docker_run (H := vite_clone) "shop" generated)).
Proof.
  destruct (preview_is_build (G := public_github) (RC := vite_contents) (H := vite_clone) vite_input w0 vite_detection _ vite_files clone_root "shop"
    vite_runs) as [_ [(H & _)|[(_ & shown & H & _)|(H & _)]]].
  - intros n o r ref p _. reflexivity.
  - intros p Hp. unfold inspected in Hp. simpl in Hp.
    repeat (apply elem_of_cons in Hp as [->|Hp]; [vm_compute; reflexivity|]). by apply elem_of_nil in Hp.
  - vm_compute. reflexivity.
  - reflexivity.
  - exfalso. vm_compute in H. discriminate H.
  - exists shown. exact H.
  - exfalso. vm_compute in H. discriminate H.
Defined.

Lemma generated_dockerfile_applied : well_built (plan_in vite_files) = true.
Proof.
  destruct (generated_dockerfile (λ p, inr (vite_files p)) (plan_in vite_files)) as [_ H].
  - apply Detect_reads. reflexivity.
  - vm_compute. reflexivity.
  - exact H.
Defined.

Definition exposed : string :=
  str_of (marshal_struct [("8080/tcp", bytes_of "{}"); ("53/udp", bytes_of "{}"); ("443/tcp", bytes_of "{}")]).
Lemma lowest_port_applied : lowestTCPPort id exposed = inr 443 ∧
  ∀ key q, key ∈ [bytes_of "8080/tcp"; bytes_of "53/udp"; bytes_of "443/tcp"] → tcp_port key = Some q → 443 ≤ q.
Proof.
  pose proof (lowest_port id exposed [(bytes_of "8080/tcp", JObject []); (bytes_of "53/udp", JObject []); (bytes_of "443/tcp", JObject [])]) as H.
  assert (lowestTCPPort id exposed = inr 443) as Hp by (vm_compute; reflexivity). rewrite Hp in H.
  split; [reflexivity|]. apply H; [reflexivity|vm_compute; reflexivity].
Defined.

Lemma OSFiles_contained_applied : ∃ ps, Forall clean_segment ps ∧
  full_path clone_root "../../etc//./passwd" = str_of (join_segments (clone_dir ++ ps)).
Proof.
  apply (OSFiles_contained clone_dir "../../etc//./passwd"); [discriminate|].
  repeat constructor; discriminate.
Defined.
