(* ===== verification/RegistryScenario.v ===== *)
(** * RegistryScenario: an agent joins the installation

    On the installation of [ServicesScenario], a token is minted for the server, an agent
    exchanges it for a credential and reports its facts; the theorems about the agent
    registry are applied to these runs. *)
From S2P Require Import Prelude.
From S2P Require Import GoStrings.
From S2P Require Import Problem.
From S2P Require Import Schema.
From S2P Require Import Platform.
From S2P Require Import Authz.
From S2P Require Import DeployStore.
From S2P Require Import Deployments.
From S2P Require Import DeployHandlers.
From S2P Require Import DeploySystem.
From S2P Require Import DeployJobs.
From S2P Require Import Gateway.
From S2P Require Import Json.
From S2P Require Import JsonProps.
From S2P Require Import Caddy.
From S2P Require Import AgentIdentity.
From S2P Require Import AgentIdentityProps.
From S2P Require Import AgentHealing.
From S2P Require Import AgentRegistry.
From S2P Require Import AgentRegistryProps.
From S2P Require Import Scenario.
From S2P Require Import ServicesScenario.

#[local] Existing Instance serene.
#[local] Existing Instance zeros.

(** ** The runs *)
Definition minted : World := snd (CreateRegistrationToken alice the_server s0).
Definition raw_token : string :=
  match fst (CreateRegistrationToken alice the_server s0) with inr t => tok_Raw t | inl _ => "" end.
Definition join : RegisterInput := mk_RegisterInput raw_token (repeat 1 32) "v0.4.0".
Definition joined : World := snd (Register join minted).
Definition credential : string := match fst (Register join minted) with inr r => rd_Credential r | inl _ => "" end.
Definition facts : HeartbeatRequest :=
  mk_HeartbeatRequest "" credential "v0.4.0" true "24.0.7" "linux" "amd64" true true "2.7.6" (-5) 12 34 56 70000.

Definition box : db_Server := mk_srv the_server the_ws "box" "box" 1 "".
Lemma minted_home : Forall (λ x : string * string, x = (the_server, the_ws))
  (map (λ a, (ag_ServerID a, ag_WorkspaceID a)) (agents (w_db minted)) ++
   map (λ t, (rt_ServerID t, rt_WorkspaceID t)) (registration_tokens (w_db minted))).
Proof. decided. Qed.
Lemma minted_servers : servers (w_db minted) = [box].
Proof. vm_compute. reflexivity. Qed.
Lemma box_server_of : server_of (w_db minted) the_server the_ws.
Proof. exists box. rewrite minted_servers. split; [left|by split]. Qed.
Lemma agwf_minted_db : agwf (w_db minted).
Proof.
  pose proof minted_home as [Ha Ht]%Forall_app. rewrite Forall_map in Ha. rewrite Forall_map in Ht.
  split; [decided|decided|decided| |decided|].
  - eapply Forall_impl; [exact Ha|]. intros x [= -> ->]. exact box_server_of.
  - eapply Forall_impl; [exact Ht|]. intros x [= -> ->]. exact box_server_of.
Qed.

Lemma registry_requests_safe_applied :
  runs (handle_registry (GRegister join)) (λ _ w', agwf (w_db w') ∧ registry_effect (GRegister join) (w_db minted) (w_db w')) minted.
Proof.
  run_ok Hrun. destruct (registry_requests_safe (GRegister join) _ minted w' agwf_minted_db Hrun) as (H1 & _ & H2).
  exact (conj H1 H2).
Defined.

Lemma Register_identifies_applied :
  runs (Register join) (λ r w', sql_GetAgentServerByCredential (hashToken (rd_Credential r)) (w_db w')
                                = Some (rd_AgentID r, the_server)) minted.
Proof.
  run_ok Hrun. destruct (Register_identifies join a minted w' agwf_minted_db Hrun) as (t & Hin & _ & _ & _ & Hall & _).
  assert (rt_ServerID t = the_server) as Hs.
  { pose proof minted_home as [_ Ht]%Forall_app. rewrite Forall_map, Forall_forall in Ht.
    specialize (Ht t Hin) as [= -> _]. reflexivity. }
  rewrite <- Hs. apply Hall. exact (conj eq_refl eq_refl).
Defined.

#[local] Instance facts_bounded_dec : ∀ a, Decision (facts_bounded a) := _.
Lemma joined_bounded : Forall facts_bounded (agents (w_db joined)).
Proof. decided. Qed.
(** Negative and outrageous facts arrive bounded. *)
Lemma heartbeat_facts_bounded_applied :
  runs (Heartbeat (heartbeat_input facts)) (λ _ w', Forall facts_bounded (agents (w_db w'))) joined.
Proof.
  run_ok Hrun.
  destruct (heartbeat_facts_bounded facts a joined w') as [H _]; [| |exact Hrun|exact H].
  - split; [simpl; lia|]. repeat constructor; simpl; lia.
  - exact joined_bounded.
Defined.

(** The version is not clamped: one of a thousand bytes is stored whole. *)
Definition long_version : string := str_of (repeat "v"%char 1000).
Example version_unbounded :
  let beat := heartbeat_input (mk_HeartbeatRequest "" credential long_version true "24.0.7" "linux" "amd64" true true "2.7.6" 5 12 34 56 4) in
  map (λ a, len (ag_AgentVersion a)) (agents (w_db (snd (Heartbeat beat joined)))) = [1000].
Proof. vm_compute. reflexivity. Qed.

(** The token is spent: the same request fails afterwards. *)
Example token_spent : ∃ e, fst (Register join joined) = inl e.
Proof. vm_compute. eexists. reflexivity. Qed.

(** ** The process *)
(** A Linux machine whose context ends at the [n]-th event, if at all. *)
Definition ends_at (n : option nat) (k : nat) : bool := match n with Some n => (n <=? k)%nat | None => false end.
Lemma ends_at_mono n k j : (k ≤ j)%nat → ends_at n k = true → ends_at n j = true.
Proof. destruct n as [n|]; simpl; [|done]. rewrite !Nat.leb_le. lia. Qed.
Definition linux (n : option nat) : Machine.
Proof.
  refine {|
    m_ctx_done := ends_at n;
    m_ctx_done_mono := ends_at_mono n;
    m_read_fault := λ _, None; m_mkdir := λ _ _, None; m_write := λ _, Written;
    m_GenerateKey := λ _, inr (repeat 1 32, repeat 2 64);
    m_userConfigDir := "/root/.config"; m_GOOS := "linux"; m_GOARCH := "amd64"; m_NumCPU := 4;
    m_serverVersion := λ _, inr "24.0.7"; m_caddyVersion := λ _ _, inr "v2.7.6 h1:abc"; m_caddyAdmin := λ _ _, true;
    m_statfs := λ _ _, Some (1000, 500, 4096); m_meminfo := λ _, Some "MemTotal: 2048 kB";
  |}.
  by intros k pub priv [= <- _].
Defined.
(** The same installation under a clock and an id generator that stand still. *)
Definition frozen : Env :=
  {| fault := λ _, false; now_at := λ _, 1000; uuid_at := λ _, "cccccccc-bbbb-4ccc-8ddd-000000000000"; uuid_parse_ok := λ s, negb (String.eqb s "");
     bcrypt_hash := λ _ p, Some p; open_sealed := open_bytes;
     get_pull_request := λ _ _ _ _, inl GhNotFound; installation_token := λ _ _, inr None;
     range_order := λ _ l, l; range_order_perm := λ _ l, reflexivity l |}.
#[local] Existing Instance frozen | 0.

Lemma frozen_no_fault : no_fault.
Proof. by intros n. Qed.

Definition stranded : state := mk_state "agent-gone" "plag_revoked" "a2V5".
Definition agent_options : AgentOptions :=
  mk_AgentOptions "https://plorigo.test" raw_token "/var/lib/plorigo" 0 0 "" (Caddy.mk_Options "" 0 "" "").
Definition lost : Proc World := mk_Proc (Some (marshal_state stranded)) stranded [] minted.

Lemma minted_fresh : fresh_registration (w_db minted).
Proof.
  split.
  - intros n. simpl. split; decided.
  - intros k. exists (repeat 0 32). split; [reflexivity|]. apply Forall_forall. decided.
Qed.
Lemma minted_redeemable : redeemable_token raw_token the_server (w_db minted).
Proof.
  split; [by vm_compute|].
  destruct (registration_tokens (w_db minted)) as [|t l] eqn:Hl; [exfalso; vm_compute in Hl; discriminate Hl|].
  exists t. split; [left|]. vm_compute in Hl. injection Hl as <- <-. split; [vm_compute; reflexivity|].
  split; [reflexivity|]. split; [reflexivity|]. split; [intros n; reflexivity|]. simpl. reflexivity.
Qed.

Lemma agent_heals_applied :
  ∃ p', heartbeatLoop (H := linux None) 2 true agent_options lost = (None, p') ∧
    pr_file p' = Some (marshal_state (pr_ident p')) ∧
    ∃ row, row ∈ agents (w_db (pr_ctl p')) ∧ ag_ServerID row = the_server ∧ ag_CredentialHash row = hashToken (st_Credential (pr_ident p')).
Proof.
  destruct (agent_heals (E := frozen) (H := linux None) frozen_no_fault (λ _, eq_refl) (λ _, ex_intro _ _ (ex_intro _ _ eq_refl))
    true agent_options the_server lost agwf_minted_db minted_redeemable minted_fresh) as (p' & row & n & Hrun & H1 & H2 & _ & H3 & _ & _ & H4).
  - discriminate.
  - apply Forall_forall. decided.
  - exists p'. split; [exact Hrun|]. split; [exact (H4 (λ _, eq_refl) (λ _, eq_refl))|]. exists row. exact (conj H1 (conj H2 H3)).
Defined.

#[local] Instance plane : AgentClient World := gateway_client (E := frozen) (N := zeros).
(** The context ends at the twelfth event, in the middle of the loop. *)
Lemma heartbeatLoop_ends_applied : fst (heartbeatLoop (H := linux (Some 12%nat)) (K := plane) 14 true agent_options lost) = Some tt.
Proof. exact (proj1 (heartbeatLoop_ends (H := linux (Some 12%nat)) (K := plane) 12 true agent_options lost eq_refl) 14%nat (le_n _)). Defined.

Lemma heartbeatLoop_one_identity_applied :
  ∃ ext, switches agent_options ext lost (snd (heartbeatLoop (H := linux None) (K := plane) 3 true agent_options lost)).
Proof.
  destruct (heartbeatLoop (H := linux None) (K := plane) 3 true agent_options lost) as [r p'] eqn:Hrun.
  destruct (heartbeatLoop_one_identity (H := linux None) (K := plane) 3 true agent_options lost r p' Hrun) as [(ext & _ & _ & Hid & _)|Hs]; [|exact Hs].
  exfalso. assert (st_AgentID (pr_ident (snd (heartbeatLoop (H := linux None) (K := plane) 3 true agent_options lost))) ≠ "agent-gone") as Hne
    by (vm_compute; discriminate).
  rewrite Hrun in Hne. exact (Hne (f_equal st_AgentID Hid)).
Defined.

Definition new_machine : Proc World := mk_Proc None (mk_state "" "" "") [] minted.
Definition new_identity : state := pr_ident (snd (Run_start (H := linux None) (K := plane) agent_options new_machine)).
Lemma new_identity_ascii : Forall (λ c, code c < 128) (bytes_of (st_AgentID new_identity) ++ bytes_of (st_Credential new_identity)).
Proof. decided. Qed.
Lemma new_identity_ok : identity_ok (pr_ident (snd (Run_start (H := linux None) (K := plane) agent_options new_machine))).
Proof.
  fold new_identity. pose proof new_identity_ascii as [H1 H2]%Forall_app.
  split; [by apply utf8_all_ascii|]. split; [by apply utf8_all_ascii|]. split; vm_compute; discriminate.
Qed.
Lemma restart_resumes_applied :
  match Run_start (H := linux None) (K := plane) agent_options new_machine with
  | (inr r, p1) => ∃ p3, Run_start (H := linux None) (K := plane) agent_options (mk_Proc (pr_file p1) stranded [] minted) = (inr r, p3) ∧
                     pr_ident p3 = pr_ident p1
  | (inl _, _) => False
  end.
Proof.
  destruct (Run_start (H := linux None) (K := plane) agent_options new_machine) as [[e|[o router]] p1] eqn:Hrun.
  - vm_compute in Hrun. discriminate Hrun.
  - destruct (restart_resumes (H := linux None) (K := plane) agent_options new_machine o router p1 (mk_Proc (pr_file p1) stranded [] minted) Hrun)
      as (p3 & H1 & H2 & _); [|reflexivity|reflexivity|exists p3; exact (conj H1 H2)].
    pose proof new_identity_ok as Hok. rewrite Hrun in Hok. exact Hok.
Defined.
