(* ===== verification/DomainsScenario.v ===== *)
(** * DomainsScenario: custom domains and readiness of an installation

    On the installation of [ServicesScenario] with a deployed service, its owner attaches
    a hostname whose DNS points at the generated one, verifies it, and the agent fetches
    it; the theorems about custom domains are applied to these runs.

    The verdict on the services of an installation.  The installation of [ServicesScenario] with an agent that was heard from: the service
    api is deployed and served on its generated domain, the service web waits for a DNS
    record.  The last example deploys a pull request of api whose preview fails. *)
From S2P Require Import Prelude.
From S2P Require Import GoStrings.
From S2P Require Import GoUrl.
From S2P Require Import Problem.
From S2P Require Import Schema.
From S2P Require Import Platform.
From S2P Require Import Authz.
From S2P Require Import DeployStore.
From S2P Require Import Deployments.
From S2P Require Import DeployInv.
From S2P Require Import DeploySystem.
From S2P Require Import Caddy.
From S2P Require Import Gateway.
From S2P Require Import SourcesSpec.
From S2P Require Services.
From S2P Require Import SourcesProps.
From S2P Require Import Domains.
From S2P Require Import DomainsProps.
From S2P Require Import DomainsSystem.
From S2P Require AgentRegistry.
From S2P Require Import Readiness.
From S2P Require Import ReadinessProps.
From S2P Require Import Scenario.
From S2P Require Import ServicesScenario.

Section DomainsScenario_.
#[local] Existing Instance serene.
#[local] Instance no_ipv6 : Addresses := {| netip_ParseAddr6 := λ _, false; ParseIP_String := λ s, Some s |}.
(** The zone [example.com]: its hosts are aliases of the generated one. *)
#[local] Instance zone : Resolver := {|
  LookupCNAME := λ _ _, Some "web-1.Apps.Example.test.";
  LookupHost := λ _ _, None;
  EffectiveTLDPlusOne := λ _, Some "example.com";
|}.

Definition deployed_web : db_Service :=
  {| sv_ID := svc_image; sv_EnvironmentID := "env-1"; sv_ProjectID := "prj-1"; sv_WorkspaceID := the_ws;
     sv_Name := "web"; sv_Slug := "web"; sv_SourceKind := "image"; sv_ImageRef := "nginx:1"; sv_TemplateID := "";
     sv_ConnectionID := None; sv_Provider := "github"; sv_Owner := "acme"; sv_Repo := "web";
     sv_FullName := "acme/web"; sv_Branch := "main"; sv_DefaultBranch := "main"; sv_IsPrivate := false;
     sv_HtmlUrl := ""; sv_SourceAccess := "public"; sv_ContainerPort := 8080; sv_Visibility := "public";
     sv_RouteUrl := "https://web-1.apps.example.test"; sv_CreatedAt := 1; sv_UpdatedAt := 1 |}.
Definition db4 : DB := set_domains [] (set_services (deployed_web :: tail (services db2)) db2).
Definition start : World := mk_World db4 0 0.
Lemma dwf_db4 : dwf db4.
Proof. split; try decided; constructor. Qed.

Definition attach : DomainRequest := DCreate (mk_CreateInput svc_image " Shop.Example.COM. ").
Definition attached : World := snd (handle_domain alice attach start).
Definition the_domain : string := match domains (w_db attached) with m :: _ => dm_ID m | [] => "" end.
Definition checked : World := snd (handle_domain alice (DVerify the_domain) attached).

Lemma domain_requests_safe_applied :
  runs (handle_domain alice attach) (λ _ w', dwf (w_db w') ∧ domain_effect alice attach db4 (w_db w')) start.
Proof.
  run_ok Hrun. exact (domain_requests_safe alice attach (inr a) start w' dwf_db4 Hrun).
Defined.

Lemma served_hostnames_proved_applied :
  runs (SyncRoutes sync_web) (λ out _, out = [mk_RouteOverride svc_image ["shop.example.com"]] ∧
    ∃ d, d ∈ [w_db attached; w_db start] ∧ proved_in d svc_image "shop.example.com") checked.
Proof.
  run_ok Hrun. assert (a = [mk_RouteOverride svc_image ["shop.example.com"]]) as Ha by (field_of Hrun).
  split; [exact Ha|].
  destruct (served_hostnames_proved start [w_db attached; w_db start] checked sync_web a w' dwf_db4) with
    (o := mk_RouteOverride svc_image ["shop.example.com"]) (h := "shop.example.com") as [_ Hd].
  - constructor.
  - eapply run_step; [eapply run_step; [apply run_start|]|].
    + apply (step_domains _ _ alice attach). reflexivity.
    + apply (step_domains _ _ alice (DVerify the_domain)). reflexivity.
  - exact Hrun.
  - rewrite Ha. left.
  - left.
  - exact Hd.
Defined.

Lemma dwf_db0 : dwf db0.
Proof.
  split; [decided|decided| | |decided].
  - apply Forall_cons_2; [|constructor]. apply (normalizeHostname_ok "shop.example.com"). vm_compute. reflexivity.
  - apply Forall_cons_2; [|constructor]. exists (service_row_of svc_image "web" "image" "nginx:1"). split; [left|by split].
Qed.
Lemma overrides_routable_applied :
  runs (SyncRoutes sync_web) (λ out _, ∀ o, o ∈ out → ∃ l, normalizeCustomHosts (ro_Hostnames o) = inr l ∧ ∀ h, h ∈ l ↔ h ∈ ro_Hostnames o) w0.
Proof. run_ok Hrun. exact (proj1 (overrides_routable w0 sync_web a w' wf_db0 dwf_db0 Hrun)). Defined.
End DomainsScenario_.

Section ReadinessScenario_.
#[local] Existing Instance serene.
#[local] Existing Instance marked.
#[local] Existing Instance zeros.
#[local] Existing Instance github.
#[local] Existing Instance github_only.
#[local] Instance no_ipv6_here : Addresses := {| netip_ParseAddr6 := λ _, false; ParseIP_String := λ s, Some s |}.
#[local] Instance empty_zone : Resolver :=
  {| LookupCNAME := λ _ _, None; LookupHost := λ _ _, None; EffectiveTLDPlusOne := λ _, Some "example.com" |}.

(** ** The installation *)
Definition seen_agent : db_Agent :=
  {| ag_ID := the_agent; ag_ServerID := the_server; ag_WorkspaceID := the_ws; ag_PublicKey := [];
     ag_CredentialHash := Deployments.hashToken the_secret; ag_AgentVersion := "1"; ag_LastSeenAt := Some 999; ag_CreatedAt := 1;
     ag_DockerAvailable := Some true; ag_DockerVersion := "27.1"; ag_Os := "linux"; ag_Arch := "amd64";
     ag_CaddyAvailable := Some true; ag_CaddyRunning := true; ag_CaddyVersion := "2"; ag_DiskTotalBytes := 0;
     ag_DiskFreeBytes := 0; ag_MemTotalBytes := 0; ag_MemAvailableBytes := 0; ag_CpuCount := 1 |}.
Definition routed (r : db_Service) : db_Service :=
  {| sv_ID := sv_ID r; sv_EnvironmentID := sv_EnvironmentID r; sv_ProjectID := sv_ProjectID r; sv_WorkspaceID := sv_WorkspaceID r;
     sv_Name := sv_Name r; sv_Slug := sv_Slug r; sv_SourceKind := sv_SourceKind r; sv_ImageRef := sv_ImageRef r;
     sv_TemplateID := sv_TemplateID r; sv_ConnectionID := sv_ConnectionID r; sv_Provider := sv_Provider r; sv_Owner := sv_Owner r;
     sv_Repo := sv_Repo r; sv_FullName := sv_FullName r; sv_Branch := sv_Branch r; sv_DefaultBranch := sv_DefaultBranch r;
     sv_IsPrivate := sv_IsPrivate r; sv_HtmlUrl := sv_HtmlUrl r; sv_SourceAccess := sv_SourceAccess r;
     sv_ContainerPort := sv_ContainerPort r; sv_Visibility := sv_Visibility r;
     sv_RouteUrl := "https://" +:+ sv_Slug r +:+ ".apps.example.test"; sv_CreatedAt := sv_CreatedAt r; sv_UpdatedAt := sv_UpdatedAt r |}.
Definition api_running : db_Deployment :=
  deployment_row_of "dep-9" svc_git "running" "production" svc_git "git" "" "main" 0 40 32770.
Definition preview_failed : db_Deployment :=
  deployment_row_of "dep-10" svc_git "failed" "preview" preview_key "git" "" "feature/a" 5 50 0.
Definition db_ready : DB :=
  set_deployments (api_running :: deployments db2) (set_agents [seen_agent]
    (set_domains [mk_dm "dom-1" svc_image "env-1" "prj-1" the_ws "shop.example.com" "pending_dns" "" None 1 1]
      (set_services (map routed (services db2)) db2))).
Definition r0 : World := mk_World db_ready 0 0.
Definition with_preview : World := mk_World (set_deployments (preview_failed :: deployments db_ready) db_ready) 0 0.

#[local] Instance the_readers : ReadinessPorts := app_readers false.
Definition verdict (i : string) (w : World) : option Level :=
  match fst (ServiceReadiness alice i w) with inr l => Some (cl_OverallLevel l) | inl _ => None end.
Definition rows (i : string) (w : World) : list (string * State) :=
  match fst (ServiceReadiness alice i w) with inr l => map (λ k, (ck_Category k, ck_State k)) (cl_Checks l) | inl _ => [] end.

Example api_ready : verdict svc_git r0 = Some LevelReady.
Proof. vm_compute. reflexivity. Qed.
Example web_waits : verdict svc_image r0 = Some LevelAlmostReady.
Proof. vm_compute. reflexivity. Qed.

Definition api_result : Checklist :=
  match fst (ServiceReadiness alice svc_git r0) with inr l => l | inl _ => no_services end.
Lemma api_runs : fst (ServiceReadiness alice svc_git r0) = inr api_result.
Proof. vm_compute. reflexivity. Qed.
Lemma api_level : cl_OverallLevel api_result = LevelReady.
Proof. vm_compute. reflexivity. Qed.

Lemma service_verdict_applied : ∃ now a,
  a ∈ agents_of the_ws db_ready ∧ agent_state false now a = AgentRegistry.ReadinessReady.
Proof.
  destruct (service_verdict false alice svc_git r0 (inr api_result) (snd (ServiceReadiness alice svc_git r0))) as [_ H].
  - rewrite <- api_runs. apply surjective_pairing.
  - destruct (H _ eq_refl) as (svc & now & Hs & _ & _ & [Hr _]).
    destruct (Hr api_level) as (_ & _ & _ & a & Ha & Hst). exists now, a.
    assert (sv_WorkspaceID <$> lookup_by sv_ID svc_git (services (w_db r0)) = Some the_ws) as Hws by (vm_compute; reflexivity).
    rewrite Hs in Hws. injection Hws as Hws. rewrite Hws in Ha. split; [exact Ha|exact Hst].
Defined.

Definition env_result : Checklist :=
  match fst (EnvironmentReadiness alice "env-1" r0) with inr l => l | inl _ => no_services end.
Lemma env_runs : fst (EnvironmentReadiness alice "env-1" r0) = inr env_result.
Proof. vm_compute. reflexivity. Qed.

Lemma environment_verdict_applied : ∃ lists, length lists = 3%nat ∧ cl_OverallLevel env_result = worst (map cl_OverallLevel lists).
Proof.
  destruct (environment_verdict alice "env-1" r0 (inr env_result) (snd (EnvironmentReadiness alice "env-1" r0))) as [_ H].
  - rewrite <- env_runs. apply surjective_pairing.
  - destruct (H _ eq_refl) as (lists & Hall & Hl & _). exists lists. split; [|exact Hl].
    rewrite <- (Forall2_length _ _ _ Hall). vm_compute. reflexivity.
Defined.

(** The production deployment of api still runs; the newest deployment of the service is
    the failed preview, and it decides. *)
Example a_preview_decides :
  verdict svc_git with_preview = Some LevelNotReady ∧
  map (λ r, (dp_Kind r, dp_Status r)) (List.filter (λ r, String.eqb (dp_ServiceID r) svc_git && String.eqb (dp_Status r) "running")
    (deployments (w_db with_preview))) = [("production", "running"); ("preview", "running")].
Proof. split; vm_compute; reflexivity. Qed.
End ReadinessScenario_.
