(* ===== verification/TenancyScenario.v ===== *)
(** * TenancyScenario: workspaces, members and accounts

    On the installation of [ServicesScenario], the owner of the first workspace invites a
    member and removes a server; the theorems about workspaces and members are applied to
    these runs.

    The first user of a closed deployment.  An empty database and a deployment with registration closed.  Alice registers, signs
    in, signs out, forgets her password and resets it; the theorems about credentials
    are applied to these runs.  Two resets with one link that interleave both succeed. *)
From S2P Require Import Prelude.
From S2P Require Import GoStrings.
From S2P Require Import Sha256.
From S2P Require Import Problem.
From S2P Require Import Schema.
From S2P Require Import Platform.
From S2P Require Import Authz.
From S2P Require Import DeployStore.
From S2P Require Import Gateway.
From S2P Require Import BackupSystem.
From S2P Require Import ServicesProps.
From S2P Require Projects.
From S2P Require Import TenancySpec.
From S2P Require Import TenancyProps.
From S2P Require Import Passwd.
From S2P Require Import Auth.
From S2P Require Import AuthSpec.
From S2P Require Import AuthProps.
From S2P Require Import AuthSafety.
From S2P Require Import Scenario.
From S2P Require Import ServicesScenario.

Section TenancyScenario_.
#[local] Existing Instance serene.

Lemma twf_db2 : twf db2.
Proof.
  split; try decided.
  - repeat apply Forall_cons_2; try apply Forall_nil_2.
    + exists (mk_wm the_ws "alice" RoleOwner 1). split; [left|by split].
    + exists (mk_wm "ws-2" "bob" RoleOwner 1). split; [right; right; left|by split].
Qed.

Definition invite : TenancyRequest := TInvite (Projects.mk_InviteMemberInput the_ws " Bob@Example.com" "admin").
Definition invited : World := snd (handle_tenancy alice invite s0).
Lemma tenancy_requests_safe_applied :
  runs (handle_tenancy alice (TDeleteServer the_server)) (λ _ w', twf (w_db w') ∧ inv (w_db w') ∧
    servers (w_db w') = [] ∧ agents (w_db w') = [] ∧ deployments (w_db w') = []) s0.
Proof.
  run_ok Hrun. destruct (tenancy_requests_safe alice (TDeleteServer the_server) _ s0 w' twf_db2 Hrun) as (H1 & H2 & _).
  assert (servers (w_db w') = [] ∧ agents (w_db w') = [] ∧ deployments (w_db w') = []) as H3
    by (vm_compute in Hrun; injection Hrun as _ <-; exact (conj eq_refl (conj eq_refl eq_refl))).
  exact (conj H1 (conj (H2 inv_db2) H3)).
Defined.

(** Bob is an admin now, but no owner, and Alice still is. *)
Lemma ownership_accumulates_applied :
  runs (handle_tenancy alice invite) (λ _ w', member_role the_ws "bob" (w_db w') = Some RoleAdmin ∧
    mk_wm the_ws "alice" RoleOwner 1 ∈ workspace_members (w_db w') ∧
    Forall (granted alice db2) (workspace_members (w_db w'))) s0.
Proof.
  run_ok Hrun. destruct (ownership_accumulates alice invite _ s0 w' twf_db2 Hrun) as (H1 & H2).
  assert (member_role the_ws "bob" (w_db w') = Some RoleAdmin) as Hb by (vm_compute in Hrun; injection Hrun as _ <-; reflexivity).
  split; [exact Hb|]. split; [|exact H2]. apply H1; [left|reflexivity].
Defined.
End TenancyScenario_.

Section AuthScenario_.
(** ** The outside *)
#[local] Existing Instance calm.
(** Every draw is different. *)
#[local] Instance counting : Entropy.
Proof.
  refine {| rand_Read := λ k n, inr (repeat (Z.of_nat k mod 256) n) |}.
  intros k n l [= <-]. split; [apply repeat_length|]. apply Forall_forall.
  intros x Hx%list_elem_of_In%repeat_spec. subst. by apply Z.mod_pos_bound.
Defined.
(** A key that is the password itself, padded. *)
Definition toy_key (pw : string) (n : Z) : list Z :=
  map (λ i, Z.of_N (N_of_ascii (nth i (bytes_of pw) "0"%char))) (seq 0 (Z.to_nat n)).
#[local] Instance toy : Argon2.
Proof.
  refine {| IDKey := λ pw _ _ _ _ n, Some (toy_key pw n) |}.
  intros pw salt t m p n _ _ Hn. exists (toy_key pw n). split; [done|]. unfold toy_key.
  split; [rewrite length_map, length_seq; lia|]. apply Forall_map, Forall_forall. intros i _.
  pose proof (N_ascii_bounded (nth i (bytes_of pw) "0"%char)). lia.
Defined.
#[local] Instance silent : Mailer := {| Send := λ _ _, inr tt |}.

Definition closed : AuthConfig := mk_AuthConfig "https://plorigo.test/" 0 false false.
Definition empty_db : DB := mk_DB [] [] [] [] [] [] [] [] [] [] [] [] [] [] [] [] [] [] [] [] [] [] [] [] [].
Definition nobody : World := mk_World empty_db 0 0.
Definition browser (cookie : string) : Header :=
  mk_Header "" (if String.eqb cookie "" then [] else [(sessionCookieName, cookie)]) "same-origin" "1" "Firefox".
Lemma auwf_empty : auwf empty_db.
Proof. split; constructor. Qed.

(** ** The runs *)
Definition mail_address : string := "alice@example.com".
Definition sign_up : AuthRequest := QRegister "  Alice@Example.com " "correct horse".
Definition sign_in : AuthRequest := QLogin mail_address "correct horse".
Definition registered : World := snd (serve_auth closed false (browser "") sign_up nobody).
Definition inside : World := snd (serve_auth closed false (browser "") sign_in registered).
Definition cookie : string :=
  match fst (serve_auth closed false (browser "") sign_in registered) with inr (inr (RLoggedIn _ tok)) => tok | _ => "" end.
Definition outside : World := snd (serve_auth closed false (browser cookie) QLogout inside).
Lemma auwf_registered : auwf (w_db registered).
Proof.
  destruct (serve_auth closed false (browser "") sign_up nobody) as [r w'] eqn:Hrun.
  pose proof (proj1 (auth_requests_keep closed false _ _ _ _ _ Hrun) auwf_empty) as H. unfold registered. rewrite Hrun. exact H.
Qed.
Lemma auwf_serve h q w : auwf (w_db w) → auwf (w_db (snd (serve_auth closed false h q w))).
Proof.
  intros A. destruct (serve_auth closed false h q w) as [r w'] eqn:Hrun.
  exact (proj1 (auth_requests_keep closed false _ _ _ _ _ Hrun) A).
Qed.
Lemma auwf_inside : auwf (w_db inside).
Proof. apply auwf_serve, auwf_registered. Qed.
Lemma auwf_outside : auwf (w_db outside).
Proof. apply auwf_serve, auwf_inside. Qed.

Lemma auth_requests_safe_applied :
  runs (serve_auth closed false (browser "") sign_up) (λ r w', auwf (w_db w') ∧ twf (w_db w') ∧ r = inr (RRegistered false)) nobody.
Proof.
  run_ok Hrun. assert (a = inr (RRegistered false)) as Ha by (vm_compute in Hrun; injection Hrun as <- _; reflexivity).
  destruct (auth_requests_safe closed false (browser "") sign_up _ nobody w' auwf_empty Hrun) as (H1 & H2 & _).
  assert (twf empty_db) as T by (split; constructor). exact (conj H1 (conj (proj1 (H2 T)) Ha)).
Defined.

(** With registration closed nobody registers after the first user: the gate counts the
    users and asks for no invitation, so a person a member would like to invite is refused,
    and [InviteMember] knows only accounts that exist. *)
Example nobody_else_registers :
  let again := serve_all closed false [(browser "", inl sign_up); (browser "", inl (QRegister "guest@example.com" "correct horse"))] nobody in
  map us_Email (users (w_db again)) = [mail_address].
Proof. vm_compute. reflexivity. Qed.

Lemma signed_in_live : Forall (λ s, ss_RevokedAt s = None ∧ now_at (w_tick inside) < ss_ExpiresAt s) (sessions (w_db inside)).
Proof. decided. Qed.
Definition whoami : string := match users (w_db inside) with u :: _ => us_ID u | [] => "" end.
Lemma login_then_request_applied :
  ∃ now, authInterceptor false (browser cookie) "/controlplane.v1.AuthService/CurrentUser" (λ p, mret (p_UserID p)) inside =
    (inr (inr whoami), mk_World (touch_row (hashToken cookie) now (w_db inside)) (S (w_tick inside)) now).
Proof.
  destruct (serve_auth closed false (browser "") sign_in registered) as [[e|[e|x]] w1] eqn:Hrun;
    [exfalso; vm_compute in Hrun; discriminate Hrun..|].
  assert (w1 = inside) as -> by (unfold inside; rewrite Hrun; reflexivity).
  assert (x = RLoggedIn (mk_User whoami mail_address false 1001) cookie) as -> by (vm_compute in Hrun; injection Hrun as <-; vm_compute; reflexivity).
  destruct (login_then_request closed false (browser "") mail_address "correct horse" (mk_User whoami mail_address false 1001) cookie registered inside auwf_registered) as (row & Hin & _ & _ & Huse);
    [vm_compute; discriminate|exact Hrun|].
  pose proof (proj1 (Forall_forall _ _) signed_in_live row Hin) as [Hlive Hexp].
  eexists. rewrite (Huse [] inside _ row string (λ p, mret (p_UserID p)) (browser cookie) "/controlplane.v1.AuthService/CurrentUser"
    eq_refl Hin eq_refl Hlive eq_refl Hexp eq_refl eq_refl); [reflexivity|vm_compute; reflexivity|reflexivity|discriminate].
Defined.

Lemma signed_out_dead : Exists (λ s, ss_TokenHash s = hashToken cookie ∧ ss_RevokedAt s ≠ None) (sessions (w_db outside)).
Proof. decided. Qed.
Lemma dead_credentials_stay_dead_applied :
  runs (ResolveSession cookie) (λ p _, p = anonymous) (serve_all closed false [(browser "", inl sign_in); (browser cookie, inl QCurrentUser)] outside).
Proof.
  assert (∃ p w', ResolveSession cookie (serve_all closed false [(browser "", inl sign_in); (browser cookie, inl QCurrentUser)] outside) = (inr p, w')) as (p & w' & Hrun)
    by (vm_compute; eexists _, _; reflexivity).
  exists p, w'. split; [exact Hrun|]. pose proof (proj1 (Exists_exists _ _) signed_out_dead) as (s & Hs & Hh & Hr).
  exact (proj1 (dead_credentials_stay_dead closed false _ outside cookie auwf_outside) (ex_intro _ s (conj Hs (conj Hh Hr))) p w' Hrun).
Defined.

Lemma sessions_come_from_passwords_applied :
  ∃ s before r after, s ∈ sessions (w_db inside) ∧ [(browser "", inl sign_up); (browser "", inl sign_in)] = before ++ r :: after ∧
    signed_in_by closed r (serve_all closed false before nobody) s.
Proof.
  destruct (sessions (w_db inside)) as [|s l] eqn:Hs; [exfalso; vm_compute in Hs; discriminate Hs|].
  assert (serve_all closed false [(browser "", inl sign_up); (browser "", inl sign_in)] nobody = inside) as Hrun by (vm_compute; reflexivity).
  assert (s ∈ sessions (w_db (serve_all closed false [(browser "", inl sign_up); (browser "", inl sign_in)] nobody))) as Hin
    by (rewrite Hrun, Hs; left).
  destruct (sessions_come_from_passwords closed false [(browser "", inl sign_up); (browser "", inl sign_in)] nobody s auwf_empty Hin)
    as (before & r & after & H1 & H2).
  - unfold session_ids. simpl. apply not_elem_of_nil.
  - exists s, before, r, after. split; [left|]. exact (conj H1 H2).
Defined.


(** ** A forgotten password *)
Definition forgot : World := snd (password_reset_request closed mail_address inside).
Definition reset_token : string :=
  match rand_Read (S (w_tick inside)) 32 with inr l => str_of (b64_encode l) | inl _ => "" end.
Lemma auwf_forgot : auwf (w_db forgot).
Proof.
  destruct (serve_auth closed false (browser "") (QRequestPasswordReset mail_address) inside) as [r w'] eqn:Hrun.
  assert (w_db w' = w_db forgot) as <- by (vm_compute in Hrun; injection Hrun as _ <-; vm_compute; reflexivity).
  exact (proj1 (auth_requests_keep closed false _ _ _ _ _ Hrun) auwf_inside).
Qed.
Lemma reset_password_effect_applied :
  runs (ResetPassword reset_token "battery staple") (λ _ w', dead_link reset_token (w_db w') ∧
    Forall (λ s, ss_RevokedAt s ≠ None) (sessions (w_db w'))) forgot.
Proof.
  run_ok Hrun. destruct a.
  destruct (reset_password_effect reset_token "battery staple" forgot w' auwf_forgot Hrun) as (t & hash & _ & _ & _ & _ & Hdead & _).
  split; [exact Hdead|]. vm_compute in Hrun. injection Hrun as <-. decided.
Defined.

Lemma link_open : Forall (λ t, ut_ConsumedAt t = None ∧ now_at (w_tick forgot) < ut_ExpiresAt t) (user_tokens (w_db forgot)).
Proof. decided. Qed.
Lemma reset_url raw : appURL closed "/reset" +:+ "?token=" +:+ raw = "https://plorigo.test/reset?token=" +:+ raw.
Proof. vm_compute. reflexivity. Qed.
Lemma mailed_reset_link_works_applied :
  runs (password_reset_request closed mail_address) (λ m w', ∃ raw tid,
    m = Some (mk_Mail mail_address "Reset your Plorigo password"
      ("Reset your Plorigo password:" +:+ nl +:+ nl +:+ ("https://plorigo.test/reset?token=" +:+ raw) +:+ nl +:+ nl +:+
       "This link expires in 1 hour. If you didn't request this, ignore this email.")) ∧
    fst (GetUserToken (hashToken raw) purposePasswordReset w') = inr (Some (mk_userToken tid whoami))) inside.
Proof.
  unfold runs. destruct (password_reset_request closed mail_address inside) as [[e|[m|]] w'] eqn:Hrun;
    [exfalso; vm_compute in Hrun; discriminate Hrun| |exfalso; vm_compute in Hrun; discriminate Hrun].
  exists (Some m), w'. split; [reflexivity|].
  assert (w' = forgot) as -> by (unfold forgot; rewrite Hrun; reflexivity).
  destruct (mailed_reset_link_works closed false mail_address m inside forgot auwf_inside Hrun) as (u & raw & row & Hu & Hm & Hin & Hid & _ & Hget).
  pose proof (proj1 (Forall_forall _ _) link_open row Hin) as [Hc He].
  assert (us_Email u = mail_address ∧ us_ID u = whoami) as [Hem Hw] by (vm_compute in Hu; injection Hu as <-; split; vm_compute; reflexivity).
  exists raw, (ut_ID row). rewrite <- Hw. split.
  - refine (f_equal Some (eq_trans Hm _)). refine (f_equal2 (λ a b, mk_Mail a "Reset your Plorigo password" b) Hem _).
    refine (f_equal (λ t, "Reset your Plorigo password:" +:+ nl +:+ nl +:+ t +:+ nl +:+ nl +:+
      "This link expires in 1 hour. If you didn't request this, ignore this email.") (reset_url raw)).
  - assert (w_db forgot = w_db (serve_all closed false [] forgot)) as Hsame by (vm_compute; reflexivity).
    assert (fault (w_tick forgot) = false) as Hcalm by (vm_compute; reflexivity).
    exact (Hget [] forgot row Hsame Hin eq_refl Hc He Hcalm).
Defined.

(** One link, two requests that checked it before either acted: both change the password. *)
Definition ok_of {X} (r : go_error + X) : option X := match r with inr x => Some x | inl _ => None end.
Definition race : option (list (option string)) :=
  let '(c1, w1) := check_reset_link reset_token "battery staple" forgot in
  let '(c2, w2) := check_reset_link reset_token "stolen password" w1 in
  '(ut1, h1) ← ok_of c1; '(ut2, h2) ← ok_of c2;
  let '(a1, w3) := apply_reset ut1 h1 w2 in
  let '(a2, w4) := apply_reset ut2 h2 w3 in
  _ ← ok_of a1; _ ← ok_of a2;
  Some (map (λ u, h ← us_PasswordHash u; if Verify "stolen password" h then Some "the first" else Some "the second") (users (w_db w4))).
Example reset_link_race : race = Some [Some "the second"].
Proof. vm_compute. reflexivity. Qed.

(** ** Answers and hashes *)
Lemma answers_do_not_tell_applied :
  fst (Login closed (mk_LoginInput "nobody@example.com" "correct horse" "") inside) = inl errInvalidCredentials ∧
  fst (Login closed (mk_LoginInput mail_address "wrong" "") inside) = inl errInvalidCredentials.
Proof.
  split.
  - apply (proj1 (answers_do_not_tell closed (mk_LoginInput "nobody@example.com" "correct horse" "") inside)); [reflexivity|].
    intros u h Hu. exfalso. vm_compute in Hu. discriminate Hu.
  - apply (proj1 (answers_do_not_tell closed (mk_LoginInput mail_address "wrong" "") inside)); [reflexivity|].
    intros u h Hu Hh. vm_compute in Hu. injection Hu as <-. simpl in Hh. injection Hh as <-. vm_compute. discriminate.
Defined.

Lemma password_roundtrip_applied :
  runs (Hash "correct horse") (λ h _, Verify "correct horse" h = None ∧ Verify "wrong horse" h = Some ErrMismatch) nobody.
Proof.
  run_ok Hrun. assert (hash_of "correct horse" a) as Hh
    by (exists 0%nat; eexists _, _; split; [reflexivity|]; split; [reflexivity|]; vm_compute in Hrun; injection Hrun as <- _; vm_compute; reflexivity).
  split; [exact (proj1 (password_roundtrip "correct horse" a Hh))|]. vm_compute in Hrun. injection Hrun as <- _. vm_compute. reflexivity.
Defined.
End AuthScenario_.
