(* ===== verification/WebhookScenario.v ===== *)
(** * WebhookScenario: deliveries and the registration of an App

    The installation of [ServicesScenario], whose workspace connected the App installation
    9001: signed deliveries for the repository acme/api, a registration of a GitHub App
    from the form to the callback, and the interleaving that leaves a stale answer in the
    cache of credentials. *)
From S2P Require Import Prelude.
From S2P Require Import GoStrings.
From S2P Require Import Json.
From S2P Require Import JsonProps.
From S2P Require Import Problem.
From S2P Require Import Schema.
From S2P Require Import Platform.
From S2P Require Import Authz.
From S2P Require Import Sha256.
From S2P Require Import DeployNames.
From S2P Require Import DeployStore.
From S2P Require Import GitHubApp.
From S2P Require Import Webhooks.
From S2P Require Import WebhooksProps.
From S2P Require Import GitHubAppProps.
From S2P Require Import Scenario.
From S2P Require Import ServicesScenario.

(** A clock that reads a date of 2023. *)
#[local] Instance dated : Env := {|
  fault := λ _, false; now_at := λ _, 1700000000000000000; uuid_at := uuid_of;
  uuid_parse_ok := λ s, negb (String.eqb s ""); bcrypt_hash := λ _ p, Some p; open_sealed := open_bytes;
  get_pull_request := λ _ _ _ _, inr (mk_PullRequest "feature/b" "https://example.test/pull/7");
  installation_token := λ _ _, inr (Some "token"); range_order := λ _ l, l; range_order_perm := λ _ l, reflexivity l;
|}.
#[local] Existing Instance marked.
#[local] Existing Instance zeros.
#[local] Instance github_converts : ManifestConverter :=
  {| ConvertManifest := λ _ _, inr (mk_ManifestConversion 77 "plorigo-shop" "PEM" "whsec" "Iv1.abc" "cs") |}.

(** ** Deliveries *)
Definition env_app : EnvConfig := mk_EnvConfig "1" "PEM" "plorigo" "s3cr3t".
Definition payload (action : string) (pr : Z) : bytes :=
  marshal_struct
    [("action", json_text action); ("number", json_int pr);
     ("installation", marshal_struct [("id", json_int 9001)]);
     ("repository", marshal_struct [("name", json_text "API"); ("owner", marshal_struct [("login", json_text "Acme")])]);
     ("pull_request", marshal_struct [("merged", bytes_of "false")])].
Definition signed_delivery (secret action : string) (pr : Z) : Delivery :=
  mk_Delivery (inr (payload action pr)) (signature_of secret (payload action pr)) "pull_request".

Definition opened : Delivery := signed_delivery "s3cr3t" "opened" 7.
Definition closed : Delivery := signed_delivery "s3cr3t" "closed" 5.
Definition after (dl : Delivery) (w : World) : World := snd (githubWebhookHandler env_app dl None w).
Definition code_of (dl : Delivery) (w : World) : option Z :=
  match fst (githubWebhookHandler env_app dl None w) with inr (code, _) => Some code | inl _ => None end.

(** The pull request gets its preview; closing it later queues the teardown. *)
Example opened_creates : code_of opened s0 = Some StatusOK ∧
  map (λ r, (dp_ServiceID r, dp_Kind r, dp_PrNumber r, dp_GitRef r)) (drop 3 (deployments (w_db (after opened s0)))) =
    [(svc_git, KindPreview, 7, "feature/b")].
Proof. split; vm_compute; reflexivity. Qed.
Example closed_tears_down : code_of closed s0 = Some StatusOK ∧
  map td_DeploymentID (drop 1 (teardown_jobs (w_db (after closed s0)))) = ["dep-3"].
Proof. split; vm_compute; reflexivity. Qed.
(** A signature under another secret, and one over another body, are refused. *)
Example forged_refused :
  code_of (signed_delivery "guess" "opened" 7) s0 = Some StatusUnauthorized ∧
  code_of (mk_Delivery (inr (payload "closed" 5)) (dl_Signature opened) "pull_request") s0 = Some StatusUnauthorized ∧
  code_of (mk_Delivery (inr (payload "closed" 5)) "" "pull_request") s0 = Some StatusUnauthorized.
Proof. split; [|split]; vm_compute; reflexivity. Qed.

Lemma opened_changes : w_db (after opened s0) ≠ w_db s0.
Proof. intros H. apply (f_equal (λ d, length (deployments d))) in H. vm_compute in H. discriminate H. Qed.
Lemma webhook_confined_applied : ∃ rows ts aus ids,
  w_db (after opened s0) = added rows ts aus (w_db s0) ∧ length aus = (length rows + length ts)%nat ∧
  Forall (preview_of ids 7) rows.
Proof.
  destruct (webhook_confined env_app opened None s0 (fst (githubWebhookHandler env_app opened None s0)) (after opened s0))
    as (raw & c & p & ids & rows & ts & aus & Hb & _ & _ & _ & Hp & _ & _ & Hw & Hl & Hr & _).
  - apply surjective_pairing.
  - exact opened_changes.
  - exists rows, ts, aus, ids. split; [exact Hw|]. split; [exact Hl|].
    assert (wp_Number p = 7) as Hn; [|rewrite Hn in Hr; exact Hr].
    assert (wp_Number <$> unmarshal_payload (limited (payload "opened" 7)) = Some 7) as Hc by (vm_compute; reflexivity).
    injection Hb as <-. rewrite Hp in Hc. injection Hc as Hc. exact Hc.
Defined.

Definition closed_event : PullRequestEvent := mk_PullRequestEvent "closed" "9001" "Acme" "API" 5 true.
Definition closed_result : HandleResult := mk_HandleResult "closed" 1 0 1 "".
Lemma closed_runs : fst (HandlePullRequest closed_event s0) = inr closed_result.
Proof. vm_compute. reflexivity. Qed.
Lemma delivery_answer_applied : ∃ done,
  account false 5 done (w_db s0) (w_db (snd (HandlePullRequest closed_event s0))) ∧
  done `sublist_of` [svc_git] ∧ length done = 1%nat ∧
  Forall (served false 5 (w_db s0) (w_db (snd (HandlePullRequest closed_event s0)))) [svc_git].
Proof.
  destruct (delivery_answer closed_event s0 closed_result (snd (HandlePullRequest closed_event s0)))
    as [(why & Hr & _)|(create & ids & done & w1 & Ha & Hc & _ & _ & _ & Hsub & Hr & Hacc & Hall)].
  - rewrite <- closed_runs. apply surjective_pairing.
  - exfalso. unfold closed_result in Hr. injection Hr as Hr. discriminate.
  - assert (false = create) as Hcr by (vm_compute in Ha; injection Ha; done).
    assert ([svc_git] = ids) as Hids by (vm_compute in Hc; injection Hc; done).
    subst create ids. unfold closed_result in Hr. injection Hr as Hn.
    assert (length done = 1%nat) as Hlen by lia.
    exists done. exact (conj Hacc (conj Hsub (conj Hlen (Hall Hlen)))).
Defined.

(** ** The registration *)
Definition no_env : EnvConfig := mk_EnvConfig "" "" "" "".
Lemma lawful_box : box_laws.
Proof.
  split.
  - intros n p c [= <-]. apply open_seal.
  - intros n p c [= <-]. apply Forall_cons. split; [lia|]. apply Forall_fmap, Forall_true. intros x. simpl.
    pose proof (N_ascii_bounded x). lia.
  - by intros k p c [= <-].
  - intros n. vm_compute. split; reflexivity.
Qed.

Definition begin_input : BeginRegistrationInput := mk_BeginRegistrationInput the_ws " acme ".
Definition begun : World := snd (BeginRegistration no_env "https://plorigo.test/" "https://plorigo.test/api/github/webhook" alice begin_input s0).
Definition begun_result : BeginRegistrationResult :=
  match fst (BeginRegistration no_env "https://plorigo.test/" "https://plorigo.test/api/github/webhook" alice begin_input s0) with
  | inr r => r | inl _ => mk_BeginRegistrationResult "" "" "" end.
Lemma begun_runs : BeginRegistration no_env "https://plorigo.test/" "https://plorigo.test/api/github/webhook" alice begin_input s0 =
  (inr begun_result, begun).
Proof. vm_compute. reflexivity. Qed.
Lemma registration_round_trip_applied : ∃ nonce n,
  openState (br_State begun_result) = inr (mk_regState the_ws "alice" nonce (Unix (now_at n + stateTTL))).
Proof.
  destruct (registration_round_trip no_env "https://plorigo.test/" "https://plorigo.test/api/github/webhook"
    alice begin_input s0 begun_result begun) as (nonce & n & H & _).
  - exact lawful_box.
  - apply utf8_all_ascii. repeat constructor.
  - apply utf8_all_ascii. repeat constructor.
  - exact begun_runs.
  - exists nonce, n. exact H.
Defined.

(** The nonce as the browser carries it back. *)
Definition nonce_zero : string := "00000000000000000000000000000000".
Definition callback : CompleteRegistrationInput := mk_CompleteRegistrationInput "code" nonce_zero (br_State begun_result).
Definition complete : World → (go_error + (CompleteRegistrationResult * Cache)) * World :=
  CompleteRegistration no_env alice callback None.
Definition registered_result : CompleteRegistrationResult := mk_CompleteRegistrationResult "plorigo-shop" "77".
Lemma complete_runs : fst (complete begun) = inr (registered_result, None).
Proof. vm_compute. reflexivity. Qed.
Lemma begun_singleton : singleton (w_db begun).
Proof. split; decided. Qed.

Lemma registration_takes_effect_applied : ∃ conv,
  mc_WebhookSecret conv = "whsec" ∧
  wp (Current no_env None) (λ r _, ∀ c cached, r = inr (c, cached) → c = converted conv ∧ cached = Some c) (snd (complete begun)).
Proof.
  pose proof (registration_takes_effect no_env alice callback None begun (inr (registered_result, None)) (snd (complete begun))
    lawful_box begun_singleton) as H.
  destruct H as (_ & _ & _ & _ & k & conv & Hc & _ & H).
  - rewrite <- complete_runs. apply surjective_pairing.
  - exists conv. split; [by injection Hc as <-|]. exact (proj1 (H (snd (complete begun)) eq_refl)).
Defined.

Lemma resolvers_coherent_applied :
  wp (Current no_env None) (λ r w', match r with inl _ => True | inr (c, _) => resolved_from no_env (w_db begun) c end) begun.
Proof.
  destruct (resolvers_coherent no_env None begun I) as [H _].
  eapply wp_mono; [|exact H]. intros [e|[c x]] w' [_ Hr]; [exact I|exact (proj1 Hr)].
Defined.

(** *** A stale answer in the cache

    A resolver that read the database before the registration committed stores its answer
    after the registration cleared the cache: from then on the control plane keeps the old
    answer, here none, and refuses the deliveries GitHub signs with the new secret, until
    the next registration or restart. *)
Definition raced : option AppProc :=
  app_steps no_env (mk_AppProc begun None [] 0) [StepMiss; StepCommit alice callback; StepClear; StepStore].
Definition refused_after_race : option (option Z * option string) :=
  s ← raced;
  Some (match fst (githubWebhookHandler no_env (signed_delivery "whsec" "opened" 7) (ap_cache s) (ap_world s)) with
        | inr (code, _) => Some code | inl _ => None end,
        match fst (Current no_env None (ap_world s)) with inr (c, _) => Some (cr_WebhookSecret c) | inl _ => None end).
Example stale_credentials : refused_after_race = Some (Some StatusUnauthorized, Some "whsec").
Proof. vm_compute. reflexivity. Qed.
