(* ===== verification/SetupScenario.v ===== *)
(** * SetupScenario: a server set up over SSH

    The installation of [Scenario] with a machine at 203.0.113.7 that answers as a fresh
    Ubuntu: its management key over time, its setup from the request to the agent online, a
    machine whose host key changed, and what a failed read of the pin lets through. *)
From S2P Require Import Prelude.
From S2P Require Import GoStrings.
From S2P Require Import Problem.
From S2P Require Import Schema.
From S2P Require Import Platform.
From S2P Require Import Authz.
From S2P Require Import DeployStore.
From S2P Require AgentRegistry.
From S2P Require Import ServerSetup.
From S2P Require Import ServerSetupProps.
From S2P Require Import SetupRunner.
From S2P Require Import SetupProps.
From S2P Require Import Scenario.
From S2P Require Import ServicesScenario.

(** Statements number [bad] fail. *)
Definition env_failing (bad : nat → bool) : Env := {|
  fault := bad; now_at := λ n, Z.of_nat n + 1000; uuid_at := λ n, "id-" +:+ Itoa (Z.of_nat n);
  uuid_parse_ok := λ s, negb (String.eqb s ""); bcrypt_hash := λ _ p, Some p; open_sealed := open_bytes;
  get_pull_request := λ _ _ _ _, inr (mk_PullRequest "" ""); installation_token := λ _ _, inr None;
  range_order := λ _ l, l; range_order_perm := λ _ l, reflexivity l;
|}.
#[local] Instance steady : Env := env_failing (λ _, false).
#[local] Existing Instance marked.
#[local] Existing Instance zeros.
#[local] Instance pairs : KeyGenerator :=
  {| Generate := λ n, inr (mk_KeyPair ("PEM-" +:+ Itoa (Z.of_nat n)) ("ssh-ed25519 AAAA" +:+ Itoa (Z.of_nat n) +:+ " plorigo") "SHA256:mgmt") |}.

(** ** The management key *)
Definition provisioned : World := snd (Provision alice the_server w0).
Definition the_credential : Credential :=
  match fst (Provision alice the_server w0) with inr c => c | inl _ => mk_Credential "" "" "" "" "" "" None None None None 0 0 end.
Lemma provisioned_runs : Provision alice the_server w0 = (inr the_credential, provisioned).
Proof. vm_compute. reflexivity. Qed.
Lemma no_keys : kwf (w_db w0).
Proof. split; constructor. Qed.

Lemma key_requests_safe_applied :
  kwf (w_db (snd (handle_key alice (KProvision the_server) w0))) ∧
  fst (handle_key alice (KProvision the_server) w0) = inr tt ∧
  key_effect alice (KProvision the_server) (w_db w0) (w_db (snd (handle_key alice (KProvision the_server) w0))).
Proof.
  assert (fst (handle_key alice (KProvision the_server) w0) = inr tt) as Hok by (vm_compute; reflexivity).
  destruct (key_requests_safe alice (KProvision the_server) w0 (fst (handle_key alice (KProvision the_server) w0))
    (snd (handle_key alice (KProvision the_server) w0)) (surjective_pairing _) no_keys) as (H1 & _ & H3).
  destruct (H3 Hok) as (ws & _ & _ & H). split; [exact H1|]. split; [exact Hok|exact H].
Defined.

(** A read and a use in between. *)
Definition uses : list (Principal * KeyRequest) := [(alice, KGet the_server); (alice, KMarkUsed the_server)].
Lemma stored_key_opens_applied : ∃ n, c_PublicKey the_credential = "ssh-ed25519 AAAA" +:+ Itoa (Z.of_nat n) +:+ " plorigo" ∧
  fst (OpenPrivateKey alice the_server (key_history uses provisioned)) = inr ("PEM-" +:+ Itoa (Z.of_nat n)).
Proof.
  destruct (stored_key_opens alice the_server false w0 the_credential provisioned uses) as (n & kp & Hg & Hp & _ & _ & H).
  - intros n p c [= <-]. apply open_seal.
  - exact provisioned_runs.
  - repeat constructor; discriminate.
  - injection Hg as <-. exists n. split; [exact Hp|]. apply (H alice the_ws
      (snd (authorizeServer alice the_server ActionServerSetupRun (key_history uses provisioned)))); vm_compute; reflexivity.
Defined.

Definition revoked : World := snd (Revoke alice the_server provisioned).
Lemma revoked_runs : Revoke alice the_server provisioned = (inr tt, revoked).
Proof. vm_compute. reflexivity. Qed.
Lemma revoked_key_unusable_applied :
  ∃ e, fst (handle_key alice (KOpen the_server) (key_history uses revoked)) = inl e.
Proof.
  destruct (revoked_key_unusable alice the_server provisioned revoked uses) with (1 := revoked_runs)
    (c2 := alice) (q := KOpen the_server) (r := fst (handle_key alice (KOpen the_server) (key_history uses revoked)))
    (w3 := snd (handle_key alice (KOpen the_server) (key_history uses revoked))) as [(e & He) _].
  - repeat constructor; discriminate.
  - unfold uses_key. auto.
  - apply surjective_pairing.
  - exists e. exact He.
Defined.

(** ** The setup *)

(** What the machine prints. *)
Definition ubuntu : string := "NAME='Ubuntu'" +:+ newline +:+ "VERSION_ID='24.04'" +:+ newline +:+ "ID=ubuntu" +:+ newline.
Definition machine (cmd : string) : SessionResult :=
  if String.eqb cmd cmd_os_release then Finished ubuntu ""
  else if String.eqb cmd cmd_uid then Finished ("0" +:+ newline) ""
  else if String.eqb cmd cmd_lock then Finished "FREE" ""
  else if String.eqb cmd cmd_ufw then Finished "Status: inactive" ""
  else if HasPrefix cmd "curl " then Finished ("installing" +:+ newline +:+ newline +:+ "done" +:+ newline) ""
  else Finished "" "".
(** The machine presents the key [fp] and accepts any login. *)
Definition box_at (fp : string) : SSHLibrary := {|
  ParsePrivateKey := λ _ _, true; net_Dial := λ _ _, None; presented_key := λ _ _, Some fp;
  authenticate := λ _ _ _, None; NewSession := λ _, None; session_Run := λ _, machine;
|}.
#[local] Instance patient : RunContext := {| ctx_Err := λ _, false |}.

Definition request : StartSetupInput := mk_StartSetupInput the_server "203.0.113.7" 0 "root" (mk_BootstrapAuth "pw" "" "").
Definition seen_agent : db_Agent :=
  {| ag_ID := the_agent; ag_ServerID := the_server; ag_WorkspaceID := the_ws; ag_PublicKey := [];
     ag_CredentialHash := []; ag_AgentVersion := "1"; ag_LastSeenAt := Some 900; ag_CreatedAt := 1;
     ag_DockerAvailable := Some true; ag_DockerVersion := ""; ag_Os := ""; ag_Arch := "";
     ag_CaddyAvailable := Some true; ag_CaddyRunning := true; ag_CaddyVersion := ""; ag_DiskTotalBytes := 0;
     ag_DiskFreeBytes := 0; ag_MemTotalBytes := 0; ag_MemAvailableBytes := 0; ag_CpuCount := 1 |}.
Definition fresh (fp : string) : World :=
  mk_World (set_agents [seen_agent] (set_servers [mk_srv the_server the_ws "box" "box" 1 fp] db0)) 0 0.
Definition queued (fp : string) : World := snd (StartSetup alice request (fresh fp)).
Definition the_run (fp : string) : SetupRun :=
  match fst (StartSetup alice request (fresh fp)) with inr r => r | inl _ => mk_SetupRun "" "" "" "" "" None 0 0 None end.
Definition runner (fp : string) : Runner := runner_of alice "https://plorigo.test" (the_run fp) request.
Definition before (fp : string) : Session := mk_Session (queued fp) [].

(** A first contact with a machine, and a machine with another key than the pinned one. *)
Definition first : Session := snd (runSetup (L := box_at "SHA256:box") (runner "") request (before "")).
Definition changed : Session := snd (runSetup (L := box_at "SHA256:other") (runner "SHA256:box") request (before "SHA256:box")).
Definition row_of (s : Session) : db_ServerSetupRun := hd (mk_ssr "" "" "" "" "" None 0 0 None) (server_setup_runs (w_db (s_world s))).

Example first_contact : sru_Status (row_of first) = "succeeded" ∧
  map srv_HostKeyFingerprint (servers (w_db (s_world first))) = ["SHA256:box"] ∧
  map se_Message (take 5 (drop 1 (server_setup_events (w_db (s_world first))))) =
    ["Pinned the server's host key: SHA256:box"; "Connected. Host key SHA256:box."; ""; "Detected Ubuntu 24.04 LTS."; ""].
Proof. split; [|split]; vm_compute; reflexivity. Qed.
Example changed_refused : sru_Status (row_of changed) = "failed" ∧ sru_FailureReason (row_of changed) = connectReason ErrHostKeyMismatch ∧
  List.filter (λ e, match e with EvRun _ _ => true | _ => false end) (s_trace changed) = [].
Proof. split; [|split]; vm_compute; reflexivity. Qed.

(** ** The theorems applied *)
Lemma run_eq {E : Env} {A : Authorizer} {B : Sealer} {K : KeyGenerator} {L : SSHLibrary} {C : RunContext} {P : AgentProvisioner} r i s :
  runSetup r i s = (tt, snd (runSetup r i s)).
Proof. by destruct (runSetup r i s) as [[] s']. Qed.

Lemma setup_outcome_applied :
  sru_Status (row_of first) = "succeeded" ∧
  ∃ s1 s2, silent (before "") s1 ∧ set_up (L := box_at "SHA256:box") (runner "") s1 s2 ∧ silent s2 first.
Proof.
  assert (sru_Status (row_of first) = "succeeded") as Hst by (vm_compute; reflexivity). split; [exact Hst|].
  assert (row_of first ∈ server_setup_runs (w_db (s_world first))) as Hin by (vm_compute; left).
  assert (sru_ID (row_of first) = rn_setupRunID (runner "")) as Hid by (vm_compute; reflexivity).
  destruct (setup_outcome (L := box_at "SHA256:box") (runner "") request (before "") first (row_of first) (run_eq _ _ _) Hin Hid) as [Hs _].
  destruct (Hs Hst) as [Hold|(s1 & s2 & N1 & Hset & N2 & _)].
  - exfalso. apply (list_elem_of_fmap_2 sru_Status) in Hold. rewrite Hst in Hold.
    assert (sru_Status <$> server_setup_runs (w_db (s_world (before ""))) = ["queued"]) as Hq by (vm_compute; reflexivity).
    rewrite Hq in Hold. apply list_elem_of_singleton in Hold. discriminate.
  - exists s1, s2. split; [exact N1|]. split; [exact Hset|exact N2].
Defined.

Lemma setup_confined_applied :
  touched the_server (rn_setupRunID (runner "")) (w_db (s_world (before ""))) (w_db (s_world first)) ∧
  Forall (λ row, public (L := box_at "SHA256:box") (s_trace first) (se_Message row)) (server_setup_events (w_db (s_world first))).
Proof.
  destruct (setup_confined (L := box_at "SHA256:box") (runner "") request (before "") first (run_eq _ _ _) eq_refl) as [Ht He].
  split; [exact Ht|]. apply Forall_forall. intros row Hr. destruct (He row Hr) as [Hold|H]; [|exact H].
  assert (server_setup_events (w_db (s_world (before ""))) = []) as H0 by (vm_compute; reflexivity).
  rewrite H0 in Hold. by apply not_elem_of_nil in Hold.
Defined.

Lemma host_key_trust_applied :
  servers (w_db (s_world changed)) = servers (w_db (s_world (before "SHA256:box"))) ∧ silent (before "SHA256:box") changed.
Proof.
  destruct (host_key_trust (L := box_at "SHA256:other") (runner "SHA256:box") request (before "SHA256:box") changed (run_eq _ _ _)) as [_ H].
  destruct (H "SHA256:box") as [Hs [N|[n Hn]]].
  - reflexivity.
  - vm_compute. reflexivity.
  - discriminate.
  - split; [exact Hs|exact N].
  - discriminate Hn.
Defined.

(** ** A failed read of the pin

    The third statement of the run is the read of the stored fingerprint.  When it fails,
    the run dials without a pin, runs its commands on the machine whose key changed, and
    replaces the fingerprint on record. *)
Definition shaky : Env := env_failing (Nat.eqb (w_tick (queued "SHA256:box") + 2)).
Definition misled : Session :=
  snd (runSetup (E := shaky) (A := policy_authorizer (E := shaky)) (P := registry_provisioner (E := shaky)) (L := box_at "SHA256:other")
    (runner "SHA256:box") request (before "SHA256:box")).
Example read_fault_trusts_any_key :
  sru_Status (row_of misled) = "succeeded" ∧ map srv_HostKeyFingerprint (servers (w_db (s_world misled))) = ["SHA256:other"].
Proof. split; vm_compute; reflexivity. Qed.

(** A retry after the revocation of the access does not re-pin: the stored fingerprint
    stays, and the machine is refused again. *)
Definition after_revoke : World := snd (Revoke alice the_server (snd (Provision alice the_server (queued "SHA256:box")))).
Example revoke_keeps_the_pin :
  fst (Revoke alice the_server (snd (Provision alice the_server (queued "SHA256:box")))) = inr tt ∧
  map srv_HostKeyFingerprint (servers (w_db after_revoke)) = ["SHA256:box"] ∧
  sru_FailureReason (row_of (snd (runSetup (L := box_at "SHA256:other") (runner "SHA256:box") request (mk_Session after_revoke [])))) =
    connectReason ErrHostKeyMismatch.
Proof. split; [|split]; vm_compute; reflexivity. Qed.
